(* ===== verification/_CoqProject ===== *)
-Q . S2P
Prelude.v
HeapIface.v
Kheap.v
KheapSpec.v
KheapProps.v
KheapLock.v
Vmm.v
VmmSpec.v
VmmProps.v
KString.v
KStringProps.v
Fs.v
FsSpec.v
FsDelete.v
FsPath.v
FsOps.v
FsProps.v
Persist.v
PersistSpec.v
PersistLoad.v
PersistProps.v
Ring.v
Task.v
TaskSpec.v
TaskProps.v
Pty.v
PtyProps.v
Fd.v
FdProps.v
Mbuf.v
Net.v
NetIn.v
NetSpec.v
NetWire.v
NetQuiet.v
NetTcp.v
NetArp.v
Dns.v
DnsProps.v
Sock.v
Dhcp.v
NetProps.v
VmmFrame.v
UserMem.v
UserSpace.v
UserMemSpec.v
UserHeap.v
UserHeapSpec.v
UserHeapMap.v
UserHeapOps.v
UserHeapSpace.v
UserHeapProps.v
KStdio.v
KStdioProps.v
Elf.v
ElfProps.v
Security.v
SecurityProps.v
Keyboard.v
KeyboardProps.v
Mouse.v
MouseProps.v
Poll.v
PollProps.v
Fork.v
ForkSpec.v
ForkSpace.v
ForkProps.v
Apart.v
Spawn.v
SpawnMem.v
SpawnProps.v
ExecProps.v
Proc.v
ProcPipes.v
ProcProps.v
Futex.v
FutexProps.v
Pthread.v
PthreadProps.v
