(* ===== verification/Prelude.v ===== *)
(** * A verification of the EigenOS kernel

    EigenOS is a hobby operating system for x86-64.  This library translates the
    parts of its kernel that keep state of their own into executable Rocq
    definitions, and proves what makes them correct, or, where they are not,
    what they do instead.  Paths below are relative to the repository.

    ** The program and its parts

    The kernel gets physical pages from [src/kernel/mem/pmm.c], maps them with
    [src/kernel/mem/vmm.c] and allocates from one 128 MB array with
    [src/kernel/mem/kheap.c].  Every other part lives on that heap: the RAM file
    system ([src/filesystem/filesystem.c]) keeps file bodies in it, the
    persistence layer ([src/filesystem/persist.c]) copies the file table to two
    slots of a disk and rebuilds it at boot, the network stack
    ([src/kernel/net]) takes its buffers from it, and so do the block
    descriptors of the user heap ([src/kernel/syscall.c]) and the kernel stacks.
    Tasks, signals, descriptors and pipes are in [src/kernel/task/task.c]; a
    descriptor leads to a file, a mounted node, a pipe or a pseudo-terminal
    ([src/kernel/pty.c]), whose line discipline sends signals back to the task
    table; poll and epoll (syscall.c) ask all of them whether they are ready.
    A process is started by task.c in an address space of its own, filled by the
    ELF loader ([src/kernel/elf.c]) or, at fork, copied from its parent's page by
    page.  Beside these stand the kernel's C library ([src/kernel/lib]), the user
    accounts ([src/kernel/security/security.c]) and the keyboard and the mouse
    ([src/drivers/input]).  The threads of a process are tasks of their own that
    share its address space; their library ([src/user/lib/pthread]) sleeps and
    wakes through the futex call.

    ** Files, and what they model

    - [Prelude]: machine integers as [Z] with their wrap-around written out,
      little-endian fields, byte windows ([slice], [splice]), C strings, the
      first-slot scan [find_from], and the tactics [zify_div] and [case_all].
    - [HeapIface]: the classes [KernelHeap] and [KernelHeapSpec], what the heap
      promises to its clients.  The file system, the persistence layer, the
      network, the user heap and the processes are written against the
      operations; their theorems use the laws.
    - [Kheap], [KheapSpec], [KheapProps], [KheapLock]: kheap.c.  Headers are a
      map from addresses, walked by [next] as the C does; [KheapSpec] relates
      the walk to a list of segments that tiles the array and proves the
      instance of the interface.  [KheapLock] is the recursive lock as a step
      relation of single memory accesses of any number of tasks.
    - [Vmm], [VmmSpec], [VmmProps], [VmmFrame]: pmm.c and vmm.c.
      Physical memory is a map from page addresses to 512 words; [VmmSpec] keeps
      the tables reachable from CR3 a tree of distinct pages; [VmmFrame] says
      what mapping a page leaves alone, the pages of others ([reserve]) included.
    - [UserMem], [UserSpace], [UserMemSpec]: the kernel's accesses to user memory
      through the current tables, and [window]s, parts of an address space whose
      pages have frames of their own, in which a store changes one byte.
    - [UserHeap], [UserHeapSpec], [UserHeapMap], [UserHeapOps], [UserHeapSpace],
      [UserHeapProps]: the allocator of syscall.c that user
      programs get their memory from, and its release at the exit of a task.
      Descriptors are a map linked by [next] and [prev]; the list of blocks they
      represent, its invariant, the pages behind the blocks, and the calls have a
      file each.
    - [KString], [KStringProps]: src/kernel/lib/string.c and the string
      routines of src/commands/commands.c over one flat memory, so that
      overlapping arguments mean what they do in C.  [KStdio], [KStdioProps]:
      stdio.c, stdlib_ext.c and ctype.c of the same directory.
    - [Fs] (definitions), [FsSpec] (the tree invariant), [FsDelete],
      [FsPath], [FsOps] (lemmas per group of operations), [FsProps]:
      filesystem.c.  One record for the table of 256 nodes and the heap.
    - [Persist], [PersistSpec], [PersistLoad], [PersistProps]:
      persist.c over a device of 512-byte sectors, where the caller says which
      reads and writes fail.
    - [Ring]: the byte rings of pty.c and the pipe buffers of task.c, both
      instances of one class of bounded byte queues.
    - [Task], [TaskSpec], [TaskProps]: the task table, signals, sleeping, the
      scheduler and wait of task.c.  The processor is the registers [schedule]
      programs; of memory there is what these functions read and write.
    - [Pty], [PtyProps]: pty.c.
    - [Fd], [FdProps]: descriptors, pipes and reads and writes through them,
      with the mount table of [src/filesystem/vfs.c].  [Poll], [PollProps]: poll
      and the epoll monitors of syscall.c over them.
    - [Elf], [ElfProps]: elf.c.
    - [Fork], [ForkSpec], [ForkSpace], [ForkProps]: [copy_user_as] of task.c.
    - [Spawn]: the memory [create_user_process_elf_redir] and [sys_execve] of
      task.c build.  [Apart] (what building a space leaves alone), [SpawnMem]
      (stack, TLS page, argument block), [SpawnProps], [ExecProps].
    - [Proc]: [sys_fork], spawn, [create_user_thread] and the exits of task.c as
      whole functions over tasks, descriptors, address spaces and heaps;
      [ProcProps], and [ProcPipes] for the pipes through all of them.
    - [Futex], [FutexProps]: the futex, thread, wait and exit calls of syscall.c.
      [Pthread], [PthreadProps]: mutexes, semaphores and condition variables of
      src/user/lib/pthread/pthread.c as steps of any number of threads, in any
      order, over the futexes and the task table.
    - [Keyboard], [KeyboardProps], [Mouse], [MouseProps]: keyboard.c, mouse.c.
      [Security], [SecurityProps]: security.c.
    - [Mbuf]: mbuf.c, the byte order of in.h, the checksum loops of ip.c.
      [Net]: the state of the stack and the way down (if.c, if_loop.c,
      ethernet.c, arp.c, ip.c, udp.c, the output of e1000.c).  [NetIn]: the way
      up, with icmp.c and the TCP of socket.c.  [Sock]: the socket calls.
      [Dns], [Dhcp]: dns.c and dhcp.c.  [NetSpec] (byte order, checksum,
      chains, headers), [NetWire] (frames sent and received), [NetQuiet] (what
      sending leaves alone), [NetTcp], [NetArp] hold the lemmas;
      [NetProps] and [DnsProps] the properties.

    A C function keeps its name.  A loop of a function is a [Fixpoint] named
    after it ([walk_loop], [merge_loop]); a pointer is its address or the index
    of its table; NULL and error codes are [None] or the code itself; a
    computation that faults or never comes back is [None] where the file says so.

    ** What the theorems show

    - Memory: [kmalloc] is first-fit allocation with splitting, gives disjoint
      aligned blocks, and [kfree] undoes it and coalesces; at most one task is
      inside the allocator; mapping, range mapping, unmapping and new address
      spaces change exactly the translations they should, and fail only without
      pages; the boot-time page stack holds each usable page once.
    - User memory: the user heap refines an allocator on a list of blocks, gives
      every allocated page a cleared frame of its own over any run of calls, and
      takes it back; which failures and exits break it.
    - Programs: a loaded image is the file's bytes and zeros, on frames that were
      free; a spawned process finds image, arguments, environment and TLS page,
      and its creator keeps its memory; after a fork both read the same and
      neither sees the other's stores; what an [execve] with arguments ends in,
      when its vector is not where the new image is.
    - Processes: the frame a child starts from; what a failed fork gives back and
      what it returns; a thread's pages come and go; the canary it lacks; over
      every sequence of descriptor calls, forks, spawns, threads and exits no pipe
      reaches its end, as long as the reference counts fit their ints.
    - Synchronisation: a futex wake rouses the first waiters of its process; a
      mutex excludes (while its recursion count fits an int) and a semaphore counts
      in every interleaving of any number of threads; a broadcast misses nobody; and two interleavings after which a
      thread sleeps for ever, on a free mutex and beside a token.
    - Strings and formatting: copying for every overlap, ordering, searching, with
      termination; [vsnprintf] equals a reference formatter, which knows no buffer
      and writes numbers in positional notation, cut to size.
    - File system: every run of calls, moves, copies and the trash included, keeps
      a rooted tree of properly named nodes that own their bodies, under the
      conditions [fs_step] states; what is written is read; what is created is
      found; deletion ends, clears a subtree and frees its bodies; three defects (a missing parent,
      the trash inside itself, the text of the working directory).
    - Persistence: whichever sector writes of a sync fail that starts from a good
      snapshot, a boot gives that or the new one; a boot after a sync rebuilds
      the table, and the bodies that no boot-module alias precedes; the CRC
      detects a byte; a corrupt newer slot discards the older one.
    - Tasks: a tick leaves one running task, chosen round robin with its
      registers programmed; a runnable task runs within 64 ticks when nothing is
      killed on the way; [sys_wait4] reaps the wrong children.
    - Descriptors and terminals: pipes are FIFO through both descriptors; the
      reachable terminals are well formed; the cooked line is the edited line;
      poll returns at the first ready pass; an epoll monitor is a finite map.
    - Input: the keyboard is a bounded queue of the events of its scan codes; the
      mouse decodes the packets that were sent.
    - Accounts: an account is admitted under its own name and password only.
    - Network: a datagram arrives as it was sent, through both stacks; which
      frames make a handler leave its buffer; address resolution and how its table
      fills up; what a TCP receiver hands on and the acknowledgements it sends;
      host names survive the wire format.

    ** Bounds and fuel

    Loops over a table recurse on the table or on its size.  Walks of the heap's
    block list have one step per header ([walk_fuel]), walks of the user heap one
    more than there are descriptors; path walks one per byte;
    [delete_recursive] takes the depth of its recursion, for which some bound is
    enough in a tree ([FsDelete]), while a cycle makes every bound too small,
    which is how the defect of the trash is stated.  [fold16] has three rounds, enough for 32 bits
    ([fold16_spec]); [parse_dns_name] gets 17 steps for each byte of the message,
    more than any parse that returns can take.  The loops that map pages stop when
    the free stack is empty, so one step more than there are free pages is
    enough; the copy of an address space recurses on the level of the table.  The
    format string is read with one step per byte and one for its end, a number
    has at most 64 digits.  The strings a spawn or [execve] copies take a fuel
    that bounds their length, and the theorems hold for every fuel that does.
    Waits of the C with a bound (500, 400, 100, 40 polls, 8 tries) recurse on that
    bound; waits without one are a single pass, or recurse on the list of what
    arrives, as poll and epoll do on the list of the worlds they see.

    ** What is not modelled, and why

    Device registers and descriptor rings of the drivers, the TLB, assembly and
    interrupt entry, the framebuffer and everything above it have no state a
    definition of this kind could check.  Messages to the serial port and the
    logs are left out everywhere, and so are the names of tasks and their FPU
    state.  TLS is a wrapper around third-party code, ACPI a walk over tables of
    the firmware; the dispatch of system calls is a table over the functions
    modelled here with the checks of user pointers.  Of user space there is the
    pthread library alone, because it is the other half of the futexes; programs,
    the C library and the vendored libraries are not part of the kernel.  In the C library the FILE
    functions, [exit] and floating point are left out.  Except for the heap's
    lock and the pthread library the models are sequential: a function runs to its
    end, and where it sleeps the frames that arrive meanwhile are an argument.  A
    system call runs with interrupts off, so between its sleeps nothing else runs. *)
From Stdlib Require Import ZArith Lia.
From stdpp Require Import base numbers list gmap strings.

Declare Scope eigen_scope.
Delimit Scope eigen_scope with eigen.
#[global] Open Scope Z_scope.

Create HintDb eigen.

(** ** Machine integers

    A w-bit unsigned integer is a [Z] in [0, 2^w); the C conversions and the
    wrap-around of the arithmetic are written out with these functions. *)

Definition wrap (w z : Z) : Z := z mod 2 ^ w.

Abbreviation u8 := (wrap 8) (only parsing).
Abbreviation u16 := (wrap 16) (only parsing).
Abbreviation u32 := (wrap 32) (only parsing).
Abbreviation u64 := (wrap 64) (only parsing).

(** Conversion to [int32_t]: two's complement. *)
Definition i32 (z : Z) : Z := (z + 2 ^ 31) mod 2 ^ 32 - 2 ^ 31.

Definition is_byte (b : Z) : Prop := 0 <= b < 256.

Lemma wrap_bounds w z : 0 <= w -> 0 <= wrap w z < 2 ^ w.
Proof. intros. unfold wrap. apply Z.mod_pos_bound. by apply Z.pow_pos_nonneg. Qed.

Lemma wrap_small w z : 0 <= z < 2 ^ w -> wrap w z = z.
Proof. intros. by apply Z.mod_small. Qed.

Lemma wrap_idemp w z : 0 <= w -> wrap w (wrap w z) = wrap w z.
Proof. intros. apply wrap_small. by apply wrap_bounds. Qed.

Lemma i32_small z : - 2 ^ 31 <= z < 2 ^ 31 -> i32 z = z.
Proof. intros. unfold i32. rewrite Z.mod_small; lia. Qed.

(** Bit fields as arithmetic. *)

Lemma land_field x lo n :
  0 <= lo -> 0 <= n -> Z.land x (Z.shiftl (Z.ones n) lo) = (x / 2 ^ lo) mod 2 ^ n * 2 ^ lo.
Proof.
  intros. rewrite <-Z.shiftr_div_pow2, <-Z.land_ones, <-Z.shiftl_mul_pow2 by lia.
  apply Z.bits_inj'. intros i Hi. rewrite Z.land_spec, !Z.shiftl_spec, Z.land_spec by lia.
  destruct (decide (i < lo)).
  { rewrite !Z.testbit_neg_r with (n := i - lo) by lia. by rewrite andb_false_r. }
  rewrite Z.shiftr_spec by lia. by replace (i - lo + lo) with i by lia.
Qed.

Lemma lor_disjoint a b k : 0 <= k -> a mod 2 ^ k = 0 -> 0 <= b < 2 ^ k -> Z.lor a b = a + b.
Proof.
  intros Hk Ha Hb. symmetry. apply Z.add_nocarry_lor. apply Z.bits_inj'. intros i Hi.
  rewrite Z.land_spec, Z.bits_0. destruct (decide (i < k)).
  - rewrite <-(Z.mod_pow2_bits_low a k i) by lia. by rewrite Ha, Z.bits_0.
  - rewrite <-(Z.mod_small b (2 ^ k)) by lia.
    rewrite (Z.mod_pow2_bits_high b k i) by lia. by rewrite andb_false_r.
Qed.

(** ** Little-endian encoding of the packed structures *)

Fixpoint le_bytes (n : nat) (z : Z) : list Z :=
  match n with
  | O => []
  | S n => z mod 256 :: le_bytes n (z / 256)
  end.

Fixpoint le_val (bs : list Z) : Z :=
  match bs with
  | [] => 0
  | b :: bs => b + 256 * le_val bs
  end.

Lemma length_le_bytes n z : length (le_bytes n z) = n.
Proof. revert z. induction n; intros; simpl; auto. Qed.

Lemma le_val_bytes n z : le_val (le_bytes n z) = z mod 256 ^ Z.of_nat n.
Proof.
  revert z. induction n as [|n IH]; intros z.
  - by rewrite Z.mod_1_r.
  - simpl. rewrite IH, Nat2Z.inj_succ, Z.pow_succ_r by lia.
    rewrite Z.rem_mul_r; lia.
Qed.

Lemma le_val_bytes_small n z :
  0 <= z < 256 ^ Z.of_nat n -> le_val (le_bytes n z) = z.
Proof. intros. rewrite le_val_bytes. by apply Z.mod_small. Qed.

Lemma Forall_le_bytes n z : Forall is_byte (le_bytes n z).
Proof.
  revert z. induction n; intros; simpl; constructor; auto.
  unfold is_byte. apply Z.mod_pos_bound. lia.
Qed.

(** ** Byte buffers: reading a window of a buffer and copying into one *)

Definition slice (off len : nat) {A} (l : list A) : list A := take len (drop off l).

(** [memcpy (buf + off) bs] inside a buffer. *)
Definition splice {A} (off : nat) (bs l : list A) : list A :=
  take off l ++ bs ++ drop (off + length bs) l.

Lemma length_splice {A} off (bs l : list A) :
  (off + length bs <= length l)%nat -> length (splice off bs l) = length l.
Proof. intros. unfold splice. rewrite !length_app, length_take, length_drop. lia. Qed.

Lemma slice_splice_eq {A} off (bs l : list A) :
  (off + length bs <= length l)%nat -> slice off (length bs) (splice off bs l) = bs.
Proof.
  intros. unfold slice, splice.
  rewrite drop_app_length' by (rewrite length_take; lia).
  by rewrite take_app_length.
Qed.

Lemma slice_splice_before {A} o n off (bs l : list A) :
  (o + n <= off)%nat -> (off <= length l)%nat -> slice o n (splice off bs l) = slice o n l.
Proof.
  intros. unfold slice, splice.
  rewrite drop_app_le by (rewrite length_take; lia).
  rewrite take_app_le by (rewrite length_drop, length_take; lia).
  rewrite skipn_firstn_comm, take_take. f_equal. lia.
Qed.

Lemma slice_splice_after {A} o n off (bs l : list A) :
  (off + length bs <= o)%nat -> (off + length bs <= length l)%nat ->
  slice o n (splice off bs l) = slice o n l.
Proof.
  intros. unfold slice, splice.
  rewrite app_assoc, drop_app_ge by (rewrite length_app, length_take; lia).
  rewrite drop_drop. do 2 f_equal. rewrite length_app, length_take. lia.
Qed.

Lemma length_slice {A} o n (l : list A) :
  (o + n <= length l)%nat -> length (slice o n l) = n.
Proof. intros. unfold slice. rewrite length_take, length_drop. lia. Qed.

(** ** C strings

    A [char*] argument is the list of its bytes before the terminating NUL. *)

Fixpoint cstr (l : list Z) : list Z :=
  match l with
  | [] => []
  | c :: l => if c =? 0 then [] else c :: cstr l
  end.

(** A byte list that can be the content of a C string. *)
Definition is_cstr (s : list Z) : Prop := Forall (fun c => 0 < c < 256) s.

(** String literals of the source. *)
Definition str (s : string) : list Z :=
  (fun c => Z.of_N (Ascii.N_of_ascii c)) <$> String.list_ascii_of_string s.

Lemma cstr_is_cstr s r : is_cstr s -> cstr (s ++ 0 :: r) = s.
Proof.
  induction 1 as [|c s Hc _ IH]; [done|]. simpl.
  destruct (Z.eqb_spec c 0); [lia|]. by rewrite IH.
Qed.

Lemma cstr_id s : is_cstr s -> cstr s = s.
Proof.
  induction 1 as [|c s Hc _ IH]; [done|]. simpl.
  destruct (Z.eqb_spec c 0); [lia|]. by rewrite IH.
Qed.

Lemma Forall_cstr (P : Z -> Prop) l : Forall P l -> Forall P (cstr l).
Proof. induction 1; simpl; [done|]. case_match; auto. Qed.

Lemma cstr_nonzero l : Forall (fun c => c <> 0) (cstr l).
Proof. induction l; simpl; [done|]. destruct (Z.eqb_spec a 0); auto. Qed.

Lemma length_cstr l : (length (cstr l) <= length l)%nat.
Proof. induction l; simpl; [lia|]. case_match; simpl; lia. Qed.

#[global] Instance is_cstr_dec s : Decision (is_cstr s).
Proof. unfold is_cstr. apply _. Defined.

(** ** Finding the first slot of a table

    The C scans [for (i = lo; i < n; i++) if (test) return i;] are
    [find_from]: the index of the first entry at or after [lo] that passes. *)

Fixpoint find_at {A} (test : nat -> A -> bool) (i : nat) (l : list A) : option nat :=
  match l with
  | [] => None
  | x :: l => if test i x then Some i else find_at test (S i) l
  end.

Definition find_from {A} (test : nat -> A -> bool) (lo : nat) (l : list A) : option nat :=
  find_at test lo (drop lo l).

Lemma find_at_Some {A} test i (l : list A) k :
  find_at test i l = Some k <->
  (i <= k)%nat /\ (exists x, l !! (k - i)%nat = Some x /\ test k x = true) /\
  (forall j y, (i <= j < k)%nat -> l !! (j - i)%nat = Some y -> test j y = false).
Proof.
  revert i. induction l as [|x l IH]; intros i; simpl.
  - split; [done|]. intros (_ & (x & Hx & _) & _). done.
  - destruct (test i x) eqn:E.
    + split.
      * intros [= <-]. split; [done|]. rewrite Nat.sub_diag. split; [eauto|].
        intros; lia.
      * intros (Hik & (y & Hy & Ty) & Hmin).
        destruct (decide (i = k)) as [->|]; [done|].
        specialize (Hmin i x). rewrite Nat.sub_diag in Hmin.
        rewrite Hmin in E; [done|lia|done].
    + rewrite IH. split.
      * intros (Hik & (y & Hy & Ty) & Hmin). split; [lia|]. split.
        -- exists y. replace (k - i)%nat with (S (k - S i)) by lia. done.
        -- intros j z Hj. destruct (decide (i = j)) as [->|].
           ++ rewrite Nat.sub_diag. intros [= <-]. done.
           ++ replace (j - i)%nat with (S (j - S i)) by lia. apply Hmin. lia.
      * intros (Hik & (y & Hy & Ty) & Hmin).
        destruct (decide (i = k)) as [->|].
        { rewrite Nat.sub_diag in Hy. simplify_eq/=. congruence. }
        split; [lia|]. split.
        -- exists y. replace (k - i)%nat with (S (k - S i)) in Hy by lia. done.
        -- intros j z Hj Hz. apply (Hmin j z); [lia|].
           replace (j - i)%nat with (S (j - S i)) by lia. done.
Qed.

Lemma find_at_None {A} test i (l : list A) :
  find_at test i l = None <->
  (forall j y, (i <= j)%nat -> l !! (j - i)%nat = Some y -> test j y = false).
Proof.
  revert i. induction l as [|x l IH]; intros i; simpl.
  - split; [done|]. done.
  - destruct (test i x) eqn:E.
    + split; [done|]. intros H. specialize (H i x). rewrite Nat.sub_diag in H.
      rewrite H in E; done.
    + rewrite IH. split; intros H j y Hj Hy.
      * destruct (decide (i = j)) as [->|].
        { rewrite Nat.sub_diag in Hy. simplify_eq/=. done. }
        apply (H j y); [lia|]. replace (j - i)%nat with (S (j - S i)) in Hy by lia. done.
      * apply (H j y); [lia|]. replace (j - i)%nat with (S (j - S i)) by lia. done.
Qed.

Lemma find_from_Some {A} test lo (l : list A) k :
  find_from test lo l = Some k <->
  (lo <= k)%nat /\ (exists x, l !! k = Some x /\ test k x = true) /\
  (forall j y, (lo <= j < k)%nat -> l !! j = Some y -> test j y = false).
Proof.
  unfold find_from. rewrite find_at_Some. setoid_rewrite lookup_drop.
  split; intros (H1 & (x & Hx & Tx) & H2); (split; [done|]);
    (split; [exists x; by replace (lo + (k - lo))%nat with k in * by lia|]);
    intros j y Hj Hy; apply (H2 j y); auto;
    by replace (lo + (j - lo))%nat with j in * by lia.
Qed.

Lemma find_from_None {A} test lo (l : list A) :
  find_from test lo l = None <->
  (forall j y, (lo <= j)%nat -> l !! j = Some y -> test j y = false).
Proof.
  unfold find_from. rewrite find_at_None. setoid_rewrite lookup_drop.
  split; intros H j y Hj Hy; apply (H j y); auto;
    by replace (lo + (j - lo))%nat with j in * by lia.
Qed.

Lemma find_from_lt {A} test lo (l : list A) k :
  find_from test lo l = Some k -> (lo <= k < length l)%nat.
Proof.
  rewrite find_from_Some. intros (? & (x & Hx & _) & _).
  apply lookup_lt_Some in Hx. lia.
Qed.

(** The C functions return -1 where these definitions return [None]. *)
Definition ret_idx (o : option nat) : Z :=
  match o with Some i => Z.of_nat i | None => -1 end.

Lemma existsb_ext {A} (f g : A -> bool) l :
  (forall x, f x = g x) -> existsb f l = existsb g l.
Proof. intros Hfg. induction l as [|x l IH]; simpl; [done|]. by rewrite Hfg, IH. Qed.

(** ** Automation *)

Ltac zify_div := Z.to_euclidean_division_equations; lia.

(** Case analysis on every [match] and [if] of a computation that returned. *)
Ltac case_all :=
  repeat (case_match; simplify_eq/=; try done).

#[export] Hint Resolve length_le_bytes Forall_le_bytes : eigen.
Create Rewrite HintDb eigen.
#[export] Hint Rewrite @length_splice @length_slice using lia : eigen.
