(* ===== verification/HeapIface.v ===== *)
(** What the kernel heap promises to its clients (the file system, the
    persistence layer, the network buffers): an allocator state with
    [kmalloc]/[kfree], the map of the live payloads it has handed out, and the
    laws the clients rely on.  [Kheap.v] discharges the laws for the allocator
    of src/kernel/mem/kheap.c; the clients' theorems use the class only. *)
From Stdlib Require Import ZArith Lia.
From stdpp Require Import base numbers list gmap.
From S2P Require Import Prelude.

(** Two payload ranges do not overlap. *)
Definition disjoint_range (a la b lb : Z) : Prop := a + la <= b \/ b + lb <= a.

Class KernelHeap (H : Type) := {
  kmalloc : Z -> H -> option Z * H;      (* NULL is None *)
  kfree : Z -> H -> H;
  live : H -> gmap Z Z;                  (* payload address -> payload size *)
  heap_ok : H -> Prop;
  arena : Z -> bool;                     (* the addresses payloads may have *)
}.

(** Requests above [2^63] are outside what the clients ever ask for. *)
Class KernelHeapSpec (H : Type) `{KernelHeap H} := {
  kmalloc_ok h n p h' :
    heap_ok h -> 0 <= n < 2 ^ 63 -> kmalloc n h = (Some p, h') ->
    heap_ok h' /\ 0 < p < 2 ^ 64 /\ arena p = true /\ live h !! p = None /\
    exists sz, n <= sz /\ live h' = <[p := sz]> (live h) /\
      (forall q lq, live h !! q = Some lq -> disjoint_range p sz q lq);
  kmalloc_fail h n h' :
    heap_ok h -> 0 <= n < 2 ^ 63 -> kmalloc n h = (None, h') ->
    heap_ok h' /\ live h' = live h;
  kfree_ok h p :
    heap_ok h -> is_Some (live h !! p) ->
    heap_ok (kfree p h) /\ live (kfree p h) = delete p (live h);
  kfree_null h : heap_ok h -> kfree 0 h = h;
}.
