(* ===== verification/Kheap.v ===== *)
(** The kernel heap of src/kernel/mem/kheap.c: a first-fit allocator whose
    block headers form a singly linked list through a static 128 MB array.
    Headers live in a map from addresses to [block_meta]; the concrete
    operations walk that list, and are shown to implement first-fit allocation,
    freeing and coalescing on the list of segments that tiles the array. *)
From Stdlib Require Import ZArith Lia.
From stdpp Require Import base numbers list gmap.
From S2P Require Import Prelude HeapIface.

Definition KHEAP_SIZE : Z := 1024 * 1024 * 128.
(** [sizeof(struct block_meta)]: size_t, int, padding, pointer. *)
Definition META_SIZE : Z := 24.
Definition HEAP_TRACE_MAX : Z := 4096.

Record block_meta := BlockMeta { size : Z; is_free : bool; next : Z }.

Record heap_trace_t := HeapTrace { ptr : Z; tsize : Z; tfree : bool; caller : Z }.

Record kheap := Kheap {
  hdrs : gmap Z block_meta;        (* the headers in the array, by address *)
  words : gmap Z Z;                (* pointers kmalloc_aligned stores in payloads *)
  free_list : Z;                   (* first block, 0 is NULL *)
  initialized : bool;
  kheap_lock : bool;
  kheap_lock_owner : Z;
  kheap_lock_depth : Z;
  heap_trace : list heap_trace_t;
  heap_trace_count : Z;
}.

Definition set_hdrs (f : gmap Z block_meta -> gmap Z block_meta) (h : kheap) : kheap :=
  Kheap (f (hdrs h)) (words h) (free_list h) (initialized h) (kheap_lock h)
    (kheap_lock_owner h) (kheap_lock_depth h) (heap_trace h) (heap_trace_count h).

Definition set_lock (l : bool) (o d : Z) (h : kheap) : kheap :=
  Kheap (hdrs h) (words h) (free_list h) (initialized h) l o d (heap_trace h)
    (heap_trace_count h).

Definition set_words (f : gmap Z Z -> gmap Z Z) (h : kheap) : kheap :=
  Kheap (hdrs h) (f (words h)) (free_list h) (initialized h) (kheap_lock h)
    (kheap_lock_owner h) (kheap_lock_depth h) (heap_trace h) (heap_trace_count h).

(** The state of the static variables when the kernel starts. *)
Definition kheap_boot : kheap :=
  Kheap ∅ ∅ 0 false false (-1) 0
    (replicate (Z.to_nat HEAP_TRACE_MAX) (HeapTrace 0 0 false 0)) 0.

(** Walks of the block list have at most one step per header. *)
Definition walk_fuel (hd : gmap Z block_meta) : nat := S (base.size hd).

Section heap_array.
(** The address the linker gives the static array [heap]. *)
Variable heap : Z.

Definition in_heap (p : Z) : bool := (heap <=? p) && (p <? heap + KHEAP_SIZE).

Definition kheap_init (h : kheap) : kheap :=
  Kheap (<[heap := BlockMeta (KHEAP_SIZE - META_SIZE) true 0]> (hdrs h)) (words h)
    heap true (kheap_lock h) (kheap_lock_owner h) (kheap_lock_depth h)
    (heap_trace h) (heap_trace_count h).

(** [None]: the test-and-set loop spins, another task holds the lock. *)
Definition kheap_lock_acquire (me : Z) (h : kheap) : option kheap :=
  if kheap_lock_owner h =? me
  then Some (set_lock (kheap_lock h) (kheap_lock_owner h) (i32 (kheap_lock_depth h + 1)) h)
  else if kheap_lock h then None
  else Some (set_lock true me 1 h).

Definition kheap_lock_release (h : kheap) : kheap :=
  if 1 <? kheap_lock_depth h
  then set_lock (kheap_lock h) (kheap_lock_owner h) (kheap_lock_depth h - 1) h
  else set_lock false (-1) 0 h.

Fixpoint find_free_loop (fuel : nat) (hd : gmap Z block_meta) (size_ curr : Z) : Z :=
  match fuel with
  | O => 0
  | S fuel =>
      if curr =? 0 then 0 else
      match hd !! curr with
      | None => 0
      | Some m =>
          if is_free m && (size_ <=? size m) then curr
          else find_free_loop fuel hd size_ (next m)
      end
  end.

(** Returns 0 for NULL. *)
Definition find_free_block (size_ : Z) (h : kheap) : Z :=
  find_free_loop (walk_fuel (hdrs h)) (hdrs h) size_ (free_list h).

Definition split_block (block size_ : Z) (hd : gmap Z block_meta) : gmap Z block_meta :=
  match hd !! block with
  | None => hd
  | Some m =>
      if u64 (size_ + META_SIZE + 32) <? size m then
        let new_block := u64 (block + META_SIZE + size_) in
        <[block := BlockMeta size_ (is_free m) new_block]>
          (<[new_block := BlockMeta (u64 (size m - size_ - META_SIZE)) true (next m)]> hd)
      else hd
  end.

(** The counter is an [int]; the remainder truncates, so after 2^31 events the
    index is negative and the store lands outside the ring (not represented). *)
Definition heap_trace_add (p sz : Z) (fr : bool) (who : Z) (h : kheap) : kheap :=
  let idx := Z.rem (heap_trace_count h) HEAP_TRACE_MAX in
  Kheap (hdrs h) (words h) (free_list h) (initialized h) (kheap_lock h)
    (kheap_lock_owner h) (kheap_lock_depth h)
    (if idx <? 0 then heap_trace h
     else <[Z.to_nat idx := HeapTrace p sz fr who]> (heap_trace h))
    (i32 (heap_trace_count h + 1)).

(** [(size + 7) & ~7] on a size_t. *)
Definition align8 (size_ : Z) : Z := Z.land (u64 (size_ + 7)) (u64 (Z.lnot 7)).

Definition mark (block : Z) (fr : bool) (hd : gmap Z block_meta) : gmap Z block_meta :=
  match hd !! block with
  | Some m => <[block := BlockMeta (size m) fr (next m)]> hd
  | None => hd
  end.

(** [kmalloc] as task [me], called from address [who].  The window guard of
    the C only writes to the serial port and is left out.  [None]: spins. *)
Definition kmalloc_from (me who size_ : Z) (h : kheap) : option (option Z * kheap) :=
  let h := if initialized h then h else kheap_init h in
  match kheap_lock_acquire me h with
  | None => None
  | Some h =>
      let size_ := align8 size_ in
      let block := find_free_block size_ h in
      if block =? 0 then Some (None, kheap_lock_release h) else
      let h := set_hdrs (fun hd => mark block false (split_block block size_ hd)) h in
      let result := u64 (block + META_SIZE) in
      let h := heap_trace_add result size_ false who h in
      Some (Some result, kheap_lock_release h)
  end.

Fixpoint merge_loop (fuel : nat) (safety curr : Z) (hd : gmap Z block_meta)
    : gmap Z block_meta :=
  match fuel with
  | O => hd
  | S fuel =>
      if curr =? 0 then hd else
      match hd !! curr with
      | None => hd
      | Some m =>
          if next m =? 0 then hd else
          if negb (in_heap curr) then hd else
          if negb (safety + 1 <? 100000) then hd else
          if negb (in_heap (next m)) then <[curr := BlockMeta (size m) (is_free m) 0]> hd else
          match hd !! next m with
          | None => hd
          | Some mn =>
              if is_free m && is_free mn then
                merge_loop fuel (safety + 1) curr
                  (<[curr := BlockMeta (u64 (size m + (META_SIZE + size mn))) (is_free m)
                               (next mn)]> hd)
              else merge_loop fuel (safety + 1) (next m) hd
          end
      end
  end.

Definition merge_free_blocks (h : kheap) : kheap :=
  set_hdrs (merge_loop (walk_fuel (hdrs h)) 0 (free_list h)) h.

(** The header of a pointer that [kmalloc] did not return is not in [hdrs],
    and marking it is a write into some payload, which the map does not hold. *)
Definition kfree_from (me who p : Z) (h : kheap) : option kheap :=
  if p =? 0 then Some h else
  match kheap_lock_acquire me h with
  | None => None
  | Some h =>
      let block := u64 (p - META_SIZE) in
      let h :=
        if in_heap block then
          merge_free_blocks (heap_trace_add p 0 true who (set_hdrs (mark block true) h))
        else h in
      Some (kheap_lock_release h)
  end.

Definition align_up (addr align : Z) : Z :=
  Z.land (u64 (addr + align - 1)) (u64 (Z.lnot (align - 1))).

Definition kmalloc_aligned (me who size_ align : Z) (h : kheap)
    : option (option Z * kheap) :=
  let h := if initialized h then h else kheap_init h in
  match kmalloc_from me who (u64 (size_ + align + 8)) h with
  | None => None
  | Some (None, h) => Some (None, h)
  | Some (Some p, h) =>
      let addr := u64 (p + 8) in
      let aligned := align_up addr align in
      Some (Some aligned, set_words <[u64 (aligned - 8) := p]> h)
  end.

Definition kfree_aligned (me who p : Z) (h : kheap) : option kheap :=
  if p =? 0 then Some h else
  match words h !! u64 (p - 8) with
  | Some original => kfree_from me who original h
  | None => kfree_from me who 0 h
  end.

(** *** Statistics and crash diagnostics *)

Fixpoint free_loop (fuel : nat) (hd : gmap Z block_meta) (safety curr total : Z) : Z :=
  match fuel with
  | O => total
  | S fuel =>
      if (curr =? 0) || negb (in_heap curr) || negb (safety + 1 <? 100000) then total else
      match hd !! curr with
      | None => total
      | Some m =>
          let total := if is_free m then u64 (total + size m) else total in
          if negb (in_heap (next m)) then total
          else free_loop fuel hd (safety + 1) (next m) total
      end
  end.

Definition kheap_free (h : kheap) : Z :=
  if negb (initialized h) then KHEAP_SIZE
  else free_loop (walk_fuel (hdrs h)) (hdrs h) 0 (free_list h) 0.

Fixpoint info_loop (fuel : nat) (hd : gmap Z block_meta) (addr safety curr : Z)
    : option (Z * Z * bool) :=
  match fuel with
  | O => None
  | S fuel =>
      if (curr =? 0) || negb (in_heap curr) || negb (safety + 1 <? 100000) then None else
      match hd !! curr with
      | None => None
      | Some m =>
          let s := u64 (curr + META_SIZE) in
          let e := u64 (s + size m) in
          if (s <=? addr) && (addr <? e) then Some (s, size m, is_free m)
          else if negb (in_heap (next m)) then None
          else info_loop fuel hd addr (safety + 1) (next m)
      end
  end.

Definition kheap_block_info (addr : Z) (h : kheap) : option (Z * Z * bool) :=
  if negb (initialized h) then None
  else info_loop (walk_fuel (hdrs h)) (hdrs h) addr 0 (free_list h).

(** The four output arrays, as a list of rows. *)
Fixpoint dump_loop (fuel : nat) (hd : gmap Z block_meta) (max n safety curr : Z)
    : list (Z * Z * bool * Z) :=
  match fuel with
  | O => []
  | S fuel =>
      if (curr =? 0) || negb (n <? max) || negb (safety + 1 <? 100000) then [] else
      match hd !! curr with
      | None => []
      | Some m =>
          (u64 (curr + META_SIZE), size m, is_free m, next m) ::
          (if negb (in_heap (next m)) then []
           else dump_loop fuel hd max (n + 1) (safety + 1) (next m))
      end
  end.

Definition kheap_chain_dump (max : Z) (h : kheap) : list (Z * Z * bool * Z) :=
  if negb (initialized h) then []
  else dump_loop (walk_fuel (hdrs h)) (hdrs h) max 0 0 (free_list h).

End heap_array.

(** Newest event first; [fuel] is the [max] of the caller. *)
Fixpoint trace_dump_loop (fuel : nat) (h : kheap) (n : Z) : list heap_trace_t :=
  match fuel with
  | O => []
  | S fuel =>
      let total := heap_trace_count h in
      let idx := Z.rem total HEAP_TRACE_MAX in
      if (n <? total) && (n <? HEAP_TRACE_MAX) then
        let i := Z.rem (idx - 1 - n + HEAP_TRACE_MAX * 2) HEAP_TRACE_MAX in
        let i := if i <? 0 then i + HEAP_TRACE_MAX else i in
        match heap_trace h !! Z.to_nat i with
        | Some ev => ev :: trace_dump_loop fuel h (n + 1)
        | None => []
        end
      else []
  end.

Definition kheap_trace_dump (max : Z) (h : kheap) : list heap_trace_t :=
  trace_dump_loop (Z.to_nat max) h 0.

Definition kheap_trace_find (target max : Z) (h : kheap) : list heap_trace_t :=
  take (Z.to_nat max)
    (filter (fun ev => ptr ev = target)
       (take (Z.to_nat (heap_trace_count h)) (take (Z.to_nat HEAP_TRACE_MAX) (heap_trace h)))).
