(* ===== verification/KheapSpec.v ===== *)
(** The allocator of [Kheap.v] refines first-fit allocation over a list of
    segments that tiles the heap array, and discharges the laws of
    [HeapIface.KernelHeapSpec]. *)
From Stdlib Require Import ZArith Lia.
From stdpp Require Import base numbers list gmap.
From S2P Require Import Prelude HeapIface Kheap.

(** ** The abstract heap: consecutive segments, each with its payload size *)

Definition seg : Type := Z * bool.

Definition total (segs : list seg) : Z := foldr (fun s t => META_SIZE + s.1 + t) 0 segs.

Fixpoint live_of (a : Z) (segs : list seg) : gmap Z Z :=
  match segs with
  | [] => ∅
  | (sz, fr) :: r =>
      let rest := live_of (a + META_SIZE + sz) r in
      if fr : bool then rest else <[a + META_SIZE := sz]> rest
  end.

(** First fit; the chosen segment is split when more than 32 bytes remain. *)
Fixpoint alloc (a n : Z) (segs : list seg) : option (Z * list seg) :=
  match segs with
  | [] => None
  | (sz, fr) :: r =>
      if fr && (n <=? sz) then
        Some (a, if n + META_SIZE + 32 <? sz
                 then (n, false) :: (sz - n - META_SIZE, true) :: r
                 else (sz, false) :: r)
      else
        match alloc (a + META_SIZE + sz) n r with
        | Some (p, r') => Some (p, (sz, fr) :: r')
        | None => None
        end
  end.

Fixpoint free_at (a p : Z) (segs : list seg) : list seg :=
  match segs with
  | [] => []
  | (sz, fr) :: r =>
      if a =? p then (sz, true) :: r else (sz, fr) :: free_at (a + META_SIZE + sz) p r
  end.

(** At most [k] steps, each of which merges two segments or moves on. *)
Fixpoint coalesce (k : nat) (s : seg) (r : list seg) : list seg :=
  match k, r with
  | S k, (sz2, fr2) :: r' =>
      if s.2 && fr2 then coalesce k (s.1 + (META_SIZE + sz2), s.2) r'
      else s :: coalesce k (sz2, fr2) r'
  | _, _ => s :: r
  end.

(** The [safety] counter of the C stops the pass after this many steps. *)
Definition MERGE_STEPS : nat := Z.to_nat 99999.

Definition coalesce_all (segs : list seg) : list seg :=
  match segs with [] => [] | s :: r => coalesce MERGE_STEPS s r end.

(** ** The headers represent the segments *)

Fixpoint rep (hd : gmap Z block_meta) (a : Z) (segs : list seg) : Prop :=
  match segs with
  | [] => True
  | (sz, fr) :: r =>
      0 <= sz /\ sz mod 8 = 0 /\
      hd !! a = Some (BlockMeta sz fr (match r with [] => 0 | _ => a + META_SIZE + sz end)) /\
      rep hd (a + META_SIZE + sz) r
  end.

Lemma rep_frame hd hd' a segs :
  rep hd a segs -> (forall x, a <= x -> hd' !! x = hd !! x) -> rep hd' a segs.
Proof.
  revert a. induction segs as [|[sz fr] r IH]; intros a; [done|].
  intros (? & ? & Ha & Hr) Hag. simpl. rewrite Hag by lia.
  repeat split; try done. eapply IH; [done|].
  intros. apply Hag. unfold META_SIZE in *. lia.
Qed.

Lemma rep_sizes hd a segs : rep hd a segs -> Forall (fun s => 0 <= s.1 /\ s.1 mod 8 = 0) segs.
Proof.
  revert a. induction segs as [|[sz fr] r IH]; intros a; [done|].
  intros (? & ? & Ha & Hr). constructor; [done|]. eauto.
Qed.

Lemma total_nonneg hd a segs : rep hd a segs -> 0 <= total segs.
Proof.
  intros H%rep_sizes. induction H as [|[sz fr] r [] _ IH]; simpl in *; [lia|].
  unfold META_SIZE. lia.
Qed.

(** Every segment has its own header, so the walks have enough fuel. *)
Lemma rep_fuel hd a segs : rep hd a segs -> (length segs <= base.size hd)%nat.
Proof.
  revert hd a. induction segs as [|[sz fr] r IH]; intros hd a; [simpl; lia|].
  intros (Hsz & ? & Ha & Hr). simpl.
  rewrite <-(insert_delete_id hd a _ Ha), map_size_insert_None by apply lookup_delete_eq.
  apply le_n_S. apply (IH _ (a + META_SIZE + sz)). eapply rep_frame; [done|].
  intros x Hx. rewrite lookup_delete_ne; [done|]. unfold META_SIZE in *. lia.
Qed.

Lemma rep_mark hd a sz fr fr' r :
  rep hd a ((sz, fr) :: r) -> rep (mark a fr' hd) a ((sz, fr') :: r).
Proof.
  intros (? & ? & Ha & Hr). unfold mark. rewrite Ha. simpl.
  rewrite lookup_insert_eq. repeat split; try done.
  eapply rep_frame; [done|]. intros x Hx. rewrite lookup_insert_ne; [done|].
  unfold META_SIZE in *. lia.
Qed.

Lemma live_bounds hd a segs q l :
  rep hd a segs -> live_of a segs !! q = Some l ->
  a + META_SIZE <= q /\ 0 <= l /\ q + l <= a + total segs /\ q mod 8 = a mod 8.
Proof.
  revert a. induction segs as [|[sz fr] r IH]; intros a; [done|].
  intros Hrep Hq. pose proof (total_nonneg _ _ _ (proj2 (proj2 (proj2 Hrep)))) as Ht.
  destruct Hrep as (? & Hm & _ & Hr). simpl in Hq |- *. unfold META_SIZE in *.
  destruct fr; [|apply lookup_insert_Some in Hq as [[<- <-]|[_ Hq]]].
  - apply IH in Hq; [|done]. unfold META_SIZE in *. repeat split; try lia. zify_div.
  - repeat split; try lia. zify_div.
  - apply IH in Hq; [|done]. unfold META_SIZE in *. repeat split; try lia. zify_div.
Qed.

(** Rounding down to a power of two with a mask, as the C does it. *)
Lemma land_mask_down x k :
  0 <= x < 2 ^ 64 -> 0 <= k <= 64 ->
  Z.land x (u64 (Z.lnot (2 ^ k - 1))) = 2 ^ k * (x / 2 ^ k).
Proof.
  intros Hx Hk.
  assert (u64 (Z.lnot (2 ^ k - 1)) = Z.shiftl (Z.ones (64 - k)) k) as ->.
  { pose proof (Z.pow_pos_nonneg 2 k). pose proof (Z.pow_le_mono_r 2 k 64).
    unfold wrap. rewrite Z.shiftl_mul_pow2, Z.ones_equiv by lia. unfold Z.lnot.
    symmetry. apply Z.mod_unique with (q := -1).
    - left. unfold Z.pred. rewrite Z.mul_add_distr_r, <-Z.pow_add_r by lia.
      replace (64 - k + k) with 64 by lia. lia.
    - unfold Z.pred. rewrite Z.mul_add_distr_r, <-Z.pow_add_r by lia.
      replace (64 - k + k) with 64 by lia. lia. }
  apply Z.bits_inj'. intros i Hi. rewrite Z.land_spec, Z.shiftl_spec by lia.
  rewrite <-Z.shiftr_div_pow2, Z.mul_comm, <-Z.shiftl_mul_pow2, Z.shiftl_spec by lia.
  destruct (decide (i < k)).
  { rewrite !Z.testbit_neg_r with (n := i - k) by lia. by rewrite andb_false_r. }
  rewrite Z.shiftr_spec by lia. replace (i - k + k) with i by lia.
  destruct (decide (i - k < 64 - k)).
  { rewrite Z.ones_spec_low by lia. by rewrite andb_true_r. }
  rewrite Z.ones_spec_high by lia. rewrite andb_false_r. symmetry.
  rewrite <-(Z.mod_small x (2 ^ 64)) by lia. apply Z.mod_pow2_bits_high. lia.
Qed.

Lemma align8_spec n : align8 n = 8 * (u64 (n + 7) / 8).
Proof. apply (land_mask_down _ 3); [by apply wrap_bounds|done]. Qed.

Lemma align8_bounds n : 0 <= n < 2 ^ 63 -> n <= align8 n < n + 8.
Proof. intros. rewrite align8_spec, wrap_small by lia. zify_div. Qed.

Lemma align8_aligned n : 0 <= align8 n /\ align8 n mod 8 = 0.
Proof.
  rewrite align8_spec. pose proof (wrap_bounds 64 (n + 7)). split; [zify_div|].
  rewrite Z.mul_comm. apply Z.mod_mul. lia.
Qed.

(** ** Allocation *)

Lemma find_free_alloc hd a n segs fuel :
  rep hd a segs -> (length segs < fuel)%nat -> 0 < a ->
  match alloc a n segs with
  | None => find_free_loop fuel hd n (match segs with [] => 0 | _ => a end) = 0
  | Some (p, _) => find_free_loop fuel hd n a = p /\ a <= p
  end.
Proof.
  revert a fuel. induction segs as [|[sz fr] r IH]; intros a fuel Hrep Hf Ha.
  { destruct fuel; done. }
  destruct fuel as [|fuel]; [simpl in *; lia|].
  destruct Hrep as (? & ? & Hl & Hr). simpl in *.
  destruct (Z.eqb_spec a 0); [lia|]. rewrite Hl. simpl.
  destruct (fr && (n <=? sz)) eqn:E; [done|].
  specialize (IH (a + META_SIZE + sz) fuel Hr ltac:(lia)).
  unfold META_SIZE in *. specialize (IH ltac:(lia)).
  destruct (alloc (a + 24 + sz) n r) as [[p r']|] eqn:Er.
  - destruct r; [done|]. destruct IH. split; [done|lia].
  - by destruct r.
Qed.

Lemma alloc_nonnil a n segs p : alloc a n segs = Some (p, []) -> False.
Proof.
  destruct segs as [|[sz fr] r]; [done|]. simpl.
  repeat case_match; try done; by intros [= ? ?].
Qed.

Lemma alloc_rep hd a n segs p segs' :
  rep hd a segs -> alloc a n segs = Some (p, segs') ->
  0 <= n -> n mod 8 = 0 -> 0 < a -> a + total segs < 2 ^ 64 -> total segs < 2 ^ 62 ->
  rep (mark p false (split_block p n hd)) a segs' /\
  (forall x, x < p -> mark p false (split_block p n hd) !! x = hd !! x).
Proof.
  revert a p segs'. induction segs as [|[sz fr] r IH]; intros a p segs' Hrep He Hn Hn8 Ha Hb Hs;
    [done|].
  pose proof (total_nonneg _ _ _ (proj2 (proj2 (proj2 Hrep)))) as Ht.
  simpl in He, Hb, Hs. pose proof Hrep as (Hsz & Hm & Hl & Hr).
  destruct (fr && (n <=? sz)) eqn:E.
  - injection He as <- <-. apply andb_prop in E as [-> En%Z.leb_le].
    unfold split_block. rewrite Hl. simpl. unfold META_SIZE in *.
    rewrite (wrap_small 64 (n + 24 + 32)) by lia.
    destruct (Z.ltb_spec (n + 24 + 32) sz).
    + rewrite (wrap_small 64 (a + 24 + n)), (wrap_small 64 (sz - n - 24)) by lia.
      unfold mark. rewrite lookup_insert_eq. simpl. unfold META_SIZE. split.
      * rewrite lookup_insert_eq. repeat split; try done; try lia.
        -- zify_div.
        -- rewrite !lookup_insert_ne by lia. rewrite lookup_insert_eq. do 2 f_equal.
           destruct r; [done|]. lia.
        -- replace (a + 24 + n + 24 + (sz - n - 24)) with (a + 24 + sz) by lia.
           eapply rep_frame; [done|]. intros x Hx.
           rewrite !lookup_insert_ne by lia. done.
      * intros x Hx. rewrite !lookup_insert_ne by lia. done.
    + split; [by apply (rep_mark _ _ _ true)|]. unfold mark. rewrite Hl.
      intros x Hx. rewrite lookup_insert_ne by lia. done.
  - destruct (alloc (a + META_SIZE + sz) n r) as [[p' r']|] eqn:Er; [|done].
    injection He as <- <-. unfold META_SIZE in *.
    pose proof (find_free_alloc hd (a + 24 + sz) n r (S (S (length r))) Hr
                  ltac:(lia) ltac:(lia)) as Hp.
    unfold META_SIZE in *. rewrite Er in Hp. destruct Hp as [_ Hp].
    destruct (IH _ _ _ Hr Er) as [Hrep' Hout]; [done..| |lia|lia|].
    { lia. }
    split; [|done]. simpl. repeat split; try done.
    rewrite Hout by (unfold META_SIZE in *; lia). rewrite Hl.
    destruct r; [done|]. destruct r'; [by apply alloc_nonnil in Er|reflexivity].
Qed.

Lemma alloc_live hd a n segs p segs' :
  rep hd a segs -> alloc a n segs = Some (p, segs') -> 0 <= n ->
  total segs' = total segs /\ a <= p /\
  live_of a segs !! (p + META_SIZE) = None /\
  exists sz, n <= sz /\ p + META_SIZE + sz <= a + total segs /\
    live_of a segs' = <[p + META_SIZE := sz]> (live_of a segs) /\
    (forall q lq, live_of a segs !! q = Some lq ->
       disjoint_range (p + META_SIZE) sz q lq).
Proof.
  revert a p segs'. induction segs as [|[sz fr] r IH]; intros a p segs' Hrep He Hn; [done|].
  simpl in He. pose proof Hrep as (Hsz & Hm & Hl & Hr).
  pose proof (total_nonneg _ _ _ Hr) as Ht.
  assert (Hb := fun q l => live_bounds _ _ _ q l Hr). unfold META_SIZE in *.
  destruct (fr && (n <=? sz)) eqn:E.
  - injection He as <- <-. apply andb_prop in E as [-> En%Z.leb_le].
    simpl. unfold META_SIZE. split; [destruct (n + 24 + 32 <? sz); simpl; unfold META_SIZE; lia|]. split; [lia|]. split.
    { destruct (live_of _ r !! _) as [l|] eqn:El; [|done]. apply Hb in El. lia. }
    destruct (Z.ltb_spec (n + 24 + 32) sz); simpl; unfold META_SIZE.
    + exists n. split; [done|]. split; [lia|]. split.
      * do 2 f_equal. lia.
      * intros q lq Hq%Hb. left. lia.
    + exists sz. split; [done|]. split; [lia|]. split; [done|].
      intros q lq Hq%Hb. left. lia.
  - destruct (alloc (a + 24 + sz) n r) as [[p' r']|] eqn:Er; [|done].
    injection He as <- <-.
    destruct (IH _ _ _ Hr Er Hn) as (Htot & Hp & Hnone & sz' & Hsz' & Hend & Hlive & Hdis).
    simpl. unfold META_SIZE in *. rewrite Htot. split; [done|]. split; [lia|].
    destruct fr; [split; [done|]; exists sz'; repeat split; try done; lia|].
    split; [rewrite lookup_insert_ne by lia; done|]. exists sz'. rewrite Hlive.
    split; [done|]. split; [lia|]. split; [apply insert_insert_ne; lia|].
    intros q lq [[<- <-]|[_ Hq]]%lookup_insert_Some; [right; lia|eauto].
Qed.

(** ** Freeing and coalescing *)

Lemma free_at_rep hd a segs p :
  rep hd a segs -> is_Some (live_of a segs !! (p + META_SIZE)) ->
  rep (mark p true hd) a (free_at a p segs) /\
  (forall x, x < a -> mark p true hd !! x = hd !! x) /\
  live_of a (free_at a p segs) = delete (p + META_SIZE) (live_of a segs) /\
  total (free_at a p segs) = total segs /\ a <= p <= a + total segs - META_SIZE.
Proof.
  revert a. induction segs as [|[sz fr] r IH]; intros a Hrep Hlive; [by destruct Hlive|].
  pose proof Hrep as (Hsz & Hm & Hl & Hr). pose proof (total_nonneg _ _ _ Hr) as Ht.
  assert (Hnone : forall x, x <= a -> live_of (a + META_SIZE + sz) r !! (x + META_SIZE) = None).
  { intros x Hx. destruct (live_of _ r !! _) as [l|] eqn:El; [|done].
    apply (live_bounds _ _ _ _ _ Hr) in El. unfold META_SIZE in *. lia. }
  simpl. destruct (Z.eqb_spec a p) as [<-|Hne].
  - split; [by apply (rep_mark _ _ _ fr)|]. split.
    { intros x Hx. unfold mark. rewrite Hl, lookup_insert_ne by lia. done. }
    split; [|simpl; unfold META_SIZE in *; lia]. simpl.
    specialize (Hnone a ltac:(lia)). destruct fr.
    + symmetry. by apply delete_id.
    + rewrite delete_insert_eq. symmetry. by apply delete_id.
  - assert (Hin : is_Some (live_of (a + META_SIZE + sz) r !! (p + META_SIZE))).
    { simpl in Hlive. destruct fr; [done|]. by rewrite lookup_insert_ne in Hlive by lia. }
    destruct (IH _ Hr Hin) as (Hrep' & Hout & Hlive' & Htot & Hp).
    unfold META_SIZE in *. split; [|split; [|split; [|simpl; unfold META_SIZE; lia]]].
    + simpl. repeat split; try done. rewrite Hout by lia. rewrite Hl.
      destruct r as [|[? ?]]; [done|]. simpl. by destruct (_ =? p).
    + intros x Hx. apply Hout. lia.
    + simpl. unfold META_SIZE. rewrite Hlive'. destruct fr; [done|].
      rewrite delete_insert_ne by lia. done.
Qed.

Lemma coalesce_total k s r : total (coalesce k s r) = total (s :: r).
Proof.
  revert s r. induction k as [|k IH]; intros [sz fr] [|[sz2 fr2] r]; simpl; try done.
  case_match; simpl; rewrite IH; simpl; lia.
Qed.

Lemma coalesce_hd k s r : exists s' r', coalesce k s r = s' :: r'.
Proof.
  revert s r. induction k as [|k IH]; intros [sz fr] [|[sz2 fr2] r]; simpl; eauto.
  case_match; eauto.
Qed.

Lemma coalesce_live k a s r :
  live_of a (coalesce k s r) = live_of a (s :: r).
Proof.
  revert a s r. induction k as [|k IH]; intros a [sz fr] [|[sz2 fr2] r]; try done.
  simpl coalesce. destruct (fr && fr2) eqn:E.
  - rewrite IH. apply andb_prop in E as [-> ->]. simpl. f_equal. lia.
  - change (live_of a ((sz, fr) :: ?x)) with
      (let rest := live_of (a + META_SIZE + sz) x in
       if fr then rest else <[a + META_SIZE := sz]> rest).
    simpl. by rewrite IH.
Qed.

(** After a complete pass no two neighbouring segments are both free. *)
Fixpoint no_adjacent_free (segs : list seg) : Prop :=
  match segs with
  | (_, fr) :: (((_, fr2) :: _) as r) => fr && fr2 = false /\ no_adjacent_free r
  | _ => True
  end.

Lemma coalesce_no_adjacent k s r :
  (length r <= k)%nat -> no_adjacent_free (coalesce k s r) /\
    exists sz r', coalesce k s r = (sz, s.2) :: r'.
Proof.
  revert s r. induction k as [|k IH]; intros [sz fr] [|[sz2 fr2] r] Hk; simpl in *;
    try (split; eauto; lia); try lia.
  destruct (fr && fr2) eqn:E; [apply (IH (_, _) r); lia|].
  destruct (IH (sz2, fr2) r) as [Hadj (sz' & r' & Heq)]; [lia|].
  rewrite Heq in Hadj |- *. split; [|eauto]. done.
Qed.

Lemma coalesce_length k s r : (length (coalesce k s r) <= S (length r))%nat.
Proof.
  revert s r. induction k as [|k IH]; intros [sz fr] [|[sz2 fr2] r]; simpl; try lia.
  case_match; simpl; [specialize (IH (sz + (META_SIZE + sz2), fr) r)|
                      specialize (IH (sz2, fr2) r)]; lia.
Qed.

Section array.
Variable heap : Z.
Hypothesis heap_pos : 0 < heap.
Hypothesis heap_end : heap + KHEAP_SIZE < 2 ^ 64.

Lemma in_heap_spec p : in_heap heap p = true <-> heap <= p < heap + KHEAP_SIZE.
Proof. unfold in_heap. rewrite andb_true_iff, Z.leb_le, Z.ltb_lt. done. Qed.

Lemma merge_loop_rep fuel safety hd a s r :
  rep hd a (s :: r) -> (length r < fuel)%nat -> 0 <= safety <= 99999 ->
  heap <= a -> a + total (s :: r) <= heap + KHEAP_SIZE ->
  rep (merge_loop heap fuel safety a hd) a (coalesce (Z.to_nat (99999 - safety)) s r) /\
  (forall x, x < a -> merge_loop heap fuel safety a hd !! x = hd !! x).
Proof.
  revert safety hd a s r. induction fuel as [|fuel IH];
    intros safety hd a [sz fr] r Hrep Hf Hs Ha Hlim; [lia|].
  pose proof Hrep as (Hsz & Hm & Hl & Hr). pose proof (total_nonneg _ _ _ Hr) as Ht.
  cbn [merge_loop]. destruct (Z.eqb_spec a 0); [lia|]. rewrite Hl. cbn [next].
  destruct r as [|[sz2 fr2] r].
  { rewrite Z.eqb_refl. replace (coalesce _ _ []) with [(sz, fr)] by (by destruct (Z.to_nat _)).
    done. }
  pose proof Hr as (Hsz2 & Hm2 & Hl2 & Hr2). pose proof (total_nonneg _ _ _ Hr2) as Ht2.
  cbn [total foldr fst] in Hlim, Ht. change (foldr _ 0 r) with (total r) in *.
  unfold META_SIZE in *.
  destruct (Z.eqb_spec (a + 24 + sz) 0); [lia|].
  assert (in_heap heap a = true) as -> by (apply in_heap_spec; lia).
  assert (in_heap heap (a + 24 + sz) = true) as -> by (apply in_heap_spec; lia).
  simpl negb. destruct (Z.ltb_spec (safety + 1) 100000) as [Hlt|]; simpl negb; cbv iota.
  2:{ replace (Z.to_nat (99999 - safety)) with O by lia. done. }
  rewrite Hl2. cbn [is_free size next].
  replace (Z.to_nat (99999 - safety)) with (S (Z.to_nat (99999 - (safety + 1)))) by lia.
  cbn [coalesce fst snd]. unfold META_SIZE. destruct (fr && fr2) eqn:E.
  - rewrite (wrap_small 64 (sz + (24 + sz2))) by (unfold KHEAP_SIZE in *; lia).
    destruct (IH (safety + 1) (<[a := BlockMeta (sz + (24 + sz2)) fr
        (match r with [] => 0 | _ => a + 24 + sz + 24 + sz2 end)]> hd) a
        (sz + (24 + sz2), fr) r) as [Hrep' Hout'].
    + simpl. unfold META_SIZE. rewrite lookup_insert_eq. repeat split; [lia| | |].
      * zify_div.
      * do 2 f_equal. destruct r; [done|]. lia.
      * replace (a + 24 + (sz + (24 + sz2))) with (a + 24 + sz + 24 + sz2) by lia.
        eapply rep_frame; [done|]. intros x Hx. rewrite lookup_insert_ne by lia. done.
    + simpl in Hf. lia.
    + lia.
    + lia.
    + cbn [total foldr fst]. change (foldr _ 0 r) with (total r). unfold META_SIZE. lia.
    + split; [exact Hrep'|]. intros x Hx. rewrite Hout', lookup_insert_ne by lia. done.
  - destruct (IH (safety + 1) hd (a + 24 + sz) (sz2, fr2) r) as [Hrep' Hout'];
      [done|simpl in Hf; lia|lia|lia| |].
    { cbn [total foldr fst]. change (foldr _ 0 r) with (total r). unfold META_SIZE. lia. }
    split; [|intros x Hx; apply Hout'; lia].
    destruct (coalesce_hd (Z.to_nat (99999 - (safety + 1))) (sz2, fr2) r) as (s' & r' & Hc).
    rewrite Hc in Hrep' |- *. cbn [rep]. unfold META_SIZE. repeat split; try done.
    rewrite Hout' by lia. rewrite Hl. done.
Qed.

(** ** The heap state and its invariant *)

Fixpoint chain (fuel : nat) (hd : gmap Z block_meta) (a : Z) : list seg :=
  match fuel with
  | O => []
  | S fuel =>
      if a =? 0 then [] else
      match hd !! a with
      | None => []
      | Some m => (size m, is_free m) :: chain fuel hd (next m)
      end
  end.

Definition segs_of (h : kheap) : list seg :=
  if initialized h then chain (walk_fuel (hdrs h)) (hdrs h) (free_list h)
  else [(KHEAP_SIZE - META_SIZE, true)].

Definition kheap_live (h : kheap) : gmap Z Z := live_of heap (segs_of h).

Definition unlocked (h : kheap) : Prop :=
  kheap_lock h = false /\ kheap_lock_owner h = -1 /\ kheap_lock_depth h = 0.

(** The blocks tile the array, and nobody is inside the allocator. *)
Definition kheap_ok (h : kheap) : Prop :=
  unlocked h /\
  (initialized h = true ->
     free_list h = heap /\ rep (hdrs h) heap (segs_of h) /\ total (segs_of h) = KHEAP_SIZE).

Lemma chain_rep hd a segs fuel :
  rep hd a segs -> (length segs < fuel)%nat -> 0 < a ->
  chain fuel hd (match segs with [] => 0 | _ => a end) = segs.
Proof.
  revert a fuel. induction segs as [|[sz fr] r IH]; intros a [|fuel] Hrep Hf Ha; try done.
  { simpl in Hf. lia. }
  destruct Hrep as (? & ? & Hl & Hr). simpl. destruct (Z.eqb_spec a 0); [lia|].
  rewrite Hl. simpl. f_equal. unfold META_SIZE in *. apply IH; [done|simpl in Hf; lia|lia].
Qed.

Lemma segs_of_rep h segs :
  initialized h = true -> free_list h = heap -> rep (hdrs h) heap segs -> segs <> [] ->
  segs_of h = segs.
Proof.
  intros Hi Hfl Hrep Hne. unfold segs_of. rewrite Hi, Hfl.
  pose proof (rep_fuel _ _ _ Hrep).
  destruct segs as [|s r]; [done|]. apply (chain_rep _ _ (s :: r)); [done| |done].
  unfold walk_fuel. lia.
Qed.

Lemma kheap_init_ok h :
  unlocked h -> kheap_ok (kheap_init heap h) /\
  segs_of (kheap_init heap h) = [(KHEAP_SIZE - META_SIZE, true)].
Proof.
  intros Hu.
  assert (Hs : segs_of (kheap_init heap h) = [(KHEAP_SIZE - META_SIZE, true)]).
  { apply segs_of_rep; try done. simpl. by rewrite lookup_insert_eq. }
  split; [|done]. split; [done|]. intros _. rewrite Hs.
  repeat split; try done. simpl. by rewrite lookup_insert_eq.
Qed.

(** The state the body of kmalloc starts from. *)
Lemma start_ok h :
  kheap_ok h ->
  exists h0, (if initialized h then h else kheap_init heap h) = h0 /\
    kheap_ok h0 /\ initialized h0 = true /\ segs_of h0 = segs_of h.
Proof.
  intros [Hu Hok]. destruct (initialized h) eqn:Hi.
  - exists h. split; [done|]. split; [|done]. split; [done|]. intros _. by apply Hok.
  - destruct (kheap_init_ok h Hu) as [Hok' Hs]. eexists. split; [done|].
    split; [done|]. split; [done|]. rewrite Hs. unfold segs_of. by rewrite Hi.
Qed.

Lemma kheap_ok_segs h :
  kheap_ok h -> initialized h = true ->
  free_list h = heap /\ rep (hdrs h) heap (segs_of h) /\ total (segs_of h) = KHEAP_SIZE /\
  segs_of h <> [].
Proof.
  intros [_ Hok] Hi. destruct (Hok Hi) as (? & ? & Ht). repeat split; try done.
  intros Hnil. by rewrite Hnil in Ht.
Qed.

Lemma acquire_unlocked me h :
  unlocked h -> exists l o, kheap_lock_acquire me h = Some (set_lock l o 1 h).
Proof.
  intros (Hl & Ho & Hd). unfold kheap_lock_acquire. rewrite Ho, Hd, Hl.
  case_match; eauto.
Qed.

Lemma kheap_ok_intro h segs :
  unlocked h -> initialized h = true -> free_list h = heap ->
  rep (hdrs h) heap segs -> total segs = KHEAP_SIZE -> segs <> [] ->
  kheap_ok h /\ segs_of h = segs.
Proof.
  intros Hu Hi Hfl Hrep Ht Hne. pose proof (segs_of_rep _ _ Hi Hfl Hrep Hne) as Hs.
  split; [|done]. split; [done|]. by rewrite Hs.
Qed.

Lemma kmalloc_refines_aux me who n h :
  kheap_ok h ->
  exists r h', kmalloc_from heap me who n h = Some (r, h') /\ kheap_ok h' /\
    match alloc heap (align8 n) (segs_of h) with
    | None => r = None /\ segs_of h' = segs_of h
    | Some (p, segs') => r = Some (p + META_SIZE) /\ segs_of h' = segs'
    end.
Proof.
  intros Hok. destruct (start_ok h Hok) as (h0 & E0 & Hok0 & Hi0 & Hs0).
  destruct (kheap_ok_segs h0 Hok0 Hi0) as (Hfl & Hrep & Ht & Hne).
  destruct (acquire_unlocked me h0 (proj1 Hok0)) as (l & o & Eacq).
  unfold kmalloc_from. rewrite E0, Eacq. cbv zeta. rewrite <-Hs0.
  pose proof (align8_aligned n) as [Hn Hn8].
  pose proof (find_free_alloc (hdrs h0) heap (align8 n) (segs_of h0) (walk_fuel (hdrs h0))
                Hrep) as Hff.
  unfold find_free_block. cbn [hdrs free_list set_lock]. rewrite Hfl.
  destruct (alloc heap (align8 n) (segs_of h0)) as [[p segs']|] eqn:Ea.
  - destruct Hff as [-> Hp]; [unfold walk_fuel; pose proof (rep_fuel _ _ _ Hrep); lia|done|].
    destruct (Z.eqb_spec p 0); [lia|].
    destruct (alloc_rep _ _ _ _ _ _ Hrep Ea) as [Hrep' _]; [done|done|done|lia|unfold KHEAP_SIZE in *; lia|].
    destruct (alloc_live _ _ _ _ _ _ Hrep Ea Hn) as (Ht' & _ & _ & sz & ? & Hend & _).
    do 2 eexists. split; [done|]. rewrite (wrap_small 64) by (unfold META_SIZE in *; lia).
    match goal with |- kheap_ok ?h' /\ _ =>
      assert (kheap_ok h' /\ segs_of h' = segs') as [Hok' Hs'] end; [|done].
    apply kheap_ok_intro; [done..|exact Hrep'|lia|].
    intros ->. by apply alloc_nonnil in Ea.
  - assert (find_free_loop (walk_fuel (hdrs h0)) (hdrs h0) (align8 n) heap = 0) as ->.
    { destruct (segs_of h0); [done|]. apply Hff; [|done].
      unfold walk_fuel. pose proof (rep_fuel _ _ _ Hrep). lia. }
    simpl. do 2 eexists. split; [done|].
    match goal with |- kheap_ok ?h' /\ _ =>
      assert (kheap_ok h' /\ segs_of h' = segs_of h0) as [Hok' Hs'] end; [|done].
    by apply kheap_ok_intro.
Qed.

Lemma kheap_live_bounds h p sz :
  kheap_ok h -> kheap_live h !! p = Some sz ->
  initialized h = true /\ heap + META_SIZE <= p /\ 0 <= sz /\
  p + sz <= heap + KHEAP_SIZE /\ p mod 8 = heap mod 8.
Proof.
  intros Hok Hp. destruct (initialized h) eqn:Hi.
  2:{ unfold kheap_live, segs_of in Hp. by rewrite Hi in Hp. }
  destruct (kheap_ok_segs h Hok Hi) as (Hfl & Hrep & Ht & Hne).
  apply (live_bounds _ _ _ _ _ Hrep) in Hp. rewrite Ht in Hp.
  destruct Hp as (? & ? & ? & ?). done.
Qed.

Lemma kfree_refines_aux me who p h :
  kheap_ok h -> is_Some (kheap_live h !! p) ->
  exists h', kfree_from heap me who p h = Some h' /\ kheap_ok h' /\
    segs_of h' = coalesce_all (free_at heap (p - META_SIZE) (segs_of h)).
Proof.
  intros Hok [sz Hp].
  destruct (kheap_live_bounds _ _ _ Hok Hp) as (Hi & Hlo & Hsz & Hhi & _).
  destruct (kheap_ok_segs h Hok Hi) as (Hfl & Hrep & Ht & Hne).
  destruct (acquire_unlocked me h (proj1 Hok)) as (l & o & Eacq).
  unfold kheap_live in Hp. replace p with (p - META_SIZE + META_SIZE) in Hp by lia.
  destruct (free_at_rep _ _ _ _ Hrep (mk_is_Some _ _ Hp)) as (Hrep' & _ & _ & Ht' & Hr).
  unfold META_SIZE in *. unfold kfree_from. destruct (Z.eqb_spec p 0); [lia|].
  rewrite Eacq. cbv zeta. unfold META_SIZE.
  rewrite (wrap_small 64 (p - 24)) by (unfold KHEAP_SIZE in *; lia).
  assert (in_heap heap (p - 24) = true) as -> by (apply in_heap_spec; lia).
  destruct (free_at heap (p - 24) (segs_of h)) as [|s r] eqn:Efr; [by rewrite <-Ht' in Ht|].
  eexists. split; [done|].
  assert (Hfuel : (length r < walk_fuel (mark (p - 24) true (hdrs h)))%nat).
  { pose proof (rep_fuel _ _ _ Hrep'). unfold walk_fuel. simpl in *. lia. }
  destruct (merge_loop_rep _ 0 _ _ _ _ Hrep' Hfuel) as [Hm _]; [lia..|].
  apply kheap_ok_intro; try done.
  - cbn [hdrs kheap_lock_release]. unfold kheap_lock_release, merge_free_blocks.
    case_match; cbn [hdrs set_lock set_hdrs heap_trace_add free_list]; rewrite Hfl; exact Hm.
  - unfold coalesce_all. rewrite coalesce_total. lia.
  - unfold coalesce_all. destruct (coalesce_hd MERGE_STEPS s r) as (? & ? & ->). done.
Qed.

Lemma coalesce_all_live a segs : live_of a (coalesce_all segs) = live_of a segs.
Proof. destruct segs; [done|]. apply coalesce_live. Qed.

Lemma kmalloc_live_aux me who n h p h' :
  kheap_ok h -> 0 <= n < 2 ^ 63 -> kmalloc_from heap me who n h = Some (Some p, h') ->
  kheap_ok h' /\ kheap_live h !! p = None /\
  exists sz, n <= sz /\ heap + META_SIZE <= p /\ p + sz <= heap + KHEAP_SIZE /\
    p mod 8 = heap mod 8 /\ kheap_live h' = <[p := sz]> (kheap_live h) /\
    (forall q lq, kheap_live h !! q = Some lq -> disjoint_range p sz q lq).
Proof.
  intros Hok Hn Hk.
  destruct (kmalloc_refines_aux me who n h Hok) as (r & h1 & Hk1 & Hok' & Hs).
  rewrite Hk in Hk1. injection Hk1 as <- <-.
  destruct (start_ok h Hok) as (h0 & _ & Hok0 & Hi0 & Hs0). rewrite <-Hs0 in Hs.
  destruct (kheap_ok_segs h0 Hok0 Hi0) as (Hfl & Hrep & Ht & Hne).
  destruct (alloc heap (align8 n) (segs_of h0)) as [[q segs']|] eqn:Ea; [|by destruct Hs].
  destruct Hs as [[= ->] Hs].
  pose proof (align8_bounds n Hn). pose proof (align8_aligned n) as [? _].
  destruct (alloc_live _ _ _ _ _ _ Hrep Ea) as (Ht' & Hq & Hnone & sz & Hsz & Hend & Hl & Hd);
    [done|].
  unfold kheap_live in *. rewrite Hs0 in *. rewrite Hs.
  assert (Hin : kheap_live h' !! (q + META_SIZE) = Some sz).
  { unfold kheap_live. by rewrite Hs, Hl, lookup_insert_eq. }
  destruct (kheap_live_bounds _ _ _ Hok' Hin) as (_ & ? & ? & ? & ?).
  split; [done|]. split; [done|]. exists sz. split; [lia|]. done.
Qed.

End array.

(** ** The allocator implements the interface *)

(** Where the linker may place the static array. *)
Class KheapPlaced (heap : Z) : Prop := {
  heap_pos : 0 < heap;
  heap_end : heap + KHEAP_SIZE < 2 ^ 64;
}.

Section instance.
Variables (heap me who : Z).

#[export] Instance kheap_KernelHeap : KernelHeap kheap := {|
  HeapIface.kmalloc n h :=
    match kmalloc_from heap me who n h with Some r => r | None => (None, h) end;
  HeapIface.kfree p h :=
    match kfree_from heap me who p h with Some h' => h' | None => h end;
  live := kheap_live heap;
  heap_ok := kheap_ok heap;
  arena p := (heap <=? p) && (p <=? heap + KHEAP_SIZE);
|}.

#[export] Instance kheap_KernelHeapSpec `{!KheapPlaced heap} : KernelHeapSpec kheap.
Proof.
  destruct KheapPlaced0 as [Hpos Hend]. constructor; simpl.
  - intros h n p h' Hok Hn Hk. destruct (kmalloc_from _ _ _ _ _) as [[r h1]|] eqn:E; [|done].
    simplify_eq.
    destruct (kmalloc_live_aux heap Hpos Hend _ _ _ _ _ _ Hok Hn E)
      as (Hok' & Hnone & sz & ? & ? & ? & ? & ? & ?).
    assert (Ha : (heap <=? p) && (p <=? heap + KHEAP_SIZE) = true)
      by (unfold META_SIZE in *; lia).
    unfold META_SIZE, KHEAP_SIZE in *. split; [done|]. split; [lia|]. split; [done|]. eauto.
  - intros h n h' Hok Hn Hk.
    destruct (kmalloc_refines_aux heap Hpos Hend me who n h Hok) as (r & h1 & Hk1 & Hok' & Hs).
    rewrite Hk1 in Hk. simplify_eq. split; [done|]. unfold kheap_live.
    destruct (alloc _ _ _) as [[q segs']|]; destruct Hs as [Hr Hs]; [done|by rewrite Hs].
  - intros h p Hok Hp.
    destruct (kfree_refines_aux heap Hpos Hend me who p h Hok Hp) as (h' & -> & Hok' & Hs).
    split; [done|]. destruct Hp as [sz Hp].
    destruct (kheap_live_bounds heap h p sz Hok Hp) as (Hi & _).
    destruct (kheap_ok_segs heap h Hok Hi) as (_ & Hrep & _ & _).
    unfold kheap_live in *. rewrite Hs, coalesce_all_live.
    assert (Hq : live_of heap (segs_of h) !! (p - META_SIZE + META_SIZE) = Some sz)
      by (by replace (p - META_SIZE + META_SIZE) with p by lia).
    destruct (free_at_rep _ _ _ _ Hrep (mk_is_Some _ _ Hq)) as (_ & _ & -> & _).
    by replace (p - META_SIZE + META_SIZE) with p by lia.
  - intros h _. done.
Qed.

End instance.

(** The kernel and its static data are linked at 0xffffffff80200000
    (src/config/linker.ld); the witnesses also use a small address. *)
#[export] Instance heap_placed_kernel : KheapPlaced 0xffffffff80400000.
Proof. split; [lia|unfold KHEAP_SIZE; lia]. Qed.
#[export] Instance heap_placed_2M : KheapPlaced 2097152.
Proof. split; [lia|unfold KHEAP_SIZE; lia]. Qed.

Lemma kheap_boot_ok heap : kheap_ok heap kheap_boot.
Proof. split; [done|]. by intros. Qed.
