(* ===== verification/KheapProps.v ===== *)
(** The properties of the kernel heap: refinement of first fit, separation of
    the blocks handed out, restoration by [kfree], size wrap-around, aligned
    blocks and the diagnostic ring. *)
From Stdlib Require Import ZArith Lia.
From stdpp Require Import base numbers list gmap.
From S2P Require Import Prelude HeapIface Kheap KheapSpec.

(** ** Freeing what was just allocated *)

Lemma coalesce_id k s r : no_adjacent_free (s :: r) -> coalesce k s r = s :: r.
Proof.
  revert s r. induction k as [|k IH]; intros [sz fr] [|[sz2 fr2] r]; try done.
  intros [E Hr]. simpl. rewrite E. f_equal. by apply IH.
Qed.

Lemma coalesce_head k s r : exists sz r', coalesce k s r = (sz, s.2) :: r'.
Proof.
  revert s r. induction k as [|k IH]; intros [sz fr] [|[sz2 fr2] r]; simpl; eauto.
  case_match; [apply (IH (_, _))|eauto].
Qed.

Lemma free_at_nonnil a p segs : segs <> [] -> free_at a p segs <> [].
Proof. destruct segs as [|[sz fr] r]; [done|]. simpl. by case_match. Qed.

Lemma free_alloc_restores hd a n segs p segs' k :
  rep hd a segs -> alloc a n segs = Some (p, segs') -> 0 <= n -> 0 < a ->
  no_adjacent_free segs -> (length segs' <= S k)%nat ->
  match free_at a p segs' with [] => [] | s :: r => coalesce k s r end = segs.
Proof.
  revert a p segs' k. induction segs as [|[sz fr] r IH]; intros a p segs' k Hrep He Hn Ha Hadj Hk;
    [done|].
  destruct Hrep as (Hsz & Hm & Hl & Hr). simpl in He.
  destruct (fr && (n <=? sz)) eqn:E.
  - injection He as <- <-. apply andb_prop in E as [-> En%Z.leb_le].
    destruct (n + META_SIZE + 32 <? sz); simpl in *; rewrite Z.eqb_refl.
    + destruct k as [|k]; [lia|]. simpl.
      replace (n + (META_SIZE + (sz - n - META_SIZE))) with sz by lia. by apply coalesce_id.
    + by apply coalesce_id.
  - destruct (alloc (a + META_SIZE + sz) n r) as [[p' r']|] eqn:Er; [|done].
    injection He as <- <-. simpl in Hk. unfold META_SIZE in *.
    destruct (alloc_live _ _ _ _ _ _ Hr Er Hn) as (_ & Hp & _).
    simpl. destruct (Z.eqb_spec a p'); [lia|]. unfold META_SIZE.
    assert (Hr' : r' <> []) by (intros ->; by apply alloc_nonnil in Er).
    destruct k as [|k]; [destruct r'; [done|simpl in Hk; lia]|].
    assert (Hadj' : no_adjacent_free r) by (destruct r as [|[]]; [done|apply Hadj]).
    specialize (IH _ _ _ k Hr Er Hn ltac:(lia) Hadj' ltac:(lia)).
    pose proof (free_at_nonnil (a + 24 + sz) p' r' Hr') as Hf.
    destruct (free_at (a + 24 + sz) p' r') as [|[sz2 fr2] r2]; [done|].
    simpl. destruct (coalesce_head k (sz2, fr2) r2) as (sz3 & r3 & Hh). simpl in Hh.
    rewrite Hh in IH. rewrite <-IH in Hadj. destruct Hadj as [-> _]. by rewrite Hh, IH.
Qed.

(** ** The ring of allocation events *)

Definition TRACE_N : nat := Z.to_nat HEAP_TRACE_MAX.

Lemma TRACE_N_Z : Z.of_nat TRACE_N = HEAP_TRACE_MAX.
Proof. unfold TRACE_N. by rewrite Z2Nat.id. Qed.

Lemma to_nat_mod_trace n :
  Z.to_nat (Z.of_nat n mod HEAP_TRACE_MAX) = (n mod TRACE_N)%nat.
Proof. rewrite <-TRACE_N_Z, <-Nat2Z.inj_mod. apply Nat2Z.id. Qed.

(** Two events less than a ring length apart sit in different slots. *)
Lemma slot_inj i n :
  0 < n - i < HEAP_TRACE_MAX -> 0 <= i -> i mod HEAP_TRACE_MAX <> n mod HEAP_TRACE_MAX.
Proof. unfold HEAP_TRACE_MAX. intros. zify_div. Qed.

(** The slot the dump reads for the [n]-th newest of [c] events. *)
Lemma slot_dump c n :
  0 <= n < c -> n < HEAP_TRACE_MAX ->
  Z.rem (Z.rem c HEAP_TRACE_MAX - 1 - n + HEAP_TRACE_MAX * 2) HEAP_TRACE_MAX =
    (c - 1 - n) mod HEAP_TRACE_MAX.
Proof.
  unfold HEAP_TRACE_MAX. intros. rewrite !Z.rem_mod_nonneg by zify_div. zify_div.
Qed.

(** The ring holds the last events of the history [evs]. *)
Definition trace_rep (evs : list heap_trace_t) (h : kheap) : Prop :=
  heap_trace_count h = Z.of_nat (length evs) /\
  length (heap_trace h) = TRACE_N /\
  (forall i, (length evs <= i + TRACE_N)%nat -> (i < length evs)%nat ->
     heap_trace h !! (i mod TRACE_N)%nat = evs !! i).

Lemma heap_trace_add_rep evs h p sz fr who :
  trace_rep evs h -> Z.of_nat (length evs) < 2 ^ 31 - 1 ->
  trace_rep (evs ++ [HeapTrace p sz fr who]) (heap_trace_add p sz fr who h).
Proof.
  intros (Hc & Hlen & Hev) Hb. pose proof TRACE_N_Z as HN.
  unfold trace_rep, heap_trace_add.
  cbn [heap_trace_count heap_trace]. rewrite length_app. cbn [length].
  rewrite Hc, i32_small by lia. rewrite Z.rem_mod_nonneg by (unfold HEAP_TRACE_MAX; lia).
  pose proof (Z.mod_pos_bound (Z.of_nat (length evs)) HEAP_TRACE_MAX eq_refl).
  destruct (Z.ltb_spec (Z.of_nat (length evs) mod HEAP_TRACE_MAX) 0) as [|_]; [lia|].
  split; [lia|]. split; [by rewrite length_insert|]. intros i Hi1 Hi2.
  rewrite to_nat_mod_trace. destruct (decide (i = length evs)) as [->|Hne].
  - rewrite list_lookup_insert_eq.
    2:{ rewrite Hlen. apply Nat.mod_upper_bound. unfold HEAP_TRACE_MAX in HN. lia. }
    by rewrite lookup_app_r, Nat.sub_diag by lia.
  - rewrite list_lookup_insert_ne; [rewrite lookup_app_l by lia; apply Hev; lia|].
    intros He. apply (f_equal Z.of_nat) in He. rewrite !Nat2Z.inj_mod, HN in He.
    symmetry in He. revert He. apply slot_inj; lia.
Qed.

Lemma trace_dump_loop_rep evs h fuel n :
  trace_rep evs h -> (n <= length evs)%nat ->
  trace_dump_loop fuel h (Z.of_nat n) = take fuel (drop n (take TRACE_N (reverse evs))).
Proof.
  intros (Hc & Hlen & Hev). pose proof TRACE_N_Z as HN.
  revert n. induction fuel as [|fuel IH]; intros n Hn; [done|].
  cbn [trace_dump_loop]. rewrite Hc.
  destruct (decide (n < length evs /\ n < TRACE_N)%nat) as [[H1 H2]|Hno].
  - assert ((Z.of_nat n <? Z.of_nat (length evs)) && (Z.of_nat n <? HEAP_TRACE_MAX) = true)
      as -> by (rewrite andb_true_iff, !Z.ltb_lt; lia).
    rewrite slot_dump by lia.
    pose proof (Z.mod_pos_bound (Z.of_nat (length evs) - 1 - Z.of_nat n) HEAP_TRACE_MAX eq_refl).
    destruct (Z.ltb_spec ((Z.of_nat (length evs) - 1 - Z.of_nat n) mod HEAP_TRACE_MAX) 0)
      as [|_]; [lia|].
    replace (Z.of_nat (length evs) - 1 - Z.of_nat n)
      with (Z.of_nat (length evs - 1 - n)) by lia. rewrite to_nat_mod_trace.
    assert (Hx : is_Some (evs !! (length evs - 1 - n)%nat)) by (apply lookup_lt_is_Some; lia).
    destruct Hx as [ev Hx]. rewrite Hev, Hx by lia.
    assert (Hd : take TRACE_N (reverse evs) !! n = Some ev).
    { rewrite lookup_take_lt, reverse_lookup by lia. rewrite <-Hx. f_equal. lia. }
    rewrite (drop_S _ _ _ Hd). cbn [take]. f_equal.
    replace (Z.of_nat n + 1) with (Z.of_nat (S n)) by lia. apply IH. lia.
  - assert ((Z.of_nat n <? Z.of_nat (length evs)) && (Z.of_nat n <? HEAP_TRACE_MAX) = false)
      as -> by (rewrite andb_false_iff, !Z.ltb_ge; lia).
    rewrite drop_ge; [by rewrite take_nil|]. rewrite length_take, length_reverse. lia.
Qed.

(** ** Aligned blocks *)

Lemma align_up_spec x k :
  0 <= x -> x + 2 ^ k <= 2 ^ 64 -> 0 <= k <= 32 ->
  align_up x (2 ^ k) mod 2 ^ k = 0 /\ x <= align_up x (2 ^ k) < x + 2 ^ k.
Proof.
  intros Hx Hx' Hk. pose proof (Z.pow_pos_nonneg 2 k). pose proof (Z.pow_le_mono_r 2 k 32).
  unfold align_up. rewrite (wrap_small 64) by lia. rewrite land_mask_down by lia.
  pose proof (Z.div_mod (x + 2 ^ k - 1) (2 ^ k)).
  pose proof (Z.mod_pos_bound (x + 2 ^ k - 1) (2 ^ k)).
  split; [|lia]. rewrite Z.mul_comm. apply Z.mod_mul. lia.
Qed.

Lemma alloc_length a n segs p segs' :
  alloc a n segs = Some (p, segs') -> (length segs' <= S (length segs))%nat.
Proof.
  revert a p segs'. induction segs as [|[sz fr] r IH]; intros a p segs' H; [done|].
  simpl in H. case_match; [simplify_eq; case_match; simpl; lia|].
  destruct (alloc _ n r) as [[p' r']|] eqn:E; simplify_eq. simpl. apply IH in E. lia.
Qed.

Lemma MERGE_STEPS_Z : Z.of_nat MERGE_STEPS = 99999.
Proof. unfold MERGE_STEPS. by rewrite Z2Nat.id. Qed.

(** ** Properties *)

(** C1. [kmalloc] always returns, and what it does to the block list is
    first-fit allocation: it returns NULL exactly when no free segment is large
    enough for the request rounded up to 8, else the first such segment, split
    when more than 32 bytes remain. *)
Theorem kmalloc_first_fit heap me who n h :
  KheapPlaced heap -> kheap_ok heap h ->
  exists r h', kmalloc_from heap me who n h = Some (r, h') /\ kheap_ok heap h' /\
    match alloc heap (align8 n) (segs_of h) with
    | None => r = None /\ segs_of h' = segs_of h
    | Some (p, segs') => r = Some (p + META_SIZE) /\ segs_of h' = segs'
    end.
Proof. intros [Hpos Hend]. by apply kmalloc_refines_aux. Qed.

(** The array where the linker script puts the kernel. *)
Lemma kmalloc_first_fit_witness :
  exists h', kmalloc_from 0xffffffff80400000 1 0 100 kheap_boot = Some (Some 0xffffffff80400018, h') /\
    segs_of h' = [(104, false); (KHEAP_SIZE - 152, true)].
Proof.
  destruct (kmalloc_first_fit 0xffffffff80400000 1 0 100 kheap_boot _ (kheap_boot_ok _))
    as (r & h' & Hk & _ & Hr).
  exists h'. vm_compute in Hr. destruct Hr as [-> Hs]. split; [exact Hk|exact Hs].
Defined.

(** C2. A block returned by [kmalloc] for a request below 2^63 bytes is large
    enough, lies inside the heap array, has the array's alignment modulo 8, overlaps no block that is still
    allocated, and nothing else about the allocated blocks changes. *)
Theorem kmalloc_separates heap me who n h p h' :
  KheapPlaced heap -> kheap_ok heap h -> 0 <= n < 2 ^ 63 ->
  kmalloc_from heap me who n h = Some (Some p, h') ->
  kheap_live heap h !! p = None /\
  exists sz, n <= sz /\ heap + META_SIZE <= p /\ p + sz <= heap + KHEAP_SIZE /\
    p mod 8 = heap mod 8 /\ kheap_live heap h' = <[p := sz]> (kheap_live heap h) /\
    (forall q lq, kheap_live heap h !! q = Some lq -> disjoint_range p sz q lq).
Proof. intros [Hpos Hend] Hok Hn Hk. by eapply kmalloc_live_aux. Qed.

Lemma kmalloc_separates_witness :
  exists p h1 q h2, kmalloc_from 0xffffffff80400000 1 0 100 kheap_boot = Some (Some p, h1) /\
    kmalloc_from 0xffffffff80400000 1 0 40 h1 = Some (Some q, h2) /\ disjoint_range q 40 p 104.
Proof.
  do 4 eexists. split; [vm_compute; reflexivity|]. split; [vm_compute; reflexivity|].
  edestruct (kmalloc_separates 0xffffffff80400000 1 0 100 kheap_boot) as (_ & s1 & _ & _ & _ & _ & Hl1 & _);
    [apply _|apply kheap_boot_ok|lia|vm_compute; reflexivity|].
  right. lia.
Defined.

(** [kfree] of an allocated block removes exactly that block, keeps the
    heap well formed, and (below the 100000-step limit of the merge pass) leaves
    no two neighbouring free blocks. *)
Theorem kfree_coalesces heap me who p h :
  KheapPlaced heap -> kheap_ok heap h -> is_Some (kheap_live heap h !! p) ->
  Z.of_nat (length (segs_of h)) <= 100000 ->
  exists h', kfree_from heap me who p h = Some h' /\ kheap_ok heap h' /\
    kheap_live heap h' = delete p (kheap_live heap h) /\ no_adjacent_free (segs_of h').
Proof.
  intros [Hpos Hend] Hok [sz Hp] Hlen.
  destruct (kfree_refines_aux heap Hpos Hend me who p h Hok (mk_is_Some _ _ Hp))
    as (h' & Hk & Hok' & Hs).
  exists h'. split; [done|]. split; [done|].
  destruct (kheap_live_bounds heap h p sz Hok Hp) as (Hi & _).
  destruct (kheap_ok_segs heap h Hok Hi) as (_ & Hrep & _ & Hne).
  unfold kheap_live in *. rewrite Hs, coalesce_all_live.
  assert (Hq : live_of heap (segs_of h) !! (p - META_SIZE + META_SIZE) = Some sz)
    by (by replace (p - META_SIZE + META_SIZE) with p by lia).
  destruct (free_at_rep _ _ _ _ Hrep (mk_is_Some _ _ Hq)) as (_ & _ & -> & _).
  split; [by replace (p - META_SIZE + META_SIZE) with p by lia|].
  assert (Hl : length (free_at heap (p - META_SIZE) (segs_of h)) = length (segs_of h)).
  { clear. generalize heap. induction (segs_of h) as [|[sz fr] r IH]; intros a; [done|].
    simpl. case_match; simpl; [done|]. by rewrite IH. }
  destruct (free_at _ _ _) as [|s r]; [done|]. simpl in Hl.
  apply coalesce_no_adjacent. pose proof MERGE_STEPS_Z. lia.
Qed.

Definition heap_two_blocks : option kheap :=
  match kmalloc_from 2097152 1 0 100 kheap_boot with
  | Some (_, h1) =>
      match kmalloc_from 2097152 1 0 40 h1 with Some (_, h2) => Some h2 | None => None end
  | None => None
  end.

Lemma heap_two_blocks_ok :
  exists h, heap_two_blocks = Some h /\ kheap_ok 2097152 h /\
    segs_of h = [(104, false); (40, false); (KHEAP_SIZE - 216, true)].
Proof.
  unfold heap_two_blocks. pose proof heap_placed_2M as [Hp He].
  destruct (kmalloc_refines_aux _ Hp He 1 0 100 _ (kheap_boot_ok _)) as (r1 & h1 & -> & Ho1 & H1).
  destruct (kmalloc_refines_aux _ Hp He 1 0 40 _ Ho1) as (r2 & h2 & -> & Ho2 & H2).
  exists h2. split; [done|]. split; [done|].
  replace (alloc 2097152 (align8 100) (segs_of kheap_boot))
    with (Some (2097152, [(104, false); (KHEAP_SIZE - 152, true)])) in H1
    by (vm_compute; reflexivity).
  destruct H1 as [_ H1]. rewrite H1 in H2.
  replace (alloc _ _ _) with
    (Some (2097280, [(104, false); (40, false); (KHEAP_SIZE - 216, true)])) in H2
    by (vm_compute; reflexivity).
  by destruct H2.
Qed.

Lemma kfree_coalesces_witness :
  exists h h', heap_two_blocks = Some h /\ kfree_from 2097152 1 0 2097304 h = Some h' /\
    no_adjacent_free (segs_of h').
Proof.
  destruct heap_two_blocks_ok as (h & Hh & Hok & Hs).
  destruct (kfree_coalesces 2097152 1 0 2097304 h) as (h' & Hk & _ & _ & Hadj).
  - apply _.
  - exact Hok.
  - unfold kheap_live. rewrite Hs. exists 40. vm_compute. reflexivity.
  - rewrite Hs. cbn [length]. lia.
  - exists h, h'. exact (conj Hh (conj Hk Hadj)).
Defined.

(** [kfree] undoes [kmalloc]: from a heap whose free blocks are coalesced,
    freeing the block just allocated gives back the same list of blocks. *)
Theorem kmalloc_kfree_restores heap me who n h p h1 :
  KheapPlaced heap -> kheap_ok heap h -> 0 <= n < 2 ^ 63 ->
  no_adjacent_free (segs_of h) -> Z.of_nat (length (segs_of h)) < 100000 ->
  kmalloc_from heap me who n h = Some (Some p, h1) ->
  exists h2, kfree_from heap me who p h1 = Some h2 /\ segs_of h2 = segs_of h.
Proof.
  intros [Hpos Hend] Hok Hn Hadj Hlen Hk.
  destruct (kmalloc_live_aux heap Hpos Hend _ _ _ _ _ _ Hok Hn Hk) as (Hok1 & _ & sz & H).
  assert (Hlive : is_Some (kheap_live heap h1 !! p)).
  { destruct H as (_ & _ & _ & _ & -> & _). by rewrite lookup_insert_eq. }
  destruct (kfree_refines_aux heap Hpos Hend me who p h1 Hok1 Hlive) as (h2 & Hf & _ & Hs2).
  exists h2. split; [done|]. rewrite Hs2.
  destruct (kmalloc_refines_aux heap Hpos Hend me who n h Hok) as (r & h1' & Hk' & _ & Hr).
  rewrite Hk in Hk'. simplify_eq.
  destruct (start_ok heap Hpos h Hok) as (h0 & _ & Hok0 & Hi0 & Hs0). rewrite <-Hs0 in *.
  destruct (kheap_ok_segs heap h0 Hok0 Hi0) as (_ & Hrep & _ & _).
  destruct (alloc heap (align8 n) (segs_of h0)) as [[q segs']|] eqn:Ea; [|by destruct Hr].
  destruct Hr as [[= ->] ->]. replace (q + META_SIZE - META_SIZE) with q by lia.
  eapply free_alloc_restores; try done; [apply align8_aligned|].
  apply alloc_length in Ea. pose proof MERGE_STEPS_Z. lia.
Qed.

Lemma kmalloc_kfree_restores_witness :
  exists p h1 h2, kmalloc_from 2097152 1 0 5000 kheap_boot = Some (Some p, h1) /\
    kfree_from 2097152 1 0 p h1 = Some h2 /\ segs_of h2 = segs_of kheap_boot.
Proof.
  destruct (kmalloc_from 2097152 1 0 5000 kheap_boot) as [[[p|] h1]|] eqn:E;
    [|vm_compute in E; discriminate|vm_compute in E; discriminate].
  destruct (kmalloc_kfree_restores 2097152 1 0 5000 kheap_boot p h1) as (h2 & H1 & H2);
    [apply _|apply kheap_boot_ok|lia|exact I|simpl; lia|exact E|].
  exists p, h1, h2. exact (conj eq_refl (conj H1 H2)).
Defined.

(** The rounding [(size + 7) & ~7] wraps around: a request within 7 bytes
    of 2^64 is served like a request for 0 bytes, so [kmalloc] can return a
    block far smaller than asked for; every request below that is rounded up to
    the next multiple of 8. *)
Theorem kmalloc_size_wraps heap me who n h :
  0 <= n < 2 ^ 64 ->
  if decide (2 ^ 64 - 7 <= n)
  then kmalloc_from heap me who n h = kmalloc_from heap me who 0 h
  else n <= align8 n < n + 8 /\ align8 n mod 8 = 0.
Proof.
  intros Hn. case_decide as Hw.
  - assert (align8 n = align8 0) as E.
    { rewrite !align8_spec. f_equal. unfold wrap.
      rewrite (Z.mod_small (0 + 7)) by lia.
      replace (n + 7) with (n + 7 - 2 ^ 64 + 1 * 2 ^ 64) by lia.
      rewrite Z.mod_add, Z.mod_small by lia. zify_div. }
    unfold kmalloc_from. by rewrite E.
  - split; [|apply align8_aligned]. rewrite align8_spec, wrap_small by lia. zify_div.
Qed.

Lemma kmalloc_size_wraps_witness :
  exists h', kmalloc_from 2097152 1 0 (2 ^ 64 - 1) kheap_boot = Some (Some 2097176, h') /\
    kheap_live 2097152 h' !! 2097176 = Some 0.
Proof.
  pose proof (kmalloc_size_wraps 2097152 1 0 (2 ^ 64 - 1) kheap_boot ltac:(lia)) as H.
  rewrite decide_True in H by lia. rewrite H. eexists.
  split; vm_compute; reflexivity.
Defined.

(** [kmalloc_aligned] returns an address aligned to the power of two asked
    for, with [size] bytes from there inside the underlying block and room for
    the saved pointer before it; [kfree_aligned] of that address frees that
    underlying block. *)
Theorem kmalloc_aligned_block heap me who sz k h q h' :
  KheapPlaced heap -> kheap_ok heap h -> 0 <= sz < 2 ^ 62 -> 0 <= k <= 32 ->
  kmalloc_aligned heap me who sz (2 ^ k) h = Some (Some q, h') ->
  q mod 2 ^ k = 0 /\
  exists p len, kheap_live heap h' !! p = Some len /\
    p <= q - 8 /\ q + sz <= p + len /\
    kfree_aligned heap me who q h' = kfree_from heap me who p h'.
Proof.
  intros [Hpos Hend] Hok Hsz Hk Hm.
  pose proof (Z.pow_pos_nonneg 2 k). pose proof (Z.pow_le_mono_r 2 k 32).
  unfold kmalloc_aligned in Hm. rewrite (wrap_small 64 (sz + 2 ^ k + 8)) in Hm by lia.
  destruct (start_ok heap Hpos h Hok) as (h0 & E0 & Hok0 & _). rewrite E0 in Hm.
  destruct (kmalloc_from _ _ _ _ _) as [[[p|] h1]|] eqn:E; simplify_eq.
  destruct (kmalloc_live_aux heap Hpos Hend me who (sz + 2 ^ k + 8) _ p h1 Hok0)
    as (_ & _ & len & Hlen & Hlo & Hhi & _ & Hl & _); [lia|done|].
  unfold META_SIZE, KHEAP_SIZE in *.
  rewrite (wrap_small 64 (p + 8)) by lia.
  destruct (align_up_spec (p + 8) k) as [Hmod Hb]; [lia..|].
  split; [done|]. exists p, len.
  assert (Hlive : kheap_live heap (set_words <[u64 (align_up (p + 8) (2 ^ k) - 8) := p]> h1)
                    = kheap_live heap h1) by done.
  rewrite Hlive, Hl, lookup_insert_eq. split; [done|]. split; [lia|]. split; [lia|].
  unfold kfree_aligned. destruct (Z.eqb_spec (align_up (p + 8) (2 ^ k)) 0); [lia|].
  unfold set_words at 1. cbn [words]. by rewrite lookup_insert_eq.
Qed.

Lemma kmalloc_aligned_block_witness :
  exists q h', kmalloc_aligned 2097152 1 0 2048 (2 ^ 4) kheap_boot = Some (Some q, h') /\
    q mod 2 ^ 4 = 0.
Proof.
  destruct (kmalloc_aligned 2097152 1 0 2048 (2 ^ 4) kheap_boot) as [[[q|] h']|] eqn:E;
    [|vm_compute in E; discriminate|vm_compute in E; discriminate].
  destruct (kmalloc_aligned_block 2097152 1 0 2048 4 kheap_boot q h') as [Hm _];
    [apply _|apply kheap_boot_ok|lia|lia|exact E|].
  exists q, h'. exact (conj eq_refl Hm).
Defined.

(** Recording a history of events, oldest first. *)
Definition record_events (evs : list heap_trace_t) (h : kheap) : kheap :=
  fold_left (fun h ev => heap_trace_add (ptr ev) (tsize ev) (tfree ev) (caller ev) h) evs h.

Lemma record_events_rep evs0 evs h :
  trace_rep evs0 h -> Z.of_nat (length (evs0 ++ evs)) < 2 ^ 31 ->
  trace_rep (evs0 ++ evs) (record_events evs h).
Proof.
  revert evs0 h. induction evs as [|[p sz fr who] evs IH]; intros evs0 h Hr Hb.
  { by rewrite app_nil_r. }
  simpl. rewrite cons_middle, app_assoc. rewrite length_app in Hb. simpl in Hb.
  apply IH; [|rewrite !length_app; simpl; lia]. apply heap_trace_add_rep; [done|lia].
Qed.

(** After any history of fewer than 2^31 allocator events the crash dump
    lists the last [max] of them, at most a ring's worth, newest first. *)
Theorem kheap_trace_dump_newest_first evs max :
  Z.of_nat (length evs) < 2 ^ 31 ->
  kheap_trace_dump max (record_events evs kheap_boot) =
    take (Z.to_nat max) (take (Z.to_nat HEAP_TRACE_MAX) (reverse evs)).
Proof.
  intros Hb. unfold kheap_trace_dump.
  assert (Hr : trace_rep evs (record_events evs kheap_boot)).
  { apply (record_events_rep []); [|done]. split; [done|].
    split; [apply length_replicate|intros i _ Hi; by apply Nat.nlt_0_r in Hi]. }
  rewrite (trace_dump_loop_rep _ _ _ 0 Hr) by lia. by rewrite drop_0.
Qed.

Lemma kheap_trace_dump_newest_first_witness :
  kheap_trace_dump 2 (record_events
    [HeapTrace 10 8 false 0; HeapTrace 20 16 false 0; HeapTrace 10 0 true 0] kheap_boot)
  = [HeapTrace 10 0 true 0; HeapTrace 20 16 false 0].
Proof. rewrite kheap_trace_dump_newest_first by (simpl; lia). vm_compute. reflexivity. Defined.
