(* ===== verification/KheapLock.v ===== *)
(** The lock of src/kernel/mem/kheap.c under preemption: [kheap_lock_acquire]
    and [kheap_lock_release] as the interleaved atomic steps of any number of
    tasks, and mutual exclusion of the allocator's critical section. *)
From Stdlib Require Import ZArith Lia.
From stdpp Require Import base numbers list relations functions.
From S2P Require Import Prelude.

(** Where a task is inside acquire, the critical section, or release. *)
Inductive pc :=
  | Out                 (* not in the allocator *)
  | Spin                (* owner was not me: in the test-and-set loop *)
  | Taken               (* test-and-set won, owner not yet written *)
  | Owned               (* owner = me written, depth not yet written *)
  | Inside (d : nat)    (* critical section, [d] nested acquires *)
  | Leaving1            (* release wrote owner = -1 *)
  | Leaving2.           (* release wrote depth = 0 *)

#[export] Instance pc_eq_dec : EqDecision pc.
Proof. solve_decision. Defined.

Record lock_state := LockState {
  lk : bool;              (* kheap_lock *)
  owner : Z;              (* kheap_lock_owner *)
  depth : Z;              (* kheap_lock_depth *)
  pcs : Z -> pc;          (* one program counter per task id *)
}.

Definition lock_init : lock_state := LockState false (-1) 0 (fun _ => Out).

(** One memory access of one task.  Task ids are never -1. *)
Inductive lock_step : lock_state -> lock_state -> Prop :=
  | acq_recursive l o d p me k :
      me <> -1 -> p me = Inside k -> o = me ->
      lock_step (LockState l o d p) (LockState l o (d + 1) (<[me := Inside (S k)]> p))
  | acq_recursive_out l o d p me :
      me <> -1 -> p me = Out -> o = me ->
      lock_step (LockState l o d p) (LockState l o (d + 1) (<[me := Inside 1]> p))
  | acq_spin l o d p me :
      me <> -1 -> p me = Out -> o <> me ->
      lock_step (LockState l o d p) (LockState l o d (<[me := Spin]> p))
  | acq_spin_inside l o d p me k :
      me <> -1 -> p me = Inside k -> o <> me ->
      lock_step (LockState l o d p) (LockState l o d (<[me := Spin]> p))
  | acq_fail o d p me :
      p me = Spin -> lock_step (LockState true o d p) (LockState true o d p)
  | acq_win o d p me :
      me <> -1 -> p me = Spin ->
      lock_step (LockState false o d p) (LockState true o d (<[me := Taken]> p))
  | acq_owner l o d p me :
      p me = Taken -> lock_step (LockState l o d p) (LockState l me d (<[me := Owned]> p))
  | acq_depth l o d p me :
      p me = Owned -> lock_step (LockState l o d p) (LockState l o 1 (<[me := Inside 1]> p))
  | rel_nested l o d p me k :
      p me = Inside k -> 1 < d ->
      lock_step (LockState l o d p) (LockState l o (d - 1) (<[me := Inside (pred k)]> p))
  | rel_owner l o d p me k :
      p me = Inside k -> d <= 1 ->
      lock_step (LockState l o d p) (LockState l (-1) d (<[me := Leaving1]> p))
  | rel_depth l o d p me :
      p me = Leaving1 -> lock_step (LockState l o d p) (LockState l o 0 (<[me := Leaving2]> p))
  | rel_clear l o d p me :
      p me = Leaving2 -> lock_step (LockState l o d p) (LockState false o d (<[me := Out]> p)).

(** The task holds the lock word. *)
Definition holding (c : pc) : bool :=
  match c with Out | Spin => false | _ => true end.

(** What the shared variables are while a task holds the lock at [c]. *)
Definition holder_view (me : Z) (o d : Z) (c : pc) : Prop :=
  match c with
  | Out | Spin => True
  | Taken | Leaving1 | Leaving2 => o = -1
  | Owned => o = me
  | Inside k => o = me /\ d = Z.of_nat k /\ (0 < k)%nat
  end.

Record lock_inv (s : lock_state) : Prop := {
  inv_view me : holding (pcs s me) = true ->
    me <> -1 /\ lk s = true /\ holder_view me (owner s) (depth s) (pcs s me);
  inv_unique a b : holding (pcs s a) = true -> holding (pcs s b) = true -> a = b;
  inv_free : (forall a, holding (pcs s a) = false) -> owner s = -1;
  inv_clear : lk s = true -> exists a, holding (pcs s a) = true;
}.

Lemma lock_inv_init : lock_inv lock_init.
Proof. split; done. Qed.

(** The owner, if there is one, holds the lock. *)
Lemma owner_holds s : lock_inv s -> owner s <> -1 -> holding (pcs s (owner s)) = true.
Proof.
  intros [Hv Hu Hf Hc] Ho.
  destruct (lk s) eqn:El.
  - destruct (Hc eq_refl) as [a Ha]. destruct (Hv a Ha) as (_ & _ & Hview).
    destruct (pcs s a) as [| | | |k| |] eqn:Ep; simpl in *; try done.
    + by rewrite Hview, Ep.
    + destruct Hview as [-> _]. by rewrite Ep.
  - destruct Ho. apply Hf. intros a. destruct (holding (pcs s a)) eqn:Ha; [|done].
    by destruct (Hv a Ha) as (_ & ? & _).
Qed.

(** A step of a task that holds the lock before and after keeps the invariant
    once its own view is re-established. *)
Lemma lock_inv_holder l o d p o' d' me c :
  lock_inv (LockState l o d p) -> holding (p me) = true -> holding c = true ->
  holder_view me o' d' c ->
  lock_inv (LockState l o' d' (<[me := c]> p)).
Proof.
  intros [Hv Hu Hf Hc] Hme Hcc Hview. simpl in *.
  assert (Hhold : forall a, holding (<[me := c]> p a) = true -> a = me).
  { intros a. destruct (decide (a = me)) as [->|Hne]; [done|].
    rewrite fn_lookup_insert_ne by done. intros Ha. by apply Hu. }
  destruct (Hv me Hme) as (Hne & Hl & _). split; simpl.
  - intros a Ha. rewrite (Hhold a Ha), fn_lookup_insert. done.
  - intros a b Ha Hb. by rewrite (Hhold a Ha), (Hhold b Hb).
  - intros Hall. specialize (Hall me). rewrite fn_lookup_insert in Hall. congruence.
  - intros _. exists me. by rewrite fn_lookup_insert.
Qed.

(** A step of a task that does not hold the lock. *)
Lemma lock_inv_waiter l o d p me c :
  lock_inv (LockState l o d p) -> holding (p me) = false -> holding c = false ->
  lock_inv (LockState l o d (<[me := c]> p)).
Proof.
  intros [Hv Hu Hf Hc] Hme Hcc. simpl in *.
  assert (Heq : forall a, holding (<[me := c]> p a) = holding (p a)).
  { intros a. destruct (decide (a = me)) as [->|Hne].
    - by rewrite fn_lookup_insert, Hcc, Hme.
    - by rewrite fn_lookup_insert_ne by done. }
  split; simpl; [|setoid_rewrite Heq; eauto..].
  intros a Ha. rewrite Heq in Ha. destruct (decide (a = me)) as [->|Hne]; [congruence|].
  rewrite fn_lookup_insert_ne by done. eauto.
Qed.

Lemma lock_inv_step s s' : lock_step s s' -> lock_inv s -> lock_inv s'.
Proof.
  intros Hstep Hinv. pose proof Hinv as [Hv Hu Hf Hc].
  inversion Hstep as [l o d p me k Hme Hp Ho|l o d p me Hme Hp Ho|l o d p me Hme Hp Ho
    |l o d p me k Hme Hp Ho|o d p me Hp|o d p me Hme Hp|l o d p me Hp|l o d p me Hp
    |l o d p me k Hp Hd|l o d p me k Hp Hd|l o d p me Hp|l o d p me Hp]; subst; simpl in *.
  - destruct (Hv me) as (_ & _ & Hview); rewrite Hp in *; [done|]. simpl in Hview.
    eapply lock_inv_holder; [done|by rewrite Hp|done|]. simpl. lia.
  - apply owner_holds in Hinv; simpl in *; [|done]. by rewrite Hp in Hinv.
  - eapply lock_inv_waiter; [done|by rewrite Hp|done].
  - destruct (Hv me) as (_ & _ & Hview); rewrite Hp in *; [done|]. simpl in Hview. lia.
  - done.
  - assert (Hnone : forall a, holding (p a) = false).
    { intros a. destruct (holding (p a)) eqn:Ha; [|done]. by destruct (Hv a Ha) as (_ & ? & _). }
    assert (Hhold : forall a, holding (<[me := Taken]> p a) = true -> a = me).
    { intros a. destruct (decide (a = me)) as [->|Hne]; [done|].
      rewrite fn_lookup_insert_ne by done. by rewrite Hnone. }
    split; simpl.
    + intros a Ha. rewrite (Hhold a Ha), fn_lookup_insert. simpl. auto.
    + intros a b Ha Hb. by rewrite (Hhold a Ha), (Hhold b Hb).
    + intros _. auto.
    + intros _. exists me. by rewrite fn_lookup_insert.
  - eapply lock_inv_holder; [done|by rewrite Hp|done|done].
  - destruct (Hv me) as (_ & _ & Hview); rewrite Hp in *; [done|]. simpl in Hview.
    eapply lock_inv_holder; [done|by rewrite Hp|done|]. simpl. lia.
  - destruct (Hv me) as (_ & _ & Hview); rewrite Hp in *; [done|]. simpl in Hview.
    eapply lock_inv_holder; [done|by rewrite Hp|done|]. simpl. lia.
  - eapply lock_inv_holder; [done|by rewrite Hp|done|done].
  - destruct (Hv me) as (_ & _ & Hview); rewrite Hp in *; [done|]. simpl in Hview.
    eapply lock_inv_holder; [done|by rewrite Hp|done|done].
  - destruct (Hv me) as (_ & _ & Hview); rewrite Hp in *; [done|]. simpl in Hview.
    assert (Hnone : forall a, holding (<[me := Out]> p a) = false).
    { intros a. destruct (decide (a = me)) as [->|Hne].
      - by rewrite fn_lookup_insert.
      - rewrite fn_lookup_insert_ne by done. destruct (holding (p a)) eqn:Ha; [|done].
        destruct Hne. apply Hu; [done|by rewrite Hp]. }
    split; simpl; try done; intros a; by rewrite Hnone.
Qed.

Lemma lock_inv_reachable s : rtc lock_step lock_init s -> lock_inv s.
Proof.
  intros Hr.
  apply (rtc_ind_r (R := lock_step) lock_inv lock_init); [apply lock_inv_init| |done].
  intros y z _ Hyz Hy. by eapply lock_inv_step.
Qed.

(** C3. Mutual exclusion of the kernel heap: in every interleaving of the
    memory accesses of [kheap_lock_acquire] and [kheap_lock_release], recursive
    acquires included, at most one task is inside the allocator, and while it
    is, the lock word is set, the owner is that task and the depth counts its
    nested acquires. *)
Theorem kheap_lock_mutual_exclusion s a b k j :
  rtc lock_step lock_init s -> pcs s a = Inside k -> pcs s b = Inside j ->
  a = b /\ lk s = true /\ owner s = a /\ depth s = Z.of_nat k.
Proof.
  intros Hr Ha Hb. apply lock_inv_reachable in Hr as [Hv Hu _ _].
  assert (holding (pcs s a) = true) as Ha' by (by rewrite Ha).
  destruct (Hv a Ha') as (_ & Hl & Hview). rewrite Ha in Hview. simpl in Hview.
  split; [|naive_solver]. apply Hu; [done|by rewrite Hb].
Qed.

(** Task 7 takes the lock while task 9 spins, then acquires recursively. *)
Lemma kheap_lock_mutual_exclusion_witness :
  exists s, rtc lock_step lock_init s /\ pcs s 7 = Inside 2 /\ owner s = 7 /\ depth s = 2.
Proof.
  assert (Hr : rtc lock_step lock_init
    (LockState true 7 2 (<[7 := Inside 2]> (<[7 := Inside 1]> (<[7 := Owned]>
       (<[7 := Taken]> (<[9 := Spin]> (<[7 := Spin]> (fun _ => Out))))))))).
  { eapply rtc_l; [apply (acq_spin _ _ _ _ 7); done|].
    eapply rtc_l; [apply (acq_spin _ _ _ _ 9); done|].
    eapply rtc_l; [apply (acq_win _ _ _ 7); done|].
    eapply rtc_l; [apply (acq_owner _ _ _ _ 7); done|].
    eapply rtc_l; [apply (acq_depth _ _ _ _ 7); done|].
    eapply rtc_l; [apply (acq_recursive _ _ _ _ 7 1); done|]. apply rtc_refl. }
  destruct (kheap_lock_mutual_exclusion _ 7 7 2 2 Hr eq_refl eq_refl) as (_ & _ & Ho & Hd).
  eexists. split; [exact Hr|]. split; [reflexivity|]. split; [exact Ho|exact Hd].
Defined.
