(* ===== verification/Vmm.v ===== *)
(** Physical pages and x86-64 page tables: src/kernel/mem/pmm.c and
    src/kernel/mem/vmm.c.  Memory is a map from page base addresses to the 512
    words of the page; a C pointer into the direct map is the physical address
    it stands for (the code adds and subtracts [hhdm_offset]).  CR3 is a field;
    [invlpg] and TLB flushes have no effect on this state. *)
From Stdlib Require Import ZArith Lia.
From stdpp Require Import base numbers list gmap.
From S2P Require Import Prelude.

Definition PAGE_SIZE : Z := 4096.
Definition VMM_PRESENT : Z := 1.
Definition VMM_WRITE : Z := 2.
Definition VMM_USER : Z := 4.
Definition VMM_HUGE : Z := 128.

(** The address field of an entry, and the bases of 2 MB and 1 GB pages. *)
Definition ADDR_MASK : Z := 0x000FFFFFFFFFF000.
Definition MASK_2M : Z := 0x000FFFFFFFE00000.
Definition MASK_1G : Z := 0x000FFFFFC0000000.

Record vm := Vm {
  pages : gmap Z (list Z);
  free_pages_stack : list Z;      (* from the top; its length is free_pages_count *)
  cr3 : Z;
}.

(** ** pmm.c *)

Record memmap_entry := MemmapEntry { base : Z; length_ : Z; usable : bool }.

(** [for (addr = start; addr < end; addr += PAGE_SIZE)], outside the stack. *)
Fixpoint push_pages (fuel : nat) (addr end_ stack_phys stack_end : Z) (st : list Z) : list Z :=
  match fuel with
  | O => st
  | S fuel =>
      if addr <? end_ then
        push_pages fuel (addr + PAGE_SIZE) end_ stack_phys stack_end
          (if (stack_phys <=? addr) && (addr <? stack_end) then st else addr :: st)
      else st
  end.

Definition total_pages (mm : list memmap_entry) : Z :=
  foldl (fun t e => if usable e then t + length_ e / PAGE_SIZE else t) 0 mm.

(** The free stack after [pmm_init]; [None] when no entry can hold the stack. *)
Definition pmm_init (mm : list memmap_entry) : option (list Z) :=
  let total := total_pages mm in
  match list_find (fun e => usable e = true /\ total * 8 <= length_ e) mm with
  | None => None
  | Some (_, spot) =>
      let stack_phys := base spot in
      let stack_end := stack_phys + total * 8 in
      Some (foldl (fun st e =>
              if usable e then
                push_pages (S (Z.to_nat (length_ e / PAGE_SIZE))) (base e)
                  (base e + length_ e) stack_phys stack_end st
              else st) [] mm)
  end.

Definition with_free (f : list Z) (s : vm) : vm := Vm (pages s) f (cr3 s).
Definition with_pages (pg : gmap Z (list Z)) (s : vm) : vm := Vm pg (free_pages_stack s) (cr3 s).

(** Returns 0 when no page is left. *)
Definition pmm_alloc (s : vm) : Z * vm :=
  match free_pages_stack s with
  | [] => (0, s)
  | p :: r => (p, with_free r s)
  end.

Definition pmm_free (phys : Z) (s : vm) : vm := with_free (phys :: free_pages_stack s) s.

Definition pmm_free_count (s : vm) : Z := Z.of_nat (length (free_pages_stack s)).

(** ** vmm.c *)

Definition has (e flag : Z) : bool := negb (Z.land e flag =? 0).
Definition present (e : Z) : bool := has e VMM_PRESENT.
Definition huge (e : Z) : bool := has e VMM_HUGE.
Definition addr_of (e : Z) : Z := Z.land e ADDR_MASK.

Definition entry (pg : gmap Z (list Z)) (t : Z) (i : nat) : Z :=
  default 0 (pg !! t ≫= (fun l => l !! i)).

Definition set_entry (t : Z) (i : nat) (e : Z) (s : vm) : vm :=
  with_pages (alter (<[i := e]>) t (pages s)) s.

Definition fill_page (t : Z) (l : list Z) (s : vm) : vm :=
  with_pages (<[t := l]> (pages s)) s.

Definition zero_page : list Z := replicate 512 0.

Definition pml4_idx (virt : Z) : nat := Z.to_nat (Z.land (Z.shiftr virt 39) 0x1FF).
Definition pdpt_idx (virt : Z) : nat := Z.to_nat (Z.land (Z.shiftr virt 30) 0x1FF).
Definition pd_idx (virt : Z) : nat := Z.to_nat (Z.land (Z.shiftr virt 21) 0x1FF).
Definition pt_idx (virt : Z) : nat := Z.to_nat (Z.land (Z.shiftr virt 12) 0x1FF).

Definition get_next_level (table : Z) (index : nat) (allocate : bool) (s : vm)
    : option Z * vm :=
  let e := entry (pages s) table index in
  if present e then (Some (addr_of e), s)
  else if negb allocate then (None, s)
  else
    let '(phys, s) := pmm_alloc s in
    if phys =? 0 then (None, s)
    else
      let s := fill_page phys zero_page s in
      (Some phys,
       set_entry table index
         (Z.lor (Z.lor (Z.lor phys VMM_PRESENT) VMM_WRITE) VMM_USER) s).

Definition split_entries (base_ step flags : Z) : list Z :=
  (fun j => Z.lor (base_ + Z.of_nat j * step) flags) <$> seq 0 512.

Definition table_flags (new_flags : Z) : Z :=
  let f := Z.lor VMM_PRESENT VMM_WRITE in
  if has new_flags VMM_USER then Z.lor f VMM_USER else f.

Definition split_huge_2m (pd : Z) (idx : nat) (new_flags : Z) (s : vm) : option Z * vm :=
  let old := entry (pages s) pd idx in
  let base_ := Z.land old MASK_2M in
  let flags := Z.land (Z.land old 0xFFF) (u64 (Z.lnot VMM_HUGE)) in
  let '(pt_phys, s) := pmm_alloc s in
  if pt_phys =? 0 then (None, s)
  else
    let s := fill_page pt_phys (split_entries base_ 4096 flags) s in
    (Some pt_phys, set_entry pd idx (Z.lor pt_phys (table_flags new_flags)) s).

Definition split_huge_1g (pdpt : Z) (idx : nat) (new_flags : Z) (s : vm) : option Z * vm :=
  let old := entry (pages s) pdpt idx in
  let base_ := Z.land old MASK_1G in
  let flags := Z.lor (Z.land (Z.land old 0xFFF) (u64 (Z.lnot VMM_HUGE))) VMM_HUGE in
  let '(pd_phys, s) := pmm_alloc s in
  if pd_phys =? 0 then (None, s)
  else
    let s := fill_page pd_phys (split_entries base_ 0x200000 flags) s in
    (Some pd_phys, set_entry pdpt idx (Z.lor pd_phys (table_flags new_flags)) s).

(** The tables on the path to [virt], huge pages split on the way; shared by
    [vmm_map] and the body of [vmm_map_range]. *)
Definition map_walk (virt flags : Z) (s : vm) : option Z * vm :=
  match get_next_level (cr3 s) (pml4_idx virt) true s with
  | (None, s) => (None, s)
  | (Some pdpt, s) =>
      let '(ok, s) :=
        if huge (entry (pages s) pdpt (pdpt_idx virt))
        then split_huge_1g pdpt (pdpt_idx virt) flags s else (Some 0, s) in
      if ok is Some _ then
        match get_next_level pdpt (pdpt_idx virt) true s with
        | (None, s) => (None, s)
        | (Some pd, s) =>
            let '(ok, s) :=
              if huge (entry (pages s) pd (pd_idx virt))
              then split_huge_2m pd (pd_idx virt) flags s else (Some 0, s) in
            if ok is Some _ then get_next_level pd (pd_idx virt) true s else (None, s)
        end
      else (None, s)
  end.

Definition vmm_map (virt phys flags : Z) (s : vm) : bool * vm :=
  match map_walk virt flags s with
  | (None, s) => (false, s)
  | (Some pt, s) =>
      (true, set_entry pt (pt_idx virt)
               (Z.lor (Z.lor (Z.land phys ADDR_MASK) flags) VMM_PRESENT) s)
  end.

Definition vmm_unmap (virt : Z) (s : vm) : vm :=
  match get_next_level (cr3 s) (pml4_idx virt) false s with
  | (None, s) => s
  | (Some pdpt, s) =>
      match get_next_level pdpt (pdpt_idx virt) false s with
      | (None, s) => s
      | (Some pd, s) =>
          match get_next_level pd (pd_idx virt) false s with
          | (None, s) => s
          | (Some pt, s) => set_entry pt (pt_idx virt) 0 s
          end
      end
  end.

Definition vmm_get_phys (virt : Z) (s : vm) : Z :=
  let e4 := entry (pages s) (cr3 s) (pml4_idx virt) in
  if negb (present e4) then 0 else
  let e3 := entry (pages s) (addr_of e4) (pdpt_idx virt) in
  if negb (present e3) then 0 else
  if huge e3 then Z.lor (Z.land e3 MASK_1G) (Z.land virt 0x3FFFFFFF) else
  let e2 := entry (pages s) (addr_of e3) (pd_idx virt) in
  if negb (present e2) then 0 else
  if huge e2 then Z.lor (Z.land e2 MASK_2M) (Z.land virt 0x1FFFFF) else
  let e1 := entry (pages s) (addr_of e2) (pt_idx virt) in
  if negb (present e1) then 0 else
  Z.lor (Z.land e1 ADDR_MASK) (Z.land virt 0xFFF).

Definition vmm_virt_mapped (virt : Z) (s : vm) : bool :=
  let e4 := entry (pages s) (cr3 s) (pml4_idx virt) in
  if negb (present e4) then false else
  let e3 := entry (pages s) (addr_of e4) (pdpt_idx virt) in
  if negb (present e3) then false else
  if huge e3 then true else
  let e2 := entry (pages s) (addr_of e3) (pd_idx virt) in
  if negb (present e2) then false else
  if huge e2 then true else
  present (entry (pages s) (addr_of e2) (pt_idx virt)).

Definition or_entry (t : Z) (i : nat) (f : Z) (s : vm) : vm :=
  set_entry t i (Z.lor (entry (pages s) t i) f) s.

(** One iteration of the loop of [vmm_add_flags]. *)
Definition add_flags_page (addr flags : Z) (s : vm) : vm :=
  let hierarchy_flags := Z.land flags (Z.lor VMM_USER VMM_WRITE) in
  if negb (present (entry (pages s) (cr3 s) (pml4_idx addr))) then s else
  let s := or_entry (cr3 s) (pml4_idx addr) hierarchy_flags s in
  let pdpt := addr_of (entry (pages s) (cr3 s) (pml4_idx addr)) in
  if negb (present (entry (pages s) pdpt (pdpt_idx addr))) then s else
  let s := or_entry pdpt (pdpt_idx addr) hierarchy_flags s in
  if huge (entry (pages s) pdpt (pdpt_idx addr)) then or_entry pdpt (pdpt_idx addr) flags s else
  let pd := addr_of (entry (pages s) pdpt (pdpt_idx addr)) in
  if negb (present (entry (pages s) pd (pd_idx addr))) then s else
  let s := or_entry pd (pd_idx addr) hierarchy_flags s in
  if huge (entry (pages s) pd (pd_idx addr)) then or_entry pd (pd_idx addr) flags s else
  let pt := addr_of (entry (pages s) pd (pd_idx addr)) in
  if negb (present (entry (pages s) pt (pt_idx addr))) then s
  else or_entry pt (pt_idx addr) flags s.

(** [for (off = 0; off < size; off += PAGE_SIZE)]: the number of iterations. *)
Definition page_steps (size : Z) : nat := Z.to_nat ((size + PAGE_SIZE - 1) / PAGE_SIZE).

Fixpoint add_flags_loop (n : nat) (off virt flags : Z) (s : vm) : vm :=
  match n with
  | O => s
  | S n => add_flags_loop n (off + PAGE_SIZE) virt flags
             (add_flags_page (u64 (virt + off)) flags s)
  end.

Definition vmm_add_flags (virt size flags : Z) (s : vm) : vm :=
  add_flags_loop (page_steps size) 0 virt flags s.

Fixpoint map_range_loop (n : nat) (i virt phys flags : Z) (s : vm) : bool * vm :=
  match n with
  | O => (true, s)
  | S n =>
      match vmm_map (u64 (virt + i)) (u64 (phys + i)) flags s with
      | (false, s) => (false, s)
      | (true, s) => map_range_loop n (i + PAGE_SIZE) virt phys flags s
      end
  end.

(** The C returns nothing; the flag says whether it got to the TLB flush. *)
Definition vmm_map_range (virt phys size flags : Z) (s : vm) : bool * vm :=
  map_range_loop (page_steps size) 0 virt phys flags s.

(** ** Address spaces *)

(** [level] is 0 for a PDPT, 1 for a PD and 2 for a PT; [fuel] is 3 - level. *)
Fixpoint clone_table (fuel : nat) (src : Z) (s : vm) : option Z * vm :=
  let '(phys, s) := pmm_alloc s in
  if phys =? 0 then (None, s) else
  let s := fill_page phys zero_page s in
  let step (acc : bool * vm) (j : nat) : bool * vm :=
    let '(ok, s) := acc in
    if negb ok then (false, s) else
    let e := entry (pages s) src j in
    if negb (present e) then (true, s) else
    match fuel with
    | S (S _ as fuel) =>
        if huge e then (true, set_entry phys j e s) else
        match clone_table fuel (addr_of e) s with
        | (None, s) => (false, s)
        | (Some child, s) => (true, set_entry phys j (Z.lor child (Z.land e 0xFFF)) s)
        end
    | _ => (true, set_entry phys j e s)
    end in
  match foldl step (true, s) (seq 0 512) with
  | (true, s) => (Some phys, s)
  | (false, s) => (None, s)
  end.

(** Returns 0 on failure. *)
Definition vmm_clone_current_pml4 (s : vm) : Z * vm :=
  let '(new_phys, s) := pmm_alloc s in
  if new_phys =? 0 then (0, s) else
  let s := fill_page new_phys zero_page s in
  let step (acc : bool * vm) (i : nat) : bool * vm :=
    let '(ok, s) := acc in
    if negb ok then (false, s) else
    let e := entry (pages s) (cr3 s) i in
    if negb (present e) then (true, s) else
    if (256 <=? i)%nat then (true, set_entry new_phys i e s) else
    match clone_table 3 (addr_of e) s with
    | (None, s) => (false, s)
    | (Some pdpt, s) => (true, set_entry new_phys i (Z.lor pdpt (Z.land e 0xFFF)) s)
    end in
  match foldl step (true, s) (seq 0 512) with
  | (true, s) => (new_phys, s)
  | (false, s) => (0, s)
  end.

Definition vmm_new_user_pml4 (s : vm) : Z * vm :=
  let '(new_phys, s) := pmm_alloc s in
  if new_phys =? 0 then (0, s) else
  (new_phys,
   fill_page new_phys
     ((fun i => if (256 <=? i)%nat then entry (pages s) (cr3 s) i else 0) <$> seq 0 512) s).

Definition vmm_get_current_pml4 (s : vm) : Z := cr3 s.

Definition vmm_activate_pml4 (pml4_phys : Z) (s : vm) : vm :=
  Vm (pages s) (free_pages_stack s) pml4_phys.
