(* ===== verification/VmmSpec.v ===== *)
(** Correctness of the page-table operations of [Vmm.v]: the tables reachable
    from CR3 form a tree of distinct pages, every operation keeps that, and the
    translation [vmm_get_phys] computes changes only where it should. *)
From Stdlib Require Import ZArith Lia.
From stdpp Require Import base numbers list gmap.
From S2P Require Import Prelude Vmm.

(** ** Masks and flags as arithmetic *)

Lemma addr_of_val e : addr_of e = (e / 4096) mod 2 ^ 40 * 4096.
Proof. apply (land_field e 12 40); lia. Qed.

Lemma mask_2m_val e : Z.land e MASK_2M = (e / 2 ^ 21) mod 2 ^ 31 * 2 ^ 21.
Proof. apply (land_field e 21 31); lia. Qed.

Lemma mask_1g_val e : Z.land e MASK_1G = (e / 2 ^ 30) mod 2 ^ 22 * 2 ^ 30.
Proof. apply (land_field e 30 22); lia. Qed.

Lemma low_mask v k : 0 <= k -> Z.land v (Z.ones k) = v mod 2 ^ k.
Proof. apply Z.land_ones. Qed.

Lemma has_bit e k : 0 <= k -> has e (2 ^ k) = Z.testbit e k.
Proof.
  intros Hk. unfold has. destruct (Z.testbit e k) eqn:E.
  - destruct (Z.eqb_spec (Z.land e (2 ^ k)) 0) as [H|]; [|done].
    apply (f_equal (fun z => Z.testbit z k)) in H.
    rewrite Z.land_spec, E, Z.pow2_bits_true, Z.bits_0 in H by lia. done.
  - assert (Z.land e (2 ^ k) = 0) as ->; [|done].
    apply Z.bits_inj'. intros i Hi. rewrite Z.land_spec, Z.bits_0.
    destruct (decide (i = k)) as [->|]; [by rewrite E|].
    rewrite Z.pow2_bits_false by lia. by rewrite andb_false_r.
Qed.

Lemma present_bit e : present e = Z.testbit e 0.
Proof. apply (has_bit e 0). lia. Qed.

Lemma huge_bit e : huge e = Z.testbit e 7.
Proof. apply (has_bit e 7). lia. Qed.

(** A page the allocator hands out: aligned, not page 0, within 52 bits. *)
Definition page_ok (p : Z) : Prop := 0 < p < 2 ^ 52 /\ p mod 4096 = 0.

(** An entry built from a page and low flag bits. *)
Lemma entry_parts p f :
  page_ok p -> 0 <= f < 4096 ->
  addr_of (Z.lor p f) = p /\ present (Z.lor p f) = present f /\ huge (Z.lor p f) = huge f.
Proof.
  intros [Hp Ha] Hf.
  assert (Hlow : forall k, 0 <= k < 12 -> Z.testbit p k = false).
  { intros k Hk. rewrite <-(Z.mod_pow2_bits_low p 12 k) by lia.
    change (2 ^ 12) with 4096. by rewrite Ha, Z.bits_0. }
  split.
  - rewrite (lor_disjoint p f 12) by (try done; lia). rewrite addr_of_val. zify_div.
  - rewrite !present_bit, !huge_bit, !Z.lor_spec, !Hlow by lia. done.
Qed.

(** ** The tree of tables *)

(** [n] table levels below this one: 3 at the PML4, 0 at a PT. *)
Definition is_table (n : nat) (e : Z) : bool :=
  present e && ((n =? 3)%nat || negb (huge e)).
Arguments is_table : simpl never.

Fixpoint tbl (pg : gmap Z (list Z)) (n : nat) (t : Z) (path : list nat)
    {struct path} : option Z :=
  match path with
  | [] => Some t
  | i :: r =>
      match n with
      | O => None
      | S n' => if is_table n (entry pg t i) then tbl pg n' (addr_of (entry pg t i)) r else None
      end
  end.

Definition table_at (s : vm) (path : list nat) : option Z := tbl (pages s) 3 (cr3 s) path.

(** The entry at index [j] of the table at [path]; 0 when there is no table. *)
Definition read_at (s : vm) (path : list nat) (j : nat) : Z :=
  match table_at s path with Some t => entry (pages s) t j | None => 0 end.

Record wf (s : vm) : Prop := {
  wf_pages path t : table_at s path = Some t ->
    exists l, pages s !! t = Some l /\ length l = 512%nat;
  wf_inj p q t : table_at s p = Some t -> table_at s q = Some t -> p = q;
  wf_free path t : table_at s path = Some t -> t ∉ free_pages_stack s;
  wf_stack : NoDup (free_pages_stack s) /\ Forall page_ok (free_pages_stack s);
}.

Lemma tbl_snoc pg n t path j :
  tbl pg n t (path ++ [j]) =
    match tbl pg n t path with
    | Some t' => if (length path <? n)%nat && is_table (n - length path) (entry pg t' j)
                 then Some (addr_of (entry pg t' j)) else None
    | None => None
    end.
Proof.
  revert n t. induction path as [|i path IH]; intros n t; simpl.
  - destruct n as [|n]; [done|]. rewrite Nat.sub_0_r. simpl.
    by destruct (is_table (S n) (entry pg t j)).
  - destruct n as [|n]; [done|]. destruct (is_table (S n) (entry pg t i)); [|done].
    rewrite IH. replace (S n - S (length path))%nat with (n - length path)%nat by lia. done.
Qed.

Lemma table_at_snoc s path j :
  table_at s (path ++ [j]) =
    match table_at s path with
    | Some t => if (length path <? 3)%nat && is_table (3 - length path) (entry (pages s) t j)
                then Some (addr_of (entry (pages s) t j)) else None
    | None => None
    end.
Proof. apply tbl_snoc. Qed.

Lemma table_at_prefix s p q t : table_at s (p ++ q) = Some t -> is_Some (table_at s p).
Proof.
  revert t. induction q as [|j q IH] using rev_ind; intros t.
  - rewrite app_nil_r. eauto.
  - rewrite app_assoc, table_at_snoc. destruct (table_at s (p ++ q)) eqn:E; [eauto|done].
Qed.

(** The translation as a function of the four entries it reads. *)
Definition xlate (e4 e3 e2 e1 virt : Z) : Z :=
  if negb (present e4) then 0 else
  if negb (present e3) then 0 else
  if huge e3 then Z.lor (Z.land e3 MASK_1G) (Z.land virt 0x3FFFFFFF) else
  if negb (present e2) then 0 else
  if huge e2 then Z.lor (Z.land e2 MASK_2M) (Z.land virt 0x1FFFFF) else
  if negb (present e1) then 0 else
  Z.lor (Z.land e1 ADDR_MASK) (Z.land virt 0xFFF).

Lemma get_phys_xlate s v :
  vmm_get_phys v s =
    xlate (read_at s [] (pml4_idx v))
          (read_at s [pml4_idx v] (pdpt_idx v))
          (read_at s [pml4_idx v; pdpt_idx v] (pd_idx v))
          (read_at s [pml4_idx v; pdpt_idx v; pd_idx v] (pt_idx v)) v.
Proof.
  unfold vmm_get_phys, xlate, read_at, table_at. cbn [tbl]. unfold is_table.
  destruct (present (entry (pages s) (cr3 s) (pml4_idx v))) eqn:P4; [|done]. simpl.
  set (t3 := addr_of (entry (pages s) (cr3 s) (pml4_idx v))).
  destruct (present (entry (pages s) t3 (pdpt_idx v))) eqn:P3; [|done]. simpl.
  destruct (huge (entry (pages s) t3 (pdpt_idx v))) eqn:H3; [done|]. simpl.
  set (t2 := addr_of (entry (pages s) t3 (pdpt_idx v))).
  destruct (present (entry (pages s) t2 (pd_idx v))) eqn:P2; [|done]. simpl.
  destruct (huge (entry (pages s) t2 (pd_idx v))) eqn:H2; done.
Qed.

(** ** Writing entries *)

Lemma entry_set s t i e u j l :
  pages s !! t = Some l -> (i < length l)%nat ->
  entry (pages (set_entry t i e s)) u j =
    if decide (u = t /\ j = i) then e else entry (pages s) u j.
Proof.
  intros Hl Hi. unfold entry, set_entry, with_pages. cbn [pages].
  destruct (decide (u = t)) as [->|Hne].
  - rewrite lookup_alter_eq, Hl. simpl. destruct (decide (j = i)) as [->|Hj].
    + rewrite decide_True by done. by rewrite list_lookup_insert_eq.
    + rewrite decide_False by naive_solver. by rewrite list_lookup_insert_ne.
  - rewrite decide_False by naive_solver. by rewrite lookup_alter_ne.
Qed.

Lemma entry_fill s p l u j :
  entry (pages (fill_page p l s)) u j =
    if decide (u = p) then default 0 (l !! j) else entry (pages s) u j.
Proof.
  unfold entry, fill_page, with_pages. cbn [pages].
  destruct (decide (u = p)) as [->|Hne]; [by rewrite lookup_insert_eq|].
  by rewrite lookup_insert_ne by done.
Qed.

(** Changing one entry leaves alone every table whose path does not go through
    it.  [path] leads to the table that holds the entry. *)
Lemma table_at_set s path t0 i e l q :
  wf s -> table_at s path = Some t0 -> pages s !! t0 = Some l -> (i < length l)%nat ->
  ~ ((path ++ [i]) `prefix_of` q) ->
  table_at (set_entry t0 i e s) q = table_at s q.
Proof.
  intros Hwf Ht0 Hl Hi. induction q as [|j q IH] using rev_ind; intros Hpre; [done|].
  assert (Hq : ~ ((path ++ [i]) `prefix_of` q)).
  { intros H. apply Hpre. by apply prefix_app_r. }
  rewrite !table_at_snoc, (IH Hq). destruct (table_at s q) as [t|] eqn:Et; [|done].
  rewrite (entry_set _ _ _ _ _ _ _ Hl Hi). rewrite decide_False; [done|].
  intros [-> ->]. apply Hpre. by rewrite (wf_inj s Hwf _ _ _ Ht0 Et).
Qed.

Lemma table_at_fill s p l q :
  (forall path t, table_at s path = Some t -> t <> p) ->
  table_at (fill_page p l s) q = table_at s q.
Proof.
  intros Hp. induction q as [|j q IH] using rev_ind; [done|].
  rewrite !table_at_snoc, IH. destruct (table_at s q) as [t|] eqn:Et; [|done].
  rewrite entry_fill, decide_False by eauto. done.
Qed.

Lemma wf_fill s p l :
  wf s -> (forall path t, table_at s path = Some t -> t <> p) -> wf (fill_page p l s).
Proof.
  intros [Hpg Hinj Hfree Hst] Hp. split; [|setoid_rewrite table_at_fill; done..|done].
  intros path t. rewrite table_at_fill by done. intros Ht.
  destruct (Hpg _ _ Ht) as (l' & Hl' & Hlen). exists l'. split; [|done].
  unfold fill_page. cbn [pages with_pages]. rewrite lookup_insert_ne; [done|].
  intros ->. by eapply Hp.
Qed.

Lemma with_free_wf s f :
  wf s -> NoDup f /\ Forall page_ok f -> (forall p, p ∈ f -> p ∈ free_pages_stack s) ->
  wf (with_free f s).
Proof.
  intros [Hpg Hinj Hfree Hst] Hf Hsub. split; try done.
  intros path t Ht Hin. by apply (Hfree path t Ht), Hsub.
Qed.

(** *** Overwriting an entry that is not, and does not become, a table *)

Lemma set_leaf_wf s path t0 i e :
  wf s -> table_at s path = Some t0 -> (i < 512)%nat ->
  (forall n, is_table n e = false) \/ length path = 3%nat ->
  (forall n, is_table n (entry (pages s) t0 i) = false) \/ length path = 3%nat ->
  wf (set_entry t0 i e s) /\
  (forall q j, read_at (set_entry t0 i e s) q j =
     if decide (q = path /\ j = i) then e else read_at s q j).
Proof.
  intros Hwf Ht0 Hi He Hold. pose proof Hwf as [Hpg Hinj Hfree Hst].
  destruct (Hpg _ _ Ht0) as (l & Hl & Hlen). rewrite <-Hlen in Hi.
  assert (Htbl : forall q, table_at (set_entry t0 i e s) q = table_at s q).
  { intros q. destruct (decide ((path ++ [i]) `prefix_of` q)) as [[r ->]|Hpre].
    2: by eapply table_at_set.
    assert (H1 : table_at (set_entry t0 i e s) (path ++ [i]) = None).
    { rewrite table_at_snoc, (table_at_set s path t0 i e l path) by
        (try done; intros [r' Hr']; apply (f_equal length) in Hr';
         rewrite !length_app in Hr'; simpl in Hr'; lia).
      rewrite Ht0, (entry_set _ _ _ _ _ _ _ Hl Hi), decide_True by done.
      destruct He as [->| ->]; [by rewrite andb_false_r|done]. }
    assert (H2 : table_at s (path ++ [i]) = None).
    { rewrite table_at_snoc, Ht0. destruct Hold as [->| ->]; [by rewrite andb_false_r|done]. }
    destruct (table_at (set_entry t0 i e s) ((path ++ [i]) ++ r)) eqn:E1.
    { apply table_at_prefix in E1. rewrite H1 in E1. by destruct E1. }
    destruct (table_at s ((path ++ [i]) ++ r)) eqn:E2; [|done].
    apply table_at_prefix in E2. rewrite H2 in E2. by destruct E2. }
  split.
  - split; try (setoid_rewrite Htbl; done); [|done].
    intros q t. rewrite Htbl. intros Hq. destruct (Hpg _ _ Hq) as (l' & Hl' & Hlen').
    unfold set_entry. cbn [pages with_pages]. destruct (decide (t = t0)) as [->|Hne].
    + rewrite lookup_alter_eq, Hl'. simpl. eexists. split; [done|]. by rewrite length_insert.
    + rewrite lookup_alter_ne by done. eauto.
  - intros q j. unfold read_at. rewrite Htbl. destruct (table_at s q) as [t|] eqn:Eq.
    + rewrite (entry_set _ _ _ _ _ _ _ Hl Hi). destruct (decide (t = t0 /\ j = i)) as [[-> ->]|Hn].
      * rewrite decide_True; [done|]. split; [by eapply Hinj|done].
      * rewrite decide_False; [done|]. intros [-> ->]. apply Hn. by simplify_eq.
    + rewrite decide_False; [done|]. intros [-> _]. congruence.
Qed.

(** *** Linking a fresh page as a new table *)

Lemma link_wf s path t0 i p e contents :
  wf s -> table_at s path = Some t0 -> (i < 512)%nat -> (length path < 3)%nat ->
  p ∉ free_pages_stack s -> (forall q t, table_at s q = Some t -> t <> p) ->
  is_table (3 - length path) (entry (pages s) t0 i) = false ->
  is_table (3 - length path) e = true -> addr_of e = p ->
  length contents = 512%nat ->
  (forall j, (length path = 2)%nat \/ forall n, (n < 3)%nat -> is_table n (default 0 (contents !! j)) = false) ->
  let s' := set_entry t0 i e (fill_page p contents s) in
  wf s' /\ table_at s' (path ++ [i]) = Some p /\
  (forall q j, read_at s' q j =
     if decide (q = path /\ j = i) then e
     else if decide (q = path ++ [i]) then default 0 (contents !! j) else read_at s q j) /\
  (forall q t, table_at s' q = Some t -> t = p \/ table_at s q = Some t).
Proof.
  intros Hwf Ht0 Hi Hlen Hpf Hpt Hold He Hae Hc Hcont s'.
  pose proof Hwf as [Hpg Hinj Hfree Hst].
  pose proof (wf_fill s p contents Hwf Hpt) as Hwf1. set (s1 := fill_page p contents s) in *.
  assert (Ht1 : forall q, table_at s1 q = table_at s q) by (intros; by apply table_at_fill).
  assert (Ht01 : table_at s1 path = Some t0) by (by rewrite Ht1).
  destruct (wf_pages s1 Hwf1 _ _ Ht01) as (l & Hl & Hll). rewrite <-Hll in Hi.
  assert (Hne : ~ ((path ++ [i]) `prefix_of` path)).
  { intros [r' Hr']. apply (f_equal length) in Hr'. rewrite !length_app in Hr'. simpl in Hr'. lia. }
  assert (Hq : forall q, ~ ((path ++ [i]) `prefix_of` q) -> table_at s' q = table_at s q).
  { intros q Hpre. unfold s'. rewrite (table_at_set s1 path t0 i e l q) by done. apply Ht1. }
  assert (Hent : entry (pages s') t0 i = e).
  { unfold s'. by rewrite (entry_set _ _ _ _ _ _ _ Hl Hi), decide_True. }
  assert (Hnew : table_at s' (path ++ [i]) = Some p).
  { rewrite table_at_snoc, Hq, Ht0, Hent, He by done.
    destruct (Nat.ltb_spec (length path) 3); [|lia]. simpl. by rewrite Hae. }
  assert (Hpt0 : p <> t0) by (intros <-; by eapply Hpt).
  assert (Hentp : forall j, entry (pages s') p j = default 0 (contents !! j)).
  { intros j. unfold s'. rewrite (entry_set _ _ _ _ _ _ _ Hl Hi), decide_False by naive_solver.
    unfold s1. by rewrite entry_fill, decide_True. }
  assert (Hdeep : forall k r, table_at s' ((path ++ [i]) ++ k :: r) = None).
  { intros k r. destruct (table_at s' ((path ++ [i]) ++ k :: r)) eqn:E; [|done].
    rewrite cons_middle, app_assoc in E. apply table_at_prefix in E.
    rewrite table_at_snoc, Hnew, Hentp, length_app in E. simpl in E.
    destruct (Nat.ltb_spec (length path + 1) 3) as [Hl3|]; [|by destruct E].
    destruct (Hcont k) as [?|Hk]; [lia|]. rewrite Hk in E by lia. by destruct E. }
  assert (Hcase : forall q t, table_at s' q = Some t ->
    (q = path ++ [i] /\ t = p) \/ (table_at s q = Some t /\ q <> path ++ [i])).
  { intros q t Hqt. destruct (decide ((path ++ [i]) `prefix_of` q)) as [[[|k r] ->]|Hpre].
    - left. rewrite app_nil_r in *. split; [done|congruence].
    - by rewrite Hdeep in Hqt.
    - right. rewrite Hq in Hqt by done. split; [done|]. intros ->. by apply Hpre. }
  split; [|split; [done|split]].
  - split.
    + intros q t Hqt. unfold s', set_entry. cbn [pages with_pages].
      destruct (decide (t = t0)) as [->|Hnt].
      * rewrite lookup_alter_eq, Hl. simpl. eexists. split; [done|]. by rewrite length_insert.
      * rewrite lookup_alter_ne by done. destruct (Hcase _ _ Hqt) as [[_ ->]|[Hst' _]].
        -- exists contents. unfold s1, fill_page. cbn [pages with_pages].
           by rewrite lookup_insert_eq.
        -- apply (wf_pages s1 Hwf1 q). by rewrite Ht1.
    + intros q q' t H1 H2.
      destruct (Hcase _ _ H1) as [[E1 E2]|[H1' _]], (Hcase _ _ H2) as [[E3 E4]|[H2' _]].
      * congruence.
      * destruct (Hpt _ _ H2' E2).
      * destruct (Hpt _ _ H1' E4).
      * by eapply Hinj.
    + intros q t Hqt. destruct (Hcase _ _ Hqt) as [[_ ->]|[Hst' _]]; [done|]. by eapply Hfree.
    + done.
  - assert (Hnone : table_at s (path ++ [i]) = None).
    { rewrite table_at_snoc, Ht0, Hold. by rewrite andb_false_r. }
    intros q j. unfold read_at. destruct (table_at s' q) as [t|] eqn:Eq.
    + destruct (Hcase _ _ Eq) as [[-> ->]|[Hst' Hqne]].
      * rewrite decide_False, decide_True; [by rewrite Hentp|done|].
        intros [E _]. apply (f_equal length) in E. rewrite length_app in E. simpl in E. lia.
      * rewrite Hst'. unfold s'. rewrite (entry_set _ _ _ _ _ _ _ Hl Hi).
        destruct (decide (t = t0 /\ j = i)) as [[-> ->]|Hn].
        -- rewrite decide_True; [done|]. split; [by eapply Hinj|done].
        -- rewrite decide_False by (intros [-> ->]; apply Hn; by simplify_eq).
           rewrite decide_False by done. unfold s1. rewrite entry_fill, decide_False; [done|].
           intros ->. by eapply Hpt.
    + rewrite decide_False by (intros [-> _]; rewrite Hq in Eq by done; congruence).
      rewrite decide_False by (intros ->; congruence).
      destruct (decide ((path ++ [i]) `prefix_of` q)) as [[r ->]|Hpre].
      2:{ by rewrite <-(Hq q), Eq by done. }
      destruct (table_at s ((path ++ [i]) ++ r)) eqn:E2; [|done].
      apply table_at_prefix in E2. rewrite Hnone in E2. by destruct E2.
  - intros q t Hqt. destruct (Hcase q t Hqt) as [[_ ->]|[? _]]; auto.
Qed.

(** Putting an entry where there was no table keeps every table where it is. *)
Lemma set_keeps s path t0 i e q t :
  wf s -> table_at s path = Some t0 -> (i < 512)%nat -> table_at s (path ++ [i]) = None ->
  table_at s q = Some t -> table_at (set_entry t0 i e s) q = Some t.
Proof.
  intros Hwf Ht0 Hi Hnone Hq. destruct (wf_pages s Hwf _ _ Ht0) as (l & Hl & Hll).
  rewrite <-Hll in Hi. rewrite (table_at_set s path t0 i e l q) by
    (try done; intros [r ->]; apply table_at_prefix in Hq; rewrite Hnone in Hq; by destruct Hq).
  done.
Qed.

Lemma link_keeps s path t0 i p e contents q t :
  wf s -> table_at s path = Some t0 -> (i < 512)%nat ->
  (forall q t, table_at s q = Some t -> t <> p) ->
  is_table (3 - length path) (entry (pages s) t0 i) = false ->
  table_at s q = Some t -> table_at (set_entry t0 i e (fill_page p contents s)) q = Some t.
Proof.
  intros Hwf Ht0 Hi Hpt Hold Hq. pose proof (table_at_fill s p contents) as Hf.
  apply (set_keeps _ path); rewrite ?Hf by done; try done.
  - by apply wf_fill.
  - rewrite table_at_snoc, Ht0, Hold. by rewrite andb_false_r.
Qed.

(** A page that is neither free nor a table: in use elsewhere, or outside. *)
Definition unused (s : vm) (p : Z) : Prop :=
  p ∉ free_pages_stack s /\ forall q t, table_at s q = Some t -> t <> p.

Lemma link_unused s s' t0 i p e contents x :
  s' = set_entry t0 i e (fill_page p contents s) ->
  (forall q t, table_at s' q = Some t -> t = p \/ table_at s q = Some t) ->
  (exists q, table_at s q = Some t0) -> unused s x -> x <> p ->
  unused s' x /\ pages s' !! x = pages s !! x.
Proof.
  intros -> Htabs [q0 Ht0] [Hf Ht] Hxp. split; [split; [done|]|].
  - intros q t Hq. destruct (Htabs q t Hq) as [->|Hq']; [done|by eapply Ht].
  - unfold set_entry, fill_page. cbn [pages with_pages].
    rewrite lookup_alter_ne by (intros ->; by apply (Ht q0 x)). by rewrite lookup_insert_ne.
Qed.

(** ** Index fields of a virtual address *)

Lemma idx_field v k :
  0 <= k -> Z.of_nat (Z.to_nat (Z.land (Z.shiftr v k) 0x1FF)) = (v / 2 ^ k) mod 512.
Proof.
  intros Hk. change 0x1FF with (Z.ones 9). rewrite Z.land_ones, Z.shiftr_div_pow2 by lia.
  rewrite Z2Nat.id; [done|]. by apply Z.mod_pos_bound.
Qed.

Lemma idx_lt v k : 0 <= k -> (Z.to_nat (Z.land (Z.shiftr v k) 0x1FF) < 512)%nat.
Proof.
  intros Hk. pose proof (idx_field v k Hk). pose proof (Z.mod_pos_bound (v / 2 ^ k) 512). lia.
Qed.

Lemma pml4_idx_lt v : (pml4_idx v < 512)%nat. Proof. by apply idx_lt. Qed.
Lemma pdpt_idx_lt v : (pdpt_idx v < 512)%nat. Proof. by apply idx_lt. Qed.
Lemma pd_idx_lt v : (pd_idx v < 512)%nat. Proof. by apply idx_lt. Qed.
Lemma pt_idx_lt v : (pt_idx v < 512)%nat. Proof. by apply idx_lt. Qed.

#[local] Hint Resolve pml4_idx_lt pdpt_idx_lt pd_idx_lt pt_idx_lt : eigen.

(** Two addresses in the same 4 KB page of the 48-bit address space. *)
Definition same_page (v w : Z) : Prop := (v / 4096) mod 2 ^ 36 = (w / 4096) mod 2 ^ 36.

#[export] Instance same_page_dec v w : Decision (same_page v w).
Proof. unfold same_page. apply _. Defined.

Lemma same_page_idx v w :
  same_page v w <->
  pml4_idx v = pml4_idx w /\ pdpt_idx v = pdpt_idx w /\ pd_idx v = pd_idx w /\ pt_idx v = pt_idx w.
Proof.
  unfold same_page. rewrite <-!Nat2Z.inj_iff.
  unfold pml4_idx, pdpt_idx, pd_idx, pt_idx. rewrite !idx_field by lia.
  assert (H : forall x, (x / 4096) mod 2 ^ 36 =
    ((x / 2 ^ 39) mod 512) * 2 ^ 27 + ((x / 2 ^ 30) mod 512) * 2 ^ 18 +
    ((x / 2 ^ 21) mod 512) * 2 ^ 9 + (x / 2 ^ 12) mod 512) by (intros; zify_div).
  rewrite !H.
  pose proof (Z.mod_pos_bound (v / 2 ^ 39) 512). pose proof (Z.mod_pos_bound (w / 2 ^ 39) 512).
  pose proof (Z.mod_pos_bound (v / 2 ^ 30) 512). pose proof (Z.mod_pos_bound (w / 2 ^ 30) 512).
  pose proof (Z.mod_pos_bound (v / 2 ^ 21) 512). pose proof (Z.mod_pos_bound (w / 2 ^ 21) 512).
  pose proof (Z.mod_pos_bound (v / 2 ^ 12) 512). pose proof (Z.mod_pos_bound (w / 2 ^ 12) 512).
  lia.
Qed.

(** ** Splitting huge pages keeps the addresses they stand for *)

Lemma low_flags old m :
  0 <= Z.land (Z.land old 0xFFF) m < 4096 \/ m < 0.
Proof.
  destruct (decide (m < 0)); [by right|left].
  change 0xFFF with (Z.ones 12). rewrite <-Z.land_assoc, (Z.land_comm _ m), Z.land_assoc.
  rewrite Z.land_ones by lia. by apply Z.mod_pos_bound.
Qed.

Lemma split_flags_bits old :
  let f := Z.land (Z.land old 0xFFF) (u64 (Z.lnot VMM_HUGE)) in
  0 <= f < 4096 /\ present f = present old /\ huge f = false /\
  0 <= Z.lor f VMM_HUGE < 4096 /\ present (Z.lor f VMM_HUGE) = present old /\
  huge (Z.lor f VMM_HUGE) = true.
Proof.
  intros f. assert (Hf : 0 <= f < 4096) by (destruct (low_flags old (u64 (Z.lnot VMM_HUGE))) as [?|H];
    [done|vm_compute in H; done]).
  assert (H0 : Z.testbit f 0 = Z.testbit old 0).
  { unfold f. rewrite !Z.land_spec. change (Z.testbit 4095 0) with true.
    change (Z.testbit (u64 (Z.lnot VMM_HUGE)) 0) with true. by rewrite !andb_true_r. }
  assert (H7 : Z.testbit f 7 = false).
  { unfold f. rewrite !Z.land_spec. change (Z.testbit (u64 (Z.lnot VMM_HUGE)) 7) with false.
    by rewrite andb_false_r. }
  clearbody f. rewrite !present_bit, !huge_bit, !Z.lor_spec, H0, H7.
  change (Z.testbit VMM_HUGE 0) with false. change (Z.testbit VMM_HUGE 7) with true.
  rewrite orb_false_r. repeat split; try done; try lia.
  - apply Z.lor_nonneg. unfold VMM_HUGE. lia.
  - destruct (decide (Z.lor f VMM_HUGE = 0)) as [->|Hnz]; [lia|].
    assert (0 <= Z.lor f VMM_HUGE) by (apply Z.lor_nonneg; unfold VMM_HUGE; lia).
    apply (Z.log2_lt_pow2 _ 12); [lia|]. rewrite Z.log2_lor by (unfold VMM_HUGE; lia). change (Z.log2 VMM_HUGE) with 7.
    destruct (decide (f = 0)) as [->|]; [reflexivity|].
    pose proof (proj1 (Z.log2_lt_pow2 f 12 ltac:(lia)) ltac:(lia)). lia.
Qed.

Lemma split_1g_entry old j v :
  (j < 512)%nat ->
  let f := Z.lor (Z.land (Z.land old 0xFFF) (u64 (Z.lnot VMM_HUGE))) VMM_HUGE in
  let e := Z.lor (Z.land old MASK_1G + Z.of_nat j * 0x200000) f in
  present e = present old /\ huge e = true /\
  (j = pd_idx v ->
   Z.lor (Z.land e MASK_2M) (Z.land v 0x1FFFFF) = Z.lor (Z.land old MASK_1G) (Z.land v 0x3FFFFFFF)).
Proof.
  intros Hj f e. destruct (split_flags_bits old) as (_ & _ & _ & Hf & Hp & Hh). fold f in Hf, Hp, Hh.
  pose proof (Z.mod_pos_bound (old / 2 ^ 30) (2 ^ 22) eq_refl).
  pose proof (mask_1g_val old) as Hm. set (k := (old / 2 ^ 30) mod 2 ^ 22) in *.
  assert (He : e = k * 2 ^ 30 + Z.of_nat j * 0x200000 + f).
  { unfold e. rewrite Hm. apply (lor_disjoint _ _ 12); [lia| |lia]. zify_div. }
  assert (Hlow : forall i, 0 <= i < 12 -> Z.testbit (k * 2 ^ 30 + Z.of_nat j * 0x200000) i = false).
  { intros i Hi. rewrite <-(Z.mod_pow2_bits_low _ 12 i) by lia.
    replace ((k * 2 ^ 30 + Z.of_nat j * 2097152) mod 2 ^ 12) with 0 by zify_div. apply Z.bits_0. }
  split; [|split].
  - rewrite <-Hp, !present_bit. unfold e. by rewrite Hm, Z.lor_spec, Hlow.
  - rewrite <-Hh, !huge_bit. unfold e. by rewrite Hm, Z.lor_spec, Hlow.
  - intros ->. rewrite He, mask_2m_val, Hm.
    change 0x1FFFFF with (Z.ones 21). change 0x3FFFFFFF with (Z.ones 30).
    rewrite !Z.land_ones by lia.
    unfold pd_idx. rewrite idx_field by lia.
    assert (((k * 2 ^ 30 + (v / 2 ^ 21) mod 512 * 2097152 + f) / 2 ^ 21) mod 2 ^ 31 * 2 ^ 21
            = k * 2 ^ 30 + (v / 2 ^ 21) mod 512 * 2097152) as -> by zify_div.
    rewrite (lor_disjoint _ _ 21), (lor_disjoint _ _ 30); zify_div.
Qed.

Lemma split_2m_entry old j v :
  (j < 512)%nat ->
  let f := Z.land (Z.land old 0xFFF) (u64 (Z.lnot VMM_HUGE)) in
  let e := Z.lor (Z.land old MASK_2M + Z.of_nat j * 4096) f in
  present e = present old /\
  (j = pt_idx v ->
   Z.lor (Z.land e ADDR_MASK) (Z.land v 0xFFF) = Z.lor (Z.land old MASK_2M) (Z.land v 0x1FFFFF)).
Proof.
  intros Hj f e. destruct (split_flags_bits old) as (Hf & Hp & _). fold f in Hf, Hp.
  pose proof (Z.mod_pos_bound (old / 2 ^ 21) (2 ^ 31) eq_refl).
  pose proof (mask_2m_val old) as Hm. set (k := (old / 2 ^ 21) mod 2 ^ 31) in *.
  assert (He : e = k * 2 ^ 21 + Z.of_nat j * 4096 + f).
  { unfold e. rewrite Hm. apply (lor_disjoint _ _ 12); [lia| |lia]. zify_div. }
  assert (Hlow : Z.testbit (k * 2 ^ 21 + Z.of_nat j * 4096) 0 = false).
  { rewrite <-(Z.mod_pow2_bits_low _ 12 0) by lia.
    replace ((k * 2 ^ 21 + Z.of_nat j * 4096) mod 2 ^ 12) with 0 by zify_div. apply Z.bits_0. }
  split.
  - rewrite <-Hp, !present_bit. unfold e. by rewrite Hm, Z.lor_spec, Hlow.
  - intros ->. rewrite He, Hm.
    change (Z.land ?x ADDR_MASK) with (addr_of x). rewrite addr_of_val.
    change 0x1FFFFF with (Z.ones 21). change 0xFFF with (Z.ones 12).
    rewrite !Z.land_ones by lia.
    unfold pt_idx. rewrite idx_field by lia.
    assert (((k * 2 ^ 21 + (v / 2 ^ 12) mod 512 * 4096 + f) / 4096) mod 2 ^ 40 * 4096
            = k * 2 ^ 21 + (v / 2 ^ 12) mod 512 * 4096) as -> by zify_div.
    rewrite (lor_disjoint _ _ 12), (lor_disjoint _ _ 21); zify_div.
Qed.

(** ** The steps of the walk *)

(** A step that may add tables: same root, same translations, the tree stays
    well formed, and pages only leave the free stack. *)
Record extends (s s' : vm) : Prop := {
  ext_wf : wf s';
  ext_cr3 : cr3 s' = cr3 s;
  ext_phys v : vmm_get_phys v s' = vmm_get_phys v s;
  ext_keeps q t : table_at s q = Some t -> table_at s' q = Some t;
  ext_unused p : unused s p -> unused s' p /\ pages s' !! p = pages s !! p;
}.

Lemma extends_refl s : wf s -> extends s s.
Proof. by split. Qed.

Lemma extends_trans s1 s2 s3 : extends s1 s2 -> extends s2 s3 -> extends s1 s3.
Proof.
  intros [] [? ? ? ? Hu2]. split; [done|congruence|intros; congruence|auto|].
  intros p Hp. destruct (ext_unused0 p Hp) as [Hp2 <-]. by apply Hu2.
Qed.

Lemma zero_page_lookup j : default 0 (zero_page !! j) = 0.
Proof.
  unfold zero_page. destruct (replicate 512 0 !! j) as [z|] eqn:E; [|done].
  by apply lookup_replicate in E as [-> _].
Qed.

Lemma pmm_alloc_wf s p s1 :
  wf s -> pmm_alloc s = (p, s1) ->
  (p = 0 /\ s1 = s /\ free_pages_stack s = []) \/
  (page_ok p /\ free_pages_stack s = p :: free_pages_stack s1 /\ s1 = with_free (free_pages_stack s1) s /\
   wf s1 /\ (p ∉ free_pages_stack s1) /\ (forall q t, table_at s1 q = Some t -> t <> p)).
Proof.
  intros Hwf. unfold pmm_alloc. destruct (free_pages_stack s) as [|x r] eqn:Ef.
  - intros [= <- <-]. by left.
  - intros [= <- <-]. right. destruct (wf_stack s Hwf) as [Hnd Hok]. rewrite Ef in *.
    apply NoDup_cons in Hnd as [Hx Hnd]. apply Forall_cons in Hok as [Hpx Hok].
    split; [done|]. split; [done|]. split; [done|]. split.
    { apply with_free_wf; try done. intros p Hp. rewrite Ef. set_solver. }
    split; [done|]. intros q t Ht ->. apply (wf_free s Hwf q x Ht). rewrite Ef. set_solver.
Qed.

(** The reads of a translation, when one entry and one new table changed. *)
Definition reads_after_link (s s' : vm) (path : list nat) (i : nat) (e : Z) (contents : list Z)
    : Prop :=
  forall q j, read_at s' q j =
    if decide (q = path /\ j = i) then e
    else if decide (q = path ++ [i]) then default 0 (contents !! j) else read_at s q j.

Lemma reads_off_path s s' path i e contents q j :
  reads_after_link s s' path i e contents -> ~ ((path ++ [i]) `prefix_of` (q ++ [j])) ->
  read_at s' q j = read_at s q j.
Proof.
  intros Hr Hpre. rewrite Hr. rewrite decide_False; [rewrite decide_False; [done|]|].
  - intros ->. apply Hpre. by apply prefix_app_r.
  - intros [-> ->]. by apply Hpre.
Qed.

Lemma xlate_off_path s s' path i e contents v :
  reads_after_link s s' path i e contents ->
  ~ ((path ++ [i]) `prefix_of` [pml4_idx v; pdpt_idx v; pd_idx v; pt_idx v]) ->
  vmm_get_phys v s' = vmm_get_phys v s.
Proof.
  intros Hr Hpre. rewrite !get_phys_xlate.
  rewrite !(reads_off_path s s' path i e contents)
    by first [exact Hr|intros H; apply Hpre; etrans; [exact H|]; eexists; reflexivity].
  done.
Qed.

(** On the path: the entry [e] and the word of the new table below it decide. *)
Lemma read_new_entry s s' path i e contents :
  reads_after_link s s' path i e contents -> read_at s' path i = e.
Proof. intros Hr. by rewrite Hr, decide_True. Qed.

Lemma read_new_table s s' path i e contents j :
  reads_after_link s s' path i e contents ->
  read_at s' (path ++ [i]) j = default 0 (contents !! j).
Proof.
  intros Hr. rewrite Hr, decide_False, decide_True; [done|done|].
  intros [H _]. apply (f_equal length) in H. rewrite length_app in H. simpl in H. lia.
Qed.

Lemma read_above s s' path i e contents q j :
  reads_after_link s s' path i e contents -> (length q < length path)%nat ->
  read_at s' q j = read_at s q j.
Proof.
  intros Hr Hlen. apply (reads_off_path _ _ _ _ _ _ _ _ Hr). intros Hp%prefix_length.
  rewrite !length_app in Hp. simpl in Hp. lia.
Qed.

Lemma present_0 : present 0 = false.
Proof. done. Qed.

Lemma xlate_zero_table s s' path i e v :
  reads_after_link s s' path i e zero_page ->
  present (read_at s path i) = false -> (length path < 3)%nat -> huge e = false ->
  vmm_get_phys v s' = vmm_get_phys v s.
Proof.
  intros Hr Hold Hlen Hhe. pose proof (read_new_entry _ _ _ _ _ _ Hr) as He.
  destruct (decide ((path ++ [i]) `prefix_of` [pml4_idx v; pdpt_idx v; pd_idx v; pt_idx v]))
    as [[k Hk]|Hpre]; [|by eapply xlate_off_path].
  pose proof (read_new_table _ _ _ _ _ _ (nth (S (length path))
    [pml4_idx v; pdpt_idx v; pd_idx v; pt_idx v] 0%nat) Hr) as Hn.
  rewrite zero_page_lookup in Hn. rewrite !get_phys_xlate. unfold xlate.
  destruct path as [|x [|y [|z path]]]; simpl in *; [| | |lia]; injection Hk as <- Hk; subst.
  - rewrite Hn, Hold, present_0. simpl. by case_match.
  - rewrite Hn, Hold, present_0, (read_above _ _ _ _ _ _ [] _ Hr) by (simpl; lia).
    simpl. rewrite Hhe. repeat case_match; done.
  - rewrite Hn, Hold, present_0.
    rewrite (read_above _ _ _ _ _ _ [] _ Hr), (read_above _ _ _ _ _ _ [_] _ Hr) by (simpl; lia).
    simpl. rewrite Hhe. repeat case_match; done.
Qed.

Lemma split_entries_lookup b step f j :
  (j < 512)%nat -> split_entries b step f !! j = Some (Z.lor (b + Z.of_nat j * step) f).
Proof. intros. unfold split_entries. by rewrite list_lookup_fmap, lookup_seq_lt. Qed.

Lemma split_entries_ge b step f j :
  (512 <= j)%nat -> split_entries b step f !! j = None.
Proof. intros. unfold split_entries. by rewrite list_lookup_fmap, lookup_seq_ge. Qed.

Lemma xlate_split_1g s s' x i e v :
  let old := read_at s [x] i in
  reads_after_link s s' [x] i e (split_entries (Z.land old MASK_1G) 0x200000
    (Z.lor (Z.land (Z.land old 0xFFF) (u64 (Z.lnot VMM_HUGE))) VMM_HUGE)) ->
  huge old = true -> present e = true -> huge e = false ->
  vmm_get_phys v s' = vmm_get_phys v s.
Proof.
  intros old Hr Hold Hp Hh.
  destruct (decide (([x] ++ [i]) `prefix_of` [pml4_idx v; pdpt_idx v; pd_idx v; pt_idx v]))
    as [[k Hk]|Hpre]; [|by eapply xlate_off_path].
  simpl in Hk. injection Hk as <- <- Hk. rewrite !get_phys_xlate. unfold xlate.
  rewrite (read_above _ _ _ _ _ _ [] _ Hr) by (simpl; lia).
  pose proof (read_new_table _ _ _ _ _ _ (pd_idx v) Hr) as Hn. cbn [app] in Hn.
  rewrite (read_new_entry _ _ _ _ _ _ Hr), Hn.
  fold old. rewrite Hold, Hp, Hh, split_entries_lookup by apply pd_idx_lt.
  cbn [negb from_option]. unfold id.
  destruct (split_1g_entry old (pd_idx v) v (pd_idx_lt v)) as (-> & -> & Heq).
  by rewrite Heq.
Qed.

Lemma xlate_split_2m s s' x y i e v :
  let old := read_at s [x; y] i in
  reads_after_link s s' [x; y] i e (split_entries (Z.land old MASK_2M) 4096
    (Z.land (Z.land old 0xFFF) (u64 (Z.lnot VMM_HUGE)))) ->
  huge old = true -> present e = true -> huge e = false ->
  vmm_get_phys v s' = vmm_get_phys v s.
Proof.
  intros old Hr Hold Hp Hh.
  destruct (decide (([x; y] ++ [i]) `prefix_of` [pml4_idx v; pdpt_idx v; pd_idx v; pt_idx v]))
    as [[k Hk]|Hpre]; [|by eapply xlate_off_path].
  simpl in Hk. injection Hk as <- <- <- Hk. rewrite !get_phys_xlate. unfold xlate.
  rewrite (read_above _ _ _ _ _ _ [] _ Hr), (read_above _ _ _ _ _ _ [_] _ Hr) by (simpl; lia).
  pose proof (read_new_table _ _ _ _ _ _ (pt_idx v) Hr) as Hn. cbn [app] in Hn.
  rewrite (read_new_entry _ _ _ _ _ _ Hr), Hn.
  fold old. rewrite Hold, Hp, Hh, split_entries_lookup by apply pt_idx_lt.
  cbn [negb from_option]. unfold id.
  destruct (split_2m_entry old (pt_idx v) v (pt_idx_lt v)) as (-> & Heq).
  by rewrite Heq.
Qed.

(** A present PDPT or PD entry the walk goes through is not huge: [map_walk]
    splits it first. *)
Lemma next_level_spec s path t i r s' :
  wf s -> table_at s path = Some t -> (i < 512)%nat -> (length path < 3)%nat ->
  (path = [] \/ huge (entry (pages s) t i) = false) ->
  get_next_level t i true s = (r, s') ->
  extends s s' /\
  match r with
  | None => s' = s /\ free_pages_stack s = []
  | Some t' => table_at s' (path ++ [i]) = Some t' /\
      (free_pages_stack s' = free_pages_stack s \/
       exists p, free_pages_stack s = p :: free_pages_stack s')
  end.
Proof.
  intros Hwf Ht Hi Hlen Hnh. unfold get_next_level.
  destruct (present (entry (pages s) t i)) eqn:Hp; simpl negb; cbv iota.
  - intros [= <- <-]. split; [by apply extends_refl|]. split; [|by left].
    rewrite table_at_snoc, Ht. destruct (Nat.ltb_spec (length path) 3); [|lia].
    unfold is_table. rewrite Hp. destruct Hnh as [->|Hnh]; [done|].
    by rewrite Hnh, orb_true_r.
  - destruct (pmm_alloc s) as [phys s1] eqn:Ea.
    destruct (pmm_alloc_wf s phys s1 Hwf Ea) as [(-> & -> & Hf)|(Hok & Hf & Hs1 & Hwf1 & Hnf & Hnt)].
    { intros [= <- <-]. split; [by apply extends_refl|done]. }
    destruct (Z.eqb_spec phys 0); [destruct Hok; lia|]. intros [= <- <-].
    assert (Hent : entry (pages s1) t i = entry (pages s) t i) by (by rewrite Hs1).
    assert (Hta : forall q, table_at s1 q = table_at s q) by (intros q; by rewrite Hs1).
    set (e := Z.lor (Z.lor (Z.lor phys VMM_PRESENT) VMM_WRITE) VMM_USER).
    assert (He : e = Z.lor phys 7) by (unfold e; rewrite <-!Z.lor_assoc; done).
    destruct (entry_parts phys 7 Hok ltac:(lia)) as (Ha & Hpe & Hhe). rewrite <-He in *.
    destruct (link_wf s1 path t i phys e zero_page) as (Hwf' & Htp & Hread & Htabs); try done.
    + by rewrite Hta.
    + unfold is_table. by rewrite Hent, Hp.
    + unfold is_table. rewrite Hpe, Hhe. by rewrite orb_true_r.
    + intros j. right. intros n1 _. unfold is_table. by rewrite zero_page_lookup.
    + split; [|split; [done|right; by exists phys]].
      assert (Hold : present (read_at s path i) = false) by (unfold read_at; by rewrite Ht).
      split; [done|by rewrite Hs1| | |].
      2:{ intros q t1 Hq. apply (link_keeps s1 path); rewrite ?Hta; try done.
          unfold is_table. by rewrite Hent, Hp. }
      2:{ intros x [Hx1 Hx2]. rewrite Hf in Hx1. apply not_elem_of_cons in Hx1 as [Hx1 Hx3].
          destruct (link_unused s1 _ t i phys e zero_page x eq_refl Htabs) as [Hu Hpg]; try done.
          - exists path. by rewrite Hta.
          - split; [done|]. intros q t1. rewrite Hta. apply Hx2.
          - split; [done|]. rewrite Hpg. by rewrite Hs1. }
      intros v. eapply xlate_zero_table; [|done..].
      intros q j. rewrite Hread. do 2 (case_decide; [done|]). unfold read_at. rewrite Hta.
      by rewrite Hs1.
Qed.

Lemma table_flags_ok f : let g := table_flags f in
  0 <= g < 4096 /\ present g = true /\ huge g = false.
Proof. unfold table_flags. by destruct (has f VMM_USER). Qed.

(** Both splits: link a page of 512 entries in place of a huge entry. *)
Lemma split_spec s path t i step flags new_flags base_ phys s1 :
  wf s -> table_at s path = Some t -> (i < 512)%nat -> (0 < length path < 3)%nat ->
  huge (entry (pages s) t i) = true ->
  (length path = 2%nat \/
     forall j, (j < 512)%nat -> huge (Z.lor (base_ + Z.of_nat j * step) flags) = true) ->
  pmm_alloc s = (phys, s1) -> phys <> 0 ->
  let e := Z.lor phys (table_flags new_flags) in
  let s' := set_entry t i e (fill_page phys (split_entries base_ step flags) s1) in
  wf s' /\ cr3 s' = cr3 s /\ table_at s' path = Some t /\
  entry (pages s') t i = e /\ present e = true /\ huge e = false /\
  reads_after_link s s' path i e (split_entries base_ step flags) /\
  free_pages_stack s = phys :: free_pages_stack s' /\
  (forall q t, table_at s q = Some t -> table_at s' q = Some t) /\
  (forall p, unused s p -> unused s' p /\ pages s' !! p = pages s !! p).
Proof.
  intros Hwf Ht Hi Hlen Hh Hcont Ea Hnz e s'.
  destruct (pmm_alloc_wf s phys s1 Hwf Ea) as [(-> & _)|(Hok & Hf & Hs1 & Hwf1 & Hnf & Hnt)]; [done|].
  destruct (table_flags_ok new_flags) as (Hg & Hgp & Hgh).
  destruct (entry_parts phys (table_flags new_flags) Hok Hg) as (Ha & Hpe & Hhe).
  fold e in Ha, Hpe, Hhe. rewrite Hgp in Hpe. rewrite Hgh in Hhe.
  assert (Hent : entry (pages s1) t i = entry (pages s) t i) by (by rewrite Hs1).
  assert (Hta : forall q, table_at s1 q = table_at s q) by (intros q; by rewrite Hs1).
  assert (Hn3 : forall n, (n < 3)%nat -> (n =? 3)%nat = false) by (intros n Hn; apply Nat.eqb_neq; lia).
  destruct (link_wf s1 path t i phys e (split_entries base_ step flags))
    as (Hwf' & Htp & Hread & Htabs); try done; try lia.
  - by rewrite Hta.
  - unfold is_table. rewrite Hent, Hh, Hn3 by lia. by rewrite andb_false_r.
  - unfold is_table. rewrite Hpe, Hhe. by rewrite orb_true_r.
  - intros j. destruct Hcont as [?|Hcont]; [by left|right]. intros n Hn. unfold is_table.
    rewrite Hn3 by lia. destruct (decide (j < 512)%nat).
    + rewrite split_entries_lookup by done. cbn [from_option]. unfold id.
      rewrite Hcont by done. by rewrite andb_false_r.
    + by rewrite split_entries_ge by lia.
  - fold s' in Hwf', Htp, Hread, Htabs.
    assert (Hr : read_at s' path i = e) by (by rewrite Hread, decide_True).
    assert (Htp' : table_at s' path = Some t).
    { destruct (table_at_prefix _ _ _ _ Htp) as [t' Ht']. rewrite Ht'.
      destruct (wf_pages s1 Hwf1 path t) as (l & Hl & Hll); [by rewrite Hta|].
      pose proof (wf_fill s1 phys (split_entries base_ step flags) Hwf1 Hnt) as Hwf2.
      rewrite <-Ht'. unfold s'. erewrite (table_at_set _ path t i e); try done.
      - by rewrite table_at_fill, Hta.
      - by rewrite table_at_fill, Hta.
      - unfold fill_page. cbn [pages with_pages]. rewrite lookup_insert_ne; [done|].
        intros Heq. apply (Hnt path t); [by rewrite Hta|done].
      - lia.
      - intros H%prefix_length. rewrite length_app in H. simpl in H. lia. }
    split; [done|]. split; [by unfold s'; rewrite Hs1|]. split; [done|].
    split; [unfold read_at in Hr; by rewrite Htp' in Hr|]. do 2 (split; [done|]).
    split; [|split; [done|split]].
    3:{ intros x [Hx1 Hx2]. rewrite Hf in Hx1. apply not_elem_of_cons in Hx1 as [Hx1 Hx3].
        destruct (link_unused s1 s' t i phys e (split_entries base_ step flags) x eq_refl Htabs)
          as [Hu Hpg]; try done.
        - exists path. by rewrite Hta.
        - split; [done|]. intros q t1. rewrite Hta. apply Hx2.
        - split; [done|]. rewrite Hpg. by rewrite Hs1. }
    2:{ intros q t1 Hq. apply (link_keeps s1 path); rewrite ?Hta; try done.
        unfold is_table. rewrite Hent, Hh, Hn3 by lia. by rewrite andb_false_r. }
    intros q j. rewrite Hread. do 2 (case_decide; [done|]). unfold read_at. rewrite Hta.
    by rewrite Hs1.
Qed.

(** What a split returns. *)
Definition split_ok (s s' : vm) (path : list nat) (t : Z) (i : nat) (r : option Z) : Prop :=
  extends s s' /\
  match r with
  | None => s' = s /\ free_pages_stack s = []
  | Some _ => table_at s' path = Some t /\ present (entry (pages s') t i) = true /\
      huge (entry (pages s') t i) = false /\
      exists p, free_pages_stack s = p :: free_pages_stack s'
  end.

Lemma split_1g_ok s x t i f r s' :
  wf s -> table_at s [x] = Some t -> (i < 512)%nat -> huge (entry (pages s) t i) = true ->
  split_huge_1g t i f s = (r, s') -> split_ok s s' [x] t i r.
Proof.
  intros Hwf Ht Hi Hh. unfold split_huge_1g. destruct (pmm_alloc s) as [phys s1] eqn:Ea.
  destruct (Z.eqb_spec phys 0) as [->|Hnz]; intros [= <- <-].
  { destruct (pmm_alloc_wf s 0 s1 Hwf Ea) as [(_ & -> & Hf)|([] & _)]; [|lia].
    split; [by apply extends_refl|done]. }
  destruct (split_spec s [x] t i 0x200000
    (Z.lor (Z.land (Z.land (entry (pages s) t i) 0xFFF) (u64 (Z.lnot VMM_HUGE))) VMM_HUGE) f
    (Z.land (entry (pages s) t i) MASK_1G) phys s1)
    as (Hwf' & Hc & Ht' & He & Hp & Hnh & Hr & Hf & Hk & Hu); try done; [simpl; lia| |].
  { right. intros j Hj. apply (split_1g_entry _ j 0 Hj). }
  split; [split; [done|done| |done|done]|].
  - intros v. eapply xlate_split_1g; [| |exact Hp|exact Hnh];
      unfold read_at; rewrite Ht; [exact Hr|done].
  - rewrite He. eauto.
Qed.

Lemma split_2m_ok s x y t i f r s' :
  wf s -> table_at s [x; y] = Some t -> (i < 512)%nat -> huge (entry (pages s) t i) = true ->
  split_huge_2m t i f s = (r, s') -> split_ok s s' [x; y] t i r.
Proof.
  intros Hwf Ht Hi Hh. unfold split_huge_2m. destruct (pmm_alloc s) as [phys s1] eqn:Ea.
  destruct (Z.eqb_spec phys 0) as [->|Hnz]; intros [= <- <-].
  { destruct (pmm_alloc_wf s 0 s1 Hwf Ea) as [(_ & -> & Hf)|([] & _)]; [|lia].
    split; [by apply extends_refl|done]. }
  destruct (split_spec s [x; y] t i 4096
    (Z.land (Z.land (entry (pages s) t i) 0xFFF) (u64 (Z.lnot VMM_HUGE))) f
    (Z.land (entry (pages s) t i) MASK_2M) phys s1)
    as (Hwf' & Hc & Ht' & He & Hp & Hnh & Hr & Hf & Hk & Hu); try done; [simpl; lia|by left|].
  split; [split; [done|done| |done|done]|].
  - intros v. eapply xlate_split_2m; [| |exact Hp|exact Hnh];
      unfold read_at; rewrite Ht; [exact Hr|done].
  - rewrite He. eauto.
Qed.

(** A split when needed, then the next level: at most one page either way. *)
Definition level_ok (s s' : vm) (path : list nat) (r : option Z) : Prop :=
  extends s s' /\
  match r with
  | None => free_pages_stack s = []
  | Some t' => table_at s' path = Some t' /\
      (length (free_pages_stack s) <= S (length (free_pages_stack s')))%nat
  end.

Lemma split_next_ok s s1 s' path t i ok r :
  wf s -> (i < 512)%nat -> (length path < 3)%nat -> table_at s path = Some t ->
  (if huge (entry (pages s) t i) then split_ok s s1 path t i ok else s1 = s /\ ok = Some 0) ->
  (if ok is Some _ then get_next_level t i true s1 else (None, s1)) = (r, s') ->
  level_ok s s' (path ++ [i]) r.
Proof.
  intros Hwf Hi Hlen Ht Hok Hr. destruct (huge (entry (pages s) t i)) eqn:Hh.
  - destruct Hok as [Hext Hok]. destruct ok as [z|].
    + destruct Hok as (Ht1 & Hp1 & Hh1 & p & Hf). unfold get_next_level in Hr.
      rewrite Hp1 in Hr. simpl in Hr. injection Hr as <- <-. split; [done|].
      rewrite Hf. split; [|simpl; lia]. rewrite table_at_snoc, Ht1.
      destruct (Nat.ltb_spec (length path) 3); [|lia]. unfold is_table.
      by rewrite Hp1, Hh1, orb_true_r.
    + injection Hr as <- <-. destruct Hok as [-> Hf]. by split.
  - destruct Hok as [-> ->].
    destruct (next_level_spec s path t i r s') as [Hext Hn]; try done; [by right|].
    split; [done|]. destruct r as [t'|].
    + destruct Hn as [? [-> | [p ->]]]; split; try done; simpl; lia.
    + by destruct Hn.
Qed.

Lemma map_walk_spec virt flags s r s' :
  wf s -> map_walk virt flags s = (r, s') ->
  extends s s' /\
  match r with
  | None => (length (free_pages_stack s) < 3)%nat
  | Some pt => table_at s' [pml4_idx virt; pdpt_idx virt; pd_idx virt] = Some pt
  end.
Proof.
  intros Hwf. unfold map_walk.
  destruct (get_next_level (cr3 s) (pml4_idx virt) true s) as [[pdpt|] s1] eqn:E1.
  all: destruct (next_level_spec s [] (cr3 s) (pml4_idx virt) _ s1 Hwf eq_refl (pml4_idx_lt _)
    (Nat.lt_0_succ 2) (or_introl eq_refl) E1) as [Hext1 H1].
  2:{ intros [= <- <-]. split; [done|]. destruct H1 as [_ ->]. simpl. lia. }
  destruct H1 as [Ht1 Hf1]. pose proof (ext_wf _ _ Hext1) as Hwf1.
  assert (Hl1 : (length (free_pages_stack s) <= S (length (free_pages_stack s1)))%nat)
    by (destruct Hf1 as [->|[p ->]]; simpl; lia).
  destruct (if huge _ then _ else _) as [ok1 s2] eqn:E2.
  destruct (if ok1 is Some _ then get_next_level pdpt (pdpt_idx virt) true s2 else (None, s2))
    as [r3 s3] eqn:E3.
  assert (H3 : level_ok s1 s3 [pml4_idx virt; pdpt_idx virt] r3).
  { eapply (split_next_ok s1 s2 s3 [pml4_idx virt]); try done; [apply pdpt_idx_lt|simpl; lia|].
    destruct (huge (entry (pages s1) pdpt (pdpt_idx virt))) eqn:Hh;
      [by eapply split_1g_ok; eauto using pdpt_idx_lt|by injection E2 as <- <-]. }
  destruct H3 as [Hext3 H3]. pose proof (extends_trans _ _ _ Hext1 Hext3) as Hext13.
  pose proof (ext_wf _ _ Hext3) as Hwf3.
  intros Hr. destruct r3 as [pd|].
  2:{ assert (s' = s3 /\ r = None) as [-> ->] by (destruct ok1; [rewrite E3 in Hr|]; by simplify_eq).
      split; [done|]. rewrite H3 in Hl1. simpl in Hl1. lia. }
  destruct ok1 as [z1|]; [|by simplify_eq]. rewrite E3 in Hr. destruct H3 as [Ht3 Hl3].
  destruct (if huge (entry (pages s3) pd (pd_idx virt))
            then split_huge_2m pd (pd_idx virt) flags s3 else (Some 0, s3)) as [ok2 s4] eqn:E4.
  assert (H5 : level_ok s3 s' [pml4_idx virt; pdpt_idx virt; pd_idx virt] r).
  { apply (split_next_ok s3 s4 s' [pml4_idx virt; pdpt_idx virt] pd (pd_idx virt) ok2 r Hwf3
      (pd_idx_lt _) (le_n 3) Ht3); [|exact Hr].
    destruct (huge (entry (pages s3) pd (pd_idx virt))) eqn:Hh;
      [by eapply split_2m_ok; eauto using pd_idx_lt|by injection E4 as <- <-]. }
  destruct H5 as [Hext5 H5]. split; [by eapply extends_trans|].
  destruct r as [pt|]; [by destruct H5|]. rewrite H5 in Hl3. simpl in Hl3. lia.
Qed.
