(* ===== verification/VmmProps.v ===== *)
(** The properties of physical pages and page tables, the free-page stack
    [pmm_init] builds from the boot memory map among them. *)
From Stdlib Require Import ZArith Lia.
From stdpp Require Import base numbers list gmap.
From S2P Require Import Prelude Vmm VmmSpec.

(** ** Leaf entries *)

Lemma leaf_entry phys flags :
  Z.land flags ADDR_MASK = 0 ->
  let e := Z.lor (Z.lor (Z.land phys ADDR_MASK) flags) VMM_PRESENT in
  present e = true /\ Z.land e ADDR_MASK = addr_of phys.
Proof.
  intros Hf e. split.
  - rewrite present_bit. unfold e. rewrite Z.lor_spec. change (Z.testbit VMM_PRESENT 0) with true.
    by rewrite orb_true_r.
  - unfold e, addr_of. rewrite !Z.land_lor_distr_l, Hf, <-Z.land_assoc, Z.land_diag.
    change (Z.land VMM_PRESENT ADDR_MASK) with 0. by rewrite !Z.lor_0_r.
Qed.

(** A PT that is reachable: the three entries above it are tables. *)
Lemma reached_pt s a b c t :
  table_at s [a; b; c] = Some t ->
  present (read_at s [] a) = true /\
  present (read_at s [a] b) = true /\ huge (read_at s [a] b) = false /\
  present (read_at s [a; b] c) = true /\ huge (read_at s [a; b] c) = false.
Proof.
  intros H. pose proof H as H1. change [a; b; c] with ([a; b] ++ [c]) in H1.
  rewrite table_at_snoc in H1. unfold read_at.
  destruct (table_at s [a; b]) as [t2|] eqn:E2; [|done]. simpl in H1. unfold is_table in H1.
  pose proof E2 as H2. change [a; b] with ([a] ++ [b]) in H2. rewrite table_at_snoc in H2.
  destruct (table_at s [a]) as [t1|] eqn:E1; [|done]. simpl in H2. unfold is_table in H2.
  pose proof E1 as H3. change [a] with ([] ++ [a]) in H3. rewrite table_at_snoc in H3.
  simpl in H3. unfold is_table in H3. unfold table_at. simpl.
  destruct (present (entry (pages s) (cr3 s) a)); [|done].
  destruct (present (entry (pages s) t1 b)), (huge (entry (pages s) t1 b)); try done.
  destruct (present (entry (pages s) t2 c)), (huge (entry (pages s) t2 c)); done.
Qed.

Lemma low_12 v : Z.land v 0xFFF = v mod 4096.
Proof. apply (Z.land_ones v 12). lia. Qed.

(** Writing the PT entry of [virt] changes the translation of its page only. *)
Lemma set_pt_entry s virt pt e :
  wf s -> table_at s [pml4_idx virt; pdpt_idx virt; pd_idx virt] = Some pt ->
  let s' := set_entry pt (pt_idx virt) e s in
  wf s' /\
  forall v, vmm_get_phys v s' =
    if decide (same_page v virt)
    then (if present e then Z.lor (Z.land e ADDR_MASK) (v mod 4096) else 0)
    else vmm_get_phys v s.
Proof.
  intros Hwf Ht s'.
  destruct (set_leaf_wf s _ pt (pt_idx virt) e Hwf Ht (pt_idx_lt virt)) as [Hwf' Hr];
    [by right..|].
  split; [done|]. intros v. rewrite !get_phys_xlate. fold s' in Hr. rewrite !Hr.
  rewrite (decide_False (P := [] = _ /\ _)) by naive_solver.
  rewrite (decide_False (P := [_] = _ /\ _)) by naive_solver.
  rewrite (decide_False (P := [_; _] = _ /\ _)) by naive_solver.
  destruct (decide (same_page v virt)) as [Hsp|Hsp].
  - apply same_page_idx in Hsp as (-> & -> & -> & ->). rewrite decide_True by done.
    destruct (reached_pt s _ _ _ _ Ht) as (H1 & H2 & H3 & H4 & H5).
    unfold xlate. rewrite H1, H2, H3, H4, H5, low_12. simpl. by destruct (present e).
  - rewrite decide_False; [done|]. rewrite same_page_idx in Hsp. naive_solver.
Qed.

(** A single empty PML4 and a stack of free pages. *)
Lemma wf_empty_space root f :
  root ∉ f -> NoDup f -> Forall page_ok f -> wf (Vm {[ root := zero_page ]} f root).
Proof.
  intros Hroot Hnd Hok.
  assert (Hent : forall i, entry {[ root := zero_page ]} root i = 0).
  { intros i. unfold entry. rewrite lookup_singleton_eq. apply zero_page_lookup. }
  assert (Htbl : forall path t, table_at (Vm {[ root := zero_page ]} f root) path = Some t ->
                   path = [] /\ t = root).
  { intros [|i path] t; unfold table_at; simpl; [naive_solver|].
    unfold is_table. rewrite Hent. done. }
  split.
  - intros path t [-> ->]%Htbl. exists zero_page. simpl. by rewrite lookup_singleton_eq.
  - intros p q t [-> _]%Htbl [-> _]%Htbl. done.
  - intros path t [-> ->]%Htbl. done.
  - done.
Qed.

Definition small_space : vm := Vm {[ 4096 := zero_page ]} [8192; 12288; 16384; 20480] 4096.

Lemma small_space_wf : wf small_space.
Proof.
  apply wf_empty_space; [set_solver| |].
  - repeat (apply NoDup_cons; split; [set_solver|]). apply NoDup_nil. done.
  - repeat (apply Forall_cons; split; [split; [lia|done]|]). by apply Forall_nil.
Qed.

(** ** Properties *)

(** C7. Mapping a page: when [vmm_map] succeeds, every address of the page now
    translates to the physical page asked for, and the translation of every
    other address is what it was, whatever 1 GB or 2 MB pages were split on the
    way; the tables stay a tree. *)
Theorem vmm_map_translates virt phys flags s s' :
  wf s -> Z.land flags ADDR_MASK = 0 -> vmm_map virt phys flags s = (true, s') ->
  wf s' /\
  forall v, vmm_get_phys v s' =
    if decide (same_page v virt) then Z.lor (addr_of phys) (v mod 4096) else vmm_get_phys v s.
Proof.
  intros Hwf Hf. unfold vmm_map. destruct (map_walk virt flags s) as [[pt|] s1] eqn:E; [|done].
  intros [= <-]. destruct (map_walk_spec _ _ _ _ _ Hwf E) as [[Hwf1 _ Hx] Ht].
  destruct (leaf_entry phys flags Hf) as [Hp Ha].
  destruct (set_pt_entry s1 virt pt
    (Z.lor (Z.lor (Z.land phys ADDR_MASK) flags) VMM_PRESENT) Hwf1 Ht) as [Hwf' Hv].
  split; [done|]. intros v. by rewrite Hv, Hp, Ha, Hx.
Qed.

Lemma vmm_map_translates_witness :
  exists s', vmm_map 0x400000 0x7000 3 small_space = (true, s') /\ vmm_get_phys 0x400123 s' = 0x7123.
Proof.
  destruct (vmm_map 0x400000 0x7000 3 small_space) as [[] s'] eqn:E;
    [|vm_compute in E; discriminate].
  exists s'. split; [reflexivity|].
  destruct (vmm_map_translates 0x400000 0x7000 3 small_space s' small_space_wf eq_refl E) as [_ H].
  rewrite H. vm_compute. reflexivity.
Defined.

(** [vmm_map] fails only when fewer than three pages are free, and then no
    translation has changed and the tables are still well formed. *)
Theorem vmm_map_failure virt phys flags s s' :
  wf s -> vmm_map virt phys flags s = (false, s') ->
  (length (free_pages_stack s) < 3)%nat /\ wf s' /\
  forall v, vmm_get_phys v s' = vmm_get_phys v s.
Proof.
  intros Hwf. unfold vmm_map. destruct (map_walk virt flags s) as [[pt|] s1] eqn:E; [done|].
  intros [= <-]. by destruct (map_walk_spec _ _ _ _ _ Hwf E) as [[Hwf1 _ Hx] Hf].
Qed.

Lemma vmm_map_failure_witness :
  exists s', vmm_map 0x400000 0x7000 3 (with_free [8192] small_space) = (false, s') /\
    vmm_get_phys 0x400123 s' = 0.
Proof.
  assert (Hwf : wf (with_free [8192] small_space)).
  { apply with_free_wf; [apply small_space_wf| |].
    - split; [apply NoDup_singleton|]. repeat constructor; lia.
    - unfold small_space. simpl. set_solver. }
  destruct (vmm_map 0x400000 0x7000 3 (with_free [8192] small_space)) as [[] s'] eqn:E;
    [vm_compute in E; discriminate|].
  exists s'. split; [reflexivity|].
  destruct (vmm_map_failure _ _ _ _ _ Hwf E) as (_ & _ & H).
  rewrite H. vm_compute. reflexivity.
Defined.

Lemma same_page_aligned v w :
  w mod 4096 = 0 -> 0 <= v < 2 ^ 48 -> 0 <= w < 2 ^ 48 -> same_page v w <-> w <= v < w + 4096.
Proof. unfold same_page. intros. split; intros; zify_div. Qed.

Lemma map_range_loop_spec n i virt phys flags s s' :
  wf s -> Z.land flags ADDR_MASK = 0 ->
  virt mod 4096 = 0 -> phys mod 4096 = 0 -> i mod 4096 = 0 -> 0 <= i ->
  0 <= virt -> virt + i + Z.of_nat n * 4096 <= 2 ^ 48 ->
  0 <= phys -> phys + i + Z.of_nat n * 4096 <= 2 ^ 52 ->
  map_range_loop n i virt phys flags s = (true, s') ->
  wf s' /\ forall v, 0 <= v < 2 ^ 48 -> vmm_get_phys v s' =
    if decide (virt + i <= v < virt + i + Z.of_nat n * 4096) then phys + (v - virt)
    else vmm_get_phys v s.
Proof.
  intros Hwf Hfl Hv Hp. revert i s Hwf.
  induction n as [|n IH]; intros i s Hwf Hi Hi0 Hv0 Hv1 Hp0 Hp1 Hrun.
  { injection Hrun as <-. split; [done|]. intros v Hv2. rewrite decide_False by lia. done. }
  cbn [map_range_loop] in Hrun. rewrite !(wrap_small 64) in Hrun by lia.
  destruct (vmm_map (virt + i) (phys + i) flags s) as [[] s1] eqn:E; [|done].
  unfold vmm_map in E. destruct (map_walk (virt + i) flags s) as [[pt|] s2] eqn:Ew; [|done].
  injection E as <-. destruct (map_walk_spec _ _ _ _ _ Hwf Ew) as [[Hwf1 _ Hx] Ht].
  destruct (leaf_entry (phys + i) flags Hfl) as [Hpr Ha].
  destruct (set_pt_entry s2 (virt + i) pt
    (Z.lor (Z.lor (Z.land (phys + i) ADDR_MASK) flags) VMM_PRESENT) Hwf1 Ht) as [Hwf' Hphys].
  unfold PAGE_SIZE in Hrun.
  destruct (IH (i + 4096) _ Hwf' ltac:(zify_div) ltac:(lia) Hv0 ltac:(lia) Hp0 ltac:(lia) Hrun)
    as [Hwf2 Hrest].
  split; [done|]. intros v Hv2. rewrite Hrest by done.
  assert (Hsp := same_page_aligned v (virt + i) ltac:(zify_div) Hv2 ltac:(lia)).
  destruct (decide (virt + (i + 4096) <= v < virt + (i + 4096) + Z.of_nat n * 4096)).
  { rewrite decide_True by lia. lia. }
  rewrite Hphys, Hx, Hpr, Ha. destruct (decide (same_page v (virt + i))) as [Hs|Hs].
  - apply Hsp in Hs. rewrite decide_True by lia.
    rewrite addr_of_val, (lor_disjoint _ _ 12); zify_div.
  - rewrite decide_False; [done|]. intros Hr. apply Hs, Hsp. lia.
Qed.

(** Mapping a range: when [vmm_map_range] of whole pages runs to its end,
    each address of the range translates to the corresponding physical address
    and every other address keeps its translation. *)
Theorem vmm_map_range_translates virt phys n flags s s' :
  wf s -> Z.land flags ADDR_MASK = 0 ->
  virt mod 4096 = 0 -> 0 <= virt -> virt + Z.of_nat n * 4096 <= 2 ^ 48 ->
  phys mod 4096 = 0 -> 0 <= phys -> phys + Z.of_nat n * 4096 <= 2 ^ 52 ->
  vmm_map_range virt phys (Z.of_nat n * 4096) flags s = (true, s') ->
  wf s' /\ forall v, 0 <= v < 2 ^ 48 -> vmm_get_phys v s' =
    if decide (virt <= v < virt + Z.of_nat n * 4096) then phys + (v - virt)
    else vmm_get_phys v s.
Proof.
  intros Hwf Hfl Hv Hv0 Hv1 Hp Hp0 Hp1 Hrun.
  unfold vmm_map_range, page_steps, PAGE_SIZE in Hrun.
  replace (Z.to_nat ((Z.of_nat n * 4096 + 4096 - 1) / 4096)) with n in Hrun by zify_div.
  destruct (map_range_loop_spec n 0 virt phys flags s s') as [Hwf' H]; try done; try lia.
  split; [done|]. intros v Hv2. rewrite H by done. by rewrite Z.add_0_r.
Qed.

Lemma vmm_map_range_translates_witness :
  exists s', vmm_map_range 0x400000 0x7000 (Z.of_nat 2 * 4096) 3 small_space = (true, s') /\
    vmm_get_phys 0x401010 s' = 0x8010.
Proof.
  destruct (vmm_map_range 0x400000 0x7000 (Z.of_nat 2 * 4096) 3 small_space) as [[] s'] eqn:E;
    [|vm_compute in E; discriminate].
  exists s'. split; [reflexivity|].
  destruct (vmm_map_range_translates 0x400000 0x7000 2 3 small_space s' small_space_wf)
    as [_ H]; try done.
  rewrite H by lia. vm_compute. reflexivity.
Defined.

(** ** Unmapping *)

(** The page-table entries [vmm_unmap] follows. *)
Definition pml4e (virt : Z) (s : vm) : Z := entry (pages s) (cr3 s) (pml4_idx virt).
Definition pdpte (virt : Z) (s : vm) : Z := entry (pages s) (addr_of (pml4e virt s)) (pdpt_idx virt).
Definition pde (virt : Z) (s : vm) : Z := entry (pages s) (addr_of (pdpte virt s)) (pd_idx virt).

Lemma vmm_unmap_eq virt s :
  vmm_unmap virt s =
    if present (pml4e virt s) && present (pdpte virt s) && present (pde virt s)
    then set_entry (addr_of (pde virt s)) (pt_idx virt) 0 s else s.
Proof.
  unfold vmm_unmap, get_next_level, pde, pdpte, pml4e.
  destruct (present (entry (pages s) (cr3 s) (pml4_idx virt))); [|done].
  cbn [negb andb].
  destruct (present (entry (pages s) (addr_of (entry (pages s) (cr3 s) (pml4_idx virt)))
    (pdpt_idx virt))); [|done]. cbn [negb andb].
  by destruct (present _).
Qed.

(** The walk of the code and the tree of [VmmSpec] agree. *)
Lemma table_at_pt virt s :
  present (pml4e virt s) = true -> present (pdpte virt s) = true -> huge (pdpte virt s) = false ->
  present (pde virt s) = true -> huge (pde virt s) = false ->
  table_at s [pml4_idx virt; pdpt_idx virt; pd_idx virt] = Some (addr_of (pde virt s)).
Proof.
  intros H4 H3 H3' H2 H2'. unfold table_at. cbn [tbl]. unfold is_table.
  unfold pde, pdpte, pml4e in *. by rewrite H4, H3, H3', H2, H2'.
Qed.

(** An address whose walk stops at a missing entry has no translation. *)
Lemma unmapped_phys virt v s :
  same_page v virt -> huge (pdpte virt s) = false -> huge (pde virt s) = false ->
  present (pml4e virt s) && present (pdpte virt s) && present (pde virt s) = false ->
  vmm_get_phys v s = 0.
Proof.
  intros Hsp%same_page_idx H3 H2 Hp. destruct Hsp as (E4 & E3 & E2 & E1).
  unfold vmm_get_phys. rewrite E4, E3, E2.
  fold (pml4e virt s). fold (pdpte virt s). fold (pde virt s).
  destruct (present (pml4e virt s)), (present (pdpte virt s)), (present (pde virt s));
    cbn [negb andb] in *; try done; by rewrite H3.
Qed.

(** Unmapping a 4 KB page: when no huge page covers the address, the page
    has no translation after [vmm_unmap], every other address keeps the
    translation it had, and the tables stay a tree. *)
Theorem vmm_unmap_translates virt s :
  wf s -> huge (pdpte virt s) = false -> huge (pde virt s) = false ->
  wf (vmm_unmap virt s) /\
  forall v, vmm_get_phys v (vmm_unmap virt s) =
    if decide (same_page v virt) then 0 else vmm_get_phys v s.
Proof.
  intros Hwf H3 H2. rewrite vmm_unmap_eq.
  destruct (present (pml4e virt s) && present (pdpte virt s) && present (pde virt s)) eqn:Hp.
  - apply andb_prop in Hp as [[P4 P3]%andb_prop P2].
    destruct (set_pt_entry s virt _ 0 Hwf (table_at_pt virt s P4 P3 H3 P2 H2)) as [Hwf' Hv].
    split; [done|]. intros v. by rewrite Hv.
  - split; [done|]. intros v. destruct (decide (same_page v virt)); [|done].
    by apply (unmapped_phys virt).
Qed.

(** Two mapped pages, tables at 4096, 8192, 12288 and 16384. *)
Definition mapped_space : vm := snd (vmm_map 0x401000 0x8000 3 (snd (vmm_map 0x400000 0x7000 3 small_space))).

Lemma mapped_space_wf : wf mapped_space.
Proof.
  unfold mapped_space. unfold vmm_map at 2. destruct (map_walk 0x400000 3 small_space) as [r s1] eqn:E.
  destruct (map_walk_spec _ _ _ _ _ small_space_wf E) as [[H1 _ _] Ht].
  assert (Hs : forall t virt e s, wf s -> table_at s [pml4_idx virt; pdpt_idx virt; pd_idx virt] = Some t ->
    wf (set_entry t (pt_idx virt) e s)) by (intros t virt e s Hw Htt; by apply set_pt_entry).
  assert (Hm : forall virt phys f s, wf s -> wf (snd (vmm_map virt phys f s))).
  { intros virt phys f s Hw. unfold vmm_map. destruct (map_walk virt f s) as [r' s'] eqn:E'.
    destruct (map_walk_spec _ _ _ _ _ Hw E') as [[Hw' _ _] Ht'].
    destruct r' as [t|]; cbn [snd]; [|done]. by apply Hs. }
  apply Hm. destruct r as [t|]; cbn [snd]; [|done]. by apply Hs.
Qed.

Lemma vmm_unmap_translates_witness :
  vmm_get_phys 0x400010 mapped_space = 0x7010 /\
  vmm_get_phys 0x400010 (vmm_unmap 0x400000 mapped_space) = 0 /\
  vmm_get_phys 0x401010 (vmm_unmap 0x400000 mapped_space) = 0x8010.
Proof.
  split; [vm_compute; reflexivity|].
  destruct (vmm_unmap_translates 0x400000 mapped_space mapped_space_wf) as [_ H];
    [vm_compute; reflexivity|vm_compute; reflexivity|].
  rewrite !H. split; vm_compute; reflexivity.
Defined.

(** Unmapping inside a 2 MB page: [vmm_unmap] takes the mapped page for a
    page table.  It leaves every translation as it was, the one it was asked to
    remove included, and clears the word [pt_idx virt] of the 4 KB page at the
    start of the mapped memory. *)
Theorem vmm_unmap_huge virt s :
  wf s -> present (pml4e virt s) = true -> present (pdpte virt s) = true ->
  present (pde virt s) = true -> huge (pde virt s) = true ->
  (forall path t, table_at s path = Some t -> t <> addr_of (pde virt s)) ->
  (forall v, vmm_get_phys v (vmm_unmap virt s) = vmm_get_phys v s) /\
  (forall l, pages s !! addr_of (pde virt s) = Some l ->
     pages (vmm_unmap virt s) !! addr_of (pde virt s) = Some (<[pt_idx virt := 0]> l)).
Proof.
  intros Hwf P4 P3 P2 _ Hnt. rewrite vmm_unmap_eq, P4, P3, P2. cbn [andb].
  set (t := addr_of (pde virt s)) in *. split.
  - intros v. rewrite !get_phys_xlate.
    assert (Hent : forall u j, u <> t -> entry (pages (set_entry t (pt_idx virt) 0 s)) u j = entry (pages s) u j).
    { intros u j Hu. unfold entry, set_entry, with_pages. cbn [pages]. by rewrite lookup_alter_ne. }
    assert (Ht : forall q, table_at (set_entry t (pt_idx virt) 0 s) q = table_at s q).
    { intros q. induction q as [|j q IH] using rev_ind; [done|].
      rewrite !table_at_snoc, IH. destruct (table_at s q) as [u|] eqn:E; [|done].
      by rewrite Hent by eauto. }
    unfold read_at. rewrite !Ht.
    repeat match goal with |- context[match table_at s ?p with _ => _ end] =>
      let E := fresh "E" in destruct (table_at s p) eqn:E; [rewrite !Hent by eauto|] end; done.
  - intros l Hl. unfold set_entry, with_pages. cbn [pages]. by rewrite lookup_alter_eq, Hl.
Qed.

(** 0x400000 in a 2 MB page at physical 0x200000. *)
Definition huge_space : vm :=
  Vm (<[4096 := <[0%nat := 0x2007]> zero_page]> (<[8192 := <[0%nat := 0x3007]> zero_page]>
       (<[12288 := <[2%nat := 0x200083]> zero_page]> {[ 0x200000 := replicate 512 7 ]}))) [] 4096.

Lemma one_entry_lookup i e j :
  (i < 512)%nat ->
  default 0 (<[i := e]> zero_page !! j) = if decide (j = i) then e else 0.
Proof.
  intros Hi. destruct (decide (j = i)) as [->|Hne].
  - rewrite list_lookup_insert_eq; [done|]. unfold zero_page. by rewrite length_replicate.
  - rewrite list_lookup_insert_ne by done. apply zero_page_lookup.
Qed.

Lemma huge_space_tables path t :
  table_at huge_space path = Some t ->
  (path, t) = ([], 4096) \/ (path, t) = ([0%nat], 8192) \/ (path, t) = ([0%nat; 0%nat], 12288).
Proof.
  assert (E1 : forall j, entry (pages huge_space) 4096 j = if decide (j = 0%nat) then 0x2007 else 0).
  { intros j. rewrite <-one_entry_lookup by lia. done. }
  assert (E2 : forall j, entry (pages huge_space) 8192 j = if decide (j = 0%nat) then 0x3007 else 0).
  { intros j. rewrite <-one_entry_lookup by lia. done. }
  assert (E3 : forall j, entry (pages huge_space) 12288 j = if decide (j = 2%nat) then 0x200083 else 0).
  { intros j. rewrite <-one_entry_lookup by lia. done. }
  unfold table_at. change (cr3 huge_space) with 4096.
  assert (T0 : forall n, is_table n 0 = false) by done.
  destruct path as [|i [|j [|k q]]]; cbn [tbl].
  - intros [= <-]. by left.
  - rewrite E1. destruct (decide (i = 0%nat)) as [->|]; [|by rewrite T0].
    change (is_table 3 0x2007) with true. cbv iota. change (addr_of 0x2007) with 8192.
    intros [= <-]. right. by left.
  - rewrite E1. destruct (decide (i = 0%nat)) as [->|]; [|by rewrite T0].
    change (is_table 3 0x2007) with true. cbv iota. change (addr_of 0x2007) with 8192.
    rewrite E2. destruct (decide (j = 0%nat)) as [->|]; [|by rewrite T0].
    change (is_table 2 0x3007) with true. cbv iota. change (addr_of 0x3007) with 12288.
    intros [= <-]. right. by right.
  - rewrite E1. destruct (decide (i = 0%nat)) as [->|]; [|by rewrite T0].
    change (is_table 3 0x2007) with true. cbv iota. change (addr_of 0x2007) with 8192.
    rewrite E2. destruct (decide (j = 0%nat)) as [->|]; [|by rewrite T0].
    change (is_table 2 0x3007) with true. cbv iota. change (addr_of 0x3007) with 12288.
    rewrite E3. destruct (decide (k = 2%nat)) as [->|]; [|by rewrite T0].
    by change (is_table 1 0x200083) with false.
Qed.

Lemma huge_space_wf : wf huge_space.
Proof.
  split.
  - intros path t H%huge_space_tables.
    destruct H as [[= -> ->]|[[= -> ->]|[= -> ->]]]; eexists; (split; [reflexivity|]);
      rewrite length_insert; apply length_replicate.
  - intros p q t Hp%huge_space_tables Hq%huge_space_tables.
    destruct Hp as [Hp|[Hp|Hp]], Hq as [Hq|[Hq|Hq]]; injection Hp; injection Hq; congruence.
  - intros path t _ []%elem_of_nil.
  - split; [apply NoDup_nil_2|apply Forall_nil_2].
Qed.

Lemma vmm_unmap_huge_witness :
  vmm_get_phys 0x401234 (vmm_unmap 0x401000 huge_space) = 0x201234 /\
  pages (vmm_unmap 0x401000 huge_space) !! 0x200000 = Some (<[1%nat := 0]> (replicate 512 7)).
Proof.
  assert (Hpde : addr_of (pde 0x401000 huge_space) = 0x200000) by (vm_compute; reflexivity).
  destruct (vmm_unmap_huge 0x401000 huge_space huge_space_wf) as [H1 H2];
    [vm_compute; reflexivity..| |].
  - rewrite Hpde. intros path t [H|[H|H]]%huge_space_tables; injection H as _ ->; discriminate.
  - rewrite Hpde in H2. split; [rewrite H1; vm_compute; reflexivity|].
    exact (H2 (replicate 512 7) eq_refl).
Defined.

(** ** Address spaces *)

(** Two states whose PML4 entries for [v] agree, and which agree on every page
    but one that holds no table, translate [v] the same way. *)
Lemma phys_same_entry s s' p v :
  (forall q t, table_at s q = Some t -> t <> p) ->
  (forall u j, u <> p -> entry (pages s') u j = entry (pages s) u j) ->
  entry (pages s') (cr3 s') (pml4_idx v) = entry (pages s) (cr3 s) (pml4_idx v) ->
  vmm_get_phys v s' = vmm_get_phys v s.
Proof.
  intros Hnew Hother Hroot. unfold vmm_get_phys. rewrite Hroot.
  set (e4 := entry (pages s) (cr3 s) (pml4_idx v)).
  destruct (present e4) eqn:P4; [|done]. cbn [negb].
  assert (T1 : table_at s [pml4_idx v] = Some (addr_of e4)).
  { unfold table_at. cbn [tbl]. unfold is_table. fold e4. by rewrite P4. }
  rewrite Hother by (by apply (Hnew _ _ T1)). set (e3 := entry (pages s) (addr_of e4) (pdpt_idx v)).
  destruct (present e3) eqn:P3; [|done]. cbn [negb]. destruct (huge e3) eqn:H3; [done|].
  assert (T2 : table_at s [pml4_idx v; pdpt_idx v] = Some (addr_of e3)).
  { change [pml4_idx v; pdpt_idx v] with ([pml4_idx v] ++ [pdpt_idx v]).
    rewrite table_at_snoc, T1. cbn [length]. fold e3. unfold is_table. by rewrite P3, H3. }
  rewrite Hother by (by apply (Hnew _ _ T2)). set (e2 := entry (pages s) (addr_of e3) (pd_idx v)).
  destruct (present e2) eqn:P2; [|done]. cbn [negb]. destruct (huge e2) eqn:H2; [done|].
  assert (T3 : table_at s [pml4_idx v; pdpt_idx v; pd_idx v] = Some (addr_of e2)).
  { change [pml4_idx v; pdpt_idx v; pd_idx v] with ([pml4_idx v; pdpt_idx v] ++ [pd_idx v]).
    rewrite table_at_snoc, T2. cbn [length]. fold e2. unfold is_table. by rewrite P2, H2. }
  by rewrite Hother by (by apply (Hnew _ _ T3)).
Qed.

Lemma half_entries s p i :
  (i < 512)%nat ->
  let s' := vmm_activate_pml4 p (fill_page p
     ((fun i => if (256 <=? i)%nat then entry (pages s) (cr3 s) i else 0) <$> seq 0 512) s) in
  ((i < 256)%nat -> entry (pages s') p i = 0) /\
  ((256 <= i)%nat -> entry (pages s') p i = entry (pages s) (cr3 s) i).
Proof.
  intros Hi s'. unfold s', vmm_activate_pml4. cbn [pages]. rewrite entry_fill, decide_True by done.
  rewrite list_lookup_fmap, lookup_seq_lt by done.
  cbn [fmap option_fmap option_map from_option Nat.add]. unfold id.
  destruct (Nat.leb_spec 256 i); split; intros; (lia || done).
Qed.

Lemma unmapped_root v s : entry (pages s) (cr3 s) (pml4_idx v) = 0 -> vmm_get_phys v s = 0.
Proof. intros H. unfold vmm_get_phys. by rewrite H. Qed.

Lemma half_pages p s : pages (vmm_activate_pml4 p s) = pages s.
Proof. done. Qed.

(** A new user address space: [vmm_new_user_pml4] returns 0 only when no
    page is free; otherwise, once activated, no address of the lower half is
    mapped and every address of the kernel half translates as before. *)
Theorem vmm_new_user_pml4_space s root s' :
  wf s -> vmm_new_user_pml4 s = (root, s') ->
  (root = 0 /\ s' = s /\ free_pages_stack s = []) \/
  (forall v, vmm_get_phys v (vmm_activate_pml4 root s') =
     if decide (pml4_idx v < 256)%nat then 0 else vmm_get_phys v s).
Proof.
  intros Hwf. unfold vmm_new_user_pml4. destruct (pmm_alloc s) as [p s1] eqn:Ea.
  destruct (pmm_alloc_wf s p s1 Hwf Ea) as [(-> & -> & Hf)|([Hp _] & _ & Hs1 & Hwf1 & _ & Hnew)].
  { intros [= <- <-]. by left. }
  destruct (Z.eqb_spec p 0) as [->|Hnz]; [lia|]. intros [= <- <-]. right.
  assert (Hv0 : forall v, vmm_get_phys v s1 = vmm_get_phys v s) by (by rewrite Hs1). intros v.
  destruct (half_entries s1 p (pml4_idx v) (pml4_idx_lt v)) as [Hlo Hhi].
  destruct (decide (pml4_idx v < 256)%nat) as [Hlt|Hge].
  - apply unmapped_root. exact (Hlo Hlt).
  - rewrite <-Hv0. apply (phys_same_entry s1 _ p v Hnew).
    + intros u j Hu. rewrite half_pages. by rewrite entry_fill, decide_False.
    + apply Hhi. lia.
Qed.

Lemma vmm_new_user_pml4_space_witness :
  exists root s', vmm_new_user_pml4 small_space = (root, s') /\ root <> 0 /\
    vmm_get_phys 0x400000 (vmm_activate_pml4 root s') = 0.
Proof.
  destruct (vmm_new_user_pml4 small_space) as [root s'] eqn:E. exists root, s'.
  assert (Hr : root = 8192) by (apply (f_equal fst) in E; symmetry; exact E).
  split; [reflexivity|]. split; [subst root; discriminate|].
  destruct (vmm_new_user_pml4_space _ _ _ small_space_wf E) as [(H & _)|H];
    [subst root; discriminate|]. exact (H 0x400000).
Defined.

(** * The free-page stack [pmm_init] builds from the boot memory map. *)

(** ** The free stack at boot *)

(** The page bases of a region of [n] pages, highest first. *)
Definition region_pages (b : Z) (n : nat) : list Z := reverse ((fun i => b + Z.of_nat i * 4096) <$> seq 0 n).

Lemma elem_region_pages p b n :
  p ∈ region_pages b n <-> exists i, (i < n)%nat /\ p = b + Z.of_nat i * 4096.
Proof.
  unfold region_pages. rewrite elem_of_reverse, list_elem_of_fmap. split.
  - intros (i & -> & Hi%elem_of_seq). exists i. split; [lia|done].
  - intros (i & Hi & ->). exists i. rewrite elem_of_seq. split; [done|lia].
Qed.

Lemma NoDup_region_pages b n : NoDup (region_pages b n).
Proof.
  unfold region_pages. rewrite reverse_Permutation. apply NoDup_fmap_2.
  - intros i j H. lia.
  - apply NoDup_seq.
Qed.

Definition outside (lo hi p : Z) : bool := negb ((lo <=? p) && (p <? hi)).

Lemma outside_true lo hi p : outside lo hi p = true <-> ~ (lo <= p < hi).
Proof. unfold outside. destruct (Z.leb_spec lo p), (Z.ltb_spec p hi); cbn; split; (lia || done). Qed.

Lemma push_pages_spec n lo hi :
  forall fuel addr st, (n < fuel)%nat ->
  push_pages fuel addr (addr + Z.of_nat n * 4096) lo hi st =
    filter (fun p => outside lo hi p = true) (region_pages addr n) ++ st.
Proof.
  induction n as [|n IH]; intros fuel addr st Hf; (destruct fuel as [|fuel]; [lia|]); cbn [push_pages].
  - rewrite (proj2 (Z.ltb_ge _ _)) by lia. done.
  - rewrite (proj2 (Z.ltb_lt _ _)) by lia.
    replace (addr + Z.of_nat (S n) * 4096) with ((addr + PAGE_SIZE) + Z.of_nat n * 4096)
      by (unfold PAGE_SIZE; lia).
    rewrite IH by lia.
    assert (Hr : region_pages addr (S n) = region_pages (addr + PAGE_SIZE) n ++ [addr]).
    { unfold region_pages. cbn [seq fmap list_fmap]. rewrite reverse_cons. f_equal.
      - f_equal. rewrite <-(fmap_S_seq 0 n), <-list_fmap_compose. apply list_fmap_ext.
        intros i x _. unfold compose, PAGE_SIZE. lia.
      - f_equal. lia. }
    rewrite Hr, filter_app, <-app_assoc. f_equal.
    rewrite filter_cons. unfold outside.
    destruct ((lo <=? addr) && (addr <? hi)); done.
Qed.

(** What Limine's memory map guarantees: usable entries are made of whole
    pages, do not overlap, and page 0 is never usable. *)
Record memmap_ok (mm : list memmap_entry) : Prop := {
  mm_aligned e : e ∈ mm -> usable e = true ->
    0 < base e /\ base e mod 4096 = 0 /\ 0 <= length_ e /\ length_ e mod 4096 = 0;
  mm_disjoint i j e f : mm !! i = Some e -> mm !! j = Some f -> i <> j ->
    usable e = true -> usable f = true ->
    base e + length_ e <= base f \/ base f + length_ f <= base e;
}.

Lemma memmap_ok_cons e mm : memmap_ok (e :: mm) -> memmap_ok mm.
Proof.
  intros [Ha Hd]. split.
  - intros f Hf. apply Ha. by right.
  - intros i j x y Hi Hj Hij. by apply (Hd (S i) (S j)); [..|lia].
Qed.

(** [p] is a page of a usable entry. *)
Definition usable_page (mm : list memmap_entry) (p : Z) : Prop :=
  exists e, e ∈ mm /\ usable e = true /\ base e <= p < base e + length_ e /\ p mod 4096 = 0.

Definition push_all (lo hi : Z) (mm : list memmap_entry) (st : list Z) : list Z :=
  foldl (fun st e =>
    if usable e then push_pages (S (Z.to_nat (length_ e / PAGE_SIZE))) (base e)
                       (base e + length_ e) lo hi st else st) st mm.

Lemma push_all_spec lo hi mm st :
  memmap_ok mm -> NoDup st -> (forall p, usable_page mm p -> p ∉ st) ->
  NoDup (push_all lo hi mm st) /\
  (forall p, p ∈ push_all lo hi mm st <->
     p ∈ st \/ (usable_page mm p /\ outside lo hi p = true)) /\
  Z.of_nat (length (push_all lo hi mm st)) <= Z.of_nat (length st) + total_pages mm.
Proof.
  revert st. induction mm as [|e mm IH]; intros st Hok Hnd Hdis.
  - cbn. split; [done|]. split; [|unfold total_pages; cbn; lia].
    intros p. split; [by left|]. intros [H|[(e & []%elem_of_nil & _) _]]; done.
  - change (push_all lo hi (e :: mm) st) with (push_all lo hi mm
      (if usable e then push_pages (S (Z.to_nat (length_ e / PAGE_SIZE))) (base e)
                       (base e + length_ e) lo hi st else st)).
    assert (Htot : total_pages (e :: mm) =
             (if usable e then length_ e / PAGE_SIZE else 0) + total_pages mm).
    { unfold total_pages. cbn [foldl].
      assert (Hsh : forall l a, foldl (fun t e => if usable e then t + length_ e / PAGE_SIZE else t) a l
        = a + foldl (fun t e => if usable e then t + length_ e / PAGE_SIZE else t) 0 l).
      { induction l as [|x l IHl]; intros a; cbn [foldl]; [lia|].
        rewrite IHl. rewrite (IHl (if usable x then 0 + length_ x / PAGE_SIZE else 0)).
        destruct (usable x); lia. }
      rewrite Hsh. destruct (usable e); lia. }
    pose proof (memmap_ok_cons _ _ Hok) as Hok'.
    assert (Hup : forall p, usable_page (e :: mm) p <->
      (usable e = true /\ base e <= p < base e + length_ e /\ p mod 4096 = 0) \/ usable_page mm p).
    { intros p. unfold usable_page. setoid_rewrite elem_of_cons. naive_solver. }
    destruct (usable e) eqn:Hu.
    + destruct Hok as [Ha Hd].
      destruct (Ha e ltac:(by left) Hu) as (Hb0 & Hb & Hl & Hm).
      set (n := Z.to_nat (length_ e / PAGE_SIZE)) in *.
      assert (Hn : length_ e = Z.of_nat n * 4096) by (unfold n, PAGE_SIZE; zify_div).
      rewrite Hn, push_pages_spec by lia.
      set (new := filter _ (region_pages (base e) n)).
      assert (Hnew : forall p, p ∈ new <->
        (base e <= p < base e + length_ e /\ p mod 4096 = 0) /\ outside lo hi p = true).
      { intros p. unfold new. rewrite list_elem_of_filter, elem_region_pages. split.
        - intros [Ho (i & Hi & ->)]. split; [|done]. split; [lia|zify_div].
        - intros [[Hp Hm'] Ho]. split; [done|]. exists (Z.to_nat ((p - base e) / 4096)).
          split; zify_div. }
      destruct (IH (new ++ st) Hok') as (H1 & H2 & H3).
      * apply NoDup_app. split; [apply NoDup_filter, NoDup_region_pages|]. split; [|done].
        intros p Hp. apply Hdis, Hup. left. split; [done|]. by apply Hnew.
      * intros p Hp [Hin|Hin]%elem_of_app.
        -- apply Hnew in Hin as [[Hr _] _]. destruct Hp as (f & Hf & Huf & Hrf & _).
           apply list_elem_of_lookup in Hf as [i Hi].
           destruct (Hd 0%nat (S i) e f) as [?|?]; try done; lia.
        -- revert Hin. apply Hdis, Hup. by right.
      * split; [done|]. split.
        -- intros p. rewrite H2, elem_of_app, Hnew, Hup. naive_solver.
        -- rewrite length_app in H3. 
           assert (length new <= n)%nat.
           { unfold new. etrans; [apply length_filter|]. unfold region_pages.
             by rewrite length_reverse, length_fmap, length_seq. }
           assert (length_ e / PAGE_SIZE = Z.of_nat n) by (unfold n, PAGE_SIZE; zify_div). lia.
    + destruct (IH st Hok' Hnd) as (H1 & H2 & H3).
      { intros p Hp. apply Hdis, Hup. by right. }
      split; [done|]. split; [|lia]. intros p. rewrite H2, Hup. naive_solver.
Qed.

(** Boot of the page allocator: with a memory map of whole, disjoint
    entries, the free stack holds each page of usable memory exactly once,
    except the pages the stack itself is stored in, and never outgrows that
    storage; [pmm_init] gives up only when no usable entry can hold it. *)
Theorem pmm_init_free_pages mm :
  memmap_ok mm ->
  match pmm_init mm with
  | None => forall e, e ∈ mm -> usable e = true -> length_ e < total_pages mm * 8
  | Some st => exists spot, spot ∈ mm /\ usable spot = true /\
      Z.of_nat (length st) * 8 <= length_ spot /\ NoDup st /\
      forall p, p ∈ st <-> usable_page mm p /\
        ~ (base spot <= p < base spot + total_pages mm * 8)
  end.
Proof.
  intros Hok. unfold pmm_init. destruct (list_find _ mm) as [[i spot]|] eqn:E.
  - apply list_find_Some in E as (Hi & [Hu Hlen] & _). exists spot.
    apply list_elem_of_lookup_2 in Hi. split; [done|]. split; [done|].
    destruct (push_all_spec (base spot) (base spot + total_pages mm * 8) mm [] Hok)
      as (H1 & H2 & H3); [apply NoDup_nil_2|set_solver|].
    unfold push_all in *. cbn [length] in H3. split; [lia|]. split; [done|]. intros p. rewrite H2, outside_true. split; [|by right].
    by intros [[]%elem_of_nil|H].
  - intros e He Hu. apply list_find_None, Forall_forall with (x := e) in E; [|done].
    destruct (Z.lt_ge_cases (length_ e) (total_pages mm * 8)); [done|]. by destruct E.
Qed.

Lemma pmm_init_free_pages_witness :
  memmap_ok [MemmapEntry 4096 8192 true; MemmapEntry 0x10000 4096 false; MemmapEntry 0x20000 8192 true] /\
  exists st, pmm_init [MemmapEntry 4096 8192 true; MemmapEntry 0x10000 4096 false;
    MemmapEntry 0x20000 8192 true] = Some st /\ NoDup st.
Proof.
  set (mm := [MemmapEntry 4096 8192 true; MemmapEntry 0x10000 4096 false;
    MemmapEntry 0x20000 8192 true]).
  assert (Hok : memmap_ok mm).
  { split.
    - intros e He Hu. unfold mm in He. rewrite !elem_of_cons in He.
      destruct He as [->|[->|[->|[]%elem_of_nil]]]; try done; vm_compute; repeat split; discriminate.
    - intros i j e f Hi Hj Hij Hu Hf. unfold mm in Hi, Hj.
      destruct i as [|[|[|i]]], j as [|[|[|j]]]; try done; cbn in Hi, Hj;
        injection Hi as <-; injection Hj as <-; cbn; try lia; try done. }
  split; [exact Hok|].
  pose proof (pmm_init_free_pages mm Hok) as H.
  destruct (pmm_init mm) as [st|] eqn:E; [|vm_compute in E; discriminate].
  exists st. destruct H as (? & _ & _ & _ & H & _). split; [reflexivity|exact H].
Defined.
