(* ===== verification/KString.v ===== *)
(** The kernel's C library: src/kernel/lib/string.c, and the four string
    routines of src/commands/commands.c.  Memory is a function from addresses to
    bytes, so that a copy and its overlapping source share the same store.
    Counted loops run on the count; loops that run to a terminating NUL take
    fuel and return [None] when it is not enough. *)
From Stdlib Require Import ZArith Lia.
From stdpp Require Import base numbers list.
From S2P Require Import Prelude.

Definition memory : Type := Z -> Z.

Definition store (a v : Z) (m : memory) : memory := fun x => if x =? a then v else m x.

(** ** Counted operations *)

(** [while (n--) *d++ = *s++;] *)
Fixpoint copy_up (n : nat) (d s : Z) (m : memory) : memory :=
  match n with
  | O => m
  | S n => copy_up n (d + 1) (s + 1) (store d (m s) m)
  end.

(** [while (n--) *--d_end = *--s_end;] *)
Fixpoint copy_down (n : nat) (d_end s_end : Z) (m : memory) : memory :=
  match n with
  | O => m
  | S n => copy_down n (d_end - 1) (s_end - 1) (store (d_end - 1) (m (s_end - 1)) m)
  end.

Definition memcpy (dest src n : Z) (m : memory) : memory := copy_up (Z.to_nat n) dest src m.

Fixpoint memset_loop (n : nat) (p c : Z) (m : memory) : memory :=
  match n with
  | O => m
  | S n => memset_loop n (p + 1) c (store p (u8 c) m)
  end.

Definition memset (s c n : Z) (m : memory) : memory := memset_loop (Z.to_nat n) s c m.

Definition memmove (dest src n : Z) (m : memory) : memory :=
  if dest <? src then copy_up (Z.to_nat n) dest src m
  else copy_down (Z.to_nat n) (dest + n) (src + n) m.

Fixpoint memcmp_loop (n : nat) (p1 p2 : Z) (m : memory) : Z :=
  match n with
  | O => 0
  | S n => if negb (m p1 =? m p2) then m p1 - m p2 else memcmp_loop n (p1 + 1) (p2 + 1) m
  end.

Definition memcmp (s1 s2 n : Z) (m : memory) : Z := memcmp_loop (Z.to_nat n) s1 s2 m.

(** ** Searching a string.  The result is the pointer, 0 for NULL. *)

Fixpoint strlen (fuel : nat) (s : Z) (m : memory) : option Z :=
  match fuel with
  | O => None
  | S fuel => if m s =? 0 then Some 0 else l ← strlen fuel (s + 1) m; Some (1 + l)
  end.

Fixpoint strchr (fuel : nat) (s c : Z) (m : memory) : option Z :=
  match fuel with
  | O => None
  | S fuel =>
      if negb (m s =? 0) then
        if m s =? u8 c then Some s else strchr fuel (s + 1) c m
      else Some (if c =? 0 then s else 0)
  end.

Fixpoint strrchr_loop (fuel : nat) (s c last : Z) (m : memory) : option Z :=
  match fuel with
  | O => None
  | S fuel =>
      if negb (m s =? 0) then
        strrchr_loop fuel (s + 1) c (if m s =? u8 c then s else last) m
      else Some (if c =? 0 then s else last)
  end.

Definition strrchr (fuel : nat) (s c : Z) (m : memory) : option Z := strrchr_loop fuel s c 0 m.

(** [while ( *q && *p == *q) { p++; q++; }]: where q stops. *)
Fixpoint strstr_match (fuel : nat) (p q : Z) (m : memory) : option Z :=
  match fuel with
  | O => None
  | S fuel =>
      if negb (m q =? 0) && (m p =? m q) then strstr_match fuel (p + 1) (q + 1) m else Some q
  end.

Fixpoint strstr_loop (fuel : nat) (h n : Z) (m : memory) : option Z :=
  match fuel with
  | O => None
  | S fuel' =>
      if negb (m h =? 0) then
        q ← strstr_match fuel h n m;
        if m q =? 0 then Some h else strstr_loop fuel' (h + 1) n m
      else Some 0
  end.

Definition strstr (fuel : nat) (h n : Z) (m : memory) : option Z :=
  if m n =? 0 then Some h else strstr_loop fuel h n m.

(** ** Comparison *)

Fixpoint strcmp (fuel : nat) (s1 s2 : Z) (m : memory) : option Z :=
  match fuel with
  | O => None
  | S fuel =>
      if negb (m s1 =? 0) && (m s1 =? m s2) then strcmp fuel (s1 + 1) (s2 + 1) m
      else Some (m s1 - m s2)
  end.

(** The counter is an [int] that only stops at 0: a negative [n] is unbounded. *)
Fixpoint strncmp (fuel : nat) (s1 s2 n : Z) (m : memory) : option Z :=
  match fuel with
  | O => None
  | S fuel =>
      if negb (n =? 0) && negb (m s1 =? 0) && (m s1 =? m s2)
      then strncmp fuel (s1 + 1) (s2 + 1) (n - 1) m
      else if n =? 0 then Some 0 else Some (m s1 - m s2)
  end.

Definition klib_tolower (c : Z) : Z := if (65 <=? c) && (c <=? 90) then c + 32 else c.

Fixpoint strcasecmp (fuel : nat) (s1 s2 : Z) (m : memory) : option Z :=
  match fuel with
  | O => None
  | S fuel =>
      if negb (m s1 =? 0) && negb (m s2 =? 0) then
        let c1 := klib_tolower (m s1) in
        let c2 := klib_tolower (m s2) in
        if negb (c1 =? c2) then Some (c1 - c2) else strcasecmp fuel (s1 + 1) (s2 + 1) m
      else Some (m s1 - m s2)
  end.

Fixpoint strncasecmp_loop (fuel : nat) (i s1 s2 n : Z) (m : memory) : option Z :=
  match fuel with
  | O => None
  | S fuel =>
      if (i <? n) && negb (m s1 =? 0) && negb (m s2 =? 0) then
        let c1 := klib_tolower (m s1) in
        let c2 := klib_tolower (m s2) in
        if negb (c1 =? c2) then Some (c1 - c2)
        else strncasecmp_loop fuel (i + 1) (s1 + 1) (s2 + 1) n m
      else if i =? n then Some 0 else Some (m s1 - m s2)
  end.

Definition strncasecmp (fuel : nat) (s1 s2 n : Z) (m : memory) : option Z :=
  strncasecmp_loop fuel 0 s1 s2 n m.

(** ** Copying *)

Fixpoint strcpy (fuel : nat) (dest src : Z) (m : memory) : option memory :=
  match fuel with
  | O => None
  | S fuel =>
      let c := m src in
      let m := store dest c m in
      if c =? 0 then Some m else strcpy fuel (dest + 1) (src + 1) m
  end.

Fixpoint strncpy_copy (fuel : nat) (i dest src n : Z) (m : memory) : Z * memory :=
  match fuel with
  | O => (i, m)
  | S fuel =>
      if (i <? n) && negb (m (src + i) =? 0)
      then strncpy_copy fuel (i + 1) dest src n (store (dest + i) (m (src + i)) m)
      else (i, m)
  end.

Fixpoint strncpy_pad (fuel : nat) (i dest n : Z) (m : memory) : memory :=
  match fuel with
  | O => m
  | S fuel => if i <? n then strncpy_pad fuel (i + 1) dest n (store (dest + i) 0 m) else m
  end.

Definition strncpy (dest src n : Z) (m : memory) : memory :=
  let '(i, m) := strncpy_copy (Z.to_nat n) 0 dest src n m in
  strncpy_pad (Z.to_nat n) i dest n m.

(** [while ( *d) d++;] *)
Fixpoint str_end (fuel : nat) (d : Z) (m : memory) : option Z :=
  match fuel with
  | O => None
  | S fuel => if m d =? 0 then Some d else str_end fuel (d + 1) m
  end.

Fixpoint strcat_copy (fuel : nat) (d src : Z) (m : memory) : option memory :=
  match fuel with
  | O => None
  | S fuel =>
      if negb (m src =? 0) then strcat_copy fuel (d + 1) (src + 1) (store d (m src) m)
      else Some (store d 0 m)
  end.

Definition strcat (fuel : nat) (dest src : Z) (m : memory) : option memory :=
  d ← str_end fuel dest m; strcat_copy fuel d src m.

Fixpoint strncat_copy (fuel : nat) (i d src n : Z) (m : memory) : memory :=
  match fuel with
  | O => store d 0 m
  | S fuel =>
      if (i <? n) && negb (m (src + i) =? 0)
      then strncat_copy fuel (i + 1) (d + 1) src n (store d (m (src + i)) m)
      else store d 0 m
  end.

Definition strncat (fuel : nat) (dest src n : Z) (m : memory) : option memory :=
  d ← str_end fuel dest m; Some (strncat_copy (Z.to_nat n) 0 d src n m).
