(* ===== verification/KStringProps.v ===== *)
(** Properties of the kernel's memory and string routines. *)
From Stdlib Require Import ZArith Lia.
From stdpp Require Import base numbers list.
From S2P Require Import Prelude KString.

(** The bytes [bs] are stored at [a]. *)
Definition holds (m : memory) (a : Z) (bs : list Z) : Prop :=
  forall i b, bs !! i = Some b -> m (a + Z.of_nat i) = b.

(** A C string at [a] with the characters [bs]. *)
Definition cstring (m : memory) (a : Z) (bs : list Z) : Prop :=
  holds m a (bs ++ [0]) /\ is_cstr bs.

(** The memory [m] with [bs] written at [a]. *)
Definition written (m : memory) (a : Z) (bs : list Z) : memory :=
  fun x => if decide (a <= x) then default (m x) (bs !! Z.to_nat (x - a)) else m x.

Lemma store_eq a v m : store a v m a = v.
Proof. unfold store. by rewrite Z.eqb_refl. Qed.

Lemma store_ne a v m x : x <> a -> store a v m x = m x.
Proof. unfold store. intros. by destruct (Z.eqb_spec x a). Qed.

Lemma written_nil m a x : written m a [] x = m x.
Proof. unfold written. by destruct (decide _). Qed.

Lemma written_cons m a b bs x : written m a (b :: bs) x = written (store a b m) (a + 1) bs x.
Proof.
  unfold written. destruct (decide (a <= x)).
  - destruct (decide (x = a)) as [->|].
    + rewrite Z.sub_diag, decide_False by lia. simpl. by rewrite store_eq.
    + rewrite decide_True by lia. replace (Z.to_nat (x - a)) with (S (Z.to_nat (x - (a + 1)))) by lia.
      simpl. by rewrite store_ne.
  - rewrite decide_False, store_ne by lia. done.
Qed.

Lemma written_ext m m' a bs x : (forall y, m y = m' y) -> written m a bs x = written m' a bs x.
Proof. intros H. unfold written. by rewrite H. Qed.

Lemma written_app m a bs cs x :
  written m a (bs ++ cs) x = written (written m a bs) (a + Z.of_nat (length bs)) cs x.
Proof.
  unfold written. destruct (decide (a <= x)).
  - rewrite lookup_app. destruct (bs !! Z.to_nat (x - a)) as [b|] eqn:E.
    + apply lookup_lt_Some in E. rewrite decide_False by lia. done.
    + apply lookup_ge_None in E. rewrite decide_True by lia. do 2 f_equal. lia.
  - by rewrite decide_False by lia.
Qed.

(** ** Copying *)

Lemma copy_up_spec n d s m x :
  d <= s \/ s + Z.of_nat n <= d ->
  copy_up n d s m x = if decide (d <= x < d + Z.of_nat n) then m (s + (x - d)) else m x.
Proof.
  revert d s m. induction n as [|n IH]; intros d s m Hds.
  - by rewrite decide_False by lia.
  - simpl. rewrite IH by lia. unfold store.
    destruct (decide (d + 1 <= x < d + 1 + Z.of_nat n)).
    + rewrite decide_True by lia. destruct (Z.eqb_spec (s + 1 + (x - (d + 1))) d); [lia|].
      f_equal. lia.
    + destruct (Z.eqb_spec x d) as [->|].
      * rewrite decide_True by lia. f_equal. lia.
      * by rewrite decide_False by lia.
Qed.

Lemma copy_down_spec n d s m x :
  s <= d ->
  copy_down n (d + Z.of_nat n) (s + Z.of_nat n) m x =
    if decide (d <= x < d + Z.of_nat n) then m (s + (x - d)) else m x.
Proof.
  revert m. induction n as [|n IH]; intros m Hds.
  - by rewrite decide_False by lia.
  - cbn [copy_down]. replace (d + Z.of_nat (S n) - 1) with (d + Z.of_nat n) by lia.
    replace (s + Z.of_nat (S n) - 1) with (s + Z.of_nat n) by lia.
    rewrite IH by lia. unfold store. destruct (decide (d <= x < d + Z.of_nat n)).
    + rewrite decide_True by lia. by destruct (Z.eqb_spec (s + (x - d)) (d + Z.of_nat n)); [lia|].
    + destruct (Z.eqb_spec x (d + Z.of_nat n)) as [->|].
      * rewrite decide_True by lia. f_equal. lia.
      * by rewrite decide_False by lia.
Qed.

(** Copying upwards keeps the period of what has been copied. *)
Lemma copy_up_period k dest src j (m m' : memory) y :
  src < dest -> 0 <= j ->
  (forall y, dest <= y < dest + j -> m' y = m (src + (y - dest) mod (dest - src))) ->
  (forall y, src <= y < dest -> m' y = m y) ->
  dest <= y < dest + j + Z.of_nat k ->
  copy_up k (dest + j) (src + j) m' y = m (src + (y - dest) mod (dest - src)).
Proof.
  revert j m'. induction k as [|k IH]; intros j m' Hlt Hj H1 H2 Hy; cbn [copy_up].
  - apply H1. lia.
  - replace (dest + j + 1) with (dest + (j + 1)) by lia.
    replace (src + j + 1) with (src + (j + 1)) by lia.
    apply IH; try lia.
    + intros z Hz. unfold store. destruct (Z.eqb_spec z (dest + j)) as [->|]; [|apply H1; lia].
      replace (dest + j - dest) with j by lia.
      destruct (Z.lt_ge_cases j (dest - src)).
      * rewrite Z.mod_small by lia. apply H2. lia.
      * rewrite H1 by lia. do 2 f_equal. replace (src + j - dest) with (j + (-1) * (dest - src)) by lia.
        apply Z.mod_add. lia.
    + intros z Hz. rewrite store_ne by lia. by apply H2.
Qed.

(** C16. [memmove] copies the bytes the source held before the call, for every
    overlap of the two ranges and in either direction, and writes nothing
    outside the destination; [memcpy] does the same whenever its destination does
    not start inside the source, and otherwise repeats the bytes between the two
    starts. *)
Theorem memmove_copies dest src n m x :
  0 <= n ->
  memmove dest src n m x =
    (if decide (dest <= x < dest + n) then m (src + (x - dest)) else m x) /\
  (dest <= src \/ src + n <= dest -> memcpy dest src n m x = memmove dest src n m x) /\
  (src < dest < src + n -> dest <= x < dest + n ->
     memcpy dest src n m x = m (src + (x - dest) mod (dest - src))).
Proof.
  intros Hn.
  assert (Hmv : memmove dest src n m x =
    if decide (dest <= x < dest + n) then m (src + (x - dest)) else m x).
  { unfold memmove. destruct (Z.ltb_spec dest src).
    - rewrite copy_up_spec by lia. by rewrite Z2Nat.id.
    - rewrite <-(Z2Nat.id n Hn) at 2 3. rewrite copy_down_spec by lia. by rewrite Z2Nat.id. }
  split; [done|]. split.
  - intros Hd. rewrite Hmv. unfold memcpy. rewrite copy_up_spec; rewrite Z2Nat.id; (done || lia).
  - intros Hd Hx. unfold memcpy.
    pose proof (copy_up_period (Z.to_nat n) dest src 0 m m) as H. rewrite !Z.add_0_r in H.
    apply H; lia || done.
Qed.

Lemma memmove_copies_witness :
  memmove 1 0 3 (fun x => x) 3 = 2 /\ memcpy 1 0 3 (fun x => x) 3 = 0.
Proof.
  destruct (memmove_copies 1 0 3 (fun x => x) 3) as (H1 & _ & H2); [lia|].
  split; [rewrite H1; reflexivity|]. rewrite H2 by lia. reflexivity.
Defined.

(** ** Strings *)

Lemma holds_cons m a b bs : holds m a (b :: bs) <-> m a = b /\ holds m (a + 1) bs.
Proof.
  unfold holds. split.
  - intros H. split; [by rewrite <-(Z.add_0_r a); apply (H 0%nat)|].
    intros i c Hi. rewrite <-(H (S i) c Hi). f_equal. lia.
  - intros [Ha H] [|i] c Hi; simpl in Hi.
    + injection Hi as <-. by rewrite Z.add_0_r.
    + rewrite <-(H i c Hi). f_equal. lia.
Qed.

Lemma holds_app m a bs cs :
  holds m a (bs ++ cs) <-> holds m a bs /\ holds m (a + Z.of_nat (length bs)) cs.
Proof.
  revert a. induction bs as [|b bs IH]; intros a.
  - simpl. rewrite Z.add_0_r. split; [|naive_solver]. intros. split; [|done]. by intros i b ?.
  - rewrite <-app_comm_cons, !holds_cons, IH. simpl length.
    replace (a + 1 + Z.of_nat (length bs)) with (a + Z.of_nat (S (length bs))) by lia. tauto.
Qed.

Lemma cstring_nil m a : cstring m a [] <-> m a = 0.
Proof.
  unfold cstring. simpl. rewrite holds_cons. split; [tauto|]. intros.
  split; [split; [done|by intros ? ? ?]|by apply Forall_nil_2].
Qed.

Lemma cstring_cons m a c cs :
  cstring m a (c :: cs) <-> m a = c /\ 0 < c < 256 /\ cstring m (a + 1) cs.
Proof.
  unfold cstring, is_cstr. rewrite <-app_comm_cons, holds_cons, Forall_cons. tauto.
Qed.

Lemma cstring_suffix m a bs cs :
  cstring m a (bs ++ cs) -> cstring m (a + Z.of_nat (length bs)) cs.
Proof.
  unfold cstring, is_cstr. rewrite <-app_assoc, holds_app, Forall_app. tauto.
Qed.

(** The reference comparison: the first difference, a string's end being 0. *)
Fixpoint compare_bytes (a b : list Z) : Z :=
  match a, b with
  | [], [] => 0
  | [], y :: _ => - y
  | x :: _, [] => x
  | x :: a, y :: b => if x =? y then compare_bytes a b else x - y
  end.

(** Lexicographic order. *)
Fixpoint lex_lt (a b : list Z) : Prop :=
  match a, b with
  | [], [] => False
  | [], _ :: _ => True
  | _ :: _, [] => False
  | x :: a, y :: b => x < y \/ (x = y /\ lex_lt a b)
  end.

Lemma compare_bytes_zero a b : is_cstr a -> is_cstr b -> compare_bytes a b = 0 <-> a = b.
Proof.
  intros Ha. revert b. induction Ha as [|x a Hx Ha IH]; intros b Hb; destruct Hb as [|y b Hy Hb]; simpl.
  - done.
  - split; [lia|done].
  - split; [lia|done].
  - destruct (Z.eqb_spec x y) as [->|].
    + rewrite IH by done. naive_solver.
    + split; [lia|]. intros [= -> _]. done.
Qed.

Lemma compare_bytes_lt a b : is_cstr a -> is_cstr b -> compare_bytes a b < 0 <-> lex_lt a b.
Proof.
  intros Ha. revert b. induction Ha as [|x a Hx Ha IH]; intros b Hb; destruct Hb as [|y b Hy Hb]; simpl.
  - lia.
  - split; [done|lia].
  - split; [lia|done].
  - destruct (Z.eqb_spec x y) as [->|].
    + rewrite IH by done. split; [tauto|]. intros [|[_ H]]; [lia|done].
    + split; [lia|]. intros [|[? _]]; lia.
Qed.

Lemma strcmp_compare fuel m a b s1 s2 :
  cstring m s1 a -> cstring m s2 b -> (length a < fuel)%nat ->
  strcmp fuel s1 s2 m = Some (compare_bytes a b).
Proof.
  revert a b s1 s2. induction fuel as [|fuel IH]; intros a b s1 s2 Ha Hb Hf; [lia|].
  cbn [strcmp]. destruct a as [|x a].
  - apply cstring_nil in Ha. rewrite Ha. simpl. destruct b as [|y b].
    + apply cstring_nil in Hb. by rewrite Hb.
    + by apply cstring_cons in Hb as (-> & _ & _).
  - apply cstring_cons in Ha as (-> & ? & Ha). destruct (Z.eqb_spec x 0); [lia|]. simpl.
    destruct b as [|y b].
    + apply cstring_nil in Hb. rewrite Hb. destruct (Z.eqb_spec x 0); [lia|]. f_equal. lia.
    + apply cstring_cons in Hb as (-> & ? & Hb). destruct (Z.eqb_spec x y); [|done].
      apply IH; [done..|]. simpl in Hf. lia.
Qed.

Lemma tolower_pos c : 0 < c < 256 -> 0 < klib_tolower c < 256.
Proof. unfold klib_tolower. destruct (Z.leb_spec 65 c), (Z.leb_spec c 90); cbn; lia. Qed.

Lemma Forall_tolower a : is_cstr a -> is_cstr (klib_tolower <$> a).
Proof. intros. apply Forall_fmap. eapply Forall_impl; [done|]. apply tolower_pos. Qed.

(** The first strings where only one side ends are compared without folding
    the case; the sign is that of the folded comparison all the same. *)
Lemma strcasecmp_compare fuel m a b s1 s2 :
  cstring m s1 a -> cstring m s2 b -> (length a < fuel)%nat ->
  exists r, strcasecmp fuel s1 s2 m = Some r /\
    Z.sgn r = Z.sgn (compare_bytes (klib_tolower <$> a) (klib_tolower <$> b)).
Proof.
  revert a b s1 s2. induction fuel as [|fuel IH]; intros a b s1 s2 Ha Hb Hf; [lia|].
  cbn [strcasecmp]. destruct a as [|x a].
  - apply cstring_nil in Ha. rewrite Ha. simpl. destruct b as [|y b].
    + apply cstring_nil in Hb. rewrite Hb. eauto.
    + apply cstring_cons in Hb as (-> & Hy & _). eexists. split; [done|]. cbn [fmap list_fmap compare_bytes].
      pose proof (tolower_pos y Hy). rewrite !Z.sgn_neg; lia.
  - apply cstring_cons in Ha as (-> & Hx & Ha). destruct (Z.eqb_spec x 0); [lia|].
    destruct b as [|y b].
    + apply cstring_nil in Hb. rewrite Hb. eexists. split; [done|]. cbn [fmap list_fmap compare_bytes].
      pose proof (tolower_pos x Hx). rewrite !Z.sgn_pos; lia.
    + apply cstring_cons in Hb as (-> & Hy & Hb). destruct (Z.eqb_spec y 0); [lia|].
      cbn [negb andb fmap list_fmap compare_bytes].
      destruct (Z.eqb_spec (klib_tolower x) (klib_tolower y)); [|eauto].
      cbn [negb]. apply IH; [done..|]. simpl in Hf. lia.
Qed.

(** The kernel's [strcmp] and [strcasecmp] always return (no more steps
    than the first string is long) and order C strings lexicographically by
    unsigned bytes: the result is 0 exactly for equal strings and negative
    exactly when the first one comes before the second, for [strcasecmp] after
    folding upper case to lower case. *)
Theorem strcmp_orders fuel m a b s1 s2 :
  cstring m s1 a -> cstring m s2 b -> (length a < fuel)%nat ->
  (exists r, strcmp fuel s1 s2 m = Some r /\ (r = 0 <-> a = b) /\ (r < 0 <-> lex_lt a b)) /\
  (exists r, strcasecmp fuel s1 s2 m = Some r /\
     let la := klib_tolower <$> a in let lb := klib_tolower <$> b in
     (r = 0 <-> la = lb) /\ (r < 0 <-> lex_lt la lb)).
Proof.
  intros Ha Hb Hf. pose proof (proj2 Ha) as Ca. pose proof (proj2 Hb) as Cb. split.
  - exists (compare_bytes a b). split; [by apply strcmp_compare|].
    split; [by apply compare_bytes_zero|by apply compare_bytes_lt].
  - destruct (strcasecmp_compare fuel m a b s1 s2 Ha Hb Hf) as (r & Hr & Hs).
    exists r. split; [done|]. cbv zeta.
    rewrite <-compare_bytes_zero, <-compare_bytes_lt by (by apply Forall_tolower).
    split; [rewrite <-Z.sgn_null_iff, Hs|rewrite <-Z.sgn_neg_iff, Hs];
      [apply Z.sgn_null_iff|apply Z.sgn_neg_iff].
Qed.

(** Memory with "aB" at 100 and "ab" at 200. *)
Definition two_strings : memory :=
  fun x => if x =? 100 then 97 else if x =? 101 then 66 else
           if x =? 200 then 97 else if x =? 201 then 98 else 0.

Lemma two_strings_ok : cstring two_strings 100 [97; 66] /\ cstring two_strings 200 [97; 98].
Proof. by rewrite !cstring_cons, !cstring_nil. Qed.

Lemma strcmp_orders_witness :
  strcmp 3 100 200 two_strings = Some (-32) /\ lex_lt [97; 66] [97; 98] /\
  strcasecmp 3 100 200 two_strings = Some 0.
Proof.
  destruct two_strings_ok as [Ha Hb].
  destruct (strcmp_orders 3 two_strings _ _ 100 200 Ha Hb) as [(r & Hr & _ & Hlt) (r' & Hr' & Heq & _)];
    [cbn; lia|].
  split; [reflexivity|]. split.
  - apply Hlt. vm_compute in Hr. injection Hr as <-. lia.
  - rewrite Hr'. f_equal. by apply Heq.
Defined.

(** ** Searching *)

Lemma strstr_match_spec fuel m p q ps qs :
  cstring m p ps -> cstring m q qs -> (length ps < fuel)%nat ->
  exists r, strstr_match fuel p q m = Some r /\ (m r = 0 <-> qs `prefix_of` ps).
Proof.
  revert p q ps qs. induction fuel as [|fuel IH]; intros p q ps qs Hp Hq Hf; [lia|].
  cbn [strstr_match]. destruct qs as [|y qs].
  - apply cstring_nil in Hq. rewrite Hq. exists q. split; [done|].
    split; [intros _; apply prefix_nil|done].
  - apply cstring_cons in Hq as (Hy & Hy0 & Hq). rewrite Hy.
    destruct (Z.eqb_spec y 0); [lia|]. cbn [negb andb]. destruct ps as [|x ps].
    + apply cstring_nil in Hp. rewrite Hp. destruct (Z.eqb_spec 0 y); [lia|].
      exists q. split; [done|]. split; [lia|]. intros [k [=]].
    + apply cstring_cons in Hp as (Hx & _ & Hp). rewrite Hx. destruct (Z.eqb_spec x y) as [->|].
      * destruct (IH _ _ _ _ Hp Hq) as (r & Hr & Hz); [simpl in Hf; lia|].
        exists r. split; [done|]. rewrite Hz. split; [apply prefix_cons|apply prefix_cons_inv_2].
      * exists q. split; [done|]. split; [lia|]. by intros ?%prefix_cons_inv_1.
Qed.

Lemma strstr_loop_spec fuel m h n hs ns :
  cstring m h hs -> cstring m n ns -> ns <> [] -> (length hs < fuel)%nat ->
  exists r, strstr_loop fuel h n m = Some r /\
    ((exists i, r = h + Z.of_nat i /\ (ns `prefix_of` drop i hs) /\
        forall j, (j < i)%nat -> ~ ns `prefix_of` drop j hs) \/
     (r = 0 /\ forall j, ~ ns `prefix_of` drop j hs)).
Proof.
  intros Hh Hn Hne. revert h hs Hh. induction fuel as [|fuel IH]; intros h hs Hh Hf; [lia|].
  cbn [strstr_loop]. destruct hs as [|x hs].
  - pose proof (proj1 (cstring_nil _ _) Hh) as H0. rewrite H0. exists 0. split; [done|]. right.
    split; [done|]. intros j. rewrite drop_nil. by intros ->%prefix_nil_inv.
  - pose proof Hh as Hh'. apply cstring_cons in Hh' as (Hx & Hx0 & Hh').
    destruct (Z.eqb_spec (m h) 0); [lia|]. cbn [negb].
    destruct (strstr_match_spec (S fuel) m h n _ _ Hh Hn Hf) as (q & Hq & Hz).
    rewrite Hq. cbn [mbind option_bind]. destruct (Z.eqb_spec (m q) 0) as [E|E].
    + exists h. split; [done|]. left. exists 0%nat. split; [lia|]. split; [by apply Hz|]. lia.
    + destruct (IH (h + 1) hs Hh') as (r & Hr & Hcase); [simpl in Hf; lia|].
      exists r. split; [done|]. rewrite Hz in E. destruct Hcase as [(i & -> & Hi & Hmin)|[-> Hmin]].
      * left. exists (S i). split; [lia|]. split; [done|].
        intros [|j] Hj; [done|]. apply Hmin. lia.
      * right. split; [done|]. intros [|j]; [done|]. apply Hmin.
Qed.

(** [strstr] returns a pointer to the first occurrence of the needle, and
    NULL exactly when it occurs nowhere. *)
Theorem strstr_first fuel m h n hs ns :
  cstring m h hs -> cstring m n ns -> (length hs < fuel)%nat ->
  exists r, strstr fuel h n m = Some r /\
    ((exists i, r = h + Z.of_nat i /\ (ns `prefix_of` drop i hs) /\
        forall j, (j < i)%nat -> ~ ns `prefix_of` drop j hs) \/
     (r = 0 /\ forall j, ~ ns `prefix_of` drop j hs)).
Proof.
  intros Hh Hn Hf. unfold strstr. destruct ns as [|y ns].
  - apply cstring_nil in Hn. rewrite Hn. exists h. split; [done|]. left. exists 0%nat.
    split; [lia|]. split; [apply prefix_nil|lia].
  - pose proof (proj1 (cstring_cons _ _ _ _) Hn) as (Hy & ? & _).
    destruct (Z.eqb_spec (m n) 0); [lia|]. by apply strstr_loop_spec.
Qed.

Lemma strstr_first_witness :
  strstr 3 100 201 (fun x => if x =? 201 then 66 else two_strings x) = Some 101.
Proof.
  set (m := fun x => if x =? 201 then 66 else two_strings x).
  assert (Hh : cstring m 100 [97; 66]) by (by rewrite !cstring_cons, !cstring_nil).
  assert (Hn : cstring m 201 [66]) by (by rewrite !cstring_cons, !cstring_nil).
  destruct (strstr_first 3 m 100 201 _ _ Hh Hn) as (r & Hr & [(i & -> & Hp & Hm)|[-> H]]).
  - cbn; lia.
  - rewrite Hr. destruct i as [|[|i]].
    + by destruct Hp as [k [=]].
    + reflexivity.
    + destruct (Hm 1%nat); [lia|]. by exists [].
  - destruct (H 1%nat). by exists [].
Defined.

(** ** Bounded copies *)

Lemma holds_frame m m' a bs :
  (forall x, a <= x < a + Z.of_nat (length bs) -> m' x = m x) -> holds m a bs -> holds m' a bs.
Proof.
  intros Hx H i b Hi. rewrite Hx; [by apply H|]. apply lookup_lt_Some in Hi. lia.
Qed.

Lemma cstring_frame m m' a bs :
  (forall x, a <= x <= a + Z.of_nat (length bs) -> m' x = m x) -> cstring m a bs -> cstring m' a bs.
Proof.
  intros Hx [H Hc]. split; [|done]. eapply holds_frame; [|done].
  intros x. rewrite length_app. simpl. intros. apply Hx. lia.
Qed.

Lemma cstring_store m d v a bs :
  d < a \/ a + Z.of_nat (length bs) < d -> cstring m a bs -> cstring (store d v m) a bs.
Proof. intros Hd. apply cstring_frame. intros x Hx. apply store_ne. lia. Qed.

Lemma strncat_copy_spec fuel m i d src n bs x :
  cstring m (src + i) bs -> n = i + Z.of_nat fuel ->
  d + Z.of_nat (min fuel (length bs)) < src + i \/ src + i + Z.of_nat (length bs) < d ->
  strncat_copy fuel i d src n m x = written m d (take fuel bs ++ [0]) x.
Proof.
  revert m i d bs. induction fuel as [|fuel IH]; intros m i d bs Hs Hn Hd; cbn [strncat_copy].
  { rewrite take_0. cbn [app]. by rewrite written_cons, written_nil. }
  destruct (Z.ltb_spec i n); [|lia]. destruct bs as [|b bs].
  - apply cstring_nil in Hs. rewrite Hs. cbn. by rewrite written_cons, written_nil.
  - apply cstring_cons in Hs as (Hb & ? & Hs). rewrite Hb.
    destruct (Z.eqb_spec b 0); [lia|]. cbn [negb andb take app]. rewrite written_cons.
    apply IH; [|lia|cbn [length] in Hd; lia].
    replace (src + (i + 1)) with (src + i + 1) by lia.
    apply cstring_store; [cbn [length] in Hd; lia|done].
Qed.

Lemma str_end_spec fuel m d bs :
  cstring m d bs -> (length bs < fuel)%nat -> str_end fuel d m = Some (d + Z.of_nat (length bs)).
Proof.
  revert d bs. induction fuel as [|fuel IH]; intros d bs Hd Hf; [lia|]. cbn [str_end].
  destruct bs as [|b bs].
  - apply cstring_nil in Hd. rewrite Hd. cbn. f_equal. lia.
  - apply cstring_cons in Hd as (-> & ? & Hd). destruct (Z.eqb_spec b 0); [lia|].
    rewrite (IH _ bs) by (done || (cbn in Hf; lia)). f_equal. cbn [length]. lia.
Qed.

Lemma strncpy_pad_spec fuel m i dest n x :
  n <= i + Z.of_nat fuel ->
  strncpy_pad fuel i dest n m x = written m (dest + i) (replicate (Z.to_nat (n - i)) 0) x.
Proof.
  revert m i. induction fuel as [|fuel IH]; intros m i Hn; cbn [strncpy_pad].
  - replace (Z.to_nat (n - i)) with 0%nat by lia. by rewrite written_nil.
  - destruct (Z.ltb_spec i n).
    + rewrite IH by lia. replace (Z.to_nat (n - i)) with (S (Z.to_nat (n - (i + 1)))) by lia.
      cbn [replicate]. rewrite written_cons. f_equal. lia.
    + replace (Z.to_nat (n - i)) with 0%nat by lia. by rewrite written_nil.
Qed.

Lemma strncpy_copy_spec fuel m i dest src n bs :
  cstring m (src + i) bs -> n = i + Z.of_nat fuel -> 
  dest + n <= src + i \/ src + i + Z.of_nat (length bs) < dest + i ->
  let r := strncpy_copy fuel i dest src n m in
  fst r = i + Z.of_nat (min fuel (length bs)) /\
  forall x, snd r x = written m (dest + i) (take fuel bs) x.
Proof.
  revert m i bs. induction fuel as [|fuel IH]; intros m i bs Hs Hn Hd; cbn [strncpy_copy].
  { split; [cbn; lia|]. intros x. by rewrite take_0, written_nil. }
  destruct (Z.ltb_spec i n); [|lia]. destruct bs as [|b bs].
  - apply cstring_nil in Hs. rewrite Hs. cbn. split; [lia|]. intros x. by rewrite written_nil.
  - apply cstring_cons in Hs as (Hb & ? & Hs). rewrite Hb.
    destruct (Z.eqb_spec b 0); [lia|]. cbn [negb andb].
    destruct (IH (store (dest + i) b m) (i + 1) bs) as [H1 H2].
    + replace (src + (i + 1)) with (src + i + 1) by lia.
      apply cstring_store; [cbn [length] in Hd; lia|done].
    + lia.
    + cbn [length] in Hd. lia.
    + split; [cbn [length]; lia|]. intros x. rewrite H2. cbn [take]. rewrite written_cons.
      f_equal. lia.
Qed.

(** [strncpy] writes exactly [n] bytes, the string cut at [n] and padded
    with NULs, so a source of [n] characters or more leaves no terminator;
    [strncat] appends at most [n] characters to the destination string and
    always terminates it. *)
Theorem strncpy_strncat_bounded m dest src n fuel bs ds :
  cstring m src bs -> 0 <= n ->
  (dest + n <= src \/ src + Z.of_nat (length bs) < dest ->
   forall x, strncpy dest src n m x =
     written m dest (take (Z.to_nat n) (bs ++ replicate (Z.to_nat n) 0)) x) /\
  (cstring m dest ds -> (length ds < fuel)%nat ->
   dest + Z.of_nat (length ds) + n < src \/ src + Z.of_nat (length bs) < dest ->
   exists m', strncat fuel dest src n m = Some m' /\
     cstring m' dest (ds ++ take (Z.to_nat n) bs) /\
     forall x, x < dest + Z.of_nat (length ds) \/ dest + Z.of_nat (length ds) + n < x -> m' x = m x).
Proof.
  intros Hs Hn. split.
  - intros Hd x. unfold strncpy.
    destruct (strncpy_copy_spec (Z.to_nat n) m 0 dest src n bs) as [H1 H2].
    + by rewrite Z.add_0_r.
    + lia.
    + lia.
    + destruct (strncpy_copy _ _ _ _ _ m) as [i m1]. cbn [fst snd] in *. subst i.
      rewrite strncpy_pad_spec by lia. rewrite (written_ext _ _ _ _ _ H2).
      rewrite Z.add_0_r. rewrite take_app, written_app. f_equal.
      * rewrite length_take. lia.
      * rewrite take_replicate. f_equal. lia.
  - intros Hds Hf Hd. unfold strncat. rewrite (str_end_spec _ _ _ ds) by done.
    cbn [mbind option_bind]. eexists. split; [done|]. 
    assert (Hw : forall x, strncat_copy (Z.to_nat n) 0 (dest + Z.of_nat (length ds)) src n m x =
      written m (dest + Z.of_nat (length ds)) (take (Z.to_nat n) bs ++ [0]) x).
    { intros x. apply strncat_copy_spec; [by rewrite Z.add_0_r|lia|lia]. }
    split.
    + split; [|apply Forall_app; split; [apply Hds|apply Forall_take, Hs]].
      rewrite <-app_assoc. apply holds_app. split.
      * apply (holds_frame m).
        -- intros y Hy. rewrite Hw. unfold written. by rewrite decide_False by lia.
        -- destruct Hds as [Hds _]. by apply holds_app in Hds as [? _].
      * intros i b Hi. rewrite Hw. unfold written. rewrite decide_True by lia.
        replace (Z.to_nat (dest + Z.of_nat (length ds) + Z.of_nat i - (dest + Z.of_nat (length ds))))
          with i by lia. by rewrite Hi.
    + intros y Hy. rewrite Hw. unfold written. destruct (decide _); [|done].
      rewrite lookup_ge_None_2; [done|]. rewrite length_app, length_take. cbn [length]. lia.
Qed.

Lemma strncpy_strncat_bounded_witness :
  strncpy 300 200 1 two_strings 300 = 97 /\
  exists m', strncat 3 100 200 1 two_strings = Some m' /\ cstring m' 100 [97; 66; 97].
Proof.
  destruct two_strings_ok as [Ha Hb].
  destruct (strncpy_strncat_bounded two_strings 300 200 1 3 _ [97; 66] Hb) as [H1 _]; [lia|].
  destruct (strncpy_strncat_bounded two_strings 100 200 1 3 _ [97; 66] Hb) as [_ H2]; [lia|].
  split.
  - rewrite H1 by (cbn; lia). reflexivity.
  - destruct H2 as (m' & Hm & Hc & _); [done|cbn; lia|cbn; lia|]. exists m'. split; [exact Hm|exact Hc].
Defined.
