(* ===== verification/Fs.v ===== *)
(** The RAM file system: src/filesystem/filesystem.c.  The node table is a list
    of 256 records; a slot number is the inode.  A C string is the list of its
    characters; [-1] is [None].  File bodies live in heap blocks: the state
    carries the heap (through [HeapIface.KernelHeap]) and the bytes of every
    block, boot modules included; [stale] gives the bytes a fresh block happens
    to hold. *)
From Stdlib Require Import ZArith Lia.
From stdpp Require Import base numbers list gmap strings.
From S2P Require Import Prelude HeapIface.

Definition MAX_FILES : nat := 256.
Definition MAX_FILENAME : nat := 64.
Definition FS_FLAG_READONLY : Z := 1.
Definition FS_FLAG_HIDDEN : Z := 2.
Definition FS_FLAG_SYSTEM : Z := 4.
Definition FS_FLAG_EXECUTABLE : Z := 8.
Definition FS_FILE : Z := 0.
Definition FS_DIRECTORY : Z := 1.

Record file_t := File {
  name : list Z;
  data : Z;                (* pointer; 0 is NULL *)
  size : Z;
  capacity : Z;            (* 0: no buffer, or one the node does not own *)
  in_use : bool;
  type : Z;
  parent_dir : Z;
  flags : Z;
  creation_time : Z;
  modified_time : Z;
}.

(** [memset(&files[i], 0, sizeof(files[i]))] *)
Definition null_file : file_t := File [] 0 0 0 false FS_FILE 0 0 0 0.

Definition with_name (n : list Z) (f : file_t) : file_t :=
  File n (data f) (size f) (capacity f) (in_use f) (type f) (parent_dir f) (flags f)
    (creation_time f) (modified_time f).
Definition with_parent (p : Z) (f : file_t) : file_t :=
  File (name f) (data f) (size f) (capacity f) (in_use f) (type f) p (flags f)
    (creation_time f) (modified_time f).
Definition with_flags (fl : Z) (f : file_t) : file_t :=
  File (name f) (data f) (size f) (capacity f) (in_use f) (type f) (parent_dir f) fl
    (creation_time f) (modified_time f).
Definition with_body (d sz cap : Z) (f : file_t) : file_t :=
  File (name f) d sz cap (in_use f) (type f) (parent_dir f) (flags f)
    (creation_time f) (modified_time f).
Definition now_stamp (now : Z) (f : file_t) : file_t :=
  File (name f) (data f) (size f) (capacity f) (in_use f) (type f) (parent_dir f) (flags f)
    (u32 now) (u32 now).

Record fs (H : Type) := Fs {
  files : list file_t;
  home_dir_index : Z;
  trash_dir_index : Z;
  desktop_dir_index : Z;
  bin_dir_index : Z;
  cwd_node : option Z;     (* of the current task; None when there is none *)
  heap : H;
  blocks : gmap Z (list Z);
  dirty : bool;
  clock : Z;               (* timer_get_ms() *)
}.
Arguments Fs {H}. Arguments files {H}. Arguments home_dir_index {H}. Arguments trash_dir_index {H}.
Arguments desktop_dir_index {H}. Arguments bin_dir_index {H}. Arguments cwd_node {H}.
Arguments heap {H}. Arguments blocks {H}. Arguments dirty {H}. Arguments clock {H}.

(** ** Strings and paths *)

Definition SLASH : Z := 47.

(** [strncmp(a, b, n) == 0] on C strings. *)
Definition strncmp_eq (n : nat) (a b : list Z) : bool :=
  bool_decide (take n (a ++ [0]) = take n (b ++ [0])).

Definition sn_copy (cap : Z) (src : list Z) : list Z := take (Z.to_nat (cap - 1)) src.

Fixpoint digits_rev (fuel : nat) (v : Z) : list Z :=
  match fuel with
  | O => []
  | S fuel => if 0 <? v then 48 + v mod 10 :: digits_rev fuel (v / 10) else []
  end.

Definition sn_append_int (cap : Z) (a : list Z) (v : Z) : list Z :=
  let num := if v =? 0 then [48] else digits_rev 7 v in
  take (Z.to_nat (cap - 1)) (sn_copy cap a ++ reverse num).

(** The characters before the next '/', and the rest from that '/' on. *)
Fixpoint span_slash (p : list Z) : list Z * list Z :=
  match p with
  | [] => ([], [])
  | c :: q => if c =? SLASH then ([], p) else let '(a, r) := span_slash q in (c :: a, r)
  end.

(** [if ( *p == '/') p++;] *)
Definition skip_slash (p : list Z) : list Z :=
  match p with
  | c :: q => if c =? SLASH then q else p
  | [] => []
  end.

Definition has_slash (p : list Z) : bool := existsb (fun c => c =? SLASH) p.

Definition starts_slash (p : list Z) : bool :=
  match p with c :: _ => c =? SLASH | [] => false end.

Definition DOT : list Z := str ".".
Definition DOTDOT : list Z := str "..".

Section fs.
Context {H : Type} `{!KernelHeap H}.
(** The bytes of a fresh block at an address, for a request. *)
Variable stale : Z -> Z -> list Z.

Definition set_files (l : list file_t) (s : fs H) : fs H :=
  Fs l (home_dir_index s) (trash_dir_index s) (desktop_dir_index s) (bin_dir_index s)
     (cwd_node s) (heap s) (blocks s) (dirty s) (clock s).
Definition set_mem (h : H) (b : gmap Z (list Z)) (s : fs H) : fs H :=
  Fs (files s) (home_dir_index s) (trash_dir_index s) (desktop_dir_index s) (bin_dir_index s)
     (cwd_node s) h b (dirty s) (clock s).
Definition set_cwd (c : option Z) (s : fs H) : fs H :=
  Fs (files s) (home_dir_index s) (trash_dir_index s) (desktop_dir_index s) (bin_dir_index s)
     c (heap s) (blocks s) (dirty s) (clock s).
Definition persist_mark_dirty (s : fs H) : fs H :=
  Fs (files s) (home_dir_index s) (trash_dir_index s) (desktop_dir_index s) (bin_dir_index s)
     (cwd_node s) (heap s) (blocks s) true (clock s).

Definition node (s : fs H) (i : nat) : file_t := default null_file (files s !! i).
Definition put (i : nat) (f : file_t) (s : fs H) : fs H := set_files (<[i := f]> (files s)) s.

(** ** Heap blocks *)

Definition alloc_block (n : Z) (s : fs H) : option Z * fs H :=
  match kmalloc n (heap s) with
  | (None, h) => (None, set_mem h (blocks s) s)
  | (Some p, h) => (Some p, set_mem h (<[p := stale p n]> (blocks s)) s)
  end.

Definition free_block (p : Z) (s : fs H) : fs H :=
  set_mem (kfree p (heap s)) (delete p (blocks s)) s.

(** [memcpy(dst + off, bytes, len)] *)
Definition copy_in (p : Z) (off : nat) (bs : list Z) (s : fs H) : fs H :=
  set_mem (heap s) (alter (splice off bs) p (blocks s)) s.

(** [n] bytes at [p + off]. *)
Definition read_block (p : Z) (off n : nat) (s : fs H) : list Z :=
  slice off n (default [] (blocks s !! p)).

(** ** Primitives *)

Definition task_cwd (s : fs H) : Z := default 0 (cwd_node s).

Definition fs_table_entry (i : Z) (s : fs H) : option file_t :=
  if (i <? 0) || (Z.of_nat MAX_FILES <=? i) then None else Some (node s (Z.to_nat i)).

Definition find_free_slot (s : fs H) : option nat :=
  find_from (fun _ f => negb (in_use f)) 1 (files s).

Definition find_in_dir (dir : Z) (nm : list Z) (s : fs H) : option nat :=
  let dir := if dir <? 0 then 0 else dir in
  find_from (fun _ f => in_use f && (parent_dir f =? dir) && strncmp_eq MAX_FILENAME (name f) nm)
    1 (files s).

Fixpoint nth_child_loop (i : nat) (l : list file_t) (dir nth seen : Z) : option nat :=
  match l with
  | [] => None
  | f :: l =>
      if negb (in_use f) || negb (parent_dir f =? dir) then nth_child_loop (S i) l dir nth seen
      else if seen =? nth then Some i else nth_child_loop (S i) l dir nth (seen + 1)
  end.

Definition nth_child (dir nth : Z) (s : fs H) : option nat :=
  nth_child_loop 1 (drop 1 (files s)) (if dir <? 0 then 0 else dir) nth 0.

Definition create_entry (nm : list Z) (ty parent fl : Z) (s : fs H) : option nat * fs H :=
  match nm with
  | [] => (None, s)
  | _ :: _ =>
      match find_in_dir parent nm s with
      | Some _ => (None, s)
      | None =>
          match find_free_slot s with
          | None => (None, s)
          | Some idx =>
              (Some idx,
               put idx (now_stamp (clock s)
                 (File (take (MAX_FILENAME - 1) nm) 0 0 0 true ty
                    (if parent <? 0 then 0 else parent) fl 0 0)) s)
          end
      end
  end.

(** [ensure_dir_chain]: a component longer than 63 characters continues in the
    next iteration.  [fuel]: each iteration consumes a character. *)
Fixpoint chain_loop (fuel : nat) (dir : nat) (p : list Z) (s : fs H) : option nat * fs H :=
  match p, fuel with
  | [], _ => (Some dir, s)
  | _, O => (None, s)
  | _, S fuel =>
      let comp := take (MAX_FILENAME - 1) (fst (span_slash p)) in
      let p := skip_slash (drop (length comp) p) in
      match comp with
      | [] => chain_loop fuel dir p s
      | _ :: _ =>
          let '(e, s) :=
            match find_in_dir (Z.of_nat dir) comp s with
            | Some e => (Some e, s)
            | None => create_entry comp FS_DIRECTORY (Z.of_nat dir) 0 s
            end in
          match e with
          | None => (None, s)
          | Some e => chain_loop fuel e p s
          end
      end
  end.

Definition ensure_dir_chain (path : list Z) (s : fs H) : option nat * fs H :=
  chain_loop (length path) 0 path s.

(** ** The resolver *)

Inductive walk_result :=
  | Enoent                                 (* -1 *)
  | Missing (dir : nat) (leaf : list Z)    (* parent + missing leaf *)
  | Final (dir : nat).                     (* out_is_final_dir = 1 *)

(** Each iteration consumes a character, so [length p] is enough fuel. *)
Fixpoint walk_loop (fuel : nat) (dir : nat) (p : list Z) (leaf_cap : nat) (s : fs H) : walk_result :=
  match p, fuel with
  | [], _ => Final dir
  | _, O => Enoent
  | _, S fuel =>
      let '(a, r) := span_slash p in
      let comp := take (MAX_FILENAME - 1) a in
      let p := skip_slash r in
      if bool_decide (comp = []) || bool_decide (comp = DOT) then walk_loop fuel dir p leaf_cap s
      else if bool_decide (comp = DOTDOT) then
        walk_loop fuel (Z.to_nat (parent_dir (node s dir))) p leaf_cap s
      else
        match find_in_dir (Z.of_nat dir) comp s with
        | Some e => walk_loop fuel e p leaf_cap s
        | None => if has_slash p then Enoent else Missing dir (take (leaf_cap - 1) comp)
        end
  end.

Definition walk (dir : nat) (p : list Z) (leaf_cap : nat) (s : fs H) : walk_result :=
  walk_loop (length p) dir p leaf_cap s.

Definition start_dir (path : list Z) (s : fs H) : nat :=
  if starts_slash path then 0%nat else Z.to_nat (task_cwd s).

Definition fs_resolve_impl (path : list Z) (s : fs H) : option nat :=
  match path with
  | [] => Some 0%nat
  | _ =>
      match walk (start_dir path s) path MAX_FILENAME s with
      | Final d => Some d
      | _ => None
      end
  end.

Definition fs_resolve_path := fs_resolve_impl.

(** The parent and the leaf; the leaf is empty when the path exists. *)
Definition fs_resolve_parent (path : list Z) (s : fs H) : option (nat * list Z) :=
  match path with
  | [] => None
  | _ =>
      match walk (start_dir path s) path MAX_FILENAME s with
      | Enoent => None
      | Missing d leaf => Some (d, leaf)
      | Final d => Some (d, [])
      end
  end.

(** ** Getters *)

Definition fs_get_free_count (s : fs H) : Z :=
  Z.of_nat (length (filter (fun f => in_use f = false) (drop 1 (files s)))).

(** [None] is -1; the fields are those the out pointers receive. *)
Definition fs_get_node (idx : Z) (s : fs H) : option file_t :=
  if (idx <? 0) || (Z.of_nat MAX_FILES <=? idx) || negb (in_use (node s (Z.to_nat idx)))
  then None else Some (node s (Z.to_nat idx)).

Definition fs_find_by_index (dir_idx nth : Z) (s : fs H) : option file_t :=
  match nth_child dir_idx nth s with
  | None => None
  | Some c => fs_get_node (Z.of_nat c) s
  end.

Definition fs_get_dir_count (dir_idx : Z) (s : fs H) : Z :=
  Z.of_nat (length (filter (fun f => in_use f = true /\ parent_dir f = dir_idx) (drop 1 (files s)))).

Definition fs_is_directory_empty (dir_idx : Z) (s : fs H) : bool := fs_get_dir_count dir_idx s =? 0.

Definition fs_find_child (dir_idx child_idx : Z) (s : fs H) : Z :=
  if (child_idx <? 0) || (Z.of_nat MAX_FILES <=? child_idx) then -1 else
  let f := node s (Z.to_nat child_idx) in
  if negb (in_use f) then -1 else if parent_dir f =? dir_idx then child_idx else -1.

(** ** Metadata operations *)

Definition fs_exists (filename : list Z) (s : fs H) : bool :=
  if fs_resolve_impl filename s is Some _ then true else false.

Definition fs_mkdir (path : list Z) (s : fs H) : option nat * fs H :=
  match fs_resolve_parent path s with
  | None => (None, s)
  | Some (parent, leaf) =>
      if bool_decide (leaf = []) then (None, s)
      else create_entry leaf FS_DIRECTORY (Z.of_nat parent) 0 s
  end.

Definition ends_elf (leaf : list Z) : bool :=
  (4 <=? length leaf)%nat && bool_decide (drop (length leaf - 4) leaf = str ".elf").

Definition fs_create (filename : list Z) (s : fs H) : option nat * fs H :=
  match fs_resolve_impl filename s with
  | Some e => (Some e, s)
  | None =>
      match fs_resolve_parent filename s with
      | None => (None, s)
      | Some (parent, leaf) =>
          if bool_decide (leaf = []) then (None, s)
          else
            let leaf := sn_copy (Z.of_nat MAX_FILENAME) leaf in
            create_entry leaf FS_FILE (Z.of_nat parent)
              (if ends_elf leaf then FS_FLAG_EXECUTABLE else 0) s
      end
  end.

Definition stamp_node (i : nat) (s : fs H) : fs H := put i (now_stamp (clock s) (node s i)) s.

Definition fs_touch (filename : list Z) (s : fs H) : option nat * fs H :=
  match fs_resolve_impl filename s with
  | Some e => (Some e, stamp_node e s)
  | None => fs_create filename s
  end.

(** A node owns its buffer iff its capacity is positive. *)
Definition file_owns_data (f : file_t) : bool := 0 <? capacity f.

Definition free_data (i : nat) (s : fs H) : fs H :=
  let f := node s i in
  if negb (data f =? 0) && file_owns_data f then free_block (data f) s else s.

Definition clear_slot (i : nat) (s : fs H) : fs H := put i null_file s.

Definition delete_child (rec : nat -> fs H -> option (fs H)) (idx pass : nat)
    (acc : option (fs H)) (i : nat) : option (fs H) :=
  s ← acc;
  let f := node s i in
  if negb (in_use f) then Some s
  else if negb (parent_dir f =? Z.of_nat idx) then Some s
  else if type f =? FS_DIRECTORY then rec i s
  else if (pass =? 1)%nat then Some (clear_slot i (free_data i s))
  else Some s.

Definition slots : list nat := seq 1 (MAX_FILES - 1).

(** [None]: [fuel] levels of recursion were not enough. *)
Fixpoint delete_recursive (fuel : nat) (idx : nat) (s : fs H) : option (Z * fs H) :=
  match fuel with
  | O => None
  | S fuel =>
      if (idx =? 0)%nat || negb (in_use (node s idx)) then Some (-1, s)
      else
        let rec i s := r ← delete_recursive fuel i s; Some (snd r) in
        s ← foldl (delete_child rec idx 0) (Some s) slots;
        s ← (if type (node s idx) =? FS_DIRECTORY
             then foldl (delete_child rec idx 1) (Some s) slots else Some s);
        Some (0, clear_slot idx (free_data idx s))
  end.

Definition fs_delete (fuel : nat) (filename : list Z) (s : fs H) : option (Z * fs H) :=
  match fs_resolve_impl filename s with
  | None | Some O => Some (-1, s)
  | Some e => delete_recursive fuel e s
  end.

Definition fs_rmdir (path : list Z) (s : fs H) : bool * fs H :=
  match fs_resolve_impl path s with
  | None | Some O => (false, s)
  | Some e =>
      if negb (type (node s e) =? FS_DIRECTORY) then (false, s)
      else if negb (fs_is_directory_empty (Z.of_nat e) s) then (false, s)
      else (true, clear_slot e s)
  end.

Definition fs_truncate (filename : list Z) (s : fs H) : bool * fs H :=
  match fs_resolve_impl filename s with
  | None => (false, s)
  | Some e =>
      if negb (type (node s e) =? FS_FILE) then (false, s)
      else
        let s := free_data e s in
        (true, stamp_node e (put e (with_body 0 0 0 (node s e)) s))
  end.

Definition fs_rename (oldname newname : list Z) (s : fs H) : bool * fs H :=
  match fs_resolve_impl oldname s with
  | None | Some O => (false, s)
  | Some e =>
      match fs_resolve_parent newname s with
      | None => (false, s)
      | Some (parent, leaf) =>
          if bool_decide (leaf = []) then (false, s)
          else
            let taken := match find_in_dir (Z.of_nat parent) leaf s with
                         | Some dst => negb (dst =? e)%nat | None => false end in
            if taken then (false, s)
            else
              let f := with_parent (Z.of_nat parent) (with_name (take (MAX_FILENAME - 1) leaf) (node s e)) in
              (true, stamp_node e (put e f s))
      end
  end.

Definition fs_move := fs_rename.

(** The body of [s] copied into the new node [d]. *)
Definition copy_body (src d : nat) (s : fs H) : bool * fs H :=
  let sf := node s src in
  if (0 <? size sf) && negb (data sf =? 0) then
    match alloc_block (u32 (size sf)) s with
    | (None, s) => (false, put d (with_body 0 (size (node s d)) (capacity (node s d)) (node s d)) s)
    | (Some p, s) =>
        let s := copy_in p 0 (read_block (data sf) 0 (Z.to_nat (size sf)) s) s in
        (true, stamp_node d (put d (with_body p (size sf) (size sf) (node s d)) s))
    end
  else (true, stamp_node d s).

Definition fs_copy_file (src_name dst_name : list Z) (s : fs H) : bool * fs H :=
  match fs_resolve_impl src_name s with
  | None => (false, s)
  | Some src =>
      if negb (type (node s src) =? FS_FILE) then (false, s)
      else
        let d := fs_resolve_impl dst_name s in
        let into := match d with Some d => type (node s d) =? FS_DIRECTORY | None => false end in
        let '(d, s) :=
          if into then
            create_entry (name (node s src)) FS_FILE (Z.of_nat (default 0%nat d)) (flags (node s src)) s
          else
            match fs_resolve_parent dst_name s with
            | None => (None, s)
            | Some (parent, leaf) =>
                if bool_decide (leaf = []) then (None, s)
                else create_entry leaf FS_FILE (Z.of_nat parent) (flags (node s src)) s
            end in
        match d with
        | None => (false, s)
        | Some d => copy_body src d s
        end
  end.

Definition fs_copy_file_to_dir (src_dir : Z) (src_name : list Z) (dst_dir : Z) (dst_name : list Z)
    (s : fs H) : bool * fs H :=
  match find_in_dir src_dir src_name s with
  | None => (false, s)
  | Some src =>
      match create_entry (if bool_decide (dst_name = []) then src_name else dst_name)
              FS_FILE dst_dir (flags (node s src)) s with
      | (None, s) => (false, s)
      | (Some d, s) => copy_body src d s
      end
  end.

(** ** Trash *)

(** The name of each attempt: "f", "f1", "f2", ... *)
Definition trash_name (leaf : list Z) (attempt : nat) : list Z :=
  let cap := Z.of_nat (MAX_FILENAME + 8) in
  if (attempt =? 0)%nat then sn_copy cap leaf else sn_append_int cap leaf (Z.of_nat attempt).

Definition fs_trash_file (filename : list Z) (s : fs H) : bool * fs H :=
  if trash_dir_index s <? 0 then (false, s) else
  match fs_resolve_impl filename s with
  | None | Some O => (false, s)
  | Some e =>
      let leaf := take (MAX_FILENAME - 1) (name (node s e)) in
      let free_name a :=
        if find_in_dir (trash_dir_index s) (trash_name leaf a) s is Some _ then false else true in
      match find_from (fun a _ => free_name a) 0 (seq 0 64) with
      | None => (false, s)
      | Some a =>
          let f := with_parent (trash_dir_index s)
                     (with_name (take (MAX_FILENAME - 1) (trash_name leaf a)) (node s e)) in
          (true, stamp_node e (put e f s))
      end
  end.

Definition fs_empty_trash (fuel : nat) (s : fs H) : option (bool * fs H) :=
  if trash_dir_index s <? 0 then Some (false, s) else
  s' ← foldl (fun acc i =>
         s' ← acc;
         let f := node s' i in
         if in_use f && (parent_dir f =? trash_dir_index s')
         then r ← delete_recursive fuel i s'; Some (snd r) else Some s') (Some s) slots;
  Some (true, s').

Definition fs_restore_from_trash (filename : list Z) (s : fs H) : bool * fs H :=
  if trash_dir_index s <? 0 then (false, s) else
  match find_in_dir (trash_dir_index s) filename s with
  | None => (false, s)
  | Some e =>
      let home := if 0 <=? home_dir_index s then home_dir_index s else 0 in
      (true, stamp_node e (put e (with_parent home (node s e)) s))
  end.

(** ** File bodies *)

(** [while (cap < need) cap *= 2;] on [int].  A product that wraps to 0 stays
    there, so 33 iterations decide; [None] means that the loop never ends. *)
Fixpoint grow_cap (fuel : nat) (cap need : Z) : option Z :=
  if need <=? cap then Some cap
  else match fuel with O => None | S fuel => grow_cap fuel (i32 (cap * 2)) need end.

(** The flag is whether it returned 0; [None]: it does not return. *)
Definition file_ensure_cap (fd need : Z) (s : fs H) : option (bool * fs H) :=
  match fs_table_entry fd s with
  | None => Some (false, s)
  | Some f =>
      if negb (in_use f) then Some (false, s)
      else if need <=? capacity f then Some (true, s)
      else
        let base := if negb (capacity f =? 0) then capacity f
                    else if 0 <? size f then size f else 128 in
        cap ← grow_cap 33 (if negb (base =? 0) then base else 128) need;
        match alloc_block (u32 cap) s with
        | (None, s) => Some (false, s)
        | (Some nd, s) =>
            let s := if negb (data f =? 0) && (0 <? size f)
                     then copy_in nd 0 (read_block (data f) 0 (Z.to_nat (size f)) s) s else s in
            let s := if (0 <? capacity f) && negb (data f =? 0) then free_block (data f) s else s in
            Some (true, put (Z.to_nat fd) (with_body nd (size f) cap f) s)
        end
  end.

Definition fs_open (filename : list Z) (s : fs H) : option nat := fs_resolve_impl filename s.

(** The count returned (-1 on error) and the bytes stored in the buffer. *)
Definition fs_read_at (fd count offset : Z) (s : fs H) : Z * list Z :=
  match fs_table_entry fd s with
  | None => (-1, [])
  | Some f =>
      if negb (in_use f) then (-1, [])
      else
        let offset := if offset <? 0 then 0 else offset in
        if size f <=? offset then (0, [])
        else
          let avail := size f - offset in
          let n := if count <? avail then count else avail in
          (n, if (0 <? n) && negb (data f =? 0)
              then read_block (data f) (Z.to_nat offset) (Z.to_nat n) s else [])
  end.

Definition fs_read (fd count : Z) (s : fs H) : Z * list Z := fs_read_at fd count 0 s.

(** [count] is the length of [buf]; the result is -1 on error. *)
Definition fs_write (fd : Z) (buf : list Z) (s : fs H) : option (Z * fs H) :=
  let count := Z.of_nat (length buf) in
  match fs_table_entry fd s with
  | None => Some (-1, s)
  | Some f =>
      if negb (in_use f) || negb (type f =? FS_FILE) then Some (-1, s)
      else
        '(ok, s) ← file_ensure_cap fd (i32 (size f + count)) s;
        if negb ok then Some (-1, s)
        else
          let i := Z.to_nat fd in
          let f := node s i in
          let s := copy_in (data f) (Z.to_nat (size f)) buf s in
          let s := put i (with_body (data f) (i32 (size f + count)) (capacity f) f) s in
          Some (count, persist_mark_dirty (stamp_node i s))
  end.

Definition fs_close (fd : Z) : Z := 0.

(** The bytes before the NUL that [fs_cat] writes. *)
Definition fs_cat (filename : list Z) (max_len : Z) (s : fs H) : option (Z * list Z) :=
  match fs_resolve_impl filename s with
  | None => None
  | Some e =>
      let f := node s e in
      if negb (type f =? FS_FILE) then None
      else
        let n := if size f <? max_len - 1 then size f else max_len - 1 in
        Some (n, if (0 <? n) && negb (data f =? 0) then read_block (data f) 0 (Z.to_nat n) s else [])
  end.

(** ** Listing and the working directory *)

Fixpoint list_loop (l : list file_t) (dir max_len : Z) (out : list Z) : list Z :=
  match l with
  | [] => out
  | f :: l =>
      if negb (in_use f) || negb (parent_dir f =? dir) then list_loop l dir max_len out
      else if max_len <? Z.of_nat (length out + length (name f)) + 2 then out
      else list_loop l dir max_len
             (out ++ name f ++ (if type f =? FS_DIRECTORY then [SLASH; 10] else [10]))
  end.

(** The text; the C stores it followed by a NUL. *)
Definition fs_list (max_len : Z) (s : fs H) : list Z :=
  list_loop (drop 1 (files s)) (task_cwd s) max_len [].

Definition ktask_set_cwd (idx : Z) (s : fs H) : Z * fs H :=
  match cwd_node s with
  | None => (-1, s)
  | Some _ => (0, set_cwd (Some (if idx <? 0 then 0 else idx)) s)
  end.

Definition fs_cd (dirname : list Z) (s : fs H) : Z * fs H :=
  if bool_decide (dirname = []) || bool_decide (dirname = [SLASH]) then (0, snd (ktask_set_cwd 0 s))
  else
    match fs_resolve_impl dirname s with
    | None => (-1, s)
    | Some e => if negb (type (node s e) =? FS_DIRECTORY) then (-1, s)
                else ktask_set_cwd (Z.of_nat e) s
    end.

(** [tmp] from its end: the loop runs at most 512 times, [tmp] being 512 bytes
    and every iteration adding one at least. *)
Fixpoint pwd_loop (fuel : nat) (dir : Z) (tmp : list Z) (s : fs H) : list Z :=
  match fuel with
  | O => tmp
  | S fuel =>
      if 0 <? dir then
        let f := node s (Z.to_nat dir) in
        if (8 * MAX_FILENAME <=? length tmp + length (name f) + 1)%nat then tmp
        else pwd_loop fuel (parent_dir f) ([SLASH] ++ name f ++ tmp) s
      else tmp
  end.

(** The text and the value returned. *)
Definition fs_pwd (max_len : Z) (s : fs H) : list Z * Z :=
  let dir := task_cwd s in
  if dir <=? 0 then (if 1 <? max_len then [SLASH] else [], 1)
  else
    let out := SLASH :: take (Z.to_nat (max_len - 2)) (pwd_loop (8 * MAX_FILENAME) dir [] s) in
    (out, Z.of_nat (length out)).

(** ** Miscellaneous *)

Definition fs_get_permission_string (fl : Z) : list Z :=
  [114; 119; if negb (Z.land fl FS_FLAG_READONLY =? 0) then 45 else 120].

Fixpoint count_digits (fuel : nat) (v digits : Z) : Z :=
  match fuel with
  | O => digits
  | S fuel => if 10 <=? v then count_digits fuel (v / 10) (digits + 1) else digits
  end.

Fixpoint put_digits (n : nat) (v : Z) (acc : list Z) : list Z :=
  match n with
  | O => acc
  | S n => put_digits n (v / 10) (48 + v mod 10 :: acc)
  end.

(** A 32-bit number has at most 10 digits. *)
Definition fs_format_time (ms max_len : Z) : list Z :=
  let s := ms / 1000 in
  let digits := count_digits 10 s 1 in
  put_digits (Z.to_nat (if max_len <=? digits then max_len - 1 else digits)) s [].

Definition fs_set_flags (filename : list Z) (fl : Z) (s : fs H) : bool * fs H :=
  match fs_resolve_impl filename s with
  | None => (false, s)
  | Some e => (true, put e (with_flags fl (node s e)) s)
  end.

(** ** Boot *)

Definition root_file : file_t := File (str "/") 0 0 0 true FS_DIRECTORY 0 0 0 0.

(** Create a file with its first contents unless it exists.  [None]: the write
    did not return. *)
Definition seed_file (path contents : list Z) (s : fs H) : option (fs H) :=
  match fs_resolve_impl path s with
  | Some _ => Some s
  | None =>
      match fs_create path s with
      | (None, s) => Some s
      | (Some fd, s) => r ← fs_write (Z.of_nat fd) contents s; Some (snd r)
      end
  end.

Definition chain_ (path : string) (s : fs H) : fs H := snd (ensure_dir_chain (str path) s).

Definition set_dirs (home desktop trash bin : Z) (s : fs H) : fs H :=
  Fs (files s) home trash desktop bin (cwd_node s) (heap s) (blocks s) (dirty s) (clock s).

Record module := Module { mod_name : list Z; mod_addr : Z; mod_bytes : list Z }.

Definition last4 (l : list Z) : list Z := drop (length l - 4) l.

Definition seed_module (userdir : Z) (m : module) (s : fs H) : fs H :=
  let nm := mod_name m in
  if (4 <=? length nm)%nat && bool_decide (last4 nm = str ".ttf") then s
  else
    let full := take (MAX_FILENAME - 1) nm in
    if find_in_dir userdir full s is Some _ then s
    else
      match create_entry full FS_FILE userdir
              (Z.lor (Z.lor FS_FLAG_EXECUTABLE FS_FLAG_READONLY) FS_FLAG_SYSTEM) s with
      | (None, s) => s
      | (Some fidx, s) =>
          put fidx (with_body (mod_addr m) (i32 (Z.of_nat (length (mod_bytes m)))) 0 (node s fidx))
            (set_mem (heap s) (<[mod_addr m := mod_bytes m]> (blocks s)) s)
      end.

Definition init_filesystem (persist_load : fs H -> fs H) (modules : list module) (s : fs H)
    : option (fs H) :=
  let s := set_files (<[0%nat := root_file]> (replicate MAX_FILES null_file)) s in
  let s := persist_load s in
  let s := chain_ "bin" s in
  let s := chain_ "cfg" s in
  let s := chain_ "home/user" s in
  let s := chain_ "home/user/wallpaper" s in
  let s := chain_ "user" s in
  let s := chain_ "tmp" s in
  let s := chain_ "etc" s in
  let s := chain_ "proc" s in
  let s := chain_ "dev/null" s in
  let s := chain_ "dev/zero" s in
  let s := chain_ "dev/console" s in
  let s := chain_ "dev/tty" s in
  let s := chain_ "etc" s in
  s ← seed_file (str "/etc/passwd")
        (str "root:x:0:0:root:/home/eigen:/user/sh.elf" ++ [10] ++
         str "eigen:x:1000:1000:eigen:/home/eigen:/user/sh.elf" ++ [10]) s;
  s ← seed_file (str "/cfg/starticon.cfg") (str "cfg/logo.bmp" ++ [10]) s;
  s ← seed_file (str "/etc/group")
        (str "root:x:0:" ++ [10] ++ str "eigen:x:1000:" ++ [10]) s;
  let '(home, s) := ensure_dir_chain (str "home/eigen") s in
  let '(desktop, s) := ensure_dir_chain (str "home/eigen/Desktop") s in
  let '(trash, s) := ensure_dir_chain (str "home/eigen/.Trash") s in
  let s := set_dirs (ret_idx home) (ret_idx desktop) (ret_idx trash)
             (ret_idx (find_in_dir 0 (str "bin") s)) s in
  let userdir := ret_idx (find_in_dir 0 (str "user") s) in
  Some (if userdir <? 0 then s else foldl (fun s m => seed_module userdir m s) s modules).

End fs.
