(* ===== verification/FsSpec.v ===== *)
(** The tree of the RAM file system: names, directory lookup, ancestors, the
    invariant of the node table, what its updates do to it, and which node owns
    which block of the heap. *)
From Stdlib Require Import ZArith Lia.
From stdpp Require Import base numbers list gmap strings.
From S2P Require Import Prelude HeapIface Fs.

(** ** Names and paths *)

(** A name the resolver can reach. *)
Record path_name (nm : list Z) : Prop := {
  pn_cstr : is_cstr nm;
  pn_ne : nm <> [];
  pn_len : (length nm < MAX_FILENAME)%nat;
  pn_slash : SLASH ∉ nm;
  pn_dot : nm <> DOT;
  pn_dotdot : nm <> DOTDOT;
}.

Lemma cstr_app_inj a b c d :
  is_cstr a -> is_cstr b -> a ++ 0 :: c = b ++ 0 :: d -> a = b.
Proof.
  intros Ha. revert b. induction Ha as [|x a Hx Ha IH]; intros b Hb H; destruct Hb as [|y b Hy Hb].
  - done.
  - injection H as <- _. lia.
  - injection H as -> _. lia.
  - injection H as -> H. f_equal. by apply IH.
Qed.

Lemma strncmp_eq_iff a b :
  is_cstr a -> is_cstr b -> (length a < MAX_FILENAME)%nat ->
  strncmp_eq MAX_FILENAME a b = true <-> a = b.
Proof.
  intros Ha Hb Hlen. unfold strncmp_eq. rewrite bool_decide_eq_true. split; [|by intros ->].
  intros H. assert (Hz : take MAX_FILENAME (b ++ [0]) !! length a = Some 0).
  { rewrite <-H. rewrite lookup_take_lt by done. by rewrite list_lookup_middle. }
  rewrite lookup_take_lt in Hz by done.
  destruct (Nat.lt_ge_cases (length a) (length b)) as [Hl|Hl].
  { rewrite lookup_app_l in Hz by done.
    apply (Forall_lookup_1 _ _ _ _ Hb) in Hz. simpl in Hz. lia. }
  rewrite !firstn_all2 in H; [by apply app_inj_2 in H as [-> _]|..];
    rewrite length_app; unfold MAX_FILENAME in *; simpl; lia.
Qed.

Lemma span_slash_app a r :
  SLASH ∉ a -> (r = [] \/ exists r', r = SLASH :: r') -> span_slash (a ++ r) = (a, r).
Proof.
  intros Ha Hr. induction a as [|c a IH]; simpl.
  - destruct Hr as [->|[r' ->]]; done.
  - destruct (Z.eqb_spec c SLASH) as [->|]; [set_solver|].
    rewrite IH by set_solver. done.
Qed.

Lemma span_slash_eq p : p = fst (span_slash p) ++ snd (span_slash p).
Proof.
  induction p as [|c p IH]; [done|]. simpl. destruct (c =? SLASH); [done|].
  destruct (span_slash p). simpl in *. by rewrite <-IH.
Qed.

Lemma span_slash_no p : SLASH ∉ fst (span_slash p).
Proof.
  induction p as [|c p IH]; simpl; [set_solver|]. destruct (Z.eqb_spec c SLASH); [set_solver|].
  destruct (span_slash p). simpl in *. set_solver.
Qed.

Lemma span_slash_rest p : snd (span_slash p) = [] \/ exists r, snd (span_slash p) = SLASH :: r.
Proof.
  induction p as [|c p IH]; simpl; [by left|]. destruct (Z.eqb_spec c SLASH) as [->|]; [eauto|].
  by destruct (span_slash p).
Qed.

Lemma length_skip_slash p : (length (skip_slash p) <= length p)%nat.
Proof. destruct p as [|c p]; simpl; [lia|]. destruct (c =? SLASH); simpl; lia. Qed.

(** What is left after a component is shorter than the path. *)
Lemma walk_rest_shorter p :
  p <> [] -> (length (skip_slash (snd (span_slash p))) < length p)%nat.
Proof.
  intros Hp. pose proof (span_slash_eq p) as E. apply (f_equal length) in E.
  rewrite length_app in E. pose proof (length_skip_slash (snd (span_slash p))).
  destruct (span_slash_rest p) as [Hr|[r Hr]].
  - rewrite Hr in *. simpl in *. destruct p; simpl in *; [done|lia].
  - rewrite Hr in *. simpl in *. lia.
Qed.

Lemma has_slash_true p : has_slash p = true <-> SLASH ∈ p.
Proof.
  unfold has_slash. rewrite existsb_exists. setoid_rewrite <-list_elem_of_In.
  setoid_rewrite Z.eqb_eq. naive_solver.
Qed.

Lemma has_slash_false p : has_slash p = false <-> SLASH ∉ p.
Proof. rewrite <-has_slash_true. by destruct (has_slash p). Qed.

Section spec.
Context {H : Type} `{!KernelHeap H}.
Implicit Types s : fs H.

(** ** The node table *)

Lemma length_put i f s : length (files (put i f s)) = length (files s).
Proof. apply length_insert. Qed.

Lemma node_put s i f j :
  (i < length (files s))%nat -> node (put i f s) j = if decide (j = i) then f else node s j.
Proof.
  intros Hi. unfold node, put, set_files. cbn [files]. destruct (decide (j = i)) as [->|Hne].
  - by rewrite list_lookup_insert_eq.
  - by rewrite list_lookup_insert_ne.
Qed.

Lemma node_out s i : (length (files s) <= i)%nat -> node s i = null_file.
Proof. intros Hi. unfold node. by rewrite lookup_ge_None_2. Qed.

Lemma in_use_lt s i : in_use (node s i) = true -> (i < length (files s))%nat.
Proof.
  intros Hu. destruct (Nat.lt_ge_cases i (length (files s))); [done|]. by rewrite node_out in Hu.
Qed.

Lemma node_lookup s i : (i < length (files s))%nat -> files s !! i = Some (node s i).
Proof.
  intros Hi. unfold node. destruct (files s !! i) eqn:E; [done|].
  apply lookup_ge_None in E. lia.
Qed.

(** The child of [dir] called [nm] that the scan looks for. *)
Definition child_named s (dir : nat) (nm : list Z) (i : nat) : Prop :=
  (1 <= i)%nat /\ in_use (node s i) = true /\ parent_dir (node s i) = Z.of_nat dir /\
  strncmp_eq MAX_FILENAME (name (node s i)) nm = true.

Lemma child_test f dir nm :
  in_use f && (parent_dir f =? Z.of_nat dir) && strncmp_eq MAX_FILENAME (name f) nm = true <->
  in_use f = true /\ parent_dir f = Z.of_nat dir /\ strncmp_eq MAX_FILENAME (name f) nm = true.
Proof. rewrite !andb_true_iff, Z.eqb_eq. tauto. Qed.

Lemma find_in_dir_Some s dir nm e :
  find_in_dir (Z.of_nat dir) nm s = Some e <->
  child_named s dir nm e /\ forall j, child_named s dir nm j -> (e <= j)%nat.
Proof.
  unfold find_in_dir. destruct (Z.ltb_spec (Z.of_nat dir) 0); [lia|]. rewrite find_from_Some. split.
  - intros (He & (f & Hf & Ht) & Hmin). assert (node s e = f) as Hn by (unfold node; by rewrite Hf).
    apply child_test in Ht. unfold child_named. rewrite Hn. split; [tauto|].
    intros j (Hj & Hu & Hp & Hs). destruct (Nat.le_gt_cases e j); [done|].
    specialize (Hmin j (node s j) ltac:(lia) (node_lookup _ _ (in_use_lt _ _ Hu))).
    cbv beta in Hmin. rewrite (proj2 (child_test _ _ _)) in Hmin; done.
  - intros [(He & Hu & Hp & Hs) Hmin]. split; [done|]. split.
    + exists (node s e). split; [by apply node_lookup, in_use_lt|]. by apply child_test.
    + intros j f Hj Hf. destruct (_ && _ && _) eqn:E; [|done]. apply child_test in E.
      assert (node s j = f) as Hn by (unfold node; by rewrite Hf).
      assert (e <= j)%nat; [|lia]. apply Hmin. unfold child_named. rewrite Hn. split; [lia|done].
Qed.

Lemma find_in_dir_None s dir nm :
  find_in_dir (Z.of_nat dir) nm s = None <-> forall j, ~ child_named s dir nm j.
Proof.
  unfold find_in_dir. destruct (Z.ltb_spec (Z.of_nat dir) 0); [lia|]. rewrite find_from_None. split.
  - intros Hno j (Hj & Hu & Hp & Hs).
    specialize (Hno j (node s j) Hj (node_lookup _ _ (in_use_lt _ _ Hu))).
    cbv beta in Hno. rewrite (proj2 (child_test _ _ _)) in Hno; done.
  - intros Hno j f Hj Hf. destruct (_ && _ && _) eqn:E; [|done]. apply child_test in E.
    assert (node s j = f) as Hn by (unfold node; by rewrite Hf).
    destruct (Hno j). unfold child_named. by rewrite Hn.
Qed.

Lemma find_free_slot_Some s idx :
  find_free_slot s = Some idx ->
  (1 <= idx < length (files s))%nat /\ in_use (node s idx) = false.
Proof.
  intros Hf. pose proof (find_from_lt _ _ _ _ Hf). split; [done|].
  apply find_from_Some in Hf as (_ & (f & Hl & Ht) & _).
  unfold node. rewrite Hl. cbn. by apply negb_true_iff.
Qed.

(** The fields outside the table and the memory. *)
Definition meta s : Z * Z * Z * Z * option Z * bool * Z :=
  (home_dir_index s, trash_dir_index s, desktop_dir_index s, bin_dir_index s,
   cwd_node s, dirty s, clock s).

(** ** Ancestors *)

Definition parent s (i : nat) : nat := Z.to_nat (parent_dir (node s i)).

Fixpoint up s (n i : nat) : nat :=
  match n with O => i | S n => up s n (parent s i) end.

Lemma up_add s m n i : up s (m + n) i = up s n (up s m i).
Proof. revert i. induction m; intros i; simpl; auto. Qed.

Lemma up_S s n i : up s (S n) i = parent s (up s n i).
Proof. replace (S n) with (n + 1)%nat by lia. by rewrite up_add. Qed.

(** The invariant of the node table: slot 0 is the root, every other node in
    use has a proper name, is the only child of that name of a directory in use,
    and reaches the root. *)
Record tree_ok s : Prop := {
  t_len : length (files s) = MAX_FILES;
  t_root : in_use (node s 0) = true /\ type (node s 0) = FS_DIRECTORY /\ parent_dir (node s 0) = 0;
  t_parent i : in_use (node s i) = true ->
    0 <= parent_dir (node s i) /\ in_use (node s (parent s i)) = true /\
    type (node s (parent s i)) = FS_DIRECTORY;
  t_name i : (1 <= i)%nat -> in_use (node s i) = true -> path_name (name (node s i));
  t_unique i j : (1 <= i)%nat -> (1 <= j)%nat ->
    in_use (node s i) = true -> in_use (node s j) = true ->
    parent_dir (node s i) = parent_dir (node s j) -> name (node s i) = name (node s j) -> i = j;
  t_up i : in_use (node s i) = true -> up s (MAX_FILES - 1) i = 0%nat;
}.

Lemma parent_lt s i : tree_ok s -> in_use (node s i) = true -> (parent s i < MAX_FILES)%nat.
Proof.
  intros Ht Hu. destruct (t_parent s Ht i Hu) as (_ & Hp & _).
  rewrite <-(t_len s Ht). by apply in_use_lt.
Qed.

Lemma parent_root s : tree_ok s -> parent s 0 = 0%nat.
Proof. intros Ht. unfold parent. by destruct (t_root s Ht) as (_ & _ & ->). Qed.

Lemma up_root s n : tree_ok s -> up s n 0 = 0%nat.
Proof. intros Ht. induction n as [|n IH]; [done|]. simpl. by rewrite parent_root. Qed.

Lemma up_in_use s n i : tree_ok s -> in_use (node s i) = true -> in_use (node s (up s n i)) = true.
Proof.
  intros Ht. revert i. induction n as [|n IH]; intros i Hu; [done|]. simpl.
  apply IH. by apply (t_parent s Ht).
Qed.

(** A walk that reaches the root at all reaches it within the table's size. *)
Lemma up_bound s n i :
  length (files s) = MAX_FILES -> parent s 0 = 0%nat ->
  (forall k, in_use (node s (up s k i)) = true) -> up s n i = 0%nat ->
  up s (MAX_FILES - 1) i = 0%nat.
Proof.
  intros Hlen Hroot Huse.
  assert (Hup0 : forall k, up s k 0 = 0%nat).
  { induction k as [|k IH]; [done|]. simpl. by rewrite Hroot. }
  induction (lt_wf n) as [n _ IH]. intros Hn.
  destruct (Nat.lt_ge_cases n MAX_FILES) as [Hlt|Hge].
  { replace (MAX_FILES - 1)%nat with (n + (MAX_FILES - 1 - n))%nat by (unfold MAX_FILES in *; lia).
    by rewrite up_add, Hn. }
  set (l := (fun k => up s k i) <$> seq 0 (S n)).
  assert (Hdup : ~ NoDup l).
  { intros Hnd. assert (length l <= MAX_FILES)%nat.
    - rewrite <-(length_seq MAX_FILES 0). apply submseteq_length, NoDup_submseteq; [done|].
      intros x (k & -> & _)%list_elem_of_fmap. apply elem_of_seq.
      pose proof (in_use_lt _ _ (Huse k)). lia.
    - unfold l in *. rewrite length_fmap, length_seq in *. lia. }
  assert (Hex : exists a b, (a < b <= n)%nat /\ up s a i = up s b i).
  { destruct (decide (Exists (fun a => Exists (fun b =>
        (a < b)%nat /\ up s a i = up s b i) (seq 0 (S n))) (seq 0 (S n))))
      as [(a & Ha & (b & Hb & Hab)%Exists_exists)%Exists_exists|Hno].
    - exists a, b. rewrite elem_of_seq in Hb. split; [lia|tauto].
    - destruct Hdup. unfold l. apply NoDup_fmap_2_strong; [|apply NoDup_seq].
      intros x y Hx Hy Hxy. destruct (Nat.lt_trichotomy x y) as [?|[?|?]]; [|done|].
      + destruct Hno. apply Exists_exists. exists x. split; [done|]. apply Exists_exists. by exists y.
      + destruct Hno. apply Exists_exists. exists y. split; [done|]. apply Exists_exists. by exists x. }
  destruct Hex as (a & b & Hab & He).
  apply (IH (a + (n - b))%nat); [lia|].
  rewrite up_add, He, <-up_add. by replace (b + (n - b))%nat with n by lia.
Qed.

(** ** Updates that keep the shape of the tree *)

Record same_shape (f g : file_t) : Prop := {
  ss_use : in_use g = in_use f;
  ss_type : type g = type f;
  ss_parent : parent_dir g = parent_dir f;
  ss_name : name g = name f;
}.

Definition shape_pres s s' : Prop :=
  length (files s') = length (files s) /\ forall i, same_shape (node s i) (node s' i).

Lemma tree_ok_shape s s' : shape_pres s s' -> tree_ok s -> tree_ok s'.
Proof.
  intros [Hl Hs] [H1 H2 H3 H4 H5 H6].
  assert (Hpar : forall i, parent s' i = parent s i).
  { intros i. unfold parent. by rewrite (ss_parent _ _ (Hs i)). }
  assert (Hup : forall n i, up s' n i = up s n i).
  { induction n as [|n IH]; intros i; [done|]. simpl. by rewrite Hpar, IH. }
  split.
  - congruence.
  - destruct (Hs 0%nat) as [-> -> -> _]. done.
  - intros i. rewrite Hpar. destruct (Hs i) as [-> _ -> _], (Hs (parent s i)) as [-> -> _ _]. apply H3.
  - intros i Hi. destruct (Hs i) as [-> _ _ ->]. by apply H4.
  - intros i j Hi Hj. destruct (Hs i) as [-> _ -> ->], (Hs j) as [-> _ -> ->]. by apply H5.
  - intros i. rewrite Hup. destruct (Hs i) as [-> _ _ _]. apply H6.
Qed.

Lemma shape_put s i f :
  same_shape (node s i) f -> (i < length (files s))%nat -> shape_pres s (put i f s).
Proof.
  intros Hf Hi. split; [apply length_put|]. intros j. rewrite node_put by done.
  destruct (decide (j = i)) as [->|]; [done|by split].
Qed.

(** ** A new node *)

Section new_node.
Variables (s : fs H) (idx dir : nat) (f : file_t).
Hypothesis Hs : tree_ok s.
Hypothesis Hidx : (1 <= idx < MAX_FILES)%nat.
Hypothesis Hfree : in_use (node s idx) = false.
Hypothesis Hdir : in_use (node s dir) = true /\ type (node s dir) = FS_DIRECTORY.
Hypothesis Hf : in_use f = true /\ parent_dir f = Z.of_nat dir /\ path_name (name f).
Hypothesis Hnew : forall j, ~ child_named s dir (name f) j.

Lemma new_node_node j : node (put idx f s) j = if decide (j = idx) then f else node s j.
Proof. apply node_put. rewrite (t_len s Hs). lia. Qed.

Lemma new_node_parent j :
  parent (put idx f s) j = if decide (j = idx) then dir else parent s j.
Proof.
  unfold parent. rewrite new_node_node. destruct (decide _); [|done].
  destruct Hf as (_ & -> & _). lia.
Qed.

Lemma new_node_up n i : in_use (node s i) = true -> up (put idx f s) n i = up s n i.
Proof.
  revert i. induction n as [|n IH]; intros i Hi; [done|]. simpl. rewrite new_node_parent.
  rewrite decide_False by congruence. apply IH. by apply (t_parent s Hs).
Qed.

Lemma new_node_ok : tree_ok (put idx f s).
Proof.
  destruct Hf as (Hf1 & Hf2 & Hf3), Hdir as [Hd1 Hd2]. split.
  - rewrite length_put. apply (t_len s Hs).
  - rewrite new_node_node, decide_False by lia. apply (t_root s Hs).
  - intros i. rewrite new_node_parent, !new_node_node. destruct (decide (i = idx)) as [->|Hi].
    + intros _. rewrite decide_False by congruence. split; [lia|done].
    + intros Hu. destruct (t_parent s Hs i Hu) as (? & ? & ?).
      rewrite decide_False by congruence. done.
  - intros i. rewrite new_node_node. destruct (decide (i = idx)); [done|]. apply (t_name s Hs).
  - intros i j Hi Hj. rewrite !new_node_node.
    assert (Hc : forall k, (1 <= k)%nat -> in_use (node s k) = true ->
              parent_dir (node s k) = parent_dir f -> name (node s k) <> name f).
    { intros k Hk Hu Hp Hn. apply (Hnew k). rewrite Hf2 in Hp. split; [done|]. split; [done|].
      split; [done|]. pose proof (t_name s Hs k Hk Hu) as [? _ ? _ _ _].
      apply strncmp_eq_iff; [done|apply Hf3|done|done]. }
    destruct (decide (i = idx)) as [->|], (decide (j = idx)) as [->|]; try done.
    + intros _ Hu Hp Hn. by destruct (Hc j).
    + intros Hu _ Hp Hn. by destruct (Hc i).
    + by apply (t_unique s Hs).
  - intros i Hu. rewrite new_node_node in Hu. destruct (decide (i = idx)) as [->|Hi].
    + apply (up_bound _ MAX_FILES).
      * rewrite length_put. apply (t_len s Hs).
      * rewrite new_node_parent, decide_False by lia. by apply parent_root.
      * intros [|k]; simpl; [by rewrite new_node_node, decide_True|].
        rewrite new_node_parent, decide_True, new_node_up by done.
        rewrite new_node_node. destruct (decide _); [done|]. by apply up_in_use.
      * change MAX_FILES with (S (MAX_FILES - 1)). cbn [up].
        rewrite new_node_parent, decide_True, new_node_up by done. by apply (t_up s Hs).
    + rewrite new_node_up by done. by apply (t_up s Hs).
Qed.

End new_node.

End spec.

(** * File bodies and the heap: which node owns which block, and what freeing and
    allocating do to the bodies of the other files. *)

Section data.
Context {H : Type} `{!KernelHeap H} `{!KernelHeapSpec H}.
Implicit Types s : fs H.

(** The contents of a file. *)
Definition body s (i : nat) : list Z :=
  read_block (data (node s i)) 0 (Z.to_nat (size (node s i))) s.

(** A node with a capacity owns a live block of that length, no block has two
    owners, and a body without capacity is memory outside the heap. *)
Record data_ok s : Prop := {
  d_heap : heap_ok (heap s);
  d_own i : in_use (node s i) = true -> 0 < capacity (node s i) ->
    exists sz bs, live (heap s) !! data (node s i) = Some sz /\ capacity (node s i) <= sz /\
      blocks s !! data (node s i) = Some bs /\ Z.of_nat (length bs) = capacity (node s i) /\
      0 <= size (node s i) <= capacity (node s i) /\
      arena (data (node s i)) = true /\ data (node s i) <> 0;
  d_ext i : in_use (node s i) = true -> capacity (node s i) <= 0 ->
    capacity (node s i) = 0 /\ 0 <= size (node s i) /\
    (0 < size (node s i) -> exists bs, blocks s !! data (node s i) = Some bs /\
       size (node s i) <= Z.of_nat (length bs) /\ arena (data (node s i)) = false /\
       data (node s i) <> 0);
  d_disj i j : in_use (node s i) = true -> in_use (node s j) = true ->
    0 < capacity (node s i) -> 0 < capacity (node s j) ->
    data (node s i) = data (node s j) -> i = j;
}.

(** From [s] to [s'] the invariant is kept and no surviving body changes. *)
Definition data_pres s s' : Prop :=
  data_ok s -> data_ok s' /\
    forall j, in_use (node s j) = true -> in_use (node s' j) = true -> body s' j = body s j.

(** Ownership and bodies see these fields only. *)
Record same_data (f g : file_t) : Prop := {
  sd_use : in_use g = in_use f;
  sd_data : data g = data f;
  sd_size : size g = size f;
  sd_cap : capacity g = capacity f;
}.

Lemma data_ok_same s s' :
  heap s' = heap s -> blocks s' = blocks s -> (forall i, same_data (node s i) (node s' i)) ->
  data_pres s s'.
Proof.
  intros Hh Hb Hn [H1 H2 H3 H4]. split.
  - split.
    + by rewrite Hh.
    + intros i. destruct (Hn i) as [-> -> -> ->]. rewrite Hh, Hb. apply H2.
    + intros i. destruct (Hn i) as [-> -> -> ->]. rewrite Hb. apply H3.
    + intros i j. destruct (Hn i) as [-> -> _ ->], (Hn j) as [-> -> _ ->]. apply H4.
  - intros j _ _. unfold body, read_block. destruct (Hn j) as [_ -> -> _]. by rewrite Hb.
Qed.

Lemma data_pres_put s i f :
  (i < length (files s))%nat -> same_data (node s i) f -> data_pres s (put i f s).
Proof.
  intros Hi Hf. apply data_ok_same; [done|done|]. intros j. rewrite node_put by done.
  destruct (decide (j = i)) as [->|]; [done|by split].
Qed.

Lemma data_pres_trans s1 s2 s3 :
  (forall j, in_use (node s1 j) = true -> in_use (node s3 j) = true -> in_use (node s2 j) = true) ->
  data_pres s1 s2 -> data_pres s2 s3 -> data_pres s1 s3.
Proof.
  intros Hu H1 H2 Hok. destruct (H1 Hok) as [Hok2 Hb2]. destruct (H2 Hok2) as [Hok3 Hb3].
  split; [done|]. intros j Hj Hj3. rewrite Hb3 by auto. auto.
Qed.

(** The address of a body another node has is not one that [i] owns. *)
Lemma own_other s i j :
  data_ok s -> in_use (node s i) = true -> in_use (node s j) = true -> i <> j ->
  0 < capacity (node s i) -> 0 < size (node s j) -> data (node s i) <> data (node s j).
Proof.
  intros [_ H2 H3 H4] Hi Hj Hij Hc Hz Heq.
  destruct (Z.lt_ge_cases 0 (capacity (node s j))) as [Hcj|Hcj].
  - apply Hij. by apply H4.
  - destruct (H3 j Hj Hcj) as (_ & _ & He). destruct (He Hz) as (bs & _ & _ & Ha & _).
    destruct (H2 i Hi Hc) as (? & ? & _ & _ & _ & _ & _ & Ha' & _). rewrite Heq in Ha'. congruence.
Qed.

Lemma free_data_eq s i :
  data_ok s -> in_use (node s i) = true ->
  free_data i s = if 0 <? capacity (node s i) then free_block (data (node s i)) s else s.
Proof.
  intros [_ H2 _ _] Hi. unfold free_data, file_owns_data.
  destruct (Z.ltb_spec 0 (capacity (node s i))); [|by rewrite andb_false_r].
  destruct (H2 i Hi) as (? & ? & _ & _ & _ & _ & _ & _ & ?); [done|].
  by destruct (Z.eqb_spec (data (node s i)) 0).
Qed.

Lemma read_block_nil p off s : read_block p off 0 s = [].
Proof. done. Qed.

(** Freeing the block of [i] and giving the node another body that owns none. *)
Lemma release_ok s i f :
  data_ok s -> in_use (node s i) = true ->
  (in_use f = false \/ (capacity f = 0 /\ size f = 0)) ->
  let s' := put i f (free_data i s) in
  data_ok s' /\ forall j, in_use (node s' j) = true -> j <> i -> body s' j = body s j.
Proof.
  intros Hok Hi Hf s'. pose proof (in_use_lt s i Hi) as Hlt.
  assert (Hfiles : files (free_data i s) = files s).
  { unfold free_data. by destruct (_ && _). }
  assert (Hn : forall j, node s' j = if decide (j = i) then f else node s j).
  { intros j. unfold s'. rewrite node_put by (by rewrite Hfiles).
    unfold node. by rewrite Hfiles. }
  assert (Hheap : heap s' = if 0 <? capacity (node s i) then kfree (data (node s i)) (heap s) else heap s).
  { unfold s'. rewrite free_data_eq by done. by destruct (0 <? _). }
  assert (Hblk : blocks s' = if 0 <? capacity (node s i) then delete (data (node s i)) (blocks s) else blocks s).
  { unfold s'. rewrite free_data_eq by done. by destruct (0 <? _). }
  assert (Hb : forall j, in_use (node s j) = true -> j <> i -> 0 < size (node s j) ->
             blocks s' !! data (node s j) = blocks s !! data (node s j)).
  { intros j Hj Hji Hz. rewrite Hblk. destruct (Z.ltb_spec 0 (capacity (node s i))); [|done].
    rewrite lookup_delete_ne; [done|]. by apply own_other. }
  pose proof Hok as [H1 H2 H3 H4]. split.
  - assert (Hlive : heap_ok (heap s') /\ forall j, in_use (node s j) = true -> j <> i ->
       0 < capacity (node s j) -> live (heap s') !! data (node s j) = live (heap s) !! data (node s j)
         /\ blocks s' !! data (node s j) = blocks s !! data (node s j)).
    { rewrite Hheap, Hblk. destruct (Z.ltb_spec 0 (capacity (node s i))) as [Hc|Hc]; [|done].
      destruct (H2 i Hi Hc) as (sz & bs & Hl & _).
      destruct (kfree_ok (heap s) (data (node s i)) H1 (mk_is_Some _ _ Hl)) as [Hh Hlv].
      split; [done|]. intros j Hj Hji Hcj. rewrite Hlv.
      assert (data (node s i) <> data (node s j)) by (intros E; by destruct Hji; apply H4).
      by rewrite !lookup_delete_ne. }
    destruct Hlive as [Hh Hlive]. split; [done|..].
    + intros j. rewrite Hn. destruct (decide (j = i)) as [->|Hji].
      { intros Hu Hc. destruct Hf as [Hf|[Hf _]]; [congruence|lia]. }
      intros Hj Hc. destruct (Hlive j Hj Hji Hc) as [-> ->]. by apply H2.
    + intros j. rewrite Hn. destruct (decide (j = i)) as [->|Hji].
      { intros Hu _. destruct Hf as [Hf|[Hf Hz]]; [congruence|]. rewrite Hf, Hz. split; [done|].
        split; [done|]. lia. }
      intros Hj Hc. destruct (H3 j Hj Hc) as (? & ? & He). split; [done|]. split; [done|].
      intros Hz. rewrite Hb by done. by apply He.
    + intros j k. rewrite !Hn.
      destruct (decide (j = i)) as [->|], (decide (k = i)) as [->|]; try done.
      * intros Hu _ Hc. destruct Hf as [Hf|[Hf _]]; [congruence|lia].
      * intros _ Hu _ Hc. destruct Hf as [Hf|[Hf _]]; [congruence|lia].
      * apply H4.
  - intros j Hu Hji. unfold body. rewrite Hn in *. rewrite decide_False in * by done.
    destruct (Z.lt_ge_cases 0 (size (node s j))) as [Hz|Hz].
    + unfold read_block. by rewrite Hb.
    + replace (Z.to_nat (size (node s j))) with 0%nat by lia. done.
Qed.

Lemma data_pres_clear s i : in_use (node s i) = true -> data_pres s (clear_slot i (free_data i s)).
Proof.
  intros Hi Hok. destruct (release_ok s i null_file Hok Hi) as [H1 H2]; [by left|].
  split; [done|]. intros j _ Hj. apply H2; [done|]. intros ->.
  unfold clear_slot in Hj. rewrite node_put in Hj.
  - by rewrite decide_True in Hj.
  - pose proof (in_use_lt s i Hi). unfold free_data. by destruct (_ && _).
Qed.

End data.
