(* ===== verification/FsDelete.v ===== *)
(** Deleting a subtree. *)
From Stdlib Require Import ZArith Lia.
From stdpp Require Import base numbers list gmap strings.
From S2P Require Import Prelude HeapIface Fs FsSpec.

Section delete.
Context {H : Type} `{!KernelHeap H} `{!KernelHeapSpec H}.
Implicit Types s : fs H.

(** [i] is [idx] or a node below it. *)
Definition is_under s (idx i : nat) : bool :=
  in_use (node s i) && existsb (fun n => (up s n i =? idx)%nat) (seq 0 MAX_FILES).

Lemma is_under_true s idx i :
  tree_ok s -> idx <> 0%nat ->
  is_under s idx i = true <-> in_use (node s i) = true /\ exists n, up s n i = idx.
Proof.
  intros Ht Hne. unfold is_under. rewrite andb_true_iff, existsb_exists.
  setoid_rewrite Nat.eqb_eq. split.
  - intros [Hu (n & _ & Hn)]. eauto.
  - intros [Hu (n & Hn)]. split; [done|]. exists n. split; [|done]. apply list_elem_of_In, elem_of_seq.
    destruct (Nat.lt_ge_cases n MAX_FILES); [lia|].
    assert (up s n i = 0%nat); [|congruence].
    replace n with ((MAX_FILES - 1) + (n - (MAX_FILES - 1)))%nat by (unfold MAX_FILES in *; lia).
    rewrite up_add, (t_up s Ht i Hu). by apply up_root.
Qed.

Lemma is_under_unused s idx i : in_use (node s i) = false -> is_under s idx i = false.
Proof. unfold is_under. by intros ->. Qed.

(** No node is its own proper ancestor. *)
Lemma no_cycle s n i : tree_ok s -> in_use (node s i) = true -> i <> 0%nat -> up s (S n) i <> i.
Proof.
  intros Ht Hu Hne Hc.
  assert (Hk : forall k, up s (k * S n) i = i).
  { induction k as [|k IH]; [done|]. change (S k * S n)%nat with (S n + k * S n)%nat.
    by rewrite up_add, Hc. }
  assert (up s (256 * S n) i = 0%nat); [|by rewrite Hk in *].
  replace (256 * S n)%nat with ((MAX_FILES - 1) + (256 * S n - (MAX_FILES - 1)))%nat
    by (unfold MAX_FILES; lia).
  rewrite up_add, (t_up s Ht i Hu). by apply up_root.
Qed.

(** ** States in which some nodes were cleared *)

(** [p] is the block of a body that a node of [P] owns. *)
Definition owned_by s (P : nat -> bool) (p : Z) : Prop :=
  exists i, P i = true /\ in_use (node s i) = true /\ 0 < capacity (node s i) /\ data (node s i) = p.

(** The bodies of [P] are free in the heap of [s'], and no other block changed. *)
Definition released s (P : nat -> bool) s' : Prop :=
  data_ok s -> live (heap s') ⊆ live (heap s) /\
    forall p, (owned_by s P p -> live (heap s') !! p = None) /\
      (~ owned_by s P p -> live (heap s') !! p = live (heap s) !! p).

Record cleared s (P : nat -> bool) s' : Prop := {
  rm_node i : node s' i = if P i then null_file else node s i;
  rm_len : length (files s') = length (files s);
  rm_meta : meta s' = meta s;
  rm_data : data_pres s s';
}.

Record removed s (P : nat -> bool) s' : Prop := {
  rm_cleared :> cleared s P s';
  rm_live : released s P s';
}.

Lemma removed_none s P : (forall i, P i = false) -> removed s P s.
Proof.
  intros HP. split; [split; [intros i; by rewrite HP|done|done|by split]|].
  intros _. split; [done|]. intros p. split; [|done]. intros (i & Hi & _). by rewrite HP in Hi.
Qed.

Lemma removed_ext s P Q s' : (forall i, P i = Q i) -> removed s P s' -> removed s Q s'.
Proof.
  intros HPQ [[H1 H2 H3 H4] H5]. split; [split; try done; intros i; by rewrite <-HPQ|].
  assert (Ho : forall p, owned_by s Q p <-> owned_by s P p).
  { intros p. split; intros (i & Hi & Hr); exists i; [rewrite HPQ|rewrite <-HPQ]; done. }
  intros Hok. destruct (H5 Hok) as [Hsub Hl]. split; [done|]. intros p. rewrite !Ho. apply Hl.
Qed.

Lemma removed_trans s1 s2 s3 P Q :
  removed s1 P s2 -> removed s2 Q s3 -> removed s1 (fun i => Q i || P i) s3.
Proof.
  intros [[H1 H2 H3 H4] H5] [[K1 K2 K3 K4] K5]. split; [split|].
  - intros i. rewrite K1, H1. by destruct (Q i), (P i).
  - congruence.
  - congruence.
  - eapply data_pres_trans; [|done|done]. intros j _. rewrite K1. by destruct (Q j).
  - intros Hok. destruct (H5 Hok) as [Hsub Hl]. destruct (K5 (proj1 (H4 Hok))) as [Ksub Kl].
    split; [by etransitivity|]. intros p. split.
    + assert (Hgone : live (heap s2) !! p = None -> live (heap s3) !! p = None).
      { intros Hn. destruct (live (heap s3) !! p) as [n|] eqn:E; [|done].
        by rewrite (lookup_weaken _ _ _ _ E Ksub) in Hn. }
      intros (i & Hi & Hu & Hc & Hp). destruct (P i) eqn:EP.
      { apply Hgone, Hl. by exists i. }
      rewrite orb_false_r in Hi. apply Kl. exists i. by rewrite H1, EP.
    + intros Hno. rewrite (proj2 (Kl p)), (proj2 (Hl p)); [done|..].
      * intros (i & Hi & Hr). apply Hno. exists i. by rewrite Hi, orb_true_r.
      * intros (i & Hi & Hu & Hr). apply Hno. rewrite H1 in Hu, Hr. destruct (P i) eqn:EP; [done|].
        exists i. by rewrite Hi.
Qed.

Lemma released_clear s i :
  in_use (node s i) = true -> released s (fun j => (j =? i)%nat) (clear_slot i (free_data i s)).
Proof.
  intros Hi Hok. change (heap (clear_slot i (free_data i s))) with (heap (free_data i s)).
  rewrite free_data_eq by done. destruct (Z.ltb_spec 0 (capacity (node s i))) as [Hc|Hc].
  - destruct (d_own s Hok i Hi Hc) as (sz & bs & Hl & _). change (heap (free_block _ s)) with (kfree (data (node s i)) (heap s)).
    destruct (kfree_ok (heap s) (data (node s i)) (d_heap s Hok) (mk_is_Some _ _ Hl)) as [_ ->].
    split; [apply delete_subseteq|]. intros p. split.
    + intros (j & ->%Nat.eqb_eq & _ & _ & <-). apply lookup_delete_eq.
    + intros Hno. apply lookup_delete_ne. intros <-. apply Hno. exists i. by rewrite Nat.eqb_refl.
  - split; [done|]. intros p. split; [|done]. intros (j & ->%Nat.eqb_eq & _ & Hc' & _). lia.
Qed.

Lemma removed_clear s i :
  in_use (node s i) = true -> removed s (fun j => (j =? i)%nat) (clear_slot i (free_data i s)).
Proof.
  intros Hi. pose proof (in_use_lt s i Hi) as Hlt. split; [|by apply released_clear].
  assert (Hf : files (free_data i s) = files s /\ meta (free_data i s) = meta s).
  { unfold free_data. by destruct (_ && _). }
  destruct Hf as [Hf Hm]. split.
  - intros j. unfold clear_slot. rewrite node_put by (by rewrite Hf). unfold node. rewrite Hf.
    destruct (decide (j = i)), (Nat.eqb_spec j i); done.
  - unfold clear_slot. by rewrite length_put, Hf.
  - unfold clear_slot. done.
  - by apply data_pres_clear.
Qed.

Section removal.
Variables (s s' : fs H) (P : nat -> bool).
Hypothesis Hs : tree_ok s.
Hypothesis Hr : cleared s P s'.
Hypothesis HP0 : P 0%nat = false.
Hypothesis Hclosed : forall i, in_use (node s i) = true -> P (parent s i) = true -> P i = true.

Lemma removed_keep i : in_use (node s' i) = true <-> in_use (node s i) = true /\ P i = false.
Proof. rewrite (rm_node _ _ _ Hr). destruct (P i); cbn; naive_solver. Qed.

Lemma removed_up n i : in_use (node s i) = true -> P i = false -> up s' n i = up s n i.
Proof.
  revert i. induction n as [|n IH]; intros i Hu Hi; [done|]. simpl.
  assert (parent s' i = parent s i) as ->.
  { unfold parent. by rewrite (rm_node _ _ _ Hr), Hi. }
  apply IH; [by apply (t_parent s Hs)|].
  destruct (P (parent s i)) eqn:E; [|done]. by rewrite Hclosed in Hi.
Qed.

Lemma removed_tree : tree_ok s'.
Proof.
  assert (Hpar : forall i, in_use (node s i) = true -> P i = false -> P (parent s i) = false).
  { intros i Hu Hi. destruct (P (parent s i)) eqn:E; [|done]. by rewrite Hclosed in Hi. }
  split.
  - rewrite (rm_len _ _ _ Hr). apply (t_len s Hs).
  - rewrite (rm_node _ _ _ Hr), HP0. apply (t_root s Hs).
  - intros i [Hu Hi]%removed_keep.
    assert (parent s' i = parent s i) as -> by (unfold parent; by rewrite (rm_node _ _ _ Hr), Hi).
    rewrite !(rm_node _ _ _ Hr), Hi, Hpar by done. by apply (t_parent s Hs).
  - intros i Hi1 [Hu Hi]%removed_keep. rewrite (rm_node _ _ _ Hr), Hi. by apply (t_name s Hs).
  - intros i j Hi1 Hj1 [Hu Hi]%removed_keep [Hv Hj]%removed_keep.
    rewrite !(rm_node _ _ _ Hr), Hi, Hj. by apply (t_unique s Hs).
  - intros i [Hu Hi]%removed_keep. rewrite removed_up by done. by apply (t_up s Hs).
Qed.

Lemma removed_under j i : is_under s' j i = is_under s j i && negb (P i).
Proof.
  unfold is_under. destruct (in_use (node s i)) eqn:Hu.
  - destruct (P i) eqn:Hi.
    + rewrite andb_false_r. by rewrite (rm_node _ _ _ Hr), Hi.
    + rewrite (proj2 (removed_keep i)) by done. rewrite andb_true_r. f_equal.
      apply existsb_ext. intros n. by rewrite removed_up.
  - rewrite (rm_node _ _ _ Hr). by destruct (P i); cbn; [|rewrite Hu].
Qed.

End removal.

(** ** The loops over the children *)

(** The children a pass deletes: directories in pass 0, all in pass 1. *)
Definition selected s (idx pass j : nat) : bool :=
  negb (j =? 0)%nat && in_use (node s j) && (parent_dir (node s j) =? Z.of_nat idx) &&
  ((type (node s j) =? FS_DIRECTORY) || (pass =? 1)%nat).

Definition gone s (idx pass : nat) (done_ : list nat) (i : nat) : bool :=
  existsb (fun j => selected s idx pass j && is_under s j i) done_.

Lemma gone_true s idx pass l i :
  gone s idx pass l i = true <->
  exists j, j ∈ l /\ selected s idx pass j = true /\ is_under s j i = true.
Proof.
  unfold gone. rewrite existsb_exists. split; intros (j & Hj & Hb); exists j;
    rewrite list_elem_of_In, andb_true_iff in *; tauto.
Qed.

Lemma gone_snoc s idx pass l j i :
  gone s idx pass (l ++ [j]) i = (selected s idx pass j && is_under s j i) || gone s idx pass l i.
Proof. unfold gone. rewrite existsb_app. simpl. by rewrite orb_false_r, orb_comm. Qed.

Lemma selected_true s idx pass j :
  selected s idx pass j = true <->
  j <> 0%nat /\ in_use (node s j) = true /\ parent_dir (node s j) = Z.of_nat idx /\
  (type (node s j) = FS_DIRECTORY \/ pass = 1%nat).
Proof.
  unfold selected.
  rewrite !andb_true_iff, orb_true_iff, negb_true_iff, Nat.eqb_neq, !Z.eqb_eq, Nat.eqb_eq. tauto.
Qed.

Lemma selected_ne s idx pass j : selected s idx pass j = true -> j <> 0%nat.
Proof. by intros (? & _)%selected_true. Qed.

(** [fuel] serves every child. *)
Definition deletes_children s (idx : nat) (rec : nat -> fs H -> option (fs H)) : Prop :=
  forall cur j P, removed s P cur -> tree_ok cur -> P idx = false -> j <> 0%nat ->
    in_use (node cur j) = true -> parent_dir (node cur j) = Z.of_nat idx ->
    exists cur', rec j cur = Some cur' /\ removed cur (is_under cur j) cur'.

Section loops.
Variables (s : fs H) (idx pass : nat) (rec : nat -> fs H -> option (fs H)).
Hypothesis Hs : tree_ok s.
Hypothesis Hidx : in_use (node s idx) = true /\ idx <> 0%nat.
Hypothesis Hrec : deletes_children s idx rec.

Lemma gone_closed l i :
  in_use (node s i) = true -> gone s idx pass l (parent s i) = true -> gone s idx pass l i = true.
Proof.
  intros Hu (j & Hj & Hsel & Hund)%gone_true. apply gone_true. exists j. split; [done|].
  split; [done|]. apply is_under_true in Hund as [_ [n Hn]]; [|done|by eapply selected_ne].
  apply is_under_true; [done|by eapply selected_ne|]. split; [done|]. by exists (S n).
Qed.

Lemma gone_root l : gone s idx pass l 0 = false.
Proof.
  destruct (gone s idx pass l 0) eqn:E; [|done]. apply gone_true in E as (j & _ & Hsel & Hund).
  pose proof (selected_ne _ _ _ _ Hsel) as Hne.
  apply is_under_true in Hund as [_ [n Hn]]; [|done..]. rewrite up_root in Hn by done. congruence.
Qed.

Lemma gone_idx l : gone s idx pass l idx = false.
Proof.
  destruct (gone s idx pass l idx) eqn:E; [|done]. apply gone_true in E as (j & _ & Hsel & Hund).
  pose proof (selected_ne _ _ _ _ Hsel) as Hne. apply selected_true in Hsel as (_ & Hu & Hp & _).
  apply is_under_true in Hund as [_ [n Hn]]; [|done..].
  destruct Hidx as [Hi Hi0]. destruct (no_cycle s n idx Hs Hi Hi0).
  rewrite up_S, Hn. unfold parent. rewrite Hp. lia.
Qed.

Lemma under_file j i :
  in_use (node s j) = true -> type (node s j) <> FS_DIRECTORY -> j <> 0%nat ->
  is_under s j i = (i =? j)%nat.
Proof.
  intros Hj Ht Hne. apply eq_true_iff_eq. rewrite is_under_true, Nat.eqb_eq by done. split.
  - intros [Hi [[|n] Hn]]; [done|]. rewrite up_S in Hn. exfalso. apply Ht. subst j.
    by apply (t_parent s Hs), up_in_use.
  - intros ->. split; [done|]. by exists 0%nat.
Qed.

(** A child under another one that was removed is removed already. *)
Lemma gone_absorb l j i :
  gone s idx pass l j = true -> selected s idx pass j && is_under s j i = true ->
  gone s idx pass l i = true.
Proof.
  intros (k & Hk & Hselk & Hund)%gone_true [Hsel Hi]%andb_true_iff.
  pose proof (selected_ne _ _ _ _ Hsel) as Hj0. pose proof (selected_ne _ _ _ _ Hselk) as Hk0.
  apply is_under_true in Hund as [_ [n Hn]]; [|done..].
  apply is_under_true in Hi as [Hu [m Hm]]; [|done..].
  apply gone_true. exists k. split; [done|]. split; [done|].
  apply is_under_true; [done..|]. split; [done|]. exists (m + n)%nat. by rewrite up_add, Hm.
Qed.

Lemma delete_loop l :
  forall before cur, removed s (gone s idx pass before) cur -> 0%nat ∉ l ->
  exists cur', foldl (delete_child rec idx pass) (Some cur) l = Some cur' /\
    removed s (gone s idx pass (before ++ l)) cur'.
Proof.
  induction l as [|j l IH]; intros before cur Hcur H0.
  { exists cur. rewrite app_nil_r. done. }
  assert (Hj0 : j <> 0%nat) by set_solver. assert (Hl0 : 0%nat ∉ l) by set_solver.
  assert (Hstep : exists cur1, delete_child rec idx pass (Some cur) j = Some cur1 /\
    removed s (gone s idx pass (before ++ [j])) cur1).
  { unfold delete_child. cbn [mbind option_bind].
    pose proof (rm_node _ _ _ Hcur j) as Hnode.
    destruct (gone s idx pass before j) eqn:Hg.
    - rewrite Hnode. exists cur. split; [done|]. eapply removed_ext; [|exact Hcur].
      intros i. rewrite gone_snoc. destruct (selected s idx pass j && is_under s j i) eqn:E; [|done].
      cbn. by apply (gone_absorb _ j).
    - destruct (selected s idx pass j) eqn:Hsel.
      + pose proof Hsel as Hsel'. apply selected_true in Hsel' as (_ & Hu & Hp & Hty).
        rewrite Hnode, Hu, Hp, Z.eqb_refl. cbn [negb].
        pose proof (removed_tree s cur _ Hs Hcur (gone_root _) (gone_closed _)) as Hct.
        assert (Hmerge : forall cur1, removed cur (is_under cur j) cur1 ->
                  removed s (gone s idx pass (before ++ [j])) cur1).
        { intros cur1 Hr1. eapply removed_ext; [|exact (removed_trans _ _ _ _ _ Hcur Hr1)].
          intros i. cbv beta. rewrite gone_snoc, Hsel, andb_true_l.
          rewrite (removed_under s cur _ Hs Hcur (gone_closed _)).
          by destruct (is_under s j i), (gone s idx pass before i). }
        destruct (Z.eqb_spec (type (node s j)) FS_DIRECTORY) as [Hd|Hd].
        * destruct (Hrec cur j (gone s idx pass before)) as (cur1 & Hc1 & Hr1); try done.
          -- apply gone_idx.
          -- by rewrite Hnode.
          -- by rewrite Hnode.
          -- exists cur1. split; [done|]. by apply Hmerge.
        * destruct Hty as [?|Hpass]; [done|]. rewrite Hpass. cbn [Nat.eqb].
          eexists. split; [done|]. rewrite <-Hpass. apply Hmerge.
          eapply removed_ext; [|apply removed_clear; by rewrite Hnode].
          intros i. cbv beta. rewrite (removed_under s cur _ Hs Hcur (gone_closed _)).
          rewrite under_file by done. destruct (Nat.eqb_spec i j) as [->|]; [|done]. by rewrite Hg.
      + rewrite Hnode. exists cur. split.
        * assert (Hns := Hsel). unfold selected in Hns. rewrite (proj2 (Nat.eqb_neq _ _) Hj0) in Hns.
          cbn [negb andb] in Hns.
          destruct (in_use (node s j)); [|done]. cbn [negb andb] in *.
          destruct (parent_dir (node s j) =? Z.of_nat idx); [|done]. cbn [negb andb] in *.
          by destruct (type (node s j) =? FS_DIRECTORY), (pass =? 1)%nat.
        * eapply removed_ext; [|exact Hcur]. intros i. by rewrite gone_snoc, Hsel. }
  destruct Hstep as (cur1 & Hc1 & Hr1). cbn [foldl]. rewrite Hc1.
  destruct (IH (before ++ [j]) cur1 Hr1 Hl0) as (cur' & Hc' & Hr').
  exists cur'. split; [done|]. by rewrite <-app_assoc in Hr'.
Qed.

End loops.

Lemma slots_ne : 0%nat ∉ slots.
Proof. unfold slots. rewrite elem_of_seq. lia. Qed.

Lemma in_slots s i : tree_ok s -> in_use (node s i) = true -> i <> 0%nat -> i ∈ slots.
Proof.
  intros Ht Hu Hne. pose proof (in_use_lt s i Hu). rewrite (t_len s Ht) in *.
  unfold slots. apply elem_of_seq. lia.
Qed.

(** A node below [idx] is [idx] or below one of its children. *)
Lemma under_child s idx i :
  tree_ok s -> idx <> 0%nat -> in_use (node s idx) = true ->
  is_under s idx i = (i =? idx)%nat || gone s idx 1 slots i.
Proof.
  intros Ht Hne Hu. apply eq_true_iff_eq. rewrite orb_true_iff, Nat.eqb_eq, gone_true, is_under_true by done.
  split.
  - intros [Hi [[|n] Hn]]; [by left|]. right. rewrite up_S in Hn.
    pose proof (up_in_use s n i Ht Hi) as Huj.
    assert (up s n i <> 0%nat) by (intros E; rewrite E, parent_root in Hn; congruence).
    exists (up s n i). split; [by apply (in_slots s)|]. split.
    + apply selected_true. split; [done|]. split; [done|]. split; [|by right].
      destruct (t_parent s Ht _ Huj) as (Hp & _). unfold parent in Hn. lia.
    + apply is_under_true; [done..|]. eauto.
  - intros [->|(j & _ & Hsel & Hund)].
    + split; [done|]. by exists 0%nat.
    + pose proof (selected_ne _ _ _ _ Hsel) as Hj. apply is_under_true in Hund as [Hi [n Hn]]; [|done..].
      split; [done|]. exists (S n). rewrite up_S, Hn. apply selected_true in Hsel as (_ & _ & Hp & _).
      unfold parent. rewrite Hp. lia.
Qed.

(** The directories below [idx] first, the rest in the second pass. *)
Lemma gone_two_passes s s1 idx i :
  tree_ok s -> in_use (node s idx) = true -> idx <> 0%nat ->
  removed s (gone s idx 0 slots) s1 ->
  gone s1 idx 1 slots i || gone s idx 0 slots i = gone s idx 1 slots i.
Proof.
  intros Ht Hu Hne Hr.
  assert (Hcl := gone_closed s idx 0 Ht slots).
  apply eq_true_iff_eq. rewrite orb_true_iff. split.
  - intros [(j & Hj & Hsel & Hund)%gone_true|(j & Hj & Hsel & Hund)%gone_true]; apply gone_true; exists j.
    + rewrite (removed_under s s1 _ Ht Hr Hcl) in Hund. apply andb_prop in Hund as [Hund _].
      apply selected_true in Hsel as (Hj0 & Hu1 & Hp & _).
      apply (removed_keep s s1 _ Hr) in Hu1 as [Hu1 Hg]. rewrite (rm_node _ _ _ Hr), Hg in Hp.
      split; [done|]. split; [|done]. apply selected_true. tauto.
    + split; [done|]. split; [|done]. apply selected_true in Hsel. apply selected_true. tauto.
  - intros (j & Hj & Hsel & Hund)%gone_true. pose proof (selected_ne _ _ _ _ Hsel) as Hj0.
    apply selected_true in Hsel as (_ & Huj & Hp & _).
    destruct (gone s idx 0 slots i) eqn:Hg; [by right|left].
    assert (Hgj : gone s idx 0 slots j = false).
    { destruct (gone s idx 0 slots j) eqn:E; [|done].
      assert (gone s idx 0 slots i = true); [|congruence].
      apply gone_true in E as (k & Hk & Hselk & Hundk).
      pose proof (selected_ne _ _ _ _ Hselk) as Hk0.
      apply is_under_true in Hundk as [_ [n Hn]]; [|done..].
      apply is_under_true in Hund as [Hi [m Hm]]; [|done..].
      apply gone_true. exists k. split; [done|]. split; [done|]. apply is_under_true; [done..|].
      split; [done|]. exists (m + n)%nat. by rewrite up_add, Hm. }
    apply gone_true. exists j. split; [done|]. split.
    + apply selected_true. rewrite (rm_node _ _ _ Hr), Hgj. split; [done|]. split; [done|].
      split; [done|by right].
    + rewrite (removed_under s s1 _ Ht Hr Hcl), Hund, Hg. done.
Qed.

(** A node without directory type has no children. *)
Lemma gone_file s idx pass l i :
  tree_ok s -> type (node s idx) <> FS_DIRECTORY -> gone s idx pass l i = false.
Proof.
  intros Ht Hty. destruct (gone s idx pass l i) eqn:E; [|done].
  apply gone_true in E as (j & _ & (_ & Hu & Hp & _)%selected_true & _).
  destruct (t_parent s Ht j Hu) as (_ & _ & Hd). destruct Hty.
  unfold parent in Hd. rewrite Hp, Nat2Z.id in Hd. done.
Qed.

Lemma delete_spec fuel s idx n :
  tree_ok s -> idx <> 0%nat -> in_use (node s idx) = true -> up s n idx <> 0%nat ->
  (MAX_FILES <= n + fuel)%nat ->
  exists s', delete_recursive fuel idx s = Some (0, s') /\ removed s (is_under s idx) s'.
Proof.
  revert s idx n. induction fuel as [|fuel IH]; intros s idx n Ht Hne Hu Hup Hn.
  { destruct Hup. replace n with ((MAX_FILES - 1) + (n - (MAX_FILES - 1)))%nat by (unfold MAX_FILES in *; lia).
    rewrite up_add, (t_up s Ht idx Hu). by apply up_root. }
  cbn [delete_recursive]. rewrite (proj2 (Nat.eqb_neq _ _) Hne), Hu. cbn [negb orb].
  set (rec := fun (i : nat) (s : fs H) => r ← delete_recursive fuel i s; Some (snd r)).
  assert (Hrec : forall s0, tree_ok s0 -> in_use (node s0 idx) = true -> up s0 n idx <> 0%nat ->
                   deletes_children s0 idx rec).
  { intros s0 Ht0 Hu0 Hup0 cur j P Hcur Hct HP Hj Huj Hpj.
    assert (Hni : node cur idx = node s0 idx) by (by rewrite (rm_node _ _ _ Hcur), HP).
    assert (Hjn : up cur (S n) j <> 0%nat).
    { change (up cur n (parent cur j) <> 0%nat). unfold parent at 1. rewrite Hpj, Nat2Z.id.
      assert (Hupc : up cur n idx = up s0 n idx); [|by rewrite Hupc].
      clear -Ht0 Hu0 Hcur Hct HP Hni. 
      assert (Hgen : forall m, in_use (node cur (up cur m idx)) = true /\ up cur m idx = up s0 m idx).
      { induction m as [|m [IHu IHe]]; [cbn [up]; by rewrite Hni|].
        rewrite !up_S. split; [by apply (t_parent cur Hct)|].
        rewrite <-IHe. unfold parent. f_equal. rewrite (rm_node _ _ _ Hcur) in IHu.
        rewrite (rm_node _ _ _ Hcur). by destruct (P (up cur m idx)). }
      apply Hgen. }
    destruct (IH cur j (S n) Hct Hj Huj Hjn) as (cur' & Hc' & Hr'); [lia|].
    exists cur'. unfold rec. rewrite Hc'. done. }
  destruct (delete_loop s idx 0 rec Ht (conj Hu Hne) (Hrec s Ht Hu Hup) slots [] s) as (s1 & Hs1 & Hr1).
  { by apply removed_none. }
  { apply slots_ne. }
  rewrite Hs1. cbn [mbind option_bind]. cbn [app] in Hr1.
  pose proof (removed_tree s s1 _ Ht Hr1 (gone_root s idx 0 Ht slots) (gone_closed s idx 0 Ht slots)) as Ht1.
  assert (Hi1 : node s1 idx = node s idx).
  { by rewrite (rm_node _ _ _ Hr1), (gone_idx s idx 0 Ht (conj Hu Hne)). }
  assert (Hfin : forall s2, removed s (gone s idx 1 slots) s2 ->
     exists s', Some (0, clear_slot idx (free_data idx s2)) = Some (0, s') /\ removed s (is_under s idx) s').
  { intros s2 Hr2. eexists. split; [done|]. 
    eapply removed_ext; [|eapply removed_trans; [exact Hr2|apply removed_clear]].
    - intros i. cbv beta. by rewrite under_child.
    - by rewrite (rm_node _ _ _ Hr2), (gone_idx s idx 1 Ht (conj Hu Hne)). }
  rewrite Hi1. destruct (Z.eqb_spec (type (node s idx)) FS_DIRECTORY) as [Hd|Hd].
  - destruct (delete_loop s1 idx 1 rec Ht1) with (l := slots) (before := @nil nat) (cur := s1)
      as (s2 & Hs2 & Hr2).
    + by rewrite Hi1.
    + apply Hrec; [done|by rewrite Hi1|].
      intros E. apply Hup. rewrite <-E. symmetry.
      by rewrite (removed_up s s1 _ Ht Hr1 (gone_closed s idx 0 Ht slots)) by
        (done || by apply gone_idx).
    + by apply removed_none.
    + apply slots_ne.
    + rewrite Hs2. cbn [mbind option_bind]. apply Hfin.
      eapply removed_ext; [|exact (removed_trans _ _ _ _ _ Hr1 Hr2)].
      intros i. cbn [app]. by apply gone_two_passes.
  - cbn [mbind option_bind]. apply Hfin. eapply removed_ext; [|exact Hr1].
    intros i. by rewrite !gone_file.
Qed.

End delete.

(** * Moving a node: a directory never goes below itself. *)

Section move.
Context {H : Type} `{!KernelHeap H} `{!KernelHeapSpec H}.
Variables (s : fs H) (e p : nat) (f : file_t).

(** [p] is a directory in use that is not [e] and not below it. *)
Definition target_ok : Prop :=
  in_use (node s p) = true /\ type (node s p) = FS_DIRECTORY /\ is_under s e p = false.

Hypothesis Hs : tree_ok s.
Hypothesis He : in_use (node s e) = true /\ e <> 0%nat.
Hypothesis Hp : target_ok.
Hypothesis Hf : in_use f = true /\ type f = type (node s e) /\ parent_dir f = Z.of_nat p /\ path_name (name f).
Hypothesis Hnew : forall j, j <> e -> ~ child_named s p (name f) j.

Lemma moved_node j : node (put e f s) j = if decide (j = e) then f else node s j.
Proof. apply node_put, in_use_lt. by destruct He. Qed.

Lemma moved_parent j : parent (put e f s) j = if decide (j = e) then p else parent s j.
Proof. unfold parent. rewrite moved_node. case_decide; [|done]. destruct Hf as (_ & _ & -> & _). lia. Qed.

Lemma moved_use j : in_use (node (put e f s) j) = in_use (node s j).
Proof. rewrite moved_node. case_decide as Hj; [|done]. subst. destruct Hf as (-> & _), He as [-> _]. done. Qed.

Lemma under_self : is_under s e e = true.
Proof. apply is_under_true; [done|by destruct He|]. split; [by destruct He|by exists 0%nat]. Qed.

(** Above a node that is not below [e] nothing has moved. *)
Lemma moved_up_apart n i :
  in_use (node s i) = true -> is_under s e i = false -> up (put e f s) n i = up s n i.
Proof.
  revert i. induction n as [|n IH]; intros i Hu Hi; [done|]. cbn [up]. rewrite moved_parent.
  destruct (decide (i = e)) as [->|]; [by rewrite under_self in Hi|].
  apply IH; [by apply (t_parent s Hs)|]. apply not_true_iff_false. intros Hc.
  apply is_under_true in Hc as [_ [k Hk]]; [|done|by destruct He].
  assert (is_under s e i = true); [|congruence]. apply is_under_true; [done|by destruct He|].
  split; [done|]. by exists (S k).
Qed.

Lemma moved_reaches_root n i : in_use (node s i) = true -> up s n i = e -> exists m, up (put e f s) m i = 0%nat.
Proof.
  assert (Htop : exists m, up (put e f s) m e = 0%nat).
  { exists (S (MAX_FILES - 1)). cbn [up]. rewrite moved_parent, decide_True by done. destruct Hp as (Hu & _ & Hn).
    rewrite moved_up_apart by done. by apply (t_up s Hs). }
  revert i. induction n as [|n IH]; intros i Hu Hn; [cbn in Hn; by subst|].
  destruct (decide (i = e)) as [->|Hi]; [done|]. cbn [up] in Hn.
  destruct (IH (parent s i)) as [m Hm]; [by apply (t_parent s Hs)|done|].
  exists (S m). cbn [up]. by rewrite moved_parent, decide_False.
Qed.

Lemma moved_tree : tree_ok (put e f s).
Proof.
  destruct He as [Hu He0], Hf as (_ & Hty & Hpf & Hnm), Hp as (Hpu & Hpd & _).
  assert (Hpar : forall i, in_use (node s i) = true ->
    0 <= parent_dir (node (put e f s) i) /\
    in_use (node s (parent (put e f s) i)) = true /\
    type (node (put e f s) (parent (put e f s) i)) = FS_DIRECTORY).
  { intros i Hi. assert (Ht' : forall j, type (node (put e f s) j) = type (node s j)).
    { intros j. rewrite moved_node. by case_decide; subst. }
    rewrite Ht', moved_parent, moved_node. destruct (decide (i = e)); [split; [lia|done]|]. by apply (t_parent s Hs). }
  assert (Huse : forall i, in_use (node s i) = true -> forall k, in_use (node s (up (put e f s) k i)) = true).
  { intros i Hi k. revert i Hi. induction k as [|k IH]; intros i Hi; [done|]. cbn [up]. by apply IH, Hpar. }
  split.
  - rewrite length_put. apply (t_len s Hs).
  - rewrite moved_node, decide_False by done. apply (t_root s Hs).
  - intros i. rewrite !moved_use. intros Hi. by apply Hpar.
  - intros i Hi. rewrite moved_use, moved_node. case_decide; [done|]. by apply (t_name s Hs).
  - intros i j Hi Hj. rewrite !moved_use, !moved_node. intros Hui Huj.
    assert (Hc : forall k, k <> e -> (1 <= k)%nat -> in_use (node s k) = true ->
              parent_dir (node s k) = parent_dir f -> name (node s k) <> name f).
    { intros k Hke Hk Huk Hpk Hn. apply (Hnew k Hke). rewrite Hpf in Hpk. split; [done|]. split; [done|].
      split; [done|]. pose proof (t_name s Hs k Hk Huk) as [? _ ? _ _ _].
      apply strncmp_eq_iff; [done|apply Hnm|done|done]. }
    destruct (decide (i = e)) as [->|], (decide (j = e)) as [->|]; try done.
    + intros Hpj Hn. by destruct (Hc j).
    + intros Hpi Hn. by destruct (Hc i).
    + by apply (t_unique s Hs).
  - intros i. rewrite moved_use. intros Hi.
    assert (Hr : exists m, up (put e f s) m i = 0%nat).
    { destruct (is_under s e i) eqn:E.
      - apply is_under_true in E as [_ [n Hn]]; [|done..]. by eapply moved_reaches_root.
      - exists (MAX_FILES - 1)%nat. rewrite moved_up_apart by done. by apply (t_up s Hs). }
    destruct Hr as [m Hm]. apply (up_bound _ m); [rewrite length_put; apply (t_len s Hs)| | |done].
    + rewrite moved_parent, decide_False by done. by apply parent_root.
    + intros k. rewrite moved_use. by apply Huse.
Qed.

(** With the body it had. *)
Lemma moved_ok : data_ok s -> same_data (node s e) f -> tree_ok (put e f s) /\ data_ok (put e f s).
Proof.
  intros Hok Hsd. split; [apply moved_tree|]. apply (data_pres_put s e f); [|done|done].
  apply in_use_lt. by destruct He.
Qed.

End move.
