(* ===== verification/FsPath.v ===== *)
(** The path resolver: how a walk splits at a slash, what it finds, and which
    updates of the table it does not see. *)
From Stdlib Require Import ZArith Lia.
From stdpp Require Import base numbers list gmap strings.
From S2P Require Import Prelude HeapIface Fs FsSpec.

Section path.
Context {H : Type} `{!KernelHeap H}.
Implicit Types s : fs H.

(** The walk of the code, on the path's own length. *)
Definition walk_at (dir : nat) (p : list Z) s : walk_result := walk dir p MAX_FILENAME s.

(** One component. *)
Definition walk_step (k : nat -> list Z -> walk_result) (dir : nat) (p : list Z) s : walk_result :=
  let '(a, r) := span_slash p in
  let comp := take (MAX_FILENAME - 1) a in
  let p := skip_slash r in
  if bool_decide (comp = []) || bool_decide (comp = DOT) then k dir p
  else if bool_decide (comp = DOTDOT) then k (parent s dir) p
  else match find_in_dir (Z.of_nat dir) comp s with
       | Some e => k e p
       | None => if has_slash p then Enoent else Missing dir comp
       end.

Lemma walk_loop_step fuel dir p s :
  p <> [] ->
  walk_loop (S fuel) dir p MAX_FILENAME s =
    walk_step (fun d p => walk_loop fuel d p MAX_FILENAME s) dir p s.
Proof.
  intros Hp. destruct p as [|c p]; [done|]. cbn [walk_loop]. unfold walk_step, parent.
  destruct (span_slash (c :: p)) as [a r]. rewrite take_take, Nat.min_id. done.
Qed.

Lemma walk_step_ext k k' dir p s :
  (forall d q, q = skip_slash (snd (span_slash p)) -> k d q = k' d q) ->
  walk_step k dir p s = walk_step k' dir p s.
Proof.
  intros Hk. unfold walk_step. destruct (span_slash p) as [a r]. cbn [snd] in Hk.
  by repeat (case_match; [|]; rewrite ?Hk by done); rewrite ?Hk by done.
Qed.

Lemma walk_fuel fuel dir p s :
  (length p <= fuel)%nat -> walk_loop fuel dir p MAX_FILENAME s = walk_at dir p s.
Proof.
  unfold walk_at, walk.
  assert (Hgen : forall n dir p fuel fuel', (length p <= n)%nat -> (length p <= fuel)%nat ->
    (length p <= fuel')%nat -> walk_loop fuel dir p MAX_FILENAME s = walk_loop fuel' dir p MAX_FILENAME s).
  { clear. induction n as [|n IH]; intros dir p fuel fuel' Hn Hf Hf'.
    { destruct p; [|simpl in *; lia]. by destruct fuel, fuel'. }
    destruct p as [|c p]; [by destruct fuel, fuel'|].
    destruct fuel as [|fuel], fuel' as [|fuel']; try (simpl in *; lia).
    rewrite !walk_loop_step by done. apply walk_step_ext. intros d q ->.
    pose proof (walk_rest_shorter (c :: p) ltac:(done)). cbn [length] in *.
    apply IH; lia. }
  intros Hf. by apply (Hgen (length p)).
Qed.

Lemma walk_at_nil dir s : walk_at dir [] s = Final dir.
Proof. done. Qed.

Lemma walk_at_eq dir p s :
  p <> [] -> walk_at dir p s = walk_step (fun d q => walk_at d q s) dir p s.
Proof.
  intros Hp. unfold walk_at at 1, walk. destruct p as [|c p]; [done|]. cbn [length].
  rewrite walk_loop_step by done. apply walk_step_ext. intros d q ->.
  apply walk_fuel. pose proof (walk_rest_shorter (c :: p) Hp). cbn [length] in *. lia.
Qed.

Lemma span_slash_app_slash p q :
  span_slash (p ++ SLASH :: q) = (fst (span_slash p), snd (span_slash p) ++ SLASH :: q).
Proof.
  rewrite (span_slash_eq p) at 1. pose proof (span_slash_no p).
  destruct (span_slash_rest p) as [->|[r ->]]; rewrite <-app_assoc.
  - simpl. by apply span_slash_app; [|right; eauto].
  - simpl. by apply span_slash_app; [|right; eauto].
Qed.

(** A walk that succeeds on a prefix goes on from where it ended. *)
Lemma walk_app dir p q s d :
  walk_at dir p s = Final d -> walk_at dir (p ++ SLASH :: q) s = walk_at d q s.
Proof.
  remember (length p) as n eqn:Hn. revert dir p Hn. induction (lt_wf n) as [n _ IH].
  intros dir p -> Hw. destruct (decide (p = [])) as [->|Hp].
  { rewrite walk_at_nil in Hw. injection Hw as ->. cbn [app]. rewrite walk_at_eq by done. done. }
  assert (Hp' : p ++ SLASH :: q <> []) by (by destruct p).
  rewrite walk_at_eq in Hw by done. rewrite walk_at_eq by done. unfold walk_step in *.
  rewrite span_slash_app_slash.
  pose proof (walk_rest_shorter p Hp) as Hlt.
  pose proof (span_slash_rest p) as Hrest. destruct (span_slash p) as [a r]. cbn [fst snd] in *.
  set (comp := take (MAX_FILENAME - 1) a) in *.
  assert (Hk : forall d', walk_at d' (skip_slash r) s = Final d ->
     walk_at d' (skip_slash (r ++ SLASH :: q)) s = walk_at d q s).
  { intros d' Hd. destruct Hrest as [->|[r' ->]].
    - cbn [app skip_slash] in *. rewrite Z.eqb_refl. rewrite walk_at_nil in Hd. by injection Hd as ->.
    - cbn [skip_slash app] in *. rewrite Z.eqb_refl in *. by apply (IH (length r')). }
  destruct (_ || _); [by apply Hk|]. destruct (bool_decide _); [by apply Hk|].
  destruct (find_in_dir _ comp s); [by apply Hk|]. by destruct (has_slash _).
Qed.

Lemma path_name_span nm : path_name nm -> span_slash nm = (nm, []).
Proof.
  intros [_ _ _ Hs _ _]. rewrite <-(app_nil_r nm) at 1. apply span_slash_app; [done|by left].
Qed.

Lemma walk_name dir nm s :
  path_name nm ->
  walk_at dir nm s = match find_in_dir (Z.of_nat dir) nm s with
                     | Some e => Final e | None => Missing dir nm end.
Proof.
  intros Hnm. pose proof Hnm as [_ Hne Hlen _ Hd Hdd]. rewrite walk_at_eq by done.
  unfold walk_step. rewrite path_name_span by done. cbn [skip_slash].
  rewrite firstn_all2 by lia. rewrite !bool_decide_eq_false_2 by done. cbn [orb].
  by destruct (find_in_dir _ nm s).
Qed.

(** ** Walks in a table that has grown *)

Record grown s s' : Prop := {
  gr_find dir nm e : find_in_dir (Z.of_nat dir) nm s = Some e ->
    find_in_dir (Z.of_nat dir) nm s' = Some e;
  gr_parent i : in_use (node s i) = true -> parent s' i = parent s i;
}.

Lemma find_in_dir_use dir nm s e :
  find_in_dir (Z.of_nat dir) nm s = Some e -> in_use (node s e) = true.
Proof. by intros [(_ & ? & _) _]%find_in_dir_Some. Qed.

Lemma walk_grown s s' dir p d :
  tree_ok s -> grown s s' -> in_use (node s dir) = true ->
  walk_at dir p s = Final d -> walk_at dir p s' = Final d /\ in_use (node s d) = true.
Proof.
  intros Ht Hg. remember (length p) as n eqn:Hn. revert dir p Hn. induction (lt_wf n) as [n _ IH].
  intros dir p -> Hu Hw. destruct (decide (p = [])) as [->|Hp].
  { rewrite walk_at_nil in *. by injection Hw as <-. }
  rewrite walk_at_eq in Hw by done. rewrite walk_at_eq by done. unfold walk_step in *.
  pose proof (walk_rest_shorter p Hp) as Hlt. destruct (span_slash p) as [a r]. cbn [snd] in *.
  set (comp := take (MAX_FILENAME - 1) a) in *.
  destruct (_ || _); [by eapply IH|]. destruct (bool_decide _).
  { rewrite (gr_parent s s' Hg) by done. eapply IH; [exact Hlt|done| |done].
    by apply (t_parent s Ht). }
  destruct (find_in_dir _ comp s) as [e|] eqn:E.
  - rewrite (gr_find _ _ Hg _ _ _ E). eapply IH; [exact Hlt|done| |done].
    by eapply find_in_dir_use.
  - by destruct (has_slash _).
Qed.

Definition cwd_ok s : Prop := in_use (node s (Z.to_nat (task_cwd s))) = true.

Lemma resolve_walk path s d :
  fs_resolve_impl path s = Some d <-> walk_at (match path with [] => 0%nat | _ => start_dir path s end) path s = Final d.
Proof.
  unfold fs_resolve_impl, walk_at. destruct path as [|c p].
  - split; [by intros [= <-]|by intros [= <-]].
  - destruct (walk _ _ _ s); split; intros; simplify_eq; done.
Qed.

Lemma start_in_use path s : tree_ok s -> cwd_ok s -> in_use (node s (start_dir path s)) = true.
Proof. intros Ht Hc. unfold start_dir. destruct (starts_slash path); [apply (t_root s Ht)|done]. Qed.

Lemma resolve_grown path s s' d :
  tree_ok s -> cwd_ok s -> grown s s' -> task_cwd s' = task_cwd s ->
  fs_resolve_impl path s = Some d -> fs_resolve_impl path s' = Some d.
Proof.
  intros Ht Hc Hg Hcwd Hr%resolve_walk. apply resolve_walk.
  unfold start_dir in *. rewrite Hcwd.
  assert (Hu : in_use (node s (match path with [] => 0%nat | _ :: _ => start_dir path s end)) = true).
  { destruct path; [apply (t_root s Ht)|by apply start_in_use]. }
  unfold start_dir in Hu. by apply (walk_grown s s').
Qed.

Lemma resolve_use path s d :
  tree_ok s -> cwd_ok s -> fs_resolve_impl path s = Some d -> in_use (node s d) = true.
Proof.
  intros Ht Hc Hr%resolve_walk.
  assert (Hu : in_use (node s (match path with [] => 0%nat | _ :: _ => start_dir path s end)) = true).
  { destruct path; [apply (t_root s Ht)|by apply start_in_use]. }
  eapply (walk_grown s s) in Hr as [_ ?]; [done|done| |done]. by split.
Qed.

(** The path of a name inside a directory: [dirpath/nm]. *)
Lemma resolve_join dirpath nm s d :
  fs_resolve_impl dirpath s = Some d -> path_name nm ->
  let path := dirpath ++ SLASH :: nm in
  fs_resolve_impl path s = find_in_dir (Z.of_nat d) nm s /\
  fs_resolve_parent path s =
    Some (if find_in_dir (Z.of_nat d) nm s is Some e then (e, []) else (d, nm)).
Proof.
  intros Hr%resolve_walk Hnm path.
  assert (Hw : walk (start_dir path s) path MAX_FILENAME s =
    match find_in_dir (Z.of_nat d) nm s with Some e => Final e | None => Missing d nm end).
  { change (walk_at (start_dir path s) path s = match find_in_dir (Z.of_nat d) nm s with
      Some e => Final e | None => Missing d nm end).
    rewrite <-walk_name by done. unfold path. 
    destruct dirpath as [|c p].
    - rewrite walk_at_nil in Hr. injection Hr as <-. by rewrite (walk_app _ [] nm s 0).
    - change (start_dir ((c :: p) ++ SLASH :: nm) s) with (start_dir (c :: p) s).
      by apply walk_app. }
  unfold fs_resolve_impl, fs_resolve_parent. destruct path as [|x y] eqn:E.
  { unfold path in E. by destruct dirpath. }
  rewrite Hw. by destruct (find_in_dir (Z.of_nat d) nm s).
Qed.

End path.
