(* ===== verification/FsOps.v ===== *)
(** What the operations of the file system do to the tree and to the bodies. *)
From Stdlib Require Import ZArith Lia.
From stdpp Require Import base numbers list gmap strings.
From S2P Require Import Prelude HeapIface Fs FsSpec FsDelete FsPath.

(** ** Capacity growth *)

Lemma grow_cap_spec fuel cap need :
  0 < cap -> need <= cap * 2 ^ Z.of_nat fuel -> need <= 2 ^ 30 ->
  exists c, grow_cap fuel cap need = Some c /\ need <= c /\ cap <= c /\ (c < 2 * need \/ c = cap).
Proof.
  revert cap. induction fuel as [|fuel IH]; intros cap Hc Hn Hlim; cbn [grow_cap];
    destruct (Z.leb_spec need cap).
  - exists cap. split; [done|]. lia.
  - simpl in Hn. lia.
  - exists cap. split; [done|]. lia.
  - rewrite i32_small by lia. rewrite Nat2Z.inj_succ, Z.pow_succ_r in Hn by lia.
    destruct (IH (cap * 2)) as (c & Hg & ? & ? & ?); [lia|lia|done|].
    exists c. split; [done|]. lia.
Qed.

Section ops.
Context {H : Type} `{!KernelHeap H} `{!KernelHeapSpec H}.
Variable stale : Z -> Z -> list Z.
Hypothesis Hstale : forall p n, 0 <= n -> length (stale p n) = Z.to_nat n.
Implicit Types s : fs H.

(** ** Creation *)

Record created s (idx dir : nat) (nm : list Z) (ty fl : Z) s' : Prop := {
  cr_idx : (1 <= idx < MAX_FILES)%nat;
  cr_free : in_use (node s idx) = false;
  cr_node j : node s' j =
    if decide (j = idx)
    then File nm 0 0 0 true ty (Z.of_nat dir) fl (u32 (clock s)) (u32 (clock s)) else node s j;
  cr_tree : tree_ok s';
  cr_grown : grown s s';
  cr_find : find_in_dir (Z.of_nat dir) nm s' = Some idx;
  cr_data : data_pres s s';
  cr_meta : meta s' = meta s;
}.

Lemma child_new s idx dir f nm j :
  tree_ok s -> (1 <= idx < MAX_FILES)%nat ->
  child_named (put idx f s) dir nm j ->
  (j = idx /\ parent_dir f = Z.of_nat dir /\ strncmp_eq MAX_FILENAME (name f) nm = true) \/
  (j <> idx /\ child_named s dir nm j).
Proof.
  intros Ht Hi (Hj & Hu & Hp & Hs). rewrite node_put in * by (rewrite (t_len s Ht); lia).
  destruct (decide (j = idx)); [by left|right]. done.
Qed.

Lemma create_entry_eq nm ty parent fl s :
  path_name nm ->
  create_entry nm ty parent fl s =
    match find_in_dir parent nm s, find_free_slot s with
    | None, Some idx =>
        (Some idx, put idx (now_stamp (clock s)
           (File nm 0 0 0 true ty (if parent <? 0 then 0 else parent) fl 0 0)) s)
    | _, _ => (None, s)
    end.
Proof.
  intros [_ Hne Hlen _ _ _]. unfold create_entry.
  rewrite (firstn_all2 nm) by (unfold MAX_FILENAME in *; lia).
  destruct nm; [done|]. by destruct (find_in_dir _ _ s), (find_free_slot s).
Qed.

Lemma create_entry_ok s dir nm ty fl idx s' :
  tree_ok s -> in_use (node s dir) = true -> type (node s dir) = FS_DIRECTORY -> path_name nm ->
  create_entry nm ty (Z.of_nat dir) fl s = (Some idx, s') -> created s idx dir nm ty fl s'.
Proof.
  intros Ht Hd1 Hd2 Hnm. pose proof Hnm as [Hc Hne Hlen _ _ _].
  rewrite create_entry_eq by done.
  destruct (find_in_dir (Z.of_nat dir) nm s) eqn:Hf; [done|].
  rewrite find_in_dir_None in Hf.
  destruct (find_free_slot s) as [i|] eqn:Hi; [|done]. intros [= <- <-].
  apply find_free_slot_Some in Hi as [Hi Hfree]. rewrite (t_len s Ht) in Hi.
  destruct (Z.ltb_spec (Z.of_nat dir) 0); [lia|].
  set (f := now_stamp (clock s) (File nm 0 0 0 true ty (Z.of_nat dir) fl 0 0)).
  assert (Hlt : (i < length (files s))%nat) by (rewrite (t_len s Ht); lia).
  assert (Hnf : forall j, ~ child_named s dir (name f) j) by done.
  split.
  - done.
  - done.
  - intros j. by rewrite node_put.
  - by apply new_node_ok with (dir := dir).
  - split.
    + intros d n e [He Hmin]%find_in_dir_Some. apply find_in_dir_Some.
      assert (Hei : e <> i) by (intros ->; destruct He as (_ & ? & _); congruence).
      split.
      * destruct He as (? & ? & ? & ?). unfold child_named. rewrite node_put by done.
        by rewrite decide_False.
      * intros j [(-> & Hp & Hs)|[_ Hj]]%child_new; [|by apply Hmin|done|done].
        exfalso. destruct He as (He1 & He2 & He3 & He4). apply (Hf e). unfold child_named.
        change (parent_dir f) with (Z.of_nat dir) in Hp. change (name f) with nm in Hs.
        rewrite He3, <-Hp. split; [done|]. split; [done|]. split; [done|].
        unfold strncmp_eq in *. rewrite bool_decide_eq_true in *. congruence.
    + intros j Hj. unfold parent. rewrite node_put by done. rewrite decide_False by congruence. done.
  - apply find_in_dir_Some. split.
    + unfold child_named. rewrite node_put, decide_True by done. split; [lia|]. split; [done|].
      split; [done|]. by apply strncmp_eq_iff.
    + intros j [(-> & _)|[_ Hj]]%child_new; [done| |done|done]. by destruct (Hf j).
  - intros Hok. pose proof Hok as [H1 H2 H3 H4]. split.
    + assert (Hn : forall j, node (put i f s) j = if decide (j = i) then f else node s j)
        by (intros; by apply node_put).
      split; [done|..].
      * intros j. rewrite Hn. destruct (decide (j = i)); [cbn; lia|apply H2].
      * intros j. rewrite Hn. destruct (decide (j = i)); [cbn; lia|apply H3].
      * intros j k. rewrite !Hn.
        destruct (decide (j = i)), (decide (k = i)); cbn; try lia. apply H4.
    + intros j Hj _. unfold body. rewrite node_put by done. by rewrite decide_False by congruence.
  - done.
Qed.

(** Creation fails only for a name that exists or a full table. *)
Lemma create_entry_fail s dir nm ty fl s' :
  path_name nm -> create_entry nm ty (Z.of_nat dir) fl s = (None, s') ->
  s' = s /\ (is_Some (find_in_dir (Z.of_nat dir) nm s) \/ find_free_slot s = None).
Proof.
  intros Hnm. rewrite create_entry_eq by done.
  destruct (find_in_dir _ nm s) eqn:E; [|destruct (find_free_slot s)]; intros; simplify_eq; eauto.
Qed.

(** ** Writing *)

(** A node [i] that gets a block of its own; the other nodes' blocks stay. *)
Lemma rebody_ok s s' i f sz bs :
  data_ok s -> in_use (node s i) = true ->
  (forall j, node s' j = if decide (j = i) then f else node s j) ->
  heap_ok (heap s') ->
  (forall j, in_use (node s j) = true -> j <> i -> 0 < capacity (node s j) ->
     live (heap s') !! data (node s j) = live (heap s) !! data (node s j) /\
     data f <> data (node s j)) ->
  (forall j, in_use (node s j) = true -> j <> i -> 0 < capacity (node s j) \/ 0 < size (node s j) ->
     blocks s' !! data (node s j) = blocks s !! data (node s j)) ->
  in_use f = true -> 0 < capacity f -> live (heap s') !! data f = Some sz -> capacity f <= sz ->
  blocks s' !! data f = Some bs -> Z.of_nat (length bs) = capacity f ->
  0 <= size f <= capacity f -> arena (data f) = true -> data f <> 0 ->
  data_ok s' /\ forall j, in_use (node s j) = true -> j <> i -> body s' j = body s j.
Proof.
  intros [H1 H2 H3 H4] Hi Hn Hheap Hlive Hblk Hu Hc Hl Hsz Hb Hlen Hsize Har Hnz. split.
  - split; [done|..].
    + intros j. rewrite Hn. destruct (decide (j = i)) as [->|Hj].
      * intros _ _. exists sz, bs. done.
      * intros Huj Hcj. destruct (Hlive j Huj Hj Hcj) as [-> _].
        rewrite Hblk by auto. by apply H2.
    + intros j. rewrite Hn. destruct (decide (j = i)) as [->|Hj]; [lia|].
      intros Huj Hcj. destruct (H3 j Huj Hcj) as (? & ? & He). split; [done|]. split; [done|].
      intros Hz. rewrite Hblk by auto. by apply He.
    + intros j k. rewrite !Hn. destruct (decide (j = i)) as [->|Hj], (decide (k = i)) as [->|Hk]; try done.
      * intros _ Huk _ Hck Hd. by destruct (Hlive k Huk Hk Hck) as [_ []].
      * intros Huj _ Hcj _ Hd. by destruct (Hlive j Huj Hj Hcj) as [_ []].
      * apply H4.
  - intros j Huj Hj. unfold body. rewrite Hn, decide_False by done.
    destruct (Z.lt_ge_cases 0 (size (node s j))) as [Hz|Hz].
    + unfold read_block. rewrite Hblk by auto. done.
    + replace (Z.to_nat (size (node s j))) with 0%nat by lia. done.
Qed.

Lemma table_entry_node s i :
  (i < MAX_FILES)%nat -> fs_table_entry (Z.of_nat i) s = Some (node s i).
Proof.
  intros Hi. unfold fs_table_entry. destruct (Z.ltb_spec (Z.of_nat i) 0); [lia|].
  destruct (Z.leb_spec (Z.of_nat MAX_FILES) (Z.of_nat i)); [lia|]. cbn [orb]. by rewrite Nat2Z.id.
Qed.

(** Where a body is stored, and that a fresh block is elsewhere. *)
Lemma body_block s i :
  data_ok s -> in_use (node s i) = true -> 0 < size (node s i) ->
  data (node s i) <> 0 /\ (exists bs, blocks s !! data (node s i) = Some bs /\
    size (node s i) <= Z.of_nat (length bs)) /\
  length (body s i) = Z.to_nat (size (node s i)) /\
  (forall p, live (heap s) !! p = None -> arena p = true -> p <> data (node s i)).
Proof.
  intros [_ H2 H3 _] Hu Hz.
  assert (Hb : data (node s i) <> 0 /\ (exists bs, blocks s !! data (node s i) = Some bs /\
    size (node s i) <= Z.of_nat (length bs)) /\
    (forall p, live (heap s) !! p = None -> arena p = true -> p <> data (node s i))).
  { destruct (Z.lt_ge_cases 0 (capacity (node s i))) as [Hc|Hc].
    - destruct (H2 i Hu Hc) as (sz & bs & Hl & _ & Hb & Hlen & Hs & _ & Hnz).
      split; [done|]. split; [exists bs; split; [done|lia]|]. intros p Hp _ ->. congruence.
    - destruct (H3 i Hu Hc) as (_ & _ & He). destruct (He Hz) as (bs & Hb & Hs & Ha & Hnz).
      split; [done|]. split; [by exists bs|]. intros p _ Hp ->. congruence. }
  destruct Hb as (Hnz & (bs & Hb & Hs) & Hp). split; [done|]. split; [by exists bs|].
  split; [|done]. unfold body, read_block. rewrite Hb. cbn. apply length_slice. lia.
Qed.

(** The address of an owned block is not a fresh one. *)
Lemma own_not_fresh s j p :
  data_ok s -> in_use (node s j) = true -> 0 < capacity (node s j) \/ 0 < size (node s j) ->
  live (heap s) !! p = None -> arena p = true -> p <> data (node s j).
Proof.
  intros Hok Hu [Hc|Hz] Hp Ha.
  - destruct (d_own s Hok j Hu Hc) as (sz & bs & Hl & _). intros ->. congruence.
  - by apply (body_block s j Hok Hu Hz).
Qed.

Record cap_ensured s (i : nat) (need : Z) (ok : bool) s' : Prop := {
  ce_data : data_ok s';
  ce_body j : in_use (node s j) = true -> body s' j = body s j;
  ce_node j : j <> i -> node s' j = node s j;
  ce_self : exists d c, node s' i = with_body d (size (node s i)) c (node s i) /\
              (ok = true -> need <= c);
  ce_len : length (files s') = length (files s);
  ce_meta : meta s' = meta s;
}.

Lemma with_body_id f : with_body (data f) (size f) (capacity f) f = f.
Proof. by destruct f. Qed.

Lemma ensure_cap_spec s i need :
  data_ok s -> (i < MAX_FILES)%nat -> in_use (node s i) = true ->
  size (node s i) <= need <= 2 ^ 30 ->
  exists ok s', file_ensure_cap stale (Z.of_nat i) need s = Some (ok, s') /\
    cap_ensured s i need ok s'.
Proof.
  intros Hok Hi Hu Hneed. pose proof Hok as [H1 H2 H3 H4].
  pose proof (in_use_lt s i Hu) as Hlt.
  assert (Hsz0 : 0 <= size (node s i) /\ 0 <= capacity (node s i)).
  { destruct (Z.lt_ge_cases 0 (capacity (node s i))) as [Hc|Hc].
    - destruct (H2 i Hu Hc) as (? & ? & _ & _ & _ & _ & ? & _). lia.
    - destruct (H3 i Hu Hc) as (? & ? & _). lia. }
  set (f := node s i) in *.
  unfold file_ensure_cap. rewrite table_entry_node by done. change (node s i) with f. rewrite Hu. cbn [negb].
  destruct (Z.leb_spec need (capacity f)) as [Hle|Hgt].
  { exists true, s. split; [done|]. split; try done. exists (data f), (capacity f).
    by rewrite with_body_id. }
  set (base := if negb (capacity f =? 0) then capacity f else if 0 <? size f then size f else 128).
  assert (Hb : 0 < base /\ (base <= need \/ base = 128)).
  { unfold base. destruct (Z.eqb_spec (capacity f) 0); cbn [negb]; [|lia].
    destruct (Z.ltb_spec 0 (size f)); lia. }
  destruct (Z.eqb_spec base 0); [lia|]. cbn [negb].
  destruct (grow_cap_spec 33 base need) as (c & Hg & Hc1 & Hc2 & Hc3); [lia| |lia|].
  { change (Z.of_nat 33) with 33. lia. }
  rewrite Hg. cbn [mbind option_bind]. 
  assert (Hc : 0 < c <= 2 ^ 31) by lia.
  unfold alloc_block. rewrite (wrap_small 32) by lia.
  destruct (kmalloc c (heap s)) as [[nd|] h'] eqn:Hk.
  2: { destruct (kmalloc_fail (heap s) c h' H1 ltac:(lia) Hk) as [Hh Hl].
       exists false, (set_mem h' (blocks s) s). split; [done|].
       split; try done; [|by exists (data f), (capacity f); rewrite with_body_id].
       split; [done|..]; [|apply H3|apply H4]. intros j. cbn. rewrite Hl. apply H2. }
  destruct (kmalloc_ok (heap s) c nd h' H1 ltac:(lia) Hk)
    as (Hh' & Hnd & Har & Hfresh & sz & Hsz & Hlive & _).
  set (s1 := set_mem h' (<[nd:=stale nd c]> (blocks s)) s).
  set (s2 := if negb (data f =? 0) && (0 <? size f)
             then copy_in nd 0 (read_block (data f) 0 (Z.to_nat (size f)) s1) s1 else s1).
  set (bs' := if 0 <? size f then splice 0 (body s i) (stale nd c) else stale nd c).
  assert (Hf2 : forall p, live (heap s) !! p = None -> arena p = true ->
            0 < size f -> p <> data f /\ data f <> 0).
  { intros p Hp Hpa Hz. destruct (body_block s i Hok Hu Hz) as (? & _ & _ & Hne).
    split; [by apply Hne|done]. }
  assert (Hs2 : heap s2 = h' /\ blocks s2 = <[nd := bs']> (blocks s) /\ files s2 = files s /\ meta s2 = meta s).
  { unfold s2, bs'. destruct (Z.ltb_spec 0 (size f)) as [Hz|Hz].
    - destruct (Hf2 nd Hfresh Har Hz) as [Hne Hnz]. destruct (Z.eqb_spec (data f) 0); [done|].
      cbn [negb andb]. split; [done|]. split; [|done]. unfold copy_in, s1, read_block, body.
      cbn [blocks set_mem]. rewrite lookup_insert_ne by done. by rewrite alter_insert_eq.
    - by rewrite andb_false_r. }
  destruct Hs2 as (Hh2 & Hb2 & Hfi2 & Hm2).
  set (s3 := if (0 <? capacity f) && negb (data f =? 0) then free_block (data f) s2 else s2).
  assert (Hown : 0 < capacity f -> data f <> 0 /\ is_Some (live (heap s) !! data f)).
  { intros Hcf. destruct (H2 i Hu Hcf) as (? & ? & Hl & _ & _ & _ & _ & _ & ?). split; [done|eauto]. }
  assert (Hs3 : heap s3 = (if 0 <? capacity f then kfree (data f) h' else h') /\
    blocks s3 = (if 0 <? capacity f then delete (data f) (<[nd := bs']> (blocks s)) else <[nd := bs']> (blocks s)) /\
    files s3 = files s /\ meta s3 = meta s).
  { unfold s3. destruct (Z.ltb_spec 0 (capacity f)) as [Hcf|Hcf]; [|by rewrite <-Hh2, <-Hb2].
    destruct (Hown Hcf) as [Hnz _]. destruct (Z.eqb_spec (data f) 0); [done|]. cbn [negb andb].
    unfold free_block. cbn [heap blocks files set_mem]. by rewrite Hh2, Hb2. }
  destruct Hs3 as (Hh3 & Hb3 & Hfi3 & Hm3). rewrite Nat2Z.id.
  change (exists ok s', Some (true, put i (with_body nd (size f) c f) s3) = Some (ok, s') /\
            cap_ensured s i need ok s').
  set (f' := with_body nd (size f) c f). set (s' := put i f' s3).
  assert (Hnode : forall j, node s' j = if decide (j = i) then f' else node s j).
  { intros j. unfold s'. rewrite node_put by (by rewrite Hfi3). unfold node. by rewrite Hfi3. }
  assert (Hnds : 0 < capacity f -> nd <> data f).
  { intros Hcf. apply (own_not_fresh s i); auto. }
  assert (Hlv : heap_ok (heap s') /\ live (heap s') =
     if 0 <? capacity f then delete (data f) (<[nd := sz]> (live (heap s))) else <[nd := sz]> (live (heap s))).
  { change (heap s') with (heap s3). rewrite Hh3. destruct (Z.ltb_spec 0 (capacity f)) as [Hcf|Hcf].
    - destruct (Hown Hcf) as [_ [lf Hlf]]. specialize (Hnds Hcf).
      destruct (kfree_ok h' (data f) Hh') as [? ->]; [|by rewrite Hlive].
      rewrite Hlive, lookup_insert_ne by done. eauto.
    - by rewrite Hlive. }
  destruct Hlv as [Hheap Hlv].
  assert (Hbn : blocks s' !! nd = Some bs').
  { change (blocks s') with (blocks s3). rewrite Hb3. destruct (Z.ltb_spec 0 (capacity f)) as [Hcf|Hcf].
    - rewrite lookup_delete_ne by (apply not_eq_sym; auto). by rewrite lookup_insert_eq.
    - by rewrite lookup_insert_eq. }
  assert (Hlen : Z.of_nat (length bs') = c).
  { unfold bs'. destruct (Z.ltb_spec 0 (size f)) as [Hz|Hz]; [rewrite length_splice|];
      rewrite ?Hstale by lia; try lia.
    destruct (body_block s i Hok Hu Hz) as (_ & _ & Hl & _). rewrite Hl. change (node s i) with f. lia. }
  destruct (rebody_ok s s' i f' sz bs') as [Hok' Hbody]; try done.
  - intros j Hj Hji Hcj. rewrite Hlv. assert (Hne : nd <> data (node s j)) by (apply (own_not_fresh s j); auto).
    split; [|done]. destruct (Z.ltb_spec 0 (capacity f)) as [Hcf|Hcf].
    + rewrite lookup_delete_ne, lookup_insert_ne; [done|done|]. intros E. apply Hji. symmetry. by apply H4.
    + by rewrite lookup_insert_ne.
  - intros j Hj Hji Hcz. change (blocks s') with (blocks s3). rewrite Hb3.
    assert (Hne : nd <> data (node s j)) by (apply (own_not_fresh s j); auto).
    destruct (Z.ltb_spec 0 (capacity f)) as [Hcf|Hcf].
    + rewrite lookup_delete_ne, lookup_insert_ne; [done|done|].
      destruct (Z.lt_ge_cases 0 (capacity (node s j))).
      * intros E. apply Hji. symmetry. by apply H4.
      * apply own_other; auto. lia.
    + by rewrite lookup_insert_ne.
  - cbn. lia.
  - rewrite Hlv. change (data f') with nd. destruct (Z.ltb_spec 0 (capacity f)) as [Hcf|Hcf].
    + rewrite lookup_delete_ne by (apply not_eq_sym; auto). by rewrite lookup_insert_eq.
    + by rewrite lookup_insert_eq.
  - cbn. lia.
  - cbn. lia.
  - exists true, s'. split; [done|]. split; try done.
    + intros j Hj. destruct (decide (j = i)) as [->|Hji]; [|by apply Hbody].
      unfold body. rewrite Hnode, decide_True by done. cbn [data size f' with_body].
      change (node s i) with f. unfold read_block at 1. rewrite Hbn. cbn [from_option]. unfold id, bs'.
      destruct (Z.ltb_spec 0 (size f)) as [Hz|Hz].
      * destruct (body_block s i Hok Hu Hz) as (_ & _ & Hl & _). change (node s i) with f in Hl.
        change (read_block (data f) 0 (Z.to_nat (size f)) s) with (body s i).
        rewrite <-Hl. apply slice_splice_eq. rewrite Hl, Hstale by lia. cbn. lia.
      * by replace (Z.to_nat (size f)) with 0%nat by lia.
    + intros j Hj. by rewrite Hnode, decide_False.
    + exists nd, c. rewrite Hnode, decide_True by done. done.
    + unfold s'. by rewrite length_put, Hfi3.
Qed.

(** The body of [src] copied into a node [d] without one. *)
Lemma copy_body_ok s src d :
  tree_ok s -> data_ok s -> in_use (node s src) = true -> in_use (node s d) = true -> src <> d ->
  capacity (node s d) = 0 -> size (node s d) = 0 -> size (node s src) < 2 ^ 31 ->
  let s' := snd (copy_body stale src d s) in
  tree_ok s' /\ data_ok s' /\
  forall j, in_use (node s j) = true -> j <> d -> body s' j = body s j.
Proof.
  intros Ht Hok Hus Hud Hne Hcd Hzd Hlim. pose proof (in_use_lt s d Hud) as Hlt.
  assert (Hstamp : forall s1 : fs H, tree_ok s1 -> data_ok s1 -> in_use (node s1 d) = true ->
    tree_ok (stamp_node d s1) /\ data_ok (stamp_node d s1) /\
    forall j, in_use (node s1 j) = true -> body (stamp_node d s1) j = body s1 j).
  { intros s1 Ht1 Hok1 Hu1. pose proof (in_use_lt s1 d Hu1) as Hl1. unfold stamp_node.
    split; [apply (tree_ok_shape s1); [by apply shape_put|done]|].
    destruct (data_pres_put s1 d (now_stamp (clock s1) (node s1 d)) Hl1 ltac:(by split) Hok1) as [Ha Hb].
    split; [done|]. intros j Hj. apply Hb; [done|]. rewrite node_put by done. by case_decide; subst. }
  unfold copy_body. destruct (Z.ltb_spec 0 (size (node s src))) as [Hz|Hz]; cbn [andb].
  2:{ destruct (Hstamp s Ht Hok Hud) as (? & ? & Hb). cbn [snd]. auto. }
  destruct (body_block s src Hok Hus Hz) as (Hnz & _ & Hlen & Hfar).
  rewrite (proj2 (Z.eqb_neq _ _) Hnz). cbn [negb]. unfold alloc_block. rewrite (wrap_small 32) by lia.
  destruct (kmalloc _ (heap s)) as [[p|] h'] eqn:Hk; cbn [snd].
  - destruct (kmalloc_ok (heap s) (size (node s src)) p h' (d_heap s Hok) ltac:(lia) Hk) as (Hh & Hp & Har & Hno & sz & Hsz & Hlive & _).
    set (s1 := set_mem h' (<[p:=stale p (size (node s src))]> (blocks s)) s).
    set (bs := read_block _ _ _ s1). set (s2 := copy_in p 0 bs s1).
    set (f := with_body p (size (node s src)) (size (node s src)) (node s2 d)).
    assert (Ebs : bs = body s src).
    { unfold bs, body, read_block, s1. cbn [blocks set_mem]. rewrite lookup_insert_ne; [done|]. by apply (Hfar p). }
    assert (Hn : forall j, node (put d f s2) j = if decide (j = d) then f else node s j).
    { intros j. rewrite (node_put s2 d f j) by exact Hlt. reflexivity. }
    assert (Hbl : blocks (put d f s2) !! p = Some (splice 0 bs (stale p (size (node s src))))).
    { unfold s2, copy_in, s1. cbn [blocks set_mem put set_files]. by rewrite lookup_alter_eq, lookup_insert_eq. }
    assert (Hbo : forall q, q <> p -> blocks (put d f s2) !! q = blocks s !! q).
    { intros q Hq. unfold s2, copy_in, s1. cbn [blocks set_mem put set_files].
      by rewrite lookup_alter_ne, lookup_insert_ne. }
    assert (Hfresh : forall j, in_use (node s j) = true -> 0 < capacity (node s j) \/ 0 < size (node s j) -> p <> data (node s j)).
    { intros j Hj Hcj. by apply own_not_fresh. }
    destruct (rebody_ok s (put d f s2) d f sz (splice 0 bs (stale p (size (node s src)))) Hok Hud Hn Hh) as [Hok' Hb'].
    + intros j Hj Hjd Hcj. change (heap (put d f s2)) with h'. rewrite Hlive. split; [|by apply Hfresh; auto].
      apply lookup_insert_ne. by apply Hfresh; auto.
    + intros j Hj Hjd Hcj. apply Hbo. apply not_eq_sym. by apply Hfresh.
    + done.
    + done.
    + change (heap (put d f s2)) with h'. by rewrite Hlive, lookup_insert_eq.
    + done.
    + done.
    + rewrite length_splice; rewrite ?Hstale by lia; cbn [capacity f with_body]; [lia|]. rewrite Ebs, Hlen. lia.
    + cbn [size capacity f with_body]. lia.
    + done.
    + cbn [data f with_body]. lia.
    + assert (Ht' : tree_ok (put d f s2)).
      { apply (tree_ok_shape s); [|done]. split; [by rewrite length_put|]. intros j. rewrite Hn. by case_decide; subst. }
      destruct (Hstamp (put d f s2) Ht' Hok') as (Ht2 & Hok2 & Hb2); [by rewrite Hn, decide_True|].
      split; [done|]. split; [done|]. intros j Hj Hjd. rewrite Hb2 by (by rewrite Hn, decide_False). by apply Hb'.
  - destruct (kmalloc_fail (heap s) (size (node s src)) h' (d_heap s Hok) ltac:(lia) Hk) as [Hh Hlive].
    set (s1 := set_mem h' (blocks s) s). set (f := with_body _ _ _ _).
    assert (Hn : forall j, node (put d f s1) j = if decide (j = d) then f else node s j).
    { intros j. rewrite (node_put s1 d f j) by exact Hlt. reflexivity. }
    assert (Hcf : capacity f = 0 /\ size f = 0) by done.
    split; [|split].
    + apply (tree_ok_shape s); [|done]. split; [by rewrite length_put|]. intros j. rewrite Hn. by case_decide; subst.
    + pose proof Hok as [H1 H2 H3 H4]. split.
      * done.
      * intros j. rewrite Hn. case_decide; [lia|]. change (heap (put d f s1)) with h'. rewrite Hlive. apply H2.
      * intros j. rewrite Hn. case_decide; [lia|]. apply H3.
      * intros j k. rewrite !Hn. repeat case_decide; try lia. apply H4.
    + intros j Hj Hjd. unfold body. by rewrite Hn, decide_False.
Qed.

Lemma slice_append {A} off (bs l : list A) :
  (off <= length l)%nat -> slice 0 (off + length bs) (splice off bs l) = slice 0 off l ++ bs.
Proof.
  intros Hl. unfold slice, splice. rewrite !drop_0, take_app.
  rewrite length_take, Nat.min_l by done. rewrite firstn_all2 by (rewrite length_take; lia).
  f_equal. rewrite take_app, firstn_all2 by lia.
  replace (off + length bs - off - length bs)%nat with 0%nat by lia. by rewrite take_0, app_nil_r.
Qed.

Lemma splice_nil {A} (l : list A) : splice 0 [] l = l.
Proof. unfold splice. by rewrite take_0, drop_0. Qed.

Record written s (i : nat) (buf : list Z) (r : Z) s' : Prop := {
  wr_data : data_ok s';
  wr_other j : in_use (node s j) = true -> j <> i -> body s' j = body s j;
  wr_node j : j <> i -> node s' j = node s j;
  wr_shape : shape_pres s s';
  wr_cwd : cwd_node s' = cwd_node s;
  wr_result : (r = Z.of_nat (length buf) /\ body s' i = body s i ++ buf /\ dirty s' = true /\
                 size (node s' i) = size (node s i) + r) \/
              (r = -1 /\ body s' i = body s i /\ size (node s' i) = size (node s i));
}.

Lemma shape_with_body d sz c f : same_shape f (with_body d sz c f).
Proof. by split. Qed.

Lemma cap_ensured_shape s i need ok s' :
  cap_ensured s i need ok s' -> shape_pres s s'.
Proof.
  intros [_ _ Hn (d & c & Hi & _) Hl _]. split; [done|]. intros j.
  destruct (decide (j = i)) as [->|Hj]; [rewrite Hi; by split|rewrite Hn by done; by split].
Qed.

Lemma shape_trans s1 s2 s3 : shape_pres s1 s2 -> shape_pres s2 s3 -> shape_pres s1 s3.
Proof.
  intros [L1 S1] [L2 S2]. split; [congruence|]. intros i.
  destruct (S1 i), (S2 i). split; congruence.
Qed.

(** [memcpy] behind the end of the body and the new size. *)
Lemma append_ok s i buf :
  data_ok s -> in_use (node s i) = true ->
  size (node s i) + Z.of_nat (length buf) <= capacity (node s i) ->
  let f := node s i in
  let s' := put i (now_stamp (clock s)
              (with_body (data f) (size f + Z.of_nat (length buf)) (capacity f) f))
              (copy_in (data f) (Z.to_nat (size f)) buf s) in
  data_ok s' /\ body s' i = body s i ++ buf /\
  (forall j, in_use (node s j) = true -> j <> i -> body s' j = body s j).
Proof.
  intros Hok Hu Hcap f s'. pose proof Hok as [H1 H2 H3 H4]. pose proof (in_use_lt s i Hu) as Hlt.
  set (f' := now_stamp (clock s) (with_body (data f) (size f + Z.of_nat (length buf)) (capacity f) f)) in *.
  assert (Hnode : forall j, node s' j = if decide (j = i) then f' else node s j).
  { intros j. unfold s'. by rewrite node_put. }
  assert (Hal : blocks s' = alter (splice (Z.to_nat (size f)) buf) (data f) (blocks s)) by done.
  destruct (Z.lt_ge_cases 0 (capacity f)) as [Hc|Hc].
  - destruct (H2 i Hu Hc) as (sz & bs & Hl & Hsz & Hb & Hlen & Hs & Har & Hnz).
    assert (Hbs : blocks s' !! data f = Some (splice (Z.to_nat (size f)) buf bs)).
    { rewrite Hal, lookup_alter_eq. unfold f. by rewrite Hb. }
    destruct (rebody_ok s s' i f' sz (splice (Z.to_nat (size f)) buf bs)) as [Hok' Hbody]; try done.
    + intros j Hj Hji Hcj. split; [done|]. intros E. apply Hji. symmetry. by apply H4.
    + intros j Hj Hji Hcz. rewrite Hal, lookup_alter_ne; [done|]. destruct (Z.lt_ge_cases 0 (capacity (node s j))).
      * intros E. apply Hji. symmetry. by apply H4.
      * apply own_other; auto. lia.
    + rewrite length_splice; [done|]. unfold f in *. lia.
    + unfold f', f. cbn. lia.
    + split; [done|]. split; [|done]. unfold body at 1. rewrite Hnode, decide_True by done.
      unfold f' at 1 2. cbn [data size now_stamp with_body]. unfold read_block. rewrite Hbs.
      cbn [from_option]. unfold id.
      replace (Z.to_nat (size f + Z.of_nat (length buf))) with (Z.to_nat (size f) + length buf)%nat
        by (unfold f in *; lia).
      rewrite slice_append by (unfold f in *; lia). unfold body, read_block. unfold f. by rewrite Hb.
  - destruct (H3 i Hu Hc) as (Hc0 & Hs0 & _).
    assert (Hbuf : size f = 0 /\ length buf = 0%nat) by (unfold f in *; lia).
    destruct Hbuf as [Hsf Hbuf]. apply length_zero_iff_nil in Hbuf as ->.
    assert (Hblk : blocks s' = blocks s).
    { rewrite Hal, Hsf. apply map_eq. intros q. destruct (decide (q = data f)) as [->|Hq].
      - rewrite lookup_alter_eq. destruct (blocks s !! data f); [|done]. cbn. by rewrite splice_nil.
      - by rewrite lookup_alter_ne. }
    destruct (data_ok_same s s') as [Hok' Hb'].
    + done.
    + done.
    + intros j. rewrite Hnode. destruct (decide (j = i)) as [->|]; [|by split].
      split; try done. unfold f'. cbn. unfold f. lia.
    + done.
    + split; [done|].
      assert (Hu' : forall j, in_use (node s j) = true -> in_use (node s' j) = true).
      { intros j. rewrite Hnode. by destruct (decide (j = i)). }
      split; [rewrite app_nil_r|]; auto.
Qed.

Lemma fs_write_spec s i buf :
  data_ok s -> (i < MAX_FILES)%nat -> in_use (node s i) = true -> type (node s i) = FS_FILE ->
  size (node s i) + Z.of_nat (length buf) <= 2 ^ 30 ->
  exists r s', fs_write stale (Z.of_nat i) buf s = Some (r, s') /\ written s i buf r s'.
Proof.
  intros Hok Hi Hu Hty Hlim.
  assert (Hsz : 0 <= size (node s i)).
  { destruct (Z.lt_ge_cases 0 (capacity (node s i))) as [Hc|Hc].
    - destruct (d_own s Hok i Hu Hc) as (? & ? & _ & _ & _ & _ & ? & _). lia.
    - destruct (d_ext s Hok i Hu Hc) as (_ & ? & _). lia. }
  unfold fs_write. rewrite table_entry_node by done. rewrite Hu, Hty, Z.eqb_refl. cbn [negb orb].
  rewrite i32_small by lia.
  destruct (ensure_cap_spec s i (size (node s i) + Z.of_nat (length buf)) Hok Hi Hu)
    as (ok & s1 & He & Hce); [lia|]. rewrite He. cbn [mbind option_bind].
  pose proof (cap_ensured_shape _ _ _ _ _ Hce) as Hsh. pose proof (ss_use _ _ (proj2 Hsh i)) as Hu1.
  destruct Hce as [Hok1 Hb1 Hn1 (d & c & Hi1 & Hc1) Hl1 Hm1].
  assert (Hcw : cwd_node s1 = cwd_node s) by (unfold meta in Hm1; congruence).
  destruct ok; cbn [negb].
  - rewrite Nat2Z.id. 
    destruct (append_ok s1 i buf Hok1) as (Hok2 & Hbi & Hbj); [congruence|rewrite Hi1; cbn; auto|].
    rewrite Hi1 in *. cbn [data size capacity with_body] in *. rewrite i32_small by lia.
    set (f := with_body d (size (node s i)) c (node s i)) in *.
    set (s2 := copy_in d (Z.to_nat (size (node s i))) buf s1) in *.
    set (f3 := with_body d (size (node s i) + Z.of_nat (length buf)) c f) in *.
    set (s' := put i (now_stamp (clock s1) f3) s2) in *.
    assert (Hlt : (i < length (files s1))%nat) by (rewrite Hl1; by apply in_use_lt).
    assert (Hn : forall j, node s' j = if decide (j = i) then now_stamp (clock s1) f3 else node s j).
    { intros j. unfold s'. rewrite node_put by done. destruct (decide (j = i)) as [->|]; [done|].
      change (node s2 j) with (node s1 j). by apply Hn1. }
    assert (Hst : persist_mark_dirty (stamp_node i (put i f3 s2)) = persist_mark_dirty s').
    { unfold stamp_node. rewrite node_put, decide_True by done.
      unfold s', put, set_files, persist_mark_dirty. cbn. by rewrite list_insert_insert_eq. }
    exists (Z.of_nat (length buf)), (persist_mark_dirty s'). split; [by rewrite Hst|].
    assert (Hpd : data_pres s' (persist_mark_dirty s')) by (apply data_ok_same; done).
    destruct (Hpd Hok2) as [Hok3 Hb3].
    assert (Hb3' : forall j, body (persist_mark_dirty s') j = body s' j) by done.
    split; [done|..].
    + intros j Hj Hji. rewrite Hb3', Hbj, Hb1; try done.
      by rewrite (ss_use _ _ (proj2 Hsh j)).
    + intros j Hj. change (node (persist_mark_dirty s') j) with (node s' j). by rewrite Hn, decide_False.
    + split; [cbn; rewrite length_insert; exact Hl1|]. intros j.
      change (node (persist_mark_dirty s') j) with (node s' j). rewrite Hn.
      destruct (decide (j = i)) as [->|]; by split.
    + done.
    + left. split; [done|]. rewrite Hb3', Hbi, Hb1 by done. split; [done|]. split; [done|].
      change (node (persist_mark_dirty s') i) with (node s' i). by rewrite Hn, decide_True.
  - exists (-1), s1. split; [done|]. split; auto.
    right. split; [done|]. rewrite Hb1 by done. split; [done|]. by rewrite Hi1.
Qed.

End ops.
