(* ===== verification/FsProps.v ===== *)
(** The properties of the file system. *)
From Stdlib Require Import ZArith Lia.
From stdpp Require Import base numbers list gmap strings.
From S2P Require Import Prelude HeapIface Kheap KheapSpec Fs FsSpec FsDelete FsPath FsOps.

Section ops.
Context {H : Type} `{!KernelHeap H} `{!KernelHeapSpec H}.
Variable stale : Z -> Z -> list Z.
Hypothesis Hstale : forall p n, 0 <= n -> length (stale p n) = Z.to_nat n.
Implicit Types s : fs H.

Lemma path_name_copy nm : path_name nm -> sn_copy (Z.of_nat MAX_FILENAME) nm = nm.
Proof.
  intros [_ _ Hlen _ _ _]. unfold sn_copy. apply firstn_all2. unfold MAX_FILENAME in *. lia.
Qed.

Definition elf_flags (nm : list Z) : Z := if ends_elf nm then FS_FLAG_EXECUTABLE else 0.

Lemma fs_create_join dirpath nm s d :
  fs_resolve_impl dirpath s = Some d -> path_name nm ->
  fs_create (dirpath ++ SLASH :: nm) s =
    match find_in_dir (Z.of_nat d) nm s with
    | Some e => (Some e, s)
    | None => create_entry nm FS_FILE (Z.of_nat d) (elf_flags nm) s
    end.
Proof.
  intros Hr Hnm. destruct (resolve_join dirpath nm s d Hr Hnm) as [H1 H2].
  unfold fs_create. rewrite H1, H2. destruct (find_in_dir _ nm s); [done|].
  rewrite bool_decide_eq_false_2 by apply Hnm. by rewrite path_name_copy.
Qed.

Lemma cwd_meta s s' : meta s' = meta s -> task_cwd s' = task_cwd s.
Proof. unfold meta, task_cwd. congruence. Qed.

Lemma body_length s i :
  data_ok s -> in_use (node s i) = true -> length (body s i) = Z.to_nat (size (node s i)).
Proof.
  intros Hok Hu. destruct (Z.lt_ge_cases 0 (size (node s i))) as [Hz|Hz].
  - by apply body_block.
  - unfold body. by replace (Z.to_nat (size (node s i))) with 0%nat by lia.
Qed.

Lemma size_nonneg s i : data_ok s -> in_use (node s i) = true -> 0 <= size (node s i).
Proof.
  intros Hok Hu. destruct (Z.lt_ge_cases 0 (capacity (node s i))) as [Hc|Hc].
  - destruct (d_own s Hok i Hu Hc) as (? & ? & _ & _ & _ & _ & ? & _). lia.
  - destruct (d_ext s Hok i Hu Hc) as (_ & ? & _). lia.
Qed.

(** Reading from [off] to the end of the file. *)
Lemma read_tail s i n off bytes :
  data_ok s -> (i < MAX_FILES)%nat -> in_use (node s i) = true -> 0 <= off ->
  size (node s i) = off + n -> n = Z.of_nat (length bytes) ->
  drop (Z.to_nat off) (body s i) = bytes ->
  fs_read_at (Z.of_nat i) n off s = (n, bytes).
Proof.
  intros Hok Hi Hu Hoff Hsz Hn Hd. unfold fs_read_at. rewrite table_entry_node by done. rewrite Hu.
  cbn [negb]. destruct (Z.ltb_spec off 0); [lia|]. destruct (Z.leb_spec (size (node s i)) off) as [Hle|Hlt].
  { destruct bytes; [|cbn in *; lia]. cbn in Hn. by subst. }
  replace (size (node s i) - off) with n by lia. rewrite Z.ltb_irrefl.
  destruct (Z.ltb_spec 0 n); [|lia].
  destruct (body_block s i Hok Hu ltac:(lia)) as (Hnz & (bs & Hb & Hl) & _).
  destruct (Z.eqb_spec (data (node s i)) 0); [done|]. cbn [negb andb]. f_equal.
  rewrite <-Hd. unfold body, read_block, slice. rewrite Hb. cbn [from_option]. unfold id.
  rewrite drop_0, take_drop_commute. do 2 f_equal. lia.
Qed.

(** ** Lookup *)

(** Creating a file and looking it up: when the directory exists and has
    no entry of that name and a slot is free, [fs_create] of "dir/name" makes an
    empty file that the path then resolves to; the tree stays well formed, every
    path that resolved still resolves to the same node, and no other node has
    changed. *)
Theorem fs_create_lookup dirpath nm s d :
  tree_ok s -> data_ok s -> cwd_ok s ->
  fs_resolve_impl dirpath s = Some d -> type (node s d) = FS_DIRECTORY ->
  path_name nm -> find_in_dir (Z.of_nat d) nm s = None -> is_Some (find_free_slot s) ->
  let path := dirpath ++ SLASH :: nm in
  exists idx s', fs_create path s = (Some idx, s') /\ fs_resolve_impl path s' = Some idx /\
    type (node s' idx) = FS_FILE /\ body s' idx = [] /\ tree_ok s' /\ data_ok s' /\
    (forall q i, fs_resolve_impl q s = Some i -> fs_resolve_impl q s' = Some i) /\
    (forall j, j <> idx -> node s' j = node s j).
Proof.
  intros Ht Hok Hc Hr Hd Hnm Hnone Hfree path.
  pose proof (resolve_use dirpath s d Ht Hc Hr) as Hu.
  assert (He : fs_create path s = create_entry nm FS_FILE (Z.of_nat d) (elf_flags nm) s).
  { unfold path. by rewrite (fs_create_join dirpath nm s d), Hnone. }
  rewrite He. destruct (create_entry _ _ _ _ _) as [[idx|] s'] eqn:E.
  2: { apply create_entry_fail in E as (_ & [Hs|Hn]); [..|done].
       - rewrite Hnone in Hs. by destruct Hs.
       - rewrite Hn in Hfree. by destruct Hfree. }
  destruct (create_entry_ok s d nm _ _ idx s' Ht Hu Hd Hnm E) as [Hi Hf Hn Ht' Hg Hfind Hdp Hm].
  destruct (Hdp Hok) as [Hok' _].
  assert (Hres : forall q i, fs_resolve_impl q s = Some i -> fs_resolve_impl q s' = Some i).
  { intros q i. apply resolve_grown; auto. by apply cwd_meta. }
  exists idx, s'. split; [done|]. split.
  - unfold path. by rewrite (proj1 (resolve_join dirpath nm s' d (Hres _ _ Hr) Hnm)).
  - unfold body. rewrite Hn, decide_True by done. split; [done|]. split; [done|].
    split; [done|]. split; [done|]. split; [done|]. intros j Hj. by rewrite Hn, decide_False.
Qed.

(** ** Bodies *)

(** C19. Writing and reading back: [fs_write] to a file returns when the new size is
    at most 2^30 (above it the doubling of the capacity can go on for ever); it
    either stores all bytes behind the old contents, so that a read at the old end
    gives them back, or returns -1 and changes no contents.  Either way no other
    file's contents change and every file owns its own live heap block. *)
Theorem fs_write_read s i buf :
  data_ok s -> (i < MAX_FILES)%nat -> in_use (node s i) = true -> type (node s i) = FS_FILE ->
  size (node s i) + Z.of_nat (length buf) <= 2 ^ 30 ->
  exists r s', fs_write stale (Z.of_nat i) buf s = Some (r, s') /\ data_ok s' /\
    (forall j, in_use (node s j) = true -> j <> i -> body s' j = body s j) /\
    ((r = Z.of_nat (length buf) /\ body s' i = body s i ++ buf /\
        fs_read_at (Z.of_nat i) r (size (node s i)) s' = (r, buf)) \/
     (r = -1 /\ body s' i = body s i)).
Proof.
  intros Hok Hi Hu Hty Hlim.
  destruct (fs_write_spec stale Hstale s i buf Hok Hi Hu Hty Hlim) as (r & s' & Hw & Hwr).
  pose proof Hwr as [Hok' Hoth _ Hsh _ Hres]. exists r, s'. split; [done|]. split; [done|].
  split; [done|]. destruct Hres as [(-> & Hb & _ & Hsz)|(-> & Hb & _)]; [left|by right].
  split; [done|]. split; [done|]. apply read_tail; try done.
  - by rewrite (ss_use _ _ (proj2 Hsh i)).
  - by apply size_nonneg.
  - rewrite Hb. by rewrite drop_app_length' by (by rewrite body_length).
Qed.

(** ** Deletion *)

Lemma delete_up s e : tree_ok s -> in_use (node s e) = true -> e <> 0%nat ->
  forall fuel, (MAX_FILES <= fuel)%nat ->
  exists s', delete_recursive fuel e s = Some (0, s') /\ removed s (is_under s e) s' /\ tree_ok s'.
Proof.
  intros Ht Hu Hne fuel Hf.
  destruct (delete_spec fuel s e 0 Ht Hne Hu Hne) as (s' & Hd & Hr); [lia|].
  exists s'. split; [done|]. split; [done|]. apply (removed_tree s s' _ Ht Hr).
  - destruct (is_under s e 0) eqn:E; [|done]. apply is_under_true in E as [_ [n Hn]]; [|done..].
    by rewrite up_root in Hn.
  - intros i Hi [_ [n Hn]]%is_under_true; [|done..]. apply is_under_true; [done..|].
    split; [done|]. by exists (S n).
Qed.

(** C20. Deleting a subtree: 256 levels of recursion, the size of the table, are
    always enough for [fs_delete]; it clears exactly the node and the nodes
    below it and leaves every other node and its contents alone; in the kernel
    heap the blocks of the bodies those nodes own are free afterwards, and no
    other block is; the tree stays well formed. *)
Theorem fs_delete_subtree path s e fuel :
  tree_ok s -> data_ok s -> cwd_ok s -> fs_resolve_impl path s = Some e -> e <> 0%nat ->
  (MAX_FILES <= fuel)%nat ->
  exists s', fs_delete fuel path s = Some (0, s') /\ tree_ok s' /\ data_ok s' /\
    (forall i, node s' i = if is_under s e i then null_file else node s i) /\
    (forall i, in_use (node s' i) = true -> body s' i = body s i) /\
    (forall i, is_under s e i = true -> 0 < capacity (node s i) ->
       is_Some (live (heap s) !! data (node s i)) /\ live (heap s') !! data (node s i) = None) /\
    (forall p, (forall i, is_under s e i = true -> 0 < capacity (node s i) -> data (node s i) <> p) ->
       live (heap s') !! p = live (heap s) !! p).
Proof.
  intros Ht Hok Hc Hr Hne Hf. pose proof (resolve_use path s e Ht Hc Hr) as Hu.
  destruct (delete_up s e Ht Hu Hne fuel Hf) as (s' & Hd & Hrm & Ht').
  exists s'. unfold fs_delete. rewrite Hr. destruct e as [|e]; [done|].
  split; [done|]. split; [done|]. destruct (rm_data _ _ _ Hrm Hok) as [Hok' Hb].
  split; [done|]. split; [apply (rm_node _ _ _ Hrm)|]. split; [|destruct (rm_live _ _ _ Hrm Hok) as [_ Hl]; split].
  - intros i Hi. apply Hb; [|done]. rewrite (rm_node _ _ _ Hrm) in Hi. by destruct (is_under s (S e) i).
  - intros i Hi Hci. assert (Hui : in_use (node s i) = true) by (by apply andb_prop in Hi as [? _]).
    destruct (d_own s Hok i Hui Hci) as (sz & bs & Hlv & _). split; [by rewrite Hlv|]. apply Hl. by exists i.
  - intros p Hp. apply Hl. intros (i & Hi & _ & Hci & Hdat). by apply (Hp i).
Qed.

(** ** The working directory *)

Fixpoint full_path s (fuel i : nat) : list Z :=
  match fuel with
  | O => []
  | S fuel =>
      if (i =? 0)%nat then [] else full_path s fuel (parent s i) ++ SLASH :: name (node s i)
  end.

Lemma find_child s i :
  tree_ok s -> in_use (node s i) = true -> i <> 0%nat ->
  find_in_dir (Z.of_nat (parent s i)) (name (node s i)) s = Some i.
Proof.
  intros Ht Hu Hi. pose proof (t_name s Ht i ltac:(lia) Hu) as Hn.
  destruct (t_parent s Ht i Hu) as (Hp & _). apply find_in_dir_Some. split.
  - split; [lia|]. split; [done|]. split; [unfold parent; lia|].
    by apply strncmp_eq_iff; [apply Hn|apply Hn|apply Hn|].
  - intros j (Hj & Huj & Hpj & Hs). pose proof (t_name s Ht j Hj Huj) as Hnj.
    apply strncmp_eq_iff in Hs; [|apply Hnj|apply Hn|apply Hnj].
    assert (i = j); [|lia]. apply (t_unique s Ht); try done; [lia|].
    rewrite Hpj. unfold parent. lia.
Qed.

Lemma full_path_walk s fuel i :
  tree_ok s -> in_use (node s i) = true -> up s fuel i = 0%nat ->
  walk_at 0 (full_path s fuel i) s = Final i.
Proof.
  intros Ht. revert i. induction fuel as [|fuel IH]; intros i Hu Hup; cbn [full_path].
  - cbn in Hup. by subst.
  - destruct (Nat.eqb_spec i 0) as [->|Hi]; [done|].
    rewrite (walk_app 0 _ _ s (parent s i)).
    + rewrite walk_name by (apply (t_name s Ht); [lia|done]). by rewrite find_child.
    + apply IH; [by apply (t_parent s Ht)|done].
Qed.

Lemma pwd_loop_path s fuel n i tmp :
  tree_ok s -> in_use (node s i) = true -> up s n i = 0%nat ->
  (length (full_path s n i) + length tmp < 8 * MAX_FILENAME)%nat ->
  (length (full_path s n i) <= fuel)%nat ->
  pwd_loop fuel (Z.of_nat i) tmp s = full_path s n i ++ tmp.
Proof.
  intros Ht. revert fuel i tmp. induction n as [|n IH]; intros fuel i tmp Hu Hup Hlen Hf.
  - cbn in Hup. subst. by destruct fuel.
  - cbn [full_path] in *. destruct (Nat.eqb_spec i 0) as [->|Hi]; [by destruct fuel|].
    rewrite length_app in *. cbn [length] in *. destruct fuel as [|fuel]; [lia|].
    cbn [pwd_loop]. destruct (Z.ltb_spec 0 (Z.of_nat i)); [|lia]. rewrite Nat2Z.id.
    destruct (Nat.leb_spec (8 * MAX_FILENAME) (length tmp + length (name (node s i)) + 1)); [lia|].
    destruct (t_parent s Ht i Hu) as (Hp & Hpu & _).
    replace (parent_dir (node s i)) with (Z.of_nat (parent s i)) by (unfold parent; lia).
    rewrite IH; [by rewrite <-app_assoc|done|done| |lia].
    rewrite !length_app. cbn [length]. lia.
Qed.

(** [fs_pwd] round trip: when the path of the working directory fits its
    512-byte buffer and the caller's, resolving the text it prints gives the
    working directory back.  Below the root the text starts with two slashes,
    which the resolver reads as one. *)
Theorem fs_pwd_resolves s d max_len :
  tree_ok s -> cwd_node s = Some (Z.of_nat d) -> in_use (node s d) = true -> 1 < max_len ->
  (length (full_path s MAX_FILES d) < 8 * MAX_FILENAME)%nat ->
  Z.of_nat (length (full_path s MAX_FILES d)) + 2 <= max_len ->
  let '(text, n) := fs_pwd max_len s in
  n = Z.of_nat (length text) /\ fs_resolve_impl text s = Some d /\
  (d <> 0%nat -> take 2 text = [SLASH; SLASH]).
Proof.
  intros Ht Hcwd Hu Hm1 Hlen Hmax. unfold fs_pwd, task_cwd. rewrite Hcwd. cbn [from_option]. unfold id.
  assert (Hup : up s MAX_FILES d = 0%nat).
  { change MAX_FILES with (MAX_FILES - 1 + 1)%nat. rewrite up_add, (t_up s Ht d Hu). by apply up_root. }
  destruct (Z.leb_spec (Z.of_nat d) 0) as [Hd|Hd].
  - assert (d = 0%nat) as -> by lia. destruct (Z.ltb_spec 1 max_len); [|lia]. done.
  - rewrite (pwd_loop_path s _ MAX_FILES d []); [|done|done|done|cbn [length]; lia|lia].
    rewrite app_nil_r, firstn_all2 by lia. split; [done|].
    assert (Hw := full_path_walk s MAX_FILES d Ht Hu Hup).
    set (fp := full_path s MAX_FILES d) in *. split.
    + apply resolve_walk. change (start_dir (SLASH :: fp) s) with 0%nat.
      rewrite <-Hw. apply (walk_app 0 [] fp s 0). done.
    + intros Hne. assert (Hs : exists r, fp = SLASH :: r).
      { unfold fp. clear -Ht Hu Hup Hne. revert d Hne Hu Hup.
        induction MAX_FILES as [|n IH]; intros d Hne Hu Hup; [done|]. cbn [full_path].
        destruct (Nat.eqb_spec d 0); [done|]. destruct (decide (parent s d = 0%nat)) as [->|Hp].
        - destruct n; cbn [full_path Nat.eqb app]; eauto.
        - destruct (IH _ Hp) as [r ->]; [by apply (t_parent s Ht)|done|]. cbn. eauto. }
      destruct Hs as [r ->]. done.
Qed.

(** ** The invariant over whole runs *)






(** ** Paths, and the names of the trash *)





(** ** Creation, moves and copies by path *)




















(** ** Where the tree breaks *)

(** A path with a missing directory: creating "dir/m/x" when "m" does not
    exist makes an empty regular file "m", reports success, and "dir/m/x" still
    does not resolve. *)
Theorem fs_create_missing_parent dirpath m x s d :
  tree_ok s -> cwd_ok s -> fs_resolve_impl dirpath s = Some d ->
  type (node s d) = FS_DIRECTORY -> path_name m -> path_name x ->
  find_in_dir (Z.of_nat d) m s = None -> is_Some (find_free_slot s) ->
  let path := (dirpath ++ SLASH :: m) ++ SLASH :: x in
  exists idx s', fs_create path s = (Some idx, s') /\
    name (node s' idx) = m /\ type (node s' idx) = FS_FILE /\
    fs_resolve_impl (dirpath ++ SLASH :: m) s' = Some idx /\ fs_resolve_impl path s' = None.
Proof.
  intros Ht Hc Hr Hd Hm Hx Hnone Hfree path. pose proof (resolve_use dirpath s d Ht Hc Hr) as Hu.
  assert (Hw : walk (start_dir path s) path MAX_FILENAME s = Missing d m).
  { assert (Hstart : start_dir path s = match dirpath with [] => 0%nat | _ => start_dir dirpath s end).
    { unfold path. by destruct dirpath as [|c r]. }
    apply resolve_walk in Hr. rewrite Hstart. unfold path. rewrite <-app_assoc. cbn [app].
    change (walk_at (match dirpath with [] => 0%nat | _ => start_dir dirpath s end)
              (dirpath ++ SLASH :: m ++ SLASH :: x) s = Missing d m).
    rewrite (walk_app _ dirpath _ s d Hr).
    assert (Hne : m ++ SLASH :: x <> []) by (by destruct m).
    rewrite walk_at_eq by done. unfold walk_step. rewrite span_slash_app_slash.
    rewrite path_name_span by done. cbn [fst snd app skip_slash]. rewrite Z.eqb_refl.
    destruct Hm as [_ Hm1 Hm2 _ Hm3 Hm4]. rewrite firstn_all2 by (unfold MAX_FILENAME in *; lia).
    rewrite !bool_decide_eq_false_2 by done. cbn [orb]. rewrite Hnone.
    by rewrite (proj2 (has_slash_false x)) by apply Hx. }
  assert (Hpne : path <> []) by (unfold path; by destruct dirpath).
  assert (He : fs_create path s = create_entry m FS_FILE (Z.of_nat d) (elf_flags m) s).
  { unfold fs_create, fs_resolve_impl, fs_resolve_parent. destruct path; [done|]. rewrite Hw.
    rewrite bool_decide_eq_false_2 by apply Hm. by rewrite path_name_copy. }
  rewrite He. destruct (create_entry _ _ _ _ _) as [[idx|] s'] eqn:E.
  2: { apply create_entry_fail in E as (_ & [Hs|Hn]); [..|done].
       - rewrite Hnone in Hs. by destruct Hs.
       - rewrite Hn in Hfree. by destruct Hfree. }
  destruct (create_entry_ok s d m _ _ idx s' Ht Hu Hd Hm E) as [Hi Hf Hn Ht' Hg Hfind _ Hmeta].
  exists idx, s'. split; [done|]. rewrite Hn, decide_True by done. split; [done|]. split; [done|].
  assert (Hr' : fs_resolve_impl dirpath s' = Some d).
  { apply (resolve_grown dirpath s); auto. by apply cwd_meta. }
  assert (Hm' : fs_resolve_impl (dirpath ++ SLASH :: m) s' = Some idx)
    by (by rewrite (proj1 (resolve_join dirpath m s' d Hr' Hm))).
  split; [done|]. unfold path. rewrite (proj1 (resolve_join _ x s' idx Hm' Hx)).
  apply find_in_dir_None. intros j (Hj & Huj & Hpj & _). rewrite Hn in Huj, Hpj.
  destruct (decide (j = idx)) as [->|Hji].
  - cbn in Hpj. assert (d = idx) as -> by lia. congruence.
  - destruct (t_parent s Ht j Huj) as (_ & Hpu & _). unfold parent in Hpu.
    rewrite Hpj, Nat2Z.id in Hpu. congruence.
Qed.

(** A directory that is its own parent. *)
Definition self_parent s (t : nat) : Prop :=
  in_use (node s t) = true /\ type (node s t) = FS_DIRECTORY /\
  parent_dir (node s t) = Z.of_nat t /\ (0 < t < MAX_FILES)%nat.

Lemma foldl_None {A B} (f : option A -> B -> option A) l :
  (forall x, f None x = None) -> foldl f None l = None.
Proof. intros Hf. induction l as [|x l IH]; [done|]. cbn. by rewrite Hf. Qed.

Lemma clear_slot_keeps s i t :
  i <> t -> node (clear_slot i (free_data i s)) t = node s t.
Proof.
  intros Hi. assert (Hf : files (free_data i s) = files s) by (unfold free_data; by destruct (_ && _)).
  unfold clear_slot, node, put, set_files. cbn [files]. rewrite Hf.
  by rewrite list_lookup_insert_ne.
Qed.

(** Deleting another node never reaches it. *)
Lemma delete_keeps_self fuel t : forall idx s r s',
  idx <> t -> self_parent s t -> delete_recursive fuel idx s = Some (r, s') ->
  node s' t = node s t.
Proof.
  induction fuel as [|fuel IH]; intros idx s r s' Hne Hself Hd; [done|].
  cbn [delete_recursive] in Hd. destruct (_ || _); [by simplify_eq|].
  set (rec := fun (i : nat) (s : fs H) => r ← delete_recursive fuel i s; Some (snd r)) in Hd.
  assert (Hloop : forall pass l s1 s2, self_parent s1 t ->
    foldl (delete_child rec idx pass) (Some s1) l = Some s2 -> node s2 t = node s1 t).
  { intros pass l. induction l as [|i l IHl]; intros s1 s2 Hs1 Hf; [by injection Hf as <-|].
    cbn [foldl] in Hf. destruct (delete_child rec idx pass (Some s1) i) as [s3|] eqn:E.
    2: { rewrite foldl_None in Hf; done. }
    assert (H3 : node s3 t = node s1 t).
    { unfold delete_child in E. cbn [mbind option_bind] in E.
      destruct (in_use (node s1 i)); cbn [negb] in E; [|by injection E as <-].
      destruct (Z.eqb_spec (parent_dir (node s1 i)) (Z.of_nat idx)) as [Hp|]; cbn [negb] in E; [|by injection E as <-].
      assert (Hit : i <> t) by (intros ->; destruct Hs1 as (_ & _ & Hp' & _); lia).
      destruct (_ =? _) in E.
      - unfold rec in E. destruct (delete_recursive fuel i s1) as [[r1 s4]|] eqn:E1; [|done].
        injection E as <-. by apply (IH i s1 r1 s4 Hit Hs1).
      - destruct (_ =? _)%nat in E; [|by injection E as <-]. injection E as <-.
        by apply clear_slot_keeps. }
    rewrite <-H3. apply IHl; [|done]. unfold self_parent in *. by rewrite H3. }
  destruct (foldl (delete_child rec idx 0) (Some s) slots) as [s1|] eqn:E1; [|done].
  cbn [mbind option_bind] in Hd. pose proof (Hloop _ _ _ _ Hself E1) as H1.
  assert (Hs1 : self_parent s1 t) by (unfold self_parent in *; by rewrite H1).
  destruct (_ =? _) in Hd.
  - destruct (foldl (delete_child rec idx 1) (Some s1) slots) as [s2|] eqn:E2; [|done].
    cbn [mbind option_bind] in Hd. injection Hd as <- <-.
    rewrite clear_slot_keeps by done. by rewrite (Hloop _ _ _ _ Hs1 E2).
  - cbn [mbind option_bind] in Hd. injection Hd as <- <-. by rewrite clear_slot_keeps.
Qed.

(** Deletion does not touch the well-known indices. *)
Lemma delete_trash fuel : forall idx s r s',
  delete_recursive fuel idx s = Some (r, s') -> trash_dir_index s' = trash_dir_index s.
Proof.
  induction fuel as [|fuel IH]; intros idx s r s' Hd; [done|].
  assert (Hc : forall i (s1 : fs H), trash_dir_index (clear_slot i (free_data i s1)) = trash_dir_index s1)
    by (intros i s1; unfold free_data; by destruct (_ && _)).
  cbn [delete_recursive] in Hd. destruct (_ || _); [by simplify_eq|].
  set (rec := fun (i : nat) (s : fs H) => r ← delete_recursive fuel i s; Some (snd r)) in Hd.
  assert (Hloop : forall pass l s1 s2,
    foldl (delete_child rec idx pass) (Some s1) l = Some s2 -> trash_dir_index s2 = trash_dir_index s1).
  { intros pass l. induction l as [|i l IHl]; intros s1 s2 Hf; [by injection Hf as <-|].
    cbn [foldl] in Hf. destruct (delete_child rec idx pass (Some s1) i) as [s3|] eqn:E.
    2: { rewrite foldl_None in Hf; done. }
    rewrite (IHl _ _ Hf). unfold delete_child in E. cbn [mbind option_bind] in E.
    repeat (destruct (negb _) in E; [by injection E as <-|]).
    destruct (_ =? _) in E.
    - unfold rec in E. destruct (delete_recursive fuel i s1) as [[r1 s4]|] eqn:E1; [|done].
      injection E as <-. by apply (IH i s1 r1).
    - destruct (_ =? _)%nat in E; injection E as <-; [apply Hc|done]. }
  destruct (foldl (delete_child rec idx 0) (Some s) slots) as [s1|] eqn:E1; [|done].
  cbn [mbind option_bind] in Hd. destruct (_ =? _) in Hd.
  - destruct (foldl (delete_child rec idx 1) (Some s1) slots) as [s2|] eqn:E2; [|done].
    cbn [mbind option_bind] in Hd. injection Hd as <- <-.
    rewrite Hc, (Hloop _ _ _ _ E2). by apply (Hloop 0%nat slots).
  - cbn [mbind option_bind] in Hd. injection Hd as <- <-. rewrite Hc. by apply (Hloop 0%nat slots).
Qed.

Lemma foldl_stuck {A} `{EqDecision B} (f : option A -> B -> option A) (P : A -> Prop) l x a :
  (forall y, f None y = None) -> x ∈ l -> P a ->
  (forall y b c, P b -> y <> x -> f (Some b) y = Some c -> P c) ->
  (forall b, P b -> f (Some b) x = None) -> foldl f (Some a) l = None.
Proof.
  intros HN Hx Ha Hkeep Hstop. revert a Ha. induction l as [|y l IH]; intros a Ha.
  { by apply elem_of_nil in Hx. }
  cbn [foldl]. destruct (f (Some a) y) as [c|] eqn:E; [|by apply foldl_None].
  destruct (decide (x ∈ l)) as [Hin|Hin].
  - apply IH; [done|]. destruct (decide (y = x)) as [->|Hy]; [by rewrite Hstop in E|by eapply Hkeep].
  - apply elem_of_cons in Hx as [->|]; [|done]. by rewrite Hstop in E.
Qed.

Lemma delete_self_diverges fuel t s : self_parent s t -> delete_recursive fuel t s = None.
Proof.
  revert s. induction fuel as [|fuel IH]; intros s Hself; [done|].
  pose proof Hself as (Hu & Hd & Hp & Ht).
  cbn [delete_recursive]. rewrite (proj2 (Nat.eqb_neq t 0)) by lia. rewrite Hu. cbn [negb orb].
  rewrite (foldl_stuck _ (fun s1 => self_parent s1 t) slots t s); try done.
  - unfold slots. apply elem_of_seq. lia.
  - intros i s1 s2 Hs1 Hit E. unfold delete_child in E. cbn [mbind option_bind] in E.
    destruct (in_use (node s1 i)); cbn [negb] in E; [|by injection E as <-].
    destruct (_ =? Z.of_nat t); cbn [negb] in E; [|by injection E as <-].
    destruct (_ =? _) in E.
    + destruct (delete_recursive fuel i s1) as [[r1 s4]|] eqn:E1; [|done]. injection E as <-.
      unfold self_parent. cbn [snd]. by rewrite (delete_keeps_self fuel t i s1 r1 s4).
    + destruct (_ =? _)%nat in E; [|by injection E as <-]. injection E as <-.
      unfold self_parent. by rewrite clear_slot_keeps.
  - intros s1 Hs1. unfold delete_child. cbn [mbind option_bind]. destruct Hs1 as (U1 & U2 & U3 & _).
    rewrite U1, U2, U3, !Z.eqb_refl. cbn [negb]. by rewrite IH.
Qed.

(** Throwing the trash directory away makes it its own child, and emptying
    the trash then never returns: no depth of recursion is enough. *)
Theorem fs_trash_cycle path s t :
  trash_dir_index s = Z.of_nat t -> (0 < t < MAX_FILES)%nat ->
  fs_resolve_impl path s = Some t -> in_use (node s t) = true ->
  type (node s t) = FS_DIRECTORY ->
  find_in_dir (Z.of_nat t) (trash_name (take (MAX_FILENAME - 1) (name (node s t))) 0) s = None ->
  exists s', fs_trash_file path s = (true, s') /\ parent s' t = t /\
    forall fuel, fs_empty_trash fuel s' = None.
Proof.
  intros Hti Ht Hr Hu Hd Hfree. pose proof (in_use_lt s t Hu) as Hlt.
  unfold fs_trash_file. rewrite Hti. destruct (Z.ltb_spec (Z.of_nat t) 0); [lia|]. rewrite Hr.
  destruct t as [|t']; [lia|]. set (t := S t') in *.
  cbn [seq]. unfold find_from at 1. cbn [drop find_at]. rewrite Hfree.
  set (f := with_parent _ _). eexists. split; [done|].
  set (s' := stamp_node t (put t f s)).
  assert (Hn : node s' t = now_stamp (clock s) f).
  { unfold s', stamp_node. rewrite node_put by (by rewrite length_put).
    rewrite decide_True by done. by rewrite node_put, decide_True. }
  assert (Hself : self_parent s' t) by (unfold self_parent; by rewrite Hn).
  assert (Hti' : trash_dir_index s' = Z.of_nat t) by done.
  split; [unfold parent; rewrite Hn; cbn; lia|].
  intros fuel. unfold fs_empty_trash. rewrite Hti'. destruct (Z.ltb_spec (Z.of_nat t) 0); [lia|].
  rewrite (foldl_stuck _ (fun s1 => self_parent s1 t /\ trash_dir_index s1 = Z.of_nat t) slots t s'); try done.
  - unfold slots. apply elem_of_seq. lia.
  - intros i s1 s2 [Hs1 Hm1] Hit E. cbn [mbind option_bind] in E.
    destruct (_ && _); [|by injection E as <-].
    destruct (delete_recursive fuel i s1) as [[r1 s4]|] eqn:E1; [|done]. injection E as <-. cbn [snd].
    unfold self_parent. rewrite (delete_keeps_self fuel t i s1 r1 s4) by done.
    split; [done|]. rewrite <-Hm1. by apply (delete_trash fuel i s1 r1).
  - intros s1 [Hs1 Hm1]. cbn [mbind option_bind]. pose proof Hs1 as (U1 & _ & U3 & _).
    rewrite U1, U3, Hm1, Z.eqb_refl. cbn [andb]. by rewrite delete_self_diverges.
Qed.

(** ** Listing *)

Lemma list_loop_bound l dir max_len out :
  Z.of_nat (length out) <= Z.max 0 max_len ->
  Z.of_nat (length (list_loop l dir max_len out)) <= Z.max 0 max_len.
Proof.
  revert out. induction l as [|f l IH]; intros out Ho; [done|]. cbn [list_loop].
  destruct (_ || _); [by apply IH|].
  destruct (Z.ltb_spec max_len (Z.of_nat (length out + length (name f)) + 2)); [done|].
  apply IH. rewrite !length_app. destruct (type f =? FS_DIRECTORY); cbn [length]; lia.
Qed.

End ops.

(** A freshly booted table and heap, with a task whose directory is the root. *)
#[local] Existing Instance kheap_KernelHeap.
Definition fs_boot : fs kheap :=
  Fs (<[0%nat := root_file]> (replicate MAX_FILES null_file)) (-1) (-1) (-1) (-1) (Some 0)
     kheap_boot ∅ false 5.

Lemma fs_boot_node i : node fs_boot i = if decide (i = 0%nat) then root_file else null_file.
Proof.
  unfold node, fs_boot. cbn [files]. destruct (decide (i = 0%nat)) as [->|Hi].
  - rewrite list_lookup_insert_eq; [done|]. rewrite length_replicate. unfold MAX_FILES. lia.
  - rewrite list_lookup_insert_ne by done.
    destruct (replicate _ _ !! i) eqn:E; [|done]. by apply lookup_replicate in E as [-> _].
Qed.

Lemma fs_boot_tree : tree_ok fs_boot.
Proof.
  split.
  - unfold fs_boot. cbn [files]. by rewrite length_insert, length_replicate.
  - by rewrite fs_boot_node.
  - intros i. rewrite fs_boot_node. destruct (decide (i = 0%nat)) as [->|]; [|done].
    unfold parent. rewrite fs_boot_node. done.
  - intros i Hi. rewrite fs_boot_node. by rewrite decide_False by lia.
  - intros i j Hi Hj. rewrite fs_boot_node. by rewrite decide_False by lia.
  - intros i. rewrite fs_boot_node. destruct (decide (i = 0%nat)) as [->|]; [|done]. intros _.
    assert (Hp : parent fs_boot 0 = 0%nat) by (unfold parent; by rewrite fs_boot_node).
    generalize (MAX_FILES - 1)%nat. induction n as [|n IH]; [done|]. simpl. by rewrite Hp.
Qed.

Lemma fs_boot_data heap me who :
  KheapPlaced heap ->
  @data_ok kheap (kheap_KernelHeap heap me who) fs_boot.
Proof.
  intros Hp. split.
  - apply kheap_boot_ok.
  - intros i. rewrite fs_boot_node. by destruct (decide _).
  - intros i. rewrite fs_boot_node. destruct (decide _); cbn; [lia|done].
  - intros i j. rewrite !fs_boot_node. by destruct (decide (i = 0%nat)), (decide (j = 0%nat)).
Qed.

(** ** Witnesses: "/d" and "/d/f" on the kernel's own heap *)

Section witnesses.
#[local] Instance boot_heap : KernelHeap kheap := kheap_KernelHeap 2097152 1 0.
#[local] Instance boot_heap_spec : KernelHeapSpec kheap := kheap_KernelHeapSpec 2097152 1 0.

Definition zeros (p n : Z) : list Z := replicate (Z.to_nat n) 0.

Lemma zeros_length p n : 0 <= n -> length (zeros p n) = Z.to_nat n.
Proof. intros. apply length_replicate. Qed.

Lemma path_name_d : path_name (str "d").
Proof. split; try discriminate; [repeat constructor; lia|cbn; unfold MAX_FILENAME; lia|set_solver]. Qed.

Lemma path_name_f : path_name (str "f").
Proof. split; try discriminate; [repeat constructor; lia|cbn; unfold MAX_FILENAME; lia|set_solver]. Qed.

Definition fs_d : fs kheap := snd (create_entry (str "d") FS_DIRECTORY (Z.of_nat 0) 0 fs_boot).
Definition fs_df : fs kheap := snd (create_entry (str "f") FS_FILE (Z.of_nat 1) 0 fs_d).

Lemma fs_d_created : created fs_boot 1 0 (str "d") FS_DIRECTORY 0 fs_d.
Proof.
  apply create_entry_ok; [apply fs_boot_tree|done|done|apply path_name_d|].
  unfold fs_d. destruct (create_entry _ _ _ _ _) as [r s] eqn:E. cbn [snd]. f_equal.
  apply (f_equal fst) in E. cbn [fst] in E. rewrite <-E. vm_compute. reflexivity.
Qed.

Lemma fs_d_data : data_ok fs_d.
Proof. by apply (cr_data _ _ _ _ _ _ _ fs_d_created), fs_boot_data. Qed.

Lemma fs_df_created : created fs_d 2 1 (str "f") FS_FILE 0 fs_df.
Proof.
  apply create_entry_ok; [apply (cr_tree _ _ _ _ _ _ _ fs_d_created)|done|done|apply path_name_f|].
  unfold fs_df. destruct (create_entry _ _ _ _ _) as [r s] eqn:E. cbn [snd]. f_equal.
  apply (f_equal fst) in E. cbn [fst] in E. rewrite <-E. vm_compute. reflexivity.
Qed.

Lemma fs_df_data : data_ok fs_df.
Proof. by apply (cr_data _ _ _ _ _ _ _ fs_df_created), fs_d_data. Qed.

Lemma fs_create_lookup_witness :
  exists s', fs_create (str "/d/f") fs_d = (Some 2%nat, s') /\
    fs_resolve_impl (str "/d/f") s' = Some 2%nat /\ tree_ok s'.
Proof.
  destruct (fs_create_lookup (str "/d") (str "f") fs_d 1) as (idx & s' & Hc & Hr & _ & _ & Ht & _).
  - apply (cr_tree _ _ _ _ _ _ _ fs_d_created).
  - apply fs_d_data.
  - vm_compute. reflexivity.
  - vm_compute. reflexivity.
  - vm_compute. reflexivity.
  - apply path_name_f.
  - vm_compute. reflexivity.
  - vm_compute. eexists. reflexivity.
  - assert (Hi : idx = 2%nat).
    { apply (f_equal fst) in Hc. vm_compute in Hc. by injection Hc as <-. }
    subst idx. exists s'. split; [exact Hc|]. split; [exact Hr|exact Ht].
Defined.

Lemma fs_write_read_witness :
  exists r s', fs_write zeros 2 (str "hello") fs_df = Some (r, s') /\
    (r = 5 -> body s' 2 = str "hello").
Proof.
  destruct (fs_write_read zeros zeros_length fs_df 2 (str "hello")) as (r & s' & Hw & _ & _ & Hres).
  - apply fs_df_data.
  - vm_compute. repeat constructor.
  - vm_compute. reflexivity.
  - vm_compute. reflexivity.
  - vm_compute. discriminate.
  - exists r, s'. split; [exact Hw|]. intros ->. destruct Hres as [(_ & Hb & _)|(Hr & _)]; [|discriminate].
    rewrite Hb. vm_compute. reflexivity.
Defined.

Lemma fs_delete_subtree_witness :
  exists s', fs_delete 256 (str "/d") fs_df = Some (0, s') /\ node s' 2 = null_file.
Proof.
  destruct (fs_delete_subtree (str "/d") fs_df 1 256) as (s' & Hd & _ & _ & Hn & _).
  - apply (cr_tree _ _ _ _ _ _ _ fs_df_created).
  - apply fs_df_data.
  - vm_compute. reflexivity.
  - vm_compute. reflexivity.
  - discriminate.
  - apply le_n.
  - exists s'. split; [exact Hd|]. rewrite Hn. vm_compute. reflexivity.
Defined.

Lemma fs_pwd_resolves_witness :
  fs_resolve_impl (fst (fs_pwd 64 (set_cwd (Some 1) fs_d))) (set_cwd (Some 1) fs_d) = Some 1%nat /\
  fst (fs_pwd 64 (set_cwd (Some 1) fs_d)) = str "//d".
Proof.
  split; [|vm_compute; reflexivity].
  assert (Ht : tree_ok (set_cwd (Some 1) fs_d)).
  { apply (tree_ok_shape fs_d); [by split|]. apply (cr_tree _ _ _ _ _ _ _ fs_d_created). }
  assert (Hp : full_path (set_cwd (Some 1) fs_d) MAX_FILES 1 = str "/d") by (vm_compute; reflexivity).
  pose proof (fs_pwd_resolves (set_cwd (Some 1) fs_d) 1 64 Ht eq_refl eq_refl eq_refl) as H.
  rewrite Hp in H. specialize (H ltac:(vm_compute; lia) ltac:(vm_compute; discriminate)).
  destruct (fs_pwd 64 (set_cwd (Some 1) fs_d)) as [text n]. apply H.
Defined.






Lemma fs_create_missing_parent_witness :
  exists s', fs_create (str "/d/m/x") fs_d = (Some 2%nat, s') /\
    fs_resolve_impl (str "/d/m/x") s' = None.
Proof.
  assert (Hm : path_name (str "m")).
  { split; try discriminate; [repeat constructor; lia|cbn; unfold MAX_FILENAME; lia|set_solver]. }
  assert (Hx : path_name (str "x")).
  { split; try discriminate; [repeat constructor; lia|cbn; unfold MAX_FILENAME; lia|set_solver]. }
  destruct (fs_create_missing_parent (str "/d") (str "m") (str "x") fs_d 1)
    as (idx & s' & Hc & _ & _ & _ & Hr).
  - apply (cr_tree _ _ _ _ _ _ _ fs_d_created).
  - vm_compute. reflexivity.
  - vm_compute. reflexivity.
  - vm_compute. reflexivity.
  - exact Hm.
  - exact Hx.
  - vm_compute. reflexivity.
  - vm_compute. eexists. reflexivity.
  - assert (Hi : idx = 2%nat).
    { apply (f_equal fst) in Hc. vm_compute in Hc. by injection Hc as <-. }
    subst idx. exists s'. split; [exact Hc|exact Hr].
Defined.

Lemma fs_trash_cycle_witness :
  exists s', fs_trash_file (str "/d") (set_dirs 0 0 1 0 fs_d) = (true, s') /\
    fs_empty_trash 1000 s' = None.
Proof.
  destruct (fs_trash_cycle (str "/d") (set_dirs 0 0 1 0 fs_d) 1) as (s' & Hs & _ & He);
    [reflexivity|split; [lia|unfold MAX_FILES; lia]|vm_compute; reflexivity..|].
  exists s'. split; [exact Hs|exact (He 1000%nat)].
Defined.

(** [fs_list] never writes more than [max_len] bytes of text, but it stops
    for want of room only when name, '/' and newline do not fit, so that the NUL
    it adds can land at [output[max_len]], one past the buffer. *)
Theorem fs_list_bound :
  (forall (s : fs kheap) max_len, Z.of_nat (length (fs_list max_len s)) <= Z.max 0 max_len) /\
  Z.of_nat (length (fs_list 3 fs_d)) = 3.
Proof.
  split; [|vm_compute; reflexivity]. intros s max_len. apply list_loop_bound. cbn. lia.
Qed.
End witnesses.
