(* ===== verification/Persist.v ===== *)
(** The persistent root: src/filesystem/persist.c.  The node table is written
    as one CRC-protected snapshot to one of two slots of a raw disk region.  The
    block device is a map from sector numbers to 512 bytes with two arguments,
    which of the writes and which sectors' reads fail; a crash after [k] writes
    is the pattern in which every write from the [k]-th on fails. *)
From Stdlib Require Import ZArith Lia.
From stdpp Require Import base numbers list gmap strings.
From S2P Require Import Prelude HeapIface Fs.

Definition PERSIST_MAGIC : list Z := str "EGNDSK02".
Definition PERSIST_VERSION : Z := 1.
Definition PERSIST_BASE_LBA : Z := 4096.
Definition PERSIST_SLOT_SECT : Z := 32 * 1024 * 1024 / 512.
Definition SECTOR : nat := 512.

(** ** CRC-32 *)

Definition crc_bit (c : Z) : Z :=
  Z.lxor (Z.shiftr c 1) (Z.land 0xEDB88320 (u32 (- Z.land c 1))).

Definition crc_byte (c b : Z) : Z := Nat.iter 8 crc_bit (Z.lxor c b).

Definition crc32_buf (p : list Z) : Z := Z.lxor (foldl crc_byte 0xFFFFFFFF p) 0xFFFFFFFF.

(** ** The packed structures *)

Record pk_hdr_t := PkHdr {
  h_magic : list Z;
  h_version : Z;
  h_seq : Z;
  h_node_count : Z;
  h_rec_bytes : Z;
  h_payload_bytes : Z;
  h_crc : Z;
}.

Record pk_rec_t := PkRec {
  r_used : Z;
  r_name : list Z;         (* the characters before the NUL *)
  r_parent : Z;
  r_type : Z;
  r_flags : Z;
  r_size : Z;
  r_ctime : Z;
  r_mtime : Z;
}.

Definition REC_SIZE : nat := 86.
Definition REC_REGION : Z := Z.of_nat (MAX_FILES * REC_SIZE).

Definition zero_bytes (n : nat) : list Z := replicate n 0.

Definition pad (n : nat) (l : list Z) : list Z := take n l ++ zero_bytes (n - length l).

Definition hdr_bytes (h : pk_hdr_t) : list Z :=
  pad 8 (h_magic h) ++ le_bytes 4 (h_version h) ++ le_bytes 4 (h_seq h) ++
  le_bytes 4 (h_node_count h) ++ le_bytes 4 (h_rec_bytes h) ++ le_bytes 8 (h_payload_bytes h) ++
  le_bytes 4 (h_crc h) ++ zero_bytes 4.

Definition hdr_of (b : list Z) : pk_hdr_t :=
  PkHdr (slice 0 8 b) (le_val (slice 8 4 b)) (le_val (slice 12 4 b)) (le_val (slice 16 4 b))
    (le_val (slice 20 4 b)) (le_val (slice 24 8 b)) (le_val (slice 32 4 b)).

Definition rec_bytes (r : pk_rec_t) : list Z :=
  le_bytes 1 (r_used r) ++ pad 64 (r_name r) ++ le_bytes 4 (r_parent r) ++ le_bytes 1 (r_type r) ++
  le_bytes 4 (r_flags r) ++ le_bytes 4 (r_size r) ++ le_bytes 4 (r_ctime r) ++ le_bytes 4 (r_mtime r).

Definition rec_of (b : list Z) : pk_rec_t :=
  PkRec (le_val (slice 0 1 b)) (cstr (slice 1 64 b)) (i32 (le_val (slice 65 4 b)))
    (le_val (slice 69 1 b)) (le_val (slice 70 4 b)) (le_val (slice 74 4 b))
    (le_val (slice 78 4 b)) (le_val (slice 82 4 b)).

Definition null_rec : pk_rec_t := PkRec 0 [] 0 0 0 0 0 0.

(** ** The block device *)

Record device := Device {
  sectors : gmap Z (list Z);
  writes : nat;            (* writes issued so far *)
}.

Section persist.
Context {H : Type} `{!KernelHeap H}.
Variable stale : Z -> Z -> list Z.
Variable write_fails : nat -> bool.
Variable read_fails : Z -> bool.

Definition dev_write (lba : Z) (sec : list Z) (d : device) : bool * device :=
  if write_fails (writes d) then (false, Device (sectors d) (S (writes d)))
  else (true, Device (<[lba := sec]> (sectors d)) (S (writes d))).

Definition sector_at (lba : Z) (d : device) : list Z := default (zero_bytes SECTOR) (sectors d !! lba).

(** [read_sector_into] *)
Definition dev_read (lba : Z) (d : device) : option (list Z) :=
  if read_fails lba then None else Some (sector_at lba d).

(** The static variables of the file: the dirty flag is in the [fs] record. *)
Record persist := Persist {
  pfs : fs H;
  dev : option device;     (* storage_get_device(0) *)
  seq_ : Z;                (* seq *)
  snap_nodes : Z;
}.

Definition set_pfs (s : fs H) (p : persist) : persist := Persist s (dev p) (seq_ p) (snap_nodes p).
Definition set_dev (d : device) (p : persist) : persist := Persist (pfs p) (Some d) (seq_ p) (snap_nodes p).

Definition set_dirty (b : bool) (s : fs H) : fs H :=
  Fs (files s) (home_dir_index s) (trash_dir_index s) (desktop_dir_index s) (bin_dir_index s)
     (cwd_node s) (heap s) (blocks s) b (clock s).

Definition set_heap (h : H) (s : fs H) : fs H := set_mem h (blocks s) s.

(** ** Building a snapshot *)

(** A body that goes into the payload: external aliases are skipped. *)
Definition stored (f : file_t) : bool :=
  in_use f && (type f =? FS_FILE) && negb (data f =? 0) && (0 <? size f) && (0 <? capacity f).

Definition payload_size (s : fs H) : Z :=
  foldl (fun p i => if stored (node s i) then p + size (node s i) else p) 0 (seq 0 MAX_FILES).

Definition rec_of_node (f : file_t) : pk_rec_t :=
  PkRec 1 (take 63 (name f)) (parent_dir f) (u8 (type f)) (u32 (flags f)) (u32 (size f))
    (creation_time f) (modified_time f).

(** One iteration of the second loop of [build_snapshot]: the buffer, the write
    positions of records and payloads, and the node count. *)
Definition build_step (s : fs H) (acc : list Z * nat * nat * Z) (i : nat) : list Z * nat * nat * Z :=
  let '(buf, off, pay, nodes) := acc in
  let f := node s i in
  let '(r, buf, pay, nodes) :=
    if in_use f then
      let r := rec_of_node f in
      if (type f =? FS_FILE) && negb (data f =? 0) && (0 <? size f) && (0 <? capacity f)
      then (r, splice pay (read_block (data f) 0 (Z.to_nat (size f)) s) buf,
            (pay + Z.to_nat (size f))%nat, nodes + 1)
      else (r, buf, pay, nodes + 1)
    else (null_rec, buf, pay, nodes) in
  (splice off (rec_bytes r) buf, (off + REC_SIZE)%nat, pay, nodes).

(** The pointer, the bytes and the node count; [None] when kmalloc fails. *)
Definition build_snapshot (s : fs H) : option (Z * list Z * Z) * fs H :=
  let total := REC_REGION + payload_size s in
  match kmalloc (if total =? 0 then 1 else total) (heap s) with
  | (None, h) => (None, set_heap h s)
  | (Some p, h) =>
      let '(buf, _, _, nodes) :=
        foldl (build_step s) (zero_bytes (Z.to_nat total), 0%nat, Z.to_nat REC_REGION, 0)
          (seq 0 MAX_FILES) in
      (Some (p, buf, nodes), set_heap h s)
  end.

(** ** Writing a slot *)

(** [while (left > 0)]: one sector per iteration. *)
Fixpoint write_body (fuel : nat) (rest : list Z) (lba : Z) (d : device) : bool * device :=
  match fuel with
  | O => (true, d)
  | S fuel =>
      match rest with
      | [] => (true, d)
      | _ :: _ =>
          match dev_write lba (pad SECTOR (take SECTOR rest)) d with
          | (false, d) => (false, d)
          | (true, d) => write_body fuel (drop SECTOR rest) (lba + 1) d
          end
      end
  end.

Definition need_sectors (len : Z) : Z := (len + 511) / 512.

Definition write_slot (base_lba : Z) (snap : list Z) (nodes seqno : Z) (d : device) : bool * device :=
  let len := Z.of_nat (length snap) in
  if PERSIST_SLOT_SECT <? need_sectors len + 1 then (false, d)
  else
    match write_body (Z.to_nat (need_sectors len)) snap (base_lba + 1) d with
    | (false, d) => (false, d)
    | (true, d) =>
        let h := PkHdr PERSIST_MAGIC PERSIST_VERSION seqno nodes (u32 REC_REGION)
                   (len - REC_REGION) (crc32_buf snap) in
        dev_write base_lba (pad SECTOR (hdr_bytes h)) d
    end.

(** ** Loading a slot *)

Fixpoint read_body (fuel : nat) (left : nat) (lba : Z) (d : device) : option (list Z) :=
  match fuel with
  | O => Some []
  | S fuel =>
      if (left =? 0)%nat then Some []
      else
        let chunk := if (SECTOR <? left)%nat then SECTOR else left in
        sec ← dev_read lba d;
        rest ← read_body fuel (left - chunk) (lba + 1) d;
        Some (take chunk sec ++ rest)
  end.

(** The header checks of [load_slot]: the header and the length of the body. *)
Definition slot_header (base_lba : Z) (d : device) : option (pk_hdr_t * Z) :=
  sec ← dev_read base_lba d;
  let h := hdr_of sec in
  if negb (bool_decide (h_magic h = PERSIST_MAGIC)) then None else
  if negb (h_version h =? PERSIST_VERSION) then None else
  if negb (h_rec_bytes h =? REC_REGION) then None else
  let total := u64 (h_rec_bytes h + h_payload_bytes h) in
  if (total =? 0) || (PERSIST_SLOT_SECT * Z.of_nat SECTOR - Z.of_nat SECTOR <? total) then None
  else Some (h, total).

(** The buffer and its bytes, or NULL; [seq] and [snap_nodes] are set on success. *)
Definition load_slot (base_lba : Z) (d : device) (p : persist) : option (Z * list Z) * persist :=
  match slot_header base_lba d with
  | None => (None, p)
  | Some (h, total) =>
      match kmalloc total (heap (pfs p)) with
      | (None, hp) => (None, set_pfs (set_heap hp (pfs p)) p)
      | (Some buf, hp) =>
          let s := set_heap hp (pfs p) in
          match read_body (Z.to_nat (need_sectors total)) (Z.to_nat total) (base_lba + 1) d with
          | None => (None, set_pfs (set_heap (kfree buf hp) s) p)
          | Some bytes =>
              if negb (crc32_buf bytes =? h_crc h)
              then (None, set_pfs (set_heap (kfree buf hp) s) p)
              else (Some (buf, bytes), Persist s (dev p) (h_seq h) (h_node_count h))
          end
      end
  end.

(** One iteration of the slot loop of [persist_load]. *)
Definition pick_step (d : device) (acc : option (Z * list Z) * Z * bool * persist) (slot : Z)
    : option (Z * list Z) * Z * bool * persist :=
  let '(best, best_seq, found, p) := acc in
  let base := PERSIST_BASE_LBA + slot * PERSIST_SLOT_SECT in
  match dev_read base d with
  | None => acc
  | Some sec =>
      let h := hdr_of sec in
      if negb (bool_decide (h_magic h = PERSIST_MAGIC)) then acc
      else if (if best is Some _ then true else false) && (h_seq h <=? best_seq) then acc
      else
        let p := match best with
                 | Some (buf, _) => set_pfs (set_heap (kfree buf (heap (pfs p))) (pfs p)) p
                 | None => p
                 end in
        match load_slot base d p with
        | (Some b, p) => (Some b, h_seq h, true, p)
        | (None, p) => (None, best_seq, if found && (best_seq =? h_seq h) then false else found, p)
        end
  end.

(** The body of node [i] starts after the sizes of all used files before it. *)
Definition body_offset (best : list Z) (i : nat) : Z :=
  foldl (fun off j =>
    let r := rec_of (slice (j * REC_SIZE) REC_SIZE best) in
    if negb (r_used r =? 0) && (r_type r =? FS_FILE) then off + r_size r else off)
    REC_REGION (seq 0 i).

(** One iteration of the loop that rebuilds the table.  Bytes past the end of
    the buffer are left as they were in the new block. *)
Definition restore_node (best : list Z) (s : fs H) (i : nat) : fs H :=
  let r := rec_of (slice (i * REC_SIZE) REC_SIZE best) in
  if r_used r =? 0 then
    put i (File [] 0 0 0 false (r_type r) (-1) 0 0 0) s
  else
    let f := File (take 63 (r_name r)) 0 (i32 (r_size r)) 0 true (r_type r) (r_parent r) (u8 (r_flags r))
               (r_ctime r) (r_mtime r) in
    if (r_type r =? FS_FILE) && (0 <? r_size r) then
      match alloc_block stale (r_size r) s with
      | (None, s) => put i (with_body 0 0 0 f) s
      | (Some d, s) =>
          put i (with_body d (i32 (r_size r)) (i32 (r_size r)) f)
            (copy_in d 0 (slice (Z.to_nat (body_offset best i)) (Z.to_nat (r_size r)) best) s)
      end
    else put i f s.

Definition persist_load (p : persist) : persist :=
  match dev p with
  | None => p
  | Some d =>
      match foldl (pick_step d) (None, 0, false, p) [0; 1] with
      | (Some (buf, best), _, true, p) =>
          let s := foldl (restore_node best) (pfs p) (seq 0 MAX_FILES) in
          set_pfs (set_dirty false (set_heap (kfree buf (heap s)) s)) p
      | (Some (buf, _), _, false, p) => set_pfs (set_heap (kfree buf (heap (pfs p))) (pfs p)) p
      | (None, _, _, p) => p
      end
  end.

Definition slot_base (seqno : Z) : Z := PERSIST_BASE_LBA + Z.land seqno 1 * PERSIST_SLOT_SECT.

Definition persist_sync (p : persist) : persist :=
  match dev p with
  | None => p
  | Some d =>
      if negb (dirty (pfs p)) then p
      else
        match build_snapshot (pfs p) with
        | (None, s) => set_pfs s p
        | (Some (buf, snap, nodes), s) =>
            let p := Persist s (dev p) (seq_ p) nodes in
            let free p := set_pfs (set_heap (kfree buf (heap (pfs p))) (pfs p)) p in
            if PERSIST_SLOT_SECT <? need_sectors (Z.of_nat (length snap)) + 1 then free p
            else
              let seqno := u32 (seq_ p + 1) in
              let '(ok, d) := write_slot (slot_base seqno) snap nodes seqno d in
              let s := if ok then set_dirty false (pfs p) else pfs p in
              free (Persist s (Some d) seqno (snap_nodes p))
        end
  end.

(** Nothing is dirty at the first boot, but a baseline is saved at once. *)
Definition persist_force_first_save (p : persist) : persist :=
  match dev p with
  | None => p
  | Some _ => persist_sync (set_pfs (set_dirty true (pfs p)) p)
  end.

(** One period of the autosave task. *)
Definition persistd_period (p : persist) : persist :=
  if dirty (pfs p) then persist_sync p else p.

End persist.
