(* ===== verification/PersistSpec.v ===== *)
(** CRC-32, the on-disk encodings, and the snapshot as a list of records
    followed by the bodies. *)
From Stdlib Require Import ZArith Lia.
From stdpp Require Import base numbers list gmap strings.
From S2P Require Import Prelude HeapIface Fs Persist.

(** ** CRC-32 *)

Definition is_u32 (c : Z) : Prop := 0 <= c < 2 ^ 32.

Lemma u32_bits c : is_u32 c <-> 0 <= c /\ forall i, 32 <= i -> Z.testbit c i = false.
Proof.
  unfold is_u32. split.
  - intros Hc. split; [lia|]. intros i Hi. rewrite <-(Z.mod_small c (2 ^ 32)) by lia.
    apply Z.mod_pow2_bits_high. lia.
  - intros [Hc Hb]. split; [done|]. 
    assert (c = c mod 2 ^ 32) as ->; [|apply Z.mod_pos_bound; lia].
    apply Z.bits_inj'. intros i Hi. destruct (Z.lt_ge_cases i 32).
    + by rewrite Z.mod_pow2_bits_low by lia.
    + rewrite Z.mod_pow2_bits_high by lia. by apply Hb.
Qed.

Lemma lxor_u32 a b : is_u32 a -> is_u32 b -> is_u32 (Z.lxor a b).
Proof.
  rewrite !u32_bits. intros [Ha Ha'] [Hb Hb']. split; [by apply Z.lxor_nonneg|].
  intros i Hi. by rewrite Z.lxor_spec, Ha', Hb'.
Qed.

Lemma lxor_cancel a b c : Z.lxor a c = Z.lxor b c -> a = b.
Proof.
  intros He. apply (f_equal (fun z => Z.lxor z c)) in He.
  by rewrite !Z.lxor_assoc, Z.lxor_nilpotent, !Z.lxor_0_r in He.
Qed.

(** The bit step: shift, and the polynomial when the low bit was set. *)
Lemma crc_bit_eq c :
  crc_bit c = if Z.odd c then Z.lxor (Z.shiftr c 1) 0xEDB88320 else Z.shiftr c 1.
Proof.
  unfold crc_bit. assert (Z.land c 1 = c mod 2) as -> by (by apply (Z.land_ones c 1)).
  rewrite Zmod_odd. destruct (Z.odd c).
  - by change (Z.land 0xEDB88320 (u32 (-1))) with 0xEDB88320.
  - change (Z.land 0xEDB88320 (u32 (-0))) with 0. by rewrite Z.lxor_0_r.
Qed.

Lemma shiftr_u31 c : is_u32 c -> is_u32 (Z.shiftr c 1) /\ Z.testbit (Z.shiftr c 1) 31 = false.
Proof.
  intros Hc. pose proof Hc as [H0 H1]%u32_bits. split.
  - apply u32_bits. split; [by apply Z.shiftr_nonneg|]. intros i Hi.
    rewrite Z.shiftr_spec by lia. apply H1. lia.
  - rewrite Z.shiftr_spec by lia. by apply H1.
Qed.

Lemma crc_bit_u32 c : is_u32 c -> is_u32 (crc_bit c).
Proof.
  intros Hc. rewrite crc_bit_eq. pose proof (shiftr_u31 c Hc) as [? _].
  destruct (Z.odd c); [|done]. apply lxor_u32; [done|]. unfold is_u32. lia.
Qed.

Lemma crc_bit_inj c c' : is_u32 c -> is_u32 c' -> crc_bit c = crc_bit c' -> c = c'.
Proof.
  intros Hc Hc'. rewrite !crc_bit_eq.
  pose proof (shiftr_u31 c Hc) as [_ Hb]. pose proof (shiftr_u31 c' Hc') as [_ Hb'].
  assert (Hs : Z.shiftr c 1 = Z.shiftr c' 1 -> Z.odd c = Z.odd c' -> c = c').
  { intros Hq Ho. rewrite <-!Z.div2_spec in Hq.
    rewrite (Z.div2_odd c), (Z.div2_odd c'), Hq, Ho. done. }
  destruct (Z.odd c) eqn:E, (Z.odd c') eqn:E'; intros He.
  - apply Hs; [|done]. by apply lxor_cancel in He.
  - apply (f_equal (fun z => Z.testbit z 31)) in He. by rewrite Z.lxor_spec, Hb, Hb' in He.
  - apply (f_equal (fun z => Z.testbit z 31)) in He. by rewrite Z.lxor_spec, Hb, Hb' in He.
  - by apply Hs.
Qed.

Lemma crc_iter n c c' :
  is_u32 c -> is_u32 c' ->
  is_u32 (Nat.iter n crc_bit c) /\ (Nat.iter n crc_bit c = Nat.iter n crc_bit c' -> c = c').
Proof.
  intros Hc Hc'.
  assert (Hu : forall k z, is_u32 z -> is_u32 (Nat.iter k crc_bit z)).
  { clear. induction k as [|k IH]; intros z Hz; [done|]. cbn. by apply crc_bit_u32, IH. }
  split; [by apply Hu|]. induction n as [|n IH]; [done|]. cbn. intros He.
  by apply IH, crc_bit_inj; [apply Hu|apply Hu|].
Qed.

Lemma byte_u32 b : is_byte b -> is_u32 b.
Proof. unfold is_byte, is_u32. lia. Qed.

Lemma crc_byte_u32 c b : is_u32 c -> is_byte b -> is_u32 (crc_byte c b).
Proof.
  intros Hc Hb. unfold crc_byte. apply (crc_iter 8 _ (Z.lxor c b)); by apply lxor_u32, byte_u32.
Qed.

Lemma crc_byte_inj c c' b b' :
  is_u32 c -> is_u32 c' -> is_byte b -> is_byte b' ->
  crc_byte c b = crc_byte c' b' -> Z.lxor c b = Z.lxor c' b'.
Proof. intros ????. apply (crc_iter 8); by apply lxor_u32, byte_u32. Qed.

Lemma crc_fold_u32 l c : is_u32 c -> Forall is_byte l -> is_u32 (foldl crc_byte c l).
Proof.
  intros Hc Hl. revert c Hc. induction Hl as [|b l Hb _ IH]; intros c Hc; [done|].
  cbn [foldl]. by apply IH, crc_byte_u32.
Qed.

(** Different states stay different over the same bytes. *)
Lemma crc_fold_inj l c c' :
  is_u32 c -> is_u32 c' -> Forall is_byte l -> foldl crc_byte c l = foldl crc_byte c' l -> c = c'.
Proof.
  intros Hc Hc' Hl. revert c c' Hc Hc'. induction Hl as [|b l Hb _ IH]; intros c c' Hc Hc' He; [done|].
  cbn [foldl] in He. apply IH in He; [|by apply crc_byte_u32..].
  by eapply lxor_cancel, (crc_byte_inj c c' b b).
Qed.

(** ** Slices of concatenations *)

Lemma slice_skip {A} off n (a b : list A) :
  (length a <= off)%nat -> slice off n (a ++ b) = slice (off - length a) n b.
Proof. intros. unfold slice. by rewrite drop_app_ge. Qed.

Lemma slice_here {A} n (b c : list A) : length b = n -> slice 0 n (b ++ c) = b.
Proof. intros <-. unfold slice. by rewrite drop_0, take_app_length. Qed.

Lemma splice_replace {A} off (a b b' c : list A) :
  length a = off -> length b = length b' -> splice off b' (a ++ b ++ c) = a ++ b' ++ c.
Proof.
  intros <- Hb. unfold splice. rewrite take_app_length. do 2 f_equal.
  rewrite <-Hb, drop_app_add. by rewrite drop_app_length.
Qed.

Lemma length_pad n l : length (pad n l) = n.
Proof. unfold pad, zero_bytes. rewrite length_app, length_take, length_replicate. lia. Qed.

Lemma slice_all {A} n (b : list A) : length b = n -> slice 0 n b = b.
Proof. intros <-. unfold slice. by rewrite drop_0, firstn_all. Qed.

(** ** Records and header *)

Lemma cstr_pad n nm : is_cstr nm -> (length nm < n)%nat -> cstr (pad n nm) = nm.
Proof.
  intros Hc Hn. unfold pad. rewrite firstn_all2 by lia.
  destruct (n - length nm)%nat as [|k] eqn:E; [lia|]. by apply cstr_is_cstr.
Qed.

Lemma i32_le_bytes z : - 2 ^ 31 <= z < 2 ^ 31 -> i32 (le_val (le_bytes 4 z)) = z.
Proof.
  intros Hz. rewrite le_val_bytes. unfold i32. change (256 ^ Z.of_nat 4) with (2 ^ 32).
  rewrite Zplus_mod_idemp_l. rewrite Z.mod_small; lia.
Qed.

Record rec_ok (r : pk_rec_t) : Prop := {
  ro_used : 0 <= r_used r < 256;
  ro_name : is_cstr (r_name r) /\ (length (r_name r) < 64)%nat;
  ro_parent : - 2 ^ 31 <= r_parent r < 2 ^ 31;
  ro_type : 0 <= r_type r < 256;
  ro_flags : is_u32 (r_flags r);
  ro_size : is_u32 (r_size r);
  ro_ctime : is_u32 (r_ctime r);
  ro_mtime : is_u32 (r_mtime r);
}.

Lemma length_rec_bytes r : length (rec_bytes r) = REC_SIZE.
Proof. unfold rec_bytes. rewrite !length_app, !length_le_bytes, length_pad. done. Qed.

(** Rewrites a field slice of an encoded structure to the field's bytes. *)
Ltac slice_field :=
  rewrite ?slice_skip by (rewrite ?length_pad, ?length_le_bytes; cbn; lia);
  rewrite ?length_pad, ?length_le_bytes; cbn [Nat.sub];
  first [rewrite slice_here by (by rewrite ?length_pad, ?length_le_bytes)
        |rewrite slice_all by (by rewrite ?length_pad, ?length_le_bytes)].

Lemma rec_of_bytes r : rec_ok r -> rec_of (rec_bytes r) = r.
Proof.
  intros [H1 [H2 H3] H4 H5 H6 H7 H8 H9]. unfold is_u32 in *. destruct r as [u nm pa ty fl sz ct mt].
  cbn [r_used r_name r_parent r_type r_flags r_size r_ctime r_mtime] in *.
  unfold rec_of, rec_bytes. cbn [r_used r_name r_parent r_type r_flags r_size r_ctime r_mtime].
  f_equal.
  - slice_field. apply le_val_bytes_small. cbn. lia.
  - slice_field. by apply cstr_pad.
  - slice_field. by apply i32_le_bytes.
  - slice_field. apply le_val_bytes_small. cbn. lia.
  - slice_field. apply le_val_bytes_small. cbn. lia.
  - slice_field. apply le_val_bytes_small. cbn. lia.
  - slice_field. apply le_val_bytes_small. cbn. lia.
  - slice_field. apply le_val_bytes_small. cbn. lia.
Qed.

Record hdr_ok (h : pk_hdr_t) : Prop := {
  ho_magic : length (h_magic h) = 8%nat;
  ho_version : is_u32 (h_version h);
  ho_seq : is_u32 (h_seq h);
  ho_nodes : is_u32 (h_node_count h);
  ho_rec : is_u32 (h_rec_bytes h);
  ho_payload : 0 <= h_payload_bytes h < 2 ^ 64;
  ho_crc : is_u32 (h_crc h);
}.

Lemma hdr_of_bytes h rest : hdr_ok h -> hdr_of (hdr_bytes h ++ rest) = h.
Proof.
  intros [H1 H2 H3 H4 H5 H6 H7]. unfold is_u32 in *. destruct h as [mg ve sq nc rb pb cr].
  cbn [h_magic h_version h_seq h_node_count h_rec_bytes h_payload_bytes h_crc] in *.
  unfold hdr_of, hdr_bytes. cbn [h_magic h_version h_seq h_node_count h_rec_bytes h_payload_bytes h_crc].
  rewrite <-!app_assoc.
  f_equal.
  - slice_field. unfold pad. rewrite H1, Nat.sub_diag, app_nil_r. by rewrite firstn_all2 by lia.
  - slice_field. apply le_val_bytes_small. cbn. lia.
  - slice_field. apply le_val_bytes_small. cbn. lia.
  - slice_field. apply le_val_bytes_small. cbn. lia.
  - slice_field. apply le_val_bytes_small. cbn. lia.
  - slice_field. apply le_val_bytes_small. cbn. lia.
  - slice_field. apply le_val_bytes_small. cbn. lia.
Qed.

(** ** The body of a slot *)

Section disk.
Variables (write_fails : nat -> bool) (read_fails : Z -> bool).
Notation dev_write := (dev_write write_fails).
Notation dev_read := (dev_read read_fails).
Notation write_body := (write_body write_fails).
Notation read_body := (read_body read_fails).

Lemma dev_write_frame lba sec d ok d' x :
  dev_write lba sec d = (ok, d') -> x <> lba -> sector_at x d' = sector_at x d.
Proof.
  unfold Persist.dev_write, sector_at. destruct (write_fails _); intros [= _ <-] Hx; [done|].
  cbn [sectors]. by rewrite lookup_insert_ne.
Qed.

Lemma dev_write_done lba sec d d' :
  dev_write lba sec d = (true, d') -> sector_at lba d' = sec.
Proof.
  unfold Persist.dev_write, sector_at. destruct (write_fails _); intros [= <-]. cbn [sectors].
  by rewrite lookup_insert_eq.
Qed.

Lemma write_body_frame fuel : forall rest lba d ok d' x,
  write_body fuel rest lba d = (ok, d') -> x < lba \/ lba + Z.of_nat fuel <= x ->
  sector_at x d' = sector_at x d.
Proof.
  induction fuel as [|fuel IH]; intros rest lba d ok d' x Hw Hx; cbn [Persist.write_body] in Hw;
    [by injection Hw as _ <-|].
  destruct rest; [by injection Hw as _ <-|].
  destruct (dev_write lba _ d) as [[] d1] eqn:E.
  - rewrite (IH _ _ _ _ _ _ Hw) by lia. apply (dev_write_frame _ _ _ _ _ _ E). lia.
  - injection Hw as _ <-. apply (dev_write_frame _ _ _ _ _ _ E). lia.
Qed.

Lemma take_pad n (l : list Z) : (length l <= n)%nat -> take (length l) (pad n l) = l.
Proof.
  intros Hl. unfold pad. rewrite (firstn_all2 l) by done. by rewrite take_app_length.
Qed.

(** What was written is what is read. *)
Lemma write_read_body fuel : forall rest lba d d',
  write_body fuel rest lba d = (true, d') -> (length rest <= SECTOR * fuel)%nat ->
  (forall x, lba <= x < lba + Z.of_nat fuel -> read_fails x = false) ->
  read_body fuel (length rest) lba d' = Some rest.
Proof.
  induction fuel as [|fuel IH]; intros rest lba d d' Hw Hlen Hr; cbn [Persist.write_body Persist.read_body] in *.
  - destruct rest; [done|cbn in *; lia].
  - destruct rest as [|b rest]; [done|]. set (l := b :: rest) in *.
    destruct (dev_write lba (pad SECTOR (take SECTOR l)) d) as [[] d1] eqn:E; [|done].
    rewrite (proj2 (Nat.eqb_neq (length l) 0)) by done.
    assert (Hs : dev_read lba d' = Some (pad SECTOR (take SECTOR l))).
    { unfold Persist.dev_read. rewrite Hr by lia. f_equal.
      rewrite (write_body_frame _ _ _ _ _ _ _ Hw) by lia. by apply (dev_write_done _ _ _ _ E). }
    rewrite Hs. cbn [mbind option_bind].
    set (chunk := if (SECTOR <? length l)%nat then SECTOR else length l).
    assert (Hc : chunk = length (take SECTOR l)).
    { unfold chunk. rewrite length_take. destruct (Nat.ltb_spec SECTOR (length l)); lia. }
    assert (Hd : (length l - chunk)%nat = length (drop SECTOR l)).
    { rewrite Hc, length_take, length_drop. lia. }
    rewrite Hd, (IH _ _ _ _ Hw).
    + cbn [mbind option_bind]. f_equal. rewrite Hc, take_pad by (rewrite length_take; lia).
      apply take_drop.
    + rewrite length_drop. lia.
    + intros x Hx. apply Hr. lia.
Qed.

Lemma read_body_frame fuel : forall left lba d d',
  (forall x, lba <= x < lba + Z.of_nat fuel -> sector_at x d' = sector_at x d) ->
  read_body fuel left lba d' = read_body fuel left lba d.
Proof.
  induction fuel as [|fuel IH]; intros left lba d d' Hx; cbn [Persist.read_body]; [done|].
  unfold Persist.dev_read. rewrite Hx by lia. destruct (left =? 0)%nat; [done|].
  destruct (read_fails lba); [done|]. cbn [mbind option_bind].
  by rewrite (IH _ _ d d') by (intros; apply Hx; lia).
Qed.

Lemma length_read_body fuel : forall left lba d bytes,
  read_body fuel left lba d = Some bytes -> (left <= SECTOR * fuel)%nat ->
  (forall x, length (sector_at x d) = SECTOR) -> length bytes = left.
Proof.
  induction fuel as [|fuel IH]; intros left lba d bytes Hr Hl Hs; cbn [Persist.read_body] in Hr.
  { injection Hr as <-. cbn. lia. }
  destruct (Nat.eqb_spec left 0) as [->|]; [by injection Hr as <-|].
  unfold Persist.dev_read in Hr. destruct (read_fails lba); [done|]. cbn [mbind option_bind] in Hr.
  destruct (read_body fuel _ (lba + 1) d) as [rest|] eqn:E; [|done]. injection Hr as <-.
  rewrite length_app, length_take, Hs.
  destruct (Nat.ltb_spec SECTOR left); rewrite (IH _ _ _ _ E); try done; lia.
Qed.

End disk.

(** ** The snapshot *)

Section snapshot.
Context {H : Type} `{!KernelHeap H}.
Implicit Types s : fs H.

Definition body_of s (i : nat) : list Z :=
  read_block (data (node s i)) 0 (Z.to_nat (size (node s i))) s.

Definition node_rec s (i : nat) : pk_rec_t :=
  if in_use (node s i) then rec_of_node (node s i) else null_rec.

Definition node_body s (i : nat) : list Z := if stored (node s i) then body_of s i else [].

Definition records s (l : list nat) : list Z := concat ((fun i => rec_bytes (node_rec s i)) <$> l).
Definition payload s (l : list nat) : list Z := concat (node_body s <$> l).

(** What [build_snapshot] puts into its buffer. *)
Definition snapshot s : list Z := records s (seq 0 MAX_FILES) ++ payload s (seq 0 MAX_FILES).

Lemma records_app s l1 l2 : records s (l1 ++ l2) = records s l1 ++ records s l2.
Proof. unfold records. by rewrite fmap_app, concat_app. Qed.

Lemma payload_app s l1 l2 : payload s (l1 ++ l2) = payload s l1 ++ payload s l2.
Proof. unfold payload. by rewrite fmap_app, concat_app. Qed.

Lemma length_records s l : length (records s l) = (length l * REC_SIZE)%nat.
Proof.
  induction l as [|i l IH]; [done|]. change (i :: l) with ([i] ++ l).
  rewrite records_app, !length_app, IH. unfold records. cbn [fmap list_fmap concat length].
  rewrite app_nil_r, length_rec_bytes. lia.
Qed.

(** Every stored body is as long as its node says. *)
Definition bodies_ok s : Prop :=
  forall i, stored (node s i) = true -> length (body_of s i) = Z.to_nat (size (node s i)).

Lemma stored_size f : stored f = true -> 0 < size f.
Proof. unfold stored. rewrite !andb_true_iff, !Z.ltb_lt. tauto. Qed.

Lemma payload_size_fold s l a :
  bodies_ok s ->
  foldl (fun p i => if stored (node s i) then p + size (node s i) else p) a l =
    a + Z.of_nat (length (payload s l)).
Proof.
  intros Hb. revert a. induction l as [|i l IH]; intros a; [cbn; lia|]. cbn [foldl]. rewrite IH.
  change (payload s (i :: l)) with (payload s ([i] ++ l)). rewrite payload_app, length_app.
  unfold payload at 2. cbn. rewrite app_nil_r. unfold node_body.
  destruct (stored (node s i)) eqn:E; [|cbn; lia].
  rewrite Hb by done. pose proof (stored_size _ E). lia.
Qed.

Lemma payload_size_eq s :
  bodies_ok s -> payload_size s = Z.of_nat (length (payload s (seq 0 MAX_FILES))).
Proof. intros Hb. unfold payload_size. by rewrite payload_size_fold. Qed.

Lemma zero_bytes_app a b : zero_bytes (a + b) = zero_bytes a ++ zero_bytes b.
Proof. apply replicate_add. Qed.

(** The buffer after the slots of [l], [m] slots and [q] payload bytes to go. *)
Definition partial s (l : list nat) (m q : nat) : list Z :=
  records s l ++ zero_bytes (m * REC_SIZE) ++ payload s l ++ zero_bytes q.

Lemma build_step_spec s l i m q n :
  bodies_ok s ->
  let '(buf, off, pay, nodes) :=
    build_step s (partial s l (S m) (length (node_body s i) + q), (length l * REC_SIZE)%nat,
                  ((length l + S m) * REC_SIZE + length (payload s l))%nat, n) i in
  buf = partial s (l ++ [i]) m q /\ off = (length (l ++ [i]) * REC_SIZE)%nat /\
  pay = ((length l + S m) * REC_SIZE + length (payload s (l ++ [i])))%nat.
Proof.
  intros Hb. unfold build_step.
  assert (Hpay : payload s (l ++ [i]) = payload s l ++ node_body s i).
  { rewrite payload_app. unfold payload at 2. cbn. by rewrite app_nil_r. }
  assert (Hrec : records s (l ++ [i]) = records s l ++ rec_bytes (node_rec s i)).
  { rewrite records_app. unfold records at 2. cbn. by rewrite app_nil_r. }
  assert (Hfin : forall r buf', r = node_rec s i ->
     buf' = records s l ++ zero_bytes (S m * REC_SIZE) ++ payload s (l ++ [i]) ++ zero_bytes q ->
     splice (length l * REC_SIZE) (rec_bytes r) buf' = partial s (l ++ [i]) m q).
  { intros r buf' -> ->. unfold partial. rewrite Hrec.
    replace (S m * REC_SIZE)%nat with (REC_SIZE + m * REC_SIZE)%nat by lia.
    rewrite zero_bytes_app, <-!app_assoc. apply splice_replace; [apply length_records|].
    unfold zero_bytes. by rewrite length_replicate, length_rec_bytes. }
  assert (Hlen : length (l ++ [i]) = S (length l)) by (rewrite length_app; cbn; lia).
  unfold node_body in *. set (f := node s i) in *.
  assert (Hst : stored f = in_use f && ((type f =? FS_FILE) && negb (data f =? 0) && (0 <? size f) && (0 <? capacity f)))
    by (unfold stored; by rewrite <-!andb_assoc).
  destruct (in_use f) eqn:Hu.
  - destruct ((type f =? FS_FILE) && _ && _ && _) eqn:Hc; rewrite Hst in *; cbn [andb] in *.
    + assert (Hbl : length (body_of s i) = Z.to_nat (size f)) by (apply Hb; exact Hst).
      fold (body_of s i). rewrite Hlen. split; [|split; [lia|rewrite Hpay, length_app; lia]].
      apply Hfin; [unfold node_rec; fold f; by rewrite Hu|].
      unfold partial. rewrite Hpay, zero_bytes_app, <-!app_assoc.
      rewrite (app_assoc (records s l)), (app_assoc (records s l ++ _)).
      rewrite splice_replace; [by rewrite <-!app_assoc| |].
      * rewrite !length_app, length_records. unfold zero_bytes. rewrite length_replicate. lia.
      * unfold zero_bytes. by rewrite length_replicate.
    + rewrite app_nil_r in Hpay. rewrite Hlen, Hpay. split; [|split; lia].
      apply Hfin; [unfold node_rec; fold f; by rewrite Hu|by rewrite Hpay].
  - rewrite Hst in *. cbn [andb] in *. rewrite app_nil_r in Hpay. rewrite Hlen, Hpay. split; [|split; lia].
    apply Hfin; [unfold node_rec; fold f; by rewrite Hu|by rewrite Hpay].
Qed.

Lemma build_loop_spec s l2 : forall l1 n,
  bodies_ok s ->
  fst (fst (fst (foldl (build_step s)
    (partial s l1 (length l2) (length (payload s l2)), (length l1 * REC_SIZE)%nat,
     ((length l1 + length l2) * REC_SIZE + length (payload s l1))%nat, n) l2))) =
  records s (l1 ++ l2) ++ payload s (l1 ++ l2).
Proof.
  induction l2 as [|i l2 IH]; intros l1 n Hb.
  - cbn [foldl fst length]. rewrite app_nil_r. unfold partial. cbn. by rewrite app_nil_r.
  - cbn [foldl length].
    assert (Hp : length (payload s (i :: l2)) = (length (node_body s i) + length (payload s l2))%nat).
    { change (i :: l2) with ([i] ++ l2). rewrite payload_app, length_app. unfold payload at 1. cbn.
      by rewrite app_nil_r. }
    rewrite Hp.
    pose proof (build_step_spec s l1 i (length l2) (length (payload s l2)) n Hb) as Hs.
    destruct (build_step s _ i) as [[[buf off] pay] nodes]. destruct Hs as (-> & -> & ->).
    replace ((length l1 + S (length l2)) * REC_SIZE)%nat
      with ((length (l1 ++ [i]) + length l2) * REC_SIZE)%nat by (rewrite length_app; cbn; lia).
    rewrite IH by done. by rewrite <-!app_assoc.
Qed.

Lemma build_bytes s :
  bodies_ok s ->
  fst (fst (fst (foldl (build_step s)
    (zero_bytes (Z.to_nat (REC_REGION + payload_size s)), 0%nat, Z.to_nat REC_REGION, 0)
    (seq 0 MAX_FILES)))) = snapshot s.
Proof.
  intros Hb. pose proof (build_loop_spec s (seq 0 MAX_FILES) [] 0 Hb) as Hl. cbn [app] in Hl.
  unfold snapshot. rewrite <-Hl. rewrite payload_size_eq by done. clear Hl.
  rewrite length_seq. unfold partial, records, payload. cbn [fmap list_fmap concat length app].
  unfold REC_REGION. rewrite Z2Nat.inj_add, !Nat2Z.id by lia. rewrite zero_bytes_app.
  replace ((0 + MAX_FILES) * REC_SIZE + 0)%nat with (MAX_FILES * REC_SIZE)%nat by lia. done.
Qed.

End snapshot.
