(* ===== verification/PersistLoad.v ===== *)
(** Choosing a slot at boot, rebuilding the node table from a snapshot, and the
    heap and the disks such a boot starts with. *)
From Stdlib Require Import ZArith Lia.
From stdpp Require Import base numbers list gmap strings.
From S2P Require Import Prelude HeapIface Kheap KheapSpec Fs FsSpec Persist PersistSpec.

Definition SLOT_BYTES : Z := PERSIST_SLOT_SECT * Z.of_nat SECTOR - Z.of_nat SECTOR.

(** Heaps in which a snapshot buffer can be allocated, and is the only thing
    between two loads: the precondition of booting from a snapshot. *)
Record serves_buffers {H : Type} `{!KernelHeap H} (I : H -> Prop) : Prop := {
  sb_ok h : I h -> heap_ok h;
  sb_serve h n : I h -> 0 < n <= SLOT_BYTES ->
    exists p h', kmalloc n h = (Some p, h') /\ heap_ok h' /\ I (kfree p h');
}.

Section load.
Context {H : Type} `{!KernelHeap H} `{!KernelHeapSpec H}.
Variable stale : Z -> Z -> list Z.
Hypothesis Hstale : forall p n, 0 <= n -> length (stale p n) = Z.to_nat n.
Variable read_fails : Z -> bool.
Variable I : H -> Prop.
Hypothesis HI : serves_buffers I.

Notation slot_header := (slot_header read_fails).
Notation load_slot := (load_slot read_fails).
Notation pick_step := (pick_step read_fails).

Definition base_of (slot : Z) : Z := PERSIST_BASE_LBA + slot * PERSIST_SLOT_SECT.

(** A slot with a complete snapshot. *)
Definition good_slot (d : device) (slot sq : Z) (bytes : list Z) : Prop :=
  exists h total, slot_header (base_of slot) d = Some (h, total) /\ h_seq h = sq /\
    read_body read_fails (Z.to_nat (need_sectors total)) (Z.to_nat total) (base_of slot + 1) d = Some bytes /\
    crc32_buf bytes = h_crc h.

(** A slot that does not claim to be as new as [sq]. *)
Definition older_slot (d : device) (slot sq : Z) : Prop :=
  match dev_read read_fails (base_of slot) d with
  | None => True
  | Some sec => h_magic (hdr_of sec) <> PERSIST_MAGIC \/ h_seq (hdr_of sec) < sq
  end.

Lemma slot_header_total base d h total :
  slot_header base d = Some (h, total) ->
  0 < total <= SLOT_BYTES /\ exists sec, dev_read read_fails base d = Some sec /\ h = hdr_of sec /\
    h_magic h = PERSIST_MAGIC.
Proof.
  unfold Persist.slot_header. destruct (dev_read read_fails base d) as [sec|]; [|done].
  cbn [mbind option_bind]. destruct (bool_decide _) eqn:Em; [|done]. cbn [negb].
  destruct (_ =? _); [|done]. destruct (_ =? _); [|done]. cbn [negb].
  set (t := u64 _). assert (0 <= t) by (apply wrap_bounds; lia).
  destruct (Z.eqb_spec t 0); [done|]. cbn [orb].
  destruct (Z.ltb_spec (PERSIST_SLOT_SECT * Z.of_nat SECTOR - Z.of_nat SECTOR) t); [done|].
  intros [= <- <-]. split; [unfold SLOT_BYTES; lia|]. exists sec.
  split; [done|]. split; [done|]. by apply bool_decide_eq_true in Em.
Qed.

Lemma load_good d slot sq bytes (p : persist) :
  I (heap (pfs p)) -> good_slot d slot sq bytes ->
  exists buf h', load_slot (base_of slot) d p =
      (Some (buf, bytes), Persist (set_heap h' (pfs p)) (dev p) sq (snap_nodes
         (snd (load_slot (base_of slot) d p)))) /\ heap_ok h' /\ I (kfree buf h').
Proof.
  intros Hh (h & total & Hhd & Hsq & Hrd & Hcrc). pose proof (slot_header_total _ _ _ _ Hhd) as [Ht _].
  destruct (sb_serve I HI (heap (pfs p)) total Hh Ht) as (buf & h' & Hk & Hok & HI').
  exists buf, h'. split; [|done]. unfold Persist.load_slot. rewrite Hhd, Hk, Hrd, Hcrc, Z.eqb_refl.
  cbn [negb snd snap_nodes]. by rewrite Hsq.
Qed.

(** Whatever [load_slot] finds, the heap can serve the next buffer. *)
Lemma load_any base d (p : persist) :
  I (heap (pfs p)) ->
  let '(r, p') := load_slot base d p in
  dev p' = dev p /\ files (pfs p') = files (pfs p) /\ meta (pfs p') = meta (pfs p) /\
  match r with
  | None => I (heap (pfs p'))
  | Some (buf, _) => I (kfree buf (heap (pfs p')))
  end.
Proof.
  intros Hh. unfold Persist.load_slot. destruct (slot_header base d) as [[h total]|] eqn:Hhd; [|done].
  pose proof (slot_header_total _ _ _ _ Hhd) as [Ht _].
  destruct (sb_serve I HI (heap (pfs p)) total Hh Ht) as (buf & h' & Hk & _ & HI'). rewrite Hk.
  destruct (read_body _ _ _ _ _); [|done]. by destruct (negb _).
Qed.

Definition pick (d : device) (p : persist) := foldl (pick_step d) (None, 0, false, p) [0; 1].

(** The complete slot is chosen, whatever the other one holds, as long as it
    does not claim to be newer. *)
Lemma pick_good d k sq bytes (p : persist) :
  k = 0 \/ k = 1 -> I (heap (pfs p)) ->
  good_slot d k sq bytes -> older_slot d (1 - k) sq ->
  exists buf p', pick d p = (Some (buf, bytes), sq, true, p') /\ seq_ p' = sq /\
    dev p' = dev p /\ files (pfs p') = files (pfs p) /\ meta (pfs p') = meta (pfs p) /\
    heap_ok (heap (pfs p')).
Proof.
  intros Hk Hh Hg Ho.
  assert (Hsec : forall slot, good_slot d slot sq bytes ->
    exists sec, dev_read read_fails (base_of slot) d = Some sec /\ h_magic (hdr_of sec) = PERSIST_MAGIC /\
      h_seq (hdr_of sec) = sq).
  { intros slot (h & total & Hhd & Hsq & _). apply slot_header_total in Hhd as (_ & sec & Hr & -> & Hm). eauto. }
  destruct (Hsec k Hg) as (sec & Hr & Hm & Hs). unfold pick. cbn [foldl]. destruct Hk as [->| ->].
  - destruct (load_good d 0 sq bytes p Hh Hg) as (buf & h' & Hl & Hok & HI').
    set (acc1 := pick_step d (None, 0, false, p) 0).
    assert (E1 : exists p', acc1 = (Some (buf, bytes), sq, true, p') /\ seq_ p' = sq /\ dev p' = dev p /\
       files (pfs p') = files (pfs p) /\ meta (pfs p') = meta (pfs p) /\ heap_ok (heap (pfs p'))).
    { unfold acc1, Persist.pick_step. change (PERSIST_BASE_LBA + 0 * PERSIST_SLOT_SECT) with (base_of 0).
      rewrite Hr, Hm, bool_decide_eq_true_2 by done. cbn [negb andb]. rewrite Hl, Hs. eauto 10. }
    destruct E1 as (p' & -> & Hp'). exists buf, p'. split; [|done].
    unfold Persist.pick_step. change (PERSIST_BASE_LBA + 1 * PERSIST_SLOT_SECT) with (base_of 1).
    unfold older_slot in Ho. change (1 - 0) with 1 in Ho.
    destruct (dev_read read_fails (base_of 1) d) as [sec'|]; [|done].
    destruct (bool_decide _) eqn:Em; [|done]. cbn [negb andb].
    apply bool_decide_eq_true in Em. destruct Ho as [?|Hlt]; [done|].
    by rewrite (proj2 (Z.leb_le _ _)) by lia.
  - change (1 - 1) with 0 in Ho.
    assert (E1 : exists best bseq found p1, pick_step d (None, 0, false, p) 0 = (best, bseq, found, p1) /\
      dev p1 = dev p /\ files (pfs p1) = files (pfs p) /\ meta (pfs p1) = meta (pfs p) /\
      match best with None => I (heap (pfs p1)) | Some (b, _) => I (kfree b (heap (pfs p1))) /\ bseq < sq end).
    { unfold Persist.pick_step. change (PERSIST_BASE_LBA + 0 * PERSIST_SLOT_SECT) with (base_of 0).
      unfold older_slot in Ho. destruct (dev_read read_fails (base_of 0) d) as [sec'|]; [|eauto 10].
      destruct (bool_decide _) eqn:Em; [|eauto 10]. cbn [negb andb].
      apply bool_decide_eq_true in Em. destruct Ho as [?|Hlt]; [done|].
      pose proof (load_any (base_of 0) d p Hh) as Hany.
      destruct (load_slot (base_of 0) d p) as [[[b bs]|] p1]; destruct Hany as (? & ? & ? & ?).
      - exists (Some (b, bs)), (h_seq (hdr_of sec')), true, p1. done.
      - exists None, 0, false, p1. done. }
    destruct E1 as (best & bseq & found & p1 & -> & Hd & Hf & Hmt & Hbest).
    unfold Persist.pick_step. change (PERSIST_BASE_LBA + 1 * PERSIST_SLOT_SECT) with (base_of 1).
    rewrite Hr, Hm, bool_decide_eq_true_2 by done. cbn [negb].
    set (p2 := match best with Some (b, _) => set_pfs (set_heap (kfree b (heap (pfs p1))) (pfs p1)) p1
               | None => p1 end).
    assert (H2 : I (heap (pfs p2)) /\ dev p2 = dev p /\ files (pfs p2) = files (pfs p) /\ meta (pfs p2) = meta (pfs p)).
    { unfold p2. destruct best as [[b bs]|]; [|done]. destruct Hbest. done. }
    destruct H2 as (HI2 & Hd2 & Hf2 & Hm2).
    assert (Hskip : (if best is Some _ then true else false) && (h_seq (hdr_of sec) <=? bseq) = false).
    { destruct best as [[b bs]|]; [|done]. destruct Hbest as [_ Hlt]. rewrite Hs. cbn [andb].
      apply Z.leb_gt. lia. }
    rewrite Hskip. destruct (load_good d 1 sq bytes p2 HI2 Hg) as (buf & h' & Hl & Hok & HI').
    rewrite Hl, Hs. eexists buf, _. split; [done|]. cbn [seq_ dev pfs]. done.
Qed.

End load.

(** ** Rebuilding the table *)

Section restore.
Context {H : Type} `{!KernelHeap H} `{!KernelHeapSpec H}.

(** Fields within the widths of the record. *)
Record snap_fields (s : fs H) : Prop := {
  so_bodies : bodies_ok s;
  so_node i : in_use (node s i) = true ->
    is_cstr (name (node s i)) /\ (length (name (node s i)) < 64)%nat /\
    - 2 ^ 31 <= parent_dir (node s i) < 2 ^ 31 /\ 0 <= type (node s i) <= 1 /\
    0 <= flags (node s i) < 256 /\ 0 <= size (node s i) < 2 ^ 31 /\
    is_u32 (creation_time (node s i)) /\ is_u32 (modified_time (node s i));
}.

Section fields.
Variable s : fs H.
Hypothesis Hs : snap_fields s.

Lemma split_slots i : (i < MAX_FILES)%nat ->
  seq 0 MAX_FILES = seq 0 i ++ i :: seq (S i) (MAX_FILES - S i).
Proof.
  intros Hi. replace MAX_FILES with (i + S (MAX_FILES - S i))%nat at 1 by lia.
  by rewrite seq_app.
Qed.

Lemma node_rec_ok i : rec_ok (node_rec s i).
Proof.
  unfold node_rec. destruct (in_use (node s i)) eqn:Hu.
  - destruct (so_node s Hs i Hu) as (? & ? & ? & ? & ? & ? & ? & ?). unfold rec_of_node.
    rewrite (wrap_small 8), !(wrap_small 32) by lia.
    split; cbn [r_used r_name r_parent r_type r_flags r_size r_ctime r_mtime];
      try (unfold is_u32; lia); try done.
    rewrite firstn_all2 by lia. done.
  - split; cbn; unfold is_u32; try lia. split; [by apply Forall_nil_2|lia].
Qed.

Lemma record_at i : (i < MAX_FILES)%nat ->
  rec_of (slice (i * REC_SIZE) REC_SIZE (snapshot s)) = node_rec s i.
Proof.
  intros Hi. rewrite <-(rec_of_bytes (node_rec s i)) by apply node_rec_ok. f_equal.
  unfold snapshot. rewrite (split_slots i Hi), records_app, <-app_assoc.
  assert (Hl : length (records s (seq 0 i)) = (i * REC_SIZE)%nat) by (by rewrite length_records, length_seq).
  rewrite slice_skip by lia. rewrite Hl, Nat.sub_diag.
  change (i :: seq (S i) (MAX_FILES - S i)) with ([i] ++ seq (S i) (MAX_FILES - S i)).
  rewrite records_app, <-app_assoc. unfold records at 1. cbn [fmap list_fmap concat]. rewrite app_nil_r.
  apply slice_here, length_rec_bytes.
Qed.

Lemma node_rec_file i :
  negb (r_used (node_rec s i) =? 0) && (r_type (node_rec s i) =? FS_FILE) =
  in_use (node s i) && (type (node s i) =? FS_FILE).
Proof.
  unfold node_rec. destruct (in_use (node s i)) eqn:Hu; [|done].
  destruct (so_node s Hs i Hu) as (_ & _ & _ & ? & _). cbn. by rewrite (wrap_small 8) by lia.
Qed.

(** The size a file has in its record but not in the payload. *)
Definition external_size (i : nat) : Z :=
  if in_use (node s i) && (type (node s i) =? FS_FILE) && negb (stored (node s i))
  then size (node s i) else 0.

Definition external_sizes (l : list nat) : Z := foldr (fun i n => external_size i + n) 0 l.

Lemma external_size_nonneg i : 0 <= external_size i.
Proof.
  unfold external_size. destruct (in_use (node s i)) eqn:Hu; [|done].
  destruct (so_node s Hs i Hu) as (_ & _ & _ & _ & _ & ? & _). destruct (_ && _); [lia|done].
Qed.

Lemma body_offset_fields i : (i <= MAX_FILES)%nat ->
  body_offset (snapshot s) i =
    REC_REGION + Z.of_nat (length (payload s (seq 0 i))) + external_sizes (seq 0 i).
Proof.
  intros Hi. unfold body_offset.
  assert (Hgen : forall l a, (forall j, j ∈ l -> (j < MAX_FILES)%nat) ->
    foldl (fun off j => let r := rec_of (slice (j * REC_SIZE) REC_SIZE (snapshot s)) in
      if negb (r_used r =? 0) && (r_type r =? FS_FILE) then off + r_size r else off) a l =
    a + Z.of_nat (length (payload s l)) + external_sizes l).
  { induction l as [|j l IH]; intros a Hl; [cbn; lia|]. cbn [foldl external_sizes foldr].
    fold (external_sizes l). rewrite IH by set_solver.
    rewrite record_at by (apply Hl; set_solver). cbv zeta. rewrite node_rec_file.
    change (j :: l) with ([j] ++ l). rewrite payload_app, length_app.
    assert (Hp : payload s [j] = node_body s j) by (unfold payload; cbn; by rewrite app_nil_r).
    rewrite Hp. unfold node_body, node_rec, external_size.
    destruct (in_use (node s j)) eqn:Hu; cbn [andb].
    - destruct (so_node s Hs j Hu) as (_ & _ & _ & _ & _ & Hsz & _).
      destruct (Z.eqb_spec (type (node s j)) FS_FILE) as [Ht|Ht]; cbn [andb].
      + cbn [rec_of_node r_size]. rewrite (wrap_small 32) by lia.
        destruct (stored (node s j)) eqn:Hst; [rewrite (so_bodies s Hs j Hst); cbn [negb]; lia|cbn; lia].
      + assert (stored (node s j) = false) as ->; [|cbn; lia].
        unfold stored. rewrite (proj2 (Z.eqb_neq _ _) Ht). by rewrite andb_false_r.
    - assert (stored (node s j) = false) as ->; [|cbn; lia]. unfold stored. by rewrite Hu. }
  apply Hgen. intros j Hj%elem_of_seq. lia.
Qed.

(** Reading behind the records is reading in the payload. *)
Lemma slice_payload off n :
  slice (Z.to_nat REC_REGION + off) n (snapshot s) = slice off n (payload s (seq 0 MAX_FILES)).
Proof.
  assert (Hlr : length (records s (seq 0 MAX_FILES)) = Z.to_nat REC_REGION).
  { rewrite length_records, length_seq. unfold REC_REGION. by rewrite Nat2Z.id. }
  unfold snapshot. rewrite slice_skip by lia. f_equal. lia.
Qed.

End fields.

Section table.
Variable stale : Z -> Z -> list Z.
Hypothesis Hstale : forall p n, 0 <= n -> length (stale p n) = Z.to_nat n.
Variable s : fs H.
Hypothesis Hs : snap_fields s.

(** No boot-module alias is in a slot up to [j], slot [j] included. *)
Definition no_alias_upto (j : nat) : Prop := external_sizes s (seq 0 (S j)) = 0.

Lemma external_sizes_app l1 l2 : external_sizes s (l1 ++ l2) = external_sizes s l1 + external_sizes s l2.
Proof. unfold external_sizes. induction l1 as [|j l1 IH]; [done|]. cbn [app foldr]. rewrite IH. apply Z.add_assoc. Qed.

Lemma external_sizes_nonneg l : 0 <= external_sizes s l.
Proof.
  induction l as [|j l IH]; [done|]. cbn [external_sizes foldr]. fold (external_sizes s l).
  pose proof (external_size_nonneg s Hs j). lia.
Qed.

Lemma no_alias_parts j : no_alias_upto j -> external_sizes s (seq 0 j) = 0 /\ external_size s j = 0.
Proof.
  unfold no_alias_upto. rewrite seq_S, external_sizes_app, Nat.add_0_l. cbn [external_sizes foldr].
  pose proof (external_sizes_nonneg (seq 0 j)). pose proof (external_size_nonneg s Hs j). lia.
Qed.

Lemma no_alias_stored j :
  no_alias_upto j -> in_use (node s j) = true -> type (node s j) = FS_FILE -> 0 < size (node s j) ->
  stored (node s j) = true.
Proof.
  intros [_ He]%no_alias_parts Hu Ht Hp. unfold external_size in He. rewrite Hu, Ht, Z.eqb_refl in He.
  destruct (stored (node s j)); [done|]. cbn [negb andb] in He. lia.
Qed.

Lemma body_offset_eq i : (i <= MAX_FILES)%nat -> external_sizes s (seq 0 i) = 0 ->
  body_offset (snapshot s) i = REC_REGION + Z.of_nat (length (payload s (seq 0 i))).
Proof.
  intros Hi Hz. rewrite (body_offset_fields s Hs) by done. rewrite Hz. lia.
Qed.

Lemma body_at i : (i < MAX_FILES)%nat -> external_sizes s (seq 0 i) = 0 -> stored (node s i) = true ->
  slice (Z.to_nat (body_offset (snapshot s) i)) (Z.to_nat (size (node s i))) (snapshot s) = body_of s i.
Proof.
  intros Hi Hz Hst. rewrite body_offset_eq by (done || lia).
  replace (Z.to_nat (REC_REGION + Z.of_nat (length (payload s (seq 0 i)))))
    with (Z.to_nat REC_REGION + length (payload s (seq 0 i)))%nat by (unfold REC_REGION; lia).
  rewrite slice_payload, (split_slots i Hi), payload_app.
  rewrite slice_skip, Nat.sub_diag by lia.
  change (i :: seq (S i) (MAX_FILES - S i)) with ([i] ++ seq (S i) (MAX_FILES - S i)).
  rewrite payload_app. assert (Hp : payload s [i] = body_of s i).
  { unfold payload, node_body. cbn. by rewrite Hst, app_nil_r. }
  rewrite Hp. apply slice_here. by apply (so_bodies s Hs).
Qed.

(** Node [j] of [t] is node [j] of [s]; a body the heap had no room for is
    dropped, and the bytes of a body are those of [s] when no alias shifts them. *)
Definition restored (t : fs H) (j : nat) : Prop :=
  let f := node s j in let g := node t j in
  in_use g = in_use f /\
  (in_use f = true ->
    name g = name f /\ type g = type f /\ parent_dir g = parent_dir f /\ flags g = flags f /\
    creation_time g = creation_time f /\ modified_time g = modified_time f /\
    (type f = FS_FILE -> size g = size f \/ size g = 0) /\
    (type f = FS_FILE -> no_alias_upto j -> size g = size f -> body_of t j = body_of s j) /\
    (type f = FS_FILE -> 0 < size g -> is_Some (live (heap t) !! data g))).

Lemma body_of_nil (t : fs H) j : size (node t j) = 0 -> body_of t j = [].
Proof. intros Hz. unfold body_of. by rewrite Hz. Qed.

(** What one iteration does to slot [i], and that it leaves the others alone. *)
Lemma restore_step t i :
  (i < MAX_FILES)%nat -> length (files t) = MAX_FILES -> heap_ok (heap t) ->
  let t' := restore_node stale (snapshot s) t i in
  restored t' i /\ length (files t') = MAX_FILES /\ heap_ok (heap t') /\
  (forall j, j <> i -> node t' j = node t j) /\
  (forall q, is_Some (live (heap t) !! q) ->
     is_Some (live (heap t') !! q) /\ blocks t' !! q = blocks t !! q).
Proof.
  intros Hi Hl Hok. unfold restore_node. rewrite (record_at s Hs) by done.
  assert (Hput : forall f (u : fs H), length (files u) = MAX_FILES -> node (put i f u) i = f /\
            (forall j, j <> i -> node (put i f u) j = node u j)).
  { intros f u Hlu. split; [|intros j Hj]; rewrite node_put by lia.
    - by rewrite decide_True.
    - by rewrite decide_False. }
  unfold node_rec. destruct (in_use (node s i)) eqn:Hu.
  2: { cbn [null_rec r_used Z.eqb]. set (f := File _ _ _ _ _ _ _ _ _ _).
       destruct (Hput f t Hl) as [Hn Hoth]. split; [unfold restored; by rewrite Hn, Hu|].
       split; [by rewrite length_put|]. done. }
  destruct (so_node s Hs i Hu) as (Hnm & Hnl & Hpa & Hty & Hfl & Hsz & Hct & Hmt).
  cbn [rec_of_node r_used r_type r_size r_name r_parent r_flags r_ctime r_mtime].
  change (1 =? 0) with false. cbv iota. rewrite take_take, Nat.min_id, (firstn_all2 (name (node s i))) by lia.
  rewrite (wrap_small 8 (type _)), (wrap_small 32 (size _)), (wrap_small 32 (flags _)), (wrap_small 8) by lia.
  rewrite i32_small by lia.
  set (f0 := File _ _ _ _ _ _ _ _ _ _).
  assert (Hres : forall (u : fs H) d sz c, node u i = with_body d sz c f0 ->
     (type (node s i) = FS_FILE -> sz = size (node s i) \/ sz = 0) ->
     (type (node s i) = FS_FILE -> no_alias_upto i -> sz = size (node s i) -> body_of u i = body_of s i) ->
     (type (node s i) = FS_FILE -> 0 < sz -> is_Some (live (heap u) !! d)) -> restored u i).
  { intros u d sz c Hn H1 H2 H3. unfold restored. rewrite Hn. cbn. rewrite Hu. split; [done|].
    intros _. repeat (split; [done|]). done. }
  destruct ((type (node s i) =? FS_FILE) && (0 <? size (node s i))) eqn:Hf.
  - apply andb_prop in Hf as [Hft%Z.eqb_eq Hfs%Z.ltb_lt].
    unfold alloc_block. destruct (kmalloc (size (node s i)) (heap t)) as [[d|] h'] eqn:Hk.
    + destruct (kmalloc_ok (heap t) (size (node s i)) d h' Hok ltac:(lia) Hk) as (Hok' & _ & _ & Hfresh & sz & _ & Hlive & _).
      set (piece := slice _ _ (snapshot s)).
      set (u := copy_in d 0 piece (set_mem h' (<[d:=stale d (size (node s i))]> (blocks t)) t)).
      destruct (Hput (with_body d (size (node s i)) (size (node s i)) f0) u Hl) as [Hn Hoth].
      assert (Hbd : no_alias_upto i -> blocks u !! d = Some (body_of s i)).
      { intros Hna. pose proof (no_alias_stored i Hna Hu Hft Hfs) as Hst. destruct (no_alias_parts i Hna) as [Hz _].
        unfold u, copy_in, piece. rewrite body_at by done. cbn [blocks set_mem]. rewrite lookup_alter_eq, lookup_insert_eq. cbn. f_equal.
        unfold splice. rewrite take_0, drop_ge, app_nil_r; [done|].
        rewrite Hstale by lia. rewrite (so_bodies s Hs i Hst). lia. }
      clearbody piece.
      split; [|split; [by rewrite length_put|split; [done|split; [exact Hoth|]]]].
      * apply (Hres _ _ _ _ Hn).
        -- by left.
        -- intros _ Hna _. unfold body_of at 1. rewrite Hn. unfold read_block.
           cbn [data size with_body]. change (blocks (put i _ u)) with (blocks u). rewrite (Hbd Hna). cbn [from_option].
           unfold id. apply slice_all, (so_bodies s Hs). by apply no_alias_stored.
        -- intros _ _. change (heap (put i _ u)) with h'. rewrite Hlive, lookup_insert_eq. eauto.
      * intros q Hq. assert (Hne : q <> d) by (intros ->; destruct Hq; congruence).
        change (heap (put i _ u)) with h'. rewrite Hlive, lookup_insert_ne by done.
        split; [done|]. unfold u, copy_in. cbn [blocks set_mem put set_files].
        by rewrite lookup_alter_ne, lookup_insert_ne.
    + destruct (kmalloc_fail (heap t) (size (node s i)) h' Hok ltac:(lia) Hk) as [Hok' Hlive].
      set (u := set_mem h' (blocks t) t). destruct (Hput (with_body 0 0 0 f0) u Hl) as [Hn Hoth].
      split; [|split; [by rewrite length_put|split; [done|split; [exact Hoth|]]]].
      * apply (Hres _ _ _ _ Hn); [by right|intros _ _ ?; lia|lia].
      * intros q Hq. change (heap (put i _ u)) with h'. by rewrite Hlive.
  - destruct (Hput f0 t Hl) as [Hn Hoth].
    split; [|split; [by rewrite length_put|split; [done|split; [exact Hoth|done]]]].
    apply (Hres _ 0 (size (node s i)) 0 Hn).
    + by left.
    + intros Hft _ _. rewrite Hft, Z.eqb_refl in Hf. apply Z.ltb_ge in Hf.
      rewrite !body_of_nil; [done|lia|]. rewrite Hn. cbn. lia.
    + intros Hft Hpos. rewrite Hft, Z.eqb_refl in Hf. apply Z.ltb_ge in Hf. lia.
Qed.

(** An iteration leaves a restored slot restored. *)
Lemma restored_keep t i j :
  (i < MAX_FILES)%nat -> length (files t) = MAX_FILES -> heap_ok (heap t) -> j <> i ->
  restored t j -> restored (restore_node stale (snapshot s) t i) j.
Proof.
  intros Hi Hl Hok Hji [Hu Hr].
  destruct (restore_step t i Hi Hl Hok) as (_ & _ & _ & Hoth & Hlive).
  set (t' := restore_node stale (snapshot s) t i) in *. unfold restored. rewrite Hoth by done.
  split; [done|]. intros Huf. destruct (Hr Huf) as (? & ? & ? & ? & ? & ? & Hsz & Hb & Hown).
  repeat (split; [done|]). split.
  - intros Hty Hna Heq. rewrite <-(Hb Hty Hna Heq). unfold body_of. rewrite Hoth by done.
    destruct (Z.lt_ge_cases 0 (size (node t j))) as [Hpos|Hz].
    + destruct (Hlive _ (Hown Hty Hpos)) as [_ Hbl]. unfold read_block. by rewrite Hbl.
    + replace (Z.to_nat (size (node t j))) with 0%nat by lia. done.
  - intros Hty Hpos. by apply Hlive, Hown.
Qed.

Lemma restore_all t :
  length (files t) = MAX_FILES -> heap_ok (heap t) ->
  let t' := foldl (restore_node stale (snapshot s)) t (seq 0 MAX_FILES) in
  length (files t') = MAX_FILES /\ heap_ok (heap t') /\
  forall j, (j < MAX_FILES)%nat -> restored t' j.
Proof.
  intros Hl Hok.
  assert (Hgen : forall n k u, (k + n <= MAX_FILES)%nat -> length (files u) = MAX_FILES ->
    heap_ok (heap u) -> (forall j, (j < k)%nat -> restored u j) ->
    let u' := foldl (restore_node stale (snapshot s)) u (seq k n) in
    length (files u') = MAX_FILES /\ heap_ok (heap u') /\ forall j, (j < k + n)%nat -> restored u' j).
  { induction n as [|n IH]; intros k u Hk Hlu Hou Hdone; cbn [seq foldl].
    - split; [done|]. split; [done|]. intros j Hj. apply Hdone. lia.
    - destruct (restore_step u k ltac:(lia) Hlu Hou) as (Hr & Hl' & Ho' & _).
      destruct (IH (S k) (restore_node stale (snapshot s) u k)) as (H1 & H2 & H3); [lia|done|done| |].
      + intros j Hj. destruct (decide (j = k)) as [->|]; [done|].
        apply restored_keep; [lia|done|done|done|apply Hdone; lia].
      + split; [done|]. split; [done|]. intros j Hj. apply H3. lia. }
  apply (Hgen MAX_FILES 0%nat t); [lia|done|done|]. lia.
Qed.

End table.

End restore.

(** * The heap a boot from a snapshot starts with: nothing is allocated.  It can
    serve a snapshot buffer of any size a slot holds, and after the buffer is
    freed it is idle again, so [persist_load] can go on to the next slot.  The
    file closes with the tables and disks the properties are tried on. *)

Definition idle_segs : list seg := [(KHEAP_SIZE - META_SIZE, true)].

Definition idle_heap (heap : Z) (h : kheap) : Prop := kheap_ok heap h /\ segs_of h = idle_segs.

Lemma alloc_idle a n : 0 <= n <= SLOT_BYTES + 8 ->
  alloc a n idle_segs =
    Some (a, [(n, false); (KHEAP_SIZE - META_SIZE - n - META_SIZE, true)]).
Proof.
  intros Hn. change (SLOT_BYTES) with 33553920 in Hn. unfold idle_segs, alloc, KHEAP_SIZE, META_SIZE in *.
  cbn [andb]. rewrite (proj2 (Z.leb_le n _)) by lia. by rewrite (proj2 (Z.ltb_lt _ _)) by lia.
Qed.

Lemma coalesce_pair k a b : coalesce (S (S k)) (a, true) [(b, true)] = [(a + (META_SIZE + b), true)].
Proof. done. Qed.

Lemma free_idle a n :
  coalesce_all (free_at a a [(n, false); (KHEAP_SIZE - META_SIZE - n - META_SIZE, true)]) = idle_segs.
Proof.
  cbn [free_at]. rewrite Z.eqb_refl. unfold coalesce_all, MERGE_STEPS.
  replace (Z.to_nat 99999) with (S (S (Z.to_nat 99997))) by lia.
  rewrite coalesce_pair. unfold idle_segs. do 2 f_equal. lia.
Qed.

Lemma idle_serves heap me who : KheapPlaced heap ->
  @serves_buffers kheap (kheap_KernelHeap heap me who) (idle_heap heap).
Proof.
  intros [Hpos Hend]. split; [by intros h []|]. intros h n [Hok Hs] Hn. cbn.
  assert (Hb : n <= SLOT_BYTES /\ SLOT_BYTES < 2 ^ 63) by (split; [lia|by vm_compute]).
  pose proof (align8_bounds n ltac:(lia)) as Ha. pose proof (align8_aligned n) as [Ha0 _].
  destruct (kmalloc_refines_aux heap Hpos Hend me who n h Hok) as (r & h1 & -> & Hok1 & Hr).
  rewrite Hs, alloc_idle in Hr by lia. destruct Hr as [-> Hs1].
  exists (heap + META_SIZE), h1. split; [done|]. split; [done|].
  assert (Hl : is_Some (kheap_live heap h1 !! (heap + META_SIZE))).
  { unfold kheap_live. rewrite Hs1. cbn [live_of]. rewrite lookup_insert_eq. eauto. }
  destruct (kfree_refines_aux heap Hpos Hend me who _ h1 Hok1 Hl) as (h2 & -> & Hok2 & Hs2).
  split; [done|]. rewrite Hs2, Hs1. replace (heap + META_SIZE - META_SIZE) with heap by lia.
  apply free_idle.
Qed.

Lemma idle_boot heap : idle_heap heap kheap_boot.
Proof. split; [apply kheap_boot_ok|done]. Qed.

(** ** Tables and disks to try the properties on *)

Section trial.
Variable heap : Z.
#[local] Instance trial_heap : KernelHeap kheap := kheap_KernelHeap heap 1 0.

(** The first slots of a table, the rest being free. *)
Definition table (l : list file_t) (b : gmap Z (list Z)) (d : bool) : fs kheap :=
  Fs (l ++ replicate (MAX_FILES - length l) null_file) (-1) (-1) (-1) (-1) (Some 0) kheap_boot b d 5.

Lemma table_node l b d i : node (table l b d) i = default null_file (l !! i).
Proof.
  unfold node, table. cbn [files]. destruct (decide (i < length l)%nat).
  - by rewrite lookup_app_l by done.
  - rewrite lookup_app_r, (lookup_ge_None_2 l) by lia. cbn [default from_option].
    destruct (replicate _ _ !! _) eqn:E; [|done]. apply lookup_replicate in E as [-> _]. done.
Qed.

Lemma table_length l b d : (length l <= MAX_FILES)%nat -> length (files (table l b d)) = MAX_FILES.
Proof. intros. unfold table. cbn [files]. rewrite length_app, length_replicate. lia. Qed.

(** What must hold of the slots in use holds of a table when it holds of [l]. *)
Lemma table_forall (P : nat -> file_t -> Prop) l b d :
  (forall i, P i null_file) -> (forall i f, l !! i = Some f -> P i f) -> forall i, P i (node (table l b d) i).
Proof.
  intros H0 Hl i. rewrite table_node. destruct (l !! i) eqn:E; [by apply Hl|apply H0].
Qed.

End trial.

Definition note_file (nm : list Z) (addr sz cap : Z) : file_t := File nm addr sz cap true FS_FILE 0 0 7 9.

(** "/" and the file "/f" with the body "hello". *)
Definition hello_table (d : bool) : fs kheap :=
  table [root_file; note_file (str "f") 4096 5 16] {[4096 := str "hello"]} d.

(** "/", a boot module of three bytes, and the file "/f". *)
Definition module_table (d : bool) : fs kheap :=
  table [root_file; note_file (str "m") 8192 3 0; note_file (str "f") 4096 5 16]
    ({[4096 := str "hello"; 8192 := str "abc"]}) d.

Definition hello_heap : KernelHeap kheap := kheap_KernelHeap 2097152 1 0.
Definition hello_heap_spec : @KernelHeapSpec kheap hello_heap := kheap_KernelHeapSpec 2097152 1 0.

Section trial_ok.
#[local] Existing Instance hello_heap.

(** Slots that are free, or that hold no stored body, ask for nothing. *)
Ltac trial_slot :=
  cbn [lookup list_lookup from_option default]; unfold id;
  let Hu := fresh in intros Hu; try (vm_compute in Hu; discriminate Hu); clear Hu.

Ltac trial_bounds :=
  repeat split; try (vm_compute; first [discriminate|reflexivity]); try (cbn; lia);
  repeat constructor; lia.

Lemma hello_serves : serves_buffers (idle_heap 2097152).
Proof. apply idle_serves, _. Qed.

Lemma hello_fields d : snap_fields (hello_table d).
Proof.
  split; intros i; unfold body_of, hello_table; rewrite table_node; destruct i as [|[|i]]; trial_slot.
  - vm_compute. reflexivity.
  - trial_bounds.
  - trial_bounds.
Qed.

Lemma hello_body d i : stored (node (hello_table d) i) = true -> Forall is_byte (body_of (hello_table d) i).
Proof.
  unfold body_of, hello_table. rewrite table_node. destruct i as [|[|i]]; trial_slot.
  vm_compute. repeat constructor; discriminate.
Qed.

Lemma module_fields : snap_fields (module_table false).
Proof.
  split; intros i; unfold body_of, module_table; rewrite table_node;
    destruct i as [|[|[|i]]]; trial_slot.
  - vm_compute. reflexivity.
  - trial_bounds.
  - trial_bounds.
  - trial_bounds.
Qed.

End trial_ok.
