(* ===== verification/PersistProps.v ===== *)
(** The properties of the persistent root. *)
From Stdlib Require Import ZArith Lia.
From stdpp Require Import base numbers list gmap strings.
From S2P Require Import Prelude HeapIface Kheap KheapSpec Fs FsSpec Persist PersistSpec PersistLoad.

(** The checksum detects every damaged byte: two buffers that differ in one
    byte, anywhere, have different CRCs. *)
Theorem crc32_detects_byte pre post b b' :
  Forall is_byte pre -> Forall is_byte post -> is_byte b -> is_byte b' -> b <> b' ->
  crc32_buf (pre ++ b :: post) <> crc32_buf (pre ++ b' :: post).
Proof.
  intros Hpre Hpost Hb Hb' Hne He. apply Hne. unfold crc32_buf in He. apply lxor_cancel in He.
  rewrite !foldl_app in He. cbn [foldl] in He.
  assert (Hu : is_u32 (foldl crc_byte 0xFFFFFFFF pre)) by (apply crc_fold_u32; [unfold is_u32; lia|done]).
  apply crc_fold_inj in He; [|by apply crc_byte_u32..|done].
  apply crc_byte_inj in He; [|done..]. rewrite !(Z.lxor_comm (foldl _ _ _)) in He.
  by apply lxor_cancel in He.
Qed.

Lemma crc32_detects_byte_witness : crc32_buf [1; 2; 3] <> crc32_buf [1; 6; 3].
Proof.
  apply (crc32_detects_byte [1] [3] 2 6); [repeat constructor; lia|repeat constructor; lia|
    split; lia|split; lia|lia].
Defined.

Section props.
Context {H : Type} `{!KernelHeap H} `{!KernelHeapSpec H}.
Variable stale : Z -> Z -> list Z.
Hypothesis Hstale : forall p n, 0 <= n -> length (stale p n) = Z.to_nat n.
Variable write_fails : nat -> bool.
Variable read_fails : Z -> bool.
Hypothesis Hread : forall x, read_fails x = false.
Variable I : H -> Prop.
Hypothesis HI : serves_buffers I.
Implicit Types s : fs H.

Notation good_slot := (good_slot read_fails).
Notation older_slot := (older_slot read_fails).

(** Every stored body is made of bytes. *)
Definition bytes_ok (s : fs H) : Prop :=
  forall i, stored (node s i) = true -> Forall is_byte (body_of s i).

Lemma Forall_pad n l : Forall is_byte l -> Forall is_byte (pad n l).
Proof.
  intros Hl. apply Forall_app. split; [by apply Forall_take|]. apply Forall_replicate.
  split; lia.
Qed.

Lemma Forall_rec_bytes r : is_cstr (r_name r) -> Forall is_byte (rec_bytes r).
Proof.
  intros Hn. unfold rec_bytes. rewrite !Forall_app. repeat split; try apply Forall_le_bytes.
  apply Forall_pad. eapply Forall_impl; [exact Hn|]. unfold is_byte. cbn. lia.
Qed.

Lemma Forall_snapshot s : snap_fields s -> bytes_ok s -> Forall is_byte (snapshot s).
Proof.
  intros Hs Hb. apply Forall_app. split; unfold records, payload; apply Forall_concat, Forall_fmap, Forall_true; intros i.
  - apply Forall_rec_bytes. apply (node_rec_ok s Hs i).
  - cbn. unfold node_body. destruct (stored (node s i)) eqn:E; [by apply Hb|by apply Forall_nil_2].
Qed.

Lemma length_snapshot s : Z.of_nat (length (snapshot s)) =
  REC_REGION + Z.of_nat (length (payload s (seq 0 MAX_FILES))).
Proof. unfold snapshot. rewrite length_app, length_records, length_seq. unfold REC_REGION. lia. Qed.

(** The node count stays within 256. *)
Lemma build_nodes s l acc :
  snd acc <= snd (foldl (build_step s) acc l) <= snd acc + Z.of_nat (length l).
Proof.
  revert acc. induction l as [|i l IH]; intros acc; [cbn; lia|]. cbn [foldl length].
  specialize (IH (build_step s acc i)).
  assert (snd acc <= snd (build_step s acc i) <= snd acc + 1); [|lia].
  destruct acc as [[[buf off] pay] n]. unfold build_step.
  destruct (in_use _); [destruct (_ && _)|]; cbn [snd]; lia.
Qed.

Lemma REC_REGION_val : REC_REGION = 22016.
Proof. vm_compute. reflexivity. Qed.

Lemma slot_bytes_val : SLOT_BYTES = 33553920 /\ PERSIST_SLOT_SECT = 65536.
Proof. split; vm_compute; reflexivity. Qed.

Lemma slot_base_eq n : slot_base n = base_of (Z.land n 1).
Proof. done. Qed.

Lemma land1 n : Z.land n 1 = n mod 2.
Proof. by apply (Z.land_ones n 1). Qed.

(** A slot whose writing ran to its end is complete. *)
Lemma write_slot_good base s nodes sq d d' :
  snap_fields s -> bytes_ok s -> is_u32 nodes -> is_u32 sq ->
  write_slot write_fails base (snapshot s) nodes sq d = (true, d') ->
  exists h total, slot_header read_fails base d' = Some (h, total) /\ h_seq h = sq /\
    read_body read_fails (Z.to_nat (need_sectors total)) (Z.to_nat total) (base + 1) d' = Some (snapshot s) /\
    crc32_buf (snapshot s) = h_crc h.
Proof.
  intros Hs Hb Hn Hsq. unfold write_slot. set (snap := snapshot s).
  set (len := Z.of_nat (length snap)). destruct (Z.ltb_spec PERSIST_SLOT_SECT (need_sectors len + 1)) as [|Hfit]; [done|].
  destruct (write_body _ _ _ _ d) as [[] d1] eqn:Ew; [|done].
  set (h := PkHdr _ _ _ _ _ _ _). intros Hw.
  pose proof (length_snapshot s) as Hlen. fold snap len in Hlen.
  pose proof REC_REGION_val as Hrr. destruct slot_bytes_val as [Hsb Hss].
  set (RR := REC_REGION) in *. clearbody RR.
  assert (Hbnd : 0 < len <= SLOT_BYTES).
  { rewrite Hsb. rewrite Hss in Hfit. unfold need_sectors in Hfit. zify_div. }
  assert (Hpb : 0 <= len - RR < 2 ^ 64) by lia.
  assert (Hcrc : is_u32 (crc32_buf snap)).
  { apply lxor_u32; [apply crc_fold_u32; [unfold is_u32; lia|by apply Forall_snapshot]|unfold is_u32; lia]. }
  assert (Hr32 : u32 RR = RR) by (apply (wrap_small 32); lia).
  assert (Hok : hdr_ok h).
  { split; [done|unfold h; cbn [h_version]; unfold is_u32, PERSIST_VERSION; lia|exact Hsq|exact Hn| |exact Hpb|exact Hcrc].
    cbn [h h_rec_bytes]. rewrite Hr32. unfold is_u32. lia. }
  assert (Hd : dev_read read_fails base d' = Some (pad SECTOR (hdr_bytes h))).
  { unfold dev_read. rewrite Hread. f_equal. by apply (dev_write_done write_fails _ _ d1). }
  assert (Hpad : hdr_of (pad SECTOR (hdr_bytes h)) = h).
  { unfold pad. rewrite firstn_all2; [by apply hdr_of_bytes|].
    unfold hdr_bytes. rewrite !length_app, !length_le_bytes, length_pad. unfold zero_bytes.
    rewrite length_replicate. unfold SECTOR. lia. }
  exists h, len. split.
  - unfold slot_header. rewrite Hd. cbn [mbind option_bind]. rewrite Hpad.
    cbn [h h_magic h_version h_rec_bytes h_payload_bytes].
    rewrite bool_decide_eq_true_2 by done. cbn [negb].
    rewrite REC_REGION_val, <-Hrr, Hr32, !Z.eqb_refl. cbn [negb].
    replace (RR + (len - RR)) with len by lia.
    rewrite (wrap_small 64) by lia.
    rewrite (proj2 (Z.eqb_neq len 0)) by lia. cbn [orb].
    by rewrite (proj2 (Z.ltb_ge _ len)) by (exact (proj2 Hbnd)).
  - split; [done|]. split; [|done].
    rewrite (read_body_frame read_fails _ _ _ d1 d').
    + unfold len. rewrite Nat2Z.id. eapply write_read_body; [exact Ew| |done].
      fold snap. unfold need_sectors, SECTOR. zify_div.
    + intros x Hx. eapply dev_write_frame; [exact Hw|lia].
Qed.

(** Nothing is written outside the slot, and its header sector only at the end. *)
Lemma write_slot_frame base snap nodes sq d ok d' :
  write_slot write_fails base snap nodes sq d = (ok, d') ->
  (forall x, x < base \/ base + PERSIST_SLOT_SECT <= x -> sector_at x d' = sector_at x d) /\
  (ok = false -> sector_at base d' = sector_at base d).
Proof.
  unfold write_slot. destruct (Z.ltb_spec PERSIST_SLOT_SECT (need_sectors (Z.of_nat (length snap)) + 1)) as [|Hfit].
  { by intros [= <- <-]. }
  destruct (write_body _ _ _ _ d) as [r d1] eqn:Ew.
  assert (Hb : forall x, x < base + 1 \/ base + 1 + need_sectors (Z.of_nat (length snap)) <= x ->
             sector_at x d1 = sector_at x d).
  { intros x Hx. eapply write_body_frame; [exact Ew|].
    assert (0 <= need_sectors (Z.of_nat (length snap))) by (unfold need_sectors; zify_div).
    lia. }
  destruct r.
  - intros Hw. split.
    + intros x Hx. assert (0 < PERSIST_SLOT_SECT) by done.
      rewrite (dev_write_frame _ _ _ _ _ _ _ Hw) by lia. apply Hb. lia.
    + intros ->. unfold dev_write in Hw. destruct (write_fails _); [|done]. injection Hw as <-.
      apply (Hb base). lia.
  - intros [= <- <-]. split; [intros x Hx; apply Hb; lia|]. intros _. apply Hb. lia.
Qed.

Lemma need_total total : 0 < total <= SLOT_BYTES -> 1 + need_sectors total <= PERSIST_SLOT_SECT.
Proof. destruct slot_bytes_val as [-> ->]. unfold need_sectors. intros. zify_div. Qed.

(** A slot is read the same from a device that agrees on its sectors. *)
Lemma good_slot_frame d d' slot sq bytes :
  (forall x, base_of slot <= x < base_of slot + PERSIST_SLOT_SECT -> sector_at x d' = sector_at x d) ->
  good_slot d slot sq bytes -> good_slot d' slot sq bytes.
Proof.
  intros Hx (h & total & Hh & Hsq & Hr & Hc).
  pose proof (slot_header_total _ _ _ _ _ Hh) as [Ht _]. pose proof (need_total total Ht).
  assert (0 < PERSIST_SLOT_SECT) by done.
  exists h, total. split; [|split; [done|split; [|done]]].
  - rewrite <-Hh. unfold slot_header, dev_read. by rewrite Hx by lia.
  - rewrite <-Hr. apply read_body_frame. intros x Hxx. apply Hx.
    assert (0 <= need_sectors total) by (unfold need_sectors; zify_div). lia.
Qed.

(** The device after a sync, whichever writes failed. *)
Lemma sync_slots (p : persist) d bytes n :
  dev p = Some d -> seq_ p = n -> 0 <= n < 2 ^ 32 - 1 -> snap_fields (pfs p) -> bytes_ok (pfs p) ->
  good_slot d (n mod 2) n bytes -> older_slot d (1 - n mod 2) n ->
  exists d', dev (persist_sync write_fails p) = Some d' /\
    ((good_slot d' (n mod 2) n bytes /\ older_slot d' (1 - n mod 2) n /\
        (dirty (pfs p) = true -> dirty (pfs (persist_sync write_fails p)) = true)) \/
     (good_slot d' (1 - n mod 2) (n + 1) (snapshot (pfs p)) /\ older_slot d' (n mod 2) (n + 1))).
Proof.
  intros Hd Hn Hn2 Hs Hb Hg Ho. unfold persist_sync. rewrite Hd.
  destruct (negb (dirty (pfs p))) eqn:Hdy.
  { exists d. split; [done|]. left. split; [done|]. split; [done|]. intros Ht. by rewrite Ht in Hdy. }
  unfold build_snapshot. destruct (kmalloc _ (heap (pfs p))) as [[buf|] h'] eqn:Hk.
  2: { exists d. cbn [dev set_pfs pfs]. split; [done|]. left. done. }
  pose proof (build_bytes (pfs p) (so_bodies _ Hs)) as Hbytes.
  pose proof (build_nodes (pfs p) (seq 0 MAX_FILES)
    (zero_bytes (Z.to_nat (REC_REGION + payload_size (pfs p))), 0%nat, Z.to_nat REC_REGION, 0)) as Hnodes.
  destruct (foldl (build_step (pfs p)) _ _) as [[[snap off] pay] nodes]. cbn [fst snd] in *. subst snap.
  rewrite length_seq in Hnodes.
  cbn [pfs seq_ set_pfs dev snap_nodes]. 
  destruct (Z.ltb_spec PERSIST_SLOT_SECT (need_sectors (Z.of_nat (length (snapshot (pfs p)))) + 1)).
  { exists d. cbn [dev]. split; [done|]. left. done. }
  rewrite Hn, (wrap_small 32) by lia. rewrite slot_base_eq, land1.
  assert (Hpar : (n + 1) mod 2 = 1 - n mod 2) by zify_div. rewrite Hpar.
  assert (Hk01 : n mod 2 = 0 \/ n mod 2 = 1) by zify_div.
  destruct (write_slot _ _ _ _ _ d) as [ok d'] eqn:Ew. cbn [dev pfs set_pfs].
  exists d'. split; [by destruct ok|].
  destruct (write_slot_frame _ _ _ _ _ _ _ Ew) as [Hfr Hfh].
  assert (Hsep : forall x, base_of (n mod 2) <= x < base_of (n mod 2) + PERSIST_SLOT_SECT ->
    sector_at x d' = sector_at x d).
  { intros x Hx. apply Hfr. unfold base_of in *. destruct Hk01 as [E|E]; rewrite E in *; lia. }
  pose proof (good_slot_frame d d' _ _ _ Hsep Hg) as Hg'.
  destruct ok.
  - right. split.
    + apply (write_slot_good _ _ nodes _ d); try done; unfold is_u32, MAX_FILES in *; lia.
    + destruct Hg' as (h & total & Hh & Hsq & _). apply slot_header_total in Hh as (_ & sec & Hr & -> & Hm).
      unfold PersistLoad.older_slot. rewrite Hr. right. lia.
  - left. split; [done|]. split; [|done]. unfold PersistLoad.older_slot, dev_read in *.
    rewrite Hread in *. by rewrite Hfh.
Qed.

(** C21. Crash safety of one sync: start from a device that holds the last good
    snapshot, number [n], in the slot of [n]'s parity while the other slot has
    nothing newer, with the driver's sequence number equal to [n], as a boot that
    loaded a snapshot or a successful sync leaves them (a failed sync does not),
    and let any of the sector writes of [persist_sync] fail, a power cut being
    the case where all writes from some point on do.  If the next boot can read
    the disk and has heap for the buffer, it picks exactly the last good
    snapshot or exactly the new one, and the new one whenever the sync reported
    success.  Tables with boot-module aliases are included; [n] is below
    2^32 - 1. *)
Theorem persist_crash_safe (p p2 : persist) d bytes n :
  dev p = Some d -> seq_ p = n -> 0 <= n < 2 ^ 32 - 1 -> snap_fields (pfs p) -> bytes_ok (pfs p) ->
  dirty (pfs p) = true ->
  good_slot d (n mod 2) n bytes -> older_slot d (1 - n mod 2) n -> I (heap (pfs p2)) ->
  exists d' best, dev (persist_sync write_fails p) = Some d' /\
    (exists buf sq p3, pick read_fails d' p2 = (Some (buf, best), sq, true, p3)) /\
    (best = bytes \/ best = snapshot (pfs p)) /\
    (dirty (pfs (persist_sync write_fails p)) = false -> best = snapshot (pfs p)).
Proof.
  intros Hd Hn Hn2 Hs Hb Hdy Hg Ho Hp2.
  assert (Hk01 : n mod 2 = 0 \/ n mod 2 = 1) by zify_div.
  destruct (sync_slots p d bytes n Hd Hn Hn2 Hs Hb Hg Ho) as (d' & Hd' & [(Hg' & Ho' & Hdirty)|(Hg' & Ho')]).
  - destruct (pick_good read_fails I HI d' (n mod 2) n bytes p2 Hk01 Hp2 Hg' Ho') as (buf & p3 & Hp & _).
    exists d', bytes. split; [done|]. split; [eauto|]. split; [by left|]. intros Hf.
    rewrite Hdirty in Hf by done. done.
  - destruct (pick_good read_fails I HI d' (1 - n mod 2) (n + 1) (snapshot (pfs p)) p2) as (buf & p3 & Hp & _);
      [lia|done|done|by replace (1 - (1 - n mod 2)) with (n mod 2) by lia|].
    exists d', (snapshot (pfs p)). split; [done|]. split; [eauto|]. split; [by right|done].
Qed.






(** Boot-module aliases shift the payload: their sizes are in the records
    but their bytes are not in the payload, so the body of a file behind
    external files of [e] bytes in total is loaded from [e] bytes further on
    than where it was saved. *)
Theorem persist_external_shift s j :
  snap_fields s -> (j <= MAX_FILES)%nat ->
  let e := external_sizes s (seq 0 j) in
  0 <= e /\
  slice (Z.to_nat (body_offset (snapshot s) j)) (Z.to_nat (size (node s j))) (snapshot s) =
    slice (length (payload s (seq 0 j)) + Z.to_nat e) (Z.to_nat (size (node s j)))
      (payload s (seq 0 MAX_FILES)).
Proof.
  intros Hs Hj e.
  assert (He : 0 <= e).
  { unfold e. generalize (seq 0 j). induction l as [|i l IH]; [done|]. cbn [external_sizes foldr].
    fold (external_sizes s l). pose proof (external_size_nonneg s Hs i). lia. }
  split; [done|]. rewrite (body_offset_fields s Hs) by done. fold e. rewrite <-slice_payload. f_equal.
  unfold REC_REGION. lia.
Qed.

(** A newer slot with a damaged body costs the older snapshot: when slot 0
    is complete and slot 1's header is intact and newer but its body fails the
    CRC, [persist_load] frees the good snapshot it had already loaded and
    restores nothing. *)
Theorem persist_newer_corrupt (p : persist) d n bytes h total bad :
  dev p = Some d -> I (heap (pfs p)) -> good_slot d 0 n bytes ->
  slot_header read_fails (base_of 1) d = Some (h, total) -> n < h_seq h ->
  read_body read_fails (Z.to_nat (need_sectors total)) (Z.to_nat total) (base_of 1 + 1) d = Some bad ->
  crc32_buf bad <> h_crc h ->
  files (pfs (persist_load stale read_fails p)) = files (pfs p).
Proof.
  intros Hd Hp Hg Hh Hn Hr Hc. unfold persist_load. rewrite Hd. cbn [foldl].
  pose proof Hg as (h0 & total0 & Hh0 & Hs0 & _).
  apply slot_header_total in Hh0 as (_ & sec & Hsec & -> & Hm).
  pose proof Hh as Hh1. apply slot_header_total in Hh1 as (Ht1 & sec1 & Hsec1 & -> & Hm1).
  destruct (load_good read_fails I HI d 0 n bytes p Hp Hg) as (buf & h' & Hl & Hok & HI').
  assert (E0 : exists p1, pick_step read_fails d (None, 0, false, p) 0 = (Some (buf, bytes), n, true, p1) /\
     files (pfs p1) = files (pfs p) /\ heap (pfs p1) = h').
  { unfold pick_step. change (PERSIST_BASE_LBA + 0 * PERSIST_SLOT_SECT) with (base_of 0).
    rewrite Hsec, Hm, bool_decide_eq_true_2 by done. cbn [negb andb]. rewrite Hl, Hs0. eauto. }
  destruct E0 as (p1 & -> & Hf1 & Hh1).
  assert (E1 : exists p2, pick_step read_fails d (Some (buf, bytes), n, true, p1) 1 = (None, n, true, p2) /\
     files (pfs p2) = files (pfs p)).
  { unfold pick_step. change (PERSIST_BASE_LBA + 1 * PERSIST_SLOT_SECT) with (base_of 1).
    rewrite Hsec1, Hm1, bool_decide_eq_true_2 by done. cbn [negb andb].
    rewrite (proj2 (Z.leb_gt _ _)) by lia. rewrite Hh1. unfold load_slot. rewrite Hh.
    cbn [pfs set_pfs set_heap set_mem heap].
    destruct (sb_serve I HI (kfree buf h') total HI' Ht1) as (buf2 & h2 & -> & _). rewrite Hr.
    rewrite (proj2 (Z.eqb_neq _ _) Hc). cbn [negb]. rewrite (proj2 (Z.eqb_neq n _)) by lia.
    cbn [andb]. eauto. }
  destruct E1 as (p2 & -> & Hf2). done.
Qed.

End props.

(** ** Witnesses: the tables of [PersistLoad] on the kernel's own heap *)

Section witnesses.
#[local] Existing Instance hello_heap.
#[local] Existing Instance hello_heap_spec.

Definition zero_block (p n : Z) : list Z := replicate (Z.to_nat n) 0.
Definition never {A} (_ : A) : bool := false.

(** A disk whose slot 0 holds the snapshot of "/" and "/f", number 0. *)
Definition hello_disk : device :=
  snd (write_slot never (base_of 0) (snapshot (hello_table false)) 2 0 (Device ∅ 0)).

Lemma hello_disk_good : good_slot never hello_disk 0 0 (snapshot (hello_table false)).
Proof.
  unfold good_slot.
  apply (write_slot_good never never (fun _ => eq_refl) (base_of 0) (hello_table false) 2 0 (Device ∅ 0));
    [apply hello_fields|intros i; apply hello_body|unfold is_u32; lia..|].
  vm_compute. reflexivity.
Qed.

Lemma hello_disk_older sq : older_slot never hello_disk 1 sq.
Proof. left. vm_compute. discriminate. Qed.

(** The disk has seen 45 writes; power fails after seven more. *)
Definition power_cut (w : nat) : bool := (52 <=? w)%nat.

Definition dirty_state : persist := Persist (hello_table true) (Some hello_disk) 0 0.
Definition booting (d : device) : persist := Persist (table [] ∅ false) (Some d) 0 0.

Lemma persist_crash_safe_witness :
  exists d' best, dev (persist_sync power_cut dirty_state) = Some d' /\
    (exists buf sq p3, pick never d' (booting hello_disk) = (Some (buf, best), sq, true, p3)).
Proof.
  destruct (persist_crash_safe power_cut never (fun _ => eq_refl) (idle_heap 2097152)
              hello_serves dirty_state (booting hello_disk) hello_disk
              (snapshot (hello_table false)) 0) as (d' & best & Hd' & Hp & _).
  - reflexivity.
  - reflexivity.
  - lia.
  - apply hello_fields.
  - intros i. apply hello_body.
  - reflexivity.
  - apply hello_disk_good.
  - apply hello_disk_older.
  - apply idle_boot.
  - exists d', best. exact (conj Hd' Hp).
Defined.


Lemma default_some {A} (x : A) o : (if o is Some _ then true else false) = true -> o = Some (default x o).
Proof. by destruct o. Qed.





(** "/f" comes after a boot module of three bytes, and comes back as the last
    two of its own bytes. *)
Lemma persist_external_shift_witness :
  slice (Z.to_nat (body_offset (snapshot (module_table false)) 2)) 5 (snapshot (module_table false)) =
  str "lo".
Proof.
  destruct (persist_external_shift (module_table false) 2 module_fields) as [_ Hs];
    [unfold MAX_FILES; lia|].
  etransitivity; [exact Hs|]. vm_compute. reflexivity.
Defined.

(** Slot 1 is newer, and its second sector was overwritten with zeros. *)
Definition torn_disk : device :=
  let d := snd (write_slot never (base_of 1) (snapshot (hello_table false)) 2 1 hello_disk) in
  snd (dev_write never (base_of 1 + 1) (zero_bytes SECTOR) d).

Definition torn_header : pk_hdr_t * Z :=
  default (PkHdr [] 0 0 0 0 0 0, 0) (slot_header never (base_of 1) torn_disk).

Definition torn_body : list Z :=
  default [] (read_body never (Z.to_nat (need_sectors (torn_header.2))) (Z.to_nat (torn_header.2))
    (base_of 1 + 1) torn_disk).

(** Writes outside slot 0 leave its snapshot good. *)
Lemma good_slot_other (d d' : device) sq bytes snap nodes sq' ok sec d2 :
  good_slot never d 0 sq bytes ->
  write_slot never (base_of 1) snap nodes sq' d = (ok, d') ->
  dev_write never (base_of 1 + 1) sec d' = (true, d2) ->
  good_slot never d2 0 sq bytes.
Proof.
  intros Hg Hw Hd. apply (good_slot_frame never d); [|exact Hg]. intros x Hx.
  unfold base_of, PERSIST_BASE_LBA in *. assert (PERSIST_SLOT_SECT = 65536) as Hs by reflexivity.
  rewrite (dev_write_frame never _ _ _ _ _ _ Hd) by lia.
  apply (write_slot_frame never _ _ _ _ _ _ _ Hw). lia.
Qed.

Lemma torn_disk_good : good_slot never torn_disk 0 0 (snapshot (hello_table false)).
Proof.
  eapply good_slot_other; [exact hello_disk_good|apply surjective_pairing|].
  unfold torn_disk, dev_write. cbn [never]. reflexivity.
Qed.

Lemma persist_newer_corrupt_witness :
  files (pfs (persist_load zero_block never (booting torn_disk))) = files (table [] ∅ false).
Proof.
  apply (persist_newer_corrupt zero_block never (idle_heap 2097152) hello_serves
    (booting torn_disk) torn_disk 0 (snapshot (hello_table false)) (torn_header.1) (torn_header.2)
    torn_body eq_refl (idle_boot _) torn_disk_good).
  - vm_compute. reflexivity.
  - vm_compute. reflexivity.
  - apply default_some. vm_compute. reflexivity.
  - vm_compute. discriminate.
Defined.

End witnesses.
