(* ===== verification/Ring.v ===== *)
(** Byte rings: [ring_put]/[ring_get] of src/kernel/pty.c and
    [pipe_read]/[pipe_write] of src/kernel/task/task.c.  Both rings keep one slot
    free to tell full from empty; [ByteFifo] is what they promise to their
    users, a bounded queue, and both are instances of it. *)
From Stdlib Require Import ZArith Lia.
From stdpp Require Import base numbers list.
From S2P Require Import Prelude.

(** ** The rings of the pseudo-terminals *)

Definition PTY_BUF_SIZE : Z := 8192.

Record ring := Ring {
  r_head : Z;              (* next byte to write *)
  r_tail : Z;              (* next byte to read *)
  r_data : list Z;
}.

Definition ring_avail (h t : Z) : Z := u32 (h - t + PTY_BUF_SIZE) mod PTY_BUF_SIZE.
Definition ring_free (h t : Z) : Z := u32 (PTY_BUF_SIZE - 1 - ring_avail h t).

Definition ring_put (r : ring) (c : Z) : ring :=
  if ring_free (r_head r) (r_tail r) =? 0 then r
  else Ring (u32 (r_head r + 1) mod PTY_BUF_SIZE) (r_tail r)
         (<[Z.to_nat (r_head r) := c]> (r_data r)).

(** The copy loop of [ring_get]. *)
Fixpoint ring_take (n : nat) (r : ring) : list Z * ring :=
  match n with
  | O => ([], r)
  | S n =>
      let c := r_data r !!! Z.to_nat (r_tail r) in
      let '(l, r) := ring_take n (Ring (r_head r) (u32 (r_tail r + 1) mod PTY_BUF_SIZE) (r_data r)) in
      (c :: l, r)
  end.

Definition ring_get (max : Z) (r : ring) : list Z * ring :=
  let n := ring_avail (r_head r) (r_tail r) in
  let n := if u32 max <? n then u32 max else n in
  ring_take (Z.to_nat n) r.

(** ** The rings of the pipes *)

Definition PIPE_BUF_SIZE : Z := 4096.

Record pipe_buf := PipeBuf {
  p_head : Z;
  p_tail : Z;
  writer_count : Z;
  reader_count : Z;
  p_data : list Z;
}.

(** [buf[i] = p->data[(p->tail + i) % PIPE_BUF_SIZE]] *)
Definition pipe_bytes (n : Z) (p : pipe_buf) : list Z :=
  map (fun i => p_data p !!! Z.to_nat (u32 (p_tail p + Z.of_nat i) mod PIPE_BUF_SIZE))
      (seq 0 (Z.to_nat n)).

(** The result and the bytes read: 0 is end of file, -1 that nothing is there. *)
Definition pipe_read (count : Z) (p : pipe_buf) : Z * list Z * pipe_buf :=
  if p_head p =? p_tail p then ((if writer_count p =? 0 then 0 else -1), [], p)
  else
    let avail := u32 (p_head p - p_tail p + PIPE_BUF_SIZE) mod PIPE_BUF_SIZE in
    let n := if avail <? count then avail else count in
    (i32 n, pipe_bytes n p,
     PipeBuf (p_head p) (u32 (p_tail p + n) mod PIPE_BUF_SIZE) (writer_count p) (reader_count p) (p_data p)).

(** The copy loop of [pipe_write]: byte [i] goes to [(head + i) % size]. *)
Fixpoint pipe_store (h : Z) (i : nat) (l : list Z) (d : list Z) : list Z :=
  match l with
  | [] => d
  | c :: l => pipe_store h (S i) l (<[Z.to_nat (u32 (h + Z.of_nat i) mod PIPE_BUF_SIZE) := c]> d)
  end.

Definition pipe_write (buf : list Z) (p : pipe_buf) : Z * pipe_buf :=
  if reader_count p =? 0 then (-1, p)
  else
    let count := Z.of_nat (length buf) in
    let free := u32 (p_tail p - p_head p + PIPE_BUF_SIZE - 1) mod PIPE_BUF_SIZE in
    let n := if free <? count then free else count in
    (i32 n,
     PipeBuf (u32 (p_head p + n) mod PIPE_BUF_SIZE) (p_tail p) (writer_count p) (reader_count p)
       (pipe_store (p_head p) 0 (take (Z.to_nat n) buf) (p_data p))).

(** ** Windows of a circular array *)

Section window.
Variable N : Z.
Hypothesis HN : 0 < N.

(** The [n] bytes from position [t] on. *)
Definition window (d : list Z) (t : Z) (n : nat) : list Z :=
  map (fun i => d !!! Z.to_nat ((t + Z.of_nat i) mod N)) (seq 0 n).

Lemma length_window d t n : length (window d t n) = n.
Proof. unfold window. by rewrite length_map, length_seq. Qed.

Lemma window_mod d t n : window d (t mod N) n = window d t n.
Proof. apply map_ext. intros i. by rewrite Zplus_mod_idemp_l. Qed.

Lemma window_app d t a b : window d t (a + b) = window d t a ++ window d ((t + Z.of_nat a) mod N) b.
Proof.
  rewrite window_mod. unfold window. rewrite seq_app, map_app. f_equal. cbn [Nat.add].
  rewrite <-(Nat.add_0_r a) at 1. rewrite <-fmap_add_seq, map_map. apply map_ext. intros i.
  do 3 f_equal. lia.
Qed.

Lemma window_snoc d t n : window d t (S n) = window d t n ++ [d !!! Z.to_nat ((t + Z.of_nat n) mod N)].
Proof. rewrite <-Nat.add_1_r, window_app, window_mod. unfold window at 2. cbn. by rewrite Z.add_0_r. Qed.

Lemma window_cons d t n : 0 <= t < N ->
  window d t (S n) = d !!! Z.to_nat t :: window d ((t + 1) mod N) n.
Proof.
  intros Ht. change (S n) with (1 + n)%nat. rewrite window_app. unfold window at 1. cbn.
  by rewrite Z.add_0_r, Z.mod_small.
Qed.

(** A write behind the window does not change it. *)
Lemma window_insert d t n c : Z.of_nat n < N ->
  window (<[Z.to_nat ((t + Z.of_nat n) mod N) := c]> d) t n = window d t n.
Proof.
  intros Hn. apply map_ext_in. intros i Hi%in_seq. apply list_lookup_total_insert_ne.
  intros E%Z2Nat.inj; [|apply Z.mod_pos_bound; lia..].
  assert (Hd : (Z.of_nat n - Z.of_nat i) mod N = 0).
  { replace (Z.of_nat n - Z.of_nat i) with ((t + Z.of_nat n) - (t + Z.of_nat i)) by lia.
    by rewrite Zminus_mod, E, Z.sub_diag. }
  rewrite Z.mod_small in Hd; lia.
Qed.

(** Writing the next byte extends the window by it. *)
Lemma window_push d t n c : Z.of_nat n < N -> length d = Z.to_nat N ->
  window (<[Z.to_nat ((t + Z.of_nat n) mod N) := c]> d) t (S n) = window d t n ++ [c].
Proof.
  intros Hn Hd. rewrite window_snoc, window_insert by done. do 2 f_equal.
  apply list_lookup_total_insert_eq. pose proof (Z.mod_pos_bound (t + Z.of_nat n) N HN). lia.
Qed.

(** The fill level is the distance of the indices. *)
Definition level (h t : Z) : nat := Z.to_nat ((h - t) mod N).

Lemma level_lt h t : Z.of_nat (level h t) < N.
Proof. unfold level. pose proof (Z.mod_pos_bound (h - t) N HN). lia. Qed.

Lemma level_head h t : 0 <= h < N -> (t + Z.of_nat (level h t)) mod N = h.
Proof.
  intros Hh. unfold level. pose proof (Z.mod_pos_bound (h - t) N HN).
  rewrite Z2Nat.id, Zplus_mod_idemp_r by lia. replace (t + (h - t)) with h by lia. by apply Z.mod_small.
Qed.

Lemma level_push h t n : Z.of_nat (level h t) + Z.of_nat n < N ->
  level ((h + Z.of_nat n) mod N) t = (level h t + n)%nat.
Proof.
  unfold level. intros Hl. pose proof (Z.mod_pos_bound (h - t) N HN).
  rewrite Zminus_mod_idemp_l. replace (h + Z.of_nat n - t) with ((h - t) + Z.of_nat n) by lia.
  rewrite <-Zplus_mod_idemp_l, Z.mod_small by lia. lia.
Qed.

Lemma level_pop h t n : (n <= level h t)%nat -> level h ((t + Z.of_nat n) mod N) = (level h t - n)%nat.
Proof.
  unfold level. intros Hn. pose proof (Z.mod_pos_bound (h - t) N HN).
  rewrite Zminus_mod_idemp_r. replace (h - (t + Z.of_nat n)) with ((h - t) - Z.of_nat n) by lia.
  rewrite <-Zminus_mod_idemp_l, Z.mod_small by lia. lia.
Qed.

End window.

(** ** What a byte ring promises *)

Class ByteFifo (R : Type) := {
  bf_cap : nat;
  bf_bytes : R -> list Z;                  (* oldest first *)
  bf_ok : R -> Prop;
  bf_write : list Z -> R -> R;
  bf_read : nat -> R -> list Z * R;
}.

(** A write takes what fits, a read what is there. *)
Class ByteFifoSpec (R : Type) `{ByteFifo R} := {
  bf_bound r : bf_ok r -> (length (bf_bytes r) <= bf_cap)%nat;
  bf_write_ok l r : bf_ok r -> Z.of_nat (length l) < 2 ^ 31 ->
    bf_ok (bf_write l r) /\
    bf_bytes (bf_write l r) = bf_bytes r ++ take (bf_cap - length (bf_bytes r)) l;
  bf_read_ok n r : bf_ok r -> Z.of_nat n < 2 ^ 31 ->
    bf_ok (snd (bf_read n r)) /\ fst (bf_read n r) = take n (bf_bytes r) /\
    bf_bytes (snd (bf_read n r)) = drop n (bf_bytes r);
}.

(** *** The rings of pty.c *)

Definition in_ring (N x : Z) : Prop := 0 <= x < N.

Definition ring_ok (r : ring) : Prop :=
  in_ring PTY_BUF_SIZE (r_head r) /\ in_ring PTY_BUF_SIZE (r_tail r) /\
  length (r_data r) = Z.to_nat PTY_BUF_SIZE.

Definition ring_level (r : ring) : nat := level PTY_BUF_SIZE (r_head r) (r_tail r).

Definition ring_bytes (r : ring) : list Z := window PTY_BUF_SIZE (r_data r) (r_tail r) (ring_level r).

Definition ring_cap : nat := Z.to_nat (PTY_BUF_SIZE - 1).

Lemma length_ring_bytes r : length (ring_bytes r) = ring_level r.
Proof. apply length_window. Qed.

Lemma ring_level_cap r : (ring_level r <= ring_cap)%nat.
Proof.
  unfold ring_level, ring_cap. pose proof (level_lt PTY_BUF_SIZE eq_refl (r_head r) (r_tail r)).
  unfold PTY_BUF_SIZE in *. lia.
Qed.

Lemma ring_avail_level r : ring_ok r -> ring_avail (r_head r) (r_tail r) = Z.of_nat (ring_level r).
Proof.
  intros (Hh & Ht & _). unfold ring_avail, ring_level, level, in_ring in *. unfold PTY_BUF_SIZE in *.
  rewrite (wrap_small 32) by lia. rewrite <-(Z.mul_1_l 8192) at 1. rewrite Z.mod_add by lia.
  rewrite Z2Nat.id; [done|]. apply Z.mod_pos_bound. lia.
Qed.

Lemma ring_free_level r : ring_ok r ->
  ring_free (r_head r) (r_tail r) = Z.of_nat (ring_cap - length (ring_bytes r)).
Proof.
  intros Hok. unfold ring_free. rewrite ring_avail_level, length_ring_bytes by done.
  pose proof (ring_level_cap r). unfold ring_cap, PTY_BUF_SIZE in *. rewrite (wrap_small 32) by lia. lia.
Qed.

(** A full ring drops the byte, any other appends it. *)
Lemma ring_put_ok r c : ring_ok r ->
  ring_ok (ring_put r c) /\
  ring_bytes (ring_put r c) =
    if (length (ring_bytes r) <? ring_cap)%nat then ring_bytes r ++ [c] else ring_bytes r.
Proof.
  intros Hok. pose proof Hok as (Hh & Ht & Hl). unfold ring_put. rewrite (ring_free_level r Hok).
  rewrite length_ring_bytes. pose proof (ring_level_cap r).
  destruct (Nat.ltb_spec (ring_level r) ring_cap); destruct (Z.eqb_spec (Z.of_nat (ring_cap - ring_level r)) 0);
    try lia; [|done].
  unfold in_ring in *. assert (HN : 0 < PTY_BUF_SIZE) by done.
  rewrite (wrap_small 32) by (unfold PTY_BUF_SIZE in *; lia). split.
  - split; [|split]; cbn [r_head r_tail r_data]; [by apply Z.mod_pos_bound|done|].
    by rewrite length_insert.
  - assert (Hlt : Z.of_nat (ring_level r) + 1 < PTY_BUF_SIZE) by (unfold ring_cap, PTY_BUF_SIZE in *; lia).
    unfold ring_bytes, ring_level in *. cbn [r_head r_tail r_data].
    change (r_head r + 1) with (r_head r + Z.of_nat 1).
    rewrite (level_push _ HN (r_head r) (r_tail r) 1) by lia. rewrite Nat.add_1_r.
    rewrite <-(level_head PTY_BUF_SIZE HN (r_head r) (r_tail r)) at 1 by done.
    apply window_push; [done|lia|done].
Qed.

Lemma ring_puts_ok l : forall r, ring_ok r ->
  ring_ok (foldl ring_put r l) /\
  ring_bytes (foldl ring_put r l) = ring_bytes r ++ take (ring_cap - length (ring_bytes r)) l.
Proof.
  induction l as [|c l IH]; intros r Hok; cbn [foldl].
  { by rewrite take_nil, app_nil_r. }
  destruct (ring_put_ok r c Hok) as [Hok' Hb]. destruct (IH _ Hok') as [H1 H2]. split; [done|].
  rewrite H2, Hb. pose proof (ring_level_cap r) as Hc. rewrite <-length_ring_bytes in Hc.
  destruct (Nat.ltb_spec (length (ring_bytes r)) ring_cap).
  - rewrite length_app. cbn [length]. rewrite <-app_assoc. f_equal.
    replace (ring_cap - length (ring_bytes r))%nat
      with (S (ring_cap - (length (ring_bytes r) + 1))) by lia. done.
  - by replace (ring_cap - length (ring_bytes r))%nat with 0%nat by lia.
Qed.

Lemma ring_take_ok n : forall r, ring_ok r -> (n <= ring_level r)%nat ->
  ring_ok (snd (ring_take n r)) /\ fst (ring_take n r) = take n (ring_bytes r) /\
  ring_bytes (snd (ring_take n r)) = drop n (ring_bytes r).
Proof.
  induction n as [|n IH]; intros r Hok Hn; [done|].
  pose proof Hok as (Hh & Ht & Hl). assert (HN : 0 < PTY_BUF_SIZE) by done. cbn [ring_take].
  set (r1 := Ring _ _ _).
  assert (Ht1 : u32 (r_tail r + 1) mod PTY_BUF_SIZE = (r_tail r + 1) mod PTY_BUF_SIZE).
  { unfold in_ring in *. by rewrite (wrap_small 32) by (unfold PTY_BUF_SIZE in *; lia). }
  assert (Hok1 : ring_ok r1).
  { split; [done|]. split; [|done]. cbn. rewrite Ht1. by apply Z.mod_pos_bound. }
  assert (Hl1 : ring_level r1 = (ring_level r - 1)%nat).
  { unfold ring_level, r1 in *. cbn [r_head r_tail]. rewrite Ht1. apply (level_pop _ HN _ _ 1). lia. }
  assert (Hb : ring_bytes r = r_data r !!! Z.to_nat (r_tail r) :: ring_bytes r1).
  { unfold ring_bytes. rewrite Hl1. replace (ring_level r) with (S (ring_level r - 1)) at 1 by lia.
    rewrite window_cons by done. unfold r1. cbn [r_data r_tail]. by rewrite Ht1. }
  destruct (IH r1 Hok1) as (H1 & H2 & H3); [lia|].
  destruct (ring_take n r1) as [l r2]. cbn [fst snd] in *. rewrite Hb. cbn [take drop].
  split; [done|]. split; [by f_equal|done].
Qed.

Lemma ring_get_ok max r : ring_ok r -> 0 <= max < 2 ^ 31 ->
  ring_ok (snd (ring_get max r)) /\ fst (ring_get max r) = take (Z.to_nat max) (ring_bytes r) /\
  ring_bytes (snd (ring_get max r)) = drop (Z.to_nat max) (ring_bytes r).
Proof.
  intros Hok Hm. unfold ring_get. rewrite ring_avail_level, (wrap_small 32) by (done || lia).
  destruct (Z.ltb_spec max (Z.of_nat (ring_level r))).
  - apply ring_take_ok; [done|lia].
  - rewrite Nat2Z.id. pose proof (length_ring_bytes r).
    destruct (ring_take_ok (ring_level r) r Hok ltac:(done)) as (H1 & H2 & H3).
    rewrite H2, H3, !(firstn_all2 (ring_bytes r)), !drop_ge by lia. done.
Qed.

#[export] Instance ring_ByteFifo : ByteFifo ring := {|
  bf_cap := ring_cap;
  bf_bytes := ring_bytes;
  bf_ok := ring_ok;
  bf_write l r := foldl ring_put r l;
  bf_read n r := ring_get (Z.of_nat n) r;
|}.

#[export] Instance ring_ByteFifoSpec : ByteFifoSpec ring.
Proof.
  split; cbn.
  - intros r _. rewrite length_ring_bytes. apply ring_level_cap.
  - intros l r Hok _. by apply ring_puts_ok.
  - intros n r Hok Hn. destruct (ring_get_ok (Z.of_nat n) r Hok) as (H1 & H2 & H3); [lia|].
    rewrite Nat2Z.id in *. done.
Qed.

(** *** The rings of the pipes *)

Definition pipe_level (p : pipe_buf) : nat := level PIPE_BUF_SIZE (p_head p) (p_tail p).

Definition pipe_content (p : pipe_buf) : list Z := window PIPE_BUF_SIZE (p_data p) (p_tail p) (pipe_level p).

Definition pipe_ok (p : pipe_buf) : Prop :=
  in_ring PIPE_BUF_SIZE (p_head p) /\ in_ring PIPE_BUF_SIZE (p_tail p) /\
  length (p_data p) = Z.to_nat PIPE_BUF_SIZE.

Definition pipe_cap : nat := Z.to_nat (PIPE_BUF_SIZE - 1).

Lemma length_pipe_content p : length (pipe_content p) = pipe_level p.
Proof. apply length_window. Qed.

Lemma pipe_level_cap p : (pipe_level p <= pipe_cap)%nat.
Proof.
  unfold pipe_level, pipe_cap. pose proof (level_lt PIPE_BUF_SIZE eq_refl (p_head p) (p_tail p)).
  unfold PIPE_BUF_SIZE in *. lia.
Qed.

Lemma pipe_avail_level p : pipe_ok p ->
  u32 (p_head p - p_tail p + PIPE_BUF_SIZE) mod PIPE_BUF_SIZE = Z.of_nat (pipe_level p).
Proof.
  intros (Hh & Ht & _). unfold pipe_level, level, in_ring in *. unfold PIPE_BUF_SIZE in *.
  rewrite (wrap_small 32) by lia. rewrite <-(Z.mul_1_l 4096) at 1. rewrite Z.mod_add by lia.
  rewrite Z2Nat.id; [done|]. apply Z.mod_pos_bound. lia.
Qed.

Lemma pipe_free_level p : pipe_ok p ->
  u32 (p_tail p - p_head p + PIPE_BUF_SIZE - 1) mod PIPE_BUF_SIZE = Z.of_nat (pipe_cap - pipe_level p).
Proof.
  intros (Hh & Ht & _). pose proof (pipe_level_cap p) as Hc. revert Hc.
  unfold pipe_cap, pipe_level, level, in_ring in *. unfold PIPE_BUF_SIZE in *.
  rewrite (wrap_small 32) by lia. zify_div.
Qed.

Lemma pipe_empty p : pipe_ok p -> (p_head p =? p_tail p) = (length (pipe_content p) =? 0)%nat.
Proof.
  intros (Hh & Ht & _). rewrite length_pipe_content. unfold pipe_level, level, in_ring in *.
  unfold PIPE_BUF_SIZE in *. destruct (Z.eqb_spec (p_head p) (p_tail p)) as [->|Hne].
  - by rewrite Z.sub_diag.
  - symmetry. apply Nat.eqb_neq. zify_div.
Qed.

Lemma pipe_bytes_window n p : pipe_ok p -> Z.of_nat n < PIPE_BUF_SIZE ->
  pipe_bytes (Z.of_nat n) p = window PIPE_BUF_SIZE (p_data p) (p_tail p) n.
Proof.
  intros (_ & Ht & _) Hn. unfold pipe_bytes, window. rewrite Nat2Z.id. apply map_ext_in.
  intros i Hi%in_seq. unfold in_ring, PIPE_BUF_SIZE in *. by rewrite (wrap_small 32) by lia.
Qed.

Lemma pipe_read_ok count p : pipe_ok p -> 0 <= count < 2 ^ 32 ->
  let '(r, bytes, p') := pipe_read count p in
  let q := pipe_content p in
  pipe_ok p' /\ writer_count p' = writer_count p /\ reader_count p' = reader_count p /\
  bytes = take (Z.to_nat count) q /\ pipe_content p' = drop (Z.to_nat count) q /\
  r = if (length q =? 0)%nat then if writer_count p =? 0 then 0 else -1 else Z.of_nat (length bytes).
Proof.
  intros Hok Hc. unfold pipe_read. rewrite (pipe_empty p Hok). rewrite pipe_avail_level by done.
  destruct (Nat.eqb_spec (length (pipe_content p)) 0) as [H0|H0].
  { apply nil_length_inv in H0. rewrite H0. by rewrite take_nil, drop_nil. }
  set (n := if _ <? count then _ else count). pose proof (length_pipe_content p) as Hlen.
  assert (Hn : exists k, n = Z.of_nat k /\ (k <= pipe_level p)%nat /\ (k <= Z.to_nat count)%nat /\
             (k = pipe_level p \/ k = Z.to_nat count)).
  { unfold n. destruct (Z.ltb_spec (Z.of_nat (pipe_level p)) count).
    - exists (pipe_level p). lia.
    - exists (Z.to_nat count). lia. }
  destruct Hn as (k & -> & Hk & Hkc & Hk'). pose proof (pipe_level_cap p) as Hcap. pose proof Hok as (Hh & Ht & Hl).
  assert (HkN : Z.of_nat k < PIPE_BUF_SIZE) by (unfold pipe_cap, PIPE_BUF_SIZE in *; lia).
  rewrite pipe_bytes_window by done. cbn [writer_count reader_count]. unfold in_ring in *.
  rewrite (wrap_small 32) by (unfold PIPE_BUF_SIZE in *; lia).
  assert (Hsplit : pipe_content p = window PIPE_BUF_SIZE (p_data p) (p_tail p) k ++
            window PIPE_BUF_SIZE (p_data p) ((p_tail p + Z.of_nat k) mod PIPE_BUF_SIZE) (pipe_level p - k)).
  { unfold pipe_content. rewrite <-window_app. f_equal. lia. }
  assert (Hkn : forall l : list Z, length l = pipe_level p -> take (Z.to_nat count) l = take k l /\ drop (Z.to_nat count) l = drop k l).
  { intros l Hll. destruct Hk' as [->| ->]; [|done]. rewrite !take_ge, !drop_ge by lia. done. }
  destruct (Hkn _ Hlen) as [-> ->].
  split. { split; [done|]. split; [by apply Z.mod_pos_bound|done]. }
  split; [done|]. split; [done|]. rewrite length_window. split.
  { rewrite Hsplit, take_app_length'; [done|by rewrite length_window]. }
  split.
  { rewrite Hsplit, drop_app_length' by (by rewrite length_window). unfold pipe_content at 1.
    unfold pipe_level at 1. cbn [p_head p_tail p_data]. rewrite (level_pop PIPE_BUF_SIZE eq_refl) by exact Hk. done. }
  rewrite i32_small by (unfold PIPE_BUF_SIZE in *; lia). done.
Qed.

Lemma pipe_store_ok h t n0 l : forall i d,
  0 <= h -> h = (t + Z.of_nat n0) mod PIPE_BUF_SIZE -> length d = Z.to_nat PIPE_BUF_SIZE ->
  Z.of_nat (n0 + i + length l) < PIPE_BUF_SIZE ->
  length (pipe_store h i l d) = Z.to_nat PIPE_BUF_SIZE /\
  window PIPE_BUF_SIZE (pipe_store h i l d) t (n0 + i + length l) =
    window PIPE_BUF_SIZE d t (n0 + i) ++ l.
Proof.
  induction l as [|c l IH]; intros i d Hh0 Hh Hd Hn; cbn [pipe_store length] in *.
  { by rewrite Nat.add_0_r, app_nil_r. }
  assert (Hpos : u32 (h + Z.of_nat i) mod PIPE_BUF_SIZE = (t + Z.of_nat (n0 + i)) mod PIPE_BUF_SIZE).
  { assert (h < PIPE_BUF_SIZE) by (rewrite Hh; by apply Z.mod_pos_bound).
    rewrite (wrap_small 32) by (unfold PIPE_BUF_SIZE in *; lia).
    rewrite Hh, Zplus_mod_idemp_l. f_equal. lia. }
  rewrite Hpos. set (d1 := <[_ := c]> d).
  destruct (IH (S i) d1) as [H1 H2]; [done|done|by unfold d1; rewrite length_insert|lia|].
  split; [done|]. replace (n0 + i + S (length l))%nat with (n0 + S i + length l)%nat by lia.
  rewrite H2. replace (n0 + S i)%nat with (S (n0 + i)) by lia. unfold d1.
  rewrite (window_push PIPE_BUF_SIZE eq_refl) by (done || lia). by rewrite <-app_assoc.
Qed.

Lemma pipe_write_ok buf p : pipe_ok p -> Z.of_nat (length buf) < 2 ^ 32 ->
  let '(r, p') := pipe_write buf p in
  let q := pipe_content p in
  writer_count p' = writer_count p /\ reader_count p' = reader_count p /\
  if reader_count p =? 0 then r = -1 /\ p' = p
  else let l := take (pipe_cap - length q) buf in
    pipe_ok p' /\ pipe_content p' = q ++ l /\ r = Z.of_nat (length l).
Proof.
  intros Hok Hb. unfold pipe_write. destruct (reader_count p =? 0) eqn:Hrc; [done|].
  rewrite pipe_free_level, length_pipe_content by done. pose proof (pipe_level_cap p) as Hcap.
  set (n := if _ <? Z.of_nat (length buf) then _ else Z.of_nat (length buf)).
  assert (Hn : n = Z.of_nat (length (take (pipe_cap - pipe_level p) buf)) /\
             take (Z.to_nat n) buf = take (pipe_cap - pipe_level p) buf).
  { unfold n. destruct (Z.ltb_spec (Z.of_nat (pipe_cap - pipe_level p)) (Z.of_nat (length buf))).
    - rewrite Nat2Z.id, length_take. split; [lia|done].
    - rewrite Nat2Z.id, !firstn_all2 by lia. done. }
  destruct Hn as [-> Htk]. rewrite Htk. set (l := take (pipe_cap - pipe_level p) buf) in *.
  assert (Hl : (pipe_level p + length l <= pipe_cap)%nat) by (unfold l; rewrite length_take; lia).
  pose proof Hok as (Hh & Ht & Hd). unfold pipe_cap, in_ring, PIPE_BUF_SIZE in *.
  assert (HN : 0 < PIPE_BUF_SIZE) by done.
  destruct (pipe_store_ok (p_head p) (p_tail p) (pipe_level p) l 0 (p_data p)) as [H1 H2];
    [lia|symmetry; by apply level_head|done|unfold PIPE_BUF_SIZE; lia|].
  rewrite (wrap_small 32) by lia. split; [done|]. split; [done|]. rewrite i32_small by lia.
  split; [|split; [|done]].
  - split; [by apply Z.mod_pos_bound|]. by split.
  - unfold pipe_content, pipe_level at 1. cbn [p_head p_tail p_data].
    assert (Hlt : Z.of_nat (level PIPE_BUF_SIZE (p_head p) (p_tail p)) + Z.of_nat (length l) < PIPE_BUF_SIZE).
    { unfold pipe_level, PIPE_BUF_SIZE in *. lia. }
    unfold PIPE_BUF_SIZE in Hlt. rewrite (level_push 4096 eq_refl) by exact Hlt. rewrite Nat.add_0_r in H2. exact H2.
Qed.

(** A pipe with a live read end. *)
#[export] Instance pipe_ByteFifo : ByteFifo pipe_buf := {|
  bf_cap := pipe_cap;
  bf_bytes := pipe_content;
  bf_ok p := pipe_ok p /\ reader_count p <> 0;
  bf_write l p := snd (pipe_write l p);
  bf_read n p := let '(_, l, p') := pipe_read (Z.of_nat n) p in (l, p');
|}.

#[export] Instance pipe_ByteFifoSpec : ByteFifoSpec pipe_buf.
Proof.
  split; cbn.
  - intros p _. rewrite length_pipe_content. apply pipe_level_cap.
  - intros l p [Hok Hrc] Hl. pose proof (pipe_write_ok l p Hok ltac:(lia)) as Hw.
    destruct (pipe_write l p) as [r p']. destruct Hw as (_ & Hr & Hw). cbn [snd].
    rewrite (proj2 (Z.eqb_neq _ _) Hrc) in Hw. destruct Hw as (H1 & H2 & _). rewrite Hr. done.
  - intros n p [Hok Hrc] Hn. pose proof (pipe_read_ok (Z.of_nat n) p Hok ltac:(lia)) as Hr.
    destruct (pipe_read (Z.of_nat n) p) as [[r l] p']. destruct Hr as (H1 & _ & Hr & Hl & Hp & _).
    rewrite Nat2Z.id in *. cbn [fst snd]. rewrite Hr. done.
Qed.

(** ** Streams *)

Inductive bf_op :=
  | BWrite (l : list Z)
  | BRead (n : nat).

Section stream.
Context {R : Type} `{!ByteFifo R} `{!ByteFifoSpec R}.

(** The bytes accepted by the writes and the bytes delivered by the reads. *)
Fixpoint bf_run (ops : list bf_op) (r : R) : list Z * list Z * R :=
  match ops with
  | [] => ([], [], r)
  | BWrite l :: ops =>
      let '(acc, out, r') := bf_run ops (bf_write l r) in
      (take (bf_cap - length (bf_bytes r)) l ++ acc, out, r')
  | BRead n :: ops =>
      let '(l, r1) := bf_read n r in
      let '(acc, out, r') := bf_run ops r1 in
      (acc, l ++ out, r')
  end.

Definition bf_small (op : bf_op) : Prop :=
  match op with BWrite l => Z.of_nat (length l) < 2 ^ 31 | BRead n => Z.of_nat n < 2 ^ 31 end.

Lemma bf_run_stream ops : forall r, bf_ok r -> Forall bf_small ops ->
  let '(acc, out, r') := bf_run ops r in
  bf_ok r' /\ (length (bf_bytes r') <= bf_cap)%nat /\ bf_bytes r ++ acc = out ++ bf_bytes r'.
Proof.
  induction ops as [|op ops IH]; intros r Hok Hs; cbn [bf_run].
  { split; [done|]. split; [by apply bf_bound|]. by rewrite app_nil_r. }
  apply Forall_cons in Hs as [Hop Hs]. destruct op as [l|n].
  - destruct (bf_write_ok l r Hok Hop) as [Hok' Hb]. specialize (IH _ Hok' Hs).
    destruct (bf_run ops (bf_write l r)) as [[acc out] r']. destruct IH as (H1 & H2 & H3).
    split; [done|]. split; [done|]. by rewrite app_assoc, <-Hb.
  - destruct (bf_read_ok n r Hok Hop) as (Hok' & Hl & Hb).
    destruct (bf_read n r) as [l r1]. cbn [fst snd] in *. specialize (IH _ Hok' Hs).
    destruct (bf_run ops r1) as [[acc out] r']. destruct IH as (H1 & H2 & H3).
    split; [done|]. split; [done|]. rewrite <-app_assoc, <-H3, app_assoc. f_equal.
    by rewrite Hl, Hb, take_drop.
Qed.

End stream.
