(* ===== verification/Task.v ===== *)
(** The process table of src/kernel/task/task.c: slots, signals, the
    round-robin scheduler, process groups and wait4.  A task's descriptor
    arrays are one list of slots; [Fd.v] models the calls on them.  Stacks are
    blocks of the kernel heap; of the words on them only the canary at the base
    and the saved register frames are kept. *)
From Stdlib Require Import ZArith Lia.
From stdpp Require Import base numbers list gmap.
From S2P Require Import Prelude HeapIface.

Definition MAX_TASKS : nat := 64.
Definition MAX_FDS : nat := 16.
Definition KERNEL_STACK_SIZE : Z := 65536.
Definition NSIG : Z := 32.
Definition SIGINT : Z := 2.
Definition SIGKILL : Z := 9.
Definition FD_VFS : Z := 0.
Definition FD_PIPE : Z := 1.
Definition FD_PTY : Z := 3.
Definition EBADF : Z := 9.

Inductive task_state_t := TASK_FREE | TASK_READY | TASK_RUNNING | TASK_SLEEPING | TASK_DEAD.
Inductive task_ring_t := TASK_RING0 | TASK_RING3.

#[export] Instance task_state_eq_dec : EqDecision task_state_t.
Proof. solve_decision. Defined.
#[export] Instance task_ring_eq_dec : EqDecision task_ring_t.
Proof. solve_decision. Defined.

(** The entries of the seven descriptor arrays at one index. *)
Record fd_slot := FdSlot {
  fds : Z;                 (* struct vfs_node*; 0 is NULL *)
  fd_flags : Z;            (* 0, or the index in files[] plus one *)
  fd_offsets : Z;
  fd_types : Z;
  fd_pipe : Z;
  fd_pty : Z;
  fd_flags_extra : Z;
}.

Definition null_slot : fd_slot := FdSlot 0 0 0 0 0 0 0.

(** The saved user frame; the registers no code below looks at are one list. *)
Record registers_t := Regs {
  g_rdi : Z;
  g_rip : Z;
  g_rflags : Z;
  g_rsp : Z;
  g_others : list Z;
}.

Definition null_regs : registers_t := Regs 0 0 0 0 [].

Record task_t := Task {
  t_id : Z;
  t_ppid : Z;
  t_group : Z;
  t_exit_code : Z;
  t_state : task_state_t;
  t_ring : task_ring_t;
  t_rsp : Z;
  t_kstack : Z;            (* kernel_stack_base *)
  t_ustack : Z;            (* user_stack_base *)
  t_pml4 : Z;
  t_fs_base : Z;
  t_futex : Z;
  t_handlers : list Z;     (* sig_handlers; 0 is NULL *)
  t_pending : Z;           (* sig_pending *)
  t_in_handler : bool;
  t_sig_save : option registers_t;
  t_sleep_until : Z;
  t_fds : list fd_slot;
  t_cwd : Z;
}.

Definition null_task : task_t :=
  Task 0 0 0 0 TASK_FREE TASK_RING0 0 0 0 0 0 0 (replicate 32 0) 0 false None 0
    (replicate MAX_FDS null_slot) 0.

Definition with_state (st : task_state_t) (t : task_t) : task_t :=
  Task (t_id t) (t_ppid t) (t_group t) (t_exit_code t) st (t_ring t) (t_rsp t) (t_kstack t) (t_ustack t)
    (t_pml4 t) (t_fs_base t) (t_futex t) (t_handlers t) (t_pending t) (t_in_handler t) (t_sig_save t)
    (t_sleep_until t) (t_fds t) (t_cwd t).
Definition with_rsp (rsp : Z) (t : task_t) : task_t :=
  Task (t_id t) (t_ppid t) (t_group t) (t_exit_code t) (t_state t) (t_ring t) rsp (t_kstack t) (t_ustack t)
    (t_pml4 t) (t_fs_base t) (t_futex t) (t_handlers t) (t_pending t) (t_in_handler t) (t_sig_save t)
    (t_sleep_until t) (t_fds t) (t_cwd t).
Definition with_pending (p : Z) (t : task_t) : task_t :=
  Task (t_id t) (t_ppid t) (t_group t) (t_exit_code t) (t_state t) (t_ring t) (t_rsp t) (t_kstack t)
    (t_ustack t) (t_pml4 t) (t_fs_base t) (t_futex t) (t_handlers t) p (t_in_handler t) (t_sig_save t)
    (t_sleep_until t) (t_fds t) (t_cwd t).
Definition with_fds (l : list fd_slot) (t : task_t) : task_t :=
  Task (t_id t) (t_ppid t) (t_group t) (t_exit_code t) (t_state t) (t_ring t) (t_rsp t) (t_kstack t)
    (t_ustack t) (t_pml4 t) (t_fs_base t) (t_futex t) (t_handlers t) (t_pending t) (t_in_handler t)
    (t_sig_save t) (t_sleep_until t) l (t_cwd t).

(** Dead, with both stacks given back. *)
Definition stackless (code : Z) (t : task_t) : task_t :=
  Task (t_id t) (t_ppid t) (t_group t) code TASK_DEAD (t_ring t) 0 0 0
    (t_pml4 t) (t_fs_base t) (t_futex t) (t_handlers t) (t_pending t) (t_in_handler t) (t_sig_save t)
    (t_sleep_until t) (t_fds t) (t_cwd t).
Definition handling (save : registers_t) (t : task_t) : task_t :=
  Task (t_id t) (t_ppid t) (t_group t) (t_exit_code t) (t_state t) (t_ring t) (t_rsp t) (t_kstack t)
    (t_ustack t) (t_pml4 t) (t_fs_base t) (t_futex t) (t_handlers t) (t_pending t) true (Some save)
    (t_sleep_until t) (t_fds t) (t_cwd t).
Definition stranded (t : task_t) : task_t :=
  Task (t_id t) (t_ppid t) (t_group t) (t_exit_code t) TASK_DEAD (t_ring t) (t_rsp t) (t_kstack t)
    (t_ustack t) (t_pml4 t) (t_fs_base t) 0 (t_handlers t) (t_pending t) (t_in_handler t) (t_sig_save t)
    (t_sleep_until t) (t_fds t) (t_cwd t).
Definition asleep (until : Z) (t : task_t) : task_t :=
  Task (t_id t) (t_ppid t) (t_group t) (t_exit_code t) TASK_SLEEPING (t_ring t) (t_rsp t) (t_kstack t)
    (t_ustack t) (t_pml4 t) (t_fs_base t) (t_futex t) (t_handlers t) (t_pending t) (t_in_handler t)
    (t_sig_save t) until (t_fds t) (t_cwd t).

(** ** Signals *)

Definition slot (l : list task_t) (i : nat) : task_t := default null_task (l !! i).

(** The first slot of a task with this id that is not free. *)
Definition slot_of_pid (pid : Z) (l : list task_t) : option nat :=
  find_from (fun _ t => negb (bool_decide (t_state t = TASK_FREE)) && (t_id t =? pid)) 0 l.

Definition send_signal (pid sig : Z) (l : list task_t) : Z * list task_t :=
  if (sig <=? 0) || (NSIG <=? sig) then (-1, l)
  else
    match slot_of_pid pid l with
    | None => (-1, l)
    | Some i =>
        if decide (t_state (slot l i) = TASK_DEAD) then (-1, l)
        else (0, alter (fun t => with_pending (Z.lor (t_pending t) (Z.shiftl 1 sig)) t) i l)
    end.

Section task.
Context {H : Type} `{!KernelHeap H}.

(** What a switch programs: TSS.RSP0, CR3 and IA32_FS_BASE. *)
Record cpu := Cpu {
  c_rsp0 : Z;
  c_cr3 : Z;
  c_fsbase : Z;
}.

Record kmem := KMem {
  m_heap : H;
  m_words : gmap Z Z;                (* the word at the base of a kernel stack *)
  m_frames : gmap Z registers_t;     (* saved frames, by the rsp that points to them *)
  m_user : gmap (Z * Z) Z;           (* user bytes, by page table and address *)
}.

Record kernel := Kernel {
  tasks : list task_t;
  current_task_idx : Z;
  next_task_id : Z;
  tasking_enabled : bool;
  idle_rsp : Z;
  cpu_sched_ticks : Z;
  cpu_busy_ticks : Z;
  hw : cpu;
  mem : kmem;
  ms : Z;                            (* timer_get_ms() *)
}.

(** [idle_top] is [&idle_stack[512]], [kernel_pml4] is [vmm_kernel_pml4_phys]. *)
Variables (idle_top kernel_pml4 : Z).

Definition set_tasks (l : list task_t) (k : kernel) : kernel :=
  Kernel l (current_task_idx k) (next_task_id k) (tasking_enabled k) (idle_rsp k) (cpu_sched_ticks k)
    (cpu_busy_ticks k) (hw k) (mem k) (ms k).
Definition set_cur (i : Z) (k : kernel) : kernel :=
  Kernel (tasks k) i (next_task_id k) (tasking_enabled k) (idle_rsp k) (cpu_sched_ticks k)
    (cpu_busy_ticks k) (hw k) (mem k) (ms k).
Definition set_idle (rsp : Z) (k : kernel) : kernel :=
  Kernel (tasks k) (current_task_idx k) (next_task_id k) (tasking_enabled k) rsp (cpu_sched_ticks k)
    (cpu_busy_ticks k) (hw k) (mem k) (ms k).
Definition set_hw (c : cpu) (k : kernel) : kernel :=
  Kernel (tasks k) (current_task_idx k) (next_task_id k) (tasking_enabled k) (idle_rsp k)
    (cpu_sched_ticks k) (cpu_busy_ticks k) c (mem k) (ms k).
Definition set_kmem (m : kmem) (k : kernel) : kernel :=
  Kernel (tasks k) (current_task_idx k) (next_task_id k) (tasking_enabled k) (idle_rsp k)
    (cpu_sched_ticks k) (cpu_busy_ticks k) (hw k) m (ms k).
Definition set_ticks (s b : Z) (k : kernel) : kernel :=
  Kernel (tasks k) (current_task_idx k) (next_task_id k) (tasking_enabled k) (idle_rsp k) s b (hw k)
    (mem k) (ms k).
Definition set_next_id (n : Z) (k : kernel) : kernel :=
  Kernel (tasks k) (current_task_idx k) n (tasking_enabled k) (idle_rsp k)
    (cpu_sched_ticks k) (cpu_busy_ticks k) (hw k) (mem k) (ms k).

Definition task (k : kernel) (i : nat) : task_t := slot (tasks k) i.
Definition upd_task (i : nat) (f : task_t -> task_t) (k : kernel) : kernel :=
  set_tasks (alter f i (tasks k)) k.

Definition get_current_task (k : kernel) : option nat :=
  if current_task_idx k <? 0 then None else Some (Z.to_nat (current_task_idx k)).

(** ** Delivery of signals *)

(** [__builtin_ctz] of a non-zero word. *)
Definition ctz (p : Z) : Z := default 0 (find (fun b => Z.testbit p b) (map Z.of_nat (seq 0 32))).

Definition clear_bit (p b : Z) : Z := Z.land p (u32 (Z.lnot (Z.shiftl 1 b))).

(** The bytes from [a] on, in the address space of [pml4]. *)
Definition user_write (pml4 a : Z) (l : list Z) (m : gmap (Z * Z) Z) : gmap (Z * Z) Z :=
  foldl (fun m '(i, b) => <[(pml4, a + Z.of_nat i) := b]> m) m (zip (seq 0 (length l)) l).

Definition free_stack (base : Z) (h : H) : H := if base =? 0 then h else kfree base h.

(** mov eax, 34; int 0x80; nop *)
Definition trampoline : list Z := [0xB8; 34; 0; 0; 0; 0xCD; 0x80; 0x90].

Definition task_deliver_signals (i : nat) (k : kernel) : kernel :=
  let t := task k i in
  if (t_pending t =? 0) || bool_decide (t_ring t <> TASK_RING3) then k
  else if t_in_handler t then k
  else if t_rsp t <? 0xffffffff80000000 then k
  else
    let sig := ctz (t_pending t) in
    let h := t_handlers t !!! Z.to_nat sig in
    let pend := clear_bit (t_pending t) sig in
    let m := mem k in
    if (sig =? SIGKILL) || (h =? 0) then
      set_kmem (KMem (free_stack (t_ustack t) (free_stack (t_kstack t) (m_heap m)))
                  (m_words m) (m_frames m) (m_user m))
        (upd_task i (fun t => stackless (128 + sig) (with_pending pend t)) k)
    else
      let r := default null_regs (m_frames m !! t_rsp t) in
      let usp := u64 (Z.land (g_rsp r) (u64 (Z.lnot 15)) - 16) in
      let tc := u64 (usp - 64) in
      let r' := Regs sig h (Z.land (Z.lor (g_rflags r) 0x200) (u64 (Z.lnot 0x400))) usp (g_others r) in
      set_kmem (KMem (m_heap m) (m_words m) (<[t_rsp t := r']> (m_frames m))
                  (user_write (t_pml4 t) usp (le_bytes 8 tc)
                     (user_write (t_pml4 t) tc trampoline (m_user m))))
        (upd_task i (fun t => handling r (with_pending pend t)) k).

(** ** Slots *)

Definition KSTACK_CANARY : Z := 0xC0DEC0DEFEEDFACE.

Definition kstack_canary_set (base : Z) (m : kmem) : kmem :=
  if base =? 0 then m else KMem (m_heap m) (<[base := KSTACK_CANARY]> (m_words m)) (m_frames m) (m_user m).

(** False when the check does not return. *)
Definition kstack_canary_check (t : task_t) (m : kmem) : bool :=
  (t_kstack t =? 0) || (default 0 (m_words m !! t_kstack t) =? KSTACK_CANARY).

Definition abi_stack_top (base size : Z) : Z := u64 (Z.land (u64 (base + size + 15)) (u64 (Z.lnot 15)) - 8).

(** The slot search all the creators share: slot 0 is the kernel's own. *)
Definition free_task_slot (k : kernel) : option nat :=
  find_from (fun _ t => bool_decide (t_state t = TASK_FREE)) 1 (tasks k).

(** The bare iretq frame of a kernel task: rdi carries [entry]. *)
Definition kernel_frame (wrapper entry top : Z) : registers_t := Regs entry wrapper 0x202 top [].

(** The result and the new state; fd_types, fd_pipe and the rest of the slot
    keep what the previous owner left there. *)
Definition create_task (wrapper entry : Z) (k : kernel) : Z * kernel :=
  match free_task_slot k with
  | None => (-1, k)
  | Some slot =>
      let old := task k slot in
      let id := next_task_id k in
      let ppid := if 0 <=? current_task_idx k then t_id (task k (Z.to_nat (current_task_idx k))) else 0 in
      let slots := map (fun f => FdSlot 0 0 0 (fd_types f) (fd_pipe f) (fd_pty f) (fd_flags_extra f)) (t_fds old) in
      let k := set_next_id (i32 (id + 1)) k in
      let fresh st rsp ks us :=
        Task id ppid (t_group old) (t_exit_code old) st TASK_RING0 rsp ks us (t_pml4 old) (t_fs_base old)
          (t_futex old) (t_handlers old) (t_pending old) (t_in_handler old) (t_sig_save old) 0 slots (t_cwd old) in
      let '(p, h) := kmalloc (KERNEL_STACK_SIZE + 16) (m_heap (mem k)) in
      let m := KMem h (m_words (mem k)) (m_frames (mem k)) (m_user (mem k)) in
      match p with
      | None =>
          (-1, set_kmem m (upd_task slot (fun _ => fresh TASK_FREE (t_rsp old) 0 (t_ustack old)) k))
      | Some base =>
          let m := kstack_canary_set base m in
          let top := abi_stack_top base KERNEL_STACK_SIZE in
          let rsp := u64 (top - 20 * 8) in
          let m := KMem (m_heap m) (m_words m) (<[rsp := kernel_frame wrapper entry top]> (m_frames m)) (m_user m) in
          (id, set_kmem m (upd_task slot (fun _ => fresh TASK_READY rsp base 0) k))
      end
  end.

(** The tasks of a group, those of slot 0 and of free slots apart. *)
Definition strand (group : Z) (l : list task_t) : list task_t :=
  imap (fun i t =>
    if (1 <=? i)%nat && negb (bool_decide (t_state t = TASK_FREE)) &&
       ((t_group t =? group) || (t_id t =? group))
    then stranded t else t) l.

Definition kill_thread_group (group : Z) (k : kernel) : kernel := set_tasks (strand group (tasks k)) k.

Definition get_task_count (k : kernel) : Z :=
  Z.of_nat (length (filter (fun t => t_state t <> TASK_FREE) (tasks k))).

Definition get_task_by_index (index : Z) (k : kernel) : option nat :=
  if (index <? 0) || (Z.of_nat MAX_TASKS <=? index) then None
  else if decide (t_state (task k (Z.to_nat index)) = TASK_FREE) then None
  else Some (Z.to_nat index).

Definition get_task_by_id (id : Z) (k : kernel) : option nat :=
  find_from (fun _ t => (t_id t =? id) && negb (bool_decide (t_state t = TASK_FREE))) 0 (tasks k).

(** [sleep_task] up to its yield. *)
Definition sleep_task (delay : Z) (k : kernel) : kernel :=
  if tasking_enabled k
  then upd_task (Z.to_nat (current_task_idx k)) (asleep (u32 (ms k + delay))) k
  else k.

(** ** The scheduler *)

Definition runnable (t : task_t) : bool :=
  bool_decide (t_state t = TASK_READY) && negb (t_kstack t =? 0) && negb (t_rsp t =? 0).

(** Its saved frame was given away: READY with no stack. *)
Definition corpse (t : task_t) : bool :=
  bool_decide (t_state t = TASK_READY) && ((t_kstack t =? 0) || (t_rsp t =? 0)).

Definition wake (now : Z) (t : task_t) : task_t :=
  if bool_decide (t_state t = TASK_SLEEPING) && (t_sleep_until t <=? now) then with_state TASK_READY t else t.

(** The do-while of the round robin: the slot found and the table, in which
    corpses passed on the way are dead. *)
Fixpoint pick_next (fuel : nat) (start next : nat) (l : list task_t) : option nat * list task_t :=
  match fuel with
  | O => (None, l)
  | S fuel =>
      let next := ((next + 1) mod MAX_TASKS)%nat in
      let t := default null_task (l !! next) in
      if runnable t then (Some next, l)
      else
        let l := if corpse t then alter (with_state TASK_DEAD) next l else l in
        if (next =? start)%nat then (None, l) else pick_next fuel start next l
  end.

(** Switch to the idle loop. *)
Definition go_idle (k : kernel) : Z * kernel :=
  (idle_rsp k,
   set_hw (Cpu idle_top (if kernel_pml4 =? 0 then c_cr3 (hw k) else kernel_pml4) (c_fsbase (hw k)))
     (set_cur (-1) k)).

(** The part of [schedule] before the search: [None] when the canary check
    does not return. *)
Definition sched_save (current_rsp : Z) (k : kernel) : option kernel :=
  match get_current_task k with
  | None => Some (set_idle current_rsp k)
  | Some c =>
      if kstack_canary_check (task k c) (mem k) then
        Some (upd_task c (fun t => let t := with_rsp current_rsp t in
                if decide (t_state t = TASK_RUNNING) then with_state TASK_READY t else t) k)
      else None
  end.

(** The part after the search: the slot [next] is dispatched. *)
Definition dispatch (next : nat) (k : kernel) : Z * kernel :=
  let k := if Z.of_nat next =? current_task_idx k then k
           else set_ticks (cpu_sched_ticks k) (u64 (cpu_busy_ticks k + 1)) k in
  let k := upd_task next (with_state TASK_RUNNING) (set_cur (Z.of_nat next) k) in
  let t := task k next in
  let target := if t_pml4 t =? 0 then kernel_pml4 else t_pml4 t in
  let k := set_hw (Cpu (if t_kstack t =? 0 then c_rsp0 (hw k) else u64 (t_kstack t + KERNEL_STACK_SIZE))
                     (if target =? 0 then c_cr3 (hw k) else target) (t_fs_base t)) k in
  let k := task_deliver_signals next k in
  let rsp := t_rsp (task k next) in
  if (rsp <? 0xffffffff80000000) || (0xffffffffc0000000 <? rsp)
  then go_idle (upd_task next (with_state TASK_DEAD) k)
  else (rsp, k).

Definition schedule (current_rsp : Z) (k : kernel) : option (Z * kernel) :=
  if negb (tasking_enabled k) then Some (current_rsp, k)
  else
    k ← sched_save current_rsp k;
    let k := set_tasks (map (wake (ms k)) (tasks k)) k in
    let start := default 0%nat (get_current_task k) in
    let '(found, l) := pick_next MAX_TASKS start start (tasks k) in
    let k := set_tasks l k in
    let found :=
      match found, get_current_task k with
      | None, Some c => if decide (t_state (task k c) = TASK_READY) then Some c else None
      | _, _ => found
      end in
    let k := set_ticks (u64 (cpu_sched_ticks k + 1)) (cpu_busy_ticks k) k in
    Some (match found with None => go_idle k | Some next => dispatch next k end).

(** ** wait4 *)

(** The slot one pass of [sys_wait4] takes. *)
Definition wait4_match (me pid : Z) (t : task_t) : bool :=
  negb (bool_decide (t_state t = TASK_DEAD)) && (t_ppid t =? me) &&
  negb ((0 <? pid) && negb (t_id t =? pid)).

(** One pass: the pid, the status and the new state; [None]: it sleeps for 10 ms
    and tries again. *)
Definition wait4_pass (me pid : Z) (k : kernel) : option (Z * Z * kernel) :=
  match find_from (fun _ => wait4_match me pid) 0 (tasks k) with
  | None => None
  | Some i =>
      let t := task k i in
      Some (t_id t, i32 (Z.shiftl (t_exit_code t) 8), upd_task i (with_state TASK_FREE) k)
  end.

End task.
