(* ===== verification/TaskSpec.v ===== *)
(** Lemmas on the process table: what each step of the scheduler leaves alone,
    the circular order of the round robin, and the effect of one switch. *)
From Stdlib Require Import ZArith Lia.
From stdpp Require Import base numbers list gmap.
From S2P Require Import Prelude HeapIface Task.

(** ** The circular order *)

(** How many slots the search passes to get from [start] to [i]: 1 to 64, and
    64 for [start] itself. *)
Definition dist (start i : nat) : nat := S ((i + MAX_TASKS - start - 1) mod MAX_TASKS).

Lemma dist_range start i : (1 <= dist start i <= MAX_TASKS)%nat.
Proof.
  unfold dist. pose proof (Nat.mod_upper_bound (i + MAX_TASKS - start - 1) MAX_TASKS ltac:(done)). lia.
Qed.

Lemma mod64 (a b : nat) : (a = b + MAX_TASKS \/ a = b \/ a + MAX_TASKS = b)%nat ->
  (b < MAX_TASKS)%nat -> (a mod MAX_TASKS = b)%nat \/ (a + MAX_TASKS = b)%nat.
Proof.
  intros [->|[->|?]] Hb; [left|left|by right].
  - rewrite <-(Nat.mul_1_l MAX_TASKS) at 1. rewrite Nat.Div0.mod_add. by apply Nat.mod_small.
  - by apply Nat.mod_small.
Qed.

Ltac mod_cases :=
  unfold dist, MAX_TASKS in *;
  repeat match goal with
  | |- context [(?a mod 64)%nat] =>
      let q := fresh "q" in let r := fresh "r" in
      pose proof (Nat.mod_upper_bound a 64 ltac:(lia));
      pose proof (Nat.div_mod_eq a 64);
      set (r := (a mod 64)%nat) in *; set (q := (a / 64)%nat) in *; clearbody q r
  | H : context [(?a mod 64)%nat] |- _ =>
      let q := fresh "q" in let r := fresh "r" in
      pose proof (Nat.mod_upper_bound a 64 ltac:(lia));
      pose proof (Nat.div_mod_eq a 64);
      set (r := (a mod 64)%nat) in *; set (q := (a / 64)%nat) in *; clearbody q r
  end; try lia.

Lemma dist_at start d : (start < MAX_TASKS)%nat -> (1 <= d <= MAX_TASKS)%nat ->
  dist start ((start + d) mod MAX_TASKS)%nat = d.
Proof. intros. mod_cases. Qed.

Lemma at_dist start i : (start < MAX_TASKS)%nat -> (i < MAX_TASKS)%nat ->
  ((start + dist start i) mod MAX_TASKS)%nat = i.
Proof. intros. mod_cases. Qed.

(** Passing [n] on the way to [i] leaves the rest of the way. *)
Lemma dist_step start n i : (start < MAX_TASKS)%nat -> (n < MAX_TASKS)%nat -> (i < MAX_TASKS)%nat ->
  n <> i -> (dist start n <= dist start i)%nat -> (dist n i < dist start i)%nat.
Proof. intros. mod_cases. Qed.

(** ** The search *)

(** [l'] is [l] with some corpses dead. *)
Definition buried (l l' : list task_t) : Prop :=
  length l' = length l /\
  forall i, slot l' i = slot l i \/ (corpse (slot l i) = true /\ slot l' i = with_state TASK_DEAD (slot l i)).

Lemma slot_alter f l i j : (i < length l)%nat ->
  slot (alter f i l) j = if decide (i = j) then f (slot l j) else slot l j.
Proof.
  intros Hi. unfold slot. destruct (decide (i = j)) as [<-|Hij].
  - rewrite list_lookup_alter_eq. by destruct (lookup_lt_is_Some_2 l i Hi) as [t ->].
  - by rewrite list_lookup_alter_ne.
Qed.

Lemma runnable_corpse t : corpse t = true -> runnable t = false.
Proof. unfold corpse, runnable. destruct (bool_decide _), (t_kstack t =? 0), (t_rsp t =? 0); done. Qed.

Lemma buried_refl l : buried l l.
Proof. split; [done|]. by left. Qed.

Lemma buried_runnable l l' i : buried l l' -> runnable (slot l' i) = runnable (slot l i).
Proof. intros [_ Hb]. destruct (Hb i) as [->|[Hc ->]]; [done|]. symmetry. by apply runnable_corpse. Qed.

Lemma buried_bury l l' i : (i < length l)%nat -> corpse (slot l i) = true ->
  buried (alter (with_state TASK_DEAD) i l) l' -> buried l l'.
Proof.
  intros Hi Hc [Hl Hb]. split; [by rewrite Hl, length_alter|]. intros j. specialize (Hb j).
  rewrite slot_alter in Hb by done. destruct (decide (i = j)) as [<-|]; [|done].
  right. split; [done|]. by destruct Hb as [?|[Hcc _]].
Qed.

Lemma pick_next_spec start : (start < MAX_TASKS)%nat -> forall fuel d l,
  (d + fuel = MAX_TASKS)%nat -> length l = MAX_TASKS ->
  let '(r, l') := pick_next fuel start ((start + d) mod MAX_TASKS)%nat l in
  buried l l' /\
  match r with
  | Some n => exists e, (d < e <= MAX_TASKS)%nat /\ n = ((start + e) mod MAX_TASKS)%nat /\
      runnable (slot l n) = true /\
      forall j, (d < j < e)%nat -> runnable (slot l ((start + j) mod MAX_TASKS)%nat) = false
  | None => forall j, (d < j <= MAX_TASKS)%nat ->
      let i := ((start + j) mod MAX_TASKS)%nat in runnable (slot l i) = false /\ corpse (slot l' i) = false
  end.
Proof.
  intros Hs. induction fuel as [|fuel IH]; intros d l Hd Hl; cbn [pick_next].
  { split; [apply buried_refl|]. lia. }
  assert (Hnext : (((start + d) mod MAX_TASKS + 1) mod MAX_TASKS = (start + S d) mod MAX_TASKS)%nat).
  { rewrite Nat.Div0.add_mod_idemp_l. f_equal. lia. }
  rewrite Hnext. set (next := ((start + S d) mod MAX_TASKS)%nat).
  assert (Hn : (next < MAX_TASKS)%nat) by (by apply Nat.mod_upper_bound).
  change (default null_task (l !! next)) with (slot l next).
  destruct (runnable (slot l next)) eqn:Hr.
  { split; [apply buried_refl|]. exists (S d). split; [lia|]. split; [done|]. split; [done|]. lia. }
  set (l1 := if corpse (slot l next) then alter (with_state TASK_DEAD) next l else l).
  assert (Hl1 : length l1 = MAX_TASKS) by (unfold l1; destruct (corpse _); by rewrite ?length_alter).
  assert (Hbur : forall l', buried l1 l' -> buried l l').
  { intros l'. unfold l1. destruct (corpse (slot l next)) eqn:Hc; [|done].
    apply buried_bury; [lia|done]. }
  assert (Hrun : forall i, runnable (slot l1 i) = runnable (slot l i)).
  { intros i. apply buried_runnable, Hbur, buried_refl. }
  assert (Hnc : corpse (slot l1 next) = false).
  { unfold l1. destruct (corpse (slot l next)) eqn:Hc; [|done]. rewrite slot_alter by lia.
    by rewrite decide_True. }
  destruct (Nat.eqb_spec next start) as [Heq|Hne].
  { split; [apply Hbur, buried_refl|]. intros j Hj.
    assert (S d = MAX_TASKS) by (unfold next in Heq; clear -Heq Hs Hj; mod_cases).
    by replace j with (S d) by lia. }
  specialize (IH (S d) l1 ltac:(lia) Hl1). fold next in IH.
  destruct (pick_next fuel start next l1) as [r l']. destruct IH as [Hb Hres]. split; [by apply Hbur|].
  assert (Hskip : forall j, (d < j)%nat -> j = S d \/ (S d < j)%nat) by lia.
  destruct r as [n|].
  - destruct Hres as (e & He & -> & Hre & Hj). exists e. rewrite Hrun in Hre.
    split; [lia|]. split; [done|]. split; [done|]. intros j Hjj.
    destruct (Hskip j) as [->|]; [lia|done|]. rewrite <-Hrun. apply Hj. lia.
  - cbv zeta. intros j Hjj. destruct (Hskip j) as [->|]; [lia| |].
    + split; [done|]. destruct Hb as [_ Hb]. destruct (Hb next) as [E|[E _]]; [|congruence].
      fold next. by rewrite E.
    + rewrite <-Hrun. apply Hres. lia.
Qed.

(** The nearest runnable slot is found, if there is one. *)
Lemma pick_next_nearest start l : (start < MAX_TASKS)%nat -> length l = MAX_TASKS ->
  let '(r, l') := pick_next MAX_TASKS start start l in
  buried l l' /\
  match r with
  | Some n => (n < MAX_TASKS)%nat /\ runnable (slot l n) = true /\
      forall i, (i < MAX_TASKS)%nat -> runnable (slot l i) = true -> (dist start n <= dist start i)%nat
  | None => forall i, (i < MAX_TASKS)%nat -> runnable (slot l i) = false /\ corpse (slot l' i) = false
  end.
Proof.
  intros Hs Hl. pose proof (pick_next_spec start Hs MAX_TASKS 0 l eq_refl Hl) as Hp.
  rewrite Nat.add_0_r, Nat.mod_small in Hp by done.
  destruct (pick_next MAX_TASKS start start l) as [[n|] l']; destruct Hp as [Hb Hp]; (split; [done|]).
  - destruct Hp as (e & He & -> & Hr & Hj). split; [by apply Nat.mod_upper_bound|]. split; [done|].
    intros i Hi Hri. rewrite dist_at by (done || lia). destruct (Nat.le_gt_cases e (dist start i)) as [|Hlt]; [done|].
    pose proof (dist_range start i). rewrite <-(at_dist start i Hs Hi) in Hri.
    rewrite Hj in Hri by lia. done.
  - intros i Hi. rewrite <-(at_dist start i Hs Hi). apply Hp. pose proof (dist_range start i). lia.
Qed.

(** ** One switch *)

(** What a task's state is when nothing found it runnable. *)
Lemma ready_cases t : t_state t = TASK_READY -> runnable t = true \/ corpse t = true.
Proof.
  unfold runnable, corpse. intros ->. rewrite bool_decide_eq_true_2 by done.
  destruct (t_kstack t =? 0), (t_rsp t =? 0); auto.
Qed.

Section switch.
Context {H : Type} `{!KernelHeap H}.
Variables (idle_top kernel_pml4 : Z).
Implicit Types k : kernel (H := H).

Notation go_idle := (go_idle idle_top kernel_pml4).
Notation dispatch := (dispatch idle_top kernel_pml4).
Notation schedule := (schedule idle_top kernel_pml4).

Lemma task_slot k i : task k i = slot (tasks k) i.
Proof. done. Qed.

Lemma task_upd k i j f : (i < length (tasks k))%nat ->
  task (upd_task i f k) j = if decide (i = j) then f (task k j) else task k j.
Proof. intros Hi. rewrite !task_slot. unfold upd_task. by apply slot_alter. Qed.

(** No signal is delivered to the task at its next dispatch. *)
Definition quiet (t : task_t) : Prop :=
  t_pending t = 0 \/ t_ring t <> TASK_RING3 \/ t_in_handler t = true.

(** A saved stack pointer the scheduler trusts. *)
Definition kernel_rsp (rsp : Z) : Prop := 0xffffffff80000000 <= rsp <= 0xffffffffc0000000.

(** The fields a switch is programmed from. *)
Definition same_frame (t t' : task_t) : Prop :=
  t_state t' = t_state t /\ t_rsp t' = t_rsp t /\ t_kstack t' = t_kstack t /\
  t_pml4 t' = t_pml4 t /\ t_fs_base t' = t_fs_base t.

Lemma deliver_spec i k : (i < length (tasks k))%nat ->
  let k' := task_deliver_signals i k in
  current_task_idx k' = current_task_idx k /\ hw k' = hw k /\ idle_rsp k' = idle_rsp k /\
  length (tasks k') = length (tasks k) /\ (forall j, j <> i -> task k' j = task k j) /\
  ((t_state (task k' i) = TASK_DEAD /\ t_rsp (task k' i) = 0) \/ same_frame (task k i) (task k' i)) /\
  (quiet (task k i) -> k' = k).
Proof.
  intros Hi. unfold task_deliver_signals.
  set (post k' := current_task_idx k' = current_task_idx k /\ hw k' = hw k /\ idle_rsp k' = idle_rsp k /\
    length (tasks k') = length (tasks k) /\ (forall j, j <> i -> task k' j = task k j) /\
    ((t_state (task k' i) = TASK_DEAD /\ t_rsp (task k' i) = 0) \/ same_frame (task k i) (task k' i))).
  assert (Hsame : post k) by (unfold post; repeat split; try done; by right).
  assert (Hu : forall m f, (t_state (f (task k i)) = TASK_DEAD /\ t_rsp (f (task k i)) = 0) \/
      same_frame (task k i) (f (task k i)) -> post (set_kmem m (upd_task i f k))).
  { intros m f Hf. unfold post. change (task (set_kmem m (upd_task i f k))) with (task (upd_task i f k)).
    do 3 (split; [done|]). split; [apply length_alter|].
    split; [intros j Hj|]; rewrite task_upd by done; [by rewrite decide_False by congruence|].
    by rewrite decide_True. }
  destruct ((t_pending (task k i) =? 0) || bool_decide (t_ring (task k i) <> TASK_RING3)) eqn:E1.
  { split_and!; try apply Hsame; done. }
  destruct (t_in_handler (task k i)) eqn:E2.
  { split_and!; try apply Hsame; done. }
  assert (Hq : ~ quiet (task k i)).
  { apply orb_false_iff in E1 as [E0%Z.eqb_neq Er%bool_decide_eq_false].
    intros [?|[?|?]]; [done|by apply Er|congruence]. }
  destruct (t_rsp (task k i) <? _).
  { split_and!; try apply Hsame; done. }
  cbv zeta. match goal with |- context [if (?a =? SIGKILL) || ?b then _ else _] =>
    destruct ((a =? SIGKILL) || b) end.
  - match goal with |- context [set_kmem ?m (upd_task i ?f k)] =>
      pose proof (Hu m f (or_introl (conj eq_refl eq_refl))) as Hp end.
    split_and!; try apply Hp; done.
  - match goal with |- context [set_kmem ?m (upd_task i ?f k)] =>
      assert (Hp : post (set_kmem m (upd_task i f k))) by (apply Hu; right; by repeat split) end.
    split_and!; try apply Hp; done.
Qed.

(** [cr3] is left alone only when there is no page table to load. *)
Definition programmed (k : kernel (H := H)) (t : task_t) : Prop :=
  let pml4 := if t_pml4 t =? 0 then kernel_pml4 else t_pml4 t in
  c_rsp0 (hw k) = u64 (t_kstack t + KERNEL_STACK_SIZE) /\
  (pml4 <> 0 -> c_cr3 (hw k) = pml4) /\ c_fsbase (hw k) = t_fs_base t.

Lemma dispatch_spec n k :
  length (tasks k) = MAX_TASKS -> (n < MAX_TASKS)%nat -> runnable (task k n) = true ->
  let '(r, k') := dispatch n k in
  length (tasks k') = MAX_TASKS /\ (forall j, j <> n -> task k' j = task k j) /\
  ((current_task_idx k' = -1 /\ r = idle_rsp k /\ c_rsp0 (hw k') = idle_top /\
      t_state (task k' n) = TASK_DEAD) \/
   (current_task_idx k' = Z.of_nat n /\ r = t_rsp (task k' n) /\ kernel_rsp r /\
      t_state (task k' n) = TASK_RUNNING /\ programmed k' (task k' n))) /\
  (quiet (task k n) -> kernel_rsp (t_rsp (task k n)) -> current_task_idx k' = Z.of_nat n /\
      task k' n = with_state TASK_RUNNING (task k n)).
Proof.
  intros Hl Hn Hr. unfold dispatch. set (k0 := if _ =? _ then k else _).
  assert (H0 : tasks k0 = tasks k /\ idle_rsp k0 = idle_rsp k) by (unfold k0; destruct (_ =? _); done).
  destruct H0 as [Ht0 Hi0]. clearbody k0. set (k1 := upd_task n _ _).
  assert (Hl1 : length (tasks k1) = MAX_TASKS) by (unfold k1; cbn; by rewrite length_alter, Ht0).
  assert (Ht1 : forall j, task k1 j = if decide (n = j) then with_state TASK_RUNNING (task k j) else task k j).
  { intros j. unfold k1. rewrite task_upd by (cbn; rewrite Ht0; lia).
    assert (E : task (set_cur (Z.of_nat n) k0) j = task k j) by (unfold task; cbn; by rewrite Ht0).
    by rewrite E. }
  pose proof (Ht1 n) as Hn1. rewrite decide_True in Hn1 by done.
  set (k2 := set_hw _ k1). change (tasks k1) with (tasks k2) in Hl1.
  destruct (deliver_spec n k2) as (D1 & D2 & D3 & D4 & D5 & D6 & D7); [lia|].
  set (k3 := task_deliver_signals n k2) in *.
  assert (Hoth : forall j, j <> n -> task k3 j = task k j).
  { intros j Hj. rewrite D5 by done. change (task k2 j) with (task k1 j). rewrite Ht1.
    by rewrite decide_False by congruence. }
  assert (Hk : t_kstack (task k1 n) <> 0).
  { rewrite Hn1. cbn. unfold runnable in Hr. rewrite !andb_true_iff, negb_true_iff, Z.eqb_neq in Hr. tauto. }
  destruct ((t_rsp (task k3 n) <? _) || _) eqn:Hrange.
  - assert (Hd : forall j, task (set_hw (Cpu idle_top (if kernel_pml4 =? 0 then c_cr3 (hw k3) else kernel_pml4)
        (c_fsbase (hw k3))) (set_cur (-1) (upd_task n (with_state TASK_DEAD) k3))) j =
        if decide (n = j) then with_state TASK_DEAD (task k3 j) else task k3 j).
    { intros j. change (task (set_hw _ (set_cur (-1) (upd_task n (with_state TASK_DEAD) k3))) j)
        with (task (upd_task n (with_state TASK_DEAD) k3) j). apply task_upd. lia. }
    cbn [Task.go_idle]. unfold Task.go_idle. cbn [idle_rsp upd_task set_tasks hw].
    split; [cbn; rewrite length_alter; lia|]. split.
    { intros j Hj. rewrite Hd. rewrite decide_False by congruence. by apply Hoth. }
    split.
    + left. rewrite Hd, decide_True by done. cbn. rewrite D3. done.
    + intros Hq Hrsp. exfalso. rewrite D7 in Hrange.
      * change (task k2 n) with (task k1 n) in Hrange. rewrite Hn1 in Hrange. cbn in Hrange.
        unfold kernel_rsp in Hrsp. lia.
      * change (task k2 n) with (task k1 n). by rewrite Hn1.
  - apply orb_false_iff in Hrange as [Hlo%Z.ltb_ge Hhi%Z.ltb_ge].
    split; [lia|]. split; [exact Hoth|]. split.
    + right. rewrite D1. split; [done|]. split; [done|]. split; [unfold kernel_rsp; lia|].
      destruct D6 as [[_ Hz]|(S1 & S2 & S3 & S4 & S5)]; [rewrite Hz in Hlo; lia|].
      change (task k2 n) with (task k1 n) in *. rewrite Hn1 in S1. split; [by rewrite S1|].
      unfold programmed. rewrite S3, S4, S5, D2. unfold k2. cbn [hw set_hw c_rsp0 c_cr3 c_fsbase].
      rewrite (proj2 (Z.eqb_neq _ _) Hk). split; [done|]. split; [|done].
      intros Hp. by rewrite (proj2 (Z.eqb_neq _ _) Hp).
    + intros Hq _. change (task k2 n) with (task k1 n) in D7. rewrite Hn1 in D7.
      rewrite D7 by done. split; [done|]. exact Hn1.
Qed.

(** The table the search looks at: the interrupted task saved and ready again,
    the sleepers whose time has come awake. *)
Definition resumable (rsp : Z) (t : task_t) : task_t :=
  if decide (t_state t = TASK_RUNNING) then with_state TASK_READY (with_rsp rsp t) else with_rsp rsp t.

Definition view (rsp : Z) k : list task_t :=
  map (wake (ms k)) (match get_current_task k with
                     | Some c => alter (resumable rsp) c (tasks k)
                     | None => tasks k
                     end).

Definition start_of k : nat := default 0%nat (get_current_task k).

(** The states [schedule] is called in. *)
Record sched_ok k : Prop := {
  so_enabled : tasking_enabled k = true;
  so_length : length (tasks k) = MAX_TASKS;
  so_cur : current_task_idx k < Z.of_nat MAX_TASKS;
  so_canary c : get_current_task k = Some c -> kstack_canary_check (task k c) (mem k) = true;
}.

Lemma start_lt k : sched_ok k -> (start_of k < MAX_TASKS)%nat.
Proof.
  intros [_ _ Hc _]. unfold start_of, get_current_task.
  destruct (Z.ltb_spec (current_task_idx k) 0); cbn [default from_option]; unfold id, MAX_TASKS in *; lia.
Qed.

Lemma length_view rsp k : sched_ok k -> length (view rsp k) = MAX_TASKS.
Proof.
  intros Hk. unfold view. rewrite length_map.
  destruct (get_current_task k); rewrite ?length_alter; apply (so_length k Hk).
Qed.

(** The nearest runnable task is dispatched, and the processor idles only when
    there is none. *)
Lemma schedule_spec rsp k : sched_ok k ->
  exists r k', schedule rsp k = Some (r, k') /\ length (tasks k') = MAX_TASKS /\
  let v := view rsp k in
  ((forall i, (i < MAX_TASKS)%nat -> runnable (slot v i) = false) /\
     current_task_idx k' = -1 /\ c_rsp0 (hw k') = idle_top /\ buried v (tasks k')) \/
  exists n l, (n < MAX_TASKS)%nat /\ runnable (slot v n) = true /\ buried v l /\ slot l n = slot v n /\
    (forall i, (i < MAX_TASKS)%nat -> runnable (slot v i) = true -> (dist (start_of k) n <= dist (start_of k) i)%nat) /\
    (forall j, j <> n -> task k' j = slot l j) /\
    ((current_task_idx k' = -1 /\ c_rsp0 (hw k') = idle_top /\ t_state (task k' n) = TASK_DEAD) \/
     (current_task_idx k' = Z.of_nat n /\ r = t_rsp (task k' n) /\ kernel_rsp r /\
        t_state (task k' n) = TASK_RUNNING /\ programmed k' (task k' n))) /\
    (quiet (slot v n) -> kernel_rsp (t_rsp (slot v n)) ->
       current_task_idx k' = Z.of_nat n /\ task k' n = with_state TASK_RUNNING (slot v n)).
Proof.
  intros Hk. pose proof (start_lt k Hk) as Hst. pose proof (length_view rsp k Hk) as Hlv.
  unfold schedule. rewrite (so_enabled k Hk). cbn [negb].
  assert (Hsave : exists k1, sched_save rsp k = Some k1 /\ map (wake (ms k1)) (tasks k1) = view rsp k /\
            get_current_task k1 = get_current_task k /\ current_task_idx k1 = current_task_idx k).
  { unfold sched_save, view. destruct (get_current_task k) as [c|] eqn:Ec; [|by eexists].
    rewrite (so_canary k Hk c Ec). by eexists. }
  destruct Hsave as (k1 & -> & Hv & Hg & Hcur). cbn [mbind option_bind]. rewrite Hv.
  cbn [set_tasks tasks]. change (get_current_task (set_tasks (view rsp k) k1)) with (get_current_task k1).
  rewrite Hg. fold (start_of k). pose proof (pick_next_nearest (start_of k) (view rsp k) Hst Hlv) as Hp.
  destruct (pick_next MAX_TASKS (start_of k) (start_of k) (view rsp k)) as [found l].
  destruct Hp as [Hbur Hfound]. change (get_current_task (set_tasks l _)) with (get_current_task k1).
  rewrite Hg. cbv zeta. pose proof (proj1 Hbur) as Hll. rewrite Hlv in Hll. destruct found as [n|].
  - destruct Hfound as (Hn & Hr & Hnear).
    assert (Hsl : slot l n = slot (view rsp k) n).
    { destruct (proj2 Hbur n) as [?|[Hc _]]; [done|]. by rewrite (runnable_corpse _ Hc) in Hr. }
    set (k2 := set_ticks _ _ _).
    assert (Ht2 : forall j, task k2 j = slot l j) by done.
    pose proof (dispatch_spec n k2 Hll Hn) as Hd. rewrite !Ht2, Hsl in Hd. specialize (Hd Hr).
    destruct (dispatch n k2) as [r k']. destruct Hd as (D1 & D2 & D3 & D4).
    exists r, k'. split; [by destruct (get_current_task k)|]. split; [done|]. right. exists n, l.
    split; [done|]. split; [done|]. split; [done|]. split; [done|]. split; [done|]. split; [exact D2|].
    split; [|exact D4]. destruct D3 as [(? & _ & ? & ?)|?]; [by left|by right].
  - assert (Hno : match get_current_task k with
              | Some c => if decide (t_state (task (set_tasks l (set_tasks (view rsp k) k1)) c) = TASK_READY)
                          then Some c else None
              | None => None end = None).
    { destruct (get_current_task k) as [c|] eqn:Ec; [|done]. apply decide_False.
      assert (Hc : (c < MAX_TASKS)%nat) by (unfold start_of in Hst; by rewrite Ec in Hst).
      change (task _ c) with (slot l c). intros Hready. destruct (Hfound c Hc) as [Hnr Hnc].
      destruct (ready_cases _ Hready) as [Hr|?]; [|congruence].
      rewrite (buried_runnable _ _ c Hbur) in Hr. congruence. }
    cbv zeta in Hno. rewrite Hno. do 2 eexists. split; [done|]. split; [exact Hll|]. left.
    split; [intros i Hi; apply (Hfound i Hi)|]. split; [done|]. split; [done|exact Hbur].
Qed.

End switch.
