(* ===== verification/TaskProps.v ===== *)
(** The properties of the process table: what a switch does, round-robin
    fairness, and what wait4 reaps. *)
From Stdlib Require Import ZArith Lia.
From stdpp Require Import base numbers list gmap.
From S2P Require Import Prelude HeapIface Kheap KheapSpec Task TaskSpec.

Section props.
Context {H : Type} `{!KernelHeap H}.
Variables (idle_top kernel_pml4 : Z).
Implicit Types k : kernel (H := H).

Notation schedule := (schedule idle_top kernel_pml4).

(** Only the current task is RUNNING. *)
Definition one_running k : Prop :=
  forall i, t_state (task k i) = TASK_RUNNING -> current_task_idx k = Z.of_nat i.

Lemma slot_view rsp k i : sched_ok k ->
  slot (view rsp k) i =
    wake (ms k) (if decide (get_current_task k = Some i) then resumable rsp (task k i) else task k i).
Proof.
  intros Hk. pose proof (start_lt k Hk) as Hs. unfold view.
  assert (Hm : forall l, slot (map (wake (ms k)) l) i = wake (ms k) (slot l i)).
  { intros l. unfold slot. rewrite list_lookup_fmap. by destruct (l !! i). }
  rewrite Hm. f_equal. destruct (get_current_task k) as [c|] eqn:Ec; [|done].
  unfold start_of in Hs. rewrite Ec in Hs. cbn in Hs. unfold id in Hs.
  rewrite slot_alter by (rewrite (so_length k Hk); lia).
  destruct (decide (c = i)) as [->|Hne]; [by rewrite decide_True|]. rewrite decide_False by congruence. done.
Qed.

Lemma wake_not_running now t : t_state t <> TASK_RUNNING -> t_state (wake now t) <> TASK_RUNNING.
Proof. unfold wake. by destruct (_ && _). Qed.

Lemma view_not_running rsp k i : sched_ok k -> one_running k ->
  t_state (slot (view rsp k) i) <> TASK_RUNNING.
Proof.
  intros Hk Hone. rewrite slot_view by done. apply wake_not_running.
  destruct (decide (get_current_task k = Some i)) as [Hc|Hc].
  - unfold resumable. destruct (decide (t_state (task k i) = TASK_RUNNING)); [done|]. by destruct (task k i).
  - intros Hr. apply Hc. unfold get_current_task. rewrite (Hone i Hr).
    rewrite (proj2 (Z.ltb_ge _ _)) by lia. by rewrite Nat2Z.id.
Qed.

Lemma buried_not_running l l' i : buried l l' -> t_state (slot l i) <> TASK_RUNNING ->
  t_state (slot l' i) <> TASK_RUNNING.
Proof. intros [_ Hb] Hr. by destruct (Hb i) as [->|[_ ->]]. Qed.

(** C23. A timer tick always ends in a consistent switch: at most one task is
    RUNNING afterwards, and either the processor idles on its own stack, or the
    runnable task nearest in round-robin order runs on its own saved stack
    pointer, with TSS.RSP0 at the top of its kernel stack, its page tables in
    CR3 and its TLS base loaded.  Without pending signals and with trusted stack
    pointers the processor idles only when no task is runnable. *)
Theorem schedule_switches rsp k :
  sched_ok k -> one_running k ->
  exists r k', schedule rsp k = Some (r, k') /\ one_running k' /\
  ((current_task_idx k' = -1 /\ c_rsp0 (hw k') = idle_top) \/
   exists n, (n < MAX_TASKS)%nat /\ current_task_idx k' = Z.of_nat n /\
     runnable (slot (view rsp k) n) = true /\
     (forall i, (i < MAX_TASKS)%nat -> runnable (slot (view rsp k) i) = true ->
        (dist (start_of k) n <= dist (start_of k) i)%nat) /\
     r = t_rsp (task k' n) /\ kernel_rsp r /\ programmed kernel_pml4 k' (task k' n)) /\
  ((forall i, (i < MAX_TASKS)%nat -> runnable (slot (view rsp k) i) = true ->
      quiet (slot (view rsp k) i) /\ kernel_rsp (t_rsp (slot (view rsp k) i))) ->
   (current_task_idx k' = -1 <-> forall i, (i < MAX_TASKS)%nat -> runnable (slot (view rsp k) i) = false)).
Proof.
  intros Hk Hone. pose proof (fun i => view_not_running rsp k i Hk Hone) as Hv.
  destruct (schedule_spec idle_top kernel_pml4 rsp k Hk) as (r & k' & Hs & _ & Hres).
  exists r, k'. split; [done|]. cbv zeta in Hres.
  destruct Hres as [(Hno & Hc & Hr0 & Hb)|(n & l & Hn & Hr & Hb & Hsl & Hnear & Hoth & Hcase & Hquiet)].
  - split; [|split; [by left|by intros _]]. intros i Hi. exfalso. by apply (buried_not_running _ _ i Hb (Hv i)).
  - assert (Hother : forall j, j <> n -> t_state (task k' j) <> TASK_RUNNING).
    { intros j Hj. rewrite Hoth by done. by apply (buried_not_running _ _ j Hb). }
    split.
    { intros i Hi. destruct (decide (i = n)) as [->|Hin]; [|by destruct (Hother i Hin)].
      destruct Hcase as [(_ & _ & Hd)|(Hcur & _)]; [congruence|done]. }
    split.
    { destruct Hcase as [(? & ? & _)|(? & ? & ? & _ & ?)]; [by left|right]. by exists n. }
    intros Hcalm. destruct (Hcalm n Hn Hr) as [Hq Hkr]. destruct (Hquiet Hq Hkr) as [Hcur _].
    rewrite Hcur. split; [lia|]. intros Hnone. by rewrite Hnone in Hr.
Qed.

(** C24. Fairness: a task that stays runnable is dispatched within every 64
    ticks, whatever the other tasks do in between, provided that at every tick
    each runnable task has no pending signal and a stack pointer inside the
    kernel.  A task without them is killed at its dispatch, and the tick goes to
    the next one. *)
Theorem schedule_fair (k : nat -> kernel) (rsp : nat -> Z) i :
  (i < MAX_TASKS)%nat ->
  (forall t, sched_ok (k t)) ->
  (forall t, runnable (slot (view (rsp t) (k t)) i) = true) ->
  (forall t j, (j < MAX_TASKS)%nat -> runnable (slot (view (rsp t) (k t)) j) = true ->
     quiet (slot (view (rsp t) (k t)) j) /\ kernel_rsp (t_rsp (slot (view (rsp t) (k t)) j))) ->
  (forall t, exists r k1, schedule (rsp t) (k t) = Some (r, k1) /\
     current_task_idx (k (S t)) = current_task_idx k1) ->
  forall t, exists u, (t < u <= t + MAX_TASKS)%nat /\ current_task_idx (k u) = Z.of_nat i.
Proof.
  intros Hi Hok Hrun Hcalm Hstep t.
  assert (Hgen : forall D t, (dist (start_of (k t)) i <= D)%nat ->
            exists u, (t < u <= t + D)%nat /\ current_task_idx (k u) = Z.of_nat i).
  { clear t. induction D as [|D IH]; intros t Hd; [pose proof (dist_range (start_of (k t)) i); lia|].
    destruct (schedule_spec idle_top kernel_pml4 (rsp t) (k t) (Hok t)) as (r & k' & Hs & _ & Hres).
    destruct (Hstep t) as (r1 & k1 & Hs1 & Hcur). rewrite Hs in Hs1. injection Hs1 as <- <-. cbv zeta in Hres.
    destruct Hres as [(Hno & _)|(n & l & Hn & Hr & _ & _ & Hnear & _ & _ & Hquiet)].
    { pose proof (Hrun t) as Hrt. by rewrite Hno in Hrt. }
    destruct (Hcalm t n Hn Hr) as [Hq Hkr]. destruct (Hquiet Hq Hkr) as [Hc _]. rewrite Hc in Hcur.
    destruct (decide (n = i)) as [->|Hne]; [exists (S t); split; [lia|done]|].
    pose proof (dist_step (start_of (k t)) n i (start_lt _ (Hok t)) Hn Hi Hne (Hnear i Hi (Hrun t))).
    assert (Hst : start_of (k (S t)) = n).
    { unfold start_of, get_current_task. rewrite Hcur, (proj2 (Z.ltb_ge _ _)) by lia. by rewrite Nat2Z.id. }
    destruct (IH (S t)) as (u & Hu & Huc); [rewrite Hst; lia|]. exists u. split; [lia|done]. }
  apply Hgen, dist_range.
Qed.

(** wait4 takes the children that have not exited: whatever it returns was
    not a DEAD task, and that slot is free afterwards, although the task may
    still be running; and when all the children have exited it never returns. *)
Theorem wait4_reaps_live me pid k :
  match wait4_pass me pid k with
  | Some (rpid, _, k') => exists i, t_state (task k i) <> TASK_DEAD /\ t_ppid (task k i) = me /\
      t_id (task k i) = rpid /\ t_state (task k' i) = TASK_FREE /\ forall j, j <> i -> task k' j = task k j
  | None => forall i, (i < length (tasks k))%nat -> t_ppid (task k i) = me -> pid <= 0 \/ t_id (task k i) = pid ->
      t_state (task k i) = TASK_DEAD
  end.
Proof.
  unfold wait4_pass. destruct (find_from _ 0 (tasks k)) as [i|] eqn:E.
  - apply find_from_Some in E as (_ & (t & Ht & Hm) & _). pose proof (lookup_lt_Some _ _ _ Ht) as Hi.
    assert (Htk : task k i = t) by (unfold task, slot; by rewrite Ht). exists i. rewrite Htk.
    unfold wait4_match in Hm. rewrite !andb_true_iff in Hm. destruct Hm as [[Hst%negb_true_iff Hpp%Z.eqb_eq] _].
    split; [by apply bool_decide_eq_false in Hst|]. split; [done|]. split; [done|].
    split; [rewrite task_upd by done; by rewrite decide_True|].
    intros j Hj. rewrite task_upd by done. by rewrite decide_False by congruence.
  - intros i Hi Hpp Hpid. pose proof (proj1 (find_from_None _ _ _) E i (task k i)) as Hno.
    cbv beta in Hno. unfold wait4_match in Hno. rewrite Hpp, Z.eqb_refl, andb_true_r in Hno.
    destruct (lookup_lt_is_Some_2 (tasks k) i Hi) as [t Ht].
    assert (Htk : task k i = t) by (unfold task, slot; by rewrite Ht). rewrite Htk in *.
    specialize (Hno ltac:(lia) Ht). apply andb_false_iff in Hno as [Hn|Hn].
    + apply negb_false_iff in Hn. by apply bool_decide_eq_true in Hn.
    + apply negb_false_iff in Hn. apply andb_prop in Hn as [Hlt%Z.ltb_lt Hne%negb_true_iff].
      apply Z.eqb_neq in Hne. lia.
Qed.

End props.

(** ** Witnesses: two kernel tasks that take turns *)

Section witnesses.
#[local] Instance pair_heap : KernelHeap kheap := kheap_KernelHeap 2097152 1 0.

Definition stack_a : Z := 0xffffffff90000000.
Definition stack_b : Z := 0xffffffff90020000.

Definition pair_task (id : Z) (st : task_state_t) (base : Z) : task_t :=
  Task id 0 0 0 st TASK_RING0 (base + 4096) base 0 0 0 0 (replicate 32 0) 0 false None 0
    (replicate MAX_FDS null_slot) 0.

Definition pair_mem : kmem (H := kheap) :=
  KMem kheap_boot {[ stack_a := KSTACK_CANARY; stack_b := KSTACK_CANARY ]} ∅ ∅.

(** Task [c] of the two runs, the other is ready. *)
Definition pair_kernel (c : bool) : kernel :=
  Kernel ([pair_task 0 (if c then TASK_READY else TASK_RUNNING) stack_a;
           pair_task 1 (if c then TASK_RUNNING else TASK_READY) stack_b] ++ replicate 62 null_task)
    (if c then 1 else 0) 2 true 0 0 0 (Cpu 0 0 0) pair_mem 7.

Definition pair_rsp (c : bool) : Z := (if c then stack_b else stack_a) + 8192.

Lemma pair_ok c : sched_ok (pair_kernel c).
Proof.
  split; [done|done|by destruct c|]. intros i Hi. destruct c; injection Hi as <-; vm_compute; reflexivity.
Qed.

Lemma pair_slots c i : (i < 2)%nat \/ slot (view (pair_rsp c) (pair_kernel c)) i = null_task.
Proof.
  destruct (decide (i < 2)%nat); [by left|right]. rewrite slot_view by apply pair_ok.
  assert (Hn : task (pair_kernel c) i = null_task).
  { unfold task, slot, pair_kernel. cbn [tasks]. rewrite lookup_app_r by (cbn; lia).
    destruct (replicate 62 null_task !! _) eqn:E; [|done]. by apply lookup_replicate in E as [-> _]. }
  rewrite Hn. rewrite decide_False; [done|]. destruct c; intros [= <-]; vm_compute in n; lia.
Qed.

Lemma pair_one c : one_running (pair_kernel c).
Proof.
  intros i Hi. destruct i as [|[|i]]; [by destruct c|by destruct c|].
  assert (Hn : task (pair_kernel c) (S (S i)) = null_task).
  { unfold task, slot, pair_kernel. cbn [tasks]. rewrite lookup_app_r by (cbn; lia).
    destruct (replicate 62 null_task !! _) eqn:E; [|done]. by apply lookup_replicate in E as [-> _]. }
  by rewrite Hn in Hi.
Qed.

Lemma pair_calm c j : runnable (slot (view (pair_rsp c) (pair_kernel c)) j) = true ->
  quiet (slot (view (pair_rsp c) (pair_kernel c)) j) /\
  kernel_rsp (t_rsp (slot (view (pair_rsp c) (pair_kernel c)) j)).
Proof.
  destruct (pair_slots c j) as [Hj| ->]; [|done]. intros _.
  assert (j = 0%nat \/ j = 1%nat) as [-> | ->] by lia;
    (split; [by left; destruct c|]); destruct c; vm_compute; split; discriminate.
Qed.

Lemma schedule_switches_witness :
  exists r k', schedule 64 0 (pair_rsp false) (pair_kernel false) = Some (r, k') /\ one_running k'.
Proof.
  destruct (schedule_switches 64 0 (pair_rsp false) (pair_kernel false)) as (r & k' & Hs & Ho & _).
  - apply pair_ok.
  - apply pair_one.
  - exists r, k'. exact (conj Hs Ho).
Defined.

Lemma schedule_fair_witness :
  exists u, (5 < u <= 5 + MAX_TASKS)%nat /\ current_task_idx (pair_kernel (Nat.odd u)) = Z.of_nat 1.
Proof.
  apply (schedule_fair 64 0 (fun t => pair_kernel (Nat.odd t)) (fun t => pair_rsp (Nat.odd t)) 1).
  - unfold MAX_TASKS. lia.
  - intros t. apply pair_ok.
  - intros t. destruct (Nat.odd t); vm_compute; reflexivity.
  - intros t j _. apply pair_calm.
  - intros t. rewrite Nat.odd_succ, <-Nat.negb_odd. destruct (Nat.odd t); do 2 eexists; split;
      [vm_compute; reflexivity|vm_compute; reflexivity|vm_compute; reflexivity|vm_compute; reflexivity].
Defined.

End witnesses.
