(* ===== verification/Pty.v ===== *)
(** Pseudo-terminals: src/kernel/pty.c.  Each pair has an input ring (master to
    slave, through the line discipline) and an output ring (slave to master). *)
From Stdlib Require Import ZArith Lia.
From stdpp Require Import base numbers list gmap.
From S2P Require Import Prelude Ring Task.

Definition MAX_PTYS : nat := 4.
Definition PTY_LINE_MAX : Z := 512.
Definition PTY_MASTER : Z := 1.
Definition PTY_SLAVE : Z := 0.

Record pty := Pty {
  used : bool;
  inr : ring;                (* in_head, in_tail, in_data *)
  line : list Z;             (* the first line_len bytes of line[] *)
  outr : ring;
  echo : bool;
  raw : bool;
  cols : Z;
  rows : Z;
  master_refs : Z;
  slave_refs : Z;
  fg_pid : Z;
}.

Definition null_ring : ring := Ring 0 0 (replicate (Z.to_nat PTY_BUF_SIZE) 0).
Definition null_pty : pty := Pty false null_ring [] null_ring false false 0 0 0 0 0.

Definition set_inr (r : ring) (p : pty) : pty :=
  Pty (used p) r (line p) (outr p) (echo p) (raw p) (cols p) (rows p) (master_refs p) (slave_refs p) (fg_pid p).
Definition set_outr (r : ring) (p : pty) : pty :=
  Pty (used p) (inr p) (line p) r (echo p) (raw p) (cols p) (rows p) (master_refs p) (slave_refs p) (fg_pid p).
Definition set_line (l : list Z) (p : pty) : pty :=
  Pty (used p) (inr p) l (outr p) (echo p) (raw p) (cols p) (rows p) (master_refs p) (slave_refs p) (fg_pid p).
Definition set_refs (m s : Z) (p : pty) : pty :=
  Pty (used p) (inr p) (line p) (outr p) (echo p) (raw p) (cols p) (rows p) m s (fg_pid p).
Definition set_mode (r : bool) (p : pty) : pty :=
  Pty (used p) (inr p) (line p) (outr p) (echo p) r (cols p) (rows p) (master_refs p) (slave_refs p) (fg_pid p).
Definition set_size (r c : Z) (p : pty) : pty :=
  Pty (used p) (inr p) (line p) (outr p) (echo p) (raw p) c r (master_refs p) (slave_refs p) (fg_pid p).
Definition set_pid (pid : Z) (p : pty) : pty :=
  Pty (used p) (inr p) (line p) (outr p) (echo p) (raw p) (cols p) (rows p) (master_refs p) (slave_refs p) pid.

Definition put_out (l : list Z) (p : pty) : pty := set_outr (foldl ring_put (outr p) l) p.
Definition put_in (l : list Z) (p : pty) : pty := set_inr (foldl ring_put (inr p) l) p.
Definition put_echo (l : list Z) (p : pty) : pty := if echo p then put_out l p else p.

(** ** The line discipline *)

(** [line_len] is unsigned: the test is made modulo [2^32]. *)
Definition pty_commit_line (p : pty) : pty :=
  if ring_free (r_head (inr p)) (r_tail (inr p)) <? u32 (Z.of_nat (length (line p)) + 1) then p
  else set_line [] (put_in (line p ++ [10]) p).

Definition pty_erase_char (p : pty) : pty :=
  match line p with
  | [] => p
  | _ :: _ => put_echo [8; 32; 8] (set_line (removelast (line p)) p)
  end.

(** One byte in cooked mode; [k] is the process table. *)
Definition pty_key (pk : pty * list task_t) (c : Z) : pty * list task_t :=
  let '(p, k) := pk in
  if (c =? 13) || (c =? 10) then (pty_commit_line (put_echo [13; 10] p), k)
  else if (c =? 8) || (c =? 127) then (pty_erase_char p, k)
  else if c =? 3 then
    let p := put_echo [94; 67; 13; 10] (set_line [] p) in
    (p, if fg_pid p =? 0 then k else snd (send_signal (i32 (fg_pid p)) SIGINT k))
  else if c =? 4 then
    match line p with
    | [] => (put_in [10] (put_echo [13; 10] p), k)
    | _ :: _ => (pty_commit_line p, k)
    end
  else if (32 <=? c) && (c <? 127) then
    let p := if Z.of_nat (length (line p)) <? PTY_LINE_MAX - 1 then set_line (line p ++ [c]) p else p in
    (put_echo [c] p, k)
  else (p, k).

Definition pty_input (buf : list Z) (p : pty) (k : list task_t) : pty * list task_t :=
  if raw p then (put_in buf p, k) else foldl pty_key (p, k) buf.

(** ** The table *)

Definition pty_at (l : list pty) (i : nat) : pty := default null_pty (l !! i).

(** [idx < 0 || idx >= MAX_PTYS || !ptys[idx].used] *)
Definition pty_bad (idx : Z) (l : list pty) : bool :=
  (idx <? 0) || (Z.of_nat MAX_PTYS <=? idx) || negb (used (pty_at l (Z.to_nat idx))).

Definition upd_pty (idx : Z) (f : pty -> pty) (l : list pty) : list pty := alter f (Z.to_nat idx) l.

Definition pty_init : list pty := replicate MAX_PTYS null_pty.

(** *** Descriptors *)

(** The first free descriptor from 3 on; 0, 1 and 2 are reserved. *)
Definition fd_free (f : fd_slot) : bool := (fds f =? 0) && (fd_flags f =? 0) && (fd_types f =? FD_VFS).

Definition alloc_fd (l : list fd_slot) : option nat := find_from (fun _ => fd_free) 3 l.

Definition fd_at (l : list fd_slot) (i : nat) : fd_slot := default null_slot (l !! i).

Definition pty_end (idx extra : Z) (f : fd_slot) : fd_slot :=
  FdSlot (fds f) (fd_flags f) (fd_offsets f) FD_PTY (fd_pipe f) idx extra.

Definition with_type (ty : Z) (f : fd_slot) : fd_slot :=
  FdSlot (fds f) (fd_flags f) (fd_offsets f) ty (fd_pipe f) (fd_pty f) (fd_flags_extra f).

(** On success the two descriptors; the table of the current task and the ptys. *)
Definition sys_openpty (l : list fd_slot) (ptys : list pty) : option (nat * nat) * list fd_slot * list pty :=
  match find_from (fun _ p => negb (used p)) 0 ptys with
  | None => (None, l, ptys)
  | Some i =>
      let fresh := Pty true null_ring [] null_ring true false 80 24 0 0 0 in
      let unused := Pty false null_ring [] null_ring true false 80 24 0 0 0 in
      match alloc_fd l with
      | None => (None, l, <[i := unused]> ptys)
      | Some m =>
          let l := alter (pty_end (Z.of_nat i) PTY_MASTER) m l in
          match alloc_fd l with
          | None => (None, alter (with_type FD_VFS) m l, <[i := unused]> ptys)
          | Some s =>
              (Some (m, s), alter (pty_end (Z.of_nat i) PTY_SLAVE) s l,
               <[i := set_refs 1 1 fresh]> ptys)
          end
      end
  end.

(** *** Operations on one end *)

Definition pty_dup_ref (idx : Z) (is_master : bool) (l : list pty) : list pty :=
  if pty_bad idx l then l
  else upd_pty idx (fun p => if is_master then set_refs (i32 (master_refs p + 1)) (slave_refs p) p
                             else set_refs (master_refs p) (i32 (slave_refs p + 1)) p) l.

Definition pty_set_raw (idx r : Z) (l : list pty) : Z * list pty :=
  if pty_bad idx l then (-1, l)
  else (0, upd_pty idx (fun p => if r =? 0 then set_line [] (set_mode false p) else set_mode true p) l).

Definition pty_set_winsize (idx r c : Z) (l : list pty) : Z * list pty :=
  if pty_bad idx l then (-1, l) else (0, upd_pty idx (set_size r c) l).

Definition pty_get_winsize (idx : Z) (l : list pty) : option (Z * Z) :=
  if pty_bad idx l then None
  else let p := pty_at l (Z.to_nat idx) in Some (rows p, cols p).

Definition pty_get_fg (idx : Z) (l : list pty) : Z :=
  if pty_bad idx l then 0 else i32 (fg_pid (pty_at l (Z.to_nat idx))).

Definition pty_set_fg (idx pid : Z) (l : list pty) : Z * list pty :=
  if pty_bad idx l then (-1, l) else (0, upd_pty idx (set_pid pid) l).

(** One pass of the loop of [pty_read]: the result and the bytes; [None] when it
    sleeps for 4 ms and tries again. *)
Definition pty_read (idx : Z) (is_master : bool) (count : Z) (nonblock : bool) (l : list pty)
    : option (Z * list Z) * list pty :=
  if pty_bad idx l then (Some (-1, []), l)
  else
    let p := pty_at l (Z.to_nat idx) in
    let max := if 4096 <? count then 4096 else i32 count in
    let '(bytes, r) := ring_get max (if is_master then outr p else inr p) in
    let l := upd_pty idx (if is_master then set_outr r else set_inr r) l in
    let n := Z.of_nat (length bytes) in
    if 0 <? n then (Some (n, bytes), l)
    else if nonblock then (Some (-1, []), l)
    else if (if is_master then slave_refs p =? 0 else master_refs p =? 0) then (Some (0, []), l)
    else (None, l).

(** [while (wrote < count && ring_free(...))] *)
Fixpoint raw_write (l : list Z) (wrote : Z) (r : ring) : Z * ring :=
  match l with
  | [] => (wrote, r)
  | c :: l =>
      if ring_free (r_head r) (r_tail r) =? 0 then (wrote, r)
      else raw_write l (u32 (wrote + 1)) (ring_put r c)
  end.

(** ONLCR: a bare newline becomes a carriage return and a newline. *)
Definition onlcr (c : Z) : list Z := if c =? 10 then [13; 10] else [c].

Definition pty_write (idx : Z) (is_master : bool) (buf : list Z) (l : list pty) (k : list task_t)
    : Z * list pty * list task_t :=
  if pty_bad idx l then (-1, l, k)
  else
    let p := pty_at l (Z.to_nat idx) in
    let count := i32 (Z.of_nat (length buf)) in
    if is_master then
      let '(p, k) := pty_input buf p k in (count, upd_pty idx (fun _ => p) l, k)
    else if negb (raw p) then
      (count, upd_pty idx (put_out (concat (map onlcr buf))) l, k)
    else
      let '(wrote, r) := raw_write buf 0 (outr p) in
      (if wrote =? 0 then -1 else i32 wrote, upd_pty idx (set_outr r) l, k).

Definition pty_close (idx : Z) (is_master : bool) (l : list pty) : list pty :=
  if pty_bad idx l then l
  else
    upd_pty idx (fun p =>
      let m := if is_master && negb (master_refs p =? 0) then master_refs p - 1 else master_refs p in
      let s := if negb is_master && negb (slave_refs p =? 0) then slave_refs p - 1 else slave_refs p in
      if (m <=? 0) && (s <=? 0) then null_pty else set_refs m s p) l.

(** POLLIN is 1, POLLOUT 4. *)
Definition pty_poll (idx : Z) (is_master : bool) (l : list pty) : Z :=
  if pty_bad idx l then 0
  else
    let p := pty_at l (Z.to_nat idx) in
    let ready :=
      if is_master then negb (ring_avail (r_head (outr p)) (r_tail (outr p)) =? 0)
      else negb (ring_avail (r_head (inr p)) (r_tail (inr p)) =? 0) ||
           negb (bool_decide (line p = [])) in
    Z.lor (if ready then 1 else 0) 4.
