(* ===== verification/PtyProps.v ===== *)
(** The properties of the pseudo-terminals: every reachable table is well
    formed, and the line discipline delivers the line as edited. *)
From Stdlib Require Import ZArith Lia.
From stdpp Require Import base numbers list gmap relations strings.
From S2P Require Import Prelude Ring Task Pty.

(** ** Well-formedness *)

Record pty_wf (p : pty) : Prop := {
  wf_in : ring_ok (inr p);
  wf_out : ring_ok (outr p);
  wf_line : Z.of_nat (length (line p)) < PTY_LINE_MAX;
}.

Lemma null_ring_ok : ring_ok null_ring.
Proof. split; [|split]; [done|done|]. apply length_replicate. Qed.

Lemma null_pty_wf : pty_wf null_pty.
Proof. split; [apply null_ring_ok|apply null_ring_ok|done]. Qed.

(** The other fields do not matter. *)
Lemma wf_same p q : inr q = inr p -> outr q = outr p -> line q = line p -> pty_wf p -> pty_wf q.
Proof. intros E1 E2 E3 []. split; congruence. Qed.

Lemma wf_set_inr r p : ring_ok r -> pty_wf p -> pty_wf (set_inr r p).
Proof. by intros ? []. Qed.
Lemma wf_set_outr r p : ring_ok r -> pty_wf p -> pty_wf (set_outr r p).
Proof. by intros ? []. Qed.
Lemma wf_set_line l p : Z.of_nat (length l) < PTY_LINE_MAX -> pty_wf p -> pty_wf (set_line l p).
Proof. by intros ? []. Qed.

Lemma wf_put_in l p : pty_wf p -> pty_wf (put_in l p).
Proof. intros Hp. apply wf_set_inr; [|done]. by apply ring_puts_ok, wf_in. Qed.
Lemma wf_put_out l p : pty_wf p -> pty_wf (put_out l p).
Proof. intros Hp. apply wf_set_outr; [|done]. by apply ring_puts_ok, wf_out. Qed.
Lemma wf_put_echo l p : pty_wf p -> pty_wf (put_echo l p).
Proof. unfold put_echo. destruct (echo p); [apply wf_put_out|done]. Qed.

Lemma wf_commit p : pty_wf p -> pty_wf (pty_commit_line p).
Proof. intros Hp. unfold pty_commit_line. case_match; [done|]. by apply wf_set_line, wf_put_in. Qed.

Lemma wf_erase p : pty_wf p -> pty_wf (pty_erase_char p).
Proof.
  intros Hp. unfold pty_erase_char. destruct (line p) as [|c l] eqn:E; [done|].
  apply wf_put_echo, wf_set_line; [|done]. pose proof (wf_line p Hp) as Hl. rewrite E in Hl.
  assert (length (removelast (c :: l)) <= length (c :: l))%nat; [|lia].
  clear. generalize (c :: l). intros m. induction m as [|x [|y m] IH]; [done|cbn; lia|].
  change (removelast (x :: y :: m)) with (x :: removelast (y :: m)). cbn [length] in *. lia.
Qed.

#[export] Hint Resolve null_ring_ok null_pty_wf wf_put_in wf_put_out wf_put_echo wf_commit wf_erase
  wf_set_inr wf_set_outr wf_set_line : pty.
#[export] Hint Extern 0 (Z.of_nat (length []) < _) => reflexivity : pty.

(** A ring read or written by the loops of [pty_read] and [pty_write]. *)
Lemma raw_write_ring l : forall n r, ring_ok r -> ring_ok (snd (raw_write l n r)).
Proof.
  induction l as [|c l IH]; intros n r Hr; cbn [raw_write]; [done|].
  case_match; [done|]. by apply IH, ring_put_ok.
Qed.

Lemma ring_get_keeps count r : ring_ok r ->
  ring_ok (snd (ring_get (if 4096 <? count then 4096 else i32 count) r)).
Proof.
  intros Hr. unfold ring_get. apply ring_take_ok; [done|].
  rewrite ring_avail_level by done. destruct (Z.ltb_spec (u32 (if 4096 <? count then 4096 else i32 count)) (Z.of_nat (ring_level r))).
  - lia.
  - by rewrite Nat2Z.id.
Qed.

Lemma wf_key p (k : list task_t) c : pty_wf p -> pty_wf (fst (pty_key (p, k) c)).
Proof.
  intros Hp. unfold pty_key.
  destruct (_ || _); [cbn [fst]; by auto with pty|].
  destruct (_ || _); [cbn [fst]; by auto with pty|].
  destruct (c =? 3); [cbn [fst]; by auto with pty|].
  destruct (c =? 4); [destruct (line p); cbn [fst]; by auto with pty|].
  destruct (_ && _); [|done]. cbn [fst]. apply wf_put_echo.
  destruct (Z.ltb_spec (Z.of_nat (length (line p))) (PTY_LINE_MAX - 1)); [|done].
  apply wf_set_line; [|done]. rewrite length_app. cbn. lia.
Qed.

Lemma wf_keys buf : forall p (k : list task_t), pty_wf p -> pty_wf (fst (foldl pty_key (p, k) buf)).
Proof.
  induction buf as [|c buf IH]; intros p k Hp; [done|]. cbn [foldl].
  pose proof (wf_key p k c Hp). destruct (pty_key (p, k) c) as [p1 k1]. by apply IH.
Qed.

Lemma wf_input buf p (k : list task_t) : pty_wf p -> pty_wf (fst (pty_input buf p k)).
Proof. intros Hp. unfold pty_input. destruct (raw p); [by apply wf_put_in|by apply wf_keys]. Qed.

(** What the syscalls do to the table of pairs. *)
Inductive pty_step : list pty -> list pty -> Prop :=
  | st_open fdt l : pty_step l (snd (sys_openpty fdt l))
  | st_dup idx m l : pty_step l (pty_dup_ref idx m l)
  | st_raw idx r l : pty_step l (snd (pty_set_raw idx r l))
  | st_size idx r c l : pty_step l (snd (pty_set_winsize idx r c l))
  | st_fg idx pid l : pty_step l (snd (pty_set_fg idx pid l))
  | st_read idx m count nb l : pty_step l (snd (pty_read idx m count nb l))
  | st_write idx m buf (k : list task_t) l : pty_step l (snd (fst (pty_write idx m buf l k)))
  | st_close idx m l : pty_step l (pty_close idx m l).

Definition ptys_wf (l : list pty) : Prop := length l = MAX_PTYS /\ Forall pty_wf l.

Lemma wf_upd idx f l : ptys_wf l -> (forall p, pty_wf p -> pty_wf (f p)) -> ptys_wf (upd_pty idx f l).
Proof.
  intros [Hl Hw] Hf. split; [by unfold upd_pty; rewrite length_alter|]. apply Forall_alter; [done|].
  intros p _. apply Hf.
Qed.

Lemma wf_insert i p l : ptys_wf l -> pty_wf p -> ptys_wf (<[i := p]> l).
Proof. intros [Hl Hw] Hp. split; [by rewrite length_insert|]. by apply Forall_insert. Qed.

Lemma wf_at l i : ptys_wf l -> pty_wf (pty_at l i).
Proof.
  intros [_ Hw]. unfold pty_at. destruct (l !! i) eqn:E; [|apply null_pty_wf].
  by eapply Forall_lookup_1.
Qed.

Lemma pty_step_wf l l' : pty_step l l' -> ptys_wf l -> ptys_wf l'.
Proof.
  intros Hs Hw. destruct Hs.
  - unfold sys_openpty. destruct (find_from _ 0 l) as [i|]; [|done].
    assert (Hi : forall p, inr p = null_ring -> outr p = null_ring -> line p = [] -> ptys_wf (<[i := p]> l)).
    { intros p E1 E2 E3. apply wf_insert; [done|]. split; [rewrite E1|rewrite E2|by rewrite E3]; apply null_ring_ok. }
    destruct (alloc_fd fdt) as [m|]; [|by apply Hi]. destruct (alloc_fd _) as [s|]; by apply Hi.
  - unfold pty_dup_ref. destruct (pty_bad idx l); [done|]. apply wf_upd; [done|]. intros p.
    by destruct m; apply wf_same.
  - unfold pty_set_raw. destruct (pty_bad idx l); [done|]. apply wf_upd; [done|]. intros p Hp.
    destruct (r =? 0); [apply wf_set_line; [done|]|]; by apply (wf_same p).
  - unfold pty_set_winsize. destruct (pty_bad idx l); [done|]. apply wf_upd; [done|]. intros p. by apply wf_same.
  - unfold pty_set_fg. destruct (pty_bad idx l); [done|]. apply wf_upd; [done|]. intros p. by apply wf_same.
  - unfold pty_read. destruct (pty_bad idx l); [done|]. pose proof (wf_at l (Z.to_nat idx) Hw) as [Hi Ho _].
    pose proof (ring_get_keeps count (if m then outr (pty_at l (Z.to_nat idx)) else inr (pty_at l (Z.to_nat idx)))) as Hg.
    destruct (ring_get _ _) as [bytes r]. cbn [snd] in Hg.
    assert (ptys_wf (upd_pty idx (if m then set_outr r else set_inr r) l)).
    { apply wf_upd; [done|]. destruct m; auto with pty. }
    cbv zeta. destruct (0 <? _); [done|]. destruct nb; [done|]. destruct m; by destruct (_ =? 0).
  - unfold pty_write. destruct (pty_bad idx l); [done|]. pose proof (wf_at l (Z.to_nat idx) Hw) as Hp.
    destruct m.
    + pose proof (wf_input buf _ k Hp). destruct (pty_input _ _ _) as [p' k']. by apply wf_upd.
    + destruct (negb (raw _)); [apply wf_upd; [done|]; auto with pty|].
      pose proof (raw_write_ring buf 0 _ (wf_out _ Hp)). destruct (raw_write _ _ _) as [n r].
      apply wf_upd; [done|]. auto with pty.
  - unfold pty_close. destruct (pty_bad idx l); [done|]. apply wf_upd; [done|]. intros p Hp.
    cbv zeta. case_match; [apply null_pty_wf|by apply (wf_same p)].
Qed.

(** C34. Every table of pseudo-terminals the system can reach from [pty_init]
    has its four pairs with ring indices inside the 8192-byte buffers, at most
    8191 bytes in flight in each direction and an edit line of less than 512
    bytes, whatever the sequence of calls and their arguments. *)
Theorem pty_reachable_wf l i :
  rtc pty_step pty_init l -> (i < MAX_PTYS)%nat ->
  length l = MAX_PTYS /\ pty_wf (pty_at l i) /\
  (length (ring_bytes (inr (pty_at l i))) <= ring_cap)%nat /\
  (length (ring_bytes (outr (pty_at l i))) <= ring_cap)%nat.
Proof.
  intros Hr Hi.
  assert (Hw : ptys_wf l).
  { assert (H0 : ptys_wf pty_init) by (split; [done|apply Forall_replicate, null_pty_wf]).
    revert H0. induction Hr as [l|l1 l2 l3 Hs _ IH]; [done|]. intros H1. by apply IH, (pty_step_wf l1). }
  split; [apply Hw|]. split; [by apply wf_at|]. rewrite !length_ring_bytes.
  split; apply ring_level_cap.
Qed.

(** ** The edited line *)

Definition erases (c : Z) : bool := (c =? 8) || (c =? 127).
Definition prints (c : Z) : bool := (32 <=? c) && (c <? 127).

(** The text on the line after the keys [w]: characters are appended up to 511,
    the erase keys take the last one away. *)
Definition edited (l w : list Z) : list Z :=
  foldl (fun l c => if erases c then removelast l
                    else if Z.of_nat (length l) <? PTY_LINE_MAX - 1 then l ++ [c] else l) l w.

Lemma put_echo_same l p : inr (put_echo l p) = inr p /\ line (put_echo l p) = line p /\
  raw (put_echo l p) = raw p /\ echo (put_echo l p) = echo p.
Proof. unfold put_echo. by destruct (echo p) eqn:E; rewrite ?E. Qed.

Lemma erase_same p : inr (pty_erase_char p) = inr p /\ line (pty_erase_char p) = removelast (line p) /\
  raw (pty_erase_char p) = raw p.
Proof.
  unfold pty_erase_char. destruct (line p) as [|c l] eqn:E; [by rewrite E|].
  destruct (put_echo_same [8; 32; 8] (set_line (removelast (c :: l)) p)) as (-> & -> & -> & _). done.
Qed.

Lemma keys_edit w : Forall (fun c => erases c = true \/ prints c = true) w -> forall p (k : list task_t),
  exists p', foldl pty_key (p, k) w = (p', k) /\ inr p' = inr p /\ line p' = edited (line p) w /\ raw p' = raw p.
Proof.
  induction 1 as [|c w Hc _ IH]; intros p k; [by exists p|]. cbn [foldl edited].
  assert (Hkey : exists p1, pty_key (p, k) c = (p1, k) /\ inr p1 = inr p /\ raw p1 = raw p /\
    line p1 = if erases c then removelast (line p)
              else if Z.of_nat (length (line p)) <? PTY_LINE_MAX - 1 then line p ++ [c] else line p).
  { unfold pty_key. unfold erases, prints in *.
    destruct ((c =? 13) || (c =? 10)) eqn:E1; [exfalso; lia|].
    destruct ((c =? 8) || (c =? 127)) eqn:E2.
    { destruct (erase_same p) as (? & ? & ?). by eexists. }
    destruct (Z.eqb_spec c 3); [lia|]. destruct (Z.eqb_spec c 4); [lia|].
    destruct Hc as [?|Hc]; [done|]. rewrite Hc. set (p1 := if _ <? _ then _ else p).
    destruct (put_echo_same [c] p1) as (E3 & E4 & E5 & _). eexists. split; [done|].
    rewrite E3, E4, E5. unfold p1. by destruct (Z.of_nat (length (line p)) <? PTY_LINE_MAX - 1). }
  destruct Hkey as (p1 & -> & Hi & Hr & Hl). destruct (IH p1 k) as (p' & -> & Hi' & Hl' & Hr').
  exists p'. split; [done|]. rewrite Hi', Hl', Hr', Hl. done.
Qed.

Lemma length_edited w : forall l, Z.of_nat (length l) < PTY_LINE_MAX ->
  Z.of_nat (length (edited l w)) < PTY_LINE_MAX.
Proof.
  induction w as [|c w IH]; intros l Hl; [done|]. cbn. apply IH. destruct (erases c).
  - assert (length (removelast l) <= length l)%nat; [|lia].
    clear. induction l as [|x [|y m] IH]; [done|cbn; lia|].
    change (removelast (x :: y :: m)) with (x :: removelast (y :: m)). cbn [length] in *. lia.
  - destruct (Z.ltb_spec (Z.of_nat (length l)) (PTY_LINE_MAX - 1)); [|done]. rewrite length_app. cbn. lia.
Qed.

(** C35. The cooked line discipline: whatever is typed and erased, Enter hands
    the slave exactly the edited line and a newline, behind what it has not read
    yet, and starts a new line.  When the line does not fit the slave gets
    nothing, and the line is not dropped but stays for the next Enter. *)
Theorem pty_cooked_line p (k : list task_t) w :
  pty_wf p -> raw p = false ->
  Forall (fun c => erases c = true \/ prints c = true) w ->
  let text := edited (line p) w in
  exists p', pty_input (w ++ [13]) p k = (p', k) /\ raw p' = false /\
  if (length (ring_bytes (inr p)) + length text <? ring_cap)%nat
  then ring_bytes (inr p') = ring_bytes (inr p) ++ text ++ [10] /\ line p' = []
  else ring_bytes (inr p') = ring_bytes (inr p) /\ line p' = text.
Proof.
  intros Hp Hraw Hw text. unfold pty_input. rewrite Hraw, foldl_app.
  destruct (keys_edit w Hw p k) as (p1 & -> & Hi & Hl & Hr). cbn [foldl].
  change (pty_key (p1, k) 13) with (pty_commit_line (put_echo [13; 10] p1), k).
  eexists. split; [done|]. destruct (put_echo_same [13; 10] p1) as (E1 & E2 & E3 & _).
  set (p2 := put_echo [13; 10] p1) in *. fold text in Hl.
  pose proof (wf_in p Hp) as Hok. pose proof (length_edited w (line p) (wf_line p Hp)) as Htl. fold text in Htl.
  clearbody text p2.
  pose proof (ring_level_cap (inr p)) as Hcap. rewrite <-length_ring_bytes in Hcap.
  unfold pty_commit_line. rewrite E1, E2, Hi, Hl.
  rewrite ring_free_level, (wrap_small 32) by (done || (unfold PTY_LINE_MAX in *; lia)).
  set (have := length (ring_bytes (inr p))) in *.
  destruct (Nat.ltb_spec (have + length text) ring_cap).
  - rewrite (proj2 (Z.ltb_ge (Z.of_nat (ring_cap - have)) _)) by lia. split; [cbn; congruence|]. cbn [line set_line inr put_in set_inr].
    split; [|done]. rewrite E1, Hi.
    destruct (ring_puts_ok (text ++ [10]) (inr p) Hok) as [_ Hb]. rewrite Hb, firstn_all2; [done|].
    rewrite length_app. cbn [length]. lia.
  - rewrite (proj2 (Z.ltb_lt (Z.of_nat (ring_cap - have)) _)) by lia. split; [congruence|]. rewrite E1, Hi. split; [done|congruence].
Qed.

(** Poll calls the slave readable as soon as something is typed, but nothing can
    be read before Enter. *)
Lemma pty_poll_pending idx l :
  pty_bad idx l = false -> ring_bytes (inr (pty_at l (Z.to_nat idx))) = [] ->
  ring_ok (inr (pty_at l (Z.to_nat idx))) -> line (pty_at l (Z.to_nat idx)) <> [] ->
  pty_poll idx false l = 5 /\ forall count, 0 <= count -> fst (pty_read idx false count true l) = Some (-1, []).
Proof.
  intros Hb He Hok Hl. unfold pty_poll, pty_read. rewrite Hb. split.
  - rewrite (bool_decide_eq_false_2 _ Hl), orb_true_r. done.
  - intros count Hc.
    assert (Hg : ring_get (if 4096 <? count then 4096 else i32 count) (inr (pty_at l (Z.to_nat idx))) =
              ([], inr (pty_at l (Z.to_nat idx)))).
    { unfold ring_get. rewrite ring_avail_level by done. rewrite <-length_ring_bytes, He. cbn [length].
      rewrite (proj2 (Z.ltb_ge _ _)) by (apply wrap_bounds; lia). done. }
    by rewrite Hg.
Qed.

(** ** Witnesses *)

(** A fresh pair, and "lx", erase, "s" typed. *)
Definition open_pty : pty := Pty true null_ring [] null_ring true false 80 24 1 1 0.
Definition typed : list Z := str "lx" ++ [127] ++ str "s".

Lemma open_pty_wf : pty_wf open_pty.
Proof. split; [apply null_ring_ok|apply null_ring_ok|done]. Qed.

Lemma pty_cooked_line_witness :
  exists p', pty_input (typed ++ [13]) open_pty [] = (p', []) /\
    ring_bytes (inr p') = str "ls" ++ [10].
Proof.
  destruct (pty_cooked_line open_pty [] typed) as (p' & Hp & _ & Hres).
  - apply open_pty_wf.
  - reflexivity.
  - repeat constructor; vm_compute; (left; reflexivity) || (right; reflexivity).
  - exists p'. split; [exact Hp|].
    assert (Hb : (length (ring_bytes (inr open_pty)) + length (edited (line open_pty) typed) <? ring_cap)%nat = true)
      by (vm_compute; reflexivity).
    rewrite Hb in Hres. exact (proj1 Hres).
Defined.

Lemma pty_reachable_wf_witness :
  length (snd (sys_openpty (replicate MAX_FDS null_slot) pty_init)) = MAX_PTYS.
Proof.
  refine (proj1 (pty_reachable_wf _ 0 _ _)).
  - eapply rtc_l; [apply st_open|apply rtc_refl].
  - unfold MAX_PTYS. lia.
Defined.
