(* ===== verification/Fd.v ===== *)
(** File descriptors: the mount table of src/filesystem/vfs.c with its two file
    systems, and the descriptor calls of src/kernel/task/task.c, which pass a
    call on to a file of the table, a mounted node, a pipe or a pseudo-terminal.
    Calls that wait are modelled by one pass of their loop. *)
From Stdlib Require Import ZArith Lia.
From stdpp Require Import base numbers list gmap strings.
From S2P Require Import Prelude HeapIface Fs Persist Ring Task Pty.

(** ** Mounts *)

Definition MAX_MOUNT_POINTS : nat := 8.

(** Which operations table a node points to. *)
Inductive vfs_ops := ramfs_ops | fat32_ops | no_ops.

Record vfs_node := VfsNode {
  vn_name : list Z;
  vn_ops : vfs_ops;
}.

(** The nodes by address, the root and the mount points in order. *)
Record vfs := Vfs {
  vnodes : gmap Z vfs_node;
  vfs_root : Z;
  mount_points : list (list Z * Z);
}.

Definition vfs_init (v : vfs) : vfs := Vfs (vnodes v) 0 [].

Definition vfs_mount (path : list Z) (local_root : Z) (v : vfs) : Z * vfs :=
  if bool_decide (path = str "/") then (0, Vfs (vnodes v) local_root (mount_points v))
  else if (MAX_MOUNT_POINTS <=? length (mount_points v))%nat then (-1, v)
  else (0, Vfs (vnodes v) (vfs_root v) (mount_points v ++ [(path, local_root)])).

(** The component behind "/mnt/", at most 63 characters. *)
Fixpoint part_name (n : nat) (l : list Z) : list Z :=
  match n, l with
  | S n, c :: l => if (c =? 0) || (c =? 47) then [] else c :: part_name n l
  | _, _ => []
  end.

Definition mnt_prefix (path : list Z) : bool := bool_decide (take 5 path = str "/mnt/").

Definition vfs_open_path (path : list Z) (v : vfs) : Z :=
  match path with
  | 47 :: _ =>
      if mnt_prefix path then
        match find_from (fun _ m => bool_decide (fst m = part_name 63 (drop 5 path))) 0 (mount_points v) with
        | Some i => default 0 (snd <$> (mount_points v !! i))
        | None => vfs_root v
        end
      else vfs_root v
  | _ => vfs_root v
  end.

Section fd.
Context {H : Type} `{!KernelHeap H}.
Variable stale : Z -> Z -> list Z.

Definition ramfs_read (n : vfs_node) (count : Z) (s : fs H) : Z * list Z :=
  match fs_open (vn_name n) s with
  | None => (-1, [])
  | Some fd => fs_read (Z.of_nat fd) (i32 count) s
  end.

Definition fat32_read : Z * list Z := (0, []).

Definition vfs_read (node count : Z) (v : vfs) (s : fs H) : Z * list Z :=
  match vnodes v !! node with
  | None => (-1, [])
  | Some n =>
      match vn_ops n with
      | ramfs_ops => ramfs_read n count s
      | fat32_ops => fat32_read
      | no_ops => (-1, [])
      end
  end.

(** Neither table has a write or a close operation. *)
Definition vfs_write : Z := -1.

(** ** The state of the calls *)

Record io := Io {
  io_tasks : list task_t;
  io_cur : nat;
  io_pipes : list pipe_buf;
  io_ptys : list pty;
  io_fs : fs H;
  io_vfs : vfs;
}.

Definition fdt (s : io) : list fd_slot := t_fds (slot (io_tasks s) (io_cur s)).
Definition set_fdt (l : list fd_slot) (s : io) : io :=
  Io (alter (with_fds l) (io_cur s) (io_tasks s)) (io_cur s) (io_pipes s) (io_ptys s) (io_fs s) (io_vfs s).
Definition set_pipes (l : list pipe_buf) (s : io) : io :=
  Io (io_tasks s) (io_cur s) l (io_ptys s) (io_fs s) (io_vfs s).
Definition set_ptys (l : list pty) (s : io) : io :=
  Io (io_tasks s) (io_cur s) (io_pipes s) l (io_fs s) (io_vfs s).
Definition set_fs (f : fs H) (s : io) : io :=
  Io (io_tasks s) (io_cur s) (io_pipes s) (io_ptys s) f (io_vfs s).
Definition set_iotasks (l : list task_t) (s : io) : io :=
  Io l (io_cur s) (io_pipes s) (io_ptys s) (io_fs s) (io_vfs s).

Definition upd_fd (i : nat) (f : fd_slot -> fd_slot) (s : io) : io := set_fdt (alter f i (fdt s)) s.
Definition fd_bad (fd : Z) : bool := (fd <? 0) || (Z.of_nat MAX_FDS <=? fd).
Definition fd_of (fd : Z) (s : io) : fd_slot := fd_at (fdt s) (Z.to_nat fd).

Definition null_pipe : pipe_buf := PipeBuf 0 0 0 0 (replicate (Z.to_nat PIPE_BUF_SIZE) 0).
Definition pipe_at (l : list pipe_buf) (i : Z) : pipe_buf := default null_pipe (l !! Z.to_nat i).
Definition MAX_PIPES : nat := 32.

(** *** Opening *)

Definition O_CREAT : Z := 0x40.
Definition O_NONBLOCK : Z := 0x800.

Definition file_fd (idx : nat) (f : fd_slot) : fd_slot :=
  FdSlot (fds f) (Z.of_nat idx + 1) 0 (fd_types f) (fd_pipe f) (fd_pty f) (fd_flags_extra f).
Definition node_fd (node : Z) (f : fd_slot) : fd_slot :=
  FdSlot node (fd_flags f) 0 (fd_types f) (fd_pipe f) (fd_pty f) (fd_flags_extra f).

(** The index in files[], created if asked for. *)
Definition open_idx (path : list Z) (flags : Z) (f : fs H) : option nat * fs H :=
  match fs_open path f with
  | Some i => (Some i, f)
  | None => if negb (Z.land flags O_CREAT =? 0) then fs_create path f else (None, f)
  end.

Definition sys_open (path : list Z) (flags : Z) (s : io) : Z * io :=
  let '(idx, f) := open_idx path flags (io_fs s) in
  let s := set_fs f s in
  match find_from (fun _ fd => fds fd =? 0) 3 (fdt s) with
  | None => (-1, s)
  | Some i =>
      match idx with
      | Some j => (Z.of_nat i, upd_fd i (file_fd j) s)
      | None =>
          if mnt_prefix path then
            let node := vfs_open_path path (io_vfs s) in
            if node =? 0 then (-1, s) else (Z.of_nat i, upd_fd i (node_fd node) s)
          else (-1, s)
      end
  end.

(** *** Pipes *)

Definition pipe_end (pno extra : Z) (f : fd_slot) : fd_slot :=
  FdSlot (fds f) (fd_flags f) (fd_offsets f) FD_PIPE pno (fd_pty f) extra.
Definition pipe_mark (f : fd_slot) : fd_slot :=
  FdSlot (fds f) (fd_flags f) (fd_offsets f) FD_PIPE (fd_pipe f) (fd_pty f) 0.

(** The two counts are ints. *)
Definition with_counts (w r : Z) (p : pipe_buf) : pipe_buf :=
  PipeBuf (p_head p) (p_tail p) (i32 w) (i32 r) (p_data p).

Definition sys_pipe (s : io) : option (nat * nat) * io :=
  match find_from (fun _ p => (writer_count p =? 0) && (reader_count p =? 0)) 0 (io_pipes s) with
  | None => (None, s)
  | Some pno =>
      let s := set_pipes (alter (fun p => PipeBuf 0 0 0 0 (p_data p)) pno (io_pipes s)) s in
      match alloc_fd (fdt s) with
      | None => (None, s)
      | Some rd =>
          let s := upd_fd rd pipe_mark s in
          match alloc_fd (fdt s) with
          | None => (None, upd_fd rd (with_type FD_VFS) s)
          | Some wr =>
              let s := upd_fd wr (pipe_end (Z.of_nat pno) 1) (upd_fd rd (pipe_end (Z.of_nat pno) 0) s) in
              let bump p := with_counts (writer_count p + 1) (reader_count p + 1) p in
              let s := set_pipes (alter bump pno (io_pipes s)) s in
              let s := set_pipes (alter bump pno (io_pipes s)) s in
              (Some (rd, wr), s)
          end
      end
  end.

(** *** fcntl *)

Definition with_extra (e : Z) (f : fd_slot) : fd_slot :=
  FdSlot (fds f) (fd_flags f) (fd_offsets f) (fd_types f) (fd_pipe f) (fd_pty f) e.

Definition sys_fcntl (fd cmd arg : Z) (s : io) : Z * io :=
  if fd_bad fd then (-1, s)
  else
    let f := fd_of fd s in
    let i := Z.to_nat fd in
    let tty := fd_types f =? FD_PTY in
    let stream := (fd_types f =? FD_PIPE) || tty in
    let file := (0 <? fd_flags f) || negb (fds f =? 0) in
    if tty && (cmd =? 1000) then
      let '(r, l) := pty_set_fg (fd_pty f) (u32 arg) (io_ptys s) in (r, set_ptys l s)
    else if tty && (cmd =? 1001) then
      let '(r, l) := pty_set_raw (fd_pty f) arg (io_ptys s) in (r, set_ptys l s)
    else if tty && (cmd =? 1002) then
      let '(r, l) := pty_set_winsize (fd_pty f) (u32 (Z.shiftr arg 16)) (u32 (Z.land arg 0xFFFF)) (io_ptys s) in
      (r, set_ptys l s)
    else if cmd =? 3 then
      (if stream then Z.land (fd_flags_extra f) 0x801 else if file then 0 else - EBADF, s)
    else if cmd =? 4 then
      if stream then
        (0, upd_fd i (with_extra (if negb (Z.land arg 0x800 =? 0) then Z.lor (fd_flags_extra f) 0x800
                                  else Z.land (fd_flags_extra f) (Z.lnot 0x800))) s)
      else if file then (0, upd_fd i (with_extra (Z.land arg 0x800)) s)
      else (-1, s)
    else (-1, s).

(** *** Reading and writing *)

Definition with_offset (o : Z) (f : fd_slot) : fd_slot :=
  FdSlot (fds f) (fd_flags f) o (fd_types f) (fd_pipe f) (fd_pty f) (fd_flags_extra f).

(** The result and the bytes; [None]: the caller sleeps and tries again. *)
Definition sys_read (fd count : Z) (s : io) : option (Z * list Z) * io :=
  if fd_bad fd then (Some (-1, []), s)
  else
    let f := fd_of fd s in
    if fd_types f =? FD_PIPE then
      let '(n, bytes, p) := pipe_read count (pipe_at (io_pipes s) (fd_pipe f)) in
      let s := set_pipes (<[Z.to_nat (fd_pipe f) := p]> (io_pipes s)) s in
      if 0 <=? n then (Some (n, bytes), s)
      else if Z.land (fd_flags_extra f) O_NONBLOCK =? 0 then (None, s)
      else (Some (-1, []), s)
    else if fd_types f =? FD_PTY then
      let '(r, l) := pty_read (fd_pty f) (negb (Z.land (fd_flags_extra f) 1 =? 0)) count
                       (negb (Z.land (fd_flags_extra f) 0x800 =? 0)) (io_ptys s) in
      (r, set_ptys l s)
    else if 0 <? fd_flags f then
      let '(n, bytes) := fs_read_at (fd_flags f - 1) (i32 count) (i32 (fd_offsets f)) (io_fs s) in
      (Some (n, bytes),
       if 0 <? n then upd_fd (Z.to_nat fd) (with_offset (u32 (fd_offsets f + n))) s else s)
    else if fds f =? 0 then (Some (-1, []), s)
    else (Some (vfs_read (fds f) count (io_vfs s) (io_fs s)), s).

(** [whence]: 0 is SEEK_SET, 1 SEEK_CUR, 2 SEEK_END. *)
Definition sys_lseek (fd offset whence : Z) (s : io) : Z * io :=
  if fd_bad fd then (-1, s)
  else
    let f := fd_of fd s in
    if fd_flags f <=? 0 then (-1, s)
    else
      let base :=
        if whence =? 1 then i32 (fd_offsets f)
        else if whence =? 2 then
          match fs_get_node (fd_flags f - 1) (io_fs s) with Some n => size n | None => 0 end
        else 0 in
      let off := i32 (base + offset) in
      if off <? 0 then (-1, s)
      else (off, upd_fd (Z.to_nat fd) (with_offset off) s).

(** [None]: the file system's write does not return. *)
Definition sys_write (fd : Z) (buf : list Z) (s : io) : option (Z * io) :=
  if fd_bad fd then Some (-1, s)
  else
    let f := fd_of fd s in
    if fd_types f =? FD_PIPE then
      if fd_flags_extra f =? 0 then Some (-1, s)
      else
        let '(n, p) := pipe_write buf (pipe_at (io_pipes s) (fd_pipe f)) in
        Some (if n <? 0 then -1 else n, set_pipes (<[Z.to_nat (fd_pipe f) := p]> (io_pipes s)) s)
    else if fd_types f =? FD_PTY then
      let '(n, l, ts) := pty_write (fd_pty f) (negb (Z.land (fd_flags_extra f) 1 =? 0)) buf (io_ptys s) (io_tasks s) in
      Some (n, set_ptys l (set_iotasks ts s))
    else if 0 <? fd_flags f then
      '(n, t) ← fs_write stale (fd_flags f - 1) buf (io_fs s);
      Some (n, set_fs (if 0 <? n then set_dirty true t else t) s)
    else if fds f =? 0 then Some (-1, s)
    else Some (vfs_write, s).

(** *** Closing *)

(** The counters of a pipe after one of its ends is closed. *)
Definition drop_end (extra : Z) (p : pipe_buf) : pipe_buf :=
  let w := if negb (Z.land extra 1 =? 0) then i32 (writer_count p - 1) else writer_count p in
  let r := if negb (Z.land extra 1 =? 0) then reader_count p else i32 (reader_count p - 1) in
  with_counts (if w <? 0 then 0 else w) (if r <? 0 then 0 else r) p.

(** Pipe 0 is left out by the test [pno > 0]. *)
Definition drop_pipe (f : fd_slot) (l : list pipe_buf) : list pipe_buf :=
  if (0 <? fd_pipe f) && (fd_pipe f <? Z.of_nat MAX_PIPES)
  then alter (drop_end (fd_flags_extra f)) (Z.to_nat (fd_pipe f)) l else l.

Definition sys_close (fd : Z) (s : io) : io :=
  if fd_bad fd then s
  else
    let i := Z.to_nat fd in
    let s := upd_fd i (with_offset 0) s in
    let f := fd_of fd s in
    if 0 <? fd_flags f then
      upd_fd i (fun f => FdSlot (fds f) 0 (fd_offsets f) (fd_types f) (fd_pipe f) (fd_pty f) (fd_flags_extra f)) s
    else
      let s := upd_fd i (fun f => FdSlot 0 (fd_flags f) (fd_offsets f) (fd_types f) (fd_pipe f) (fd_pty f)
                                   (fd_flags_extra f)) s in
      let s :=
        if fd_types f =? FD_PIPE then
          upd_fd i (fun f => FdSlot (fds f) (fd_flags f) (fd_offsets f) FD_VFS 0 (fd_pty f) 0)
            (set_pipes (drop_pipe f (io_pipes s)) s)
        else s in
      if fd_types f =? FD_PTY then
        upd_fd i (fun f => FdSlot (fds f) (fd_flags f) (fd_offsets f) FD_VFS (fd_pipe f) 0 0)
          (set_ptys (pty_close (fd_pty f) (negb (Z.land (fd_flags_extra f) 1 =? 0)) (io_ptys s)) s)
      else s.

(** The descriptors [exit_task] closes: pseudo-terminals are not among them. *)
Definition exit_close_fd (s : io) (i : nat) : io :=
  let f := fd_at (fdt s) i in
  let s := upd_fd i (fun f => FdSlot 0 0 (fd_offsets f) (fd_types f) (fd_pipe f) (fd_pty f) (fd_flags_extra f)) s in
  if fd_types f =? FD_PIPE then
    upd_fd i (fun f => FdSlot (fds f) (fd_flags f) (fd_offsets f) FD_VFS 0 (fd_pty f) 0)
      (set_pipes (drop_pipe f (io_pipes s)) s)
  else s.

Definition exit_close_fds (s : io) : io := foldl exit_close_fd s (seq 0 MAX_FDS).

(** *** Sharing *)

Definition bump_pipe (f : fd_slot) (l : list pipe_buf) : list pipe_buf :=
  alter (fun p => if negb (Z.land (fd_flags_extra f) 1 =? 0)
                  then with_counts (writer_count p + 1) (reader_count p) p
                  else with_counts (writer_count p) (reader_count p + 1) p) (Z.to_nat (fd_pipe f)) l.

(** One more reference to the object behind a descriptor. *)
Definition ref_fd (f : fd_slot) (s : io) : io :=
  if fd_types f =? FD_PIPE then set_pipes (bump_pipe f (io_pipes s)) s
  else if fd_types f =? FD_PTY then
    set_ptys (pty_dup_ref (fd_pty f) (negb (Z.land (fd_flags_extra f) 1 =? 0)) (io_ptys s)) s
  else s.

(** The table of slot [child] becomes a copy of the current task's. *)
Definition dup_fd_table (child : nat) (s : io) : io :=
  let l := fdt s in
  foldl (fun s f => ref_fd f s) (set_iotasks (alter (with_fds l) child (io_tasks s)) s) (take MAX_FDS l).

Definition sys_dup2 (oldfd newfd : Z) (s : io) : Z * io :=
  if fd_bad oldfd || fd_bad newfd then (- EBADF, s)
  else if oldfd =? newfd then (newfd, s)
  else
    let o := fd_of oldfd s in
    if (fd_types o =? 0) && (fd_flags o =? 0) && (fds o =? 0) then (- EBADF, s)
    else
      let n := fd_of newfd s in
      let s := if (fd_types n =? FD_PIPE) || (fd_types n =? FD_PTY) || negb (fds n =? 0) || negb (fd_flags n =? 0)
               then sys_close newfd s else s in
      let o := fd_of oldfd s in
      (newfd, ref_fd o (upd_fd (Z.to_nat newfd) (fun _ => o) s)).

(** *** Pseudo-terminals and sockets *)

Definition open_pty (s : io) : option (nat * nat) * io :=
  let '(r, l, ps) := sys_openpty (fdt s) (io_ptys s) in (r, set_ptys ps (set_fdt l s)).

(** Type of the descriptor with the number of a socket; it keeps everything else. *)
Definition FD_SOCKET : Z := 2.

(** What the socket call does to the descriptors, [sock] being the number the
    network stack gave out. *)
Definition tag_socket (sock : Z) (s : io) : io :=
  if (0 <=? sock) && (sock <? Z.of_nat MAX_FDS) then upd_fd (Z.to_nat sock) (with_type FD_SOCKET) s else s.

(** *** Vectors *)

(** The running total of [sys_readv] over the buffer lengths, the bytes read and
    the new state; [None] when a read waits. *)
Fixpoint readv_loop (fd total : Z) (lens : list Z) (s : io) : option (Z * list Z * io) :=
  match lens with
  | [] => Some (total, [], s)
  | len :: lens =>
      match sys_read fd (u32 len) s with
      | (None, _) => None
      | (Some (n, bytes), s) =>
          if n <? 0 then Some (if total =? 0 then n else total, [], s)
          else if u32 n <? len then Some (total + n, bytes, s)
          else
            match readv_loop fd (total + n) lens s with
            | None => None
            | Some (t, rest, s) => Some (t, bytes ++ rest, s)
            end
      end
  end.

Definition EIGEN_ERR_INVAL : Z := -4.

Definition sys_readv (fd : Z) (lens : list Z) (s : io) : option (Z * list Z * io) :=
  match lens with [] => Some (- EIGEN_ERR_INVAL, [], s) | _ :: _ => readv_loop fd 0 lens s end.

Fixpoint writev_loop (fd total : Z) (bufs : list (list Z)) (s : io) : option (Z * io) :=
  match bufs with
  | [] => Some (total, s)
  | buf :: bufs =>
      match sys_write fd buf s with
      | None => None
      | Some (n, s) =>
          if n <? 0 then Some (if total =? 0 then n else total, s)
          else if u32 n <? Z.of_nat (length buf) then Some (total + n, s)
          else writev_loop fd (total + n) bufs s
      end
  end.

Definition sys_writev (fd : Z) (bufs : list (list Z)) (s : io) : option (Z * io) :=
  match bufs with [] => Some (- EIGEN_ERR_INVAL, s) | _ :: _ => writev_loop fd 0 bufs s end.

End fd.
