(* ===== verification/FdProps.v ===== *)
(** The properties of the descriptor calls: bytes through a pipe, its end of
    file, and what a second open does to the first. *)
From Stdlib Require Import ZArith Lia.
From stdpp Require Import base numbers list gmap strings.
From S2P Require Import Prelude HeapIface Kheap KheapSpec Fs FsSpec FsProps Persist Ring Task Pty Fd.

Section props.
Context {H : Type} `{!KernelHeap H}.
Variable stale : Z -> Z -> list Z.
Implicit Types s : io (H := H).

(** A current task with its sixteen descriptors. *)
Definition io_ok s : Prop := (io_cur s < length (io_tasks s))%nat /\ length (fdt s) = MAX_FDS.

Lemma fdt_set l s : io_ok s -> fdt (set_fdt l s) = l.
Proof.
  intros [Hc _]. unfold fdt, set_fdt, slot. cbn. rewrite list_lookup_alter_eq.
  by destruct (lookup_lt_is_Some_2 _ _ Hc) as [t ->].
Qed.

Lemma fdt_upd i f s : io_ok s -> fdt (upd_fd i f s) = alter f i (fdt s).
Proof. intros Hs. unfold upd_fd. by apply fdt_set. Qed.

Lemma upd_ok i f s : io_ok s -> io_ok (upd_fd i f s).
Proof.
  intros Hs. split; [|by rewrite fdt_upd, length_alter by done; apply Hs].
  unfold upd_fd, set_fdt. cbn. rewrite length_alter. apply Hs.
Qed.

Lemma fd_at_alter l f i j : (i < length l)%nat ->
  fd_at (alter f i l) j = if decide (i = j) then f (fd_at l j) else fd_at l j.
Proof.
  intros Hi. unfold fd_at. destruct (decide (i = j)) as [<-|Hij].
  - rewrite list_lookup_alter_eq. by destruct (lookup_lt_is_Some_2 l i Hi) as [t ->].
  - by rewrite list_lookup_alter_ne.
Qed.

Lemma fd_of_upd s i f j : io_ok s -> (i < MAX_FDS)%nat ->
  fd_of (Z.of_nat j) (upd_fd i f s) = if decide (i = j) then f (fd_of (Z.of_nat j) s) else fd_of (Z.of_nat j) s.
Proof.
  intros Hs Hi. unfold fd_of. rewrite fdt_upd, Nat2Z.id by done. apply fd_at_alter. by rewrite (proj2 Hs).
Qed.

Lemma find_fd P l i : find_from (fun _ => P) 3 l = Some i -> (3 <= i < length l)%nat /\ P (fd_at l i) = true.
Proof.
  intros Hf. split; [by eapply find_from_lt|]. apply find_from_Some in Hf as (_ & (f & Hl & Hp) & _).
  unfold fd_at. by rewrite Hl.
Qed.

Lemma fd_good i : (i < MAX_FDS)%nat -> fd_bad (Z.of_nat i) = false.
Proof. intros. unfold fd_bad. apply orb_false_iff. split; [apply Z.ltb_ge|apply Z.leb_gt]; lia. Qed.

(** *** A second open *)

(** Opening two files gives one descriptor: the search for a free slot looks
    at mounted nodes only, so the slot that already holds a file is taken again,
    and the first file can no longer be reached through it. *)
Theorem sys_open_clobbers path1 path2 flags fd i j s s1 :
  io_ok s -> fs_open path1 (io_fs s) = Some i -> fs_open path2 (io_fs s) = Some j ->
  sys_open path1 flags s = (fd, s1) -> 0 <= fd ->
  fd_flags (fd_of fd s1) = Z.of_nat i + 1 /\
  exists s2, sys_open path2 flags s1 = (fd, s2) /\ fd_flags (fd_of fd s2) = Z.of_nat j + 1 /\
    fd_offsets (fd_of fd s2) = 0 /\ forall k, k <> Z.to_nat fd -> fd_at (fdt s2) k = fd_at (fdt s1) k.
Proof.
  intros Hs H1 H2 Hopen Hfd. unfold sys_open, open_idx in Hopen. rewrite H1 in Hopen. cbn [fst snd] in Hopen.
  change (fdt (set_fs (io_fs s) s)) with (fdt s) in Hopen. set (s0 := set_fs (io_fs s) s) in *.
  assert (Hs0 : io_ok s0) by done.
  destruct (find_from (fun _ fd0 => fds fd0 =? 0) 3 (fdt s)) as [a|] eqn:Ef; [|by injection Hopen; lia].
  injection Hopen as <- <-. pose proof (find_fd _ _ _ Ef) as [[Ha3 Ha] Hz]. rewrite (proj2 Hs) in Ha.
  rewrite fd_of_upd, decide_True by done. split; [done|].
  set (s1 := upd_fd a (file_fd i) s0). assert (Hs1 : io_ok s1) by (by apply upd_ok).
  assert (Hf1 : fdt s1 = alter (file_fd i) a (fdt s)) by exact (fdt_upd a _ s0 Hs0).
  assert (Ef1 : find_from (fun _ fd0 => fds fd0 =? 0) 3 (fdt s1) = Some a).
  { rewrite Hf1. apply find_from_Some in Ef as (_ & (f & Hl & Hp) & Hbefore). apply find_from_Some.
    split; [done|]. split.
    - exists (file_fd i f). rewrite list_lookup_alter_eq, Hl. done.
    - intros k y Hk Hy. rewrite list_lookup_alter_ne in Hy by lia. by apply (Hbefore k). }
  exists (upd_fd a (file_fd j) (set_fs (io_fs s) s1)). split.
  { unfold sys_open, open_idx. change (io_fs s1) with (io_fs s). rewrite H2.
    change (fdt (set_fs (io_fs s) s1)) with (fdt s1). by rewrite Ef1. }
  assert (Hs2 : io_ok (set_fs (io_fs s) s1)) by done.
  rewrite fd_of_upd, decide_True by done. split; [done|]. split; [done|].
  intros k Hk. rewrite Nat2Z.id in Hk. rewrite fdt_upd by done. change (fdt (set_fs (io_fs s) s1)) with (fdt s1).
  rewrite fd_at_alter by (rewrite (proj2 Hs1); lia). by rewrite decide_False.
Qed.

(** *** Pipes *)

(** A fresh pipe: two descriptors on one empty ring, counted twice at each end. *)
Record piped s (rd wr pno : nat) s1 : Prop := {
  pi_ok : io_ok s1;
  pi_rd : (rd < MAX_FDS)%nat;
  pi_wr : (wr < MAX_FDS)%nat;
  pi_ne : rd <> wr;
  pi_len : length (io_pipes s1) = length (io_pipes s);
  pi_pno : (pno < length (io_pipes s))%nat;
  pi_fdr : let f := fd_of (Z.of_nat rd) s1 in
    fd_types f = FD_PIPE /\ fd_pipe f = Z.of_nat pno /\ fd_flags_extra f = 0 /\ fd_flags f = 0 /\ fds f = 0;
  pi_fdw : let f := fd_of (Z.of_nat wr) s1 in
    fd_types f = FD_PIPE /\ fd_pipe f = Z.of_nat pno /\ fd_flags_extra f = 1 /\ fd_flags f = 0 /\ fds f = 0;
  pi_pipe : exists d, pipe_at (io_pipes s1) (Z.of_nat pno) = PipeBuf 0 0 2 2 d /\
    exists p, io_pipes s !! pno = Some p /\ d = p_data p;
}.

Lemma free_fd_fields f : fd_free f = true -> fds f = 0 /\ fd_flags f = 0 /\ fd_types f = FD_VFS.
Proof. unfold fd_free. rewrite !andb_true_iff, !Z.eqb_eq. tauto. Qed.

Lemma sys_pipe_spec s rd wr s1 :
  io_ok s -> sys_pipe s = (Some (rd, wr), s1) -> exists pno, piped s rd wr pno s1.
Proof.
  intros Hs. unfold sys_pipe.
  destruct (find_from _ 0 (io_pipes s)) as [pno|] eqn:Ep; [|done].
  apply find_from_Some in Ep as (_ & (p & Hp & _) & _). pose proof (lookup_lt_Some _ _ _ Hp) as Hpl.
  set (s0 := set_pipes _ s). assert (Hs0 : io_ok s0) by done.
  destruct (alloc_fd (fdt s0)) as [rd0|] eqn:Er; [|done].
  apply find_fd in Er as [[Hr3 Hr] Hrf]. rewrite (proj2 Hs0) in Hr. apply free_fd_fields in Hrf as (F1 & F2 & F3).
  set (s2 := upd_fd rd0 pipe_mark s0). assert (Hs2 : io_ok s2) by (by apply upd_ok).
  destruct (alloc_fd (fdt s2)) as [wr0|] eqn:Ew; [|done].
  apply find_fd in Ew as [[Hw3 Hw] Hwf]. rewrite (proj2 Hs2) in Hw. apply free_fd_fields in Hwf as (G1 & G2 & G3).
  assert (Hne : rd0 <> wr0).
  { intros ->. revert G3. unfold s2. rewrite fdt_upd, fd_at_alter by (done || by rewrite (proj2 Hs0)).
    by rewrite decide_True. }
  intros [= <- <- <-]. exists pno.
  assert (Hw' : fd_at (fdt s2) wr0 = fd_at (fdt s0) wr0).
  { unfold s2. rewrite fdt_upd, fd_at_alter by (done || by rewrite (proj2 Hs0)). by rewrite decide_False. }
  rewrite Hw' in *.
  set (s3 := upd_fd rd0 (pipe_end (Z.of_nat pno) 0) s2). assert (Hs3 : io_ok s3) by (by apply upd_ok).
  set (s4 := upd_fd wr0 (pipe_end (Z.of_nat pno) 1) s3). assert (Hs4 : io_ok s4) by (by apply upd_ok).
  match goal with |- piped _ _ _ _ ?t => set (s5 := t) end.
  assert (Hfd : forall x, fd_of x s5 = fd_of x s4) by done.
  split; try done.
  - cbn. by rewrite !length_alter.
  - rewrite Hfd. unfold s4, s3, s2. rewrite !fd_of_upd by (done || by apply upd_ok).
    rewrite decide_False, !decide_True by done. unfold fd_of. rewrite Nat2Z.id. done.
  - rewrite Hfd. unfold s4, s3, s2. rewrite !fd_of_upd by (done || by apply upd_ok).
    rewrite decide_True, !decide_False by done. unfold fd_of. rewrite Nat2Z.id. done.
  - exists (p_data p). split; [|by exists p]. unfold pipe_at. rewrite Nat2Z.id. cbn.
    rewrite !list_lookup_alter_eq, Hp. done.
Qed.

Lemma set_pipes_ok l s : io_ok s -> io_ok (set_pipes l s).
Proof. done. Qed.

Lemma fd_of_set_pipes l s x : fd_of x (set_pipes l s) = fd_of x s.
Proof. done. Qed.

Lemma close_pipe_spec s i :
  io_ok s -> (i < MAX_FDS)%nat ->
  fd_types (fd_of (Z.of_nat i) s) = FD_PIPE -> fd_flags (fd_of (Z.of_nat i) s) = 0 ->
  let s' := sys_close (Z.of_nat i) s in
  io_ok s' /\ io_pipes s' = drop_pipe (fd_of (Z.of_nat i) s) (io_pipes s) /\
  fd_types (fd_of (Z.of_nat i) s') = FD_VFS /\
  forall j, j <> i -> fd_of (Z.of_nat j) s' = fd_of (Z.of_nat j) s.
Proof.
  intros Hs Hi Ht Hf. unfold sys_close. rewrite (fd_good i Hi), Nat2Z.id. cbv zeta.
  rewrite (fd_of_upd s i _ i) by done. rewrite decide_True by done.
  cbn [fd_flags fd_types fd_pipe fd_flags_extra with_offset fds]. rewrite Hf, Ht.
  change (0 <? 0) with false. change (FD_PIPE =? FD_PIPE) with true.
  change (FD_PIPE =? FD_PTY) with false. cbv iota.
  split; [by auto using upd_ok, set_pipes_ok|]. split; [done|]. split.
  - rewrite fd_of_upd by auto using upd_ok, set_pipes_ok. by rewrite decide_True.
  - intros j Hj. rewrite fd_of_upd by auto using upd_ok, set_pipes_ok. rewrite decide_False by done.
    rewrite fd_of_set_pipes, !fd_of_upd by auto using upd_ok. by rewrite !decide_False by done.
Qed.

(** The writers that remain counted after the only write end is closed. *)
Lemma drop_writer f pno d l :
  fd_pipe f = Z.of_nat pno -> fd_flags_extra f = 1 -> (pno < length l)%nat ->
  pipe_at l (Z.of_nat pno) = PipeBuf 0 0 2 2 d ->
  exists w, drop_pipe f l !! pno = Some (PipeBuf 0 0 w 2 d) /\ w <> 0.
Proof.
  intros Hp He Hl Hat. unfold drop_pipe. rewrite Hp, He. unfold pipe_at in Hat. rewrite Nat2Z.id in *.
  destruct (lookup_lt_is_Some_2 l pno Hl) as [p Hpp]. rewrite Hpp in Hat. cbn in Hat. subst p.
  destruct (_ && _); [|by exists 2]. exists 1. by rewrite list_lookup_alter_eq, Hpp.
Qed.

(** A pipe never reports its end of file: after its only write end is
    closed the read end still finds a writer counted, and a read of the empty
    pipe waits for ever. *)
Theorem pipe_read_never_eof s rd wr s1 count :
  io_ok s -> sys_pipe s = (Some (rd, wr), s1) ->
  let s2 := sys_close (Z.of_nat wr) s1 in
  fd_types (fd_of (Z.of_nat wr) s2) = FD_VFS /\
  exists s3, sys_read (Z.of_nat rd) count s2 = (None, s3) /\
    io_pipes s3 = io_pipes s2 /\ fdt s3 = fdt s2.
Proof.
  intros Hs Hp s2. destruct (sys_pipe_spec s rd wr s1 Hs Hp) as [pno [Ok Rd Wr Ne Len Pno Fr Fw (d & Pp & _)]].
  destruct Fr as (R1 & R2 & R3 & R4 & R5). destruct Fw as (W1 & W2 & W3 & W4 & W5).
  destruct (close_pipe_spec s1 wr Ok Wr W1 W4) as (C1 & C2 & C3 & C4). fold s2 in C1, C2, C3, C4.
  split; [done|]. destruct (drop_writer _ pno d (io_pipes s1) W2 W3 ltac:(lia) Pp) as (w & Hw & Hw0).
  rewrite <-C2 in Hw. unfold sys_read. rewrite (fd_good rd Rd), (C4 rd Ne), R1, R2, R3.
  change (FD_PIPE =? FD_PIPE) with true. cbv iota zeta.
  assert (Hat : pipe_at (io_pipes s2) (Z.of_nat pno) = PipeBuf 0 0 w 2 d).
  { unfold pipe_at. by rewrite Nat2Z.id, Hw. }
  rewrite Hat. unfold pipe_read. cbn [p_head p_tail writer_count]. change (0 =? 0) with true. cbv iota.
  rewrite (proj2 (Z.eqb_neq w 0) Hw0). change (0 <=? -1) with false.
  change (Z.land 0 O_NONBLOCK =? 0) with true. cbv iota. eexists. split; [done|]. split; [|done].
  cbn [io_pipes set_pipes]. rewrite Nat2Z.id. by apply list_insert_id.
Qed.

(** C31. Bytes through a pipe: what is written to one end of a fresh pipe, up to
    4095 bytes, is what the other end reads, in order. *)
Theorem pipe_write_then_read s rd wr s1 buf count :
  io_ok s -> sys_pipe s = (Some (rd, wr), s1) ->
  Forall (fun p => length (p_data p) = Z.to_nat PIPE_BUF_SIZE) (io_pipes s) ->
  0 < Z.of_nat (length buf) < 2 ^ 32 -> 0 <= count < 2 ^ 32 ->
  let sent := take pipe_cap buf in
  exists s2, sys_write stale (Z.of_nat wr) buf s1 = Some (Z.of_nat (length sent), s2) /\
  exists s3, sys_read (Z.of_nat rd) count s2 =
      (Some (Z.of_nat (length (take (Z.to_nat count) sent)), take (Z.to_nat count) sent), s3).
Proof.
  intros Hs Hp Hdata Hbuf Hcount sent.
  destruct (sys_pipe_spec s rd wr s1 Hs Hp) as [pno [Ok Rd Wr Ne Len Pno Fr Fw (d & Pp & (p0 & Hp0 & ->))]].
  destruct Fr as (R1 & R2 & R3 & R4 & R5). destruct Fw as (W1 & W2 & W3 & W4 & W5).
  assert (Hd : length (p_data p0) = Z.to_nat PIPE_BUF_SIZE) by (by apply (Forall_lookup_1 _ _ _ _ Hdata Hp0)).
  set (p1 := PipeBuf 0 0 2 2 (p_data p0)) in *. assert (Hp1 : pipe_ok p1) by done.
  assert (Hc0 : pipe_content p1 = []) by done.
  unfold sys_write. rewrite (fd_good wr Wr), W1, W2, W3. change (FD_PIPE =? FD_PIPE) with true.
  change (1 =? 0) with false. cbv iota zeta. rewrite Pp.
  pose proof (pipe_write_ok buf p1 Hp1 ltac:(lia)) as Hw. destruct (pipe_write buf p1) as [n p2].
  rewrite Hc0 in Hw. destruct Hw as (Hwc & Hrc & Hok2 & Hcont & ->). cbn [length app] in Hcont, Hok2.
  rewrite Nat.sub_0_r in *. fold sent in Hcont |- *. rewrite (proj2 (Z.ltb_ge _ 0)) by lia.
  eexists. split; [done|]. rewrite Nat2Z.id. set (s2 := set_pipes _ s1).
  unfold sys_read. rewrite (fd_good rd Rd). change (fd_of (Z.of_nat rd) s2) with (fd_of (Z.of_nat rd) s1).
  rewrite R1, R2, R3. change (FD_PIPE =? FD_PIPE) with true. cbv iota zeta.
  assert (Hat : pipe_at (io_pipes s2) (Z.of_nat pno) = p2).
  { unfold pipe_at, s2. cbn [io_pipes set_pipes]. rewrite Nat2Z.id. by rewrite list_lookup_insert_eq by lia. }
  rewrite Hat. pose proof (pipe_read_ok count p2 Hok2 Hcount) as Hr. destruct (pipe_read count p2) as [[r bytes] p3].
  rewrite Hcont in Hr. destruct Hr as (_ & _ & _ & -> & _ & ->).
  assert (Hne : (length sent =? 0)%nat = false).
  { apply Nat.eqb_neq. unfold sent. rewrite length_take. unfold pipe_cap, PIPE_BUF_SIZE. lia. }
  rewrite Hne. rewrite (proj2 (Z.leb_le 0 _)) by lia. by eexists.
Qed.

(** [exit_task] leaves the pseudo-terminals' reference counts as they are. *)
Lemma exit_keeps_ptys s : io_ptys (exit_close_fds s) = io_ptys s.
Proof.
  unfold exit_close_fds. generalize (seq 0 MAX_FDS). intros l. revert s.
  induction l as [|i l IH]; intros s; [done|]. cbn [foldl]. rewrite IH. unfold exit_close_fd.
  by destruct (_ =? _).
Qed.

End props.

(** ** Witnesses *)

Section witnesses.
#[local] Existing Instance boot_heap.

Definition io_task : task_t :=
  Task 1 0 1 0 TASK_RUNNING TASK_RING3 0 0 0 0 0 0 (replicate 32 0) 0 false None 0
    (replicate MAX_FDS null_slot) 0.

(** One task on the file system with "/d" and "/d/f". *)
Definition io_boot : io (H := kheap) :=
  Io [io_task] 0 (replicate MAX_PIPES null_pipe) pty_init fs_df (Vfs ∅ 0 []).

Lemma io_boot_ok : io_ok io_boot.
Proof. split; vm_compute; reflexivity. Qed.

Lemma sys_open_clobbers_witness :
  exists s1 s2, sys_open (str "/d") 0 io_boot = (3, s1) /\ sys_open (str "/d/f") 0 s1 = (3, s2).
Proof.
  destruct (sys_open (str "/d") 0 io_boot) as [fd s1] eqn:E.
  assert (Hfd : fd = 3) by (apply (f_equal fst) in E; vm_compute in E; congruence). subst fd.
  destruct (sys_open_clobbers (str "/d") (str "/d/f") 0 3 1 2 io_boot s1) as (_ & s2 & H2 & _).
  - apply io_boot_ok.
  - vm_compute. reflexivity.
  - vm_compute. reflexivity.
  - exact E.
  - lia.
  - exists s1, s2. exact (conj eq_refl H2).
Defined.

Lemma pipe_read_never_eof_witness :
  exists s1 s3, sys_pipe io_boot = (Some (3%nat, 4%nat), s1) /\
    sys_read 3 10 (sys_close 4 s1) = (None, s3).
Proof.
  destruct (sys_pipe io_boot) as [r s1] eqn:E.
  assert (Hr : r = Some (3, 4)%nat) by (apply (f_equal fst) in E; vm_compute in E; congruence). subst r.
  destruct (pipe_read_never_eof io_boot 3 4 s1 10 io_boot_ok E) as (_ & s3 & H3 & _).
  exists s1, s3. exact (conj eq_refl H3).
Defined.

Lemma pipe_write_then_read_witness :
  exists s1 s2 s3, sys_pipe io_boot = (Some (3%nat, 4%nat), s1) /\
    sys_write zeros 4 (str "abc") s1 = Some (3, s2) /\ sys_read 3 2 s2 = (Some (2, str "ab"), s3).
Proof.
  destruct (sys_pipe io_boot) as [r s1] eqn:E.
  assert (Hr : r = Some (3, 4)%nat) by (apply (f_equal fst) in E; vm_compute in E; congruence). subst r.
  destruct (pipe_write_then_read zeros io_boot 3 4 s1 (str "abc") 2 io_boot_ok E) as (s2 & H2 & s3 & H3).
  - apply Forall_replicate. apply length_replicate.
  - cbn. lia.
  - lia.
  - exists s1, s2, s3. exact (conj eq_refl (conj H2 H3)).
Defined.

End witnesses.
