(* ===== verification/Mbuf.v ===== *)
(** The network buffers of src/kernel/net/mbuf.c, the byte-order macros of
    include/kernel/net/in.h and the Internet checksum of src/kernel/net/ip.c.

    An mbuf is a block of the kernel heap whose data lives in its own [m_dat]
    or in a 2048-byte cluster: [m_buf] is that storage, [m_data] the offset of
    the data in it (the pointer moves both ways as headers are added and
    taken off) and [m_len] the signed length the code keeps beside it.  A
    packet is a non-empty chain, its first mbuf and the ones behind [m_next];
    the functions hand packets on linearly, so a packet is a value. *)
From Stdlib Require Import ZArith Lia.
From stdpp Require Import base numbers list gmap.
From S2P Require Import Prelude HeapIface.

(** ** Byte order *)

Definition htons (n : Z) : Z :=
  Z.lor (Z.shiftr (Z.land (u16 n) 65280) 8) (Z.shiftl (Z.land (u16 n) 255) 8).
Definition ntohs (n : Z) : Z := htons n.
Definition htonl (n : Z) : Z :=
  Z.lor (Z.shiftr (Z.land (u32 n) 4278190080) 24)
    (Z.lor (Z.shiftr (Z.land (u32 n) 16711680) 8)
      (Z.lor (Z.shiftl (Z.land (u32 n) 65280) 8)
             (Z.shiftl (Z.land (u32 n) 255) 24))).
Definition ntohl (n : Z) : Z := htonl n.

(** Loading and storing a little-endian field of [w] bytes at an offset. *)
Definition ld (w off : nat) (b : list Z) : Z := le_val (slice off w b).
Definition st (w off : nat) (v : Z) (b : list Z) : list Z := splice off (le_bytes w v) b.

(** ** The aligned half of the heap's interface *)

Class AlignedHeap (H : Type) := {
  kmalloc_al : Z -> Z -> H -> option Z * H;   (* size, alignment *)
  kfree_al : Z -> H -> H;
}.

Definition MSIZE : Z := 256.
Definition MCLBYTES : Z := 2048.
Definition MLEN : Z := MSIZE - 72.
Definition MT_DATA : Z := 1.
Definition MT_HEADER : Z := 2.
Definition M_PKTHDR : Z := 1.
Definition M_EXT : Z := 4.

Section mbufs.
(** What [rcvif] points at is the client's. *)
Context {IF H : Type} `{KernelHeap H, !AlignedHeap H}.

Record mbuf := Mbuf {
  m_addr : Z;               (* the block of struct mbuf *)
  m_len : Z;
  m_type : Z;
  m_flags : Z;
  m_data : nat;             (* offset in m_buf *)
  rcvif : option IF;
  pkt_len : Z;              (* m_pkthdr.len *)
  ext_buf : option Z;       (* the cluster, None when the data is in m_dat *)
  m_buf : list Z;
}.

Definition pkt : Type := mbuf * list mbuf.

Definition set_m_buf (f : list Z -> list Z) (m : mbuf) : mbuf :=
  Mbuf (m_addr m) (m_len m) (m_type m) (m_flags m) (m_data m) (rcvif m) (pkt_len m)
    (ext_buf m) (f (m_buf m)).
(** [m->m_data = ..., m->m_len = ...] *)
Definition set_window (d : nat) (l : Z) (m : mbuf) : mbuf :=
  Mbuf (m_addr m) l (m_type m) (m_flags m) d (rcvif m) (pkt_len m) (ext_buf m) (m_buf m).
(** [m->m_data += n; m->m_len -= n] and back. *)
Definition m_pull (n : Z) (m : mbuf) : mbuf :=
  set_window (m_data m + Z.to_nat n) (m_len m - n) m.
Definition m_push (n : Z) (m : mbuf) : mbuf :=
  set_window (m_data m - Z.to_nat n) (m_len m + n) m.
(** A store, a load and a [memcpy] relative to [m_data]. *)
Definition m_st (w off : nat) (v : Z) (m : mbuf) : mbuf :=
  set_m_buf (st w (m_data m + off) v) m.
Definition m_ld (w off : nat) (m : mbuf) : Z := ld w (m_data m + off) (m_buf m).
Definition m_put (off : nat) (bs : list Z) (m : mbuf) : mbuf :=
  set_m_buf (splice (m_data m + off) bs) m.
Definition m_bytes (off len : nat) (m : mbuf) : list Z := slice (m_data m + off) len (m_buf m).

(** The bytes a fresh block holds: kmalloc does not clear it. *)
Variable stale : Z -> Z.

Definition m_dat (p : Z) : list Z :=
  (fun i => u8 (stale (p + 72 + Z.of_nat i))) <$> seq 0 (Z.to_nat MLEN).

Definition m_get (type : Z) (h : H) : option mbuf * H :=
  match kmalloc MSIZE h with
  | (None, h) => (None, h)
  | (Some p, h) => (Some (Mbuf p 0 type 0 0 None 0 None (m_dat p)), h)
  end.

Definition m_gethdr (type : Z) (h : H) : option mbuf * H :=
  match m_get type h with
  | (None, h) => (None, h)
  | (Some m, h) =>
      (Some (Mbuf (m_addr m) (m_len m) (m_type m) (Z.lor (m_flags m) M_PKTHDR) (m_data m)
               None 0 (ext_buf m) (m_buf m)), h)
  end.

Definition m_getcl (type : Z) (h : H) : option mbuf * H :=
  match m_get type h with
  | (None, h) => (None, h)
  | (Some m, h) =>
      match kmalloc_al MCLBYTES 16 h with
      | (None, h) => (None, kfree (m_addr m) h)
      | (Some cluster, h) =>
          (Some (Mbuf (m_addr m) (m_len m) (m_type m) (Z.lor (m_flags m) M_EXT) 0
                   (rcvif m) (pkt_len m) (Some cluster)
                   (replicate (Z.to_nat MCLBYTES) 0)), h)
      end
  end.

Definition m_free (m : mbuf) (h : H) : H :=
  let h := match ext_buf m with Some c => kfree_al c h | None => h end in
  kfree (m_addr m) h.

Fixpoint m_free_chain (ms : list mbuf) (h : H) : H :=
  match ms with
  | [] => h
  | m :: ms => m_free_chain ms (m_free m h)
  end.

Definition m_freem (p : pkt) (h : H) : H := m_free_chain (p.1 :: p.2) h.

(** The first loop of [m_copydata]: the mbuf that holds offset [off], and the
    offset inside it. *)
Fixpoint m_seek (off : Z) (ms : list mbuf) : option (Z * list mbuf) :=
  if 0 <? off then
    match ms with
    | [] => None
    | m :: ms' => if off <? m_len m then Some (off, ms) else m_seek (off - m_len m) ms'
    end
  else Some (off, ms).

(** The lengths of a chain are never negative, or the count would be. *)
Fixpoint m_gather (off len : Z) (ms : list mbuf) : list Z :=
  match ms with
  | [] => []
  | m :: ms =>
      if 0 <? len then
        let count := if m_len m - off <? len then m_len m - off else len in
        m_bytes (Z.to_nat off) (Z.to_nat count) m ++ m_gather 0 (len - count) ms
      else []
  end.

(** The bytes written to [cp]; fewer than [len] when the chain is shorter. *)
Definition m_copydata (p : pkt) (off len : Z) : list Z :=
  match m_seek off (p.1 :: p.2) with
  | None => []
  | Some (off, ms) => m_gather off len ms
  end.
End mbufs.

Arguments mbuf : clear implicits.
Arguments pkt : clear implicits.

(** ** The Internet checksum *)

(** The accumulation over byte pairs, on a uint32_t. *)
Fixpoint sum16 (sum : Z) (bs : list Z) : Z :=
  match bs with
  | a :: b :: bs => sum16 (u32 (sum + Z.lor (Z.shiftl a 8) b)) bs
  | [a] => u32 (sum + Z.shiftl a 8)
  | [] => sum
  end.

(** [while (sum >> 16) sum = (sum & 0xFFFF) + (sum >> 16);] *)
Fixpoint fold16 (fuel : nat) (sum : Z) : Z :=
  match fuel with
  | O => sum
  | S fuel =>
      if Z.shiftr sum 16 =? 0 then sum
      else fold16 fuel (Z.land sum 65535 + Z.shiftr sum 16)
  end.

Definition fold_fuel : nat := 3.

(** On the [length] bytes at [vdata]. *)
Definition ip_checksum (bs : list Z) : Z :=
  htons (Z.lnot (fold16 fold_fuel (sum16 0 bs))).
