(* ===== verification/Net.v ===== *)
(** The network stack of src/kernel/net: its state and the way down, from
    udp.c, socket.c and ip.c through arp.c and ethernet.c to the driver.

    An [ifnet] is passed as the value of the structure, because no function of
    the paths modelled here changes the fields the others read; only
    [lo_output] counts packets, in the list.  [wire] is the list of the frames
    the NIC was given, oldest first. *)
From Stdlib Require Import ZArith Lia.
From stdpp Require Import base numbers list gmap strings.
From S2P Require Import Prelude HeapIface Mbuf.

Definition IFF_UP : Z := 1.
Definition IFF_LOOPBACK : Z := 8.
Definition IFF_RUNNING : Z := 64.

(** The function [if_output] points at. *)
Inductive if_driver := lo0 | em0.

Record ifnet := Ifnet {
  if_xname : list Z;
  if_flags : Z;
  if_mtu : Z;
  if_ip : Z;                (* the addresses in network byte order *)
  if_netmask : Z;
  if_gateway : Z;
  if_dns : Z;
  if_dhcp : bool;
  if_hwaddr : list Z;
  if_ipackets : Z;
  if_opackets : Z;
  if_drv : if_driver;
}.

Abbreviation packet := (pkt ifnet).

Definition ETHER_HDR_LEN : Z := 14.
Definition ETHERTYPE_IP : Z := 2048.
Definition ETHERTYPE_ARP : Z := 2054.
Definition IPPROTO_ICMP : Z := 1.
Definition IPPROTO_TCP : Z := 6.
Definition IPPROTO_UDP : Z := 17.
Definition INADDR_BROADCAST : Z := 4294967295.
Definition ARPHRD_ETHER : Z := 1.
Definition ARPOP_REQUEST : Z := 1.
Definition ARPOP_REPLY : Z := 2.
(** [sizeof] of the packed headers. *)
Definition IP_SIZE : Z := 20.
Definition UDP_SIZE : Z := 8.
Definition TCP_SIZE : Z := 20.
Definition ARP_SIZE : Z := 28.

Definition ARP_CACHE_SIZE : nat := 16.
Definition ARP_PENDING_MAX : nat := 4.
Definition UDP_RX_SLOTS : nat := 32.

Record arp_entry := ArpEntry {
  arp_ip : Z; arp_mac : list Z; arp_valid : bool; arp_is_static : bool }.

Record arp_wait := ArpWait { wait_dst : Z; wait_m : packet }.

Record udp_slot := UdpSlot {
  us_port : Z; us_src_ip : Z; us_src_port : Z; us_data : list Z; us_used : bool }.

Record socket := Socket {
  so_addr : Z;                        (* the block of struct socket *)
  so_type : Z;
  so_state : Z;
  so_local_port : Z;                  (* network byte order, as the three below *)
  so_remote_port : Z;
  so_remote_addr : Z;
  so_rcv_buf : option Z;
  so_rcv : list Z;                    (* the first so_rcv_len bytes of the buffer *)
  so_rcv_total : Z;
  so_seq : Z;
  so_ack : Z;
  so_una : Z;
  so_closed : bool;
}.

Record net (H : Type) := Net {
  nheap : H;
  ifnet_list : list ifnet;            (* first the one attached last *)
  arp_cache : list arp_entry;
  arp_pending : list arp_wait;        (* its first arp_pending_count entries *)
  udp_rx : list udp_slot;
  udp_next_rx : nat;
  gr_last_reply : option (Z * Z * Z); (* source, id, sequence; None: not valid *)
  ip_id_counter : Z;
  udp_ip_id : Z;
  tcp_ip_id : Z;
  sockets : list (option socket);
  next_ephemeral : Z;
  nic_rx : list (list Z);             (* frames in the receive ring, oldest first *)
  wire : list (list Z);
}.
Arguments Net {H}. Arguments nheap {H}. Arguments ifnet_list {H}. Arguments arp_cache {H}.
Arguments arp_pending {H}. Arguments udp_rx {H}. Arguments udp_next_rx {H}.
Arguments gr_last_reply {H}. Arguments ip_id_counter {H}. Arguments udp_ip_id {H}.
Arguments tcp_ip_id {H}. Arguments sockets {H}. Arguments next_ephemeral {H}.
Arguments nic_rx {H}. Arguments wire {H}.

Section setters.
Context {H : Type}.

Definition set_nheap (h : H) (n : net H) : net H :=
  Net h (ifnet_list n) (arp_cache n) (arp_pending n) (udp_rx n) (udp_next_rx n)
    (gr_last_reply n) (ip_id_counter n) (udp_ip_id n) (tcp_ip_id n) (sockets n)
    (next_ephemeral n) (nic_rx n) (wire n).
Definition set_ifs (l : list ifnet) (n : net H) : net H :=
  Net (nheap n) l (arp_cache n) (arp_pending n) (udp_rx n) (udp_next_rx n)
    (gr_last_reply n) (ip_id_counter n) (udp_ip_id n) (tcp_ip_id n) (sockets n)
    (next_ephemeral n) (nic_rx n) (wire n).
Definition set_arp (c : list arp_entry) (p : list arp_wait) (n : net H) : net H :=
  Net (nheap n) (ifnet_list n) c p (udp_rx n) (udp_next_rx n)
    (gr_last_reply n) (ip_id_counter n) (udp_ip_id n) (tcp_ip_id n) (sockets n)
    (next_ephemeral n) (nic_rx n) (wire n).
Definition set_udp (r : list udp_slot) (k : nat) (n : net H) : net H :=
  Net (nheap n) (ifnet_list n) (arp_cache n) (arp_pending n) r k
    (gr_last_reply n) (ip_id_counter n) (udp_ip_id n) (tcp_ip_id n) (sockets n)
    (next_ephemeral n) (nic_rx n) (wire n).
Definition set_reply (r : option (Z * Z * Z)) (n : net H) : net H :=
  Net (nheap n) (ifnet_list n) (arp_cache n) (arp_pending n) (udp_rx n) (udp_next_rx n)
    r (ip_id_counter n) (udp_ip_id n) (tcp_ip_id n) (sockets n)
    (next_ephemeral n) (nic_rx n) (wire n).
Definition set_ids (i u t : Z) (n : net H) : net H :=
  Net (nheap n) (ifnet_list n) (arp_cache n) (arp_pending n) (udp_rx n) (udp_next_rx n)
    (gr_last_reply n) i u t (sockets n) (next_ephemeral n) (nic_rx n) (wire n).
Definition set_sockets (s : list (option socket)) (e : Z) (n : net H) : net H :=
  Net (nheap n) (ifnet_list n) (arp_cache n) (arp_pending n) (udp_rx n) (udp_next_rx n)
    (gr_last_reply n) (ip_id_counter n) (udp_ip_id n) (tcp_ip_id n) s e (nic_rx n) (wire n).
Definition send_frame (f : list Z) (n : net H) : net H :=
  Net (nheap n) (ifnet_list n) (arp_cache n) (arp_pending n) (udp_rx n) (udp_next_rx n)
    (gr_last_reply n) (ip_id_counter n) (udp_ip_id n) (tcp_ip_id n) (sockets n)
    (next_ephemeral n) (nic_rx n) (wire n ++ [f]).

Definition set_nic_rx (r : list (list Z)) (n : net H) : net H :=
  Net (nheap n) (ifnet_list n) (arp_cache n) (arp_pending n) (udp_rx n) (udp_next_rx n)
    (gr_last_reply n) (ip_id_counter n) (udp_ip_id n) (tcp_ip_id n) (sockets n)
    (next_ephemeral n) r (wire n).

(** The static variables when the kernel starts. *)
Definition net_boot (h : H) : net H :=
  Net h [] (replicate ARP_CACHE_SIZE (ArpEntry 0 (replicate 6 0) false false)) []
    (replicate UDP_RX_SLOTS (UdpSlot 0 0 0 [] false)) 0 None 0 0 0
    (replicate 32 None) 20000 [] [].
End setters.

Section out.
Context {H : Type} `{KernelHeap H, !AlignedHeap H}.
(** What fresh blocks hold, and the frames the NIC reports as sent before the
    driver stops waiting. *)
Variable stale : Z -> Z.
Variable nic_done : list Z -> bool.

Definition free_pkt (p : packet) (n : net H) : net H := set_nheap (m_freem p (nheap n)) n.

(** *** Interfaces (if.c, if_loop.c) *)

Definition if_attach (ifp : ifnet) (n : net H) : net H := set_ifs (ifp :: ifnet_list n) n.

(** The C compares the pointers; an interface is known by its name here. *)
Fixpoint unlink_if (name : list Z) (l : list ifnet) : list ifnet :=
  match l with
  | [] => []
  | i :: l => if decide (if_xname i = name) then l else i :: unlink_if name l
  end.

Definition if_detach (ifp : ifnet) (n : net H) : net H :=
  set_ifs (unlink_if (if_xname ifp) (ifnet_list n)) n.

Definition if_find (name : list Z) (n : net H) : option ifnet :=
  List.find (fun i => bool_decide (if_xname i = name)) (ifnet_list n).

Definition if_usable (i : ifnet) : bool :=
  negb (Z.land (if_flags i) IFF_RUNNING =? 0) && (Z.land (if_flags i) IFF_LOOPBACK =? 0).

Definition if_find_primary (n : net H) : option ifnet := List.find if_usable (ifnet_list n).

Definition if_list_head (n : net H) : option ifnet := head (ifnet_list n).

Definition lo_init (i : ifnet) : ifnet :=
  Ifnet (if_xname i) (Z.lor (if_flags i) IFF_RUNNING) (if_mtu i) (if_ip i) (if_netmask i)
    (if_gateway i) (if_dns i) (if_dhcp i) (if_hwaddr i) (if_ipackets i) (if_opackets i)
    (if_drv i).

Definition count_packet (i : ifnet) : ifnet :=
  Ifnet (if_xname i) (if_flags i) (if_mtu i) (if_ip i) (if_netmask i) (if_gateway i)
    (if_dns i) (if_dhcp i) (if_hwaddr i) (u64 (if_ipackets i + 1)) (u64 (if_opackets i + 1))
    (if_drv i).

(** The loopback drops what it is given. *)
Definition lo_output (ifp : ifnet) (p : packet) (n : net H) : Z * net H :=
  (0, free_pkt p (set_ifs ((fun i => if decide (if_xname i = if_xname ifp) then count_packet i
                                     else i) <$> ifnet_list n) n)).

Definition loopback_if : ifnet :=
  Ifnet (str "lo0") (Z.lor IFF_LOOPBACK IFF_UP) 16384 0 0 0 0 false (replicate 6 0) 0 0 lo0.

Definition loopback_init (n : net H) : net H := if_attach loopback_if n.

(** *** The driver's output (src/drivers/net/e1000.c)

    The transmit lock, the descriptor and the doorbell register hand the copy
    in the slot's bounce buffer to the NIC. *)

Definition chain_len (ms : list (mbuf ifnet)) : Z := foldr (fun m t => m_len m + t) 0 ms.

Definition e1000_output (p : packet) (n : net H) : Z * net H :=
  let total_len := chain_len (p.1 :: p.2) in
  if 2048 <? total_len then (-1, free_pkt p n) else
  let frame := m_copydata p 0 total_len in
  let n := send_frame frame n in
  if nic_done frame then (0, free_pkt p n) else (-1, free_pkt p n).

Definition if_output (ifp : ifnet) (p : packet) (n : net H) : Z * net H :=
  match if_drv ifp with
  | lo0 => lo_output ifp p n
  | em0 => e1000_output p n
  end.

(** *** Ethernet *)

Definition ether_output (ifp : ifnet) (p : packet) (dst : list Z) (type : Z) (n : net H)
    : Z * net H :=
  match m_get (IF := ifnet) stale MT_HEADER (nheap n) with
  | (None, h) => (-1, free_pkt p (set_nheap h n))
  | (Some m, h) =>
      let n := set_nheap h n in
      let m := set_window 0 ETHER_HDR_LEN m in
      let m := m_put 0 dst m in
      let m := m_put 6 (if_hwaddr ifp) m in
      let m := m_st 2 12 (htons type) m in
      (* m_get does not set M_PKTHDR, so the packet length is never updated *)
      if_output ifp (m, p.1 :: p.2) n
  end.

(** *** ARP *)

Definition bcast_mac : list Z := replicate 6 255.

(** [dst] and the addresses are in network byte order. *)
Definition arp_fill (op : Z) (sha spa tha tpa : list Z) (m : mbuf ifnet) : mbuf ifnet :=
  let m := m_st 2 0 (htons ARPHRD_ETHER) m in
  let m := m_st 2 2 (htons ETHERTYPE_IP) m in
  let m := m_st 1 4 6 m in
  let m := m_st 1 5 4 m in
  let m := m_st 2 6 (htons op) m in
  let m := m_put 8 sha m in
  let m := m_put 14 spa m in
  let m := m_put 18 tha m in
  m_put 24 tpa m.

Definition arp_hit (dst : Z) (c : list arp_entry) : option arp_entry :=
  List.find (fun e => arp_valid e && (arp_ip e =? dst)) c.

Definition subnet_bcast (ifp : ifnet) : Z :=
  Z.lor (Z.land (if_ip ifp) (if_netmask ifp)) (u32 (Z.lnot (if_netmask ifp))).

Definition arp_resolve (ifp : ifnet) (p : packet) (dst : Z) (n : net H) : Z * net H :=
  if dst =? htonl INADDR_BROADCAST then
    (0, (ether_output ifp p bcast_mac ETHERTYPE_IP n).2)
  else if negb (if_netmask ifp =? 0) && (dst =? subnet_bcast ifp) then
    (0, (ether_output ifp p bcast_mac ETHERTYPE_IP n).2)
  else if existsb (fun w => wait_dst w =? dst) (arp_pending n) then (-1, free_pkt p n)
  else
    match arp_hit dst (arp_cache n) with
    | Some e => (0, (ether_output ifp p (arp_mac e) ETHERTYPE_IP n).2)
    | None =>
        if (ARP_PENDING_MAX <=? length (arp_pending n))%nat then (-1, free_pkt p n) else
        let n := set_arp (arp_cache n) (arp_pending n ++ [ArpWait dst p]) n in
        match m_gethdr stale MT_DATA (nheap n) with
        | (None, h) => (-1, set_nheap h n)
        | (Some am, h) =>
            let n := set_nheap h n in
            let am := set_window (m_data am + 14) (m_len am) am in
            (* the memset leaves arp_tha zero *)
            let am := arp_fill ARPOP_REQUEST (if_hwaddr ifp) (le_bytes 4 (if_ip ifp))
                        (replicate 6 0) (le_bytes 4 dst) am in
            let am := set_window (m_data am) ARP_SIZE am in
            (0, (ether_output ifp (am, []) bcast_mac ETHERTYPE_ARP n).2)
        end
    end.

(** *** IP *)

(** The two nibbles of the first byte. *)
Definition set_ip_v (v : Z) (m : mbuf ifnet) : mbuf ifnet :=
  m_st 1 0 (Z.lor (Z.land (m_ld 1 0 m) 15) (Z.shiftl (Z.land v 15) 4)) m.
Definition set_ip_hl (v : Z) (m : mbuf ifnet) : mbuf ifnet :=
  m_st 1 0 (Z.lor (Z.land (m_ld 1 0 m) 240) (Z.land v 15)) m.
Definition ip_v (m : mbuf ifnet) : Z := Z.shiftr (m_ld 1 0 m) 4.
Definition ip_hl (m : mbuf ifnet) : Z := Z.land (m_ld 1 0 m) 15.

Definition next_hop (ifp : ifnet) (dst : Z) : Z :=
  if negb (if_netmask ifp =? 0) &&
     negb (Z.land dst (if_netmask ifp) =? Z.land (if_ip ifp) (if_netmask ifp))
  then if if_gateway ifp =? 0 then dst else if_gateway ifp
  else dst.

(** The header stores of [ip_output], up to the checksum. *)
Definition ip_header_out (id : Z) (m : mbuf ifnet) : mbuf ifnet :=
  let m := set_ip_hl 5 (set_ip_v 4 m) in
  let m := m_st 2 4 (htons id) m in
  let m := m_st 2 6 0 m in
  let m := if m_ld 1 8 m =? 0 then m_st 1 8 64 m else m in
  let m := m_st 2 10 0 m in
  m_st 2 10 (ip_checksum (m_bytes 0 20 m)) m.

Definition ip_output (p : packet) (ifp : option ifnet) (n : net H) : Z * net H :=
  let ifp := match ifp with Some i => Some i | None => if_find_primary n end in
  match ifp with
  | None => (-1, free_pkt p n)
  | Some ifp =>
      let m := ip_header_out (ip_id_counter n) p.1 in
      let n := set_ids (u16 (ip_id_counter n + 1)) (udp_ip_id n) (tcp_ip_id n) n in
      arp_resolve ifp (m, p.2) (next_hop ifp (m_ld 4 16 m)) n
  end.

(** *** UDP *)

(** The stores of [udp_output] into a fresh cluster: the payload, then the two
    headers in front of it. *)
Definition udp_fill (src_ip dst_ip dport sport datalen id : Z) (data : list Z)
    (m : mbuf ifnet) : mbuf ifnet :=
  let m := set_window 256 (m_len m) m in
  let m := if 0 <? datalen
           then set_window 256 datalen (m_put 0 (take (Z.to_nat datalen) data) m)
           else m in
  let m := m_push UDP_SIZE m in
  let m := m_put 0 (replicate 8 0) m in
  let m := m_st 2 0 (htons sport) m in
  let m := m_st 2 2 (htons dport) m in
  let m := m_st 2 4 (htons (datalen + UDP_SIZE)) m in
  let m := m_push IP_SIZE m in
  let m := m_put 0 (replicate 20 0) m in
  let m := set_ip_hl 5 (set_ip_v 4 m) in
  let m := m_st 1 9 IPPROTO_UDP m in
  let m := m_st 1 8 64 m in
  let m := m_st 2 4 (htons id) m in
  let m := m_st 2 2 (htons (m_len m)) m in
  let m := m_st 4 12 src_ip m in
  let m := m_st 4 16 dst_ip m in
  m_st 2 26 0 m.

Definition udp_output (dst_ip dport sport : Z) (data : list Z) (n : net H) : Z * net H :=
  match if_find_primary n with
  | None => (-1, n)
  | Some ifp =>
      let datalen := if 1472 <? Z.of_nat (length data) then 1472 else Z.of_nat (length data) in
      match m_getcl stale MT_DATA (nheap n) with
      | (None, h) => (-1, set_nheap h n)
      | (Some m, h) =>
          let m := udp_fill (if_ip ifp) dst_ip dport sport datalen (udp_ip_id n) data m in
          let n := set_ids (ip_id_counter n) (u16 (udp_ip_id n + 1)) (tcp_ip_id n)
                     (set_nheap h n) in
          ip_output (m, []) (Some ifp) n
      end
  end.

End out.
