(* ===== verification/NetIn.v ===== *)
(** The way up: from the receive ring of src/drivers/net/e1000.c through
    ethernet.c, arp.c and ip.c to icmp.c, udp.c and the TCP of socket.c, which
    answers with segments of its own ([tcp_send_packet]).

    A handler is [None] where the C reads or writes outside the buffer the
    packet lives in, or through a null pointer. *)
From Stdlib Require Import ZArith Lia.
From stdpp Require Import base numbers list gmap strings.
From S2P Require Import Prelude HeapIface Mbuf Net.

Definition ICMP_ECHOREPLY : Z := 0.
Definition ICMP_ECHO : Z := 8.

Definition MAX_SOCKETS : nat := 32.
Definition SOCK_RCVBUF : Z := 256 * 1024.
Definition MAX_TCP_PAYLOAD : Z := 1752.
Definition TCPS_CLOSED : Z := 0.
Definition TCPS_SYN_SENT : Z := 1.
Definition TCPS_ESTABLISHED : Z := 2.
Definition TH_FIN : Z := 1.
Definition TH_SYN : Z := 2.
Definition TH_RST : Z := 4.
Definition TH_PUSH : Z := 8.
Definition TH_ACK : Z := 16.

(** icmp.c has its own copy of the checksum. *)
Definition icmp_checksum (bs : list Z) : Z :=
  htons (Z.lnot (fold16 fold_fuel (sum16 0 bs))).

(** A read of [len] bytes at [m_data + off] stays in the packet's storage. *)
Definition in_buf (off len : Z) (m : mbuf ifnet) : bool :=
  (0 <=? len) && (Z.of_nat (m_data m) + off + len <=? Z.of_nat (length (m_buf m))).

Section input.
Context {H : Type} `{KernelHeap H, !AlignedHeap H}.
Variable stale : Z -> Z.
Variable nic_done : list Z -> bool.

(** *** ARP *)

Definition arp_find_or_alloc (ip : Z) (c : list arp_entry) : option nat :=
  match find_from (fun _ e => arp_valid e && (arp_ip e =? ip)) 0 c with
  | Some i => Some i
  | None => find_from (fun _ e => negb (arp_valid e)) 0 c
  end.

Definition arp_learn (ip : Z) (mac : list Z) (c : list arp_entry) : list arp_entry :=
  match arp_find_or_alloc ip c with
  | None => c
  | Some idx =>
      alter (fun e => if arp_is_static e then e else ArpEntry ip mac true (arp_is_static e)) idx c
  end.

(** The packets that waited for [ip] go out, in order. *)
Fixpoint arp_flush (ifp : ifnet) (ip : Z) (mac : list Z) (ws : list arp_wait) (n : net H)
    : net H :=
  match ws with
  | [] => n
  | w :: ws =>
      arp_flush ifp ip mac ws
        (if wait_dst w =? ip
         then (ether_output stale nic_done ifp (wait_m w) mac ETHERTYPE_IP n).2 else n)
  end.

Definition arp_foreach (n : net H) : list (nat * Z * list Z * bool) :=
  (fun ie => (ie.1, arp_ip ie.2, arp_mac ie.2, arp_is_static ie.2)) <$>
  filter (fun ie => arp_valid ie.2 = true) (imap pair (arp_cache n)).

(** [rcvif] is set by the driver; the null pointer is read otherwise. *)
Definition arp_input (p : packet) (n : net H) : option (net H) :=
  let m := p.1 in
  if u64 (m_len m) <? ARP_SIZE then Some (free_pkt p n) else
  match rcvif m with
  | None => None
  | Some ifp =>
      let op := ntohs (m_ld 2 6 m) in
      let sha := m_bytes 8 6 m in
      let spa := m_ld 4 14 m in
      let tpa := m_ld 4 24 m in
      if op =? ARPOP_REPLY then
        let n := set_arp (arp_learn spa sha (arp_cache n)) (arp_pending n) n in
        let n := arp_flush ifp spa sha (arp_pending n) n in
        let n := set_arp (arp_cache n)
                   (filter (fun w => wait_dst w <> spa) (arp_pending n)) n in
        Some (free_pkt p n)
      else if op =? ARPOP_REQUEST then
        let n := set_arp (arp_learn spa sha (arp_cache n)) (arp_pending n) n in
        if tpa =? if_ip ifp then
          match m_gethdr stale MT_DATA (nheap n) with
          | (None, h) => Some (free_pkt p (set_nheap h n))
          | (Some am, h) =>
              let n := set_nheap h n in
              let am := set_window (m_data am + 14) (m_len am) am in
              let am := arp_fill ARPOP_REPLY (if_hwaddr ifp) (le_bytes 4 (if_ip ifp))
                          sha (m_bytes 14 4 m) am in
              let am := set_window (m_data am) ARP_SIZE am in
              Some (free_pkt p (ether_output stale nic_done ifp (am, []) sha ETHERTYPE_ARP n).2)
          end
        else Some (free_pkt p n)
      else Some (free_pkt p n)
  end.

(** *** ICMP *)

Definition icmp_get_echo_reply (n : net H) : option (Z * Z * Z) * net H :=
  match gr_last_reply n with
  | Some r => (Some r, set_reply None n)
  | None => (None, n)
  end.

Definition icmp_input (p : packet) (off : Z) (n : net H) : option (net H) :=
  let m := p.1 in
  let ip := m_push off m in
  let icmplen := ntohs (m_ld 2 2 ip) - off in
  if m_ld 1 0 m =? ICMP_ECHO then
    (* icmplen is converted to size_t: a negative one is larger than any buffer *)
    if negb (in_buf 0 icmplen m) then None else
    let m := m_st 1 0 ICMP_ECHOREPLY m in
    let m := m_st 2 2 0 m in
    let m := m_st 2 2 (icmp_checksum (m_bytes 0 (Z.to_nat icmplen) m)) m in
    let ip := m_push off m in
    let src := m_ld 4 12 ip in
    let ip := m_st 4 12 (m_ld 4 16 ip) ip in
    let ip := m_st 4 16 src ip in
    Some (ip_output stale nic_done (ip, p.2) None n).2
  else if m_ld 1 0 m =? ICMP_ECHOREPLY then
    Some (free_pkt p (set_reply (Some (m_ld 4 12 ip, m_ld 2 4 m, m_ld 2 6 m)) n))
  else Some (free_pkt p n).

(** *** UDP *)

Definition udp_input (p : packet) (off : Z) (n : net H) : option (net H) :=
  let m := p.1 in
  let dport := ntohs (m_ld 2 2 m) in
  let sport := ntohs (m_ld 2 0 m) in
  let udp_len := ntohs (m_ld 2 4 m) in
  if udp_len <? UDP_SIZE then Some (free_pkt p n) else
  let payload_len := udp_len - UDP_SIZE in
  let ip := m_push off m in
  let i := udp_next_rx n in
  let len := if payload_len <? 1500 then payload_len else 1500 in
  if negb (in_buf UDP_SIZE len m) then None else
  let slot := UdpSlot dport (m_ld 4 12 ip) sport (m_bytes 8 (Z.to_nat len) m) true in
  Some (free_pkt p (set_udp (<[i := slot]> (udp_rx n)) ((i + 1) mod UDP_RX_SLOTS) n)).

(** The oldest slot of the port in index order; [len] is the caller's [*len]. *)
Definition udp_recv (port len : Z) (n : net H) : option (Z * Z * list Z) * net H :=
  match find_from (fun _ s => us_used s && (us_port s =? port)) 0 (udp_rx n) with
  | None => (None, n)
  | Some i =>
      match udp_rx n !! i with
      | None => (None, n)
      | Some s =>
          let have := Z.of_nat (length (us_data s)) in
          let copy := if have <? len then have else len in
          (Some (us_src_ip s, us_src_port s, take (Z.to_nat copy) (us_data s)),
           set_udp (<[i := UdpSlot 0 (us_src_ip s) (us_src_port s) (us_data s) false]> (udp_rx n))
             (udp_next_rx n) n)
      end
  end.

(** *** TCP *)

Definition tcp_checksum (ip : mbuf ifnet) (m : packet) (off : Z) : Z :=
  let tcp_len := u16 (ntohs (m_ld 2 2 ip) - Z.shiftl (ip_hl ip) 2) in
  let ph := m_bytes 12 4 ip ++ m_bytes 16 4 ip ++
            [0; IPPROTO_TCP; Z.land (Z.shiftr tcp_len 8) 255; Z.land tcp_len 255] in
  htons (Z.lnot (u16 (fold16 fold_fuel (sum16 0 (ph ++ m_copydata m off tcp_len))))).

Definition tcp_send_packet (so : socket) (flags : Z) (data : list Z) (n : net H) : Z * net H :=
  match m_getcl stale MT_DATA (nheap n) with
  | (None, h) => (-1, set_nheap h n)
  | (Some m, h) =>
      let n := set_nheap h n in
      let len := if MAX_TCP_PAYLOAD <? Z.of_nat (length data) then MAX_TCP_PAYLOAD
                 else Z.of_nat (length data) in
      let m := set_window 256 (m_len m) m in
      let m := if 0 <? len then set_window 256 len (m_put 0 (take (Z.to_nat len) data) m) else m in
      let m := m_push TCP_SIZE m in
      let m := m_put 0 (replicate 20 0) m in
      let m := m_st 2 0 (so_local_port so) m in
      let m := m_st 2 2 (so_remote_port so) m in
      let m := m_st 1 12 (Z.shiftl 5 4) m in
      let m := m_st 1 13 flags m in
      let m := m_st 4 4 (htonl (so_seq so)) m in
      let m := m_st 4 8 (htonl (so_ack so)) m in
      let free_win := u32 (SOCK_RCVBUF - Z.of_nat (length (so_rcv so))) in
      let free_win := if 65535 <? free_win then 65535 else free_win in
      let m := m_st 2 14 (htons free_win) m in
      let m := m_push IP_SIZE m in
      let m := m_put 0 (replicate 20 0) m in
      let m := set_ip_hl 5 (set_ip_v 4 m) in
      let m := m_st 1 8 64 m in
      let m := m_st 2 4 (htons (tcp_ip_id n)) m in
      let n := set_ids (ip_id_counter n) (udp_ip_id n) (u16 (tcp_ip_id n + 1)) n in
      let m := m_st 1 9 IPPROTO_TCP m in
      let m := m_st 2 2 (htons (m_len m)) m in
      let ifp := if_find_primary n in
      let src := match ifp with
                 | Some i => if if_ip i =? 0 then htonl 167772687 else if_ip i
                 | None => htonl 167772687
                 end in
      let m := m_st 4 12 src m in
      let m := m_st 4 16 (so_remote_addr so) m in
      let ack_val := htonl (so_ack so) in
      let m := m_st 1 28 (Z.land (Z.shiftr ack_val 24) 255) m in
      let m := m_st 1 29 (Z.land (Z.shiftr ack_val 16) 255) m in
      let m := m_st 1 30 (Z.land (Z.shiftr ack_val 8) 255) m in
      let m := m_st 1 31 (Z.land ack_val 255) m in
      let m := m_st 4 28 ack_val m in
      let m := m_st 2 36 0 m in
      let m := m_st 2 36 (tcp_checksum m (m, []) IP_SIZE) m in
      ip_output stale nic_done (m, []) ifp n
  end.

Definition set_so (state seq ack una : Z) (closed : bool) (so : socket) : socket :=
  Socket (so_addr so) (so_type so) state (so_local_port so) (so_remote_port so)
    (so_remote_addr so) (so_rcv_buf so) (so_rcv so) (so_rcv_total so) seq ack una closed.
Definition set_rcv (buf : option Z) (rcv : list Z) (total : Z) (so : socket) : socket :=
  Socket (so_addr so) (so_type so) (so_state so) (so_local_port so) (so_remote_port so)
    (so_remote_addr so) buf rcv total (so_seq so) (so_ack so) (so_una so) (so_closed so).

(** The append to the receive buffer, dropping the oldest bytes. *)
Definition rcv_append (data rcv : list Z) : list Z :=
  let len := Z.of_nat (length rcv) in
  let data_len := Z.of_nat (length data) in
  if len + data_len <=? SOCK_RCVBUF then rcv ++ data else
  let over := len + data_len - SOCK_RCVBUF in
  let rcv := if len <=? over then [] else drop (Z.to_nat over) rcv in
  let len := Z.of_nat (length rcv) in
  if SOCK_RCVBUF <? len + data_len then rcv ++ take (Z.to_nat (SOCK_RCVBUF - len)) data
  else rcv ++ data.

(** The handshake and the peer's acknowledgement. *)
Definition tcp_synack (m : mbuf ifnet) (so : socket) (n : net H) : socket * net H :=
  let flags := m_ld 1 13 m in
  let '(so, n) :=
    if negb (Z.land flags TH_SYN =? 0) && negb (Z.land flags TH_ACK =? 0) then
      if so_state so =? TCPS_SYN_SENT then
        let so := set_so TCPS_ESTABLISHED (ntohl (m_ld 4 8 m)) (u32 (ntohl (m_ld 4 4 m) + 1))
                    (ntohl (m_ld 4 8 m)) (so_closed so) so in
        (so, (tcp_send_packet so TH_ACK [] n).2)
      else if so_state so =? TCPS_ESTABLISHED then (so, (tcp_send_packet so TH_ACK [] n).2)
      else (so, n)
    else (so, n) in
  let rcv_ack := ntohl (m_ld 4 8 m) in
  (if so_una so <? rcv_ack
   then set_so (so_state so) (so_seq so) (so_ack so) rcv_ack (so_closed so) so else so, n).

(** The payload: the sequence number of the segment is not compared with the
    one expected. *)
Definition tcp_data (m : mbuf ifnet) (off : Z) (so : socket) (n : net H)
    : option (socket * net H) :=
  let ip := m_push off m in
  let th_off := Z.shiftl (Z.shiftr (m_ld 1 12 m) 4) 2 in
  let data_len := ntohs (m_ld 2 2 ip) - Z.shiftl (ip_hl ip) 2 - th_off in
  if (0 <? data_len) && (so_state so =? TCPS_ESTABLISHED) then
    let so := set_so (so_state so) (so_seq so) (u32 (ntohl (m_ld 4 4 m) + data_len)) (so_una so)
                (so_closed so) so in
    let '(so, h) :=
      match so_rcv_buf so with
      | Some _ => (so, nheap n)
      | None => let '(b, h) := kmalloc SOCK_RCVBUF (nheap n) in
                (set_rcv b [] (so_rcv_total so) so, h)
      end in
    let n := set_nheap h n in
    match so_rcv_buf so with
    | None => None
    | Some b =>
        if negb (in_buf th_off data_len m) then None else
        let data := m_bytes (Z.to_nat th_off) (Z.to_nat data_len) m in
        let so := set_rcv (Some b) (rcv_append data (so_rcv so))
                    (u64 (so_rcv_total so + data_len)) so in
        Some (so, (tcp_send_packet so TH_ACK [] n).2)
    end
  else Some (so, n).

Definition tcp_fin (m : mbuf ifnet) (so : socket) (n : net H) : socket * net H :=
  if negb (Z.land (m_ld 1 13 m) TH_FIN =? 0) then
    let so := set_so (so_state so) (so_seq so) (u32 (so_ack so + 1)) (so_una so)
                (so_closed so) so in
    let n := (tcp_send_packet so TH_ACK [] n).2 in
    (set_so (so_state so) (so_seq so) (so_ack so) (so_una so) true so, n)
  else (so, n).

Definition tcp_match (dport : Z) (_ : nat) (s : option socket) : bool :=
  match s with Some so => ntohs (so_local_port so) =? ntohs dport | None => false end.

Definition tcp_input (p : packet) (off : Z) (n : net H) : option (net H) :=
  let m := p.1 in
  match find_from (tcp_match (m_ld 2 2 m)) 0 (sockets n) with
  | None => Some (free_pkt p n)
  | Some i =>
      match sockets n !! i with
      | Some (Some so) =>
          let put so n := set_sockets (<[i := Some so]> (sockets n)) (next_ephemeral n) n in
          if negb (Z.land (m_ld 1 13 m) TH_RST =? 0) then
            Some (free_pkt p
              (put (set_so (so_state so) (so_seq so) (so_ack so) (so_una so) true so) n))
          else
            let '(so, n) := tcp_synack m so n in
            match tcp_data m off so n with
            | None => None
            | Some (so, n) =>
                let '(so, n) := tcp_fin m so n in
                Some (free_pkt p (put so n))
            end
      | _ => Some (free_pkt p n)
      end
  end.

(** *** IP and Ethernet *)

Definition ip_input (p : packet) (n : net H) : option (net H) :=
  let m := p.1 in
  if u64 (m_len m) <? IP_SIZE then Some (free_pkt p n) else
  if negb (ip_v m =? 4) then Some (free_pkt p n) else
  let hlen := Z.shiftl (ip_hl m) 2 in
  if hlen <? IP_SIZE then Some (free_pkt p n) else
  let proto := m_ld 1 9 m in
  let up := (m_pull hlen m, p.2) in
  if proto =? IPPROTO_TCP then tcp_input up hlen n
  else if proto =? IPPROTO_ICMP then icmp_input up hlen n
  else if proto =? IPPROTO_UDP then udp_input up hlen n
  else Some (free_pkt p n).

Definition ether_input (p : packet) (n : net H) : option (net H) :=
  let m := p.1 in
  if m_len m <? ETHER_HDR_LEN then Some (free_pkt p n) else
  let type := ntohs (m_ld 2 12 m) in
  let up := (m_pull ETHER_HDR_LEN m, p.2) in
  if type =? ETHERTYPE_IP then ip_input up n
  else if type =? ETHERTYPE_ARP then arp_input up n
  else Some (free_pkt up n).

(** *** The receive ring *)

(** One descriptor: the frame is copied to a new cluster and handed up; it is
    lost when there is no mbuf. *)
Definition e1000_rx (ifp : ifnet) (frame : list Z) (n : net H) : option (net H) :=
  match m_getcl (IF := ifnet) stale MT_DATA (nheap n) with
  | (None, h) => Some (set_nheap h n)
  | (Some m, h) =>
      let n := set_nheap h n in
      let len := Z.of_nat (length frame) in
      if MCLBYTES <? len then None else
      let m := m_put 0 frame m in
      let m := Mbuf (m_addr m) len (m_type m) (Z.lor (m_flags m) M_PKTHDR) (m_data m)
                 (Some ifp) len (ext_buf m) (m_buf m) in
      ether_input (m, []) n
  end.

(** At most 32 frames per poll. *)
Fixpoint e1000_loop (processed : nat) (ifp : ifnet) (n : net H) : option (net H) :=
  match processed with
  | O => Some n
  | S processed =>
      match nic_rx n with
      | [] => Some n
      | f :: fs =>
          match e1000_rx ifp f (set_nic_rx fs n) with
          | Some n => e1000_loop processed ifp n
          | None => None
          end
      end
  end.

Definition e1000_poll (ifp : ifnet) (n : net H) : option (net H) := e1000_loop 32 ifp n.

(** The drivers of the other two cards. *)
Variables virtio_net_poll pcnet_poll : ifnet -> net H -> option (net H).

Definition poll_if (ifp : ifnet) (n : net H) : option (net H) :=
  if Z.land (if_flags ifp) IFF_RUNNING =? 0 then Some n else
  let c0 := default 0 (if_xname ifp !! 0%nat) in
  let c1 := default 0 (if_xname ifp !! 1%nat) in
  if (c0 =? 101) && (c1 =? 109) then e1000_poll ifp n
  else if (c0 =? 118) && (c1 =? 110) then virtio_net_poll ifp n
  else if (c0 =? 112) && (c1 =? 110) then pcnet_poll ifp n
  else Some n.

Fixpoint poll_ifs (l : list ifnet) (n : net H) : option (net H) :=
  match l with
  | [] => Some n
  | i :: l => match poll_if i n with Some n => poll_ifs l n | None => None end
  end.

Definition net_poll (n : net H) : option (net H) := poll_ifs (ifnet_list n) n.

End input.
