(* ===== verification/NetSpec.v ===== *)
(** Lemmas on the network stack: byte order, the Internet checksum, copying
    out of a chain, and the headers the output functions write. *)
From Stdlib Require Import ZArith Lia.
From stdpp Require Import base numbers list gmap strings.
From S2P Require Import Prelude HeapIface Mbuf Net NetIn.

(** ** Byte order *)

Lemma htons_val n : htons n = (n mod 256) * 256 + (n / 256) mod 256.
Proof.
  unfold htons, wrap. change 65280 with (Z.shiftl (Z.ones 8) 8).
  change 255 with (Z.shiftl (Z.ones 8) 0). rewrite !land_field by lia.
  rewrite Z.shiftr_div_pow2, Z.shiftl_mul_pow2, Z.lor_comm, (lor_disjoint _ _ 8) by zify_div.
  zify_div.
Qed.

Lemma htons_bounds n : 0 <= htons n < 65536.
Proof. rewrite htons_val. zify_div. Qed.

Lemma ntohs_htons n : 0 <= n < 65536 -> ntohs (htons n) = n.
Proof. intros. unfold ntohs. rewrite !htons_val. zify_div. Qed.

Lemma htonl_val n :
  htonl n = (n mod 256) * 2 ^ 24 + (n / 2 ^ 8) mod 256 * 2 ^ 16 +
            (n / 2 ^ 16) mod 256 * 2 ^ 8 + (n / 2 ^ 24) mod 256.
Proof.
  unfold htonl, wrap. change 4278190080 with (Z.shiftl (Z.ones 8) 24).
  change 16711680 with (Z.shiftl (Z.ones 8) 16). change 65280 with (Z.shiftl (Z.ones 8) 8).
  change 255 with (Z.shiftl (Z.ones 8) 0). rewrite !land_field by lia.
  rewrite !Z.shiftr_div_pow2, !Z.shiftl_mul_pow2 by lia.
  set (b0 := (n mod 2 ^ 32 / 2 ^ 0) mod 2 ^ 8). set (b1 := (n mod 2 ^ 32 / 2 ^ 8) mod 2 ^ 8).
  set (b2 := (n mod 2 ^ 32 / 2 ^ 16) mod 2 ^ 8). set (b3 := (n mod 2 ^ 32 / 2 ^ 24) mod 2 ^ 8).
  assert (E0 : b0 = n mod 256) by (unfold b0; zify_div).
  assert (E1 : b1 = (n / 2 ^ 8) mod 256) by (unfold b1; zify_div).
  assert (E2 : b2 = (n / 2 ^ 16) mod 256) by (unfold b2; zify_div).
  assert (E3 : b3 = (n / 2 ^ 24) mod 256) by (unfold b3; zify_div).
  assert (0 <= b0 < 256 /\ 0 <= b1 < 256 /\ 0 <= b2 < 256 /\ 0 <= b3 < 256)
    by (unfold b0, b1, b2, b3; zify_div).
  rewrite <- E0, <- E1, <- E2, <- E3. clearbody b0 b1 b2 b3. clear E0 E1 E2 E3.
  replace (b3 * 2 ^ 24 / 2 ^ 24) with b3 by zify_div.
  replace (b2 * 2 ^ 16 / 2 ^ 8) with (b2 * 2 ^ 8) by zify_div.
  replace (b1 * 2 ^ 8 * 2 ^ 8) with (b1 * 2 ^ 16) by lia.
  replace (b0 * 2 ^ 0 * 2 ^ 24) with (b0 * 2 ^ 24) by lia.
  rewrite (Z.lor_comm (b1 * 2 ^ 16)), (lor_disjoint (b0 * 2 ^ 24) (b1 * 2 ^ 16) 24) by zify_div.
  rewrite (Z.lor_comm (b2 * 2 ^ 8)), (lor_disjoint _ (b2 * 2 ^ 8) 16) by zify_div.
  rewrite (Z.lor_comm b3), (lor_disjoint _ b3 8) by zify_div. lia.
Qed.

Lemma htonl_bounds n : 0 <= htonl n < 2 ^ 32.
Proof. rewrite htonl_val. zify_div. Qed.

Lemma ntohl_htonl n : 0 <= n < 2 ^ 32 -> ntohl (htonl n) = n.
Proof.
  intros. unfold ntohl. rewrite !htonl_val.
  set (b0 := n mod 256). set (b1 := (n / 2 ^ 8) mod 256).
  set (b2 := (n / 2 ^ 16) mod 256). set (b3 := (n / 2 ^ 24) mod 256).
  assert (n = b0 + b1 * 2 ^ 8 + b2 * 2 ^ 16 + b3 * 2 ^ 24)
    by (unfold b0, b1, b2, b3; zify_div).
  assert (0 <= b0 < 256 /\ 0 <= b1 < 256 /\ 0 <= b2 < 256 /\ 0 <= b3 < 256)
    by (unfold b0, b1, b2, b3; zify_div).
  clearbody b0 b1 b2 b3. subst n. zify_div.
Qed.

(** ** The Internet checksum *)

(** The sum the checksum folds, without the wrap-around. *)
Fixpoint words_sum (bs : list Z) : Z :=
  match bs with
  | a :: b :: bs => a * 256 + b + words_sum bs
  | [a] => a * 256
  | [] => 0
  end.

Lemma pair_ind {A} (P : list A -> Prop) :
  P [] -> (forall a, P [a]) -> (forall a b l, P l -> P (a :: b :: l)) -> forall l, P l.
Proof.
  intros H0 H1 H2. fix IH 1. intros [|a [|b l]]; [done|by apply H1|]. apply H2, IH.
Qed.

Lemma words_sum_bounds bs :
  Forall is_byte bs -> 0 <= words_sum bs <= 65535 * Z.of_nat (length bs).
Proof.
  unfold is_byte. induction bs as [|a|a b bs IH] using pair_ind.
  - simpl. lia.
  - rewrite Forall_singleton. simpl. lia.
  - rewrite !Forall_cons. intros (Ha & Hb & Hbs). specialize (IH Hbs).
    cbn [words_sum length]. lia.
Qed.

Lemma words_sum_app a b :
  Nat.Even (length a) -> words_sum (a ++ b) = words_sum a + words_sum b.
Proof.
  induction a as [|x|x y a IH] using pair_ind; intros He; [done|destruct He; simpl in *; lia|].
  cbn [app words_sum]. rewrite IH; [lia|]. destruct He as [k Hk]. exists (k - 1)%nat.
  simpl in Hk. lia.
Qed.

Lemma pair_val a b : is_byte a -> is_byte b -> Z.lor (Z.shiftl a 8) b = a * 256 + b.
Proof.
  unfold is_byte. intros. rewrite Z.shiftl_mul_pow2, (lor_disjoint _ _ 8) by zify_div. lia.
Qed.

Lemma sum16_val bs : forall sum,
  Forall is_byte bs -> 0 <= sum -> sum + words_sum bs < 2 ^ 32 ->
  sum16 sum bs = sum + words_sum bs.
Proof.
  induction bs as [|a|a b bs IH] using pair_ind; intros sum Hb Hs Hlt.
  - simpl. lia.
  - rewrite Forall_singleton in Hb. unfold is_byte in Hb. simpl in *.
    rewrite Z.shiftl_mul_pow2 by lia. apply wrap_small. lia.
  - rewrite !Forall_cons in Hb. destruct Hb as (Ha & Hb & Hbs).
    pose proof (words_sum_bounds bs Hbs). cbn [sum16 words_sum] in *.
    rewrite pair_val by done. unfold is_byte in Ha, Hb.
    rewrite (wrap_small 32) by lia. rewrite IH; [lia|done|lia|lia].
Qed.

(** Three rounds fold any 32-bit sum to 16 bits, without changing it modulo
    65535 and without losing a positive sum. *)
Lemma fold16_spec s :
  0 <= s < 2 ^ 32 ->
  0 <= fold16 fold_fuel s < 65536 /\ fold16 fold_fuel s mod 65535 = s mod 65535 /\
  (0 < s -> 0 < fold16 fold_fuel s).
Proof.
  assert (Hstep : forall v, 0 <= v ->
    Z.land v 65535 + Z.shiftr v 16 = v mod 65536 + v / 65536).
  { intros v Hv. change 65535 with (Z.ones 16). rewrite Z.land_ones, Z.shiftr_div_pow2 by lia.
    done. }
  intros Hs. unfold fold_fuel. cbn [fold16].
  destruct (Z.eqb_spec (Z.shiftr s 16) 0) as [E|E]; rewrite Z.shiftr_div_pow2 in E by lia.
  { split; [zify_div|]. done. }
  rewrite (Hstep s) by lia. set (t := s mod 65536 + s / 65536).
  assert (Ht : 0 < t < 131071 /\ t mod 65535 = s mod 65535) by (unfold t; zify_div).
  clearbody t. destruct Ht as (Ht & Hm).
  destruct (Z.eqb_spec (Z.shiftr t 16) 0) as [E2|E2]; rewrite Z.shiftr_div_pow2 in E2 by lia.
  { split; [zify_div|]. split; [done|lia]. }
  rewrite (Hstep t) by lia. set (u := t mod 65536 + t / 65536).
  assert (Hu : 0 < u < 65536 /\ u mod 65535 = t mod 65535) by (unfold u; zify_div).
  clearbody u. destruct Hu as (Hu & Hm2).
  rewrite (proj2 (Z.eqb_eq (Z.shiftr u 16) 0)) by (rewrite Z.shiftr_div_pow2; zify_div).
  split; [lia|]. split; [congruence|lia].
Qed.

Lemma u16_lnot r : 0 <= r < 65536 -> u16 (Z.lnot r) = 65535 - r.
Proof. intros. unfold wrap, Z.lnot. zify_div. Qed.

Lemma htons_u16 n : htons (u16 n) = htons n.
Proof. unfold htons. by rewrite wrap_idemp. Qed.

(** The two bytes of a stored 16-bit field in network order. *)
Lemma le_bytes_htons n : 0 <= n < 65536 -> le_bytes 2 (htons n) = [n / 256; n mod 256].
Proof.
  intros Hn. cbn [le_bytes]. rewrite htons_val. f_equal; [zify_div|].
  f_equal. zify_div.
Qed.

Lemma ntohs_be n : 0 <= n < 65536 -> ntohs (le_val [n / 256; n mod 256]) = n.
Proof. intros. rewrite <- le_bytes_htons, le_val_bytes_small; [by apply ntohs_htons|..]; [|done].
  apply htons_bounds. Qed.

Definition cksum_of (bs : list Z) : Z := 65535 - fold16 fold_fuel (words_sum bs).

(** Storing the checksum of the bytes with a zero field in that field makes
    the checksum of the whole zero, which is what a receiver tests. *)
Lemma checksum_fill pre post :
  Forall is_byte pre -> Forall is_byte post -> Nat.Even (length pre) ->
  Z.of_nat (length pre) + Z.of_nat (length post) < 65000 ->
  le_bytes 2 (ip_checksum (pre ++ [0; 0] ++ post)) =
    [cksum_of (pre ++ [0; 0] ++ post) / 256; cksum_of (pre ++ [0; 0] ++ post) mod 256] /\
  ip_checksum (pre ++ le_bytes 2 (ip_checksum (pre ++ [0; 0] ++ post)) ++ post) = 0.
Proof.
  intros Hpre Hpost He Hlen.
  assert (Hb : Forall is_byte (pre ++ [0; 0] ++ post)).
  { rewrite !Forall_app. split; [done|]. split; [|done].
    repeat constructor; unfold is_byte; lia. }
  pose proof (words_sum_bounds pre Hpre). pose proof (words_sum_bounds post Hpost).
  assert (HS : words_sum (pre ++ [0; 0] ++ post) = words_sum pre + words_sum post)
    by (rewrite words_sum_app by done; cbn [app words_sum]; lia).
  destruct (fold16_spec (words_sum (pre ++ [0; 0] ++ post))) as (Hr & Hm & Hp); [lia|].
  assert (E : le_bytes 2 (ip_checksum (pre ++ [0; 0] ++ post)) =
    [cksum_of (pre ++ [0; 0] ++ post) / 256; cksum_of (pre ++ [0; 0] ++ post) mod 256]).
  { unfold ip_checksum. rewrite sum16_val by (done || lia). rewrite Z.add_0_l.
    rewrite <- htons_u16, u16_lnot by done. apply le_bytes_htons. unfold cksum_of. lia. }
  split; [done|]. rewrite E. clear E. unfold cksum_of. rewrite HS in *.
  set (S := words_sum pre + words_sum post) in *. set (r := fold16 fold_fuel S) in *.
  assert (Hb2 : Forall is_byte (pre ++ [(65535 - r) / 256; (65535 - r) mod 256] ++ post)).
  { rewrite !Forall_app. split; [done|]. split; [|done].
    repeat constructor; unfold is_byte; zify_div. }
  assert (HS2 : words_sum (pre ++ [(65535 - r) / 256; (65535 - r) mod 256] ++ post) =
                S + (65535 - r)).
  { rewrite words_sum_app by done. cbn [app words_sum]. unfold S. zify_div. }
  unfold ip_checksum. rewrite sum16_val by (done || lia). rewrite HS2, Z.add_0_l.
  destruct (fold16_spec (S + (65535 - r))) as (Hr2 & Hm2 & Hp2); [lia|].
  assert (fold16 fold_fuel (S + (65535 - r)) = 65535) as ->.
  { assert (r <= S \/ S < r) as [|] by lia.
    - assert ((S + (65535 - r)) mod 65535 = 0).
      { replace (S + (65535 - r)) with (S - r + 1 * 65535) by lia.
        rewrite Z.mod_add, Zminus_mod, Hm, Z.sub_diag by lia. done. }
      rewrite H2 in Hm2. zify_div.
    - exfalso. destruct (decide (S = 0)) as [E|].
      + unfold r in *. rewrite E in *. change (fold16 fold_fuel 0) with 0 in *. lia.
      + assert (S < 65535) by lia. rewrite (Z.mod_small S) in Hm by lia. zify_div. }
  done.
Qed.

(** ** Copying out of a chain *)

(** The data of an mbuf lies in its storage. *)
Definition m_wf {IF} (m : mbuf IF) : Prop :=
  0 <= m_len m /\ (m_data m + Z.to_nat (m_len m) <= length (m_buf m))%nat.

Definition m_all {IF} (m : mbuf IF) : list Z := m_bytes 0 (Z.to_nat (m_len m)) m.

Definition chain_bytes {IF} (ms : list (mbuf IF)) : list Z := concat (m_all <$> ms).

Lemma length_m_all {IF} (m : mbuf IF) : m_wf m -> length (m_all m) = Z.to_nat (m_len m).
Proof. intros [? ?]. unfold m_all, m_bytes. apply length_slice. lia. Qed.

Lemma m_bytes_sub {IF} (m : mbuf IF) off n :
  m_wf m -> (off + n <= Z.to_nat (m_len m))%nat ->
  m_bytes off n m = take n (drop off (m_all m)).
Proof.
  intros [? ?] ?. unfold m_all, m_bytes, slice. 
  rewrite skipn_firstn_comm, take_take, drop_drop. f_equal; [lia|]. f_equal. lia.
Qed.

Lemma m_gather_spec {IF} (ms : list (mbuf IF)) : forall off len,
  Forall m_wf ms -> 0 <= off -> 0 <= len ->
  (off = 0 \/ exists m r, ms = m :: r /\ off < m_len m) ->
  m_gather off len ms = take (Z.to_nat len) (drop (Z.to_nat off) (chain_bytes ms)).
Proof.
  induction ms as [|m ms IH]; intros off len Hwf Hoff Hlen Hin; cbn [m_gather].
  { unfold chain_bytes. simpl. by rewrite drop_nil, take_nil. }
  apply Forall_cons in Hwf as [Hm Hwf]. pose proof Hm as [Hl _].
  pose proof (length_m_all m Hm) as Hall.
  assert (off <= m_len m) by (destruct Hin as [->|(? & ? & [= <- <-] & ?)]; lia).
  destruct (Z.ltb_spec 0 len) as [Hpos|]; [|by replace (Z.to_nat len) with 0%nat by lia].
  unfold chain_bytes. cbn [fmap list_fmap concat]. fold (chain_bytes ms).
  rewrite (drop_app_le (m_all m)) by lia.
  destruct (Z.ltb_spec (m_len m - off) len) as [Hlt|Hge].
  - rewrite m_bytes_sub, IH by (done || lia || by left). cbn [drop].
    rewrite take_app, (take_ge _ (Z.to_nat (m_len m - off))) by (rewrite length_drop; lia).
    rewrite (take_ge _ (Z.to_nat len)) by (rewrite length_drop; lia).
    f_equal. rewrite length_drop. change (Z.to_nat 0) with 0%nat. rewrite drop_0.
    unfold chain_bytes. f_equal. lia.
  - rewrite m_bytes_sub by (done || lia). rewrite take_app_le by (rewrite length_drop; lia).
    rewrite IH by (done || lia || by left).
    replace (Z.to_nat (len - len)) with 0%nat by lia. by rewrite take_0, app_nil_r.
Qed.

Lemma m_copydata_spec {IF} (p : pkt IF) off len :
  Forall m_wf (p.1 :: p.2) -> 0 <= off -> 0 <= len ->
  m_copydata p off len =
    take (Z.to_nat len) (drop (Z.to_nat off) (chain_bytes (p.1 :: p.2))).
Proof.
  destruct p as [m0 ms0]. unfold m_copydata. cbn [fst snd]. generalize (m0 :: ms0).
  clear. intros ms. revert off. induction ms as [|m ms IH]; intros off Hwf Hoff Hlen.
  { simpl. unfold chain_bytes. simpl. rewrite drop_nil, take_nil.
    destruct (0 <? off); [done|]. simpl. done. }
  cbn [m_seek]. pose proof Hwf as Hwf0. apply Forall_cons in Hwf as [Hm Hwf].
  destruct (Z.ltb_spec 0 off) as [Hpos|].
  - destruct (Z.ltb_spec off (m_len m)).
    + apply m_gather_spec; [done..|]. right. eauto.
    + destruct Hm as [Hl Hb]. rewrite IH by (done || lia).
      pose proof (length_m_all m (conj Hl Hb)).
      unfold chain_bytes. cbn [fmap list_fmap concat].
      rewrite (drop_app_ge (m_all m)) by lia. do 2 f_equal. lia.
  - apply m_gather_spec; [done..|]. left. lia.
Qed.

(** ** Building headers in front of a payload

    During the construction of a packet the buffer is [pre ++ win ++ post]
    with the headers in the window [win]: stores and loads act on the window. *)

Definition mk_at {IF} (m : mbuf IF) (d : nat) (l : Z) (buf : list Z) : mbuf IF :=
  set_m_buf (fun _ => buf) (set_window d l m).

Definition mk_win {IF} (m : mbuf IF) (d : nat) (l : Z) (pre win post : list Z) : mbuf IF :=
  mk_at m d l (pre ++ win ++ post).

Lemma mk_win_id {IF} (m : mbuf IF) pre win post :
  m_buf m = pre ++ win ++ post -> m = mk_win m (m_data m) (m_len m) pre win post.
Proof. destruct m. simpl. by intros ->. Qed.

Lemma splice_window k bs (pre win post : list Z) o :
  o = (length pre + k)%nat -> (k + length bs <= length win)%nat ->
  splice o bs (pre ++ win ++ post) = pre ++ splice k bs win ++ post.
Proof.
  intros -> Hk. unfold splice.
  rewrite take_app_add, drop_app_ge by lia. rewrite take_app_le by lia.
  replace (length pre + k + length bs - length pre)%nat with (k + length bs)%nat by lia.
  rewrite drop_app_le by lia. by rewrite <- !app_assoc.
Qed.

Lemma slice_window k n (pre win post : list Z) o :
  o = (length pre + k)%nat -> (k + n <= length win)%nat ->
  slice o n (pre ++ win ++ post) = slice k n win.
Proof.
  intros -> Hk. unfold slice. rewrite <- drop_drop, drop_app_length.
  rewrite drop_app_le by lia. rewrite take_app_le; [done|]. rewrite length_drop. lia.
Qed.

Section window.
Context {IF : Type} (m : mbuf IF) (d : nat) (l : Z) (pre win post : list Z).

Lemma m_st_at k w off v :
  (d + off = length pre + k)%nat -> (k + w <= length win)%nat ->
  m_st w off v (mk_win m d l pre win post) =
  mk_win m d l pre (take k win ++ le_bytes w v ++ drop (k + w) win) post.
Proof.
  intros Ho Hk. unfold m_st, st, mk_win, mk_at, set_m_buf, set_window. simpl. f_equal.
  rewrite (splice_window k); [|done|by rewrite length_le_bytes].
  unfold splice. by rewrite length_le_bytes.
Qed.

Lemma m_put_at k off bs :
  (d + off = length pre + k)%nat -> (k + length bs <= length win)%nat ->
  m_put off bs (mk_win m d l pre win post) =
  mk_win m d l pre (splice k bs win) post.
Proof.
  intros Ho Hk. unfold m_put, mk_win, mk_at, set_m_buf, set_window. simpl. f_equal.
  by apply splice_window.
Qed.

Lemma m_ld_at k w off :
  (d + off = length pre + k)%nat -> (k + w <= length win)%nat ->
  m_ld w off (mk_win m d l pre win post) = le_val (slice k w win).
Proof.
  intros Ho Hk. unfold m_ld, ld, mk_win, mk_at, set_m_buf, set_window. simpl. f_equal.
  by apply slice_window.
Qed.

Lemma m_bytes_at k n off :
  (d + off = length pre + k)%nat -> (k + n <= length win)%nat ->
  m_bytes off n (mk_win m d l pre win post) = slice k n win.
Proof.
  intros Ho Hk. unfold m_bytes, mk_win, mk_at, set_m_buf, set_window. simpl. by apply slice_window.
Qed.

Lemma m_push_at n :
  m_push n (mk_win m d l pre win post) = mk_win m (d - Z.to_nat n) (l + n) pre win post.
Proof. done. Qed.

Lemma m_pull_at n :
  m_pull n (mk_win m d l pre win post) = mk_win m (d + Z.to_nat n) (l - n) pre win post.
Proof. done. Qed.

Lemma m_bytes_post n off :
  (d + off = length pre + length win)%nat ->
  m_bytes off n (mk_win m d l pre win post) = take n post.
Proof.
  intros Ho. unfold m_bytes, mk_win, mk_at, set_m_buf, set_window, slice.
  cbn [m_buf m_data]. rewrite Ho, <- drop_drop. by rewrite !drop_app_length.
Qed.

Lemma m_len_win : m_len (mk_win m d l pre win post) = l.
Proof. done. Qed.
End window.

(** The IP header without options, its checksum field given. *)
Definition ip_hdr (len id ttl proto src dst : Z) (ck : list Z) : list Z :=
  [69; 0; len / 256; len mod 256; id / 256; id mod 256; 0; 0; ttl; proto] ++ ck ++
  le_bytes 4 src ++ le_bytes 4 dst.

Definition ip_hdr_full (len id ttl proto src dst : Z) : list Z :=
  ip_hdr len id ttl proto src dst
    (le_bytes 2 (ip_checksum (ip_hdr len id ttl proto src dst [0; 0]))).

Definition udp_hdr (sport dport len : Z) : list Z :=
  [sport / 256; sport mod 256; dport / 256; dport mod 256; len / 256; len mod 256; 0; 0].

(** One store, and the window computed after it. *)
Ltac net_st k :=
  rewrite (m_st_at _ _ _ _ _ _ k) by (rewrite ?length_replicate; cbn; lia);
  rewrite ?le_bytes_htons by lia; cbn [le_bytes splice slice take drop app length Nat.add].
Ltac net_put k :=
  rewrite (m_put_at _ _ _ _ _ _ k) by (rewrite ?length_replicate; cbn; lia);
  cbn [splice slice take drop app length Nat.add].

Lemma cluster_put (data : list Z) :
  (length data <= 1472)%nat ->
  splice 256 data (replicate 2048 0) =
  replicate 228 0 ++ replicate 28 0 ++ data ++ replicate (1792 - length data) 0.
Proof.
  intros Hl. unfold splice. rewrite take_replicate, drop_replicate.
  rewrite (app_assoc (replicate 228 0)), <- replicate_add.
  by do 3 f_equal.
Qed.

Lemma set_ip_at (m : mbuf ifnet) d l pre b win post :
  d = length pre -> b = 0 \/ b = 69 ->
  set_ip_hl 5 (set_ip_v 4 (mk_win m d l pre (b :: win) post)) =
  mk_win m d l pre (69 :: win) post.
Proof.
  intros Hd Hb. unfold set_ip_v.
  rewrite (m_ld_at _ _ _ _ _ _ 0) by (cbn; lia). rewrite (m_st_at _ _ _ _ _ _ 0) by (cbn; lia).
  cbn [slice take drop app le_bytes le_val Nat.add]. unfold set_ip_hl.
  rewrite (m_ld_at _ _ _ _ _ _ 0) by (cbn; lia). rewrite (m_st_at _ _ _ _ _ _ 0) by (cbn; lia).
  cbn [slice take drop app le_bytes le_val Nat.add]. by destruct Hb as [-> | ->].
Qed.

Lemma udp_fill_at (m : mbuf ifnet) src dst dport sport id data :
  m_len m = 0 -> m_buf m = replicate 2048 0 -> (length data <= 1472)%nat ->
  0 <= sport < 65536 -> 0 <= dport < 65536 -> 0 <= id < 65536 ->
  let len := Z.of_nat (length data) in
  udp_fill src dst dport sport len id data m =
  mk_win m 228 (28 + len) (replicate 228 0)
    (ip_hdr (28 + len) id 64 17 src dst [0; 0] ++ udp_hdr sport dport (8 + len))
    (data ++ replicate (1792 - length data) 0).
Proof.
  intros Hl0 Hb Hl Hs Hd Hi len. unfold udp_fill.
  assert (Hstart : (if 0 <? len
           then set_window 256 len (m_put 0 (take (Z.to_nat len) data) (set_window 256 (m_len m) m))
           else set_window 256 (m_len m) m) =
    mk_win m 256 len (replicate 228 0) (replicate 28 0) (data ++ replicate (1792 - length data) 0)).
  { unfold mk_win. rewrite <- cluster_put by done. unfold mk_at, m_put, set_m_buf, set_window, len.
    cbn [m_addr m_len m_type m_flags m_data rcvif pkt_len ext_buf m_buf].
    destruct (Z.ltb_spec 0 (Z.of_nat (length data))).
    - by rewrite Nat2Z.id, (take_ge data), Hb by lia.
    - destruct data; [|cbn [length] in *; lia]. by rewrite Hb, Hl0. }
  cbv zeta. rewrite Hstart. clear Hstart. rewrite m_push_at.
  change UDP_SIZE with 8. change IP_SIZE with 20.
  change (256 - Z.to_nat 8)%nat with 248%nat.
  change (replicate 28 0) with [0;0;0;0;0;0;0;0;0;0;0;0;0;0;0;0;0;0;0;0;0;0;0;0;0;0;0;0].
  assert (0 <= len <= 1472) by lia. clearbody len.
  change (replicate 8 0) with [0;0;0;0;0;0;0;0].
  net_put 20%nat. net_st 20%nat. net_st 22%nat. net_st 24%nat.
  rewrite m_push_at. change (248 - Z.to_nat 20)%nat with 228%nat.
  change (replicate 20 0) with [0;0;0;0;0;0;0;0;0;0;0;0;0;0;0;0;0;0;0;0].
  net_put 0%nat. rewrite set_ip_at by (rewrite ?length_replicate; auto).
  net_st 9%nat. net_st 8%nat. net_st 4%nat. rewrite m_len_win. net_st 2%nat.
  net_st 12%nat. net_st 16%nat. net_st 26%nat.
  unfold ip_hdr, udp_hdr. cbn [app le_bytes].
  replace (len + 8 + 20) with (28 + len) by lia. by replace (len + 8) with (8 + len) by lia.
Qed.

(** [ip_output] rewrites the identification and fills in the checksum of a
    header without options. *)
Lemma ip_header_out_at (m : mbuf ifnet) d l pre post len id0 id ttl proto src dst uh :
  d = length pre -> 0 <= id < 65536 -> 0 < ttl < 256 ->
  ip_header_out id
    (mk_win m d l pre (ip_hdr len id0 ttl proto src dst [0; 0] ++ uh) post) =
  mk_win m d l pre (ip_hdr_full len id ttl proto src dst ++ uh) post.
Proof.
  intros Hd Hid Ht. unfold ip_header_out. cbv zeta. unfold ip_hdr_full, ip_hdr. cbn [app le_bytes].
  rewrite set_ip_at by auto. net_st 4%nat. net_st 6%nat.
  rewrite (m_ld_at _ _ _ _ _ _ 8) by (cbn; lia). cbn [slice take drop le_val].
  rewrite (proj2 (Z.eqb_neq _ _)) by lia. net_st 10%nat.
  rewrite (m_bytes_at _ _ _ _ _ _ 0) by (cbn; lia).
  change (0 mod 256) with 0. change (0 / 256) with 0. change (0 mod 256) with 0.
  cbn [slice take drop].
  rewrite (m_st_at _ _ _ _ _ _ 10) by (cbn; lia). by cbn [take drop app Nat.add le_bytes].
Qed.

