(* ===== verification/NetWire.v ===== *)
(** What reaches the wire when a packet is sent and what a received frame
    changes: the frames of [ether_output] and [udp_output], and the handling of
    a datagram by [e1000_rx]. *)
From Stdlib Require Import ZArith Lia.
From stdpp Require Import base numbers list gmap strings.
From S2P Require Import Prelude HeapIface Kheap Mbuf Net NetIn NetSpec.

Lemma splice_app {A} (a bs r : list A) o :
  o = length a -> splice o bs (a ++ r) = a ++ bs ++ drop (length bs) r.
Proof.
  intros ->. unfold splice. rewrite take_app_length, drop_app_ge by lia. do 2 f_equal. f_equal. lia.
Qed.

Lemma chain_len_bytes (ms : list (mbuf ifnet)) :
  Forall m_wf ms -> chain_len ms = Z.of_nat (length (chain_bytes ms)).
Proof.
  induction 1 as [|m ms Hm _ IH]; [done|]. unfold chain_bytes in *.
  cbn [chain_len foldr fmap list_fmap concat]. fold (chain_len ms).
  rewrite length_app, length_m_all by done. destruct Hm. lia.
Qed.

Definition eth_hdr (dst src : list Z) (type : Z) : list Z :=
  dst ++ src ++ [type / 256; type mod 256].

Section sending.
Context {H : Type} `{KernelHeap H, !AlignedHeap H}.
Variables (stale : Z -> Z) (nic_done : list Z -> bool).

Lemma m_get_fresh type h m h' :
  m_get (IF := ifnet) stale type h = (Some m, h') ->
  m_len m = 0 /\ m_data m = 0%nat /\ length (m_buf m) = Z.to_nat MLEN.
Proof.
  unfold m_get. destruct (kmalloc MSIZE h) as [[p|] h1]; intros E; simplify_eq.
  cbn [m_len m_data m_buf]. unfold m_dat. rewrite length_fmap, length_seq. done.
Qed.

Lemma m_getcl_fresh type h m h' :
  m_getcl (IF := ifnet) stale type h = (Some m, h') ->
  m_len m = 0 /\ m_data m = 0%nat /\ m_buf m = replicate 2048 0.
Proof.
  unfold m_getcl. destruct (m_get stale type h) as [[m0|] h1] eqn:E0; [|done].
  apply m_get_fresh in E0 as (? & ? & ?).
  destruct (kmalloc_al MCLBYTES 16 h1) as [[c|] h2]; intros E; by simplify_eq.
Qed.

(** What reaches the wire when the header mbuf can be allocated. *)
Lemma ether_output_em0 ifp p dst type mh h (n : net H) :
  if_drv ifp = em0 -> Forall m_wf (p.1 :: p.2) ->
  14 + Z.of_nat (length (chain_bytes (p.1 :: p.2))) <= 2048 ->
  length dst = 6%nat -> length (if_hwaddr ifp) = 6%nat -> 0 <= type < 65536 ->
  m_get (IF := ifnet) stale MT_HEADER (nheap n) = (Some mh, h) ->
  exists h', (ether_output stale nic_done ifp p dst type n).2 =
    set_nheap h' (send_frame
      (eth_hdr dst (if_hwaddr ifp) type ++ chain_bytes (p.1 :: p.2)) n).
Proof.
  intros Hd Hwf Hlen Hdst Hsrc Ht Hg. unfold ether_output. rewrite Hg. cbv zeta.
  destruct (m_get_fresh _ _ _ _ Hg) as (_ & _ & Hb).
  set (m := m_st 2 12 _ _).
  assert (Hm : m_wf m /\ m_all m = eth_hdr dst (if_hwaddr ifp) type).
  { change (Z.to_nat MLEN) with 184%nat in Hb.
    assert (E : m_buf m = eth_hdr dst (if_hwaddr ifp) type ++ drop 14 (m_buf mh)).
    { unfold m, m_st, m_put, st, set_m_buf, set_window.
      cbn [m_addr m_len m_type m_flags m_data rcvif pkt_len ext_buf m_buf Nat.add].
      pose proof (splice_app [] dst (m_buf mh) 0 eq_refl) as E0. cbn [app] in E0.
      rewrite E0, (splice_app dst) by done.
      rewrite (app_assoc dst), splice_app by (rewrite length_app; lia).
      rewrite le_bytes_htons by done. unfold eth_hdr. rewrite <- !app_assoc.
      cbn [app length]. rewrite !drop_drop, Hdst, Hsrc. done. }
    assert (length (eth_hdr dst (if_hwaddr ifp) type) = 14%nat)
      by (unfold eth_hdr; rewrite !length_app; cbn [length]; lia).
    split.
    - split; [done|]. rewrite E, length_app, length_drop. change (m_data m) with 0%nat.
      change (Z.to_nat (m_len m)) with 14%nat. lia.
    - unfold m_all, m_bytes. rewrite E. change (m_data m + 0)%nat with 0%nat.
      change (Z.to_nat (m_len m)) with 14%nat. unfold slice. rewrite drop_0.
      by rewrite take_app_length'. }
  destruct Hm as [Hmwf Hall]. clearbody m.
  unfold if_output. rewrite Hd. unfold e1000_output. cbn [fst snd].
  assert (Hw : Forall m_wf (m :: p.1 :: p.2)) by by constructor.
  pose proof (chain_len_bytes _ Hw) as Hc.
  assert (HB : chain_bytes (m :: p.1 :: p.2) =
               eth_hdr dst (if_hwaddr ifp) type ++ chain_bytes (p.1 :: p.2))
    by (unfold chain_bytes; cbn [fmap list_fmap concat]; by rewrite Hall).
  rewrite HB in Hc. assert (Hl14 : length (eth_hdr dst (if_hwaddr ifp) type) = 14%nat)
      by (unfold eth_hdr; rewrite !length_app; cbn [length]; lia).
  rewrite length_app, Hl14 in Hc. rewrite (proj2 (Z.ltb_ge 2048 _)) by lia.
  rewrite m_copydata_spec by (done || lia). cbn [fst snd].
  rewrite HB, Hc, Nat2Z.id. change (Z.to_nat 0) with 0%nat. rewrite drop_0.
  rewrite take_ge by (rewrite length_app; lia).
  destruct (nic_done _); eexists; reflexivity.
Qed.

(** *** Receiving a datagram *)

Definition udp_frame (dst src : list Z) (id sip dip sport dport : Z) (data : list Z) : list Z :=
  let len := Z.of_nat (length data) in
  eth_hdr dst src ETHERTYPE_IP ++
  (ip_hdr_full (28 + len) id 64 IPPROTO_UDP sip dip ++ udp_hdr sport dport (8 + len)) ++ data.

(** The slot a datagram is stored in. *)
Definition udp_store (n : net H) (s : udp_slot) : net H :=
  set_udp (<[udp_next_rx n := s]> (udp_rx n)) ((udp_next_rx n + 1) mod UDP_RX_SLOTS) n.

Lemma e1000_rx_udp ifp dst src id sip dip sport dport data mb h (n : net H) :
  length dst = 6%nat -> length src = 6%nat -> (length data <= 1472)%nat ->
  0 <= sip < 2 ^ 32 -> 0 <= sport < 65536 -> 0 <= dport < 65536 ->
  m_getcl (IF := ifnet) stale MT_DATA (nheap n) = (Some mb, h) ->
  exists h', e1000_rx stale nic_done ifp (udp_frame dst src id sip dip sport dport data) n =
    Some (set_nheap h' (udp_store n (UdpSlot dport sip sport data true))).
Proof.
  intros Hd Hs Hl Hsip Hsp Hdp Hg. unfold e1000_rx. rewrite Hg. cbv zeta.
  destruct (m_getcl_fresh _ _ _ _ Hg) as (_ & Hd0 & Hb).
  set (len := Z.of_nat (length data)).
  set (ck := le_bytes 2 (ip_checksum (ip_hdr (28 + len) id 64 17 sip dip [0; 0]))).
  assert (Hf : udp_frame dst src id sip dip sport dport data =
    (dst ++ src) ++ ([8; 0] ++ ip_hdr (28 + len) id 64 17 sip dip ck ++
                     udp_hdr sport dport (8 + len)) ++ data).
  { unfold udp_frame, eth_hdr. rewrite <- !app_assoc. done. }
  assert (Hln : length (udp_frame dst src id sip dip sport dport data) = (42 + length data)%nat).
  { rewrite Hf, !length_app. unfold ck. cbn [length ip_hdr udp_hdr app le_bytes]. lia. }
  assert (Hlen : Z.of_nat (length (udp_frame dst src id sip dip sport dport data)) = 42 + len)
    by (unfold len; lia).
  rewrite Hlen. rewrite (proj2 (Z.ltb_ge MCLBYTES _)) by (unfold MCLBYTES; lia).

  set (m1 := Mbuf _ _ _ _ _ _ _ _ _).
  assert (Hb1 : m_buf m1 = (dst ++ src) ++ ([8; 0] ++ ip_hdr (28 + len) id 64 17 sip dip ck ++
                     udp_hdr sport dport (8 + len)) ++ (data ++ replicate (2006 - length data) 0)).
  { unfold m1. cbn [m_buf]. unfold m_put, set_m_buf. cbn [m_buf]. rewrite Hd0, Hb. cbn [Nat.add].
    pose proof (splice_app [] (udp_frame dst src id sip dip sport dport data)
                  (replicate 2048 0) 0 eq_refl) as E0. cbn [app] in E0. rewrite E0, Hln, Hf.
    rewrite drop_replicate, <- !app_assoc. done. }
  rewrite (mk_win_id m1 _ _ _ Hb1). change (m_len m1) with (42 + len).
  assert (Hd1 : m_data m1 = 0%nat) by done. rewrite Hd1. clear Hb1 Hd1. clearbody m1.
  assert (Hlb : 0 <= len <= 1472) by lia.
  unfold ck, ip_hdr, udp_hdr. set (c := ip_checksum _). cbn [app le_bytes].
  unfold ether_input. cbn [fst snd]. rewrite m_len_win.
  rewrite (proj2 (Z.ltb_ge (42 + len) _)) by (unfold ETHER_HDR_LEN; lia).
  rewrite (m_ld_at _ _ _ _ _ _ 0) by (rewrite ?length_app; cbn; lia).
  cbn [slice take drop]. change (ntohs (le_val [8; 0]) =? ETHERTYPE_IP) with true.
  rewrite m_pull_at. change (0 + Z.to_nat ETHER_HDR_LEN)%nat with 14%nat.
  change ETHER_HDR_LEN with 14.
  unfold ip_input. cbn [fst snd]. rewrite m_len_win, (wrap_small 64) by lia.
  rewrite (proj2 (Z.ltb_ge (42 + len - 14) _)) by (unfold IP_SIZE; lia).
  unfold ip_v, ip_hl. rewrite !(m_ld_at _ _ _ _ _ _ 2 1 0) by (rewrite ?length_app; cbn; lia).
  rewrite !(m_ld_at _ _ _ _ _ _ 11 1 9) by (rewrite ?length_app; cbn; lia).
  cbn [slice take drop]. change (negb (Z.shiftr (le_val [69]) 4 =? 4)) with false.
  change (Z.shiftl (Z.land (le_val [69]) 15) 2) with 20. change (20 <? IP_SIZE) with false.
  change (le_val [17] =? IPPROTO_TCP) with false. change (le_val [17] =? IPPROTO_ICMP) with false.
  change (le_val [17] =? IPPROTO_UDP) with true. cbv iota.
  rewrite m_pull_at. change (14 + Z.to_nat 20)%nat with 34%nat.
  unfold udp_input. cbn [fst snd]. cbv zeta.
  rewrite (m_ld_at _ _ _ _ _ _ 24 2 2) by (rewrite ?length_app; cbn; lia).
  rewrite (m_ld_at _ _ _ _ _ _ 22 2 0) by (rewrite ?length_app; cbn; lia).
  rewrite (m_ld_at _ _ _ _ _ _ 26 2 4) by (rewrite ?length_app; cbn; lia).
  rewrite m_push_at. change (34 - Z.to_nat 20)%nat with 14%nat.
  rewrite (m_ld_at _ _ _ _ _ _ 14) by (rewrite ?length_app; cbn; lia).
  cbn [slice take drop]. rewrite !ntohs_be by lia.
  rewrite (proj2 (Z.ltb_ge (8 + len) _)) by (unfold UDP_SIZE; lia).
  replace (8 + len - UDP_SIZE) with len by (unfold UDP_SIZE; lia).
  rewrite (proj2 (Z.ltb_lt len 1500)) by lia.
  assert (Hin : forall l w, length w = 30%nat ->
    in_buf UDP_SIZE len (mk_win m1 34 l (dst ++ src) w (data ++ replicate (2006 - length data) 0))
      = true).
  { intros l w Hw. unfold in_buf, mk_win, mk_at, set_m_buf, set_window, UDP_SIZE.
    cbn [m_data m_buf]. rewrite !length_app, length_replicate, Hw.
    apply andb_true_iff. unfold len. split; apply Z.leb_le; lia. }
  rewrite Hin by done. cbn [negb].
  rewrite (m_bytes_post) by (rewrite ?length_app; cbn; lia).
  replace (Z.to_nat len) with (length data) by (unfold len; lia). rewrite take_app_length.
  change [sip mod 256; (sip / 256) mod 256; ((sip / 256) / 256) mod 256;
          (((sip / 256) / 256) / 256) mod 256] with (le_bytes 4 sip).
  rewrite le_val_bytes_small by lia.
  eexists. reflexivity.
Qed.

(** *** Sending a datagram to a host whose address is resolved *)

(** [ifp] is the interface in use and [mac] the hardware address the cache
    has for the next hop towards [dst]. *)
Record routed (n : net H) (ifp : ifnet) (dst : Z) (mac : list Z) : Prop := {
  r_if : if_find_primary n = Some ifp;
  r_drv : if_drv ifp = em0;
  r_hw : length (if_hwaddr ifp) = 6%nat;
  r_ip : 0 <= if_ip ifp < 2 ^ 32;
  r_dst : 0 <= dst < 2 ^ 32;
  r_ids : 0 <= ip_id_counter n < 65536 /\ 0 <= udp_ip_id n < 65536;
  r_bcast : next_hop ifp dst <> htonl INADDR_BROADCAST;
  r_subnet : if_netmask ifp = 0 \/ next_hop ifp dst <> subnet_bcast ifp;
  r_idle : Forall (fun w => wait_dst w <> next_hop ifp dst) (arp_pending n);
  r_mac : arp_mac <$> arp_hit (next_hop ifp dst) (arp_cache n) = Some mac;
  r_mac6 : length mac = 6%nat;
}.

Lemma existsb_idle ip (ws : list arp_wait) :
  Forall (fun w => wait_dst w <> ip) ws -> existsb (fun w => wait_dst w =? ip) ws = false.
Proof.
  induction 1 as [|w ws Hw _ IH]; [done|]. cbn [existsb].
  by rewrite (proj2 (Z.eqb_neq _ _) Hw), IH.
Qed.

Lemma arp_resolve_hit ifp p dst mac (n : net H) :
  dst <> htonl INADDR_BROADCAST -> if_netmask ifp = 0 \/ dst <> subnet_bcast ifp ->
  Forall (fun w => wait_dst w <> dst) (arp_pending n) ->
  arp_mac <$> arp_hit dst (arp_cache n) = Some mac ->
  arp_resolve stale nic_done ifp p dst n =
    (0, (ether_output stale nic_done ifp p mac ETHERTYPE_IP n).2).
Proof.
  intros Hb Hs Hw Hh. unfold arp_resolve. rewrite (proj2 (Z.eqb_neq _ _) Hb).
  rewrite existsb_idle by done.
  destruct (arp_hit dst (arp_cache n)) as [e|]; [|done]. cbn in Hh. simplify_eq.
  destruct Hs as [Hs|Hs]; [by rewrite Hs|].
  by rewrite (proj2 (Z.eqb_neq _ _) Hs), andb_false_r.
Qed.

Lemma udp_output_sent n ifp dst mac dport sport data m h1 mh h2 :
  routed n ifp dst mac -> (length data <= 1472)%nat ->
  0 <= sport < 65536 -> 0 <= dport < 65536 ->
  m_getcl (IF := ifnet) stale MT_DATA (nheap n) = (Some m, h1) ->
  m_get (IF := ifnet) stale MT_HEADER h1 = (Some mh, h2) ->
  exists h', udp_output stale nic_done dst dport sport data n =
    (0, set_nheap h' (send_frame
          (udp_frame mac (if_hwaddr ifp) (ip_id_counter n) (if_ip ifp) dst sport dport data)
          (set_ids (u16 (ip_id_counter n + 1)) (u16 (udp_ip_id n + 1)) (tcp_ip_id n) n))).
Proof.
  intros [Hif Hdrv Hhw Hip Hdst [Hid Hud] Hb Hs Hw Hm Hm6] Hl Hsp Hdp Hg Hh.
  destruct (m_getcl_fresh _ _ _ _ Hg) as (Hl0 & _ & Hbuf).
  unfold udp_output. rewrite Hif, Hg. cbv zeta.
  rewrite (proj2 (Z.ltb_ge 1472 _)) by lia.
  rewrite (udp_fill_at m) by done. unfold ip_output. cbn [fst snd].
  cbn [ip_id_counter udp_ip_id tcp_ip_id set_ids set_nheap].
  rewrite ip_header_out_at by (rewrite ?length_replicate; lia || done).
  set (len := Z.of_nat (length data)).
  assert (Hld : forall l post, m_ld 4 16 (mk_win m 228 l (replicate 228 0)
      (ip_hdr_full (28 + len) (ip_id_counter n) 64 17 (if_ip ifp) dst ++
       udp_hdr sport dport (8 + len)) post) = dst).
  { intros l post. rewrite (m_ld_at _ _ _ _ _ _ 16) by (rewrite ?length_replicate; cbn; lia).
    change (slice 16 4 _) with (le_bytes 4 dst). apply le_val_bytes_small. lia. }
  rewrite Hld, (arp_resolve_hit ifp _ _ mac) by done.
  set (p := (mk_win _ _ _ _ _ _, [])).
  assert (Hall : m_wf p.1 /\ m_all p.1 =
    ip_hdr_full (28 + len) (ip_id_counter n) 64 17 (if_ip ifp) dst ++
    udp_hdr sport dport (8 + len) ++ data).
  { cbn [p fst]. unfold p.  unfold mk_win, mk_at, set_m_buf, set_window, m_wf, m_all, m_bytes.
    cbn [fst m_len m_data m_buf]. set (w := ip_hdr_full _ _ _ _ _ _ ++ _).
    assert (Hw28 : length w = 28%nat) by done.
    split.
    - split; [lia|]. rewrite !length_app, !length_replicate, Hw28. lia.
    - unfold slice. rewrite Nat.add_0_r, drop_app_length' by (by rewrite length_replicate).
      rewrite app_assoc. replace (Z.to_nat (28 + len)) with (length (w ++ data))
        by (rewrite length_app, Hw28; unfold len; lia).
      rewrite app_assoc, take_app_length. unfold w. by rewrite <- app_assoc. }
  destruct Hall as [Hwf Hall].
  assert (Hcb : chain_bytes (p.1 :: p.2) = ip_hdr_full (28 + len) (ip_id_counter n) 64 17 (if_ip ifp) dst ++
    udp_hdr sport dport (8 + len) ++ data).
  { unfold chain_bytes. change (p.2) with (@nil (mbuf ifnet)).
    cbn [fmap list_fmap concat]. by rewrite Hall, app_nil_r. }
  match goal with |- context [ether_output _ _ _ _ _ _ ?N] =>
    destruct (ether_output_em0 ifp p mac ETHERTYPE_IP mh h2 N) as [h' Eh];
      [done|by constructor| |done|done|unfold ETHERTYPE_IP; lia|done|] end.
  { rewrite Hcb, !length_app. change (length (ip_hdr_full _ _ _ _ _ _)) with 20%nat.
    change (length (udp_hdr _ _ _)) with 8%nat. lia. }
  exists h'. rewrite Eh, Hcb. unfold udp_frame. rewrite <- app_assoc. done.
Qed.
End sending.

(** ** The kernel heap as the aligned allocator *)

#[export] Instance kheap_AlignedHeap (heap me who : Z) : AlignedHeap kheap := {|
  kmalloc_al sz al h :=
    match kmalloc_aligned heap me who sz al h with Some r => r | None => (None, h) end;
  kfree_al p h := match kfree_aligned heap me who p h with Some h' => h' | None => h end;
|}.

Lemma alloc_some {A B} (r : option A * B) :
  match r.1 with Some _ => true | None => false end = true -> exists a b, r = (Some a, b).
Proof. destruct r as [[a|] b]; [eauto|done]. Qed.

Lemma ip_hdr_valid len id src dst ttl proto :
  0 <= len < 65536 -> 0 <= id < 65536 -> 0 <= ttl < 256 -> 0 <= proto < 256 ->
  ip_checksum (ip_hdr_full len id ttl proto src dst) = 0.
Proof.
  intros. unfold ip_hdr_full, ip_hdr. apply checksum_fill.
  - repeat (constructor; [unfold is_byte; zify_div|]). constructor.
  - apply Forall_app. split; apply Forall_le_bytes.
  - by exists 5%nat.
  - rewrite length_app, !length_le_bytes. cbn. lia.
Qed.
