(* ===== verification/NetQuiet.v ===== *)
(** What sending leaves alone.  Every output function, from [ether_output] to
    [tcp_send_packet], changes the heap, the interface counters, the
    identification counters and the wire; in the ARP state it only ever adds
    one entry to a pending table that has room. *)
From Stdlib Require Import ZArith Lia.
From stdpp Require Import base numbers list gmap strings.
From S2P Require Import Prelude HeapIface Mbuf Net NetIn.

Section quiet.
Context {H : Type} `{KernelHeap H, !AlignedHeap H}.
Variables (stale : Z -> Z) (nic_done : list Z -> bool).

(** The components input fills are the same. *)
Record same_in (n n' : net H) : Prop := {
  q_udp : udp_rx n' = udp_rx n /\ udp_next_rx n' = udp_next_rx n;
  q_icmp : gr_last_reply n' = gr_last_reply n;
  q_socks : sockets n' = sockets n /\ next_ephemeral n' = next_ephemeral n;
  q_rx : nic_rx n' = nic_rx n;
}.

(** The pending table after an output, or after any input but an ARP reply. *)
Record keeps_pending (n n' : net H) : Prop := {
  k_prefix : exists ws, arp_pending n' = arp_pending n ++ ws;
  k_full : (ARP_PENDING_MAX <= length (arp_pending n))%nat -> arp_pending n' = arp_pending n;
}.

Record quiet (n n' : net H) : Prop := {
  quiet_same : same_in n n';
  quiet_cache : arp_cache n' = arp_cache n;
  quiet_pending : keeps_pending n n';
}.

#[export] Instance same_in_preorder : PreOrder same_in.
Proof.
  split; [done|]. intros a b c [[? ?] ? [? ?] ?] [[? ?] ? [? ?] ?].
  split; [split|..|split|]; congruence.
Qed.

#[export] Instance keeps_pending_preorder : PreOrder keeps_pending.
Proof.
  split.
  - intros n. split; [|done]. exists []. by rewrite app_nil_r.
  - intros a b c [[w1 E1] F1] [[w2 E2] F2]. split.
    + exists (w1 ++ w2). by rewrite E2, E1, app_assoc.
    + intros Hf. rewrite F2, F1; [done..|]. rewrite F1; done.
Qed.

#[export] Instance quiet_preorder : PreOrder quiet.
Proof.
  split.
  - intros n. split; reflexivity.
  - intros a b c [? E1 ?] [? E2 ?]. split; [by etrans|congruence|by etrans].
Qed.

Lemma quiet_refl_eq n n' :
  same_in n n' -> arp_cache n' = arp_cache n -> arp_pending n' = arp_pending n -> quiet n n'.
Proof.
  intros. split; [done..|]. split; [|done]. exists []. by rewrite app_nil_r.
Qed.

Lemma quiet_heap h n : quiet n (set_nheap h n).
Proof. by apply quiet_refl_eq. Qed.

Lemma quiet_free p n : quiet n (free_pkt p n).
Proof. apply quiet_heap. Qed.

Lemma quiet_ids i u t n : quiet n (set_ids i u t n).
Proof. by apply quiet_refl_eq. Qed.

Lemma quiet_ifs l n : quiet n (set_ifs l n).
Proof. by apply quiet_refl_eq. Qed.

Lemma quiet_send f n : quiet n (send_frame f n).
Proof. by apply quiet_refl_eq. Qed.

Hint Resolve quiet_heap quiet_free quiet_ids quiet_ifs quiet_send : eigen.

Lemma if_output_quiet ifp p n : quiet n (if_output nic_done ifp p n).2.
Proof.
  unfold if_output, lo_output, e1000_output. destruct (if_drv ifp); cbn [snd].
  - etrans; [apply quiet_ifs|apply quiet_free].
  - destruct (2048 <? _); cbn [snd]; [apply quiet_free|].
    destruct (nic_done _); cbn [snd]; (etrans; [apply quiet_send|apply quiet_free]).
Qed.

Lemma ether_output_quiet ifp p dst type n :
  quiet n (ether_output stale nic_done ifp p dst type n).2.
Proof.
  unfold ether_output. destruct (m_get _ _ _) as [[m|] h]; cbn [snd].
  - etrans; [apply (quiet_heap h)|apply if_output_quiet].
  - etrans; [apply (quiet_heap h)|apply quiet_free].
Qed.

Lemma arp_resolve_quiet ifp p dst n : quiet n (arp_resolve stale nic_done ifp p dst n).2.
Proof.
  unfold arp_resolve.
  destruct (dst =? _); [apply ether_output_quiet|].
  destruct (_ && _); [apply ether_output_quiet|].
  destruct (existsb _ _); [apply quiet_free|].
  destruct (arp_hit _ _); [apply ether_output_quiet|].
  destruct (Nat.leb_spec ARP_PENDING_MAX (length (arp_pending n))); [apply quiet_free|].
  cbv zeta. trans (set_arp (arp_cache n) (arp_pending n ++ [ArpWait dst p]) n).
  - split; [done..|]. split; [by eexists|]. intros. lia.
  - cbn [nheap set_arp]. destruct (m_gethdr _ _ _) as [[am|] h]; cbn [snd]; [|apply quiet_heap].
    etrans; [apply (quiet_heap h)|apply ether_output_quiet].
Qed.

Lemma ip_output_quiet p ifp n : quiet n (ip_output stale nic_done p ifp n).2.
Proof.
  unfold ip_output. destruct (match ifp with Some _ => _ | None => _ end); [|apply quiet_free].
  etrans; [|apply arp_resolve_quiet]. apply quiet_ids.
Qed.

Lemma udp_output_quiet dst dport sport data n :
  quiet n (udp_output stale nic_done dst dport sport data n).2.
Proof.
  unfold udp_output. destruct (if_find_primary n); [|done].
  destruct (m_getcl _ _ _) as [[m|] h]; [|apply quiet_heap]. cbv zeta.
  etrans; [|apply ip_output_quiet]. etrans; [apply (quiet_heap h)|apply quiet_ids].
Qed.

Lemma tcp_send_packet_quiet so flags data n :
  quiet n (tcp_send_packet stale nic_done so flags data n).2.
Proof.
  unfold tcp_send_packet. destruct (m_getcl _ _ _) as [[m|] h]; [|apply quiet_heap].
  etrans; [|apply ip_output_quiet].
  etrans; [apply (quiet_heap h)|apply quiet_ids].
Qed.
End quiet.
