(* ===== verification/NetTcp.v ===== *)
(** Receiving: what a TCP data segment does to its socket, whose buffer keeps the
    newest [SOCK_RCVBUF] bytes of everything that arrived, and which frames make
    the handlers read outside the cluster they live in. *)
From Stdlib Require Import ZArith Lia.
From stdpp Require Import base numbers list gmap strings.
From S2P Require Import Prelude HeapIface Mbuf Net NetIn NetSpec NetWire NetQuiet.

(** The last [SOCK_RCVBUF] bytes. *)
Definition newest (l : list Z) : list Z :=
  drop (Z.to_nat (Z.of_nat (length l) - SOCK_RCVBUF)) l.

Lemma rcvbuf_large : 65536 < SOCK_RCVBUF.
Proof. done. Qed.

Lemma length_newest l : Z.of_nat (length (newest l)) <= SOCK_RCVBUF.
Proof. unfold newest. rewrite length_drop. unfold SOCK_RCVBUF. lia. Qed.

Lemma newest_short l : Z.of_nat (length l) <= SOCK_RCVBUF -> newest l = l.
Proof. intros. unfold newest. by replace (Z.to_nat _) with 0%nat by lia. Qed.

Lemma newest_app a d : newest (newest a ++ d) = newest (a ++ d).
Proof.
  pose proof rcvbuf_large. unfold newest at 2. set (k := Z.to_nat (Z.of_nat (length a) - SOCK_RCVBUF)).
  assert (k <= length a)%nat by lia. unfold newest.
  rewrite <- (drop_app_le a d k) by done. rewrite drop_drop, length_drop, !length_app.
  f_equal. lia.
Qed.

Lemma rcv_append_newest data rcv :
  Z.of_nat (length rcv) <= SOCK_RCVBUF -> Z.of_nat (length data) < SOCK_RCVBUF ->
  rcv_append data rcv = newest (rcv ++ data).
Proof.
  intros Hr Hd. unfold rcv_append. cbv zeta. unfold newest. rewrite length_app, Nat2Z.inj_add.
  destruct (Z.leb_spec (Z.of_nat (length rcv) + Z.of_nat (length data)) SOCK_RCVBUF).
  { by replace (Z.to_nat _) with 0%nat by lia. }
  set (over := Z.of_nat (length rcv) + Z.of_nat (length data) - SOCK_RCVBUF).
  rewrite (proj2 (Z.leb_gt _ over)) by lia.
  rewrite length_drop. rewrite (proj2 (Z.ltb_ge SOCK_RCVBUF _)) by lia.
  symmetry. apply drop_app_le. lia.
Qed.

(** A segment with payload [d] and sequence number [seq] for the local port
    [port], without SYN, RST or FIN, whole in its buffer. *)
Record segment (p : packet) (off port seq : Z) (d : list Z) : Prop := {
  sg_port : m_ld 2 2 p.1 = port;
  sg_flags : Z.land (m_ld 1 13 p.1) TH_SYN = 0 /\ Z.land (m_ld 1 13 p.1) TH_RST = 0 /\
             Z.land (m_ld 1 13 p.1) TH_FIN = 0;
  sg_seq : ntohl (m_ld 4 4 p.1) = seq;
  sg_pos : 0 < Z.of_nat (length d) < 65536;
  sg_len : ntohs (m_ld 2 2 (m_push off p.1)) - Z.shiftl (ip_hl (m_push off p.1)) 2 -
           Z.shiftl (Z.shiftr (m_ld 1 12 p.1) 4) 2 = Z.of_nat (length d);
  sg_buf : in_buf (Z.shiftl (Z.shiftr (m_ld 1 12 p.1) 4) 2) (Z.of_nat (length d)) p.1 = true;
  sg_data : m_bytes (Z.to_nat (Z.shiftl (Z.shiftr (m_ld 1 12 p.1) 4) 2)) (length d) p.1 = d;
}.

(** What reception keeps of a socket that is established; its buffer is allocated
    when the first bytes arrive. *)
Record connected (so : socket) (rcv : list Z) (ack : Z) : Prop := {
  cn_state : so_state so = TCPS_ESTABLISHED;
  cn_buf : so_rcv_buf so = None -> rcv = [];
  cn_rcv : so_rcv so = rcv;
  cn_ack : so_ack so = ack;
}.

(** ** The acknowledgement on the wire *)

(** A TCP header without options; the ports are in network byte order. *)
Definition tcp_hdr (sport dport seq ack flags win ck : Z) : list Z :=
  le_bytes 2 sport ++ le_bytes 2 dport ++ le_bytes 4 (htonl seq) ++ le_bytes 4 (htonl ack) ++
  [80; flags; win / 256; win mod 256] ++ le_bytes 2 ck ++ [0; 0].

(** What is left of the receive buffer, as far as the field can tell. *)
Definition window (so : socket) : Z := Z.min 65535 (SOCK_RCVBUF - Z.of_nat (length (so_rcv so))).

(** The address a segment is sent from: 10.0.2.15 when the interface has none. *)
Definition tcp_src (ifp : ifnet) : Z := if if_ip ifp =? 0 then htonl 167772687 else if_ip ifp.

(** The checksum over the pseudo header and the segment. *)
Definition ack_sum (so : socket) (ifp : ifnet) : Z :=
  ip_checksum (le_bytes 4 (tcp_src ifp) ++ le_bytes 4 (so_remote_addr so) ++ [0; IPPROTO_TCP; 0; 20] ++
    tcp_hdr (so_local_port so) (so_remote_port so) (so_seq so) (so_ack so) TH_ACK (window so) 0).

Definition ack_frame (so : socket) (ifp : ifnet) (mac : list Z) (id : Z) : list Z :=
  eth_hdr mac (if_hwaddr ifp) ETHERTYPE_IP ++
  ip_hdr_full 40 id 64 IPPROTO_TCP (tcp_src ifp) (so_remote_addr so) ++
  tcp_hdr (so_local_port so) (so_remote_port so) (so_seq so) (so_ack so) TH_ACK (window so) (ack_sum so ifp).

Section tcp.
Context {H : Type} `{KernelHeap H, !AlignedHeap H}.
Variables (stale : Z -> Z) (nic_done : list Z -> bool).

(** Packets handed to [tcp_input] one after the other. *)
Fixpoint tcp_run (off : Z) (ps : list packet) (n : net H) : option (net H) :=
  match ps with
  | [] => Some n
  | p :: ps =>
      match tcp_input stale nic_done p off n with
      | Some n => tcp_run off ps n
      | None => None
      end
  end.

(** The two mbufs of a segment that is sent. *)
Definition send_room (h : H) : bool :=
  match m_getcl (IF := ifnet) stale MT_DATA h with
  | (Some _, h) => match m_get (IF := ifnet) stale MT_HEADER h with (Some _, _) => true | _ => false end
  | _ => false
  end.

Lemma mk_win_all (m : mbuf ifnet) l pre win post :
  l = Z.of_nat (length win) ->
  m_wf (mk_win m (length pre) l pre win post) /\ m_all (mk_win m (length pre) l pre win post) = win.
Proof.
  intros ->. unfold mk_win, mk_at, set_m_buf, set_window, m_wf, m_all, m_bytes, slice.
  cbn [m_len m_data m_buf]. rewrite Nat2Z.id, Nat.add_0_r, drop_app_length, take_app_length, !length_app.
  split; [split; lia|done].
Qed.

Lemma copy_one (m : mbuf ifnet) off len :
  m_wf m -> 0 <= off -> 0 <= len ->
  m_copydata (m, []) off len = take (Z.to_nat len) (drop (Z.to_nat off) (m_all m)).
Proof.
  intros Hm Ho Hl. rewrite m_copydata_spec; [|by apply Forall_singleton|done|done]. unfold chain_bytes.
  cbn [fst snd fmap list_fmap concat]. by rewrite app_nil_r.
Qed.

Lemma lnot_u16 x : htons (Z.lnot (u16 x)) = htons (Z.lnot x).
Proof.
  rewrite <-(htons_u16 (Z.lnot (u16 x))), <-(htons_u16 (Z.lnot x)). f_equal. unfold wrap, Z.lnot. rewrite <-!Z.sub_1_r.
  rewrite <-(Zminus_mod_idemp_l (- (x mod 2 ^ 16))), <-(Zminus_mod_idemp_l (- x)). f_equal. f_equal.
  rewrite <-!(Z.sub_0_l), Zminus_mod_idemp_r. done.
Qed.

Lemma cluster_zero : replicate 2048 0 = replicate 216 0 ++ replicate 40 0 ++ replicate 1792 0.
Proof. reflexivity. Qed.

(** The stores of [tcp_send_packet], up to the checksum. *)
Lemma ack_filled so n ifp m h :
  if_find_primary n = Some ifp -> Z.of_nat (length (so_rcv so)) <= SOCK_RCVBUF -> 0 <= tcp_ip_id n < 65536 ->
  m_getcl (IF := ifnet) stale MT_DATA (nheap n) = (Some m, h) ->
  tcp_send_packet stale nic_done so TH_ACK [] n =
    ip_output stale nic_done
      (mk_win m 216 40 (replicate 216 0)
         (ip_hdr 40 (tcp_ip_id n) 64 6 (tcp_src ifp) (so_remote_addr so) [0; 0] ++
          tcp_hdr (so_local_port so) (so_remote_port so) (so_seq so) (so_ack so) TH_ACK (window so) (ack_sum so ifp))
         (replicate 1792 0), [])
      (Some ifp) (set_ids (ip_id_counter n) (udp_ip_id n) (u16 (tcp_ip_id n + 1)) (set_nheap h n)).
Proof.
  intros Hif Hrcv Hid Hg. destruct (m_getcl_fresh _ _ _ _ _ Hg) as (Hl0 & Hd0 & Hb).
  unfold tcp_send_packet. rewrite Hg. cbv zeta. cbn [length take].
  change (if MAX_TCP_PAYLOAD <? Z.of_nat 0 then MAX_TCP_PAYLOAD else Z.of_nat 0) with 0. cbn [Z.ltb Z.compare].
  change (if_find_primary (set_ids _ _ _ _)) with (if_find_primary n). rewrite Hif.
  fold (tcp_src ifp). change (tcp_ip_id (set_nheap h n)) with (tcp_ip_id n).
  change (ip_id_counter (set_nheap h n)) with (ip_id_counter n). change (udp_ip_id (set_nheap h n)) with (udp_ip_id n).
  assert (Hw : (if 65535 <? u32 (SOCK_RCVBUF - Z.of_nat (length (so_rcv so))) then 65535
                else u32 (SOCK_RCVBUF - Z.of_nat (length (so_rcv so)))) = window so).
  { unfold window, SOCK_RCVBUF in *. rewrite wrap_small by lia. case_match eqn:E; [apply Z.ltb_lt in E|apply Z.ltb_ge in E]; lia. }
  rewrite Hw. clear Hw. assert (Hw : 0 <= window so < 65536) by (unfold window, SOCK_RCVBUF in *; lia).
  assert (Hstart : set_window 256 (m_len m) m = mk_win m 256 0 (replicate 216 0) (replicate 40 0) (replicate 1792 0)).
  { unfold mk_win, mk_at. rewrite <-cluster_zero, <-Hb, Hl0. by destruct m. }
  rewrite Hstart. clear Hstart. change TCP_SIZE with 20. change IP_SIZE with 20. change IPPROTO_TCP with 6.
  rewrite !m_push_at. change (256 - Z.to_nat 20)%nat with 236%nat.
  change (replicate 20 0) with [0;0;0;0;0;0;0;0;0;0;0;0;0;0;0;0;0;0;0;0].
  change (replicate 40 0) with [0;0;0;0;0;0;0;0;0;0;0;0;0;0;0;0;0;0;0;0;0;0;0;0;0;0;0;0;0;0;0;0;0;0;0;0;0;0;0;0].
  net_put 20%nat. net_st 20%nat. net_st 22%nat. net_st 32%nat. net_st 33%nat. net_st 24%nat. net_st 28%nat. net_st 34%nat.
  rewrite m_push_at. change (236 - Z.to_nat 20)%nat with 216%nat. change (0 + 20 + 20) with 40.
  net_put 0%nat. rewrite set_ip_at by (rewrite ?length_replicate; auto).
  net_st 8%nat. net_st 4%nat. net_st 9%nat. rewrite m_len_win. net_st 2%nat. net_st 12%nat. net_st 16%nat.
  net_st 28%nat. net_st 29%nat. net_st 30%nat. net_st 31%nat. net_st 28%nat. net_st 36%nat.
  match goal with |- context [tcp_checksum ?a ?b ?c] => set (ck := tcp_checksum a b c) end. net_st 36%nat.
  assert (Hck : ck = ack_sum so ifp); [|rewrite Hck; unfold ip_hdr, tcp_hdr; cbn [app le_bytes]; reflexivity].
  unfold ck, tcp_checksum, ack_sum, ip_checksum. unfold ip_hl.
  rewrite (m_bytes_at _ _ _ _ _ _ 12) by (rewrite ?length_replicate; cbn; lia).
  rewrite (m_bytes_at _ _ _ _ _ _ 16) by (rewrite ?length_replicate; cbn; lia).
  rewrite !(m_ld_at _ _ _ _ _ _ 0 1 0) by (rewrite ?length_replicate; cbn; lia).
  rewrite (m_ld_at _ _ _ _ _ _ 2 2 2) by (rewrite ?length_replicate; cbn; lia).
  match goal with |- context [m_copydata (mk_win m ?d ?l ?pre ?win ?post, []) _ _] =>
    destruct (mk_win_all m l pre win post eq_refl) as [Hwf Hall] end.
  change (length (replicate 216 0)) with 216%nat in Hwf, Hall.
  rewrite (copy_one _ _ _ Hwf), Hall, lnot_u16 by (lia || (apply Z.mod_pos_bound; lia)).
  clear Hall Hwf ck. apply (f_equal (fun l => htons (Z.lnot (fold16 fold_fuel (sum16 0 l))))).
  unfold slice. cbn [drop take]. reflexivity.
Qed.

(** Nothing of the route changes. *)
Lemma routed_keep (n n' : net H) ifp dst mac :
  routed n ifp dst mac -> ifnet_list n' = ifnet_list n -> arp_cache n' = arp_cache n ->
  arp_pending n' = arp_pending n -> 0 <= ip_id_counter n' < 65536 -> udp_ip_id n' = udp_ip_id n ->
  routed n' ifp dst mac.
Proof.
  intros [R1 R2 R3 R4 R5 [R6 R6'] R7 R8 R9 R10 R11] Hifs Hc Hp Hid Hu.
  split; rewrite ?Hp, ?Hc, ?Hu; try done. unfold if_find_primary. rewrite Hifs. exact R1.
Qed.

(** The acknowledgement goes out when its two mbufs can be had. *)
Lemma ack_sent so (n : net H) ifp mac :
  routed n ifp (so_remote_addr so) mac -> Z.of_nat (length (so_rcv so)) <= SOCK_RCVBUF -> 0 <= tcp_ip_id n < 65536 ->
  let n' := (tcp_send_packet stale nic_done so TH_ACK [] n).2 in
  wire n' = wire n ++ (if send_room (nheap n) then [ack_frame so ifp mac (ip_id_counter n)] else []) /\
  routed n' ifp (so_remote_addr so) mac /\ 0 <= tcp_ip_id n' < 65536.
Proof.
  intros Hr Hrcv Hid n'. pose proof Hr as [Hif Hdrv Hhw Hip Hdst [Hids Hud] Hb Hs Hw Hm Hm6].
  unfold send_room. destruct (m_getcl stale MT_DATA (nheap n)) as [[m|] h1] eqn:Hg.
  2:{ assert (E : n' = set_nheap h1 n) by (unfold n', tcp_send_packet; by rewrite Hg).
      rewrite E, app_nil_r. split; [done|]. split; [|done]. by apply (routed_keep n). }
  set (n1 := set_ids (u16 (ip_id_counter n + 1)) (udp_ip_id n) (u16 (tcp_ip_id n + 1)) (set_nheap h1 n)).
  set (p := mk_win m 216 40 (replicate 216 0)
    (ip_hdr_full 40 (ip_id_counter n) 64 6 (tcp_src ifp) (so_remote_addr so) ++
     tcp_hdr (so_local_port so) (so_remote_port so) (so_seq so) (so_ack so) TH_ACK (window so) (ack_sum so ifp))
    (replicate 1792 0)).
  assert (E : n' = (ether_output stale nic_done ifp (p, []) mac ETHERTYPE_IP n1).2).
  { unfold n'. rewrite (ack_filled so n ifp m h1) by done. unfold ip_output. cbn [fst snd].
    cbn [ip_id_counter udp_ip_id tcp_ip_id set_ids set_nheap].
    rewrite ip_header_out_at by (rewrite ?length_replicate; lia || done). fold p.
    assert (Hld : m_ld 4 16 p = so_remote_addr so).
    { unfold p. rewrite (m_ld_at _ _ _ _ _ _ 16) by (rewrite ?length_replicate; cbn; lia).
      change (slice 16 4 _) with (le_bytes 4 (so_remote_addr so)). apply le_val_bytes_small. lia. }
    rewrite Hld, (arp_resolve_hit stale nic_done ifp _ _ mac) by done. reflexivity. }
  assert (H16 : forall z, 0 <= u16 z < 65536) by (intros z; apply Z.mod_pos_bound; lia).
  destruct (mk_win_all m 40 (replicate 216 0)
    (ip_hdr_full 40 (ip_id_counter n) 64 6 (tcp_src ifp) (so_remote_addr so) ++
     tcp_hdr (so_local_port so) (so_remote_port so) (so_seq so) (so_ack so) TH_ACK (window so) (ack_sum so ifp))
    (replicate 1792 0) eq_refl) as [Hwf Hall].
  change (length (replicate 216 0)) with 216%nat in Hwf, Hall. fold p in Hwf, Hall.
  destruct (m_get stale MT_HEADER h1) as [[mh|] h2] eqn:Hh.
  - destruct (ether_output_em0 stale nic_done ifp (p, []) mac ETHERTYPE_IP mh h2 n1) as [h' Eh];
      [done|by apply Forall_singleton| |done|done|unfold ETHERTYPE_IP; lia|done|].
    { unfold chain_bytes. cbn [fst snd fmap list_fmap concat]. rewrite Hall, app_nil_r. cbn. lia. }
    rewrite E, Eh. unfold chain_bytes. cbn [fst snd fmap list_fmap concat]. rewrite Hall, app_nil_r.
    split; [done|]. split; [|apply H16]. apply (routed_keep n); try done. apply H16.
  - assert (Eo : n' = free_pkt (p, []) (set_nheap h2 n1)) by (rewrite E; unfold ether_output; change (nheap n1) with h1; by rewrite Hh).
    rewrite Eo, app_nil_r. split; [done|]. split; [|apply H16]. apply (routed_keep n); try done. apply H16.
Qed.


(** The receive buffer is there or can be allocated, and the heap with it. *)
Definition has_buffer (so : socket) (h : H) : Prop := so_rcv_buf so = None -> is_Some (kmalloc SOCK_RCVBUF h).1.
Definition after_buffer (so : socket) (h : H) : H :=
  match so_rcv_buf so with Some _ => h | None => (kmalloc SOCK_RCVBUF h).2 end.

(** The addresses and the sequence number of what is sent stay. *)
Record same_peer (so so' : socket) : Prop := {
  sp_local : so_local_port so' = so_local_port so;
  sp_remote : so_remote_port so' = so_remote_port so;
  sp_addr : so_remote_addr so' = so_remote_addr so;
  sp_seq : so_seq so' = so_seq so;
}.

(** What [tcp_data] makes of the socket. *)
Lemma tcp_data_segment p off port seq d so n rcv ack :
  segment p off port seq d -> connected so rcv ack -> Z.of_nat (length rcv) <= SOCK_RCVBUF -> has_buffer so (nheap n) ->
  exists so', tcp_data stale nic_done p.1 off so n =
      Some (so', (tcp_send_packet stale nic_done so' TH_ACK [] (set_nheap (after_buffer so (nheap n)) n)).2) /\
    same_peer so so' /\ is_Some (so_rcv_buf so') /\
    connected so' (newest (rcv ++ d)) (u32 (seq + Z.of_nat (length d))).
Proof.
  intros [Hp _ Hseq Hpos Hlen Hin Hdata] [Hst Hnb Hr Ha] Hl Hbuf. pose proof rcvbuf_large.
  unfold tcp_data. cbv zeta. rewrite Hlen, Hst. rewrite (proj2 (Z.ltb_lt 0 _)) by lia.
  change (TCPS_ESTABLISHED =? TCPS_ESTABLISHED) with true. cbn [andb].
  cbn [so_rcv_buf so_rcv so_rcv_total set_so]. unfold has_buffer, after_buffer in *.
  destruct (so_rcv_buf so) as [b|] eqn:Eb.
  - cbn [so_rcv_buf set_so]. rewrite Eb, Hin. cbn [negb so_rcv so_rcv_total set_so]. rewrite Nat2Z.id, Hdata, Hseq, Hr.
    rewrite rcv_append_newest by lia. eexists. split; [reflexivity|]. split; [done|]. split; [by eexists|]. by split.
  - destruct (Hbuf eq_refl) as [b Hb]. destruct (kmalloc SOCK_RCVBUF (nheap n)) as [r h]. cbn [fst snd] in *. subst r.
    cbn [so_rcv_buf set_rcv]. rewrite Hin. cbn [negb so_rcv so_rcv_total set_rcv set_so]. rewrite Nat2Z.id, Hdata, Hseq.
    rewrite (Hnb eq_refl) in *. rewrite rcv_append_newest by (cbn; lia).
    eexists. split; [reflexivity|]. split; [done|]. split; [by eexists|]. by split.
Qed.

Lemma tcp_input_segment p off port seq d i so n rcv ack ifp mac :
  segment p off port seq d ->
  find_from (tcp_match port) 0 (sockets n) = Some i -> sockets n !! i = Some (Some so) ->
  connected so rcv ack -> Z.of_nat (length rcv) <= SOCK_RCVBUF -> has_buffer so (nheap n) ->
  routed n ifp (so_remote_addr so) mac -> 0 <= tcp_ip_id n < 65536 ->
  exists n' so', tcp_input stale nic_done p off n = Some n' /\
    sockets n' = <[i := Some so']> (sockets n) /\ same_peer so so' /\ is_Some (so_rcv_buf so') /\
    connected so' (newest (rcv ++ d)) (u32 (seq + Z.of_nat (length d))) /\
    wire n' = wire n ++ (if send_room (after_buffer so (nheap n))
                         then [ack_frame so' ifp mac (ip_id_counter n)] else []) /\
    routed n' ifp (so_remote_addr so') mac /\ 0 <= tcp_ip_id n' < 65536.
Proof.
  intros Hsg Hf Hi Hc Hl Hbuf Hrt Hid. pose proof Hsg as [Hp (Hsyn & Hrst & Hfin) _ _ _ _ _].
  unfold tcp_input. rewrite Hp, Hf, Hi. cbv zeta. rewrite Hrst. cbn [Z.eqb negb].
  unfold tcp_synack. rewrite Hsyn. cbn [Z.eqb negb andb].
  set (so1 := if so_una so <? _ then _ else so).
  assert (Hso1 : connected so1 rcv ack /\ so_rcv_buf so1 = so_rcv_buf so /\ same_peer so so1).
  { destruct Hc. unfold so1. destruct (_ <? _); (split; [by split|by split]). }
  clearbody so1. destruct Hso1 as (Hc1 & Hb1 & [P1 P2 P3 P4]).
  destruct (tcp_data_segment p off port seq d so1 n rcv ack Hsg Hc1 Hl) as (so2 & -> & [Q1 Q2 Q3 Q4] & Hb2 & Hc2).
  { unfold has_buffer. by rewrite Hb1. }
  unfold after_buffer. rewrite Hb1. fold (after_buffer so (nheap n)). unfold tcp_fin. rewrite Hfin. cbn [Z.eqb negb].
  set (n1 := set_nheap (after_buffer so (nheap n)) n).
  destruct (ack_sent so2 n1 ifp mac) as (Hw & Hr2 & Hid2).
  { rewrite Q3, P3. by apply (routed_keep n); try done; apply Hrt. }
  { rewrite (cn_rcv _ _ _ Hc2). apply length_newest. }
  { done. }
  pose proof (q_socks _ _ (quiet_same _ _ (tcp_send_packet_quiet stale nic_done so2 TH_ACK [] n1))) as [Hs2 _].
  do 2 eexists. split; [reflexivity|]. cbn [sockets set_sockets free_pkt set_nheap wire]. rewrite Hs2.
  split; [done|]. split; [split; congruence|]. split; [done|]. split; [done|]. split; [exact Hw|].
  split; [|exact Hid2]. apply (routed_keep _ _ _ _ _ Hr2); try done. apply Hr2.
Qed.

Lemma tcp_match_insert port i so so' (l : list (option socket)) :
  find_from (tcp_match port) 0 l = Some i -> l !! i = Some (Some so) ->
  so_local_port so' = so_local_port so ->
  find_from (tcp_match port) 0 (<[i := Some so']> l) = Some i.
Proof.
  rewrite !find_from_Some. intros (_ & (x & Hx & Tx) & Hmin) Hi Hlp.
  assert (x = Some so) as -> by congruence. split; [lia|]. split.
  - exists (Some so'). split; [apply list_lookup_insert_eq; by eapply lookup_lt_Some|].
    cbn in *. by rewrite Hlp.
  - intros j y Hj Hy. rewrite list_lookup_insert_ne in Hy by lia. by apply (Hmin j).
Qed.

End tcp.

(** * Which received frames make the handlers read outside the cluster they
    live in: only an IP total length that lies can. *)

(** The cluster after the copy of a frame, and the IP fields in it. *)
Definition cluster (f : list Z) : list Z := splice 0 f (replicate 2048 0).
Definition rx_type (b : list Z) : Z := ntohs (ld 2 12 b).
Definition rx_version (b : list Z) : Z := Z.shiftr (ld 1 14 b) 4.
Definition rx_hlen (b : list Z) : Z := Z.shiftl (Z.land (ld 1 14 b) 15) 2.
Definition rx_len (b : list Z) : Z := ntohs (ld 2 16 b).
Definition rx_proto (b : list Z) : Z := ld 1 23 b.

Lemma rx_hlen_bounds b : 0 <= rx_hlen b <= 60.
Proof.
  unfold rx_hlen. change 15 with (Z.ones 4). rewrite Z.land_ones, Z.shiftl_mul_pow2 by lia.
  zify_div.
Qed.

Lemma length_cluster f : (length f <= 2048)%nat -> length (cluster f) = 2048%nat.
Proof. intros. unfold cluster. rewrite length_splice; rewrite length_replicate; lia. Qed.

Lemma in_buf_true off len (m : mbuf ifnet) :
  0 <= len -> Z.of_nat (m_data m) + off + len <= Z.of_nat (length (m_buf m)) ->
  in_buf off len m = true.
Proof. intros. unfold in_buf. apply andb_true_iff. split; apply Z.leb_le; lia. Qed.

Lemma in_buf_false off len (m : mbuf ifnet) :
  len < 0 \/ Z.of_nat (length (m_buf m)) < Z.of_nat (m_data m) + off + len ->
  in_buf off len m = false.
Proof.
  intros Hl. unfold in_buf. apply andb_false_iff.
  destruct Hl; [left|right]; apply Z.leb_gt; lia.
Qed.

Section bounds.
Context {H : Type} `{KernelHeap H, !AlignedHeap H}.
Variables (stale : Z -> Z) (nic_done : list Z -> bool).

(** The packet [ip_input] hands up: the data pointer past both headers. *)
Definition at_payload (b : list Z) (m : mbuf ifnet) : Prop :=
  m_buf m = b /\ length b = 2048%nat /\ m_data m = (14 + Z.to_nat (rx_hlen b))%nat.

Lemma at_payload_push b m :
  at_payload b m -> m_data (m_push (rx_hlen b) m) = 14%nat /\ m_buf (m_push (rx_hlen b) m) = b.
Proof.
  intros (Hb & _ & Hd). unfold m_push, set_window. cbn [m_data m_buf]. rewrite Hd.
  split; [lia|done].
Qed.

Lemma payload_len b m : at_payload b m -> ntohs (m_ld 2 2 (m_push (rx_hlen b) m)) = rx_len b.
Proof.
  intros Hat. destruct (at_payload_push b m Hat) as [Hd Hb].
  unfold m_ld. by rewrite Hd, Hb.
Qed.

Lemma icmp_input_bounds b p n :
  at_payload b p.1 ->
  (rx_hlen b <= rx_len b <= 2034 -> is_Some (icmp_input stale nic_done p (rx_hlen b) n)) /\
  (ld 1 (14 + Z.to_nat (rx_hlen b)) b = ICMP_ECHO ->
   rx_len b < rx_hlen b \/ 2034 < rx_len b ->
   icmp_input stale nic_done p (rx_hlen b) n = None).
Proof.
  intros Hat. pose proof Hat as (Hb & Hl & Hd). pose proof (rx_hlen_bounds b).
  unfold icmp_input. cbv zeta. rewrite (payload_len b) by done. split.
  - intros Hr. rewrite in_buf_true by (rewrite ?Hb, ?Hl, ?Hd; lia). cbn [negb].
    destruct (_ =? ICMP_ECHO); [done|]. by destruct (_ =? ICMP_ECHOREPLY).
  - intros He Hr. assert (m_ld 1 0 p.1 = ICMP_ECHO) as ->.
    { unfold m_ld. by rewrite Hd, Hb, Nat.add_0_r. }
    rewrite in_buf_false by (rewrite ?Hb, ?Hl, ?Hd; lia). done.
Qed.

Lemma udp_input_bounds b p n :
  at_payload b p.1 -> is_Some (udp_input p (rx_hlen b) n).
Proof.
  intros (Hb & Hl & Hd). pose proof (rx_hlen_bounds b).
  unfold udp_input. cbv zeta. set (ul := ntohs (m_ld 2 4 _)).
  destruct (Z.ltb_spec ul UDP_SIZE); [done|]. unfold UDP_SIZE in *.
  destruct (Z.ltb_spec (ul - 8) 1500);
    rewrite in_buf_true by (rewrite ?Hb, ?Hl, ?Hd; lia); done.
Qed.

(** The header of a TCP segment in the cluster. *)
Definition rx_port (b : list Z) : Z := ld 2 (14 + Z.to_nat (rx_hlen b) + 2) b.
Definition rx_flags (b : list Z) : Z := ld 1 (14 + Z.to_nat (rx_hlen b) + 13) b.
Definition rx_payload (b : list Z) : Z :=
  rx_len b - rx_hlen b - Z.shiftl (Z.shiftr (ld 1 (14 + Z.to_nat (rx_hlen b) + 12) b) 4) 2.

(** The segment brings bytes for socket [so]. *)
Record brings (b : list Z) (l : list (option socket)) (so : socket) : Prop := {
  br_so : exists i, find_from (tcp_match (rx_port b)) 0 l = Some i /\ l !! i = Some (Some so);
  br_rst : Z.land (rx_flags b) TH_RST = 0;
  br_data : 0 < rx_payload b;
}.

(** The first bytes find room for the receive buffer; [h] is the heap they meet. *)
Definition rcv_ready (b : list Z) (l : list (option socket)) (h : H) : Prop :=
  forall so, brings b l so -> so_rcv_buf so = None ->
    Z.land (rx_flags b) TH_SYN = 0 /\
    (so_state so = TCPS_ESTABLISHED -> is_Some (kmalloc SOCK_RCVBUF h).1).

Lemma tcp_input_bounds b p n :
  at_payload b p.1 ->
  (rx_len b <= 2034 -> rcv_ready b (sockets n) (nheap n) -> is_Some (tcp_input stale nic_done p (rx_hlen b) n)) /\
  (forall so, brings b (sockets n) so -> so_rcv_buf so = None -> Z.land (rx_flags b) TH_SYN = 0 ->
     so_state so = TCPS_ESTABLISHED -> (kmalloc SOCK_RCVBUF (nheap n)).1 = None ->
     tcp_input stale nic_done p (rx_hlen b) n = None).
Proof.
  intros Hat. pose proof Hat as (Hb & Hl & Hd). pose proof (rx_hlen_bounds b) as Hh.
  assert (Hld : forall w k, m_ld w k p.1 = ld w (14 + Z.to_nat (rx_hlen b) + k) b) by (intros w k; unfold m_ld; by rewrite Hb, Hd).
  assert (Hhl : Z.shiftl (ip_hl (m_push (rx_hlen b) p.1)) 2 = rx_hlen b).
  { destruct (at_payload_push b _ Hat) as [Hd2 Hb2]. unfold ip_hl, m_ld. by rewrite Hd2, Hb2. }
  assert (Hpay : ntohs (m_ld 2 2 (m_push (rx_hlen b) p.1)) - Z.shiftl (ip_hl (m_push (rx_hlen b) p.1)) 2 -
    Z.shiftl (Z.shiftr (m_ld 1 12 p.1) 4) 2 = rx_payload b).
  { rewrite (payload_len b) by done. unfold rx_payload. by rewrite Hhl, Hld. }
  unfold tcp_input. rewrite (Hld 2%nat 2%nat). fold (rx_port b). cbv zeta. split.
  - intros Hr Hready. destruct (find_from _ _ _) as [i|] eqn:Ef; [|done].
    destruct (sockets n !! i) as [[so|]|] eqn:Hi; [|done..].
    rewrite (Hld 1%nat 13%nat). fold (rx_flags b). destruct (Z.eqb_spec (Z.land (rx_flags b) TH_RST) 0) as [Hrst|]; [|done].
    cbn [negb]. destruct (tcp_synack _ _ _ _ _) as [so1 n1] eqn:E1.
    assert (Hb1 : so_rcv_buf so1 = so_rcv_buf so /\
      (Z.land (rx_flags b) TH_SYN = 0 -> so_state so1 = so_state so /\ nheap n1 = nheap n)).
    { revert E1. unfold tcp_synack. rewrite (Hld 1%nat 13%nat). fold (rx_flags b). cbv zeta.
      destruct (Z.eqb_spec (Z.land (rx_flags b) TH_SYN) 0) as [Hs|Hs]; cbn [negb andb];
        repeat case_match; intros; simplify_eq; (split; [done|by intros ?]). }
    destruct Hb1 as [Hb1 Hk]. unfold tcp_data. cbv zeta. rewrite Hpay.
    destruct (Z.ltb_spec 0 (rx_payload b)) as [Hdl|]; cbn [andb]; [|by destruct (tcp_fin _ _ _ _ _)].
    destruct (Z.eqb_spec (so_state so1) TCPS_ESTABLISHED) as [He|]; [|by destruct (tcp_fin _ _ _ _ _)].
    assert (Hbr : brings b (sockets n) so) by (split; eauto).
    assert (Hin : in_buf (Z.shiftl (Z.shiftr (m_ld 1 12 p.1) 4) 2) (rx_payload b) p.1 = true).
    { apply in_buf_true; rewrite ?Hb, ?Hl, ?Hd; [lia|]. unfold rx_payload. rewrite Hld. lia. }
    cbn [so_rcv_buf set_so]. rewrite Hb1. destruct (so_rcv_buf so) as [bb|] eqn:Ebb.
    + cbn [so_rcv_buf set_so]. rewrite Hb1, Hin. cbn [negb]. by destruct (tcp_fin _ _ _ _ _).
    + destruct (Hready so Hbr Ebb) as [Hsyn Hroom]. destruct (Hk Hsyn) as [Hst Hh1].
      destruct Hroom as [a Ha]; [congruence|]. rewrite Hh1. destruct (kmalloc SOCK_RCVBUF (nheap n)) as [r h].
      cbn [fst] in Ha. subst r. cbn [so_rcv_buf set_rcv]. rewrite Hin. cbn [negb]. by destruct (tcp_fin _ _ _ _ _).
  - intros so [(i & Hf & Hi) Hrst Hdl] Hbuf Hsyn Hst Hfull. rewrite Hf, Hi, (Hld 1%nat 13%nat). fold (rx_flags b).
    rewrite Hrst. cbn [Z.eqb negb]. unfold tcp_synack. rewrite (Hld 1%nat 13%nat). fold (rx_flags b).
    rewrite Hsyn. cbn [Z.eqb negb andb]. set (so1 := if _ <? _ then _ else so).
    assert (Hso1 : so_state so1 = TCPS_ESTABLISHED /\ so_rcv_buf so1 = None) by (unfold so1; by case_match).
    clearbody so1. destruct Hso1 as [Hst1 Hb1]. unfold tcp_data. cbv zeta. rewrite Hpay, Hst1, (proj2 (Z.ltb_lt 0 _)) by done.
    change (TCPS_ESTABLISHED =? TCPS_ESTABLISHED) with true. cbn [andb so_rcv_buf set_so]. rewrite Hb1.
    destruct (kmalloc SOCK_RCVBUF (nheap n)) as [r h]. cbn [fst] in Hfull. by subst r.
Qed.

Lemma e1000_rx_packet ifp f (n : net H) mb h :
  m_getcl (IF := ifnet) stale MT_DATA (nheap n) = (Some mb, h) -> (length f <= 2048)%nat ->
  exists m, m_buf m = cluster f /\ m_data m = 0%nat /\ m_len m = Z.of_nat (length f) /\
    rcvif m = Some ifp /\
    e1000_rx stale nic_done ifp f n = ether_input stale nic_done (m, []) (set_nheap h n).
Proof.
  intros Hg Hl. destruct (m_getcl_fresh _ _ _ _ _ Hg) as (_ & Hd & Hb).
  unfold e1000_rx. rewrite Hg. cbv zeta.
  rewrite (proj2 (Z.ltb_ge MCLBYTES _)) by (unfold MCLBYTES; lia).
  eexists. repeat split; [|done|..]; [|done..].
  cbn [m_buf]. unfold m_put, set_m_buf, cluster. cbn [m_buf]. by rewrite Hd, Hb.
Qed.

(** What [ether_input] and [ip_input] make of a packet still at its start. *)
Lemma at_payload_pull f (m : mbuf ifnet) :
  m_buf m = cluster f -> m_data m = 0%nat -> (length f <= 2048)%nat ->
  at_payload (cluster f) (m_pull (rx_hlen (cluster f)) (m_pull ETHER_HDR_LEN m)).
Proof.
  intros Hb Hd Hl. split; [done|]. split; [by apply length_cluster|].
  unfold m_pull, set_window. cbn [m_data]. rewrite Hd. done.
Qed.
End bounds.
