(* ===== verification/NetArp.v ===== *)
(** Address resolution: the request a miss sends, the flush a reply causes,
    and the events that leave the pending table alone. *)
From Stdlib Require Import ZArith Lia.
From stdpp Require Import base numbers list gmap strings.
From S2P Require Import Prelude HeapIface Mbuf Net NetIn NetSpec NetWire NetQuiet NetTcp.

(** ** Consecutive stores are one store *)

Lemma splice_splice {A} o (x y b : list A) :
  (o + length x + length y <= length b)%nat ->
  splice (o + length x) y (splice o x b) = splice o (x ++ y) b.
Proof.
  intros Hl. unfold splice at 2 3. rewrite app_assoc.
  rewrite splice_app by (rewrite length_app, length_take; lia).
  rewrite drop_drop, length_app, <- !app_assoc. do 4 f_equal. lia.
Qed.

Lemma m_put_put (m : mbuf ifnet) o k x y :
  k = (o + length x)%nat -> (m_data m + o + length x + length y <= length (m_buf m))%nat ->
  m_put k y (m_put o x m) = m_put o (x ++ y) m.
Proof.
  intros -> Hl. unfold m_put, set_m_buf.
  cbn [m_addr m_len m_type m_flags m_data rcvif pkt_len ext_buf m_buf]. f_equal.
  rewrite Nat.add_assoc. by apply splice_splice.
Qed.

Definition arp_body (op : Z) (sha spa tha tpa : list Z) : list Z :=
  [0; 1; 8; 0; 6; 4; op / 256; op mod 256] ++ sha ++ spa ++ tha ++ tpa.

Lemma arp_fill_body op sha spa tha tpa (m : mbuf ifnet) :
  length sha = 6%nat -> length spa = 4%nat -> length tha = 6%nat -> length tpa = 4%nat ->
  0 <= op < 65536 -> (m_data m + 28 <= length (m_buf m))%nat ->
  arp_fill op sha spa tha tpa m = m_put 0 (arp_body op sha spa tha tpa) m.
Proof.
  intros H1 H2 H3 H4 Hop Hl. unfold arp_fill. cbv zeta.
  assert (Hst : forall w o v (mm : mbuf ifnet), m_st w o v mm = m_put o (le_bytes w v) mm) by done.
  rewrite !Hst, !le_bytes_htons by (unfold ARPHRD_ETHER, ETHERTYPE_IP; lia).
  change (le_bytes 1 6) with [6]. change (le_bytes 1 4) with [4].
  rewrite !(m_put_put m) by (rewrite ?length_app, ?H1, ?H2, ?H3, ?H4; cbn; lia).
  f_equal. unfold arp_body. rewrite <- !app_assoc. done.
Qed.

(** ** The pending table *)

Section arp.
Context {H : Type} `{KernelHeap H, !AlignedHeap H}.
Variables (stale : Z -> Z) (nic_done : list Z -> bool).

(** The frame, once in its cluster, is an ARP reply. *)
Definition arp_reply (b : list Z) : bool :=
  (rx_type b =? ETHERTYPE_ARP) && (ntohs (ld 2 20 b) =? ARPOP_REPLY).

Lemma keeps_eq (n n' : net H) : arp_pending n' = arp_pending n -> keeps_pending n n'.
Proof. intros E. split; [|done]. exists []. by rewrite app_nil_r. Qed.

Lemma keeps_trans_eq (a b c : net H) :
  keeps_pending a b -> arp_pending c = arp_pending b -> keeps_pending a c.
Proof. intros Hk E. etrans; [exact Hk|]. by apply keeps_eq. Qed.

Lemma udp_input_keeps p off n n' : udp_input p off n = Some n' -> keeps_pending n n'.
Proof. unfold udp_input. intros E. repeat case_match; simplify_eq; by apply keeps_eq. Qed.

Lemma icmp_input_keeps p off n n' :
  icmp_input stale nic_done p off n = Some n' -> keeps_pending n n'.
Proof.
  unfold icmp_input. intros E. repeat case_match; simplify_eq; try by apply keeps_eq.
  apply quiet_pending, ip_output_quiet.
Qed.

Lemma tcp_synack_keeps m so n so' n' :
  tcp_synack stale nic_done m so n = (so', n') -> keeps_pending n n'.
Proof.
  unfold tcp_synack. cbv zeta. intros E. repeat case_match; simplify_eq;
    first [by apply keeps_eq|apply quiet_pending, tcp_send_packet_quiet].
Qed.

Lemma keeps_tcp_send so flags data h n :
  keeps_pending n (tcp_send_packet stale nic_done so flags data (set_nheap h n)).2.
Proof.
  trans (set_nheap h n); [by apply keeps_eq|]. apply quiet_pending, tcp_send_packet_quiet.
Qed.

Lemma tcp_data_keeps m off so n so' n' :
  tcp_data stale nic_done m off so n = Some (so', n') -> keeps_pending n n'.
Proof.
  unfold tcp_data. cbv zeta. intros E. repeat case_match; simplify_eq;
    first [by apply keeps_eq|apply keeps_tcp_send].
Qed.

Lemma tcp_fin_keeps m so n so' n' :
  tcp_fin stale nic_done m so n = (so', n') -> keeps_pending n n'.
Proof.
  unfold tcp_fin. cbv zeta. intros E. case_match; simplify_eq;
    first [by apply keeps_eq|apply quiet_pending, tcp_send_packet_quiet].
Qed.

Lemma tcp_input_keeps p off n n' :
  tcp_input stale nic_done p off n = Some n' -> keeps_pending n n'.
Proof.
  unfold tcp_input. intros E. destruct (find_from _ _ _) as [i|]; [|simplify_eq; by apply keeps_eq].
  destruct (sockets n !! i) as [[so|]|]; [|simplify_eq; by apply keeps_eq..].
  cbv zeta in E. destruct (negb _); [simplify_eq; by apply keeps_eq|].
  destruct (tcp_synack _ _ _ _ _) as [so1 n1] eqn:E1. apply tcp_synack_keeps in E1.
  destruct (tcp_data _ _ _ _ _ _) as [[so2 n2]|] eqn:E2; [|done]. apply tcp_data_keeps in E2.
  destruct (tcp_fin _ _ _ _ _) as [so3 n3] eqn:E3. apply tcp_fin_keeps in E3.
  injection E as <-. apply (keeps_trans_eq n n3); [|reflexivity].
  etrans; [exact E1|]. by etrans; [exact E2|].
Qed.

Lemma arp_input_keeps p n n' :
  ntohs (m_ld 2 6 p.1) =? ARPOP_REPLY = false ->
  arp_input stale nic_done p n = Some n' -> keeps_pending n n'.
Proof.
  intros Hop. unfold arp_input. rewrite Hop. cbv zeta. intros E.
  repeat case_match; simplify_eq; try by apply keeps_eq.
  match goal with |- keeps_pending _ (free_pkt _ ?b) => apply (keeps_trans_eq _ b); [|done] end.
  etrans; [|apply quiet_pending, ether_output_quiet]. by apply keeps_eq.
Qed.

(** A frame other than an ARP reply never takes a packet off the table. *)
Lemma e1000_rx_keeps ifp f n n' :
  arp_reply (cluster f) = false -> e1000_rx stale nic_done ifp f n = Some n' ->
  keeps_pending n n'.
Proof.
  intros Hr E.
  destruct (m_getcl (IF := ifnet) stale MT_DATA (nheap n)) as [[mb|] h] eqn:Hg; cycle 1.
  { unfold e1000_rx in E. rewrite Hg in E. simplify_eq. by apply keeps_eq. }
  assert (Hl : (length f <= 2048)%nat).
  { unfold e1000_rx in E. rewrite Hg in E. cbv zeta in E.
    destruct (Z.ltb_spec MCLBYTES (Z.of_nat (length f))); [done|]. unfold MCLBYTES in *. lia. }
  destruct (e1000_rx_packet stale nic_done ifp f n mb h Hg Hl) as (m & Hb & Hd & _ & _ & Erx).
  rewrite Erx in E. etrans; [apply (keeps_eq n (set_nheap h n)); reflexivity|].
  revert E. generalize (set_nheap h n). clear n Hg Erx. intros n E.
  unfold ether_input in E. cbn [fst snd] in E.
  assert (Ht : ntohs (m_ld 2 12 m) = rx_type (cluster f)) by (unfold m_ld; by rewrite Hd, Hb).
  rewrite Ht in E. destruct (_ <? _); [simplify_eq; by apply keeps_eq|].
  destruct (rx_type (cluster f) =? ETHERTYPE_IP).
  - unfold ip_input in E. cbv zeta in E. repeat case_match; simplify_eq; try by apply keeps_eq.
    + by eapply tcp_input_keeps.
    + by eapply icmp_input_keeps.
    + by eapply udp_input_keeps.
  - unfold arp_reply in Hr. destruct (rx_type (cluster f) =? ETHERTYPE_ARP);
      [|simplify_eq; by apply keeps_eq].
    apply (arp_input_keeps _ _ _) in E; [done|]. cbn [fst andb] in *. rewrite <- Hr.
    unfold m_ld, m_pull, set_window. cbn [m_data m_buf]. by rewrite Hd, Hb.
Qed.

(** *** Events *)

(** What the rest of the kernel does to the stack while packets wait. *)
Inductive net_event :=
  | Receive (ifp : ifnet) (frame : list Z)
  | SendUdp (dst dport sport : Z) (data : list Z)
  | SendTcp (so : socket) (flags : Z) (data : list Z).

Definition net_step (e : net_event) (n : net H) : option (net H) :=
  match e with
  | Receive ifp f => e1000_rx stale nic_done ifp f n
  | SendUdp dst dport sport data => Some (udp_output stale nic_done dst dport sport data n).2
  | SendTcp so flags data => Some (tcp_send_packet stale nic_done so flags data n).2
  end.

Definition not_reply (e : net_event) : Prop :=
  match e with Receive _ f => arp_reply (cluster f) = false | _ => True end.

Fixpoint net_run (es : list net_event) (n : net H) : option (net H) :=
  match es with
  | [] => Some n
  | e :: es => match net_step e n with Some n => net_run es n | None => None end
  end.

Lemma net_step_keeps e n n' : not_reply e -> net_step e n = Some n' -> keeps_pending n n'.
Proof.
  destruct e; cbn [not_reply net_step]; intros Hr E; simplify_eq.
  - by eapply e1000_rx_keeps.
  - apply quiet_pending, udp_output_quiet.
  - apply quiet_pending, tcp_send_packet_quiet.
Qed.

Lemma arp_resolve_refused ifp p dst n :
  dst <> htonl INADDR_BROADCAST -> if_netmask ifp = 0 \/ dst <> subnet_bcast ifp ->
  (ARP_PENDING_MAX <= length (arp_pending n))%nat ->
  Exists (fun w => wait_dst w = dst) (arp_pending n) \/ arp_hit dst (arp_cache n) = None ->
  arp_resolve stale nic_done ifp p dst n = (-1, free_pkt p n).
Proof.
  intros Hb Hs Hfull Hx. unfold arp_resolve. rewrite (proj2 (Z.eqb_neq _ _) Hb).
  replace (negb (if_netmask ifp =? 0) && (dst =? subnet_bcast ifp)) with false
    by (destruct Hs as [->|Hs]; [done|by rewrite (proj2 (Z.eqb_neq _ _) Hs), andb_false_r]).
  destruct (existsb _ _) eqn:He; [done|]. destruct Hx as [Hx|Hx].
  - exfalso. apply not_true_iff_false in He. apply He. apply existsb_exists.
    apply Exists_exists in Hx as (w & Hw & <-). exists w. split; [by apply list_elem_of_In|].
    apply Z.eqb_refl.
  - rewrite Hx. by rewrite (proj2 (Nat.leb_le _ _) Hfull).
Qed.

(** *** A miss and its reply *)

Definition arp_frame (dst src : list Z) (op : Z) (sha spa tha tpa : list Z) : list Z :=
  eth_hdr dst src ETHERTYPE_ARP ++ arp_body op sha spa tha tpa.

Lemma length_arp_body op sha spa tha tpa :
  length sha = 6%nat -> length spa = 4%nat -> length tha = 6%nat -> length tpa = 4%nat ->
  length (arp_body op sha spa tha tpa) = 28%nat.
Proof. intros. unfold arp_body. rewrite !length_app. cbn [length]. lia. Qed.

Lemma m_gethdr_fresh type h m h' :
  m_gethdr (IF := ifnet) stale type h = (Some m, h') ->
  m_len m = 0 /\ m_data m = 0%nat /\ length (m_buf m) = Z.to_nat MLEN.
Proof.
  unfold m_gethdr. destruct (m_get stale type h) as [[m0|] h1] eqn:E; [|done].
  intros; simplify_eq. by apply (m_get_fresh stale) in E.
Qed.

Lemma arp_resolve_miss ifp p dst n am h1 mh h2 :
  if_drv ifp = em0 -> length (if_hwaddr ifp) = 6%nat ->
  dst <> htonl INADDR_BROADCAST -> if_netmask ifp = 0 \/ dst <> subnet_bcast ifp ->
  Forall (fun w => wait_dst w <> dst) (arp_pending n) -> arp_hit dst (arp_cache n) = None ->
  (length (arp_pending n) < ARP_PENDING_MAX)%nat ->
  m_gethdr (IF := ifnet) stale MT_DATA (nheap n) = (Some am, h1) ->
  m_get (IF := ifnet) stale MT_HEADER h1 = (Some mh, h2) ->
  exists h', arp_resolve stale nic_done ifp p dst n =
    (0, set_nheap h' (send_frame
      (arp_frame bcast_mac (if_hwaddr ifp) ARPOP_REQUEST (if_hwaddr ifp)
         (le_bytes 4 (if_ip ifp)) (replicate 6 0) (le_bytes 4 dst))
      (set_arp (arp_cache n) (arp_pending n ++ [ArpWait dst p]) n))).
Proof.
  intros Hdrv Hhw Hb Hs Hw Hh Hroom Hg1 Hg2. unfold arp_resolve.
  rewrite (proj2 (Z.eqb_neq _ _) Hb).
  replace (negb (if_netmask ifp =? 0) && (dst =? subnet_bcast ifp)) with false
    by (destruct Hs as [->|Hs]; [done|by rewrite (proj2 (Z.eqb_neq _ _) Hs), andb_false_r]).
  rewrite existsb_idle, Hh by done. rewrite (proj2 (Nat.leb_gt _ _) Hroom). cbv zeta.
  cbn [nheap set_arp]. rewrite Hg1. destruct (m_gethdr_fresh _ _ _ _ Hg1) as (_ & Hd & Hl).
  change (Z.to_nat MLEN) with 184%nat in Hl.
  rewrite arp_fill_body;
    [|done|done|done|done|unfold ARPOP_REQUEST; lia|unfold set_window; cbn [m_data m_buf]; lia].
  set (body := arp_body _ _ _ _ _).
  assert (Hbl : length body = 28%nat) by by apply length_arp_body.
  set (m := set_window _ ARP_SIZE _).
  assert (Hm : m_wf m /\ m_all m = body).
  { unfold m, m_wf, m_all, m_bytes, m_put, set_window, set_m_buf. cbn [m_len m_data m_buf].
    change (Z.to_nat ARP_SIZE) with 28%nat. rewrite Hd. cbn [Nat.add]. split.
    - split; [done|]. rewrite length_splice; rewrite Hl, ?Hbl; lia.
    - rewrite <- Hbl. apply slice_splice_eq. rewrite Hl, Hbl. lia. }
  destruct Hm as [Hwf Hall]. clearbody m.
  assert (Hcb : chain_bytes [m] = body) by (unfold chain_bytes; cbn; by rewrite app_nil_r).
  match goal with |- context [ether_output _ _ _ _ _ _ ?N] =>
    destruct (ether_output_em0 stale nic_done ifp (m, []) bcast_mac ETHERTYPE_ARP mh h2 N)
      as [h' Eh];
      [done|by constructor| |done|done|unfold ETHERTYPE_ARP; lia|done|] end.
  { cbn [fst snd]. rewrite Hcb, Hbl. lia. }
  exists h'. rewrite Eh. cbn [fst snd]. by rewrite Hcb.
Qed.

Lemma arp_flush_none ifp ip mac ws n :
  Forall (fun w => wait_dst w <> ip) ws -> arp_flush stale nic_done ifp ip mac ws n = n.
Proof.
  intros Hw. revert n. induction Hw as [|w ws Hne _ IH]; intros n; [done|].
  cbn [arp_flush]. by rewrite (proj2 (Z.eqb_neq _ _) Hne), IH.
Qed.

Lemma arp_flush_app ifp ip mac ws1 ws2 n :
  arp_flush stale nic_done ifp ip mac (ws1 ++ ws2) n =
  arp_flush stale nic_done ifp ip mac ws2 (arp_flush stale nic_done ifp ip mac ws1 n).
Proof. revert n. induction ws1 as [|w ws1 IH]; intros n; [done|]. cbn. apply IH. Qed.

Lemma arp_find_None dst c : arp_hit dst c = None ->
  forall j e, c !! j = Some e -> arp_valid e && (arp_ip e =? dst) = false.
Proof.
  unfold arp_hit. intros Hf j e He.
  exact (List.find_none _ _ Hf e (proj1 (list_elem_of_In _ _) (list_elem_of_lookup_2 _ _ _ He))).
Qed.

(** What the cache answers after learning an address it did not have. *)
Lemma arp_learn_hit dst mac c i e :
  arp_hit dst c = None -> arp_find_or_alloc dst c = Some i -> c !! i = Some e ->
  arp_is_static e = false -> arp_mac <$> arp_hit dst (arp_learn dst mac c) = Some mac.
Proof.
  intros Hn Hf He Hst. unfold arp_learn. rewrite Hf.
  pose proof (arp_find_None dst c Hn) as Hall. clear Hf Hn.
  assert (Hg : forall l k, (forall j e, l !! j = Some e -> arp_valid e && (arp_ip e =? dst) = false) ->
    l !! k = Some e ->
    arp_hit dst (alter (fun e => if arp_is_static e then e else ArpEntry dst mac true (arp_is_static e)) k l)
    = Some (ArpEntry dst mac true false)).
  { unfold arp_hit. induction l as [|x l IH]; intros k Hl Hk; [done|].
    destruct k as [|k]; cbn in Hk |- *.
    - simplify_eq. rewrite Hst. cbn [arp_valid arp_ip andb]. by rewrite Z.eqb_refl.
    - rewrite (Hl 0%nat x) by done. apply IH; [|done]. intros j. apply (Hl (S j)). }
  by rewrite (Hg c i Hall He).
Qed.

Lemma filter_idle ip (ws : list arp_wait) :
  Forall (fun w => wait_dst w <> ip) ws -> filter (fun w => wait_dst w <> ip) ws = ws.
Proof.
  induction 1 as [|w ws Hw _ IH]; [done|]. rewrite filter_cons_True by done. by rewrite IH.
Qed.

Lemma e1000_rx_reply ifp mac dst p ws n mb h mh h2 :
  if_drv ifp = em0 -> length (if_hwaddr ifp) = 6%nat -> length mac = 6%nat ->
  0 <= dst < 2 ^ 32 -> Forall m_wf (p.1 :: p.2) ->
  Z.of_nat (length (chain_bytes (p.1 :: p.2))) <= 2034 ->
  arp_pending n = ws ++ [ArpWait dst p] -> Forall (fun w => wait_dst w <> dst) ws ->
  m_getcl (IF := ifnet) stale MT_DATA (nheap n) = (Some mb, h) ->
  m_get (IF := ifnet) stale MT_HEADER h = (Some mh, h2) ->
  exists h', e1000_rx stale nic_done ifp
      (arp_frame (if_hwaddr ifp) mac ARPOP_REPLY mac (le_bytes 4 dst) (if_hwaddr ifp)
         (le_bytes 4 (if_ip ifp))) n =
    Some (set_nheap h' (send_frame
      (eth_hdr mac (if_hwaddr ifp) ETHERTYPE_IP ++ chain_bytes (p.1 :: p.2))
      (set_arp (arp_learn dst mac (arp_cache n)) ws n))).
Proof.
  intros Hdrv Hhw Hmac Hdst Hwf Hlen Hp Hws Hg Hg2.
  set (rest := if_hwaddr ifp ++ le_bytes 4 (if_ip ifp)).
  set (f := arp_frame _ _ _ _ _ _ _).
  assert (Hf : f = (if_hwaddr ifp ++ mac) ++
    ([8; 6; 0; 1; 8; 0; 6; 4; 0; 2] ++ mac ++ le_bytes 4 dst) ++ rest)
    by (unfold f, arp_frame, eth_hdr, arp_body, rest; rewrite <- !app_assoc; done).
  assert (Hfl : length f = 42%nat)
    by (rewrite Hf; unfold rest; rewrite !length_app, !length_le_bytes, Hhw, Hmac; done).
  destruct (e1000_rx_packet stale nic_done ifp f n mb h Hg) as (m & Hb & Hd & Hml & Hif & ->);
    [lia|].
  assert (Hb2 : m_buf m = (if_hwaddr ifp ++ mac) ++
    ([8; 6; 0; 1; 8; 0; 6; 4; 0; 2] ++ mac ++ le_bytes 4 dst) ++ (rest ++ drop 42 (replicate 2048 0))).
  { rewrite Hb. unfold cluster. pose proof (splice_app [] f (replicate 2048 0) 0 eq_refl) as E0.
    cbn [app] in E0. rewrite E0, Hfl, Hf, <- !app_assoc. done. }
  rewrite (mk_win_id m _ _ _ Hb2), Hd, Hml, Hfl. unfold ether_input. cbn [fst snd].
  rewrite m_len_win. change (Z.of_nat 42 <? ETHER_HDR_LEN) with false.
  assert (Hpre : length (if_hwaddr ifp ++ mac) = 12%nat) by (rewrite length_app; lia).
  assert (Hwin : length ([8; 6; 0; 1; 8; 0; 6; 4; 0; 2] ++ mac ++ le_bytes 4 dst) = 20%nat)
    by (rewrite !length_app, length_le_bytes, Hmac; done).
  rewrite (m_ld_at _ _ _ _ _ _ 0 2 12) by lia.
  change (ntohs (le_val (slice 0 2 _))) with 2054. change (2054 =? ETHERTYPE_IP) with false.
  change (2054 =? ETHERTYPE_ARP) with true. cbv iota.
  rewrite m_pull_at. change (0 + Z.to_nat ETHER_HDR_LEN)%nat with 14%nat.
  unfold arp_input. cbn [fst snd]. rewrite m_len_win.
  change (u64 (Z.of_nat 42 - ETHER_HDR_LEN) <? ARP_SIZE) with false. cbv iota.
  change (rcvif (mk_win m _ _ _ _ _)) with (rcvif m). rewrite Hif. cbv zeta.
  rewrite (m_ld_at _ _ _ _ _ _ 8 2 6) by lia. change (ntohs (le_val (slice 8 2 _))) with 2.
  change (2 =? ARPOP_REPLY) with true. cbv iota.
  rewrite (m_ld_at _ _ _ _ _ _ 16 4 14) by lia. rewrite !(m_bytes_at _ _ _ _ _ _ 10 6 8) by lia.
  assert (slice 16 4 ([8; 6; 0; 1; 8; 0; 6; 4; 0; 2] ++ mac ++ le_bytes 4 dst) = le_bytes 4 dst) as ->.
  { unfold slice. rewrite app_assoc, drop_app_length' by (rewrite length_app, Hmac; done). done. }
  assert (slice 10 6 ([8; 6; 0; 1; 8; 0; 6; 4; 0; 2] ++ mac ++ le_bytes 4 dst) = mac) as ->.
  { unfold slice. rewrite drop_app_length' by done. by apply take_app_length'. }
  rewrite le_val_bytes_small by lia.
  cbn [arp_pending arp_cache set_arp set_nheap]. rewrite Hp, arp_flush_app.
  rewrite (arp_flush_none ifp dst mac ws) by done.
  cbn [arp_flush wait_dst wait_m]. rewrite Z.eqb_refl.
  match goal with |- context [ether_output _ _ _ _ _ _ ?N] =>
    destruct (ether_output_em0 stale nic_done ifp p mac ETHERTYPE_IP mh h2 N) as [h' Eh];
      [done|done|lia|done|done|unfold ETHERTYPE_IP; lia|done|] end.
  rewrite Eh. cbn [arp_pending arp_cache set_arp set_nheap send_frame].
  rewrite filter_app, filter_idle by done. rewrite filter_cons_False by (cbn; lia).
  rewrite filter_nil, app_nil_r. eexists. reflexivity.
Qed.
End arp.
