(* ===== verification/Dns.v ===== *)
(** The resolver of src/kernel/net/dns.c: names in wire format, the cache, one
    query over the UDP of [Net.v] and [NetIn.v], and the order in which
    [dns_resolve] tries a dotted address, the cache, the servers and the
    built-in list.  The entries of the network log are left out.

    What a caller waits for is an argument: the frames that arrive before each
    poll.  [None] is a computation that does not come back, because it reads or
    writes out of bounds or recurses without end. *)
From Stdlib Require Import ZArith Lia.
From stdpp Require Import base numbers list gmap strings.
From S2P Require Import Prelude HeapIface Mbuf Net NetIn.

Definition DNS_PORT : Z := 53.
Definition DNS_FLAG_RD : Z := 256.
Definition DNS_FLAG_RCODE_MASK : Z := 15.
Definition DNS_TYPE_A : Z := 1.
Definition DNS_CLASS_IN : Z := 1.
Definition DNS_CACHE_SIZE : nat := 16.
(** [sizeof(struct dns_header)] and of the query and reply arrays. *)
Definition DNS_HDR : Z := 12.
Definition DNS_BUF : Z := 512.

Record dns_cache_entry := DnsEntry { hostname : list Z; dns_addr : Z; dns_valid : bool }.

Record dns := Dns {
  dns_server : Z;
  dns_cache : list dns_cache_entry;
  query_id : Z;
}.

Definition dns_boot : dns :=
  Dns 50462730 (replicate DNS_CACHE_SIZE (DnsEntry [] 0 false)) 1.

Definition dns_set_server (ip : Z) (d : dns) : dns := Dns ip (dns_cache d) (query_id d).

(** *** Cache *)

Definition dns_cache_lookup (name : list Z) (d : dns) : option Z :=
  dns_addr <$> List.find (fun e => dns_valid e && bool_decide (hostname e = name)) (dns_cache d).

(** The scan stops at the first free entry, and else ends at the first entry
    with the smallest address. *)
Fixpoint cache_victim (i : nat) (c : list dns_cache_entry) (idx : nat) (best : Z) : nat :=
  match c with
  | [] => idx
  | e :: c =>
      if negb (dns_valid e) then i
      else if dns_addr e <? best then cache_victim (S i) c i (dns_addr e)
      else cache_victim (S i) c idx best
  end.

Definition dns_cache_insert (name : list Z) (ip : Z) (d : dns) : dns :=
  let idx := cache_victim 0 (dns_cache d) 0 4294967295 in
  Dns (dns_server d) (<[idx := DnsEntry (take 63 name) ip true]> (dns_cache d)) (query_id d).

Definition dns_foreach (d : dns) : list (nat * list Z * Z) :=
  (fun ie => (ie.1, hostname ie.2, dns_addr ie.2)) <$>
  filter (fun ie => dns_valid ie.2 = true) (imap pair (dns_cache d)).

(** *** Names *)

Definition byte_at (msg : list Z) (off : Z) : Z := default 0 (msg !! Z.to_nat off).

(** [Some None] is the result -1; [out] is what has been written so far, and
    [fuel] bounds the labels and the pointers followed. *)
Fixpoint parse_dns_name (fuel : nat) (msg : list Z) (msg_len off out_len : Z) (out : list Z)
    (labels : Z) : option (option (Z * list Z)) :=
  match fuel with
  | O => None
  | S fuel =>
      if msg_len <=? off then Some (Some (off, removelast out)) else
      let b := byte_at msg off in
      let off := off + 1 in
      let out_pos := Z.of_nat (length out) in
      if b =? 0 then Some (Some (off, out)) else
      if Z.land b 192 =? 192 then
        if msg_len <=? off then Some None else
        let ptr := Z.lor (Z.shiftl (Z.land b 63) 8) (byte_at msg off) in
        match parse_dns_name fuel msg msg_len ptr 256 [] 0 with
        | None => None
        | Some None => Some None
        | Some (Some (_, tmp)) =>
            let tmp := cstr tmp in
            if out_len <=? out_pos + Z.of_nat (length tmp) + 1 then Some None
            else Some (Some (off + 1, out ++ tmp))
        end
      else if negb (Z.land b 192 =? 0) then Some None
      else if msg_len <? off + b then Some None
      else if out_len <=? out_pos + b + 1 then Some None
      else if 16 <? labels + 1 then Some None
      else parse_dns_name fuel msg msg_len (off + b) out_len
             (out ++ slice (Z.to_nat off) (Z.to_nat b) msg ++ [46]) (labels + 1)
  end.

(** The label up to the next dot, and what follows that dot. *)
Fixpoint span_dot (s : list Z) : list Z * list Z :=
  match s with
  | [] => ([], [])
  | c :: s => if c =? 46 then ([], s) else let '(a, r) := span_dot s in (c :: a, r)
  end.

(** None: a label longer than 63 bytes. *)
Fixpoint encode_labels (fuel : nat) (host : list Z) : option (list Z) :=
  match fuel with
  | O => None
  | S fuel =>
      match host with
      | [] => Some [0]
      | _ =>
          let '(label, rest) := span_dot host in
          if 63 <? Z.of_nat (length label) then None
          else (fun r => u8 (Z.of_nat (length label)) :: label ++ r) <$> encode_labels fuel rest
      end
  end.

Definition encode_dns_name (host : list Z) : option (list Z) :=
  encode_labels (S (length host)) host.

(** *** Queries *)

(** A big-endian 16-bit field of a message. *)
Definition be16_at (msg : list Z) (off : Z) : Z :=
  Z.lor (Z.shiftl (byte_at msg off) 8) (byte_at msg (off + 1)).

(** The bytes of the query after the header: [None] when the name cannot be
    encoded; the caller must fit it in the 512 bytes. *)
Definition dns_query_bytes (id : Z) (host : list Z) : option (list Z) :=
  (fun enc =>
     le_bytes 2 (htons id) ++ le_bytes 2 (htons DNS_FLAG_RD) ++ le_bytes 2 (htons 1) ++
     [0; 0; 0; 0; 0; 0] ++ enc ++
     [Z.land (Z.shiftr DNS_TYPE_A 8) 255; Z.land DNS_TYPE_A 255;
      Z.land (Z.shiftr DNS_CLASS_IN 8) 255; Z.land DNS_CLASS_IN 255])
  <$> encode_dns_name host.

Definition parse_fuel (len : Z) : nat := S (Z.to_nat len) * 17.

Fixpoint skip_questions (count : nat) (reply : list Z) (len off : Z) : option (option Z) :=
  match count with
  | O => Some (Some off)
  | S count =>
      match parse_dns_name (parse_fuel len) reply len off 256 [] 0 with
      | None => None
      | Some None => Some None
      | Some (Some (off, _)) => skip_questions count reply len (off + 4)
      end
  end.

(** The address of the first A record, in network order. *)
Fixpoint scan_answers (count : nat) (reply : list Z) (len off : Z) : option (option Z) :=
  match count with
  | O => Some None
  | S count =>
      match parse_dns_name (parse_fuel len) reply len off 256 [] 0 with
      | None => None
      | Some None => Some None
      | Some (Some (off, _)) =>
          if len <? off + 10 then Some None else
          let type := be16_at reply off in
          let rdlength := be16_at reply (off + 8) in
          let off := off + 10 in
          if (type =? DNS_TYPE_A) && (rdlength =? 4) && (off + 4 <=? len) then
            let addr := Z.lor (Z.lor (Z.lor (Z.shiftl (byte_at reply off) 24)
                          (Z.shiftl (byte_at reply (off + 1)) 16))
                          (Z.shiftl (byte_at reply (off + 2)) 8)) (byte_at reply (off + 3)) in
            Some (Some (htonl addr))
          else scan_answers count reply len (off + rdlength)
      end
  end.

Definition dns_reply_addr (reply : list Z) : option (option Z) :=
  let len := Z.of_nat (length reply) in
  if len <? DNS_HDR then Some None else
  if negb (Z.land (ntohs (ld 2 2 reply)) DNS_FLAG_RCODE_MASK =? 0) then Some None else
  let ancount := ntohs (ld 2 6 reply) in
  if ancount =? 0 then Some None else
  match skip_questions (Z.to_nat (ntohs (ld 2 4 reply))) reply len DNS_HDR with
  | None => None
  | Some None => Some None
  | Some (Some off) => scan_answers (Z.to_nat ancount) reply len off
  end.

Section query.
Context {H : Type} `{KernelHeap H, !AlignedHeap H}.
Variable stale : Z -> Z.
Variable nic_done : list Z -> bool.
Variables virtio_net_poll pcnet_poll : ifnet -> net H -> option (net H).

Definition poll (n : net H) : option (net H) :=
  net_poll stale nic_done virtio_net_poll pcnet_poll n.

Definition arrive (fs : list (list Z)) (n : net H) : net H := set_nic_rx (nic_rx n ++ fs) n.

(** Old replies for the port: at most one per slot. *)
Fixpoint flush_port (fuel : nat) (port : Z) (n : net H) : net H :=
  match fuel with
  | O => n
  | S fuel =>
      match udp_recv port 64 n with
      | (Some _, n) => flush_port fuel port n
      | (None, n) => n
      end
  end.

(** [timeout] polls, 50 ms apart, with a retransmission every 20. *)
Fixpoint wait_reply (timeout : nat) (retry : Z) (server sport : Z) (query : list Z)
    (env : list (list (list Z))) (n : net H) : option (option Z * net H) :=
  match timeout with
  | O => Some (None, n)
  | S timeout =>
      match poll (arrive (default [] (head env)) n) with
      | None => None
      | Some n =>
          match udp_recv sport DNS_BUF n with
          | (Some (_, _, reply), n) =>
              match dns_reply_addr reply with
              | None => None
              | Some r => Some (r, n)
              end
          | (None, n) =>
              if retry - 1 <=? 0 then
                wait_reply timeout 20 server sport query (tail env)
                  (udp_output stale nic_done server DNS_PORT sport query n).2
              else wait_reply timeout (retry - 1) server sport query (tail env) n
          end
      end
  end.

Definition dns_query_once (server : Z) (host : list Z) (env : list (list (list Z)))
    (d : dns) (n : net H) : option (option Z * dns * net H) :=
  let id := query_id d in
  let d := Dns (dns_server d) (dns_cache d) (u16 (query_id d + 1)) in
  match dns_query_bytes id host with
  | None => Some (None, d, n)
  | Some query =>
      (* the name is copied to the 512-byte array without a bound *)
      if DNS_BUF <? Z.of_nat (length query) then None else
      let sport := u16 (30000 + query_id d mod 1000) in
      match udp_output stale nic_done server DNS_PORT sport query n with
      | (ret, n) =>
          if ret <? 0 then Some (None, d, n) else
          let n := flush_port (S UDP_RX_SLOTS) sport n in
          match wait_reply 100 20 server sport query env n with
          | None => None
          | Some (None, n) => Some (None, d, n)
          | Some (Some ip, n) => Some (Some ip, dns_cache_insert host ip d, n)
          end
      end
  end.

Definition whitelist : list (list Z * Z) :=
  [(str "google.com", htonl 3627734734); (str "example.com", htonl 1572395042);
   (str "github.com", htonl 3223256945); (str "open-meteo.com", htonl 1746538095);
   (str "api.open-meteo.com", htonl 1746538095)].

Definition dns_fallback_whitelist (host : list Z) (d : dns) : option (Z * dns) :=
  match List.find (fun e => bool_decide (e.1 = host)) whitelist with
  | Some (_, ip) => Some (ip, dns_cache_insert host ip d)
  | None => None
  end.

(** The dotted form: the value so far, the octets closed and the current one;
    [None] at another character. *)
Fixpoint parse_dotted (s : list Z) (ip octets cur : Z) : option (Z * Z * Z) :=
  match s with
  | [] => Some (ip, octets, cur)
  | c :: s =>
      if (48 <=? c) && (c <=? 57) then parse_dotted s ip octets (i32 (cur * 10 + (c - 48)))
      else if c =? 46 then
        parse_dotted s (Z.lor (u32 (Z.shiftl ip 8)) (Z.land cur 255)) (octets + 1) 0
      else None
  end.

(** [envs]: what arrives during the query of each server. *)
Fixpoint try_servers (servers : list Z) (host : list Z) (envs : list (list (list (list Z))))
    (d : dns) (n : net H) : option (option Z * dns * net H) :=
  match servers with
  | [] => Some (None, d, n)
  | s :: servers =>
      if s =? 0 then try_servers servers host envs d n else
      match dns_query_once s host (default [] (head envs)) d n with
      | None => None
      | Some (Some ip, d, n) => Some (Some ip, d, n)
      | Some (None, d, n) => try_servers servers host (tail envs) d n
      end
  end.

Definition dns_resolve (host : list Z) (envs : list (list (list (list Z)))) (d : dns) (n : net H)
    : option (option Z * dns * net H) :=
  match match parse_dotted host 0 0 0 with
        | Some (ip, 3, cur) => Some (htonl (Z.lor (u32 (Z.shiftl ip 8)) (Z.land cur 255)))
        | _ => None
        end with
  | Some ip => Some (Some ip, d, n)
  | None =>
      match dns_cache_lookup host d with
      | Some ip => Some (Some ip, d, n)
      | None =>
          match try_servers [dns_server d; htonl 16843009; htonl 134744072] host envs d n with
          | None => None
          | Some (Some ip, d, n) => Some (Some ip, d, n)
          | Some (None, d, n) =>
              match dns_fallback_whitelist host d with
              | Some (ip, d) => Some (Some ip, d, n)
              | None => Some (None, d, n)
              end
          end
      end
  end.
End query.
