(* ===== verification/DnsProps.v ===== *)
(** The properties of the resolver: names survive the wire format, and a
    compression pointer to itself is never left. *)
From Stdlib Require Import ZArith Lia.
From stdpp Require Import base numbers list gmap strings.
From S2P Require Import Prelude HeapIface Mbuf Net NetIn Dns.

Definition DOT : Z := 46.

(** A label: 1 to 63 characters, no dot. *)
Definition label_ok (l : list Z) : Prop :=
  (0 < length l <= 63)%nat /\ Forall (fun c => c <> DOT /\ c <> 0) l.

#[global] Instance label_ok_dec l : Decision (label_ok l).
Proof. unfold label_ok. apply _. Defined.

(** The wire format of a name, its text, and the text with a final dot. *)
Definition wire_name (ls : list (list Z)) : list Z :=
  concat ((fun l => Z.of_nat (length l) :: l) <$> ls) ++ [0].

Fixpoint dotted (ls : list (list Z)) : list Z :=
  match ls with
  | [] => []
  | [l] => l
  | l :: ls => l ++ DOT :: dotted ls
  end.

Definition absolute (ls : list (list Z)) : list Z := concat ((fun l => l ++ [DOT]) <$> ls).

Lemma span_dot_end l : Forall (fun c => c <> DOT /\ c <> 0) l -> span_dot l = (l, []).
Proof.
  induction 1 as [|c l [Hc _] _ IH]; [done|]. cbn [span_dot].
  unfold DOT in Hc. by rewrite (proj2 (Z.eqb_neq c 46) Hc), IH.
Qed.

Lemma span_dot_app l r : Forall (fun c => c <> DOT /\ c <> 0) l -> span_dot (l ++ DOT :: r) = (l, r).
Proof.
  induction 1 as [|c l [Hc _] _ IH]; [done|]. cbn [app span_dot].
  unfold DOT in Hc. by rewrite (proj2 (Z.eqb_neq c 46) Hc), IH.
Qed.

Lemma dotted_nonempty l ls : label_ok l -> exists c r, dotted (l :: ls) = c :: r.
Proof.
  intros [Hl _]. destruct l as [|c l]; [cbn in Hl; lia|]. destruct ls; cbn; eauto.
Qed.

Lemma length_dotted ls : Forall label_ok ls -> (length ls <= length (dotted ls))%nat.
Proof.
  induction 1 as [|l ls [Hl _] Hls IH]; [done|]. destruct ls as [|l2 ls]; [cbn; lia|].
  change (dotted (l :: l2 :: ls)) with (l ++ DOT :: dotted (l2 :: ls)).
  rewrite length_app. cbn [length] in *. lia.
Qed.

Lemma encode_labels_dotted ls : forall fuel,
  Forall label_ok ls -> (length ls < fuel)%nat ->
  encode_labels fuel (dotted ls) = Some (wire_name ls).
Proof.
  induction ls as [|l ls IH]; intros fuel Hok Hf; (destruct fuel as [|fuel]; [lia|]); [done|].
  apply Forall_cons in Hok as [Hl Hls]. cbn [length] in Hf.
  assert (Hsp : span_dot (dotted (l :: ls)) = (l, dotted ls)).
  { destruct ls as [|l2 ls]; [by apply span_dot_end, Hl|by apply span_dot_app, Hl]. }
  destruct (dotted_nonempty l ls Hl) as (c & r & Hcr).
  cbn [encode_labels]. rewrite Hcr, <- Hcr, Hsp. destruct Hl as [Hlen _].
  rewrite (proj2 (Z.ltb_ge 63 _)), IH by (done || lia). cbn [fmap option_fmap option_map].
  rewrite wrap_small by lia. unfold wire_name. cbn [fmap list_fmap concat].
  by rewrite <- app_assoc.
Qed.

Lemma byte_at_app pre c post : byte_at (pre ++ c :: post) (Z.of_nat (length pre)) = c.
Proof. unfold byte_at. by rewrite Nat2Z.id, list_lookup_middle. Qed.

Lemma label_type b : 0 < b <= 63 -> Z.land b 192 = 0.
Proof.
  intros. change 192 with (Z.shiftl (Z.ones 2) 6). rewrite land_field by lia. zify_div.
Qed.

Lemma parse_wire_name ls : forall fuel pre post out labels,
  Forall label_ok ls -> (length ls < fuel)%nat -> labels + Z.of_nat (length ls) <= 16 ->
  Z.of_nat (length out) + Z.of_nat (length (absolute ls)) < 256 ->
  parse_dns_name fuel (pre ++ wire_name ls ++ post)
    (Z.of_nat (length (pre ++ wire_name ls ++ post))) (Z.of_nat (length pre)) 256 out labels =
  Some (Some (Z.of_nat (length pre + length (wire_name ls)), out ++ absolute ls)).
Proof.
  induction ls as [|l ls IH]; intros fuel pre post out labels Hok Hf Hlab Hout;
    (destruct fuel as [|fuel]; [lia|]); cbn [parse_dns_name].
  - cbn [wire_name fmap list_fmap concat app]. rewrite byte_at_app, length_app. cbn [length].
    rewrite (proj2 (Z.leb_gt _ _)) by lia. cbn [Z.eqb]. unfold absolute. cbn [fmap list_fmap concat].
    rewrite app_nil_r. do 3 f_equal. lia.
  - apply Forall_cons in Hok as [[Hl Hc] Hls]. cbn [length] in *.
    set (b := Z.of_nat (length l)). assert (Hb : 0 < b <= 63) by lia.
    assert (Hw : wire_name (l :: ls) = b :: l ++ wire_name ls)
      by (unfold wire_name; cbn [fmap list_fmap concat app]; by rewrite <- app_assoc).
    assert (Ha : absolute (l :: ls) = (l ++ [DOT]) ++ absolute ls) by done.
    rewrite Ha, !length_app in Hout. cbn [length] in Hout.
    rewrite Hw. cbn [app]. rewrite byte_at_app, !length_app. cbn [length]. rewrite !length_app.
    rewrite (proj2 (Z.leb_gt _ _)) by lia. rewrite (proj2 (Z.eqb_neq b 0)) by lia.
    rewrite label_type by done. change (0 =? 192) with false. change (negb (0 =? 0)) with false.
    rewrite (proj2 (Z.ltb_ge _ (Z.of_nat (length pre) + 1 + b))) by lia.
    rewrite (proj2 (Z.leb_gt 256 _)) by lia. rewrite (proj2 (Z.ltb_ge 16 _)) by lia.
    specialize (IH fuel (pre ++ b :: l) post (out ++ l ++ [DOT]) (labels + 1) Hls).
    rewrite !length_app in IH. cbn [length] in IH.
    replace (Z.of_nat (length pre) + 1 + b) with (Z.of_nat (length pre + S (length l))) by lia.
    replace (slice (Z.to_nat (Z.of_nat (length pre) + 1)) (Z.to_nat b)
               (pre ++ b :: (l ++ wire_name ls) ++ post)) with l.
    2: { unfold slice. change (b :: (l ++ wire_name ls) ++ post) with ([b] ++ (l ++ wire_name ls) ++ post).
         rewrite app_assoc, drop_app_length' by (rewrite length_app; cbn; lia).
         rewrite <- app_assoc. unfold b. by rewrite Nat2Z.id, take_app_length. }
    rewrite <- !app_assoc in IH. cbn [app] in IH. rewrite <- !app_assoc.
    replace (length pre + S (length l + length (wire_name ls) + length post))%nat
      with (length pre + S (length l) + (length (wire_name ls) + length post))%nat by lia.
    change 46 with DOT. rewrite IH by lia. rewrite Ha, <- !app_assoc. do 3 f_equal. lia.
Qed.

(** C40. A host name of at most 16 labels that fits the resolver's buffer is
    encoded to its wire format, and parsing that, wherever it lies in a
    message, gives the name back with the final dot of an absolute name and
    stops right behind it. *)
Theorem dns_name_roundtrip ls pre post :
  Forall label_ok ls -> (length ls <= 16)%nat -> Z.of_nat (length (absolute ls)) < 256 ->
  encode_dns_name (dotted ls) = Some (wire_name ls) /\
  let msg := pre ++ wire_name ls ++ post in
  parse_dns_name (parse_fuel (Z.of_nat (length msg))) msg (Z.of_nat (length msg))
    (Z.of_nat (length pre)) 256 [] 0 =
  Some (Some (Z.of_nat (length pre + length (wire_name ls)), absolute ls)).
Proof.
  intros Hok Hn Hlen. split.
  - apply encode_labels_dotted; [done|]. pose proof (length_dotted ls Hok). lia.
  - apply (parse_wire_name ls _ pre post []); [done| |lia|cbn; lia].
    unfold parse_fuel. lia.
Qed.

Lemma dns_name_roundtrip_witness :
  encode_dns_name (str "www.eigen.org") = Some (wire_name [str "www"; str "eigen"; str "org"]) /\
  parse_dns_name (parse_fuel 21) ([0; 1] ++ wire_name [str "www"; str "eigen"; str "org"] ++ [0; 1; 0; 1])
    21 2 256 [] 0 = Some (Some (17, str "www.eigen.org.")).
Proof.
  apply (dns_name_roundtrip [str "www"; str "eigen"; str "org"] [0; 1] [0; 1; 0; 1]).
  - refine (bool_decide_unpack _ _). vm_compute. exact I.
  - cbn. lia.
  - cbn. lia.
Defined.

(** A compression pointer that points at itself makes [parse_dns_name] call
    itself until the kernel stack is exhausted: no fuel is enough. *)
Lemma dns_pointer_loop fuel msg msg_len off out_len out labels :
  0 <= off < 16384 -> off + 1 < msg_len ->
  byte_at msg off = 192 + off / 256 -> byte_at msg (off + 1) = off mod 256 ->
  parse_dns_name fuel msg msg_len off out_len out labels = None.
Proof.
  intros Hoff Hlen Hb1 Hb2. revert out_len out labels.
  induction fuel as [|fuel IH]; intros out_len out labels; [done|]. cbn [parse_dns_name].
  rewrite (proj2 (Z.leb_gt _ off)) by lia. rewrite Hb1, Hb2.
  rewrite (proj2 (Z.eqb_neq (192 + off / 256) 0)) by zify_div.
  assert (Z.land (192 + off / 256) 192 = 192) as ->.
  { change 192 with (Z.shiftl (Z.ones 2) 6) at 2. rewrite land_field by lia. zify_div. }
  change (192 =? 192) with true. rewrite (proj2 (Z.leb_gt _ (off + 1))) by lia.
  assert (Z.lor (Z.shiftl (Z.land (192 + off / 256) 63) 8) (off mod 256) = off) as ->.
  { change 63 with (Z.ones 6). rewrite Z.land_ones, Z.shiftl_mul_pow2 by lia.
    rewrite (lor_disjoint _ _ 8) by zify_div. zify_div. }
  by rewrite IH.
Qed.
