(* ===== verification/Sock.v ===== *)
(** The socket calls of src/kernel/net/socket.c, for one caller: [env] holds
    the frames that arrive before each poll while the caller sleeps, and for
    [sys_ping] the milliseconds passed as well.  [None] is a fault, in a handler
    or through a null pointer.  The messages to the network log are left out. *)
From Stdlib Require Import ZArith Lia.
From stdpp Require Import base numbers list gmap strings.
From S2P Require Import Prelude HeapIface Mbuf Net NetIn NetQuiet Dns.

(** [sizeof(struct socket)]. *)
Definition SOCKET_SIZE : Z := 80.
Definition POLLIN : Z := 1.
Definition POLLOUT : Z := 4.
Definition POLLHUP : Z := 16.

Section sockets_api.
Context {H : Type} `{KernelHeap H, !AlignedHeap H}.
Variable stale : Z -> Z.
Variable nic_done : list Z -> bool.
Variables virtio_net_poll pcnet_poll : ifnet -> net H -> option (net H).

Let env_t : Type := list (list (list Z)).

(** [net_poll] after the next frames came in. *)
Definition poll_next (env : list (list (list Z))) (n : net H) : option (net H) :=
  poll stale nic_done virtio_net_poll pcnet_poll (arrive (default [] (head env)) n).

Definition get_so (s : Z) (n : net H) : option socket :=
  if (s <? 0) || (Z.of_nat MAX_SOCKETS <=? s) then None
  else match sockets n !! Z.to_nat s with Some (Some so) => Some so | _ => None end.

Definition put_so (s : Z) (so : option socket) (n : net H) : net H :=
  set_sockets (<[Z.to_nat s := so]> (sockets n)) (next_ephemeral n) n.

Definition send (so : socket) (flags : Z) (data : list Z) (n : net H) : Z * net H :=
  tcp_send_packet stale nic_done so flags data n.

Definition sys_socket (type : Z) (n : net H) : option (Z * net H) :=
  match find_from (fun _ s => match s with None => true | Some _ => false end) 0 (sockets n) with
  | None => Some (-1, n)
  | Some i =>
      match kmalloc SOCKET_SIZE (nheap n) with
      | (None, _) => None          (* memset through the null pointer *)
      | (Some a, h) =>
          Some (Z.of_nat i,
                put_so (Z.of_nat i)
                  (Some (Socket a type TCPS_CLOSED 0 0 0 None [] 0 0 0 0 false)) (set_nheap h n))
      end
  end.

Definition set_peer (lport rport raddr : Z) (so : socket) : socket :=
  Socket (so_addr so) (so_type so) TCPS_SYN_SENT lport rport raddr (so_rcv_buf so) (so_rcv so)
    (so_rcv_total so) 1000 0 (so_una so) (so_closed so).

(** The wait for the SYN-ACK: the SYN is sent again every 60 polls, at most
    eight times. *)
Fixpoint connect_wait (timeout : nat) (syn_retry orig_seq s : Z) (env : env_t) (n : net H)
    : option (net H) :=
  match timeout with
  | O => Some n
  | S timeout =>
      match get_so s n with
      | None => None
      | Some so =>
          if (so_state so =? TCPS_ESTABLISHED) || so_closed so then Some n else
          match poll_next env n with
          | None => None
          | Some n =>
              match get_so s n with
              | None => None
              | Some so =>
                  if (Z.of_nat timeout mod 60 =? 0) && (0 <? syn_retry) then
                    let so := set_so (so_state so) orig_seq (so_ack so) (so_una so)
                                (so_closed so) so in
                    let n := (send so TH_SYN [] (put_so s (Some so) n)).2 in
                    connect_wait timeout (syn_retry - 1) orig_seq s (tail env) n
                  else connect_wait timeout syn_retry orig_seq s (tail env) n
              end
          end
      end
  end.

(** [rport] and [raddr] as in the sockaddr, in network byte order. *)
Definition sys_connect (s rport raddr : Z) (env : env_t) (n : net H) : option (Z * net H) :=
  match get_so s n with
  | None => Some (-1, n)
  | Some so =>
      let port := next_ephemeral n in
      let next := u16 (port + 1) in
      let next := if 40000 <=? next then 20000 else next in
      let so := set_peer (htons port) rport raddr so in
      let n := set_sockets (<[Z.to_nat s := Some so]> (sockets n)) next n in
      let '(ret, n) := send so TH_SYN [] n in
      (* orig_seq is read after the increment *)
      let so := if ret =? 0
                then set_so (so_state so) (u32 (so_seq so + 1)) (so_ack so) (so_una so)
                       (so_closed so) so else so in
      let n := put_so s (Some so) n in
      match connect_wait 500 8 (so_seq so) s env n with
      | None => None
      | Some n =>
          match get_so s n with
          | Some so => Some (if so_state so =? TCPS_ESTABLISHED then 0 else -1, n)
          | None => None
          end
      end
  end.

Fixpoint send_wait (timeout : nat) (ticks target_seq s len : Z) (msg : list Z) (env : env_t)
    (n : net H) : option (Z * net H) :=
  match timeout with
  | O => Some (-1, n)
  | S timeout =>
      match poll_next env n with
      | None => None
      | Some n =>
          match get_so s n with
          | None => None
          | Some so =>
              let ticks := ticks + 1 in
              if target_seq <=? so_una so then
                Some (len, put_so s (Some (set_so (so_state so) target_seq (so_ack so)
                                             (so_una so) (so_closed so) so)) n)
              else if so_closed so then Some (-1, n)
              else if 120 <=? ticks then
                send_wait timeout 0 target_seq s len msg (tail env)
                  (send so (Z.lor TH_ACK TH_PUSH) msg n).2
              else send_wait timeout ticks target_seq s len msg (tail env) n
          end
      end
  end.

(** [len] is the caller's; [msg] holds at least that many bytes. *)
Definition sys_send (s : Z) (msg : list Z) (len : Z) (env : env_t) (n : net H)
    : option (Z * net H) :=
  match get_so s n with
  | None => Some (-1, n)
  | Some so =>
      if negb (so_state so =? TCPS_ESTABLISHED) then Some (-1, n) else
      if len <? 0 then Some (-1, n) else
      let len := if MAX_TCP_PAYLOAD <? len then MAX_TCP_PAYLOAD else len in
      let msg := take (Z.to_nat len) msg in
      let target_seq := u32 (so_seq so + len) in
      let n := (send so (Z.lor TH_ACK TH_PUSH) msg n).2 in
      send_wait 400 0 target_seq s len msg env n
  end.

Fixpoint recv_wait (timeout : nat) (s : Z) (env : env_t) (n : net H) : option (net H) :=
  match timeout with
  | O => Some n
  | S timeout =>
      match get_so s n with
      | None => None
      | Some so =>
          if negb (length (so_rcv so) =? 0)%nat || so_closed so then Some n else
          match poll_next env n with
          | None => None
          | Some n => recv_wait timeout s (tail env) n
          end
      end
  end.

(** The bytes copied to the caller, or an error code. *)
Definition sys_recv (s len : Z) (env : env_t) (n : net H) : option ((Z * list Z) * net H) :=
  match get_so s n with
  | None => Some ((-1, []), n)
  | Some _ =>
      match recv_wait 100 s env n with
      | None => None
      | Some n =>
          match get_so s n with
          | None => None
          | Some so =>
              let have := Z.of_nat (length (so_rcv so)) in
              if have =? 0 then Some ((0, []), n) else
              (* len is converted to uint32_t for the comparison *)
              let to_copy := if u32 len <? have then len else have in
              let out := take (Z.to_nat to_copy) (so_rcv so) in
              let so := set_rcv (so_rcv_buf so) (drop (Z.to_nat to_copy) (so_rcv so))
                          (so_rcv_total so) so in
              let n := put_so s (Some so) n in
              let free_win := SOCK_RCVBUF - Z.of_nat (length (so_rcv so)) in
              let n := if (0 <? to_copy) && (so_state so =? TCPS_ESTABLISHED) && negb (so_closed so)
                          && (0 <? free_win) && (free_win <=? 65535)
                       then (send so TH_ACK [] n).2 else n in
              Some ((to_copy, out), n)
          end
      end
  end.

Definition sys_socket_poll (s : Z) (n : net H) : Z :=
  match get_so s n with
  | None => -1
  | Some so =>
      Z.lor (Z.lor (if 0 <? Z.of_nat (length (so_rcv so)) then Z.lor POLLIN 64 else 0)
                   (if so_closed so then POLLHUP else 0))
        (if so_state so =? TCPS_ESTABLISHED then Z.lor POLLOUT 256 else 0)
  end.

Definition sys_socket_rx_total (s : Z) (n : net H) : Z :=
  match get_so s n with None => -1 | Some so => i32 (so_rcv_total so) end.

Fixpoint close_wait (waits : nat) (fin_seq s : Z) (env : env_t) (n : net H) : option (net H) :=
  match waits with
  | O => Some n
  | S waits =>
      match get_so s n with
      | None => None
      | Some so =>
          if fin_seq <? so_una so then Some n else
          match poll_next env n with
          | None => None
          | Some n => close_wait waits fin_seq s (tail env) n
          end
      end
  end.

Definition sys_socket_close (s : Z) (env : env_t) (n : net H) : option (Z * net H) :=
  match get_so s n with
  | None => Some (-1, n)
  | Some so =>
      match if so_state so =? TCPS_ESTABLISHED
            then close_wait 40 (so_seq so) s env (send so (Z.lor TH_FIN TH_ACK) [] n).2
            else Some n with
      | None => None
      | Some n =>
          match get_so s n with
          | None => None
          | Some so =>
              let h := match so_rcv_buf so with Some b => kfree b (nheap n) | None => nheap n end in
              Some (0, put_so s None (set_nheap (kfree (so_addr so) h) n))
          end
      end
  end.

Definition sys_socket_closed (s : Z) (n : net H) : bool :=
  match get_so s n with None => true | Some so => so_closed so end.

(** *** ping *)

Definition ping_fill (src dst : Z) (m : mbuf ifnet) : mbuf ifnet :=
  let m := set_window (m_data m + 100) (m_len m) m in
  let m := m_put 0 (replicate 8 0) m in
  let m := m_st 1 0 ICMP_ECHO m in
  let m := m_st 1 1 0 m in
  let m := m_st 2 4 (htons 4660) m in
  let m := m_st 2 6 (htons 1) m in
  let m := set_window (m_data m) 8 m in
  let m := m_st 2 2 (icmp_checksum (m_bytes 0 8 m)) m in
  let m := m_push IP_SIZE m in
  let m := m_put 0 (replicate 20 0) m in
  let m := set_ip_hl 5 (set_ip_v 4 m) in
  let m := m_st 1 9 IPPROTO_ICMP m in
  let m := m_st 2 2 (htons (m_len m)) m in
  let m := m_st 1 8 64 m in
  let m := m_st 4 12 src m in
  m_st 4 16 dst m.

(** [env]: the milliseconds since the request at each look at the clock, and
    the frames that arrive then; the wait ends with the list at the latest. *)
Fixpoint ping_wait (env : list (Z * list (list Z))) (ip_addr : Z) (n : net H)
    : option (Z * net H) :=
  match env with
  | [] => Some (-1, n)
  | (ms, fs) :: env =>
      if 2000 <=? ms then Some (-1, n) else
      match poll stale nic_done virtio_net_poll pcnet_poll (arrive fs n) with
      | None => None
      | Some n =>
          match icmp_get_echo_reply n with
          | (Some (src, id, seq), n) =>
              if (src =? ip_addr) && (id =? htons 4660) && (seq =? htons 1) then Some (0, n)
              else ping_wait env ip_addr n
          | (None, n) => ping_wait env ip_addr n
          end
      end
  end.

Definition sys_ping (ip_addr : Z) (env : list (Z * list (list Z))) (n : net H)
    : option (Z * net H) :=
  match List.find (fun i => negb (Z.land (if_flags i) IFF_RUNNING =? 0) && negb (if_ip i =? 0))
          (ifnet_list n) with
  | None => Some (-1, n)
  | Some ifp =>
      match m_getcl stale MT_DATA (nheap n) with
      | (None, h) => Some (-1, set_nheap h n)
      | (Some m, h) =>
          let m := ping_fill (if_ip ifp) ip_addr m in
          let '(ret, n) := ip_output stale nic_done (m, []) (Some ifp) (set_nheap h n) in
          if negb (ret =? 0) then Some (-1, n) else ping_wait env ip_addr n
      end
  end.

End sockets_api.

(** *** What [sys_recv] returns when data is waiting *)

Section recv.
Context {H : Type} `{KernelHeap H, !AlignedHeap H}.
Variables (stale : Z -> Z) (nic_done : list Z -> bool).
Variables virtio_net_poll pcnet_poll : ifnet -> net H -> option (net H).

Lemma get_put_so s so so0 (n : net H) :
  get_so s n = Some so0 -> get_so s (put_so s (Some so) n) = Some so.
Proof.
  unfold get_so, put_so. destruct (_ || _); [done|]. cbn [sockets set_sockets].
  destruct (sockets n !! Z.to_nat s) as [o|] eqn:E; [|done]. intros _.
  rewrite list_lookup_insert_eq; [done|]. by eapply lookup_lt_Some.
Qed.

(** The oldest bytes, in order, without a poll; the rest stays. *)
Lemma sys_recv_takes s len env so (n : net H) :
  get_so s n = Some so -> so_rcv so <> [] -> 0 <= len < 2 ^ 31 ->
  exists n' so', sys_recv stale nic_done virtio_net_poll pcnet_poll s len env n =
      Some ((Z.of_nat (length (take (Z.to_nat len) (so_rcv so))),
             take (Z.to_nat len) (so_rcv so)), n') /\
    get_so s n' = Some so' /\ so_rcv so' = drop (Z.to_nat len) (so_rcv so).
Proof.
  intros Hs Hne Hlen. unfold sys_recv. rewrite Hs.
  assert (recv_wait stale nic_done virtio_net_poll pcnet_poll 100 s env n = Some n) as ->.
  { cbn [recv_wait]. rewrite Hs. destruct (so_rcv so); done. }
  rewrite Hs. cbv zeta. rewrite (proj2 (Z.eqb_neq (Z.of_nat (length (so_rcv so))) 0))
    by (destruct (so_rcv so); [done|cbn [length]; lia]).
  rewrite (wrap_small 32) by lia.
  set (k := if len <? _ then len else _).
  assert (Hk : take (Z.to_nat k) (so_rcv so) = take (Z.to_nat len) (so_rcv so) /\
    drop (Z.to_nat k) (so_rcv so) = drop (Z.to_nat len) (so_rcv so) /\
    k = Z.of_nat (length (take (Z.to_nat len) (so_rcv so)))).
  { unfold k. rewrite length_take.
    destruct (Z.ltb_spec len (Z.of_nat (length (so_rcv so)))); (split; [|split]); try done; try lia.
    - by rewrite !take_ge by lia.
    - by rewrite !drop_ge by lia. }
  destruct Hk as (-> & -> & Hk). rewrite <- Hk. clearbody k.
  set (so' := set_rcv _ _ _ so). set (n1 := put_so s (Some so') n).
  assert (H1 : get_so s n1 = Some so') by by eapply get_put_so.
  destruct (_ && _ && _ && _ && _); [|by exists n1, so'].
  eexists _, so'. split; [done|]. split; [|done].
  destruct (tcp_send_packet_quiet stale nic_done so' TH_ACK [] n1) as [[_ _ [Es _] _] _ _].
  unfold get_so, send in *. by rewrite Es.
Qed.
End recv.
