(* ===== verification/Dhcp.v ===== *)
(** The DHCP client of src/kernel/net/dhcp.c and the choice between its lease
    and the static address in [configure_iface] of src/kernel/net/net.c.
    [envs] holds, for each try, the frames that arrive before each poll of its
    1500 ms.  [dhcp_parse_options], which nothing calls, the network log and the
    boot messages are left out. *)
From Stdlib Require Import ZArith Lia.
From stdpp Require Import base numbers list gmap strings.
From S2P Require Import Prelude HeapIface Mbuf Net NetIn Dns.

Definition DHCP_DISCOVER : Z := 1.
Definition DHCP_OFFER : Z := 2.
Definition DHCP_REQUEST : Z := 3.
Definition DHCP_ACK : Z := 5.
Definition DHCP_NAK : Z := 6.
Definition DHCP_SERVER_PORT : Z := 67.
Definition DHCP_CLIENT_PORT : Z := 68.
Definition DHCP_HDR_MAGIC : Z := 1669485411.
Definition DHCP_OPT_SUBNET : Z := 1.
Definition DHCP_OPT_ROUTER : Z := 3.
Definition DHCP_OPT_DNS : Z := 6.
Definition DHCP_OPT_REQIP : Z := 50.
Definition DHCP_OPT_MSGTYPE : Z := 53.
Definition DHCP_OPT_SERVERID : Z := 54.
Definition DHCP_OPT_END : Z := 255.
(** [sizeof(struct dhcp_pkt)] and of its options. *)
Definition DHCP_SIZE : Z := 552.
Definition DHCP_OPTIONS : Z := 312.

Definition dhcp_broadcast_addr : Z := 4294967295.

Definition dhcp_add_option (tag : Z) (val o : list Z) : list Z :=
  o ++ tag :: Z.of_nat (length val) :: val.

(** The message: [after_mac] is the byte behind the six of [g_mac], which the
    client identifier of seven bytes takes in. *)
Definition dhcp_message (xid : Z) (mac : list Z) (after_mac msgtype req_ip server_ip : Z) : list Z :=
  let o := dhcp_add_option DHCP_OPT_MSGTYPE [u8 msgtype] [] in
  let o := if (msgtype =? DHCP_REQUEST) && negb (req_ip =? 0)
           then dhcp_add_option DHCP_OPT_REQIP (le_bytes 4 (htonl req_ip)) o else o in
  let o := if (msgtype =? DHCP_REQUEST) && negb (server_ip =? 0)
           then dhcp_add_option DHCP_OPT_SERVERID (le_bytes 4 (htonl server_ip)) o else o in
  let o := dhcp_add_option 61 (mac ++ [after_mac]) o ++ [DHCP_OPT_END] in
  [1; 1; 6; 0] ++ le_bytes 4 (htonl xid) ++ [0; 0] ++ le_bytes 2 (htons 32768) ++
  replicate 16 0 ++ (mac ++ replicate 10 0) ++ replicate 192 0 ++
  le_bytes 4 (htonl DHCP_HDR_MAGIC) ++ o ++
  replicate (Z.to_nat DHCP_OPTIONS - length o) 0.

Record dhcp_reply := DhcpReply {
  d_msgtype : Z; d_yiaddr : Z; d_mask : Z; d_gw : Z; d_dns : Z; d_server : Z }.

Definition dhcp_no_reply : dhcp_reply := DhcpReply 0 0 0 0 0 0.

(** One option stored in the results, in host order. *)
Definition dhcp_take_option (tag : Z) (v : list Z) (olen : Z) (r : dhcp_reply) : dhcp_reply :=
  let addr := ntohl (le_val (take 4 v)) in
  if tag =? DHCP_OPT_MSGTYPE then
    DhcpReply (default 0 (head v)) (d_yiaddr r) (d_mask r) (d_gw r) (d_dns r) (d_server r)
  else if (tag =? DHCP_OPT_SUBNET) && (4 <=? olen) then
    DhcpReply (d_msgtype r) (d_yiaddr r) addr (d_gw r) (d_dns r) (d_server r)
  else if (tag =? DHCP_OPT_ROUTER) && (4 <=? olen) then
    DhcpReply (d_msgtype r) (d_yiaddr r) (d_mask r) addr (d_dns r) (d_server r)
  else if (tag =? DHCP_OPT_DNS) && (4 <=? olen) then
    DhcpReply (d_msgtype r) (d_yiaddr r) (d_mask r) (d_gw r) addr (d_server r)
  else r.

(** The walk over the options; every step moves on, so [DHCP_OPTIONS] steps
    are enough. *)
Fixpoint dhcp_options (fuel : nat) (off limit : Z) (opts : list Z) (r : dhcp_reply) : dhcp_reply :=
  match fuel with
  | O => r
  | S fuel =>
      if limit <=? off then r else
      if (off <? 0) || (DHCP_OPTIONS <=? off + 1) then r else
      let tag := byte_at opts off in
      if tag =? DHCP_OPT_END then r else
      if tag =? 0 then dhcp_options fuel (off + 1) limit opts r else
      let olen := byte_at opts (off + 1) in
      if DHCP_OPTIONS <? off + 2 + olen then r else
      dhcp_options fuel (off + 2 + olen) limit opts
        (dhcp_take_option tag (drop (Z.to_nat (off + 2)) opts) olen r)
  end.

(** [r] holds the caller's variables; [None] is the result -1. *)
Definition dhcp_parse (want_xid src_ip src_port : Z) (buf : list Z) (r : dhcp_reply)
    : option dhcp_reply :=
  let len := Z.of_nat (length buf) in
  if len <? DHCP_SIZE then None else
  if negb (ntohl (ld 4 4 buf) =? want_xid) then None else
  if negb (ntohl (ld 4 236 buf) =? DHCP_HDR_MAGIC) then None else
  if negb (src_port =? DHCP_SERVER_PORT) then None else
  let r := DhcpReply 0 (ntohl (ld 4 16 buf)) (d_mask r) (d_gw r) (d_dns r) src_ip in
  Some (dhcp_options (S (Z.to_nat DHCP_OPTIONS)) 0 (len - DHCP_SIZE + DHCP_OPTIONS)
          (drop 240 buf) r).

Definition set_if_addr (ip mask gw dns : Z) (dhcp : bool) (i : ifnet) : ifnet :=
  Ifnet (if_xname i) (if_flags i) (if_mtu i) ip mask gw dns dhcp (if_hwaddr i)
    (if_ipackets i) (if_opackets i) (if_drv i).

Section client.
Context {H : Type} `{KernelHeap H, !AlignedHeap H}.
Variable stale : Z -> Z.
Variable nic_done : list Z -> bool.
Variables virtio_net_poll pcnet_poll : ifnet -> net H -> option (net H).
Variable after_mac : Z.

Definition update_if (i : ifnet) (n : net H) : net H :=
  set_ifs ((fun j => if decide (if_xname j = if_xname i) then i else j) <$> ifnet_list n) n.

(** The mbuf the message is put together in is not the one [udp_output] sends,
    and is not freed. *)
Definition dhcp_send (xid : Z) (mac : list Z) (msgtype req_ip server_ip : Z) (n : net H)
    : Z * net H :=
  match m_getcl (IF := ifnet) stale MT_DATA (nheap n) with
  | (None, h) => (-1, set_nheap h n)
  | (Some _, h) =>
      udp_output stale nic_done dhcp_broadcast_addr DHCP_SERVER_PORT DHCP_CLIENT_PORT
        (dhcp_message xid mac after_mac msgtype req_ip server_ip) (set_nheap h n)
  end.

Definition dhcp_recv (want_xid : Z) (r : dhcp_reply) (n : net H) : option dhcp_reply * net H :=
  match udp_recv DHCP_CLIENT_PORT DHCP_SIZE n with
  | (None, n) => (None, n)
  | (Some (src_ip, src_port, buf), n) => (dhcp_parse want_xid src_ip src_port buf r, n)
  end.

(** The polls of one try; [accept] says which reply ends the wait.  The first
    component is the variables as the last message left them, since a message
    that is not accepted has been stored in them as well. *)
Fixpoint dhcp_listen (env : list (list (list Z))) (xid : Z) (fresh : bool)
    (accept : dhcp_reply -> option bool) (r : dhcp_reply) (n : net H)
    : option (dhcp_reply * option bool * net H) :=
  match env with
  | [] => Some (r, None, n)
  | fs :: env =>
      match net_poll stale nic_done virtio_net_poll pcnet_poll (arrive fs n) with
      | None => None
      | Some n =>
          match dhcp_recv xid (if fresh then dhcp_no_reply else r) n with
          | (Some r', n) =>
              match accept r' with
              | Some ok => Some (r', Some ok, n)
              | None => dhcp_listen env xid fresh accept r' n
              end
          | (None, n) => dhcp_listen env xid fresh accept r n
          end
      end
  end.

(** Up to eight tries, the message sent again after each. *)
Fixpoint dhcp_tries (tries : nat) (envs : list (list (list (list Z)))) (xid : Z) (fresh : bool)
    (accept : dhcp_reply -> option bool) (resend : net H -> net H) (r : dhcp_reply) (n : net H)
    : option (dhcp_reply * option bool * net H) :=
  match tries with
  | O => Some (r, None, n)
  | S tries =>
      match dhcp_listen (default [] (head envs)) xid fresh accept r n with
      | None => None
      | Some (r, Some ok, n) => Some (r, Some ok, n)
      | Some (r, None, n) => dhcp_tries tries (tail envs) xid fresh accept resend r (resend n)
      end
  end.

Definition offer_ok (r : dhcp_reply) : option bool :=
  if (d_msgtype r =? DHCP_OFFER) && negb (d_yiaddr r =? 0) then Some true else None.
Definition ack_ok (r : dhcp_reply) : option bool :=
  if (d_msgtype r =? DHCP_ACK) && negb (d_yiaddr r =? 0) then Some true
  else if d_msgtype r =? DHCP_NAK then Some false else None.

Definition dhcp_xid (mac : list Z) : Z :=
  u32 (305419896 + Z.shiftl (byte_at mac 5) 8 + byte_at mac 4).

(** [envs1] and [envs2] are the tries of the offer and of the acknowledgement. *)
Definition dhcp_request (ifp : ifnet) (envs1 envs2 : list (list (list (list Z)))) (d : dns)
    (n : net H) : option (Z * dns * net H) :=
  let mac := if_hwaddr ifp in
  let xid := dhcp_xid mac in
  let '(ret, n) := dhcp_send xid mac DHCP_DISCOVER 0 0 n in
  if ret <? 0 then Some (-1, d, n) else
  match dhcp_tries 8 envs1 xid false offer_ok
          (fun n => (dhcp_send xid mac DHCP_DISCOVER 0 0 n).2) dhcp_no_reply n with
  | None => None
  | Some (_, None, n) => Some (-1, d, n)
  | Some (off, Some _, n) =>
      let '(ret, n) := dhcp_send xid mac DHCP_REQUEST (d_yiaddr off) (d_server off) n in
      if ret <? 0 then Some (-1, d, n) else
      match dhcp_tries 8 envs2 xid true ack_ok
              (fun n => (dhcp_send xid mac DHCP_REQUEST (d_yiaddr off) (d_server off) n).2)
              dhcp_no_reply n with
      | None => None
      | Some (ack, Some true, n) =>
          let mask := if d_mask ack =? 0 then htonl 4294967040 else htonl (d_mask ack) in
          let gw := if d_gw ack =? 0 then 0 else htonl (d_gw ack) in
          let dnsip := if d_dns ack =? 0 then htonl 167772675 else htonl (d_dns ack) in
          Some (0, dns_set_server dnsip d,
                update_if (set_if_addr (htonl (d_yiaddr ack)) mask gw dnsip true ifp) n)
      | Some (_, _, n) => Some (-1, d, n)
      end
  end.

(** The lease, or the static address of the emulator's network. *)
Definition configure_iface (ifp : ifnet) (envs1 envs2 : list (list (list (list Z)))) (d : dns)
    (n : net H) : option (dns * net H) :=
  match dhcp_request ifp envs1 envs2 d n with
  | None => None
  | Some (ret, d, n) =>
      if ret =? 0 then
        let i := default ifp (if_find (if_xname ifp) n) in
        Some (dns_set_server (if_dns i) d, n)
      else
        let i := set_if_addr (htonl 167772687) (htonl 4294967040) (htonl 167772674)
                   (htonl 167772675) false ifp in
        Some (dns_set_server (if_dns i) d, update_if i n)
  end.
End client.

(** The message of the longest DHCP datagram every client must take (RFC 2131:
    312 bytes of options, the magic number among them) is four bytes short of
    the structure, and is dropped. *)
Lemma dhcp_standard_size_dropped xid src_ip src_port buf r :
  length buf = 548%nat -> dhcp_parse xid src_ip src_port buf r = None.
Proof. intros Hl. unfold dhcp_parse. rewrite Hl. done. Qed.

(** The server identifier of a REQUEST is the server's address with its bytes
    reversed: [d_server] is the address as it arrived, in network order. *)
Lemma dhcp_server_id_reversed xid mac after_mac req_ip server :
  length mac = 6%nat -> req_ip <> 0 -> server <> 0 ->
  slice 249 6 (dhcp_message xid mac after_mac DHCP_REQUEST req_ip server) =
    DHCP_OPT_SERVERID :: 4 :: le_bytes 4 (htonl server).
Proof.
  intros Hm Hr Hs. unfold dhcp_message. rewrite (proj2 (Z.eqb_neq _ _) Hr), (proj2 (Z.eqb_neq _ _) Hs).
  destruct mac as [|m0 [|m1 [|m2 [|m3 [|m4 [|m5 [|]]]]]]]; [done..| |done].
  reflexivity.
Qed.
