(* ===== verification/NetProps.v ===== *)
(** The properties of the network stack. *)
From Stdlib Require Import ZArith Lia.
From stdpp Require Import base numbers list gmap strings.
From S2P Require Import Prelude HeapIface Kheap KheapSpec Mbuf Net NetIn NetSpec NetWire NetQuiet NetTcp NetArp.

Section props.
Context {H : Type} `{KernelHeap H, !AlignedHeap H}.
Variables (stale : Z -> Z) (nic_done : list Z -> bool).

(** C37. A datagram sent to a host whose hardware address is in the ARP cache
    leaves as one frame, addressed to that host and with an IP header whose
    checksum a receiver accepts; when the receiving kernel takes that frame
    from its ring, [udp_recv] on the destination port returns the sender's
    address and port and exactly the payload. *)
Theorem udp_delivers (a b : net H) ifa ifb mac dst dport sport data m1 h1 mh h2 mb hb len :
  routed a ifa dst mac -> (length data <= 1472)%nat -> Z.of_nat (length data) <= len ->
  0 <= sport < 65536 -> 0 <= dport < 65536 ->
  m_getcl (IF := ifnet) stale MT_DATA (nheap a) = (Some m1, h1) ->
  m_get (IF := ifnet) stale MT_HEADER h1 = (Some mh, h2) ->
  m_getcl (IF := ifnet) stale MT_DATA (nheap b) = (Some mb, hb) ->
  (udp_next_rx b < length (udp_rx b))%nat ->
  Forall (fun s => us_used s && (us_port s =? dport) = false) (udp_rx b) ->
  exists a' b' frame,
    udp_output stale nic_done dst dport sport data a = (0, a') /\
    wire a' = wire a ++ [frame] /\ slice 0 6 frame = mac /\
    ip_checksum (slice 14 20 frame) = 0 /\
    e1000_rx stale nic_done ifb frame b = Some b' /\
    (udp_recv dport len b').1 = Some (if_ip ifa, sport, data).
Proof.
  intros Hr Hl Hlen Hsp Hdp Hg Hh Hgb Hn Hidle.
  destruct (udp_output_sent stale nic_done a ifa dst mac dport sport data _ _ _ _ Hr Hl Hsp Hdp Hg Hh)
    as [h' ->].
  destruct Hr as [_ _ Hhw Hip _ [Hid _] _ _ _ _ Hm6].
  set (frame := udp_frame _ _ _ _ _ _ _ _).
  destruct (e1000_rx_udp stale nic_done ifb mac (if_hwaddr ifa) (ip_id_counter a) (if_ip ifa) dst
              sport dport data mb hb b Hm6 Hhw Hl Hip Hsp Hdp Hgb) as [h'' Erx].
  do 2 eexists. exists frame. split; [reflexivity|]. split; [done|]. split; [|split; [|split]].
  - unfold frame, udp_frame, eth_hdr, slice. rewrite drop_0, <- !app_assoc. by apply take_app_length'.
  - unfold frame, udp_frame, eth_hdr. rewrite <- !app_assoc, app_assoc, app_assoc.
    set (pre := _ ++ [_; _]).
    assert (length pre = 14%nat) by (unfold pre; rewrite !length_app; cbn [length]; lia).
    unfold slice. rewrite drop_app_length' by done. rewrite take_app_length' by done.
    apply ip_hdr_valid; unfold IPPROTO_UDP; lia.
  - exact Erx.
  - unfold udp_recv, udp_store. cbn [udp_rx set_nheap set_udp].
    set (s := UdpSlot dport (if_ip ifa) sport data true).
    assert (Hf : find_from (fun _ s => us_used s && (us_port s =? dport)) 0
                   (<[udp_next_rx b := s]> (udp_rx b)) = Some (udp_next_rx b)).
    { apply find_from_Some. split; [lia|]. split.
      - exists s. split; [by apply list_lookup_insert_eq|]. cbn. apply Z.eqb_refl.
      - intros j y Hj Hy. rewrite list_lookup_insert_ne in Hy by lia.
        rewrite Forall_lookup in Hidle. by apply (Hidle j). }
    rewrite Hf, list_lookup_insert_eq by done. cbn [fst us_src_ip us_src_port us_data s].
    unfold s. cbn [us_src_ip us_src_port us_data].
    destruct (Z.ltb_spec (Z.of_nat (length data)) len); by rewrite take_ge by lia.
Qed.

(** C39. TCP reception: the segments that reach an established socket are
    appended to its receive buffer in the order they arrive, whatever their
    sequence numbers are, and the buffer, which the first of them allocates,
    holds the newest 256 KB of that.  Each one is answered at once: when there
    are mbufs for it, one frame goes to the peer's hardware address that
    acknowledges the end of the segment just taken, with a valid IP header and
    the window that is left, and nothing else is sent.  So a retransmitted
    segment is delivered twice and a late one moves the acknowledgement
    backwards.  The segments have no SYN, RST or FIN and lie in their clusters,
    the ARP cache has the peer's next hop, and the kernel heap has room for the
    receive buffer if there is none yet. *)
Theorem tcp_stream off port i rcv ack (ps : list packet) (ss : list (Z * list Z)) so (n : net H) ifp mac :
  Forall2 (fun p s => segment p off port s.1 s.2) ps ss ->
  find_from (tcp_match port) 0 (sockets n) = Some i -> sockets n !! i = Some (Some so) ->
  connected so rcv ack -> Z.of_nat (length rcv) <= SOCK_RCVBUF -> has_buffer so (nheap n) ->
  routed n ifp (so_remote_addr so) mac -> 0 <= tcp_ip_id n < 65536 ->
  (exists n' so', tcp_run stale nic_done off ps n = Some n' /\
    sockets n' !! i = Some (Some so') /\
    connected so' (newest (rcv ++ concat (snd <$> ss)))
      (foldl (fun _ s => u32 (s.1 + Z.of_nat (length s.2))) ack ss) /\
    forall j, j <> i -> sockets n' !! j = sockets n !! j) /\
  forall k s, ss !! k = Some s -> exists n1 n2 so1 so2,
    tcp_run stale nic_done off (take k ps) n = Some n1 /\ sockets n1 !! i = Some (Some so1) /\
    tcp_run stale nic_done off (take (S k) ps) n = Some n2 /\ sockets n2 !! i = Some (Some so2) /\
    so_ack so2 = u32 (s.1 + Z.of_nat (length s.2)) /\ same_peer so so2 /\
    wire n2 = wire n1 ++ (if send_room stale (after_buffer so1 (nheap n1))
                          then [ack_frame so2 ifp mac (ip_id_counter n1)] else []).
Proof.
  intros Hps. revert n so rcv ack.
  induction Hps as [|p s ps ss Hp _ IH]; intros n so rcv ack Hf Hi Hc Hl Hb Hr Hid.
  { split; [|by intros k s Hk]. exists n, so. cbn [fmap list_fmap concat]. by rewrite app_nil_r, newest_short. }
  destruct (tcp_input_segment stale nic_done p off port s.1 s.2 i so n rcv ack ifp mac Hp Hf Hi Hc Hl Hb Hr Hid)
    as (n1 & so1 & E1 & Es & Hpeer & Hb1 & Hc1 & Hw1 & Hr1 & Hid1).
  assert (Hi1 : sockets n1 !! i = Some (Some so1)) by (rewrite Es; apply list_lookup_insert_eq; by eapply lookup_lt_Some).
  cbn [tcp_run take]. rewrite E1.
  destruct (IH n1 so1 (newest (rcv ++ s.2)) (u32 (s.1 + Z.of_nat (length s.2))))
    as [(n2 & so2 & E2 & Hi2 & Hc2 & Hother) Hacks]; [|done|done|apply length_newest| |done|done|].
  { rewrite Es. apply (tcp_match_insert port i so); [done|done|apply Hpeer]. }
  { intros Hn. rewrite Hn in Hb1. by destruct Hb1. }
  split.
  - exists n2, so2. split; [done|]. split; [done|]. split.
    + rewrite newest_app, <- app_assoc in Hc2. exact Hc2.
    + intros j Hj. rewrite Hother, Es by done. by apply list_lookup_insert_ne.
  - intros [|k] t Hk.
    + injection Hk as <-. exists n, n1, so, so1. split; [done|]. split; [done|].
      split; [done|]. split; [done|].
      split; [apply Hc1|]. split; [done|exact Hw1].
    + destruct (Hacks k t Hk) as (m1 & m2 & t1 & t2 & R1 & S1 & R2 & S2 & A2 & P2 & W2).
      exists m1, m2, t1, t2. split; [cbn [take tcp_run]; rewrite E1; exact R1|]. split; [done|].
      split; [exact R2|].
      split; [done|]. split; [done|].
      split; [|done]. destruct Hpeer, P2. split; congruence.
Qed.

(** C38. Memory safety of reception: when the IP total length of a frame stays
    inside its cluster (and, for ICMP, is not below the header length), no
    handler reads outside the cluster or writes through a null pointer, whatever
    the other bytes of the frame are; for a TCP segment that brings the first
    bytes to a socket this asks that the segment has no SYN and that the kernel
    heap has room for the receive buffer, for an established socket.  An ICMP
    echo request whose total length lies makes [icmp_input] checksum memory
    outside the cluster, and the first bytes of an established connection are
    written through a null pointer when the receive buffer cannot be had. *)
Theorem rx_in_bounds ifp f (n : net H) :
  (length f <= 2048)%nat ->
  let b := cluster f in
  ((rx_proto b = IPPROTO_TCP -> rx_len b <= 2034 /\
      forall mb h, m_getcl (IF := ifnet) stale MT_DATA (nheap n) = (Some mb, h) -> rcv_ready b (sockets n) h) ->
   (rx_proto b = IPPROTO_ICMP -> rx_hlen b <= rx_len b <= 2034) ->
   is_Some (e1000_rx stale nic_done ifp f n)) /\
  (forall mb h, m_getcl (IF := ifnet) stale MT_DATA (nheap n) = (Some mb, h) ->
   (34 <= length f)%nat -> rx_type b = ETHERTYPE_IP -> rx_version b = 4 -> 20 <= rx_hlen b ->
   (rx_proto b = IPPROTO_ICMP -> ld 1 (14 + Z.to_nat (rx_hlen b)) b = ICMP_ECHO ->
    rx_len b < rx_hlen b \/ 2034 < rx_len b ->
    e1000_rx stale nic_done ifp f n = None) /\
   (forall so, rx_proto b = IPPROTO_TCP -> brings b (sockets n) so -> Z.land (rx_flags b) TH_SYN = 0 ->
    so_state so = TCPS_ESTABLISHED -> so_rcv_buf so = None -> (kmalloc SOCK_RCVBUF h).1 = None ->
    e1000_rx stale nic_done ifp f n = None)).
Proof.
  intros Hl b.
  destruct (m_getcl (IF := ifnet) stale MT_DATA (nheap n)) as [[mb|] h] eqn:Hg; cycle 1.
  { split; [|intros; congruence]. intros _ _. unfold e1000_rx. by rewrite Hg. }
  destruct (e1000_rx_packet stale nic_done ifp f n mb h Hg Hl) as (m & Hb & Hd & Hml & Hif & ->).
  pose proof (at_payload_pull f m Hb Hd Hl) as Hat. fold b in Hb, Hat.
  assert (Hld : forall w off k, k = (14 + off)%nat -> m_ld w off (m_pull ETHER_HDR_LEN m) = ld w k b).
  { intros w off k ->. unfold m_ld, m_pull, set_window. cbn [m_data m_buf]. by rewrite Hd, Hb. }
  unfold ether_input. cbn [fst snd].
  assert (m_ld 2 12 m = ld 2 12 b) as -> by (unfold m_ld; by rewrite Hd, Hb).
  fold (rx_type b). unfold ip_input. cbn [fst snd]. unfold ip_v, ip_hl.
  rewrite !(Hld 1%nat 0%nat 14%nat), !(Hld 1%nat 9%nat 23%nat) by done.
  fold (rx_version b) (rx_hlen b) (rx_proto b). rewrite Hml.
  change (m_len (m_pull ETHER_HDR_LEN m)) with (m_len m - 14). rewrite Hml. split.
  - intros Htcp Hicmp. destruct (_ <? ETHER_HDR_LEN); [done|].
    destruct (rx_type b =? ETHERTYPE_IP).
    + repeat (match goal with |- is_Some (if ?c then Some _ else _) => destruct c; [done|] end).
      destruct (Z.eqb_spec (rx_proto b) IPPROTO_TCP) as [E|_];
        [destruct (Htcp E) as [Hr Hready]; apply tcp_input_bounds; [done|done|by eapply Hready]|].
      destruct (Z.eqb_spec (rx_proto b) IPPROTO_ICMP) as [E|_];
        [apply icmp_input_bounds; [done|by apply Hicmp]|].
      destruct (rx_proto b =? IPPROTO_UDP); [by apply udp_input_bounds|done].
    + destruct (rx_type b =? ETHERTYPE_ARP); [|done].
      unfold arp_input. cbn [fst snd]. change (rcvif (m_pull ETHER_HDR_LEN m)) with (rcvif m).
      rewrite Hif. cbv zeta. repeat (case_match; try done).
  - intros mb' h' [= <- <-] Hlen Ht Hv Hh. pose proof (rx_hlen_bounds b).
    rewrite (proj2 (Z.ltb_ge _ ETHER_HDR_LEN)) by (unfold ETHER_HDR_LEN; lia).
    rewrite Ht, Hv. change (ETHERTYPE_IP =? ETHERTYPE_IP) with true.
    rewrite (wrap_small 64) by lia.
    rewrite (proj2 (Z.ltb_ge _ IP_SIZE)), (proj2 (Z.ltb_ge (rx_hlen b) IP_SIZE))
      by (unfold IP_SIZE; lia).
    change (negb (4 =? 4)) with false. cbv iota. split.
    + intros Hp He Hbad. rewrite Hp. change (IPPROTO_ICMP =? IPPROTO_TCP) with false.
      change (IPPROTO_ICMP =? IPPROTO_ICMP) with true. cbv iota. by apply icmp_input_bounds.
    + intros so Hp Hbr Hsyn Hst Hbuf Hfull. rewrite Hp. change (IPPROTO_TCP =? IPPROTO_TCP) with true. cbv iota.
      destruct (tcp_input_bounds stale nic_done b (m_pull (rx_hlen b) (m_pull ETHER_HDR_LEN m), []) (set_nheap h n) Hat)
        as [_ Hnull]. by apply (Hnull so).
Qed.

(** Address resolution: a packet for a host that is not in the ARP cache
    waits in the pending table while one request for its address is broadcast;
    when the reply arrives the packet goes out to the address in the reply, the
    table is as before and the cache answers for the host. *)
Theorem arp_resolution ifp p dst mac i e (n : net H) am h1 mh h2 :
  if_drv ifp = em0 -> length (if_hwaddr ifp) = 6%nat -> length mac = 6%nat ->
  0 <= dst < 2 ^ 32 -> Forall m_wf (p.1 :: p.2) ->
  Z.of_nat (length (chain_bytes (p.1 :: p.2))) <= 2034 ->
  dst <> htonl INADDR_BROADCAST -> if_netmask ifp = 0 \/ dst <> subnet_bcast ifp ->
  Forall (fun w => wait_dst w <> dst) (arp_pending n) -> arp_hit dst (arp_cache n) = None ->
  (length (arp_pending n) < ARP_PENDING_MAX)%nat ->
  arp_find_or_alloc dst (arp_cache n) = Some i -> arp_cache n !! i = Some e ->
  arp_is_static e = false ->
  m_gethdr (IF := ifnet) stale MT_DATA (nheap n) = (Some am, h1) ->
  m_get (IF := ifnet) stale MT_HEADER h1 = (Some mh, h2) ->
  exists n1, arp_resolve stale nic_done ifp p dst n = (0, n1) /\
    wire n1 = wire n ++ [arp_frame bcast_mac (if_hwaddr ifp) ARPOP_REQUEST (if_hwaddr ifp)
                           (le_bytes 4 (if_ip ifp)) (replicate 6 0) (le_bytes 4 dst)] /\
    arp_pending n1 = arp_pending n ++ [ArpWait dst p] /\
    forall mb h3 mh2 h4,
      m_getcl (IF := ifnet) stale MT_DATA (nheap n1) = (Some mb, h3) ->
      m_get (IF := ifnet) stale MT_HEADER h3 = (Some mh2, h4) ->
      exists n2, e1000_rx stale nic_done ifp
          (arp_frame (if_hwaddr ifp) mac ARPOP_REPLY mac (le_bytes 4 dst) (if_hwaddr ifp)
             (le_bytes 4 (if_ip ifp))) n1 = Some n2 /\
        wire n2 = wire n1 ++
          [eth_hdr mac (if_hwaddr ifp) ETHERTYPE_IP ++ chain_bytes (p.1 :: p.2)] /\
        arp_pending n2 = arp_pending n /\
        arp_mac <$> arp_hit dst (arp_cache n2) = Some mac.
Proof.
  intros Hdrv Hhw Hmac Hdst Hwf Hlen Hb Hs Hw Hh Hroom Hi He Hst Hg1 Hg2.
  destruct (arp_resolve_miss stale nic_done ifp p dst n am h1 mh h2) as [h' ->]; [done..|].
  eexists. split; [reflexivity|]. split; [done|]. split; [done|].
  intros mb h3 mh2 h4 Hg3 Hg4.
  set (n1 := set_nheap h' _) in *.
  destruct (e1000_rx_reply stale nic_done ifp mac dst p (arp_pending n) n1 mb h3 mh2 h4)
    as [h'' ->]; [done..|].
  eexists. split; [reflexivity|]. split; [done|]. split; [done|].
  exact (arp_learn_hit dst mac (arp_cache n) i e Hh Hi He Hst).
Qed.

(** The pending table has no timeout: once four hosts that never answer
    fill it, it stays as it is through every sequence of received frames other
    than ARP replies and of transmissions, and every packet for a host that is
    not in the cache is dropped.  A host of the table is refused even when an
    ARP request of its own has put its address in the cache. *)
Theorem arp_pending_starves es ifp p dst (n n' : net H) :
  (ARP_PENDING_MAX <= length (arp_pending n))%nat -> Forall not_reply es ->
  net_run stale nic_done es n = Some n' ->
  dst <> htonl INADDR_BROADCAST -> if_netmask ifp = 0 \/ dst <> subnet_bcast ifp ->
  Exists (fun w => wait_dst w = dst) (arp_pending n) \/ arp_hit dst (arp_cache n') = None ->
  arp_pending n' = arp_pending n /\
  arp_resolve stale nic_done ifp p dst n' = (-1, free_pkt p n').
Proof.
  intros Hfull Hes Hrun Hb Hs Hx.
  assert (Hk : arp_pending n' = arp_pending n).
  { clear Hx. revert n Hfull Hrun. induction Hes as [|ev es Hev _ IH]; intros n Hfull Hrun;
      cbn [net_run] in Hrun; [by simplify_eq|].
    destruct (net_step stale nic_done ev n) as [n1|] eqn:E1; [|done].
    destruct (net_step_keeps stale nic_done ev n n1 Hev E1) as [_ Hk].
    specialize (Hk Hfull). rewrite <- Hk. apply IH; [by rewrite Hk|done]. }
  split; [done|]. apply arp_resolve_refused; rewrite ?Hk; done.
Qed.
End props.

(** *** A concrete host for the witnesses *)

#[local] Instance net_heap : KernelHeap kheap := kheap_KernelHeap 2097152 1 0.
#[local] Instance net_aligned : AlignedHeap kheap := kheap_AlignedHeap 2097152 1 0.

Definition eigen_if : ifnet :=
  Ifnet (str "em0") (Z.lor IFF_UP IFF_RUNNING) 1500 (htonl 167772687) (htonl 4294967040)
    (htonl 167772674) (htonl 167772675) false [82; 84; 0; 18; 52; 86] 0 0 em0.

Definition dns_ip : Z := htonl 167772675.
Definition dns_mac : list Z := [82; 85; 10; 0; 2; 3].

Definition host : net kheap :=
  set_arp (<[0%nat := ArpEntry dns_ip dns_mac true false]> (arp_cache (net_boot kheap_boot))) []
    (if_attach eigen_if (loopback_init (net_boot kheap_boot))).

Lemma host_routed : routed host eigen_if dns_ip dns_mac.
Proof. split; try (vm_compute; done). vm_compute. by right. Qed.

Lemma udp_delivers_witness :
  exists a' b' frame,
    udp_output (fun _ => 7) (fun _ => true) dns_ip 53 30001 (str "eigen") host = (0, a') /\
    wire a' = wire host ++ [frame] /\ slice 0 6 frame = dns_mac /\
    ip_checksum (slice 14 20 frame) = 0 /\
    e1000_rx (fun _ => 7) (fun _ => true) eigen_if frame host = Some b' /\
    (udp_recv 53 64 b').1 = Some (htonl 167772687, 30001, str "eigen").
Proof.
  destruct (alloc_some (m_getcl (IF := ifnet) (fun _ => 7) MT_DATA (nheap host)))
    as (m & h1 & E1); [vm_compute; reflexivity|].
  assert (E2 : exists mh h2, m_get (IF := ifnet) (fun _ => 7) MT_HEADER
     (m_getcl (IF := ifnet) (fun _ => 7) MT_DATA (nheap host)).2 = (Some mh, h2))
    by (apply alloc_some; vm_compute; reflexivity).
  destruct E2 as (mh & h2 & E2). rewrite E1 in E2. cbn [snd] in E2.
  apply (udp_delivers (fun _ => 7) (fun _ => true) host host eigen_if eigen_if dns_mac dns_ip
           53 30001 (str "eigen") m h1 mh h2 m h1 64).
  - exact host_routed.
  - cbn. lia.
  - cbn. lia.
  - lia.
  - lia.
  - exact E1.
  - exact E2.
  - exact E1.
  - cbn. lia.
  - repeat constructor.
Defined.

(** A new connection to a web server from local port 20000, its receive buffer
    not allocated yet, and a segment of it. *)
Definition web_socket : socket :=
  Socket 3000000 1 TCPS_ESTABLISHED (htons 20000) (htons 443) dns_ip None [] 0
    1001 5000 1001 false.

Definition web_host : net kheap := set_sockets (<[3%nat := Some web_socket]> (sockets host)) 20001 host.

Definition web_bytes (seq : Z) (data : list Z) : list Z :=
  ip_hdr_full (40 + Z.of_nat (length data)) 7 64 6 dns_ip (htonl 167772687) ++
  le_bytes 2 (htons 443) ++ le_bytes 2 (htons 20000) ++ le_bytes 4 (htonl seq) ++
  le_bytes 4 (htonl 1001) ++ [80; 16; 255; 255; 0; 0; 0; 0] ++ data.

Definition web_segment (seq : Z) (data : list Z) : packet :=
  (Mbuf 4096 (20 + Z.of_nat (length data)) MT_DATA (Z.lor M_EXT M_PKTHDR) 34 (Some eigen_if) 0
     (Some 8192) (replicate 14 0 ++ web_bytes seq data ++ replicate 1900 0), []).

Lemma web_routed : routed web_host eigen_if dns_ip dns_mac.
Proof. split; try (vm_compute; done). vm_compute. by right. Qed.

(** The segment that arrives twice is received twice, and acknowledged. *)
Lemma tcp_stream_witness :
  (exists n' so',
    tcp_run (fun _ => 7) (fun _ => true) 20
      [web_segment 5000 (str "abc"); web_segment 5000 (str "abc")] web_host = Some n' /\
    sockets n' !! 3%nat = Some (Some so') /\ connected so' (str "abcabc") 5003 /\
    forall j, j <> 3%nat -> sockets n' !! j = sockets web_host !! j) /\
  exists n1 so1, tcp_run (fun _ => 7) (fun _ => true) 20 [web_segment 5000 (str "abc")] web_host = Some n1 /\
    so_ack so1 = 5003 /\ wire n1 = [ack_frame so1 eigen_if dns_mac (ip_id_counter web_host)].
Proof.
  destruct (tcp_stream (fun _ => 7) (fun _ => true) 20 (htons 20000) 3 [] 5000
           [web_segment 5000 (str "abc"); web_segment 5000 (str "abc")]
           [(5000, str "abc"); (5000, str "abc")] web_socket web_host eigen_if dns_mac) as [Hall Hacks].
  - repeat constructor; vm_compute; done.
  - vm_compute. reflexivity.
  - reflexivity.
  - split; done.
  - unfold SOCK_RCVBUF. cbn. lia.
  - intros _. vm_compute. by eexists.
  - exact web_routed.
  - vm_compute. done.
  - split; [exact Hall|]. destruct (Hacks 0%nat (5000, str "abc") eq_refl) as (n1 & n2 & so1 & so2 & E1 & S1 & E2 & S2 & Ha & _ & Hw).
    injection E1 as <-. injection S1 as <-. exists n2, so2. split; [exact E2|]. split; [exact Ha|].
    rewrite Hw. assert (Hroom : send_room (fun _ => 7) (after_buffer web_socket (nheap web_host)) = true) by (vm_compute; reflexivity).
    by rewrite Hroom.
Defined.

(** An echo request that says its total length is 0. *)
Definition short_ping : list Z :=
  eth_hdr [82; 84; 0; 18; 52; 86] dns_mac 2048 ++
  ip_hdr_full 0 7 64 1 dns_ip (htonl 167772687) ++ [8; 0; 247; 255; 0; 0; 0; 0].

(** The first bytes of the connection. *)
Definition web_frame : list Z := eth_hdr [82; 84; 0; 18; 52; 86] dns_mac 2048 ++ web_bytes 5000 (str "abc").

Lemma web_ready mb h :
  m_getcl (IF := ifnet) (fun _ => 7) MT_DATA (nheap web_host) = (Some mb, h) -> is_Some (kmalloc SOCK_RCVBUF h).1.
Proof.
  intros E. assert (h = (m_getcl (IF := ifnet) (fun _ => 7) MT_DATA (nheap web_host)).2) as -> by (by rewrite E).
  clear E. vm_compute. by eexists.
Qed.

Lemma rx_in_bounds_witness :
  is_Some (e1000_rx (fun _ => 7) (fun _ => true) eigen_if web_frame web_host) /\
  e1000_rx (fun _ => 7) (fun _ => true) eigen_if short_ping web_host = None.
Proof.
  destruct (alloc_some (m_getcl (IF := ifnet) (fun _ => 7) MT_DATA (nheap web_host)))
    as (m & h1 & E1); [vm_compute; reflexivity|].
  split.
  - apply (rx_in_bounds (fun _ => 7) (fun _ => true) eigen_if web_frame web_host); [cbn; lia| |vm_compute; congruence].
    intros _. split; [vm_compute; congruence|]. intros mb h Eh so _ _. split; [vm_compute; reflexivity|].
    intros _. exact (web_ready mb h Eh).
  - destruct (rx_in_bounds (fun _ => 7) (fun _ => true) eigen_if short_ping web_host) as [_ Hbad]; [cbn; lia|].
    destruct (Hbad m h1 E1) as [Hping _]; [cbn; lia|vm_compute..|]; [done|done|done|].
    apply Hping; [vm_compute; done|vm_compute; done|left; vm_compute; done].
Defined.

(** 10.0.2.7 is asked for, and answers. *)
Lemma arp_resolution_witness :
  exists n1, arp_resolve (fun _ => 7) (fun _ => true) eigen_if (web_segment 5000 (str "abc"))
      (htonl 167772679) host = (0, n1) /\
    wire n1 = [arp_frame bcast_mac (if_hwaddr eigen_if) ARPOP_REQUEST (if_hwaddr eigen_if)
                 [10; 0; 2; 15] (replicate 6 0) [10; 0; 2; 7]] /\
    arp_pending n1 = [ArpWait (htonl 167772679) (web_segment 5000 (str "abc"))] /\
    forall mb h3 mh2 h4,
      m_getcl (IF := ifnet) (fun _ => 7) MT_DATA (nheap n1) = (Some mb, h3) ->
      m_get (IF := ifnet) (fun _ => 7) MT_HEADER h3 = (Some mh2, h4) ->
      exists n2, e1000_rx (fun _ => 7) (fun _ => true) eigen_if
          (arp_frame (if_hwaddr eigen_if) dns_mac ARPOP_REPLY dns_mac [10; 0; 2; 7]
             (if_hwaddr eigen_if) [10; 0; 2; 15]) n1 = Some n2 /\
        wire n2 = wire n1 ++
          [eth_hdr dns_mac (if_hwaddr eigen_if) ETHERTYPE_IP ++
           chain_bytes [(web_segment 5000 (str "abc")).1]] /\
        arp_pending n2 = [] /\
        arp_mac <$> arp_hit (htonl 167772679) (arp_cache n2) = Some dns_mac.
Proof.
  assert (E : exists am h1, m_gethdr (IF := ifnet) (fun _ => 7) MT_DATA (nheap host) = (Some am, h1))
    by (apply alloc_some; vm_compute; reflexivity).
  assert (E2 : exists mh h2, m_get (IF := ifnet) (fun _ => 7) MT_HEADER
     (m_gethdr (IF := ifnet) (fun _ => 7) MT_DATA (nheap host)).2 = (Some mh, h2))
    by (apply alloc_some; vm_compute; reflexivity).
  destruct E as (am & h1 & E1). destruct E2 as (mh & h2 & E2). rewrite E1 in E2. cbn [snd] in E2.
  apply (arp_resolution (fun _ => 7) (fun _ => true) eigen_if (web_segment 5000 (str "abc"))
           (htonl 167772679) dns_mac 1 (ArpEntry 0 (replicate 6 0) false false) host am h1 mh h2).
  - done.
  - done.
  - done.
  - vm_compute. done.
  - constructor; [split; [vm_compute; done|vm_compute; lia]|vm_compute; constructor].
  - vm_compute. done.
  - vm_compute. done.
  - right. vm_compute. done.
  - constructor.
  - vm_compute. done.
  - cbn. unfold ARP_PENDING_MAX. lia.
  - vm_compute. done.
  - done.
  - done.
  - exact E1.
  - exact E2.
Defined.

(** Four hosts, 10.0.2.100 to 103, that were asked for; the first then sends a
    request of its own, and is learnt. *)
Definition full_host : net kheap :=
  set_arp (arp_cache host)
    ((fun k => ArpWait (htonl (167772772 + k)) (web_segment 1 [])) <$> [0; 1; 2; 3]) host.

Definition peer_request : list Z :=
  arp_frame bcast_mac dns_mac ARPOP_REQUEST dns_mac [10; 0; 2; 100] (replicate 6 0) [10; 0; 2; 9].

Lemma arp_pending_starves_witness :
  exists n', net_run (fun _ => 7) (fun _ => true)
      [Receive eigen_if peer_request; SendUdp (htonl 167772776) 9 9 [1]] full_host = Some n' /\
    (arp_pending n' = arp_pending full_host /\
     arp_resolve (fun _ => 7) (fun _ => true) eigen_if (web_segment 2 []) (htonl 167772772) n' =
       (-1, free_pkt (web_segment 2 []) n')).
Proof.
  destruct (net_run (fun _ => 7) (fun _ => true)
      [Receive eigen_if peer_request; SendUdp (htonl 167772776) 9 9 [1]] full_host) as [n'|] eqn:E.
  - exists n'. split; [reflexivity|].
    apply (arp_pending_starves (fun _ => 7) (fun _ => true)
             [Receive eigen_if peer_request; SendUdp (htonl 167772776) 9 9 [1]]);
      [cbn; unfold ARP_PENDING_MAX; lia|repeat constructor|exact E|vm_compute; done|right; vm_compute; done|].
    left. by constructor.
  - exfalso. assert (Hs : (match net_run (fun _ => 7) (fun _ => true)
      [Receive eigen_if peer_request; SendUdp (htonl 167772776) 9 9 [1]] full_host with
      Some _ => true | None => false end) = true) by (vm_compute; reflexivity).
    rewrite E in Hs. done.
Defined.
