(* ===== verification/VmmFrame.v ===== *)
(** What mapping a page leaves alone: physical pages that are in use elsewhere
    ([reserve]), tables that exist already, and the free stack below the pages
    it takes.  The allocator of user memory and the ELF loader build on these. *)
From Stdlib Require Import ZArith Lia.
From stdpp Require Import base numbers list gmap.
From S2P Require Import Prelude Vmm VmmSpec VmmProps.

(** ** Reserved pages

    A page outside the free stack that no table uses: as far as the page tables
    go it could as well lie at the bottom of the stack. *)

Definition reserve (R : list Z) (s : vm) : vm := with_free (free_pages_stack s ++ R) s.

Lemma wf_unreserve R s : wf (reserve R s) -> wf s.
Proof.
  intros Hwf. destruct s as [pg f c]. change (wf (with_free f (reserve R (Vm pg f c)))).
  destruct (wf_stack _ Hwf) as [Hnd Hok]. unfold reserve in *. simpl in *.
  apply NoDup_app in Hnd as (Hnd & _ & _). apply Forall_app in Hok as [Hok _].
  apply with_free_wf; [done|done|]. intros p Hp. simpl. set_solver.
Qed.

Lemma reserve_nil s : reserve [] s = s.
Proof. destruct s. unfold reserve, with_free. simpl. by rewrite app_nil_r. Qed.

(** Reserved pages are pages, distinct, not free and not tables. *)
Lemma reserved_pages R s :
  wf (reserve R s) ->
  NoDup R /\ Forall page_ok R /\ (forall p, p ∈ R -> p ∉ free_pages_stack s) /\
  (forall p q t, p ∈ R -> table_at s q = Some t -> t <> p).
Proof.
  intros Hwf. destruct (wf_stack _ Hwf) as [Hnd Hok]. unfold reserve in *. simpl in *.
  apply NoDup_app in Hnd as (Hnd & Hdis & HndR). apply Forall_app in Hok as [_ Hok].
  split; [done|]. split; [done|]. split; [set_solver|].
  intros p q t Hp Ht ->. apply (wf_free _ Hwf q p Ht). simpl. set_solver.
Qed.

(** The order of the reserved pages, and of the stack, does not matter. *)
Lemma wf_stack_perm f f' s : f ≡ₚ f' -> wf (with_free f s) -> wf (with_free f' s).
Proof.
  intros Hp Hwf. change (wf (with_free f' (with_free f s))).
  destruct (wf_stack _ Hwf) as [Hnd Hok]. simpl in *. apply with_free_wf; [done| |].
  - by rewrite <-Hp.
  - intros p. simpl. by rewrite <-Hp.
Qed.

Lemma wf_reserve_perm R R' s : R ≡ₚ R' -> wf (reserve R s) -> wf (reserve R' s).
Proof. intros Hp. apply wf_stack_perm. by rewrite Hp. Qed.

Lemma wf_reserve_app R1 R2 s : wf (reserve (R1 ++ R2) s) -> wf (reserve R2 s).
Proof.
  intros Hwf. apply (wf_unreserve R1). eapply wf_stack_perm; [|exact Hwf]. simpl.
  rewrite <-app_assoc. by rewrite (Permutation_app_comm R1 R2).
Qed.

Lemma wf_reserve_tail p R s : wf (reserve (p :: R) s) -> wf (reserve R s).
Proof. apply (wf_reserve_app [p]). Qed.

(** Taking a free page reserves it; freeing a reserved page gives it back. *)
Lemma reserve_alloc R s p s1 :
  wf (reserve R s) -> pmm_alloc s = (p, s1) -> p <> 0 ->
  wf (reserve (p :: R) s1) /\ free_pages_stack s = p :: free_pages_stack s1 /\
  s1 = with_free (free_pages_stack s1) s.
Proof.
  intros Hwf Ha Hp. destruct (pmm_alloc_wf s p s1 (wf_unreserve _ _ Hwf) Ha)
    as [[-> _]|(_ & Hf & Hs1 & _)]; [done|]. split; [|done].
  rewrite Hs1. unfold reserve in *. simpl. rewrite Hf in Hwf.
  eapply wf_stack_perm; [|exact Hwf]. simpl. by rewrite Permutation_middle.
Qed.

Lemma reserve_free R s p : wf (reserve (p :: R) s) -> wf (reserve R (pmm_free p s)).
Proof. intros Hwf. eapply wf_stack_perm; [|exact Hwf]. simpl. by rewrite Permutation_middle. Qed.

(** ** The free stack only loses its top *)

(** At most [k] pages were taken. *)
Definition takes (k : nat) (s s' : vm) : Prop :=
  exists ps, free_pages_stack s = ps ++ free_pages_stack s' /\ (length ps <= k)%nat.

Lemma takes_refl k s : takes k s s.
Proof. exists []. split; [done|simpl; lia]. Qed.

Lemma takes_trans j k s1 s2 s3 : takes j s1 s2 -> takes k s2 s3 -> takes (j + k) s1 s3.
Proof.
  intros (p & Hp & Hj) (q & Hq & Hk). exists (p ++ q). rewrite length_app. split; [|lia].
  by rewrite Hp, Hq, app_assoc.
Qed.

Lemma takes_sub k s s' p : takes k s s' -> p ∈ free_pages_stack s' -> p ∈ free_pages_stack s.
Proof. intros (ps & -> & _). set_solver. Qed.

Lemma takes_length k s s' :
  takes k s s' ->
  (length (free_pages_stack s') <= length (free_pages_stack s) <= k + length (free_pages_stack s'))%nat.
Proof. intros (ps & -> & Hk). rewrite length_app. lia. Qed.

Lemma takes_alloc s p s1 : pmm_alloc s = (p, s1) -> takes 1 s s1.
Proof.
  unfold pmm_alloc. destruct (free_pages_stack s) as [|x r] eqn:E; intros [= <- <-].
  - apply takes_refl.
  - exists [x]. split; [done|simpl; lia].
Qed.

Lemma takes_next t i a s r s' : get_next_level t i a s = (r, s') -> takes 1 s s'.
Proof.
  unfold get_next_level. destruct (present _); [intros [= <- <-]; apply takes_refl|].
  destruct a; simpl; [|intros [= <- <-]; apply takes_refl]. destruct (pmm_alloc s) as [p s1] eqn:Ea.
  apply takes_alloc in Ea. case_match; by intros [= <- <-].
Qed.

Lemma takes_split_1g t i f s r s' : split_huge_1g t i f s = (r, s') -> takes 1 s s'.
Proof.
  unfold split_huge_1g. destruct (pmm_alloc s) as [p s1] eqn:Ea.
  apply takes_alloc in Ea. case_match; by intros [= <- <-].
Qed.

Lemma takes_split_2m t i f s r s' : split_huge_2m t i f s = (r, s') -> takes 1 s s'.
Proof.
  unfold split_huge_2m. destruct (pmm_alloc s) as [p s1] eqn:Ea.
  apply takes_alloc in Ea. case_match; by intros [= <- <-].
Qed.

(** A branch that splits a huge page or leaves the state as it is. *)
Lemma takes_if (b : bool) (f : option Z * vm) s r s' :
  (forall r s', f = (r, s') -> takes 1 s s') ->
  (if b then f else (Some 0, s)) = (r, s') -> takes 1 s s'.
Proof. intros Hf. destruct b; [apply Hf|intros [= _ <-]; apply takes_refl]. Qed.

(** One level of the walk: a split, then a table. *)
Lemma takes_level s1 s2 s' (ok : option Z) (f : vm -> option Z * vm) r :
  takes 1 s1 s2 -> (forall s r s', f s = (r, s') -> takes 1 s s') ->
  (if ok is Some _ then f s2 else (None, s2)) = (r, s') -> takes 2 s1 s'.
Proof.
  intros H12 Hf E. apply (takes_trans 1 1 _ s2); [done|].
  destruct ok; [by eapply Hf|]. injection E as _ <-. apply takes_refl.
Qed.

Lemma takes_walk virt f s r s' : map_walk virt f s = (r, s') -> takes 5 s s'.
Proof.
  unfold map_walk.
  destruct (get_next_level (cr3 s) (pml4_idx virt) true s) as [[pdpt|] s1] eqn:E1; apply takes_next in E1.
  2:{ intros [= _ <-]. apply (takes_trans 1 4 _ s1); [done|apply takes_refl]. }
  intros E. apply (takes_trans 1 4 _ s1); [done|]. clear E1.
  destruct (if huge (entry (pages s1) _ _) then _ else _) as [o1 s2] eqn:E2.
  apply takes_if in E2; [|intros ??; apply takes_split_1g].
  destruct (if o1 is Some _ then get_next_level pdpt (pdpt_idx virt) true s2 else (None, s2))
    as [r3 s3] eqn:E3.
  assert (H3 : takes 2 s1 s3) by (eapply takes_level; [exact E2| |exact E3]; intros ???; apply takes_next).
  apply (takes_trans 2 2 _ s3); [done|].
  destruct o1 as [z1|]; [|injection E3 as <- <-; injection E as _ <-; apply takes_refl].
  rewrite E3 in E. destruct r3 as [pd|]; [|injection E as _ <-; apply takes_refl].
  destruct (if huge (entry (pages s3) _ _) then _ else _) as [o2 s4] eqn:E4.
  apply takes_if in E4; [|intros ??; apply takes_split_2m].
  eapply takes_level; [exact E4| |exact E]. intros ???. apply takes_next.
Qed.

(** Where a page table covers the address already, the walk takes nothing. *)
Definition mapped_4k (v : Z) (s : vm) : Prop :=
  is_Some (table_at s [pml4_idx v; pdpt_idx v; pd_idx v]).

Lemma map_walk_mapped virt f s pt :
  table_at s [pml4_idx virt; pdpt_idx virt; pd_idx virt] = Some pt ->
  map_walk virt f s = (Some pt, s).
Proof.
  unfold table_at. cbn [tbl]. unfold is_table. intros H.
  unfold map_walk, get_next_level.
  destruct (present (entry (pages s) (cr3 s) (pml4_idx virt))); [|done]. cbn [andb orb Nat.eqb] in H. cbv iota.
  set (t1 := addr_of (entry (pages s) (cr3 s) (pml4_idx virt))) in *.
  destruct (present (entry (pages s) t1 (pdpt_idx virt))) eqn:P1, (huge (entry (pages s) t1 (pdpt_idx virt))); try done.
  cbn [andb orb negb] in H. cbv iota. rewrite P1.
  set (t2 := addr_of (entry (pages s) t1 (pdpt_idx virt))) in *.
  destruct (present (entry (pages s) t2 (pd_idx virt))) eqn:P2, (huge (entry (pages s) t2 (pd_idx virt))); try done.
  cbn [andb orb negb] in H. cbv iota. rewrite P2. by injection H as ->.
Qed.

(** ** One page mapped, cleared and unmapped while others are reserved *)

Lemma wf_reserve_intro R s :
  wf s -> NoDup R -> Forall page_ok R -> Forall (unused s) R -> wf (reserve R s).
Proof.
  intros [Hpg Hinj Hfree [Hnd Hok]] HndR HokR Hu. rewrite Forall_forall in Hu. split; [done|done| |].
  - intros q t Ht. simpl. rewrite not_elem_of_app. split; [by eapply Hfree|].
    intros Hin. by apply (proj2 (Hu t Hin) q t).
  - simpl. split; [|by apply Forall_app]. apply NoDup_app. split; [done|]. split; [|done].
    intros p Hp HpR. by apply (proj1 (Hu p HpR)).
Qed.

Lemma reserved_unused R s : wf (reserve R s) -> Forall (unused s) R.
Proof.
  intros Hwf. destruct (reserved_pages R s Hwf) as (_ & _ & Hf & Ht).
  apply Forall_forall. intros p Hp. split; [by apply Hf|]. intros q t. by apply Ht.
Qed.

(** A step that leaves the reserved pages and the tables alone. *)
Record holds_still (R : list Z) (s s' : vm) : Prop := {
  hs_wf : wf (reserve R s');
  hs_cr3 : cr3 s' = cr3 s;
  hs_takes : exists k, takes k s s';
  hs_keeps q t : table_at s q = Some t -> table_at s' q = Some t;
  hs_pages p : p ∈ R -> pages s' !! p = pages s !! p;
}.

Lemma holds_still_refl R s : wf (reserve R s) -> holds_still R s s.
Proof. split; try done. exists 0%nat. apply takes_refl. Qed.

Lemma holds_still_trans R s1 s2 s3 :
  holds_still R s1 s2 -> holds_still R s2 s3 -> holds_still R s1 s3.
Proof.
  intros [? ? [j Hj] ? ?] [? ? [k Hk] ? Hp]. split; [done|congruence| |auto|].
  { exists (j + k)%nat. by eapply takes_trans. }
  intros p HpR. rewrite Hp by done. auto.
Qed.

Lemma walk_holds_still R virt f s r s' :
  wf (reserve R s) -> map_walk virt f s = (r, s') -> holds_still R s s' /\ extends s s'.
Proof.
  intros Hwf E. destruct (map_walk_spec _ _ _ _ _ (wf_unreserve _ _ Hwf) E) as [Hext _].
  split; [|done]. destruct (reserved_pages R s Hwf) as (Hnd & Hok & _).
  pose proof (reserved_unused R s Hwf) as Hu. pose proof Hext as [Hwf' Hc Hx Hk Hun].
  rewrite Forall_forall in Hu. split; try done.
  - apply wf_reserve_intro; try done. apply Forall_forall. intros p Hp. by apply Hun, Hu.
  - exists 5%nat. by eapply takes_walk.
  - intros p Hp. by apply Hun, Hu.
Qed.

Lemma set_pt_holds_still R s virt pt e :
  wf (reserve R s) -> table_at s [pml4_idx virt; pdpt_idx virt; pd_idx virt] = Some pt ->
  holds_still R s (set_entry pt (pt_idx virt) e s).
Proof.
  intros Hwf Ht. destruct (reserved_pages R s Hwf) as (_ & _ & _ & Htab). split; [|done|exists 0%nat; by exists []| |].
  - exact (proj1 (set_pt_entry (reserve R s) virt pt e Hwf Ht)).
  - intros q t Hq. apply (set_keeps s [pml4_idx virt; pdpt_idx virt; pd_idx virt]); try done.
    + by eapply wf_unreserve.
    + apply pt_idx_lt.
    + rewrite table_at_snoc. by case_match.
  - intros p Hp. cbn [set_entry with_pages pages]. rewrite lookup_alter_ne; [done|].
    intros ->. by eapply (Htab p).
Qed.

Lemma vmm_map_page R virt phys flags s s' :
  wf (reserve R s) -> Z.land flags ADDR_MASK = 0 -> virt mod 4096 = 0 -> 0 <= virt < 2 ^ 48 ->
  page_ok phys -> vmm_map virt phys flags s = (true, s') ->
  holds_still R s s' /\ mapped_4k virt s' /\
  forall v, 0 <= v < 2 ^ 48 -> vmm_get_phys v s' =
    if decide (virt <= v < virt + 4096) then phys + (v - virt) else vmm_get_phys v s.
Proof.
  intros Hwf Hfl Hal Hv [Hp Hpa] E. unfold vmm_map in E.
  destruct (map_walk virt flags s) as [[pt|] s1] eqn:Ew; [|done]. injection E as <-.
  destruct (walk_holds_still R _ _ _ _ _ Hwf Ew) as [Hst Hext].
  destruct (map_walk_spec _ _ _ _ _ (wf_unreserve _ _ Hwf) Ew) as [_ Ht].
  set (e := Z.lor (Z.lor (Z.land phys ADDR_MASK) flags) VMM_PRESENT).
  pose proof (set_pt_holds_still R s1 virt pt e (hs_wf _ _ _ Hst) Ht) as Hst'.
  split; [by eapply holds_still_trans|]. split; [exists pt; by apply Hst'|]. intros v Hv2.
  destruct (leaf_entry phys flags Hfl) as [Hpr Ha].
  destruct (set_pt_entry s1 virt pt e (ext_wf _ _ Hext) Ht) as [_ Hphys].
  rewrite Hphys, (ext_phys _ _ Hext). unfold e. rewrite Hpr, Ha.
  pose proof (same_page_aligned v virt Hal Hv2 Hv) as Hsp.
  destruct (decide (same_page v virt)) as [Hs|Hs].
  - apply Hsp in Hs. rewrite decide_True by lia. rewrite addr_of_val, (lor_disjoint _ _ 12); zify_div.
  - rewrite decide_False by (intros Hr; by apply Hs, Hsp). done.
Qed.

(** A failed map adds tables at most. *)
Lemma vmm_map_page_fail R virt phys flags s s' :
  wf (reserve R s) -> vmm_map virt phys flags s = (false, s') ->
  holds_still R s s' /\ forall v, vmm_get_phys v s' = vmm_get_phys v s.
Proof.
  intros Hwf E. unfold vmm_map in E.
  destruct (map_walk virt flags s) as [[pt|] s1] eqn:Ew; [done|]. injection E as <-.
  destruct (walk_holds_still R _ _ _ _ _ Hwf Ew) as [Hst Hext]. split; [done|]. apply Hext.
Qed.

(** A one-page range is one call of [vmm_map]. *)
Lemma vmm_map_range_page virt phys flags s :
  0 <= virt < 2 ^ 64 -> 0 <= phys < 2 ^ 64 ->
  vmm_map_range virt phys 4096 flags s = vmm_map virt phys flags s.
Proof.
  intros. unfold vmm_map_range, page_steps, PAGE_SIZE.
  change (Z.to_nat ((4096 + 4096 - 1) / 4096)) with 1%nat. cbn [map_range_loop].
  rewrite !Z.add_0_r, !(wrap_small 64) by lia. by destruct (vmm_map virt phys flags s) as [[] ?].
Qed.

(** Writing a reserved page changes no table. *)
Lemma fill_reserved R p l s :
  wf (reserve (p :: R) s) ->
  wf (reserve (p :: R) (fill_page p l s)) /\
  (forall q, table_at (fill_page p l s) q = table_at s q) /\
  (forall v, vmm_get_phys v (fill_page p l s) = vmm_get_phys v s).
Proof.
  intros Hwf. destruct (reserved_pages _ s Hwf) as (_ & _ & _ & Ht).
  assert (Hp : forall q t, table_at s q = Some t -> t <> p) by (intros q t; apply Ht; set_solver).
  pose proof (table_at_fill s p l) as Hta. split; [|split].
  - exact (wf_fill (reserve (p :: R) s) p l Hwf Hp).
  - intros q. by apply Hta.
  - intros v. rewrite !get_phys_xlate. unfold read_at. rewrite !Hta by done.
    assert (Hent : forall q i, match table_at s q with Some t => entry (pages (fill_page p l s)) t i | None => 0 end
      = match table_at s q with Some t => entry (pages s) t i | None => 0 end).
    { intros q i. destruct (table_at s q) as [t|] eqn:E; [|done].
      rewrite entry_fill, decide_False; [done|]. by eapply Hp. }
    by rewrite !Hent.
Qed.

(** Unmapping a 4 KB page. *)
Lemma vmm_unmap_page R virt s :
  wf (reserve R s) -> mapped_4k virt s -> virt mod 4096 = 0 -> 0 <= virt < 2 ^ 48 ->
  holds_still R s (vmm_unmap virt s) /\
  forall v, 0 <= v < 2 ^ 48 -> vmm_get_phys v (vmm_unmap virt s) =
    if decide (virt <= v < virt + 4096) then 0 else vmm_get_phys v s.
Proof.
  intros Hwf [pt Ht] Hal Hv. rewrite vmm_unmap_eq.
  destruct (reached_pt s _ _ _ _ Ht) as (P4 & P3 & H3 & P2 & H2).
  assert (E3 : read_at s [pml4_idx virt] (pdpt_idx virt) = pdpte virt s).
  { unfold read_at, table_at, pdpte, pml4e. cbn [tbl]. unfold is_table. unfold read_at, table_at in P4. cbn [tbl] in P4.
    by rewrite P4. }
  assert (E2 : read_at s [pml4_idx virt; pdpt_idx virt] (pd_idx virt) = pde virt s).
  { unfold read_at, table_at in *. cbn [tbl] in *. unfold is_table in *. unfold pde, pdpte, pml4e in *.
    rewrite P4 in *. cbn [andb orb] in *. simpl in *. by rewrite P3, H3. }
  rewrite E3 in P3, H3. rewrite E2 in P2, H2. change (read_at s [] (pml4_idx virt)) with (pml4e virt s) in P4.
  rewrite P4, P3, P2. simpl.
  assert (pt = addr_of (pde virt s)) as -> by (rewrite table_at_pt in Ht by done; by injection Ht).
  pose proof (set_pt_holds_still R s virt _ 0 Hwf Ht) as Hst. split; [done|]. intros v Hv2.
  destruct (set_pt_entry s virt _ 0 (wf_unreserve _ _ Hwf) Ht) as [_ Hphys]. rewrite Hphys.
  pose proof (same_page_aligned v virt Hal Hv2 Hv) as Hsp.
  destruct (decide (same_page v virt)), (decide (virt <= v < virt + 4096)); tauto.
Qed.
