(* ===== verification/UserMem.v ===== *)
(** Accesses of the kernel to user memory through the current page tables: single
    bytes, byte strings, whole pages.  [None] is a page fault. *)
From Stdlib Require Import ZArith Lia.
From stdpp Require Import base numbers list gmap.
From S2P Require Import Prelude Vmm.

(** [__builtin_memset(va, 0, 4096)], or 512 stores of a zero word. *)
Definition memset_page (va : Z) (s : vm) : option vm :=
  let phys := vmm_get_phys va s in
  if phys =? 0 then None else Some (fill_page phys zero_page s).

(** The page of a physical address, and the word and byte in it. *)
Definition page_base (phys : Z) : Z := phys - phys mod 4096.
Definition word_index (phys : Z) : nat := Z.to_nat (phys mod 4096 / 8).

Definition byte_of (w k : Z) : Z := (w / 2 ^ (8 * k)) mod 256.
Definition set_byte (w k b : Z) : Z := w + (b - byte_of w k) * 2 ^ (8 * k).

Definition load_byte (va : Z) (s : vm) : option Z :=
  let phys := vmm_get_phys va s in
  if phys =? 0 then None
  else Some (byte_of (entry (pages s) (page_base phys) (word_index phys)) (phys mod 8)).

Definition store_byte (va b : Z) (s : vm) : option vm :=
  let phys := vmm_get_phys va s in
  if phys =? 0 then None
  else
    let w := entry (pages s) (page_base phys) (word_index phys) in
    Some (set_entry (page_base phys) (word_index phys) (set_byte w (phys mod 8) b) s).

(** [memcpy(va, bs, length bs)]. *)
Fixpoint store_bytes (va : Z) (bs : list Z) (s : vm) : option vm :=
  match bs with
  | [] => Some s
  | b :: bs => s ← store_byte va b s; store_bytes (va + 1) bs s
  end.
