(* ===== verification/UserSpace.v ===== *)
(** User memory by pages: ranges of virtual addresses, the frames behind them, and
    windows of an address space whose pages have frames of their own.  The
    user heap and the ELF loader share these. *)
From Stdlib Require Import ZArith Lia.
From stdpp Require Import base numbers list gmap.
From S2P Require Import Prelude Vmm VmmSpec VmmProps VmmFrame.

(** ** Ranges and frames *)

(** Every address of a range is unmapped or mapped by a page table (never by a
    huge page). *)
Definition tame (lo hi : Z) (s : vm) : Prop :=
  forall v, lo <= v < hi -> vmm_get_phys v s = 0 \/ mapped_4k v s.

(** The pages from [base] on are mapped to the frames [F], in order. *)
Definition frames_at (base : Z) (F : list Z) (s : vm) : Prop :=
  forall i f o, F !! i = Some f -> 0 <= o < 4096 ->
    vmm_get_phys (base + Z.of_nat i * 4096 + o) s = f + o /\
    mapped_4k (base + Z.of_nat i * 4096 + o) s.

Definition npages_of (F : list Z) : Z := Z.of_nat (length F).

Lemma same_page_mapped v w s : same_page v w -> mapped_4k v s -> mapped_4k w s.
Proof. intros (E4 & E3 & E2 & _)%same_page_idx. unfold mapped_4k. by rewrite E4, E3, E2. Qed.

Lemma frames_at_cons base f F s :
  frames_at base (f :: F) s <->
  (forall o, 0 <= o < 4096 -> vmm_get_phys (base + o) s = f + o /\ mapped_4k (base + o) s) /\
  frames_at (base + 4096) F s.
Proof.
  split.
  - intros H. split.
    + intros o Ho. specialize (H 0%nat f o eq_refl Ho). by rewrite Z.mul_0_l, Z.add_0_r in H.
    + intros i g o Hg Ho. specialize (H (S i) g o Hg Ho).
      by replace (base + Z.of_nat (S i) * 4096 + o) with (base + 4096 + Z.of_nat i * 4096 + o) in H by lia.
  - intros [H0 H] [|i] g o Hg Ho.
    + injection Hg as <-. rewrite Z.mul_0_l, Z.add_0_r. by apply H0.
    + specialize (H i g o Hg Ho).
      by replace (base + Z.of_nat (S i) * 4096 + o) with (base + 4096 + Z.of_nat i * 4096 + o) by lia.
Qed.

(** A step that keeps tables and the translations of a range keeps its frames. *)
Lemma frames_at_keep R base F s s' :
  holds_still R s s' ->
  (forall v, base <= v < base + npages_of F * 4096 -> vmm_get_phys v s' = vmm_get_phys v s) ->
  frames_at base F s -> frames_at base F s'.
Proof.
  intros Hst Hx Hf i f o Hi Ho. destruct (Hf i f o Hi Ho) as [Hp [t Ht]].
  apply lookup_lt_Some in Hi. split.
  - rewrite Hx; [done|]. unfold npages_of. lia.
  - exists t. by apply Hst.
Qed.

Lemma aligned_mid v base : base mod 4096 = 0 -> base <= v < base + 4096 -> 0 <= v < 2 ^ 48 -> 0 <= base < 2 ^ 48 ->
  same_page v base.
Proof. intros. apply same_page_aligned; lia. Qed.

Lemma holds_still_shrink p R s s' : holds_still (p :: R) s s' -> holds_still R s s'.
Proof. intros []. split; try done; [by eapply wf_reserve_tail|set_solver]. Qed.

Lemma tame_step R lo hi s s' :
  holds_still R s s' -> (forall v, lo <= v < hi -> vmm_get_phys v s' = vmm_get_phys v s) ->
  tame lo hi s -> tame lo hi s'.
Proof.
  intros Hst Hx Ht v Hv. rewrite Hx by done. destruct (Ht v Hv) as [?|[t Hm]]; [by left|right].
  exists t. by apply Hst.
Qed.

Lemma tame_sub lo hi lo' hi' s : tame lo hi s -> lo <= lo' -> hi' <= hi -> tame lo' hi' s.
Proof. intros Ht ?? v Hv. apply Ht. lia. Qed.

Lemma alloc_holds_still R s p s1 :
  wf (reserve R s) -> pmm_alloc s = (p, s1) -> p <> 0 ->
  holds_still R s s1 /\ wf (reserve (p :: R) s1) /\ p ∈ free_pages_stack s /\
  (forall v, vmm_get_phys v s1 = vmm_get_phys v s).
Proof.
  intros Hwf Ha Hp. destruct (reserve_alloc R s p s1 Hwf Ha Hp) as (Hwf1 & Hf & Hs1).
  split; [|split; [done|split; [rewrite Hf; by left|intros v; by rewrite Hs1]]].
  split; [by eapply wf_reserve_tail|by rewrite Hs1|exists 1%nat; by eapply takes_alloc| |];
    intros; by rewrite Hs1.
Qed.

(** A page inside a range of mapped frames, or its index among them. *)
Lemma page_index lo n a :
  lo mod 4096 = 0 -> a mod 4096 = 0 -> lo <= a < lo + n * 4096 ->
  exists i, a = lo + Z.of_nat i * 4096 /\ Z.of_nat i < n.
Proof.
  intros Hlo Ha Hr. exists (Z.to_nat ((a - lo) / 4096)). rewrite Z2Nat.id by zify_div. zify_div.
Qed.

Lemma frames_page base F v a :
  frames_at base F v -> base mod 4096 = 0 -> a mod 4096 = 0 -> base <= a < base + npages_of F * 4096 ->
  exists i f, F !! i = Some f /\ a = base + Z.of_nat i * 4096 /\
    forall o, 0 <= o < 4096 -> vmm_get_phys (a + o) v = f + o /\ mapped_4k (a + o) v.
Proof.
  intros Hf Hb Ha Hr. destruct (page_index _ _ _ Hb Ha Hr) as (i & -> & Hi). unfold npages_of in Hi.
  destruct (lookup_lt_is_Some_2 F i ltac:(lia)) as [f Hfi]. exists i, f. split; [done|]. split; [done|].
  intros o Ho. by apply (Hf i f o Hfi Ho).
Qed.

Lemma page_outside a o lo n :
  a mod 4096 = 0 -> lo mod 4096 = 0 -> 0 <= o < 4096 -> ~ (lo <= a < lo + n * 4096) ->
  ~ (lo <= a + o < lo + n * 4096).
Proof. intros Ha Hlo Ho Hne Hin. apply Hne. zify_div. Qed.

(** Pages taken away from a range: the frames [F] go back to the free stack. *)
Record unmapped_run (R : list Z) (lo : Z) (F : list Z) (s s' : vm) : Prop := {
  ur_wf : wf (reserve R s');
  ur_cr3 : cr3 s' = cr3 s;
  ur_free : free_pages_stack s' = reverse F ++ free_pages_stack s;
  ur_keeps q t : table_at s q = Some t -> table_at s' q = Some t;
  ur_pages p : p ∈ R -> pages s' !! p = pages s !! p;
  ur_phys v : 0 <= v < 2 ^ 48 -> vmm_get_phys v s' =
    if decide (lo <= v < lo + npages_of F * 4096) then 0 else vmm_get_phys v s;
}.

(** The frames of a block of [n] pages. *)
Definition block_frames (lo : Z) (n : nat) (v : vm) : list Z :=
  (fun i => vmm_get_phys (lo + Z.of_nat i * 4096) v) <$> seq 0 n.

Lemma block_frames_lookup lo n v i f :
  block_frames lo n v !! i = Some f <-> (i < n)%nat /\ f = vmm_get_phys (lo + Z.of_nat i * 4096) v.
Proof.
  unfold block_frames. rewrite list_lookup_fmap. destruct (decide (i < n)%nat).
  - rewrite lookup_seq_lt by done. simpl. split; [intros [= <-]; done|intros [_ ->]; done].
  - rewrite lookup_seq_ge by lia. split; [done|intros [? _]; lia].
Qed.


(** ** Windows

    A window of virtual addresses in which every mapped page has a frame of its
    own; [R] are the frames handed out, those of the window among them. *)

Definition win_page (lo hi a : Z) : Prop := lo <= a < hi /\ a mod 4096 = 0.

Record win_ok (lo hi : Z) : Prop := {
  wo_low : 0 <= lo;
  wo_high : hi <= 2 ^ 48;
  wo_aligned : hi mod 4096 = 0;
  wo_aligned_low : lo mod 4096 = 0;
}.

Record window (lo hi : Z) (R : list Z) (v : vm) : Prop := {
  wd_wf : wf (reserve R v);
  wd_tame : tame lo hi v;
  wd_page a : win_page lo hi a -> vmm_get_phys a v <> 0 ->
    vmm_get_phys a v ∈ R /\ forall o, 0 <= o < 4096 -> vmm_get_phys (a + o) v = vmm_get_phys a v + o;
  wd_inj a b : win_page lo hi a -> win_page lo hi b -> vmm_get_phys a v <> 0 ->
    vmm_get_phys a v = vmm_get_phys b v -> a = b;
  wd_base x : lo <= x < hi -> vmm_get_phys x v <> 0 -> vmm_get_phys (x - x mod 4096) v <> 0;
}.

Lemma win_page_48 lo hi a o : win_ok lo hi -> win_page lo hi a -> 0 <= o < 4096 -> 0 <= a + o < 2 ^ 48.
Proof. intros [? ? ? ?] [? ?] ?. zify_div. Qed.

(** A window nothing is mapped in. *)
Lemma window_empty lo hi v :
  wf v -> (forall a, lo <= a < hi -> vmm_get_phys a v = 0) -> window lo hi [] v.
Proof.
  intros Hwf Hz. split.
  - by rewrite reserve_nil.
  - intros a Ha. left. by apply Hz.
  - intros a [Ha _] Hnz. by rewrite Hz in Hnz.
  - intros a b [Ha _] _ Hnz. by rewrite Hz in Hnz.
  - intros x Hx Hnz. by rewrite Hz in Hnz.
Qed.

(** The pages a mapping of the range [a, ...) to the frames [F] leaves. *)
Lemma mapped_cases a n F v v' :
  a mod 4096 = 0 -> npages_of F = n -> frames_at a F v' ->
  (forall x, 0 <= x < 2 ^ 48 -> ~ (a <= x < a + n * 4096) -> vmm_get_phys x v' = vmm_get_phys x v) ->
  forall p, p mod 4096 = 0 -> 0 <= p < 2 ^ 48 ->
  (exists i f, F !! i = Some f /\ p = a + Z.of_nat i * 4096 /\
     forall o, 0 <= o < 4096 -> vmm_get_phys (p + o) v' = f + o) \/
  (~ (a <= p < a + n * 4096) /\ forall o, 0 <= o < 4096 -> vmm_get_phys (p + o) v' = vmm_get_phys (p + o) v).
Proof.
  intros Hal <- Hfr Hother p Hp Hp48. destruct (decide (a <= p < a + npages_of F * 4096)) as [Hin|Hout].
  - left. destruct (frames_page _ _ _ _ Hfr Hal Hp Hin) as (i & f & Hi & E & Ho). exists i, f.
    split_and!; try done. intros o Hoo. by apply Ho.
  - right. split; [done|]. intros o Ho. apply Hother; [zify_div|]. by apply page_outside.
Qed.

(** Fresh frames mapped at part of a window. *)
Lemma window_map lo hi R a F v v' :
  win_ok lo hi -> window lo hi R v -> a mod 4096 = 0 -> lo <= a -> a + npages_of F * 4096 <= hi ->
  holds_still R v v' -> wf (reserve (F ++ R) v') -> frames_at a F v' ->
  (forall x, 0 <= x < 2 ^ 48 -> ~ (a <= x < a + npages_of F * 4096) -> vmm_get_phys x v' = vmm_get_phys x v) ->
  window lo hi (F ++ R) v' /\
  forall p, win_page lo hi p -> vmm_get_phys p v <> 0 \/ a <= p < a + npages_of F * 4096 -> vmm_get_phys p v' <> 0.
Proof.
  intros Hwo [Hwf Htame Hpg Hinj Hbase] Hal Hlo Hhi Hst Hwf' Hfr Hother. pose proof Hwo as [Hw0 Hw1 Hw2 Hw3].
  destruct (reserved_pages _ _ Hwf') as (Hnd & [Hok _]%Forall_app & _).
  apply NoDup_app in Hnd as (Hnd & Hdis & _). rewrite Forall_forall in Hok.
  assert (Hcase0 : forall p, win_page lo hi p ->
    (exists i f, F !! i = Some f /\ p = a + Z.of_nat i * 4096 /\
       forall o, 0 <= o < 4096 -> vmm_get_phys (p + o) v' = f + o) \/
    (~ (a <= p < a + npages_of F * 4096) /\
       forall o, 0 <= o < 4096 -> vmm_get_phys (p + o) v' = vmm_get_phys (p + o) v)).
  { intros p [Hp Hpa]. eapply mapped_cases; try done. lia. }
  assert (Hcase : forall p, win_page lo hi p ->
    (exists i f, F !! i = Some f /\ f ∈ F /\ p = a + Z.of_nat i * 4096 /\ vmm_get_phys p v' = f) \/
    vmm_get_phys p v' = vmm_get_phys p v).
  { intros p Hp. destruct (Hcase0 p Hp) as [(i & f & Hi & E & Ho)|[_ Ho]]; specialize (Ho 0 ltac:(lia));
      rewrite !Z.add_0_r in Ho; [left|by right].
    exists i, f. split_and!; try done. by eapply list_elem_of_lookup_2. }
  split; [split; [done| | | |]|].
  - intros x Hx. destruct (decide (a <= x < a + npages_of F * 4096)) as [Hin|Hout].
    + right. destruct (frames_page a F v' (x - x mod 4096) Hfr Hal) as (i & f & _ & _ & Ho); [zify_div|zify_div|].
      destruct (Ho (x mod 4096) ltac:(by apply Z.mod_pos_bound)) as [_ Hm].
      by replace (x - x mod 4096 + x mod 4096) with x in Hm by lia.
    + rewrite Hother by lia. destruct (Htame x Hx) as [?|[t Ht]]; [by left|right]. exists t. by apply Hst.
  - intros p Hp. destruct (Hcase0 p Hp) as [(i & f & Hi & E & Ho)|[_ Ho]]; intros Hnz;
      pose proof (Ho 0 ltac:(lia)) as H0; rewrite !Z.add_0_r in H0; rewrite H0 in *.
    + split; [|done]. apply elem_of_app. left. by eapply list_elem_of_lookup_2.
    + destruct (Hpg p Hp Hnz) as [HR Hoff]. split; [set_solver|]. intros o Hoo. rewrite Ho by done. by apply Hoff.
  - intros p q Hp Hq Hnz Heq.
    destruct (Hcase p Hp) as [(i & f & Hi & Hin & Ep & Ef)|Ep], (Hcase q Hq) as [(j & g & Hj & Hjn & Eq & Eg)|Eq].
    + rewrite Ef, Eg in Heq. subst g. pose proof (NoDup_lookup _ _ _ _ Hnd Hi Hj). by subst.
    + exfalso. apply (Hdis f Hin). rewrite <-Ef, Heq, Eq. apply Hpg; [done|]. by rewrite <-Eq, <-Heq.
    + exfalso. apply (Hdis g Hjn). rewrite <-Eg, <-Heq, Ep. apply Hpg; [done|]. by rewrite <-Ep.
    + apply Hinj; [done|done|by rewrite <-Ep|by rewrite <-Ep, <-Eq].
  - intros x Hx Hnz. assert (Hp : win_page lo hi (x - x mod 4096)) by (split; zify_div).
    destruct (Hcase0 _ Hp) as [(i & f & Hi & E & Ho)|[Hout Ho]].
    + specialize (Ho 0 ltac:(lia)). rewrite Z.add_0_r in Ho. rewrite Ho.
      destruct (Hok f); [by eapply list_elem_of_lookup_2|lia].
    + pose proof (Ho 0 ltac:(lia)) as E0. rewrite !Z.add_0_r in E0. rewrite E0. apply Hbase; [done|].
      specialize (Ho (x mod 4096) ltac:(by apply Z.mod_pos_bound)).
      replace (x - x mod 4096 + x mod 4096) with x in Ho by lia. by rewrite <-Ho.
  - intros p Hp Hor. destruct (Hcase p Hp) as [(i & f & Hi & Hin & Ep & ->)|Ep].
    + destruct (Hok f Hin). lia.
    + rewrite Ep. destruct Hor as [?|Hr]; [done|].
      destruct (Hcase0 p Hp) as [(i & f & Hi & E & Ho)|[? _]]; [|done].
      rewrite <-Ep. specialize (Ho 0 ltac:(lia)). rewrite !Z.add_0_r in Ho. rewrite Ho.
      destruct (Hok f); [by eapply list_elem_of_lookup_2|lia].
Qed.

(** The frames behind a range whose pages are all mapped. *)
Lemma window_block lo hi R v a n :
  win_ok lo hi -> window lo hi R v -> a mod 4096 = 0 -> lo <= a -> a + Z.of_nat n * 4096 <= hi ->
  (forall p, win_page lo hi p -> a <= p < a + Z.of_nat n * 4096 -> vmm_get_phys p v <> 0) ->
  exists R', R ≡ₚ block_frames a n v ++ R' /\ frames_at a (block_frames a n v) v.
Proof.
  intros [Hw0 Hw1 Hw2 Hw3] [Hwf Htame Hpg Hinj Hbase] Hal Hlo Hhi Hmap. set (F := block_frames a n v).
  assert (Hpage : forall i, (i < n)%nat -> win_page lo hi (a + Z.of_nat i * 4096) /\
            vmm_get_phys (a + Z.of_nat i * 4096) v <> 0).
  { intros i Hi. assert (win_page lo hi (a + Z.of_nat i * 4096)) by (split; [lia|zify_div]).
    split; [done|]. apply Hmap; [done|lia]. }
  assert (Hnd : NoDup F).
  { apply NoDup_alt. intros i j f Hi%block_frames_lookup Hj%block_frames_lookup.
    destruct Hi as [Hi ->], Hj as [Hj E]. destruct (Hpage i Hi) as [Hpi Hni], (Hpage j Hj) as [Hpj _].
    pose proof (Hinj _ _ Hpi Hpj Hni E). lia. }
  assert (Hsub : F ⊆ R).
  { intros f [i Hi]%list_elem_of_lookup. apply block_frames_lookup in Hi as [Hi ->].
    destruct (Hpage i Hi) as [Hpi Hni]. by apply Hpg. }
  destruct (submseteq_Permutation F R (NoDup_submseteq _ _ Hnd Hsub)) as [R' HR]. exists R'. split; [done|].
  intros i f o Hi Ho. apply block_frames_lookup in Hi as [Hi ->]. destruct (Hpage i Hi) as [Hpi Hni].
  destruct (Hpg _ Hpi Hni) as [HinR Hoff]. rewrite Hoff by done. split; [done|].
  destruct (reserved_pages _ _ Hwf) as (_ & Hok & _). rewrite Forall_forall in Hok.
  destruct (Hok _ HinR) as [Hpos _].
  assert (Hr : lo <= a + Z.of_nat i * 4096 + o < hi) by lia.
  destruct (Htame _ Hr) as [H0|?]; [|done]. rewrite Hoff in H0 by done. lia.
Qed.

(** The range unmapped again. *)
Lemma window_unmap lo hi R R' v v' a n :
  win_ok lo hi -> window lo hi R v -> a mod 4096 = 0 -> lo <= a -> a + Z.of_nat n * 4096 <= hi ->
  (forall p, win_page lo hi p -> a <= p < a + Z.of_nat n * 4096 -> vmm_get_phys p v <> 0) ->
  R ≡ₚ block_frames a n v ++ R' -> unmapped_run R' a (block_frames a n v) v v' ->
  window lo hi R' v' /\
  forall p, win_page lo hi p -> ~ (a <= p < a + Z.of_nat n * 4096) -> vmm_get_phys p v' = vmm_get_phys p v.
Proof.
  intros Hwo [Hwf Htame Hpg Hinj Hbase] Hal Hlo Hhi Hmap HR [Hwf' Hc Hfree Hk Hp Hx]. pose proof Hwo as [Hw0 Hw1 Hw2 Hw3].
  assert (Hlen : npages_of (block_frames a n v) = Z.of_nat n).
  { unfold npages_of, block_frames. by rewrite length_fmap, length_seq. }
  rewrite Hlen in Hx.
  assert (Hsame : forall p o, win_page lo hi p -> 0 <= o < 4096 -> vmm_get_phys (p + o) v' =
    if decide (a <= p < a + Z.of_nat n * 4096) then 0 else vmm_get_phys (p + o) v).
  { intros p o Hpp Ho. rewrite Hx by (by eapply win_page_48). destruct Hpp as [_ Hpa].
    repeat case_decide; try done; zify_div. }
  assert (Hsame0 : forall p, win_page lo hi p -> vmm_get_phys p v' =
    if decide (a <= p < a + Z.of_nat n * 4096) then 0 else vmm_get_phys p v).
  { intros p Hpp. specialize (Hsame p 0 Hpp ltac:(lia)). by rewrite Z.add_0_r in Hsame. }
  split; [split; [done| | | |]|].
  - intros x Hxx. rewrite Hx by lia.
    case_decide; [by left|]. destruct (Htame x Hxx) as [?|[t Ht]]; [by left|right]. exists t. by apply Hk.
  - intros p Hpp Hnz. rewrite Hsame0 in * by done. case_decide as Hd; [done|].
    destruct (Hpg p Hpp Hnz) as [HinR Hoff]. split.
    + rewrite HR in HinR. apply elem_of_app in HinR as [Hin|?]; [|done]. exfalso. apply Hd.
      apply list_elem_of_lookup in Hin as [i Hi]. apply block_frames_lookup in Hi as [Hi E].
      assert (Hb : win_page lo hi (a + Z.of_nat i * 4096)) by (split; [lia|zify_div]).
      rewrite (Hinj _ _ Hpp Hb Hnz E). lia.
    + intros o Ho. rewrite Hsame by done. rewrite decide_False by done. by apply Hoff.
  - intros p q Hpp Hq. rewrite !Hsame0 by done. intros Hnz Heq.
    destruct (decide (a <= p < _)), (decide (a <= q < _)); try done. by apply Hinj.
  - intros x Hxx Hnz. rewrite Hx in * by (zify_div). case_decide as Hd; [done|].
    rewrite decide_False by zify_div. by apply Hbase.
  - intros p Hpp Hout. by rewrite Hsame0, decide_False.
Qed.

(** ** A space in which nothing is mapped, with 24 free pages *)

Definition user_pages : list Z := (fun i => 4096 * (Z.of_nat i + 2)) <$> seq 0 24.
Definition user_space : vm := Vm {[ 4096 := zero_page ]} user_pages 4096.

Lemma user_pages_ok : NoDup user_pages /\ Forall page_ok user_pages /\ 4096 ∉ user_pages.
Proof.
  split; [|split].
  - refine (bool_decide_unpack _ _). vm_compute. exact I.
  - apply Forall_forall. intros p (i & -> & Hi%elem_of_seq)%list_elem_of_fmap. split; [lia|zify_div].
  - refine (bool_decide_unpack _ _). vm_compute. exact I.
Qed.

Lemma user_space_wf : wf user_space.
Proof. destruct user_pages_ok as (Hn & Hp & H0). by apply wf_empty_space. Qed.

Lemma user_space_empty a : vmm_get_phys a user_space = 0.
Proof.
  apply unmapped_root. unfold entry, user_space. cbn [pages cr3]. rewrite lookup_singleton_eq. apply zero_page_lookup.
Qed.
