(* ===== verification/UserMemSpec.v ===== *)
(** Stores and loads in a window of user memory: a store changes the byte it is
    meant for and no other. *)
From Stdlib Require Import ZArith Lia.
From stdpp Require Import base numbers list gmap.
From S2P Require Import Prelude Vmm VmmSpec VmmProps VmmFrame UserSpace UserMem.

(** ** Bytes of a word *)

Lemma byte_of_set w k b j :
  0 <= k -> 0 <= j -> 0 <= b < 256 -> byte_of (set_byte w k b) j = if decide (j = k) then b else byte_of w j.
Proof.
  intros Hk Hj Hb. unfold set_byte. set (B := byte_of w k).
  assert (HB : 0 <= B < 256) by (apply Z.mod_pos_bound; lia).
  assert (Hw : w = (w / 2 ^ (8 * k) / 256 * 256 + B) * 2 ^ (8 * k) + w mod 2 ^ (8 * k)).
  { unfold B, byte_of. pose proof (Z.div_mod w (2 ^ (8 * k)) ltac:(lia)).
    pose proof (Z.div_mod (w / 2 ^ (8 * k)) 256 ltac:(lia)). lia. }
  set (hi := w / 2 ^ (8 * k) / 256) in *. set (lo := w mod 2 ^ (8 * k)) in *.
  assert (Hlo : 0 <= lo < 2 ^ (8 * k)) by (apply Z.mod_pos_bound; lia).
  assert (Hnew : w + (b - B) * 2 ^ (8 * k) = (hi * 256 + b) * 2 ^ (8 * k) + lo) by lia.
  rewrite Hnew. unfold byte_of. destruct (decide (j = k)) as [->|Hne].
  { rewrite Z.div_add_l, (Z.div_small lo) by lia. rewrite Z.add_0_r, Z.add_comm, Z.mod_add by lia.
    by apply Z.mod_small. }
  destruct (decide (j < k)).
  - (* below: both sums agree modulo 2 ^ (8 * j + 8) *)
    assert (Hsplit : 2 ^ (8 * k) = 2 ^ (8 * (k - j - 1)) * 256 * 2 ^ (8 * j)).
    { change 256 with (2 ^ 8). rewrite <-!Z.pow_add_r by lia. f_equal. lia. }
    assert (Hgen : forall x, ((x * 2 ^ (8 * k) + lo) / 2 ^ (8 * j)) mod 256 = (lo / 2 ^ (8 * j)) mod 256).
    { intros x. rewrite Hsplit, !Z.mul_assoc, Z.div_add_l by lia.
      replace (x * 2 ^ (8 * (k - j - 1)) * 256 + lo / 2 ^ (8 * j))
        with (lo / 2 ^ (8 * j) + x * 2 ^ (8 * (k - j - 1)) * 256) by lia.
      by apply Z.mod_add. }
    rewrite Hgen. rewrite Hw. by rewrite Hgen.
  - assert (Hsplit : 2 ^ (8 * j) = 2 ^ (8 * k) * (256 * 2 ^ (8 * (j - k - 1)))).
    { change 256 with (2 ^ 8). rewrite <-!Z.pow_add_r by lia. f_equal. lia. }
    assert (Hgen : forall x, 0 <= x < 256 ->
      ((hi * 256 + x) * 2 ^ (8 * k) + lo) / 2 ^ (8 * j) = hi / 2 ^ (8 * (j - k - 1))).
    { intros x Hx. rewrite Hsplit, <-Z.div_div by lia. rewrite Z.div_add_l, (Z.div_small lo) by lia.
      rewrite Z.add_0_r, <-Z.div_div by lia. rewrite Z.div_add_l, (Z.div_small x) by lia. by rewrite Z.add_0_r. }
    rewrite Hgen by done. rewrite Hw at 1. by rewrite Hgen.
Qed.

Lemma byte_of_0 k : byte_of 0 k = 0.
Proof. unfold byte_of. by rewrite Zdiv_0_l. Qed.

(** ** Addresses inside frames *)

Lemma frame_parts f o :
  f mod 4096 = 0 -> 0 <= o < 4096 ->
  page_base (f + o) = f /\ word_index (f + o) = Z.to_nat (o / 8) /\ (f + o) mod 8 = o mod 8.
Proof.
  intros Hf Ho. assert (Hm : (f + o) mod 4096 = o) by zify_div.
  unfold page_base, word_index. rewrite Hm. split; [lia|]. split; [done|zify_div].
Qed.

(** The frames of a window hold whole pages. *)
Definition full_page (s : vm) (f : Z) : Prop := exists l, pages s !! f = Some l /\ length l = 512%nat.

Section Window.
Context (lo hi : Z) (Hwo : win_ok lo hi).

(** An address of the window: its page, its frame and its offset. *)
Lemma window_addr R s x :
  window lo hi R s -> lo <= x < hi -> vmm_get_phys x s <> 0 ->
  let p := x - x mod 4096 in let f := vmm_get_phys p s in
  win_page lo hi p /\ f <> 0 /\ f ∈ R /\ f mod 4096 = 0 /\ vmm_get_phys x s = f + x mod 4096.
Proof.
  intros [Hwf Htame Hpg Hinj Hbase] Hx Hnz p f. destruct Hwo as [H0 H1 H2 H3].
  assert (Hp : win_page lo hi p) by (unfold p; split; zify_div). split; [done|].
  assert (Hf : f <> 0) by (by apply Hbase). split; [done|].
  destruct (Hpg p Hp Hf) as [HinR Hoff]. split; [done|].
  destruct (reserved_pages _ _ Hwf) as (_ & Hok & _). rewrite Forall_forall in Hok.
  destruct (Hok _ HinR) as [_ Hal]. split; [done|].
  pose proof (Hoff (x mod 4096) ltac:(by apply Z.mod_pos_bound)) as Ho.
  by replace (p + x mod 4096) with x in Ho by (unfold p; lia).
Qed.

(** A change of the contents of one frame. *)
Lemma window_fill R s f s' :
  window lo hi R s -> f ∈ R -> cr3 s' = cr3 s -> free_pages_stack s' = free_pages_stack s ->
  (forall g, g <> f -> pages s' !! g = pages s !! g) ->
  window lo hi R s' /\ (forall v, vmm_get_phys v s' = vmm_get_phys v s) /\
  (forall q, table_at s' q = table_at s q) /\ wf (reserve R s').
Proof.
  intros [Hwf Htame Hpg Hinj Hbase] Hf Hc Hfree Hother.
  destruct (reserved_pages _ _ Hwf) as (_ & _ & _ & Htab).
  assert (Hent : forall t i, t <> f -> entry (pages s') t i = entry (pages s) t i).
  { intros t i Hne. unfold entry. by rewrite Hother. }
  assert (Hta : forall q, table_at s' q = table_at s q).
  { induction q as [|j q IH] using rev_ind; [unfold table_at; simpl; by rewrite Hc|].
    rewrite !table_at_snoc, IH. destruct (table_at s q) as [t|] eqn:E; [|done].
    by rewrite Hent by (by eapply Htab). }
  assert (Hph : forall v, vmm_get_phys v s' = vmm_get_phys v s).
  { intros v. rewrite !get_phys_xlate. unfold read_at. rewrite !Hta.
    assert (Hr : forall q i, match table_at s q with Some t => entry (pages s') t i | None => 0 end
      = match table_at s q with Some t => entry (pages s) t i | None => 0 end).
    { intros q i. destruct (table_at s q) as [t|] eqn:E; [|done]. by rewrite Hent by (by eapply Htab). }
    by rewrite !Hr. }
  assert (Hwf' : wf (reserve R s')).
  { destruct Hwf as [Hp1 Hp2 Hp3 Hp4]. unfold reserve in *.
    assert (Hta' : forall q, table_at (with_free (free_pages_stack s' ++ R) s') q =
      table_at (with_free (free_pages_stack s ++ R) s) q) by exact Hta.
    split; [| | |by simpl in *; rewrite Hfree].
    - intros q t Hq. rewrite Hta' in Hq. destruct (Hp1 q t Hq) as (l & Hl & Hlen). exists l. split; [|done].
      cbn [with_free pages] in *. rewrite Hother; [done|]. by eapply Htab.
    - intros q r t. rewrite !Hta'. apply Hp2.
    - intros q t. rewrite Hta'. simpl in *. rewrite Hfree. apply Hp3. }
  split; [|done]. split; try setoid_rewrite Hph; try done.
  intros x Hx. rewrite Hph. destruct (Htame x Hx) as [?|[t Ht]]; [by left|right]. exists t. by rewrite Hta.
Qed.

Lemma store_byte_window R s a b s' :
  window lo hi R s -> lo <= a < hi -> 0 <= b < 256 -> full_page s (vmm_get_phys (a - a mod 4096) s) ->
  store_byte a b s = Some s' ->
  window lo hi R s' /\ (forall v, vmm_get_phys v s' = vmm_get_phys v s) /\
  (forall f, full_page s f -> full_page s' f) /\
  forall x, lo <= x < hi -> load_byte x s' = if decide (x = a) then Some b else load_byte x s.
Proof.
  intros Hwin Ha Hb [l [Hl Hlen]]. unfold store_byte. destruct (Z.eqb_spec (vmm_get_phys a s) 0) as [|Hnz]; [done|].
  intros [= <-]. destruct (window_addr R s a Hwin Ha Hnz) as (Hp & Hf & HfR & Hal & Ea).
  set (f := vmm_get_phys (a - a mod 4096) s) in *. set (o := a mod 4096) in *.
  assert (Ho : 0 <= o < 4096) by (by apply Z.mod_pos_bound).
  destruct (frame_parts f o Hal Ho) as (E1 & E2 & E3). rewrite Ea, E1, E2, E3.
  set (w := entry (pages s) f (Z.to_nat (o / 8))). set (s' := set_entry f _ _ s).
  assert (Hi : (Z.to_nat (o / 8) < length l)%nat) by zify_div.
  destruct (window_fill R s f s' Hwin HfR) as (Hwin' & Hph & _ & _); [done|done| |].
  { intros g Hg. unfold s', set_entry. cbn [with_pages pages]. by rewrite lookup_alter_ne. }
  split; [done|]. split; [done|]. split.
  { intros g [lg [Hlg Hng]]. unfold s', set_entry, full_page. cbn [with_pages pages].
    destruct (decide (g = f)) as [->|Hne]; [|rewrite lookup_alter_ne by done; eauto].
    rewrite lookup_alter_eq, Hlg. eexists. split; [done|]. by rewrite length_insert. }
  intros x Hx. unfold load_byte. rewrite Hph.
  destruct (Z.eqb_spec (vmm_get_phys x s) 0) as [E0|Hxnz].
  { rewrite decide_False; [done|]. by intros ->. }
  destruct (window_addr R s x Hwin Hx Hxnz) as (Hpx & Hfx & _ & Halx & Ex).
  assert (Hox : 0 <= x mod 4096 < 4096) by (by apply Z.mod_pos_bound).
  set (fx := vmm_get_phys (x - x mod 4096) s) in *. set (ox := x mod 4096) in *.
  destruct (frame_parts fx ox Halx Hox) as (F1 & F2 & F3). rewrite Ex, F1, F2, F3.
  unfold s'. rewrite (entry_set _ _ _ _ _ _ _ Hl Hi).
  assert (Hsame : fx = f -> x - ox = a - o).
  { intros E. by apply (wd_inj _ _ _ _ Hwin). }
  destruct (decide (fx = f /\ Z.to_nat (ox / 8) = Z.to_nat (o / 8))) as [[Ef Ei]|Hne].
  - rewrite byte_of_set by (try done; by apply Z.mod_pos_bound). specialize (Hsame Ef).
    destruct (decide (ox mod 8 = o mod 8)) as [Em|Em].
    + rewrite decide_True; [done|]. zify_div.
    + rewrite decide_False by congruence. by rewrite Ef, Ei.
  - rewrite decide_False; [done|]. intros ->. by apply Hne.
Qed.

(** A page cleared. *)
Lemma memset_page_window R s a s' :
  window lo hi R s -> win_page lo hi a -> memset_page a s = Some s' ->
  window lo hi R s' /\ (forall v, vmm_get_phys v s' = vmm_get_phys v s) /\
  full_page s' (vmm_get_phys a s) /\ (forall f, full_page s f -> full_page s' f) /\
  (forall q, table_at s' q = table_at s q) /\
  forall x, lo <= x < hi -> load_byte x s' = if decide (a <= x < a + 4096) then Some 0 else load_byte x s.
Proof.
  intros Hwin [Ha Hal]. unfold memset_page. destruct (Z.eqb_spec (vmm_get_phys a s) 0) as [|Hnz]; [done|].
  intros [= <-]. destruct (wd_page _ _ _ _ Hwin a (conj Ha Hal) Hnz) as [HfR Hoff].
  set (f := vmm_get_phys a s) in *. set (s' := fill_page f zero_page s).
  assert (Hfill : pages s' !! f = Some zero_page) by (unfold s', fill_page; cbn [with_pages pages]; by rewrite lookup_insert_eq).
  assert (Hfp : full_page s' f) by (exists zero_page; split; [done|apply length_replicate]).
  assert (Hother : forall g, g <> f -> pages s' !! g = pages s !! g).
  { intros g Hg. unfold s', fill_page. cbn [with_pages pages]. by rewrite lookup_insert_ne. }
  destruct (window_fill R s f s' Hwin HfR) as (Hwin' & Hph & Hta & _); [done|done|done|].
  split; [done|]. split; [done|]. split; [done|]. split.
  { intros g [lg [Hlg Hng]]. destruct (decide (g = f)) as [->|Hne]; [done|]. exists lg. by rewrite Hother. }
  split; [done|]. intros x Hx. unfold load_byte. rewrite Hph.
  destruct (Z.eqb_spec (vmm_get_phys x s) 0) as [E0|Hxnz].
  { rewrite decide_False; [done|]. intros Hin. specialize (Hoff (x - a) ltac:(lia)).
    replace (a + (x - a)) with x in Hoff by lia.
    destruct (reserved_pages _ _ (wd_wf _ _ _ _ Hwin)) as (_ & Hok & _). rewrite Forall_forall in Hok.
    destruct (Hok _ HfR). lia. }
  destruct (window_addr R s x Hwin Hx Hxnz) as (Hpx & Hfx & _ & Halx & Ex).
  assert (Hox : 0 <= x mod 4096 < 4096) by (by apply Z.mod_pos_bound).
  set (fx := vmm_get_phys (x - x mod 4096) s) in *. set (ox := x mod 4096) in *.
  destruct (frame_parts fx ox Halx Hox) as (F1 & F2 & F3). rewrite Ex, F1, F2, F3.
  unfold s'. rewrite entry_fill. destruct (decide (fx = f)) as [Ef|Hne].
  - assert (E : x - ox = a) by (apply (wd_inj _ _ _ _ Hwin); [done|done|done|exact Ef]).
    rewrite decide_True by lia. unfold zero_page. f_equal.
    replace (default 0 (replicate 512 0 !! Z.to_nat (ox / 8))) with 0; [by apply byte_of_0|].
    destruct (replicate 512 0 !! _) as [z|] eqn:Ez; [|done]. by apply lookup_replicate in Ez as [-> _].
  - rewrite decide_False; [done|]. intros Hin. apply Hne. unfold fx, f. f_equal. unfold ox. zify_div.
Qed.
End Window.
