(* ===== verification/UserHeap.v ===== *)
(** The allocator behind the alloc and free system calls: the user heap of
    src/kernel/syscall.c.  The block descriptors are a map from their kernel
    heap addresses to their fields, linked by [next] and [prev] as the C links
    them (0 is NULL); pages come from pmm.c and are mapped with vmm.c, so the
    state holds the memory of [Vmm] and a kernel heap.  [None] is a computation
    that faults. *)
From Stdlib Require Import ZArith Lia.
From stdpp Require Import base numbers list gmap.
From S2P Require Import Prelude HeapIface Vmm UserMem.

Definition USER_HEAP_BASE : Z := 0x20000000.
Definition USER_HEAP_LIMIT : Z := USER_HEAP_BASE + 256 * 1024 * 1024.

Record user_blk := UserBlk {
  base : Z;
  npages : Z;
  free : bool;
  owner : Z;
  next : Z;
  prev : Z;
}.

Definition sizeof_user_blk : Z := 40.

Definition with_npages (n : Z) (x : user_blk) : user_blk :=
  UserBlk (base x) n (free x) (owner x) (next x) (prev x).
Definition with_free_flag (f : bool) (x : user_blk) : user_blk :=
  UserBlk (base x) (npages x) f (owner x) (next x) (prev x).
Definition with_owner (o : Z) (x : user_blk) : user_blk :=
  UserBlk (base x) (npages x) (free x) o (next x) (prev x).
Definition with_next (n : Z) (x : user_blk) : user_blk :=
  UserBlk (base x) (npages x) (free x) (owner x) n (prev x).
Definition with_prev (p : Z) (x : user_blk) : user_blk :=
  UserBlk (base x) (npages x) (free x) (owner x) (next x) p.

Record uheap {H : Type} := Uheap {
  blks : gmap Z user_blk;
  user_blocks : Z;
  user_heap_cur : Z;
  mem : vm;
  kh : H;
}.
Arguments uheap : clear implicits.
Arguments Uheap {H}. Arguments blks {H}. Arguments user_blocks {H}.
Arguments user_heap_cur {H}. Arguments mem {H}. Arguments kh {H}.

(** The loop of [user_map_pages].  An iteration takes a page, so one more
    iteration than there are free pages is enough ([map_pages_fuel]). *)
Fixpoint map_pages_loop (fuel : nat) (p base npages : Z) (s : vm) : option (bool * vm) :=
  match fuel with
  | O => None
  | S fuel =>
      if p <? npages then
        let '(phys, s) := pmm_alloc s in
        if phys =? 0 then Some (false, s) else
        let va := u64 (base + p * 4096) in
        let s := snd (vmm_map_range va phys 4096 (Z.lor (Z.lor VMM_PRESENT VMM_WRITE) VMM_USER) s) in
        match memset_page va s with
        | None => None
        | Some s => map_pages_loop fuel (p + 1) base npages s
        end
      else Some (true, s)
  end.

Definition user_map_pages (base npages : Z) (s : vm) : option (bool * vm) :=
  map_pages_loop (S (length (free_pages_stack s))) 0 base npages s.

(** The loop that gives the pages of a block back. *)
Fixpoint unmap_pages_loop (n : nat) (p base : Z) (s : vm) : vm :=
  match n with
  | O => s
  | S n =>
      let va := u64 (base + p * 4096) in
      let phys := vmm_get_phys va s in
      let s := vmm_unmap va s in
      unmap_pages_loop n (p + 1) base (if phys =? 0 then s else pmm_free phys s)
  end.

Section Allocator.
Context {H : Type} `{!KernelHeap H}.
Implicit Types (s : uheap H).

Definition with_blks (m : gmap Z user_blk) s : uheap H :=
  Uheap m (user_blocks s) (user_heap_cur s) (mem s) (kh s).
Definition with_mem (v : vm) s : uheap H :=
  Uheap (blks s) (user_blocks s) (user_heap_cur s) v (kh s).
Definition with_kh (h : H) s : uheap H :=
  Uheap (blks s) (user_blocks s) (user_heap_cur s) (mem s) h.
Definition with_cur (c : Z) s : uheap H :=
  Uheap (blks s) (user_blocks s) c (mem s) (kh s).

(** A walk along [next] takes at most one step for each descriptor. *)
Definition walk_steps s : nat := S (size (blks s)).

(** [while (cur && cur->base < base)]: the final [prev] and [cur]. *)
Fixpoint place_loop (fuel : nat) (m : gmap Z user_blk) (at_ pv cur : Z) : option (Z * Z) :=
  match fuel with
  | O => None
  | S fuel =>
      if cur =? 0 then Some (pv, cur) else
      x ← m !! cur;
      if base x <? at_ then place_loop fuel m at_ cur (next x) else Some (pv, cur)
  end.

(** Returns the new descriptor, 0 for NULL. *)
Definition user_blk_new (at_ n : Z) (fr : bool) s : option (Z * uheap H) :=
  match kmalloc sizeof_user_blk (kh s) with
  | (None, h) => Some (0, with_kh h s)
  | (Some b, h) =>
      '(pv, cur) ← place_loop (walk_steps s) (blks s) at_ 0 (user_blocks s);
      let m := <[b := UserBlk at_ n fr 0 cur pv]> (blks s) in
      let m := if pv =? 0 then m else alter (with_next b) pv m in
      let head := if pv =? 0 then b else user_blocks s in
      let m := if cur =? 0 then m else alter (with_prev b) cur m in
      Some (b, Uheap m head (user_heap_cur s) (mem s) h)
  end.

(** What both halves of the coalescing do to a block and its successor. *)
Definition absorb (p : Z) (x : user_blk) (b : Z) (y : user_blk) s : uheap H :=
  let m := <[p := with_next (next y) (with_npages (u64 (npages x + npages y)) x)]> (blks s) in
  let m := if next y =? 0 then m else alter (with_prev p) (next y) m in
  with_kh (kfree b (kh s)) (with_blks (delete b m) s).

Definition contiguous (x y : user_blk) : bool :=
  u64 (base x + npages x * 4096) =? base y.

Definition merge_prev (b : Z) s : option (Z * uheap H) :=
  x ← blks s !! b;
  if prev x =? 0 then Some (b, s) else
  p ← blks s !! prev x;
  if free p && contiguous p x then Some (prev x, absorb (prev x) p b x s) else Some (b, s).

Definition merge_next (b : Z) s : option (uheap H) :=
  x ← blks s !! b;
  if next x =? 0 then Some s else
  n ← blks s !! next x;
  if free n && contiguous x n then Some (absorb b x (next x) n s) else Some s.

Definition user_blk_coalesce (b : Z) s : option (uheap H) :=
  '(b, s) ← merge_prev b s;
  merge_next b s.

(** The first block of the list that passes the test; 0 when there is none. *)
Fixpoint find_blk (fuel : nat) (test : user_blk -> bool) (m : gmap Z user_blk) (b : Z) : option Z :=
  match fuel with
  | O => None
  | S fuel =>
      if b =? 0 then Some 0 else
      x ← m !! b;
      if test x then Some b else find_blk fuel test m (next x)
  end.

Definition set_blk (b : Z) (f : user_blk -> user_blk) s : uheap H :=
  with_blks (alter f b (blks s)) s.

(** The task id recorded in a block; [oc] is [get_current_task()]. *)
Definition owner_of (oc : option Z) : Z := default 0 oc.

Definition ALLOC_FAILED : Z := 2 ^ 64 - 1.

Definition pages_for (size : Z) : Z :=
  let n := u64 (size + 4095) / 4096 in if n =? 0 then 1 else n.

(** The reuse of a free block: the body of the first-fit loop. *)
Definition reuse_blk (oc : option Z) (n b : Z) s : option (Z * uheap H) :=
  x ← blks s !! b;
  s ← (if n <? npages x then
         '(_, s) ← user_blk_new (u64 (base x + n * 4096)) (npages x - n) true s;
         Some (set_blk b (with_npages n) s)
       else Some s);
  let s := set_blk b (fun x => with_owner (owner_of oc) (with_free_flag false x)) s in
  x ← blks s !! b;
  '(ok, v) ← user_map_pages (base x) (npages x) (mem s);
  let s := with_mem v s in
  if (ok : bool) then Some (base x, s)
  else Some (ALLOC_FAILED, set_blk b (with_free_flag true) s).

(** The growth of the heap at its high-water mark. *)
Definition grow_heap (oc : option Z) (n : Z) s : option (Z * uheap H) :=
  let at_ := user_heap_cur s in
  if USER_HEAP_LIMIT <? u64 (at_ + u64 (n * 4096)) then Some (ALLOC_FAILED, s) else
  '(ok, v) ← user_map_pages at_ n (mem s);
  let s := with_mem v s in
  if negb ok then Some (ALLOC_FAILED, s) else
  let s := with_cur (u64 (user_heap_cur s + u64 (n * 4096))) s in
  '(nb, s) ← user_blk_new at_ n false s;
  Some (at_, if nb =? 0 then s else set_blk nb (with_owner (owner_of oc)) s).

Definition k_sys_alloc_user (oc : option Z) (size : Z) s : option (Z * uheap H) :=
  if size =? 0 then Some (0, s) else
  let n := pages_for size in
  b ← find_blk (walk_steps s) (fun x => free x && (n <=? npages x)) (blks s) (user_blocks s);
  if b =? 0 then grow_heap oc n s else reuse_blk oc n b s.

Definition k_sys_free_user (ptr : Z) s : option (uheap H) :=
  if (ptr =? 0) || (ptr <? USER_HEAP_BASE) || (USER_HEAP_LIMIT <=? ptr) then Some s else
  b ← find_blk (walk_steps s) (fun x => base x =? ptr) (blks s) (user_blocks s);
  if b =? 0 then Some s else
  x ← blks s !! b;
  if free x then Some s else
  let s := set_blk b (with_free_flag true) s in
  let s := with_mem (unmap_pages_loop (Z.to_nat (npages x)) 0 (base x) (mem s)) s in
  user_blk_coalesce b s.

(** The loop over the blocks of a task that exits; [b->next] is read after the
    coalescing, which may have freed [b]. *)
Fixpoint release_loop (fuel : nat) (own b : Z) s : option (uheap H) :=
  match fuel with
  | O => None
  | S fuel =>
      if b =? 0 then Some s else
      x ← blks s !! b;
      s ← (if negb (free x) && (owner x =? own) then
             user_blk_coalesce b (set_blk b (fun x => with_owner 0 (with_free_flag true x)) s)
           else Some s);
      x ← blks s !! b;
      release_loop fuel own (next x) s
  end.

Definition user_heap_release_owner (own : Z) s : option (uheap H) :=
  if own <=? 0 then Some s else release_loop (walk_steps s) own (user_blocks s) s.
End Allocator.

(** The allocator at boot. *)
Definition user_heap_boot {H} (v : vm) (h : H) : uheap H := Uheap ∅ 0 USER_HEAP_BASE v h.
