(* ===== verification/UserHeapSpec.v ===== *)
(** The block list of the user heap: the linked descriptors as a list of
    blocks, what each operation does to that list, the invariant of the blocks
    and what coalescing, splitting and growing do to it.  The kernel heap is used
    through [KernelHeapSpec] only. *)
From Stdlib Require Import ZArith Lia.
From stdpp Require Import base numbers list gmap.
From S2P Require Import Prelude HeapIface Vmm VmmSpec UserHeap.

(** ** Doubly linked segments *)

(** A block without its links. *)
Record ublk := Ublk { ub_base : Z; ub_npages : Z; ub_free : bool; ub_owner : Z }.

#[export] Instance ublk_eq_dec : EqDecision ublk.
Proof. solve_decision. Defined.

Definition node (d : ublk) (pv nx : Z) : user_blk :=
  UserBlk (ub_base d) (ub_npages d) (ub_free d) (ub_owner d) nx pv.

Definition hd_addr (nx : Z) (l : list (Z * ublk)) : Z :=
  match l with [] => nx | (a, _) :: _ => a end.

Fixpoint last_addr (pv : Z) (l : list (Z * ublk)) : Z :=
  match l with [] => pv | (a, _) :: l => last_addr a l end.

(** The descriptors of [l] are linked in order, between [pv] and [nx]. *)
Fixpoint seg (m : gmap Z user_blk) (pv : Z) (l : list (Z * ublk)) (nx : Z) : Prop :=
  match l with
  | [] => True
  | (a, d) :: l => m !! a = Some (node d pv (hd_addr nx l)) /\ seg m a l nx
  end.

Lemma seg_app m pv l1 l2 nx :
  seg m pv (l1 ++ l2) nx <-> seg m pv l1 (hd_addr nx l2) /\ seg m (last_addr pv l1) l2 nx.
Proof.
  revert pv. induction l1 as [|[a d] l1 IH]; intros pv; simpl; [tauto|].
  rewrite IH. destruct l1 as [|[a1 d1] l1]; simpl; tauto.
Qed.

Lemma hd_addr_app nx l1 l2 : hd_addr nx (l1 ++ l2) = hd_addr (hd_addr nx l2) l1.
Proof. by destruct l1 as [|[??] ?]. Qed.

Lemma last_addr_app pv l1 l2 : last_addr pv (l1 ++ l2) = last_addr (last_addr pv l1) l2.
Proof. revert pv. induction l1 as [|[??] l1 IH]; intros; simpl; auto. Qed.

Lemma last_addr_in pv l : l <> [] -> last_addr pv l ∈ l.*1.
Proof.
  revert pv. induction l as [|[a d] l IH]; intros pv Hl; [done|]. simpl.
  destruct l as [|p l]; [set_solver|]. right. by apply IH.
Qed.

Lemma seg_frame m m' pv l nx :
  (forall a, a ∈ l.*1 -> m' !! a = m !! a) -> seg m pv l nx -> seg m' pv l nx.
Proof.
  revert pv. induction l as [|[a d] l IH]; intros pv Hm; simpl; [done|].
  intros [Ha Hl]. split.
  - rewrite Hm; [done|]. set_solver.
  - apply IH; [|done]. intros b Hb. apply Hm. set_solver.
Qed.

Lemma seg_lookup m pv l nx a d :
  seg m pv l nx -> (a, d) ∈ l -> exists p n, m !! a = Some (node d p n).
Proof.
  revert pv. induction l as [|[b e] l IH]; intros pv; simpl; [by rewrite elem_of_nil|].
  intros [Hb Hl] [[= -> ->]|Hin]%elem_of_cons; eauto.
Qed.

(** Relinking a neighbour changes one end of a segment. *)
Lemma seg_relink_next m pv l nx nx' :
  NoDup l.*1 -> l <> [] -> seg m pv l nx ->
  seg (alter (with_next nx') (last_addr pv l) m) pv l nx'.
Proof.
  revert pv. induction l as [|[a d] l IH]; intros pv Hnd Hne; [done|]. simpl.
  rewrite fmap_cons, NoDup_cons in Hnd. destruct Hnd as [Ha Hnd]. intros [Hm Hl]. destruct l as [|[b e] l].
  - simpl in *. split; [|done]. by rewrite lookup_alter_eq, Hm.
  - split.
    + rewrite lookup_alter_ne; [done|]. intros Heq. apply Ha. rewrite <-Heq.
      by apply last_addr_in.
    + by apply IH.
Qed.

Lemma seg_relink_prev m pv pv' l nx :
  NoDup l.*1 -> l <> [] -> seg m pv l nx ->
  seg (alter (with_prev pv') (hd_addr nx l) m) pv' l nx.
Proof.
  destruct l as [|[a d] l]; intros Hnd Hne; [done|]. simpl. intros [Hm Hl].
  rewrite fmap_cons, NoDup_cons in Hnd. destruct Hnd as [Ha _]. split; [by rewrite lookup_alter_eq, Hm|].
  eapply seg_frame; [|done]. intros b Hb. rewrite lookup_alter_ne; [done|]. by intros <-.
Qed.

(** ** States and their lists *)

Section Rep.
Context {H : Type} `{!KernelHeap H, !KernelHeapSpec H}.
Implicit Types (s : uheap H) (l : list (Z * ublk)).

(** The list starts at [user_blocks]; its descriptors are distinct live blocks
    of the kernel heap. *)
Record rep s l : Prop := {
  rep_head : user_blocks s = hd_addr 0 l;
  rep_seg : seg (blks s) 0 l 0;
  rep_nodup : NoDup l.*1;
  rep_live : forall a, a ∈ l.*1 -> 0 < a /\ is_Some (live (kh s) !! a);
  rep_heap : heap_ok (kh s);
}.

(** There are enough steps for a walk. *)
Lemma rep_steps s l : rep s l -> (length l < walk_steps s)%nat.
Proof.
  intros [_ Hseg Hnd _ _]. unfold walk_steps.
  assert (Hsub : list_to_set l.*1 ⊆ dom (blks s)).
  { intros a Ha. apply elem_of_list_to_set in Ha.
    apply list_elem_of_fmap in Ha as ([b d] & -> & Hb).
    destruct (seg_lookup _ _ _ _ _ _ Hseg Hb) as (p & n & Hm).
    apply elem_of_dom. eauto. }
  apply subseteq_size in Hsub. rewrite size_list_to_set, length_fmap, size_dom in Hsub by done. lia.
Qed.

(** [user_blocks] is 0 exactly for the empty list, and so is every link. *)
Lemma hd_addr_0 l :
  (forall a, a ∈ l.*1 -> 0 < a) -> (hd_addr 0 l =? 0) = match l with [] => true | _ => false end.
Proof.
  destruct l as [|[a d] l]; simpl; intros Hpos; [done|]. apply Z.eqb_neq.
  assert (0 < a) by (apply Hpos; set_solver). lia.
Qed.

Lemma last_addr_0 l :
  (forall a, a ∈ l.*1 -> 0 < a) -> (last_addr 0 l =? 0) = match l with [] => true | _ => false end.
Proof.
  intros Hpos. destruct l as [|x l]; [done|]. apply Z.eqb_neq.
  pose proof (Hpos _ (last_addr_in 0 (x :: l) ltac:(done))). lia.
Qed.

(** ** Searching *)

Definition blk_test (test : user_blk -> bool) (f : ublk -> bool) : Prop :=
  forall d pv nx, test (node d pv nx) = f d.

Lemma find_blk_spec m test f fuel pv l :
  blk_test test f -> (forall a, a ∈ l.*1 -> 0 < a) ->
  seg m pv l 0 -> (length l < fuel)%nat ->
  (Forall (fun x => f x.2 = false) l /\ find_blk fuel test m (hd_addr 0 l) = Some 0) \/
  (exists l1 a d l2, l = l1 ++ (a, d) :: l2 /\ Forall (fun x => f x.2 = false) l1 /\
     f d = true /\ find_blk fuel test m (hd_addr 0 l) = Some a).
Proof.
  intros Ht. revert pv fuel. induction l as [|[a d] l IH]; intros pv fuel Hpos Hseg Hf.
  { left. split; [done|]. by destruct fuel; [simpl in Hf; lia|]. }
  destruct fuel as [|fuel]; simpl in Hf; [lia|]. simpl. destruct Hseg as [Ha Hseg].
  rewrite (hd_addr_0 ((a, d) :: l) Hpos : (a =? 0) = false).
  rewrite Ha. simpl. rewrite !(Ht d pv (hd_addr 0 l)). destruct (f d) eqn:Ef.
  - right. exists [], a, d, l. by split_and!.
  - assert (Hpos' : forall b, b ∈ l.*1 -> 0 < b) by set_solver.
    destruct (IH a fuel Hpos' Hseg ltac:(lia)) as [[Hall E]|(l1 & b & e & l2 & -> & Hall & Eb & E)].
    + left. split; [by constructor|done].
    + right. exists ((a, d) :: l1), b, e, l2. split_and!; [done|by constructor|done..].
Qed.

Definition below (at_ : Z) (x : Z * ublk) : Prop := ub_base x.2 < at_.

Lemma place_loop_spec m at_ fuel pv l :
  (forall a, a ∈ l.*1 -> 0 < a) -> seg m pv l 0 -> (length l < fuel)%nat ->
  exists l1 l2, l = l1 ++ l2 /\ Forall (below at_) l1 /\
    (forall x, head l2 = Some x -> at_ <= ub_base x.2) /\
    place_loop fuel m at_ pv (hd_addr 0 l) = Some (last_addr pv l1, hd_addr 0 l2).
Proof.
  revert pv fuel. induction l as [|[a d] l IH]; intros pv fuel Hpos Hseg Hf.
  { exists [], []. destruct fuel; [simpl in Hf; lia|]. done. }
  destruct fuel as [|fuel]; simpl in Hf; [lia|]. simpl. destruct Hseg as [Ha Hseg].
  rewrite (hd_addr_0 ((a, d) :: l) Hpos : (a =? 0) = false).
  rewrite Ha. simpl. destruct (Z.ltb_spec (ub_base d) at_).
  - assert (Hpos' : forall b, b ∈ l.*1 -> 0 < b) by set_solver.
    destruct (IH a fuel Hpos' Hseg ltac:(lia)) as (l1 & l2 & -> & Hall & Hhd & E).
    exists ((a, d) :: l1), l2. split; [done|]. split; [by constructor|]. done.
  - exists [], ((a, d) :: l). split; [done|]. split; [done|]. split; [|done].
    by intros x [= <-].
Qed.

(** ** Linking a descriptor in, and taking one out *)

Lemma split_disjoint (l1 l2 : list (Z * ublk)) a :
  NoDup (l1 ++ l2).*1 -> a ∈ l1.*1 -> a ∉ l2.*1.
Proof. rewrite fmap_app, NoDup_app. naive_solver. Qed.

Lemma hd_addr_in nx l : l <> [] -> hd_addr nx l ∈ l.*1.
Proof. destruct l as [|[a d] l]; [done|]. set_solver. Qed.

(** Relinking the last node of [l1] and the first of [l2], when there are. *)
Definition relink_next (b : Z) (pv : Z) (m : gmap Z user_blk) : gmap Z user_blk :=
  if pv =? 0 then m else alter (with_next b) pv m.
Definition relink_prev (b : Z) (cur : Z) (m : gmap Z user_blk) : gmap Z user_blk :=
  if cur =? 0 then m else alter (with_prev b) cur m.

Lemma relink_next_seg m l1 b nx :
  (forall a, a ∈ l1.*1 -> 0 < a) -> NoDup l1.*1 -> seg m 0 l1 nx ->
  seg (relink_next b (last_addr 0 l1) m) 0 l1 b.
Proof.
  intros Hpos Hnd Hs. unfold relink_next. rewrite last_addr_0 by done.
  destruct l1 as [|x l1]; [done|]. by eapply seg_relink_next.
Qed.

Lemma relink_prev_seg m l2 b pv :
  (forall a, a ∈ l2.*1 -> 0 < a) -> NoDup l2.*1 -> seg m pv l2 0 ->
  seg (relink_prev b (hd_addr 0 l2) m) b l2 0.
Proof.
  intros Hpos Hnd Hs. unfold relink_prev. rewrite hd_addr_0 by done.
  destruct l2 as [|x l2]; [done|]. by eapply seg_relink_prev.
Qed.

Lemma relink_next_ne m l1 b a :
  a ∉ l1.*1 -> relink_next b (last_addr 0 l1) m !! a = m !! a.
Proof.
  intros Ha. unfold relink_next. destruct l1 as [|x l1]; [done|].
  case_match; [done|]. rewrite lookup_alter_ne; [done|]. intros Heq. apply Ha. rewrite <-Heq.
  by apply last_addr_in.
Qed.

Lemma relink_prev_ne m l2 b a :
  a ∉ l2.*1 -> relink_prev b (hd_addr 0 l2) m !! a = m !! a.
Proof.
  intros Ha. unfold relink_prev. destruct l2 as [|x l2]; [done|].
  case_match; [done|]. rewrite lookup_alter_ne; [done|]. intros Heq. apply Ha. rewrite <-Heq.
  by apply hd_addr_in.
Qed.

Lemma link_in m l1 l2 b d :
  (forall a, a ∈ (l1 ++ l2).*1 -> 0 < a) -> NoDup (l1 ++ l2).*1 -> b ∉ (l1 ++ l2).*1 ->
  seg m 0 (l1 ++ l2) 0 ->
  seg (relink_prev b (hd_addr 0 l2) (relink_next b (last_addr 0 l1)
         (<[b := node d (last_addr 0 l1) (hd_addr 0 l2)]> m))) 0 (l1 ++ (b, d) :: l2) 0.
Proof.
  intros Hpos Hnd Hb Hs. pose proof (fun a => split_disjoint l1 l2 a Hnd) as Hdis.
  rewrite fmap_app in *. apply NoDup_app in Hnd as (Hnd1 & _ & Hnd2).
  rewrite not_elem_of_app in Hb. destruct Hb as [Hb1 Hb2].
  apply seg_app in Hs as [Hs1 Hs2]. apply seg_app. simpl. split; [|split].
  - eapply (seg_frame (relink_next b (last_addr 0 l1) _)).
    { intros a Ha. apply relink_prev_ne. by apply Hdis. }
    eapply relink_next_seg; [set_solver|done|]. eapply seg_frame; [|exact Hs1].
    intros a Ha. rewrite lookup_insert_ne; [done|]. by intros <-.
  - by rewrite relink_prev_ne, relink_next_ne, lookup_insert_eq by done.
  - eapply relink_prev_seg; [set_solver|done|]. eapply seg_frame; [|exact Hs2].
    intros a Ha. rewrite relink_next_ne by (intros Ha1; by apply (Hdis a)).
    rewrite lookup_insert_ne; [done|]. by intros <-.
Qed.

(** The kernel heap has a block for one more descriptor. *)
Definition room (h : H) : bool :=
  match kmalloc sizeof_user_blk h with (Some _, _) => true | (None, _) => false end.

(** What a run of [user_blk_new] leaves: [r] is 0 or the new descriptor. *)
Definition inserted l l' at_ n fr (r : Z) : Prop :=
  (r = 0 /\ l' = l) \/
  (0 < r /\ r ∉ l.*1 /\ exists l1 l2, l = l1 ++ l2 /\ l' = l1 ++ (r, Ublk at_ n fr 0) :: l2 /\
     Forall (below at_) l1 /\ (forall x, head l2 = Some x -> at_ <= ub_base x.2)).

Lemma user_blk_new_spec s l at_ n fr :
  rep s l ->
  exists r s' l', user_blk_new at_ n fr s = Some (r, s') /\ rep s' l' /\
    inserted l l' at_ n fr r /\ (r =? 0) = negb (room (kh s)) /\
    mem s' = mem s /\ user_heap_cur s' = user_heap_cur s.
Proof.
  intros Hrep. pose proof (rep_steps s l Hrep) as Hlen. destruct Hrep as [Hh Hs Hnd Hl Hok].
  unfold user_blk_new, room. destruct (kmalloc sizeof_user_blk (kh s)) as [[b|] h] eqn:Ek.
  - destruct (kmalloc_ok _ sizeof_user_blk _ _ Hok ltac:(done) Ek) as (Hok' & Hb & _ & Hfresh & sz & _ & Hlive & _).
    assert (Hpos : forall a, a ∈ l.*1 -> 0 < a) by (intros a Ha; by apply Hl).
    assert (Hnb : b ∉ l.*1).
    { intros Hin. destruct (Hl b Hin) as [_ [? Hx]]. congruence. }
    rewrite Hh. destruct (place_loop_spec (blks s) at_ _ 0 l Hpos Hs Hlen)
      as (l1 & l2 & -> & Hbel & Hhd & ->). simpl.
    eexists b, _, (l1 ++ (b, Ublk at_ n fr 0) :: l2). split; [done|].
    split; [|split; [|split; [apply Z.eqb_neq; lia|done]]].
    + assert (Hp : forall a, a ∈ l1.*1 -> 0 < a) by (intros; apply Hpos; set_solver).
      split; cbn [blks user_blocks kh].
      * rewrite last_addr_0, !hd_addr_app by done. by destruct l1.
      * exact (link_in (blks s) l1 l2 b (Ublk at_ n fr 0) Hpos Hnd Hnb Hs).
      * rewrite fmap_app, fmap_cons. rewrite fmap_app in Hnd, Hnb.
        rewrite <-Permutation_middle. by constructor.
      * intros a Ha. rewrite Hlive. destruct (decide (a = b)) as [->|Hne].
        { rewrite lookup_insert_eq. split; [lia|eauto]. }
        rewrite lookup_insert_ne by done. apply Hl. set_solver.
      * done.
    + right. split; [lia|]. split; [done|]. by exists l1, l2.
  - destruct (kmalloc_fail _ sizeof_user_blk _ Hok ltac:(done) Ek) as [Hok' Hlive].
    eexists 0, _, l. split; [done|]. split; [|split; [by left|done]].
    split; cbn [blks user_blocks kh with_kh]; try done. by rewrite Hlive.
Qed.

Lemma take_out m l1 p dp b db l2 dp' :
  let l := l1 ++ (p, dp) :: (b, db) :: l2 in
  (forall a, a ∈ l.*1 -> 0 < a) -> NoDup l.*1 -> seg m 0 l 0 ->
  seg (delete b (relink_prev p (hd_addr 0 l2) (<[p := node dp' (last_addr 0 l1) (hd_addr 0 l2)]> m)))
    0 (l1 ++ (p, dp') :: l2) 0.
Proof.
  intros l Hpos Hnd Hs. unfold l in *. rewrite fmap_app, !fmap_cons in *. simpl in Hpos, Hnd.
  apply NoDup_app in Hnd as (Hnd1 & Hdis & Hnd2).
  apply NoDup_cons in Hnd2 as [Hp Hnd2]. apply NoDup_cons in Hnd2 as [Hb Hnd2].
  assert (Hdis2 : forall a, a ∈ l1.*1 -> a <> p /\ a <> b /\ a ∉ l2.*1) by set_solver.
  apply seg_app in Hs as [Hs1 [_ [_ Hs2]]]. simpl in Hs1.
  apply seg_app. simpl. split; [|split].
  - eapply seg_frame; [|exact Hs1]. intros a Ha. destruct (Hdis2 a Ha) as (? & ? & ?).
    rewrite lookup_delete_ne by done. rewrite relink_prev_ne by done. by rewrite lookup_insert_ne.
  - assert (p <> b /\ p ∉ l2.*1) as [? ?] by set_solver.
    rewrite lookup_delete_ne by done. rewrite relink_prev_ne by done. by rewrite lookup_insert_eq.
  - eapply (seg_frame (relink_prev p (hd_addr 0 l2) _)).
    { intros a Ha. rewrite lookup_delete_ne; [done|]. by intros ->. }
    apply (relink_prev_seg _ _ _ b); [set_solver|done|]. eapply seg_frame; [|exact Hs2].
    intros a Ha. rewrite lookup_insert_ne; [done|]. intros <-. set_solver.
Qed.

Definition grown (x y : ublk) : ublk :=
  Ublk (ub_base x) (u64 (ub_npages x + ub_npages y)) (ub_free x) (ub_owner x).

Lemma absorb_spec s l1 p dp b db l2 :
  rep s (l1 ++ (p, dp) :: (b, db) :: l2) ->
  let s' := absorb p (node dp (last_addr 0 l1) b) b (node db p (hd_addr 0 l2)) s in
  rep s' (l1 ++ (p, grown dp db) :: l2) /\ mem s' = mem s /\ user_heap_cur s' = user_heap_cur s.
Proof.
  intros [Hh Hs Hnd Hl Hok] s'. split; [|done].
  assert (Hpos : forall a, a ∈ (l1 ++ (p, dp) :: (b, db) :: l2).*1 -> 0 < a).
  { intros a Ha. by apply Hl. }
  assert (Hlb : is_Some (live (kh s) !! b)) by (apply Hl; set_solver).
  destruct (kfree_ok (kh s) b Hok Hlb) as [Hok' Hlive].
  assert (Hnb : b ∉ (l1 ++ (p, grown dp db) :: l2).*1 /\ NoDup (l1 ++ (p, grown dp db) :: l2).*1).
  { rewrite fmap_app, !fmap_cons in Hnd |- *. simpl in *.
    assert (Hperm : l1.*1 ++ p :: b :: l2.*1 ≡ₚ b :: l1.*1 ++ p :: l2.*1) by solve_Permutation.
    rewrite Hperm in Hnd.
    by apply NoDup_cons in Hnd. }
  split; cbn [s' absorb blks user_blocks kh with_kh with_blks].
  - rewrite Hh, !hd_addr_app. by destruct l1.
  - exact (take_out (blks s) l1 p dp b db l2 (grown dp db) Hpos Hnd Hs).
  - apply Hnb.
  - intros a Ha. destruct Hnb as [Hnb _]. rewrite Hlive, lookup_delete_ne by (by intros ->).
    apply Hl. rewrite fmap_app, !fmap_cons in *. set_solver.
  - done.
Qed.

(** Reading and changing one descriptor. *)
Lemma rep_lookup s l1 a d l2 :
  rep s (l1 ++ (a, d) :: l2) -> blks s !! a = Some (node d (last_addr 0 l1) (hd_addr 0 l2)).
Proof. intros [_ Hs _ _ _]. apply seg_app in Hs as [_ [Hs _]]. done. Qed.

Definition blk_update (f : user_blk -> user_blk) (g : ublk -> ublk) : Prop :=
  forall d pv nx, f (node d pv nx) = node (g d) pv nx.

Lemma set_blk_spec s l1 a d l2 f g :
  blk_update f g -> rep s (l1 ++ (a, d) :: l2) -> rep (set_blk a f s) (l1 ++ (a, g d) :: l2).
Proof.
  intros Hf [Hh Hs Hnd Hl Hok]. rewrite fmap_app, fmap_cons in Hnd, Hl.
  assert (Hna : a ∉ l1.*1 /\ a ∉ l2.*1).
  { simpl in Hnd. rewrite <-Permutation_middle in Hnd. apply NoDup_cons in Hnd as [Hn _]. set_solver. }
  split; cbn [set_blk with_blks blks user_blocks kh]; try (rewrite fmap_app, fmap_cons); [|..|done]; try done.
  - rewrite Hh, !hd_addr_app. by destruct l1.
  - apply seg_app in Hs as [Hs1 [Ha Hs2]]. apply seg_app. simpl. split; [|split].
    + eapply seg_frame; [|exact Hs1]. intros b Hb. rewrite lookup_alter_ne; [done|]. intros ->. tauto.
    + by rewrite lookup_alter_eq, Ha; simpl; rewrite Hf.
    + eapply seg_frame; [|exact Hs2]. intros b Hb. rewrite lookup_alter_ne; [done|]. intros ->. tauto.
Qed.

Lemma rep_same_list s s' l :
  blks s' = blks s -> user_blocks s' = user_blocks s -> kh s' = kh s -> rep s l -> rep s' l.
Proof. intros E1 E2 E3 [? ? ? ? ?]. split; rewrite ?E1, ?E2, ?E3; done. Qed.
End Rep.

(** * The invariant of the user heap's blocks (ascending, page aligned, disjoint,
    below the high-water mark) and what coalescing, splitting and growing do to
    a list that has it. *)

(** One block after the other from [lo] to at most [hi]. *)
Fixpoint ordered (lo : Z) (l : list ublk) (hi : Z) : Prop :=
  match l with
  | [] => lo <= hi
  | d :: l => lo <= ub_base d /\ ub_base d mod 4096 = 0 /\ 0 < ub_npages d /\
      ordered (ub_base d + ub_npages d * 4096) l hi
  end.

Definition ub_end (d : ublk) : Z := ub_base d + ub_npages d * 4096.

Lemma ordered_weaken lo lo' l hi hi' :
  lo' <= lo -> hi <= hi' -> ordered lo l hi -> ordered lo' l hi'.
Proof.
  revert lo lo'. induction l as [|d l IH]; intros lo lo' Hlo Hhi; simpl; [lia|].
  intros (? & ? & ? & Hl). split_and!; [lia|done..|]. by eapply IH; [| |exact Hl].
Qed.

Lemma ordered_bounds lo l hi : ordered lo l hi -> lo <= hi.
Proof.
  revert lo. induction l as [|d l IH]; intros lo; simpl; [done|].
  intros (? & ? & ? & Hl%IH). lia.
Qed.

Lemma ordered_app lo l1 l2 hi :
  ordered lo (l1 ++ l2) hi <-> exists mid, ordered lo l1 mid /\ ordered mid l2 hi.
Proof.
  revert lo. induction l1 as [|d l1 IH]; intros lo; simpl.
  - split; [|intros (mid & ? & ?); by eapply ordered_weaken].
    intros Ho. exists lo. by split.
  - split.
    + intros (? & ? & ? & (mid & ? & ?)%IH). exists mid. by split_and!.
    + intros (mid & (? & ? & ? & ?) & ?). split_and!; [done..|]. apply IH. eauto.
Qed.

Lemma ordered_in lo l hi d :
  ordered lo l hi -> d ∈ l ->
  lo <= ub_base d /\ ub_end d <= hi /\ ub_base d mod 4096 = 0 /\ 0 < ub_npages d.
Proof.
  intros Ho (l1 & l2 & ->)%list_elem_of_split. apply ordered_app in Ho as (mid & H1 & H2).
  apply ordered_bounds in H1. simpl in H2. destruct H2 as (? & ? & ? & H2%ordered_bounds).
  unfold ub_end. split_and!; lia.
Qed.

(** Splitting an ordered list at a block. *)
Lemma ordered_middle lo l1 d l2 hi :
  ordered lo (l1 ++ d :: l2) hi <->
  ordered lo l1 (ub_base d) /\ ub_base d mod 4096 = 0 /\ 0 < ub_npages d /\
  ordered (ub_end d) l2 hi.
Proof.
  rewrite ordered_app. simpl. split.
  - intros (mid & H1 & ? & ? & ? & ?). split_and!; try done. by eapply ordered_weaken; [| |exact H1].
  - intros (? & ? & ? & ?). by exists (ub_base d).
Qed.

(** Bases determine blocks. *)
Lemma ordered_base_inj lo l1 d l2 hi e :
  ordered lo (l1 ++ d :: l2) hi -> e ∈ l1 ++ d :: l2 -> ub_base e = ub_base d -> e = d.
Proof.
  intros (H1 & _ & Hn & H2)%ordered_middle He Hb.
  apply elem_of_app in He as [He|[->|He]%elem_of_cons]; [|done|].
  - destruct (ordered_in _ _ _ _ H1 He) as (_ & ? & _ & ?). unfold ub_end in *. lia.
  - destruct (ordered_in _ _ _ _ H2 He) as (? & _). unfold ub_end in *. lia.
Qed.

(** Two blocks of an ordered list do not overlap. *)
Lemma ordered_disjoint lo l hi i j d e :
  ordered lo l hi -> l !! i = Some d -> l !! j = Some e -> (i < j)%nat -> ub_end d <= ub_base e.
Proof.
  intros Ho Hi Hj Hij. rewrite <-(take_drop_middle _ _ _ Hi) in Ho.
  apply ordered_middle in Ho as (_ & _ & _ & Ho).
  assert (He : e ∈ drop (S i) l).
  { apply list_elem_of_lookup. exists (j - S i)%nat. rewrite lookup_drop.
    by replace (S i + (j - S i))%nat with j by lia. }
  by destruct (ordered_in _ _ _ _ Ho He).
Qed.

(** ** Where a new block goes *)

Lemma split_unique {A} (P : A -> Prop) (l1 l2 k1 k2 : list A) :
  l1 ++ l2 = k1 ++ k2 -> Forall P l1 -> Forall P k1 ->
  (forall x, head l2 = Some x -> ~ P x) -> (forall x, head k2 = Some x -> ~ P x) ->
  l1 = k1 /\ l2 = k2.
Proof.
  revert k1. induction l1 as [|x l1 IH]; intros [|y k1] E Hl Hk H1 H2; simpl in *.
  - by split.
  - subst l2. apply Forall_cons in Hk as [Hy _]. by destruct (H1 y).
  - subst k2. apply Forall_cons in Hl as [Hx _]. by destruct (H2 x).
  - injection E as -> E. apply Forall_cons in Hl as [_ Hl]. apply Forall_cons in Hk as [_ Hk].
    destruct (IH k1 E Hl Hk H1 H2) as [-> ->]. done.
Qed.

Lemma ordered_below lo (l : list (Z * ublk)) hi at_ :
  ordered lo l.*2 hi -> hi <= at_ -> Forall (below at_) l.
Proof.
  intros Ho Hat. apply Forall_forall. intros x Hx. unfold below.
  destruct (ordered_in _ _ _ x.2 Ho ltac:(apply list_elem_of_fmap; eauto)) as (_ & ? & _ & ?).
  unfold ub_end in *. lia.
Qed.

(** A place between an ordered list that ends at [at_] and one that starts above. *)
Lemma inserted_at lo k1 k2 hi l l' at_ n fr r :
  inserted l l' at_ n fr r -> l = k1 ++ k2 -> Forall (below at_) k1 ->
  at_ <= lo -> ordered lo k2.*2 hi ->
  (r = 0 /\ l' = l) \/ (0 < r /\ r ∉ l.*1 /\ l' = k1 ++ (r, Ublk at_ n fr 0) :: k2).
Proof.
  intros [[-> ->]|(Hr & Hn & l1 & l2 & -> & -> & Hb & Hhd)] E Hk Hat Ho; [by left|right].
  split; [done|]. split; [done|].
  destruct (split_unique (below at_) _ _ _ _ E Hb Hk) as [-> ->]; [| |done].
  - intros x Hx. unfold below. specialize (Hhd x Hx). lia.
  - intros x Hx. destruct k2 as [|y k2]; [done|]. simpl in *. injection Hx as <-. unfold below. lia.
Qed.

(** ** Coalescing *)

Definition adjacent (x y : ublk) : bool := ub_end x =? ub_base y.

Definition merge_left (before : list ublk) (d : ublk) : list ublk * ublk :=
  match last before with
  | Some p => if ub_free p && adjacent p d then (removelast before, grown p d) else (before, d)
  | None => (before, d)
  end.

Definition merge_right (d : ublk) (after : list ublk) : ublk * list ublk :=
  match after with
  | n :: r => if ub_free n && adjacent d n then (grown d n, r) else (d, after)
  | [] => (d, [])
  end.

Definition coalesce (before : list ublk) (d : ublk) (after : list ublk) : list ublk :=
  let '(before, d) := merge_left before d in
  let '(d, after) := merge_right d after in
  before ++ d :: after.

(** Two neighbours become one. *)
Lemma ordered_grown lo l1 x y l2 hi :
  0 <= lo -> hi <= 2 ^ 64 -> ordered lo (l1 ++ x :: y :: l2) hi -> adjacent x y = true ->
  ordered lo (l1 ++ grown x y :: l2) hi /\
  ub_npages (grown x y) = ub_npages x + ub_npages y /\ ub_base (grown x y) = ub_base x /\
  ub_end (grown x y) = ub_end y /\ ub_free (grown x y) = ub_free x.
Proof.
  intros Hlo Hhi Ho Ha%Z.eqb_eq. pose proof Ho as Ho'.
  apply ordered_middle in Ho as (H1 & Hx & Hxn & _ & Hy & Hyn & H2).
  apply ordered_bounds in H1 as Hb1. apply ordered_bounds in H2 as Hb2. unfold ub_end in *.
  assert (En : ub_npages (grown x y) = ub_npages x + ub_npages y).
  { cbn [grown ub_npages]. apply wrap_small. lia. }
  split_and!; try done; [|rewrite En; cbn [grown ub_base]; lia].
  apply ordered_middle. rewrite En. unfold ub_end. rewrite En. split_and!; try done; [lia|].
  eapply ordered_weaken; [| |exact H2]; simpl; lia.
Qed.

(** In the address range of the heap the 64-bit test is the exact one. *)
Lemma contiguous_adjacent x y px nx py ny :
  0 <= ub_end x < 2 ^ 64 -> contiguous (node x px nx) (node y py ny) = adjacent x y.
Proof. intros Hx. unfold contiguous, adjacent, ub_end in *. cbn [node UserHeap.base npages]. by rewrite wrap_small. Qed.

(** A block of a list written with [++] and [::] is in it. *)
Ltac in_mid := rewrite ?fmap_app; simpl; set_solver.

Section Coalesce.
Context {H : Type} `{!KernelHeap H, !KernelHeapSpec H}.
Implicit Types (s : uheap H) (l : list (Z * ublk)).

Definition same_rest s s' : Prop := mem s' = mem s /\ user_heap_cur s' = user_heap_cur s.

Lemma merge_prev_spec s l1 b d l2 lo hi :
  rep s (l1 ++ (b, d) :: l2) -> 0 <= lo -> hi < 2 ^ 64 ->
  ordered lo (l1 ++ (b, d) :: l2).*2 hi ->
  exists b' s' l1' d', merge_prev b s = Some (b', s') /\ rep s' (l1' ++ (b', d') :: l2) /\
    merge_left l1.*2 d = (l1'.*2, d') /\ same_rest s s' /\
    ordered lo (l1' ++ (b', d') :: l2).*2 hi.
Proof.
  intros Hrep Hlo Hhi Ho. pose proof (rep_lookup _ _ _ _ _ Hrep) as Hb.
  assert (Hpos : forall a, a ∈ (l1 ++ (b, d) :: l2).*1 -> 0 < a).
  { intros a Ha. by apply (rep_live _ _ Hrep). }
  unfold merge_prev. rewrite Hb. simpl. rewrite last_addr_0 by set_solver.
  destruct l1 as [|[p dp] l1 _] using rev_ind.
  { exists b, s, [], d. done. }
  rewrite last_addr_app. simpl.
  replace (match l1 ++ [(p, dp)] with [] => true | _ :: _ => false end) with false by by destruct l1.
  rewrite <-app_assoc in Hrep, Ho. simpl in Hrep, Ho.
  pose proof (rep_lookup _ _ _ _ _ Hrep) as Hp. rewrite Hp. cbn [mbind option_bind].
  assert (Hend : 0 <= ub_end dp < 2 ^ 64).
  { destruct (ordered_in _ _ _ dp Ho) as (? & ? & _ & ?); [in_mid|]. unfold ub_end in *. lia. }
  rewrite contiguous_adjacent by done. unfold merge_left. rewrite fmap_app. simpl. rewrite last_snoc, removelast_last.
  destruct (ub_free dp && adjacent dp d) eqn:E.
  - apply andb_prop in E as [Ef Ea].
    destruct (absorb_spec s l1 p dp b d l2 Hrep) as (Hr & Hm & Hc).
    eexists p, _, l1, (grown dp d). split; [done|]. split; [exact Hr|]. split; [done|]. split; [done|].
    rewrite fmap_app, !fmap_cons in *. exact (proj1 (ordered_grown _ _ _ _ _ _ Hlo (Z.lt_le_incl _ _ Hhi) Ho Ea)).
  - eexists b, s, (l1 ++ [(p, dp)]), d. rewrite <-app_assoc, fmap_app. by split_and!.
Qed.

Lemma merge_next_spec s l1 b d l2 lo hi :
  rep s (l1 ++ (b, d) :: l2) -> 0 <= lo -> hi < 2 ^ 64 ->
  ordered lo (l1 ++ (b, d) :: l2).*2 hi ->
  exists s' l2' d', merge_next b s = Some s' /\ rep s' (l1 ++ (b, d') :: l2') /\
    merge_right d l2.*2 = (d', l2'.*2) /\ same_rest s s' /\
    ordered lo (l1 ++ (b, d') :: l2').*2 hi.
Proof.
  intros Hrep Hlo Hhi Ho. pose proof (rep_lookup _ _ _ _ _ Hrep) as Hb.
  assert (Hpos : forall a, a ∈ (l1 ++ (b, d) :: l2).*1 -> 0 < a).
  { intros a Ha. by apply (rep_live _ _ Hrep). }
  unfold merge_next. rewrite Hb. simpl. rewrite hd_addr_0 by set_solver.
  destruct l2 as [|[n dn] l2].
  { exists s, [], d. done. }
  simpl. replace (l1 ++ (b, d) :: (n, dn) :: l2) with ((l1 ++ [(b, d)]) ++ (n, dn) :: l2) in Hrep
    by by rewrite <-app_assoc.
  pose proof (rep_lookup _ _ _ _ _ Hrep) as Hn. rewrite Hn. simpl.
  rewrite <-app_assoc in Hrep. simpl in Hrep.
  assert (Hend : 0 <= ub_end d < 2 ^ 64).
  { destruct (ordered_in _ _ _ d Ho) as (? & ? & _ & ?); [in_mid|]. unfold ub_end in *. lia. }
  rewrite contiguous_adjacent by done. destruct (ub_free dn && adjacent d dn) eqn:E.
  - apply andb_prop in E as [Ef Ea]. rewrite last_addr_app. simpl.
    destruct (absorb_spec s l1 b d n dn l2 Hrep) as (Hr & Hm & Hc).
    eexists _, l2, (grown d dn). split; [done|]. split; [exact Hr|]. split; [done|]. split; [done|].
    rewrite fmap_app, !fmap_cons in *. exact (proj1 (ordered_grown _ _ _ _ _ _ Hlo (Z.lt_le_incl _ _ Hhi) Ho Ea)).
  - eexists s, ((n, dn) :: l2), d. by split_and!.
Qed.

Lemma coalesce_spec s l1 b d l2 lo hi :
  rep s (l1 ++ (b, d) :: l2) -> 0 <= lo -> hi < 2 ^ 64 ->
  ordered lo (l1 ++ (b, d) :: l2).*2 hi ->
  exists s' l', user_blk_coalesce b s = Some s' /\ rep s' l' /\
    l'.*2 = coalesce l1.*2 d l2.*2 /\ same_rest s s' /\ ordered lo l'.*2 hi.
Proof.
  intros Hrep Hlo Hhi Ho. unfold user_blk_coalesce, coalesce.
  destruct (merge_prev_spec _ _ _ _ _ _ _ Hrep Hlo Hhi Ho)
    as (b1 & s1 & l1' & d1 & -> & Hrep1 & -> & [Em1 Ec1] & Ho1). simpl.
  destruct (merge_next_spec _ _ _ _ _ _ _ Hrep1 Hlo Hhi Ho1)
    as (s2 & l2' & d2 & -> & Hrep2 & -> & [Em2 Ec2] & Ho2).
  exists s2, (l1' ++ (b1, d2) :: l2'). split_and!; try done.
  - by rewrite fmap_app.
  - split; congruence.
Qed.
End Coalesce.
