(* ===== verification/UserHeapMap.v ===== *)
(** What [user_map_pages] and the loop of [k_sys_free_user] do to the pages of a
    block: fresh distinct zeroed frames in, the same frames out. *)
From Stdlib Require Import ZArith Lia.
From stdpp Require Import base numbers list gmap.
From S2P Require Import Prelude HeapIface Vmm VmmSpec VmmProps VmmFrame UserSpace UserMem UserHeap.

Lemma user_flags : Z.land (Z.lor (Z.lor VMM_PRESENT VMM_WRITE) VMM_USER) ADDR_MASK = 0.
Proof. reflexivity. Qed.

(** One iteration of the loop of [user_map_pages] that has a page to map. *)
Definition map_one (va phys : Z) (s : vm) : option vm :=
  memset_page va (snd (vmm_map_range va phys 4096 (Z.lor (Z.lor VMM_PRESENT VMM_WRITE) VMM_USER) s)).

(** The page [va] gets the frame [phys], cleared; when there is no room for
    tables the store faults. *)
Lemma map_one_spec R va phys s s' :
  wf (reserve (phys :: R) s) -> va mod 4096 = 0 -> 0 <= va -> va + 4096 <= 2 ^ 48 ->
  tame va (va + 4096) s -> map_one va phys s = Some s' ->
  holds_still R s s' /\ wf (reserve (phys :: R) s') /\
  pages s' !! phys = Some zero_page /\ frames_at va [phys] s' /\
  forall v, 0 <= v < 2 ^ 48 -> ~ (va <= v < va + 4096) -> vmm_get_phys v s' = vmm_get_phys v s.
Proof.
  intros Hwf Hal H0 H1 Htame. unfold map_one.
  destruct (reserved_pages _ s Hwf) as (Hnd & Hok & _ & _).
  apply NoDup_cons in Hnd as [HpR _]. apply Forall_cons in Hok as [Hphys _].
  rewrite vmm_map_range_page by (destruct Hphys; lia).
  destruct (vmm_map va phys _ s) as [[] s1] eqn:Em.
  - destruct (vmm_map_page _ _ _ _ _ _ Hwf user_flags Hal ltac:(lia) Hphys Em) as (Hst & H4k & Hx).
    simpl. unfold memset_page. rewrite Hx, decide_True by lia. rewrite Z.sub_diag, Z.add_0_r.
    rewrite (proj2 (Z.eqb_neq phys 0)) by (destruct Hphys; lia). intros [= <-].
    destruct (fill_reserved R phys zero_page s1 (hs_wf _ _ _ Hst)) as (Hwf' & Htab & Hph).
    destruct Hst as [Hwf1 Hc Ht Hk Hpg]. split_and!.
    + split; [|done|done| |].
      * by eapply wf_reserve_tail.
      * intros q t Hq. rewrite Htab. by apply Hk.
      * intros p Hp. cbn [fill_page with_pages pages]. rewrite lookup_insert_ne by (by intros <-).
        apply Hpg. set_solver.
    + done.
    + cbn [fill_page with_pages pages]. by rewrite lookup_insert_eq.
    + intros [|i] f o; [|done]. intros [= <-] Ho. rewrite Z.mul_0_l, Z.add_0_r.
      rewrite Hph, Hx by lia. rewrite decide_True by lia. split; [lia|].
      apply (same_page_mapped va); [symmetry; apply aligned_mid; lia|]. destruct H4k as [t Ht4].
      exists t. by rewrite Htab.
    + intros v Hv Hne. rewrite Hph, Hx by done. by rewrite decide_False.
  - simpl. unfold memset_page. destruct (vmm_map_page_fail _ _ _ _ _ _ Hwf Em) as [_ Hx].
    rewrite Hx. destruct (Htame va ltac:(lia)) as [->|[t Ht]]; [done|].
    unfold vmm_map in Em. by rewrite (map_walk_mapped va _ s t Ht) in Em.
Qed.

(** ** The loop of [user_map_pages] *)

Record mapped_run (R : list Z) (lo n : Z) (ok : bool) (F : list Z) (s s' : vm) : Prop := {
  mr_still : holds_still R s s';
  mr_wf : wf (reserve (F ++ R) s');
  mr_free : Forall (fun f => f ∈ free_pages_stack s) F;
  mr_zero : Forall (fun f => pages s' !! f = Some zero_page) F;
  mr_frames : frames_at lo F s';
  mr_other v : 0 <= v < 2 ^ 48 -> ~ (lo <= v < lo + npages_of F * 4096) ->
    vmm_get_phys v s' = vmm_get_phys v s;
  mr_done : if ok then npages_of F = n else npages_of F < n /\ free_pages_stack s' = [];
}.

Lemma map_pages_loop_step fuel p base n s :
  map_pages_loop (S fuel) p base n s =
    if p <? n then
      let '(phys, s) := pmm_alloc s in
      if phys =? 0 then Some (false, s)
      else s ← map_one (u64 (base + p * 4096)) phys s; map_pages_loop fuel (p + 1) base n s
    else Some (true, s).
Proof. done. Qed.

Lemma map_pages_loop_spec fuel p base n R s ok s' :
  wf (reserve R s) -> 0 <= p <= n -> base mod 4096 = 0 -> 0 <= base -> base + n * 4096 <= 2 ^ 48 ->
  tame (base + p * 4096) (base + n * 4096) s ->
  map_pages_loop fuel p base n s = Some (ok, s') ->
  exists F, mapped_run R (base + p * 4096) (n - p) ok F s s'.
Proof.
  intros Hwf Hp Hal H0 H1. revert p R s Hwf Hp.
  induction fuel as [|fuel IH]; intros p R s Hwf Hp Htame; [done|].
  rewrite map_pages_loop_step. destruct (Z.ltb_spec p n) as [Hpn|Hpn].
  2:{ intros [= <- <-]. exists [].
      split; try done; [by apply holds_still_refl|unfold npages_of; simpl; lia]. }
  destruct (pmm_alloc s) as [f s1] eqn:Ea. destruct (Z.eqb_spec f 0) as [->|Hf].
  { intros [= <- <-]. exists []. destruct (pmm_alloc_wf s 0 s1 (wf_unreserve _ _ Hwf) Ea)
      as [(_ & -> & Hnil)|([] & _)]; [|lia].
    split; try done; [by apply holds_still_refl|unfold npages_of; simpl; split; [lia|done]]. }
  destruct (alloc_holds_still R s f s1 Hwf Ea Hf) as (Hst1 & Hwf1 & Hfin & Hx1).
  rewrite (wrap_small 64) by lia. set (va := base + p * 4096) in *.
  assert (Hva : va mod 4096 = 0) by (unfold va; zify_div).
  assert (Htame1 : tame va (base + n * 4096) s1) by (eapply tame_step; [exact Hst1| |exact Htame]; auto).
  destruct (map_one va f s1) as [s2|] eqn:Em; [|done]. simpl.
  destruct (map_one_spec R va f s1 s2 Hwf1 Hva ltac:(lia) ltac:(lia)
    ltac:(eapply tame_sub; [exact Htame1|lia|lia]) Em) as (Hst2 & Hwf2 & Hz & Hfr & Hx2).
  assert (Htame2 : tame (base + (p + 1) * 4096) (base + n * 4096) s2).
  { eapply tame_step; [exact Hst2|intros v Hv; apply Hx2; lia|]. eapply tame_sub; [exact Htame1|lia|lia]. }
  intros Hrun. destruct (IH (p + 1) (f :: R) s2 Hwf2 ltac:(lia) Htame2 Hrun) as [F HF].
  replace (base + (p + 1) * 4096) with (va + 4096) in HF by lia.
  destruct HF as [Hst3 Hwf3 Hfree3 Hz3 Hfr3 Hx3 Hd3]. exists (f :: F).
  assert (Hlen : npages_of (f :: F) = 1 + npages_of F) by (unfold npages_of; simpl; lia).
  assert (Hbound : va + 4096 + npages_of F * 4096 <= base + n * 4096) by (destruct ok; lia).
  split.
  - eapply holds_still_trans; [exact Hst1|]. eapply holds_still_trans; [exact Hst2|].
    by eapply holds_still_shrink.
  - eapply wf_reserve_perm; [|exact Hwf3]. by rewrite <-Permutation_middle.
  - constructor; [done|]. eapply Forall_impl; [exact Hfree3|]. intros q Hq.
    destruct (hs_takes _ _ _ Hst2) as [k2 Hk2], (hs_takes _ _ _ Hst1) as [k1 Hk1].
    by eapply takes_sub, takes_sub.
  - constructor; [|done]. rewrite (hs_pages _ _ _ Hst3) by set_solver. done.
  - apply frames_at_cons. split; [|done]. intros o Ho.
    assert (Hkeep : frames_at va [f] s').
    { eapply frames_at_keep; [exact Hst3| |exact Hfr]. intros v Hv. unfold npages_of in Hv. simpl in Hv.
      apply Hx3; lia. }
    specialize (Hkeep 0%nat f o eq_refl Ho). by rewrite Z.mul_0_l, Z.add_0_r in Hkeep.
  - intros v Hv Hne. rewrite Hlen in Hne. unfold npages_of in *. rewrite Hx3, Hx2 by lia. apply Hx1.
  - rewrite Hlen. destruct ok; [lia|]. destruct Hd3. split; [lia|done].
Qed.

(** ** The loop returns, and how *)

Lemma map_one_takes va f s s' : 0 <= va < 2 ^ 64 -> 0 <= f < 2 ^ 64 -> map_one va f s = Some s' -> takes 5 s s'.
Proof.
  intros Hva Hf. unfold map_one. rewrite vmm_map_range_page by done. unfold vmm_map, memset_page.
  destruct (map_walk va _ s) as [[pt|] s1] eqn:Ew; apply takes_walk in Ew; simpl;
    (case_match; [done|]); intros [= <-]; done.
Qed.

(** The frames of the stack are addresses. *)
Definition stack_ok (s : vm) : Prop := Forall (fun p => 0 <= p < 2 ^ 64) (free_pages_stack s).

Lemma takes_stack_ok k s s' : takes k s s' -> stack_ok s -> stack_ok s'.
Proof. intros (ps & Hf & _). unfold stack_ok. rewrite Hf. by intros [_ ?]%Forall_app. Qed.

Lemma wf_stack_ok s : wf s -> stack_ok s.
Proof.
  intros Hwf. destruct (wf_stack s Hwf) as [_ Hok]. eapply Forall_impl; [exact Hok|].
  intros p [? _]. lia.
Qed.

(** An iteration that has a page: it is taken, and at most five for tables. *)
Lemma iteration_takes s f s1 va s2 :
  stack_ok s -> pmm_alloc s = (f, s1) -> f <> 0 -> 0 <= va < 2 ^ 64 -> map_one va f s1 = Some s2 ->
  (length (free_pages_stack s2) < length (free_pages_stack s))%nat /\
  (length (free_pages_stack s) <= 6 + length (free_pages_stack s2))%nat /\ stack_ok s2.
Proof.
  intros Hok Ha Hf Hva Hm. pose proof (takes_alloc _ _ _ Ha) as Ht1.
  pose proof (takes_stack_ok _ _ _ Ht1 Hok) as Hok1.
  assert (Hf64 : 0 <= f < 2 ^ 64 /\ free_pages_stack s = f :: free_pages_stack s1).
  { unfold stack_ok, pmm_alloc in *. destruct (free_pages_stack s) as [|x r]; [by injection Ha as <-|].
    injection Ha as <- <-. by apply Forall_cons in Hok as [? _]. }
  destruct Hf64 as [Hf64 Hst]. pose proof (map_one_takes va f s1 s2 Hva Hf64 Hm) as Ht2.
  pose proof (takes_length _ _ _ Ht2). rewrite Hst. simpl.
  split; [lia|split; [lia|by eapply takes_stack_ok]].
Qed.

Lemma u64_range z : 0 <= u64 z < 2 ^ 64.
Proof. by apply wrap_bounds. Qed.

(** More iterations than free pages change nothing. *)
Lemma map_pages_fuel fuel fuel' p base n s :
  stack_ok s -> (length (free_pages_stack s) < fuel)%nat -> (length (free_pages_stack s) < fuel')%nat ->
  map_pages_loop fuel p base n s = map_pages_loop fuel' p base n s.
Proof.
  revert fuel' p s. induction fuel as [|fuel IH]; intros [|fuel'] p s Hok Hl Hl'; try lia.
  rewrite !map_pages_loop_step. destruct (p <? n); [|done].
  destruct (pmm_alloc s) as [f s1] eqn:Ea. destruct (Z.eqb_spec f 0) as [|Hf]; [done|].
  destruct (map_one _ f s1) as [s2|] eqn:Em; [|done]. simpl.
  destruct (iteration_takes _ _ _ _ _ Hok Ea Hf (u64_range _) Em) as (? & _ & ?).
  apply IH; [done|lia..].
Qed.

(** Success takes a page for each page. *)
Lemma map_pages_success_takes fuel p base n s s' :
  stack_ok s -> map_pages_loop fuel p base n s = Some (true, s') ->
  n - p <= Z.of_nat (length (free_pages_stack s)).
Proof.
  revert p s. induction fuel as [|fuel IH]; intros p s Hok; [done|].
  rewrite map_pages_loop_step. destruct (Z.ltb_spec p n); [|lia].
  destruct (pmm_alloc s) as [f s1] eqn:Ea. destruct (Z.eqb_spec f 0) as [|Hf]; [done|].
  destruct (map_one _ f s1) as [s2|] eqn:Em; [|done]. simpl.
  destruct (iteration_takes _ _ _ _ _ Hok Ea Hf (u64_range _) Em) as (? & _ & Hok2).
  intros Hr. apply IH in Hr; [lia|done].
Qed.

(** Six free pages for each page asked for are enough. *)
Lemma map_pages_enough fuel p base n R s :
  wf (reserve R s) -> 0 <= p <= n -> base mod 4096 = 0 -> 0 <= base -> base + n * 4096 <= 2 ^ 48 ->
  6 * (n - p) <= Z.of_nat (length (free_pages_stack s)) -> (Z.to_nat (n - p) < fuel)%nat ->
  tame (base + p * 4096) (base + n * 4096) s ->
  exists s', map_pages_loop fuel p base n s = Some (true, s') /\
    Z.of_nat (length (free_pages_stack s)) <= 6 * (n - p) + Z.of_nat (length (free_pages_stack s')).
Proof.
  intros Hwf Hp Hal H0 H1. revert p R s Hwf Hp.
  induction fuel as [|fuel IH]; intros p R s Hwf Hp Hpages Hfuel Htame; [lia|].
  rewrite map_pages_loop_step. destruct (Z.ltb_spec p n) as [Hpn|Hpn]; [|exists s; split; [done|lia]].
  pose proof (wf_stack_ok s (wf_unreserve _ _ Hwf)) as Hok.
  destruct (pmm_alloc s) as [f s1] eqn:Ea.
  destruct (pmm_alloc_wf s f s1 (wf_unreserve _ _ Hwf) Ea) as [(_ & _ & Hnil)|([Hf _] & Hst & _)].
  { rewrite Hnil in Hpages. simpl in Hpages. lia. }
  rewrite (proj2 (Z.eqb_neq f 0)) by lia. rewrite (wrap_small 64) by lia.
  destruct (alloc_holds_still R s f s1 Hwf Ea ltac:(lia)) as (Hst1 & Hwf1 & _ & Hx1).
  set (va := base + p * 4096) in *. assert (Hva : va mod 4096 = 0) by (unfold va; zify_div).
  assert (Htame1 : tame va (base + n * 4096) s1) by (eapply tame_step; [exact Hst1| |exact Htame]; auto).
  destruct (map_one va f s1) as [s2|] eqn:Em.
  - simpl. destruct (map_one_spec R va f s1 s2 Hwf1 Hva ltac:(lia) ltac:(lia)
      ltac:(eapply tame_sub; [exact Htame1|lia|lia]) Em) as (Hst2 & Hwf2 & _ & _ & Hx2).
    destruct (iteration_takes _ _ _ va _ Hok Ea ltac:(lia) ltac:(lia) Em) as (_ & Hlen & _).
    assert (Htame2 : tame (base + (p + 1) * 4096) (base + n * 4096) s2).
    { eapply tame_step; [exact Hst2|intros v Hv; apply Hx2; lia|]. eapply tame_sub; [exact Htame1|lia|lia]. }
    destruct (IH (p + 1) (f :: R) s2 Hwf2) as (s' & E & Hl); [lia..|done|]. exists s'. split; [done|lia].
  - exfalso. unfold map_one in Em. rewrite vmm_map_range_page in Em by lia.
    destruct (vmm_map va f _ s1) as [[] s2] eqn:Ev.
    + destruct (vmm_map_page _ _ _ _ _ _ Hwf1 user_flags Hva ltac:(lia)
        ltac:(by destruct (reserved_pages _ _ Hwf1) as (_ & [? _]%Forall_cons & _)) Ev) as (_ & _ & Hx).
      simpl in Em. unfold memset_page in Em. rewrite Hx, decide_True in Em by lia.
      rewrite Z.sub_diag, Z.add_0_r, (proj2 (Z.eqb_neq f 0)) in Em by lia. done.
    + unfold vmm_map in Ev. destruct (map_walk va _ s1) as [[pt|] s3] eqn:Ew; [done|].
      destruct (map_walk_spec _ _ _ _ _ (wf_unreserve _ _ Hwf1) Ew) as [_ Hl].
      rewrite Hst in Hpages. simpl in Hpages. lia.
Qed.

(** ** Giving the pages of a block back *)

Lemma unmap_pages_loop_spec F p base R s :
  wf (reserve (F ++ R) s) -> base mod 4096 = 0 -> 0 <= base -> 0 <= p ->
  base + (p + npages_of F) * 4096 <= 2 ^ 48 -> frames_at (base + p * 4096) F s ->
  unmapped_run R (base + p * 4096) F s (unmap_pages_loop (length F) p base s).
Proof.
  intros Hwf Hal H0. revert p s Hwf. induction F as [|f F IH]; intros p s Hwf Hp H1 Hfr.
  { split; try done. intros v Hv. rewrite decide_False; [done|]. unfold npages_of. simpl. lia. }
  assert (Hlen : npages_of (f :: F) = 1 + npages_of F) by (unfold npages_of; simpl; lia).
  assert (Hn : 0 <= npages_of F) by (unfold npages_of; lia).
  apply frames_at_cons in Hfr as [Hf0 Hfr]. simpl. rewrite (wrap_small 64) by lia.
  set (va := base + p * 4096) in *. destruct (Hf0 0 ltac:(lia)) as [Hva H4k]. rewrite Z.add_0_r in Hva, H4k.
  simpl in Hwf. destruct (reserved_pages _ s Hwf) as (_ & [[Hfpos _] _]%Forall_cons & _).
  rewrite Hva. rewrite Z.add_0_r. rewrite (proj2 (Z.eqb_neq f 0)) by lia.
  destruct (vmm_unmap_page _ va s Hwf H4k ltac:(unfold va; zify_div) ltac:(unfold va; lia)) as [Hst Hx].
  set (s1 := vmm_unmap va s) in *. pose proof (reserve_free _ _ _ (hs_wf _ _ _ Hst)) as Hwf2.
  assert (Hfr2 : frames_at (va + 4096) F (pmm_free f s1)).
  { change (frames_at (va + 4096) F s1). eapply frames_at_keep; [exact Hst| |exact Hfr].
    intros v Hv. rewrite Hx by lia. rewrite decide_False by lia. done. }
  replace (va + 4096) with (base + (p + 1) * 4096) in Hfr2 by (unfold va; lia).
  destruct (IH (p + 1) (pmm_free f s1) Hwf2 ltac:(lia) ltac:(lia) Hfr2) as [Hw Hc Hfree Hk Hpg Hx3].
  destruct Hst as [_ Hc1 _ Hk1 Hpg1]. split; [done|by rewrite Hc| | | |].
  - rewrite Hfree, reverse_cons. simpl. rewrite <-app_assoc. simpl. do 2 f_equal.
    unfold s1. rewrite vmm_unmap_eq. by case_match.
  - intros q t Hq. by apply Hk, Hk1.
  - intros r Hr. rewrite Hpg by done. apply Hpg1. set_solver.
  - intros v Hv. rewrite Hx3 by done. change (vmm_get_phys v (pmm_free f s1)) with (vmm_get_phys v s1).
    rewrite Hx by done. replace (base + (p + 1) * 4096) with (va + 4096) by (unfold va; lia).
    rewrite Hlen. repeat case_decide; try done; lia.
Qed.

(** Failure means that no page is left. *)
Lemma map_pages_failure fuel p base n s s' :
  stack_ok s -> map_pages_loop fuel p base n s = Some (false, s') -> Forall (fun f => f <> 0) (free_pages_stack s) ->
  free_pages_stack s' = [].
Proof.
  revert p s. induction fuel as [|fuel IH]; intros p s Hok; [done|].
  rewrite map_pages_loop_step. destruct (p <? n); [|done].
  destruct (pmm_alloc s) as [f s1] eqn:Ea. intros Hr Hnz.
  assert (Hnz1 : Forall (fun f => f <> 0) (free_pages_stack s1)).
  { destruct (takes_alloc _ _ _ Ea) as (ps & Hps & _). rewrite Hps in Hnz. by apply Forall_app in Hnz as [_ ?]. }
  destruct (Z.eqb_spec f 0) as [->|Hf].
  - injection Hr as <-. unfold pmm_alloc in Ea.
    destruct (free_pages_stack s) as [|x r] eqn:E; [by injection Ea as <-|]. injection Ea as Hx <-.
    subst x. by apply Forall_cons in Hnz as [? _].
  - destruct (map_one _ f s1) as [s2|] eqn:Em; [|done]. simpl in Hr.
    destruct (iteration_takes _ _ _ _ _ Hok Ea Hf (u64_range _) Em) as (_ & _ & Hok2).
    apply (IH _ _ Hok2 Hr). unfold stack_ok, pmm_alloc in *.
    assert (Hf64 : 0 <= f < 2 ^ 64).
    { destruct (free_pages_stack s) as [|x r]; [by injection Ea as <-|]. injection Ea as <- <-.
      by apply Forall_cons in Hok as [? _]. }
    destruct (map_one_takes _ _ _ _ (u64_range _) Hf64 Em) as (ps & Hps & _). rewrite Hps in Hnz1.
    by apply Forall_app in Hnz1 as [_ ?].
Qed.

(** A machine has at most 2^52 bytes of memory. *)
Record machine_mem (v : vm) : Prop := {
  mm_stack : stack_ok v;
  mm_size : Z.of_nat (length (free_pages_stack v)) <= 2 ^ 40;
}.

Lemma map_pages_machine fuel p base n s ok s' :
  machine_mem s -> map_pages_loop fuel p base n s = Some (ok, s') -> machine_mem s'.
Proof.
  revert p s. induction fuel as [|fuel IH]; intros p s Hm; [done|].
  rewrite map_pages_loop_step. destruct (p <? n); [|by intros [= _ <-]].
  destruct (pmm_alloc s) as [f s1] eqn:Ea. destruct (Z.eqb_spec f 0) as [|Hf].
  - intros [= _ <-]. destruct Hm as [Hok Hs]. pose proof (takes_alloc _ _ _ Ea) as Ht.
    pose proof (takes_length _ _ _ Ht). split; [by eapply takes_stack_ok|lia].
  - destruct (map_one _ f s1) as [s2|] eqn:Em; [|done]. simpl. apply IH.
    destruct Hm as [Hok Hs].
    destruct (iteration_takes _ _ _ _ _ Hok Ea Hf (u64_range _) Em) as (? & _ & ?). split; [done|lia].
Qed.
