(* ===== verification/UserHeapOps.v ===== *)
(** The calls of the user heap on the list of its blocks: what alloc and free
    do to it whatever the page tables hold. *)
From Stdlib Require Import ZArith Lia.
From stdpp Require Import base numbers list gmap.
From S2P Require Import Prelude HeapIface Vmm VmmSpec VmmFrame UserHeap UserHeapSpec UserHeapMap.

Section Ops.
Context {H : Type} `{!KernelHeap H, !KernelHeapSpec H}.
Implicit Types (s : uheap H) (l : list (Z * ublk)).

(** The list of blocks of a state, and where they are. *)
Record uh_inv s l : Prop := {
  uh_rep : rep s l;
  uh_ordered : ordered USER_HEAP_BASE l.*2 (user_heap_cur s);
  uh_limit : user_heap_cur s <= USER_HEAP_LIMIT;
  uh_aligned : user_heap_cur s mod 4096 = 0;
}.

Lemma uh_cur s l : uh_inv s l -> USER_HEAP_BASE <= user_heap_cur s <= USER_HEAP_LIMIT.
Proof. intros [_ Ho Hl _]. by apply ordered_bounds in Ho. Qed.

Lemma uh_block s l d :
  uh_inv s l -> d ∈ l.*2 ->
  USER_HEAP_BASE <= ub_base d /\ ub_end d <= USER_HEAP_LIMIT /\ ub_base d mod 4096 = 0 /\ 0 < ub_npages d.
Proof.
  intros Hinv Hd. destruct (ordered_in _ _ _ _ (uh_ordered _ _ Hinv) Hd) as (? & ? & ? & ?).
  pose proof (uh_cur _ _ Hinv). split_and!; lia.
Qed.

Lemma pages_for_pos size : 0 < pages_for size < 2 ^ 52.
Proof.
  unfold pages_for. pose proof (u64_range (size + 4095)).
  destruct (Z.eqb_spec (u64 (size + 4095) / 4096) 0); zify_div.
Qed.

(** Away from the end of the 64-bit range the block is large enough. *)
Lemma pages_for_enough size : 0 < size <= 2 ^ 64 - 4096 -> size <= pages_for size * 4096 < size + 4096.
Proof.
  intros Hs. unfold pages_for. rewrite wrap_small by lia.
  destruct (Z.eqb_spec ((size + 4095) / 4096) 0); zify_div.
Qed.

(** Changes of the parts the list does not depend on. *)
Lemma rep_with_mem s l v : rep s l -> rep (with_mem v s) l.
Proof. by apply rep_same_list. Qed.

Definition free_for (n : Z) (d : ublk) : bool := ub_free d && (n <=? ub_npages d).

Lemma find_fit s l n :
  rep s l ->
  (Forall (fun x => free_for n x.2 = false) l /\
     find_blk (walk_steps s) (fun x => free x && (n <=? npages x)) (blks s) (user_blocks s) = Some 0) \/
  (exists l1 a d l2, l = l1 ++ (a, d) :: l2 /\ Forall (fun x => free_for n x.2 = false) l1 /\
     free_for n d = true /\ 0 < a /\
     find_blk (walk_steps s) (fun x => free x && (n <=? npages x)) (blks s) (user_blocks s) = Some a).
Proof.
  intros Hrep. pose proof (rep_steps _ _ Hrep) as Hlen. destruct Hrep as [Hh Hs Hnd Hl Hok].
  rewrite Hh. destruct (find_blk_spec (blks s) (fun x => free x && (n <=? npages x)) (free_for n) (walk_steps s) 0 l)
    as [?|(l1 & a & d & l2 & -> & ? & ? & ?)]; try done.
  - intros a Ha. by apply Hl.
  - by left.
  - right. exists l1, a, d, l2. split_and!; try done. apply Hl. in_mid.
Qed.

Lemma find_base s l ptr :
  rep s l ->
  (Forall (fun x => ub_base x.2 <> ptr) l /\
     find_blk (walk_steps s) (fun x => UserHeap.base x =? ptr) (blks s) (user_blocks s) = Some 0) \/
  (exists l1 a d l2, l = l1 ++ (a, d) :: l2 /\ ub_base d = ptr /\ 0 < a /\
     find_blk (walk_steps s) (fun x => UserHeap.base x =? ptr) (blks s) (user_blocks s) = Some a).
Proof.
  intros Hrep. pose proof (rep_steps _ _ Hrep) as Hlen. destruct Hrep as [Hh Hs Hnd Hl Hok].
  rewrite Hh.
  destruct (find_blk_spec (blks s) (fun x => UserHeap.base x =? ptr) (fun d => ub_base d =? ptr) (walk_steps s) 0 l)
    as [[Hall ?]|(l1 & a & d & l2 & -> & ? & Hd & ?)]; try done.
  - intros a Ha. by apply Hl.
  - left. split; [|done]. eapply Forall_impl; [exact Hall|]. intros x Hx. by apply Z.eqb_neq.
  - right. exists l1, a, d, l2. split_and!; try done; [by apply Z.eqb_eq|]. apply Hl. in_mid.
Qed.

(** The tail of a split block. *)
Definition tail_of (n : Z) (d : ublk) : ublk :=
  Ublk (ub_base d + n * 4096) (ub_npages d - n) true 0.
Definition head_of (n : Z) (d : ublk) : ublk := Ublk (ub_base d) n (ub_free d) (ub_owner d).

Lemma ordered_split lo (l1 l2 : list ublk) d hi n :
  ordered lo (l1 ++ d :: l2) hi -> 0 < n < ub_npages d ->
  ordered lo (l1 ++ head_of n d :: tail_of n d :: l2) hi /\ ordered lo (l1 ++ head_of n d :: l2) hi.
Proof.
  intros (H1 & Ha & Hn & H2)%ordered_middle Hlt. split; apply ordered_middle; unfold ub_end in *; simpl.
  - split_and!; try done; try lia; [zify_div|].
    by replace (ub_base d + n * 4096 + (ub_npages d - n) * 4096) with (ub_base d + ub_npages d * 4096) by lia.
  - split_and!; try done; [lia|]. eapply ordered_weaken; [| |exact H2]; lia.
Qed.

(** The first half of [reuse_blk]: the block is cut to [n] pages; the rest
    becomes a free block, unless the kernel heap has no room for it. *)
Lemma split_blk_spec s l1 b d l2 n :
  uh_inv s (l1 ++ (b, d) :: l2) -> 0 < n <= ub_npages d ->
  exists s' l2',
    (if n <? ub_npages d then
       '(_, s) ← user_blk_new (u64 (ub_base d + n * 4096)) (ub_npages d - n) true s;
       Some (set_blk b (with_npages n) s)
     else Some s) = Some s' /\
    uh_inv s' (l1 ++ (b, head_of n d) :: l2') /\ same_rest s s' /\
    l2'.*2 = (if room (kh s) && (n <? ub_npages d) then tail_of n d :: l2.*2 else l2.*2).
Proof.
  intros Hinv Hn. pose proof Hinv as [Hrep Ho Hl Ha].
  destruct (Z.ltb_spec n (ub_npages d)) as [Hlt|Hge].
  2:{ exists s, l2. assert (Eh : head_of n d = d).
      { destruct d as [b0 n0 f0 o0]. simpl in *. unfold head_of. simpl. f_equal. lia. }
      rewrite Eh, andb_false_r. by split_and!. }
  assert (Hblk := uh_block _ _ d Hinv ltac:(in_mid)). unfold ub_end, USER_HEAP_LIMIT, USER_HEAP_BASE in *.
  rewrite wrap_small by lia. rewrite fmap_app, fmap_cons in Ho. simpl in Ho.
  destruct (user_blk_new_spec s _ (ub_base d + n * 4096) (ub_npages d - n) true Hrep)
    as (r & s1 & l' & -> & Hrep1 & Hins & Hroom & Hm & Hc). simpl. rewrite andb_true_r.
  exists (set_blk b (with_npages n) s1).
  pose proof Ho as (H1 & Hal & Hpos & H2)%ordered_middle.
  destruct (ordered_split _ _ _ _ _ _ Ho ltac:(split; [|exact Hlt]; lia)) as [Hs1 Hs2].
  assert (Hupd : blk_update (with_npages n) (head_of n)) by done.
  assert (Hcase : (r = 0 /\ l' = l1 ++ (b, d) :: l2) \/
    (0 < r /\ r ∉ (l1 ++ (b, d) :: l2).*1 /\ l' = (l1 ++ [(b, d)]) ++ (r, tail_of n d) :: l2)).
  { eapply (inserted_at (ub_base d + ub_npages d * 4096) _ _ (user_heap_cur s)); [exact Hins|by rewrite <-app_assoc| |lia|exact H2].
    apply Forall_app. split; [|constructor; [unfold below; simpl; lia|done]].
    eapply ordered_below; [exact H1|lia]. }
  assert (Hcur : user_heap_cur (set_blk b (with_npages n) s1) = user_heap_cur s) by done.
  destruct Hcase as [[-> ->]|(Hr & _ & ->)].
  - exists l2. split; [done|]. split; [|split; [done|by destruct (room (kh s))]].
    split; rewrite ?Hcur; try done; [by apply (set_blk_spec _ _ _ _ _ _ _ Hupd)|].
    by rewrite fmap_app, fmap_cons.
  - rewrite <-app_assoc in Hrep1. simpl in Hrep1. exists ((r, tail_of n d) :: l2).
    rewrite (proj2 (Z.eqb_neq r 0)) in Hroom by lia.
    split; [done|]. split; [|split; [done|by destruct (room (kh s))]].
    split; rewrite ?Hcur; try done; [by apply (set_blk_spec _ _ _ _ _ _ _ Hupd)|].
    by rewrite fmap_app, !fmap_cons.
Qed.

(** ** The abstract allocator

    A list of blocks, the high-water mark and the memory; the only trace of
    the kernel heap is whether it has [room] for a descriptor. *)

Definition astate : Type := list ublk * Z * vm.

Definition spec_alloc (room : bool) (o n : Z) (a : astate) : option (Z * astate) :=
  let '(l, cur, v) := a in
  match list_find (fun d => free_for n d = true) l with
  | Some (i, d) =>
      '(ok, v) ← user_map_pages (ub_base d) n v;
      let rest := if room && (n <? ub_npages d) then tail_of n d :: drop (S i) l else drop (S i) l in
      Some (if (ok : bool) then ub_base d else ALLOC_FAILED,
            (take i l ++ Ublk (ub_base d) n (negb ok) o :: rest, cur, v))
  | None =>
      if USER_HEAP_LIMIT <? u64 (cur + u64 (n * 4096)) then Some (ALLOC_FAILED, a) else
      '(ok, v) ← user_map_pages cur n v;
      Some (if (ok : bool)
            then (cur, (if room then l ++ [Ublk cur n false o] else l, u64 (cur + u64 (n * 4096)), v))
            else (ALLOC_FAILED, (l, cur, v)))
  end.

Definition spec_free (ptr : Z) (a : astate) : astate :=
  let '(l, cur, v) := a in
  match list_find (fun d => ub_base d = ptr) l with
  | Some (i, d) =>
      if ub_free d then a else
      (coalesce (take i l) (Ublk (ub_base d) (ub_npages d) true (ub_owner d)) (drop (S i) l),
       cur, unmap_pages_loop (Z.to_nat (ub_npages d)) 0 (ub_base d) v)
  | None => a
  end.

(** The abstract state of a list of descriptors. *)
Definition abs s l : astate := (l.*2, user_heap_cur s, mem s).

Lemma list_find_middle {A} (P : A -> Prop) `{forall x, Decision (P x)} (l1 l2 : list A) d :
  Forall (fun x => ~ P x) l1 -> P d -> list_find P (l1 ++ d :: l2) = Some (length l1, d).
Proof.
  intros Hl Hd. apply list_find_Some. split; [by apply list_lookup_middle|]. split; [done|].
  intros j y Hj Hlt. rewrite lookup_app_l in Hj by done.
  rewrite Forall_lookup in Hl. by eapply Hl.
Qed.

Lemma middle_parts {A} (l1 l2 : list A) (d : A) :
  take (length l1) (l1 ++ d :: l2) = l1 /\ drop (S (length l1)) (l1 ++ d :: l2) = l2.
Proof.
  split; [by rewrite take_app_length|].
  by rewrite drop_app_ge, Nat.sub_succ_l, Nat.sub_diag by lia.
Qed.

Lemma uh_inv_mem s l v : uh_inv s l -> uh_inv (with_mem v s) l.
Proof. intros [? ? ? ?]. by split; [apply rep_with_mem|..]. Qed.

Lemma set_blk_inv s l1 a d l2 f g :
  blk_update f g -> (forall d, ub_base (g d) = ub_base d /\ ub_npages (g d) = ub_npages d) ->
  uh_inv s (l1 ++ (a, d) :: l2) -> uh_inv (set_blk a f s) (l1 ++ (a, g d) :: l2).
Proof.
  intros Hf Hg [Hrep Ho Hl Ha]. split; [by eapply set_blk_spec| |done|done].
  change (user_heap_cur (set_blk a f s)) with (user_heap_cur s).
  rewrite fmap_app, fmap_cons in *. simpl in *. destruct (Hg d) as [E1 E2].
  apply ordered_middle. apply ordered_middle in Ho. unfold ub_end in *. by rewrite E1, E2.
Qed.

Lemma reuse_refines s l1 b d l2 oc n :
  uh_inv s (l1 ++ (b, d) :: l2) -> 0 < n <= ub_npages d -> ub_free d = true ->
  match user_map_pages (ub_base d) n (mem s) with
  | None => reuse_blk oc n b s = None
  | Some (ok, v) => exists s' l2',
      reuse_blk oc n b s = Some (if ok then ub_base d else ALLOC_FAILED, s') /\
      uh_inv s' (l1 ++ (b, Ublk (ub_base d) n (negb ok) (owner_of oc)) :: l2') /\
      l2'.*2 = (if room (kh s) && (n <? ub_npages d) then tail_of n d :: l2.*2 else l2.*2) /\
      user_heap_cur s' = user_heap_cur s /\ mem s' = v
  end.
Proof.
  intros Hinv Hn Hfree. unfold reuse_blk. rewrite (rep_lookup _ _ _ _ _ (uh_rep _ _ Hinv)).
  cbn [mbind option_bind node UserHeap.base npages].
  destruct (split_blk_spec _ _ _ _ _ n Hinv Hn) as (s1 & l2' & E & Hinv1 & [Hm Hc] & Hl2).
  rewrite E. cbn [mbind option_bind].
  set (f := fun x => with_owner (owner_of oc) (with_free_flag false x)).
  set (g := fun d => Ublk (ub_base d) (ub_npages d) false (owner_of oc)).
  pose proof (set_blk_inv _ _ _ _ _ f g ltac:(done) ltac:(done) Hinv1) as Hinv2.
  rewrite (rep_lookup _ _ _ _ _ (uh_rep _ _ Hinv2)). cbn [mbind option_bind node UserHeap.base npages].
  change (mem (set_blk b f s1)) with (mem s1). rewrite Hm.
  change (ub_base (g (head_of n d))) with (ub_base d). change (ub_npages (g (head_of n d))) with n.
  destruct (user_map_pages (ub_base d) n (mem s)) as [[[] v]|]; [| |done]; cbn [mbind option_bind].
  - eexists _, l2'. split; [done|]. split; [by apply uh_inv_mem|]. by split_and!.
  - eexists _, l2'. split; [done|]. split; [|by split_and!].
    exact (set_blk_inv _ _ _ _ _ (with_free_flag true)
      (fun d => Ublk (ub_base d) (ub_npages d) true (ub_owner d)) ltac:(done) ltac:(done) (uh_inv_mem _ _ v Hinv2)).
Qed.

Lemma grow_refines s l oc n :
  uh_inv s l -> machine_mem (mem s) -> 0 < n < 2 ^ 52 ->
  match (if USER_HEAP_LIMIT <? u64 (user_heap_cur s + u64 (n * 4096)) then Some (ALLOC_FAILED, abs s l) else
         '(ok, v) ← user_map_pages (user_heap_cur s) n (mem s);
         Some (if (ok : bool)
            then (user_heap_cur s, (if room (kh s) then l.*2 ++ [Ublk (user_heap_cur s) n false (owner_of oc)]
                                   else l.*2, u64 (user_heap_cur s + u64 (n * 4096)), v))
            else (ALLOC_FAILED, (l.*2, user_heap_cur s, v)))) with
  | None => grow_heap oc n s = None
  | Some (r, a) => exists s' l', grow_heap oc n s = Some (r, s') /\ uh_inv s' l' /\ abs s' l' = a
  end.
Proof.
  intros Hinv [Hstk Hmem] Hn. pose proof (uh_cur _ _ Hinv) as Hcur. unfold grow_heap, USER_HEAP_LIMIT, USER_HEAP_BASE in *.
  destruct (Z.ltb_spec (0x20000000 + 256 * 1024 * 1024) (u64 (user_heap_cur s + u64 (n * 4096)))) as [Hlt|Hge]; [by exists s, l|].
  destruct (user_map_pages (user_heap_cur s) n (mem s)) as [[[] v]|] eqn:Em; [| |done]; cbn [mbind option_bind negb].
  2:{ exists (with_mem v s), l. split; [done|]. by split; [apply uh_inv_mem|]. }
  pose proof (map_pages_success_takes _ _ _ _ _ _ Hstk Em) as Hpages.
  change (user_heap_cur (with_mem v s)) with (user_heap_cur s).
  rewrite (wrap_small 64 (n * 4096)) in Hge |- * by lia.
  rewrite (wrap_small 64 (user_heap_cur s + n * 4096)) in Hge |- * by lia.
  set (s1 := with_cur (user_heap_cur s + n * 4096) (with_mem v s)).
  destruct Hinv as [Hrep Ho Hl Ha].
  assert (Hrep1 : rep s1 l) by (by apply (rep_same_list s)).
  destruct (user_blk_new_spec s1 l (user_heap_cur s) n false Hrep1)
    as (nb & s2 & l' & E & Hrep2 & Hins & Hroom & Hm2 & Hc2).
  fold s1. rewrite E. cbn [mbind option_bind].
  change (room (kh s1)) with (room (kh s)) in Hroom.
  assert (Hcase : (nb = 0 /\ l' = l) \/
    (0 < nb /\ nb ∉ l.*1 /\ l' = l ++ (nb, Ublk (user_heap_cur s) n false 0) :: [])).
  { eapply (inserted_at (user_heap_cur s) l [] (user_heap_cur s)); [exact Hins|by rewrite app_nil_r| |lia|simpl; lia].
    by eapply ordered_below. }
  assert (Hal : (user_heap_cur s + n * 4096) mod 4096 = 0) by zify_div.
  destruct Hcase as [[-> ->]|(Hnb & _ & ->)].
  - exists s2, l. simpl in Hroom. destruct (room (kh s)); [done|]. split; [done|]. split.
    + split; rewrite ?Hc2; try done. eapply ordered_weaken; [| |exact Ho]; [lia|]. simpl. lia.
    + unfold abs. by rewrite Hc2, Hm2.
  - rewrite (proj2 (Z.eqb_neq nb 0)) in * by lia. destruct (room (kh s)); [|done].
    set (g := fun d => Ublk (ub_base d) (ub_npages d) (ub_free d) (owner_of oc)).
    exists (set_blk nb (with_owner (owner_of oc)) s2), (l ++ [(nb, g (Ublk (user_heap_cur s) n false 0))]).
    split; [done|]. split.
    + assert (Hcs : user_heap_cur (set_blk nb (with_owner (owner_of oc)) s2) = user_heap_cur s + n * 4096)
        by (simpl; by rewrite Hc2).
      split; rewrite ?Hcs; try done.
      * by apply (set_blk_spec s2 l nb (Ublk (user_heap_cur s) n false 0) [] _ g).
      * rewrite fmap_app. simpl. apply ordered_middle. simpl. unfold ub_end. simpl. split_and!; try done; lia.
    + unfold abs. rewrite fmap_app. simpl. by rewrite Hc2, Hm2.
Qed.

(** The spec of a call: a size of 0 gives NULL. *)
Definition spec_alloc_call (room : bool) (o size : Z) (a : astate) : option (Z * astate) :=
  if size =? 0 then Some (0, a) else spec_alloc room o (pages_for size) a.

Lemma list_find_data (P : ublk -> Prop) `{forall x, Decision (P x)} l1 (x : Z * ublk) l2 :
  Forall (fun y => ~ P y.2) l1 -> P x.2 ->
  list_find P (l1 ++ x :: l2).*2 = Some (length l1.*2, x.2).
Proof.
  intros Hl Hx. rewrite fmap_app, fmap_cons. apply list_find_middle; [|done].
  by apply Forall_fmap.
Qed.

Lemma alloc_refines_aux s l oc size :
  uh_inv s l -> machine_mem (mem s) ->
  match spec_alloc_call (room (kh s)) (owner_of oc) size (abs s l) with
  | None => k_sys_alloc_user oc size s = None
  | Some (r, a) => exists s' l', k_sys_alloc_user oc size s = Some (r, s') /\ uh_inv s' l' /\ abs s' l' = a
  end.
Proof.
  intros Hinv Hm. unfold spec_alloc_call, k_sys_alloc_user. destruct (size =? 0); [by exists s, l|].
  pose proof (pages_for_pos size) as Hn. cbn [spec_alloc abs].
  destruct (find_fit s l (pages_for size) (uh_rep _ _ Hinv))
    as [[Hall ->]|(l1 & b & d & l2 & -> & Hall & Hfit & Hb & ->)]; cbn [mbind option_bind].
  - rewrite (proj2 (list_find_None _ _)); [by apply grow_refines|].
    apply Forall_fmap. eapply Forall_impl; [exact Hall|]. intros x Hx. simpl. congruence.
  - rewrite (proj2 (Z.eqb_neq b 0)) by lia.
    rewrite (list_find_data (fun d => free_for (pages_for size) d = true) l1 (b, d) l2);
      [|eapply Forall_impl; [exact Hall|]; intros x Hx; simpl; congruence|done].
    rewrite fmap_app, fmap_cons. cbn [snd].
    destruct (middle_parts l1.*2 l2.*2 d) as [-> ->].
    apply andb_prop in Hfit as [Hf Hle%Z.leb_le].
    pose proof (reuse_refines s l1 b d l2 oc (pages_for size) Hinv ltac:(lia) Hf) as Hr.
    destruct (user_map_pages (ub_base d) (pages_for size) (mem s)) as [[ok v]|]; [|done].
    cbn [mbind option_bind]. destruct Hr as (s' & l2' & E & Hinv' & El & Ec & Em).
    exists s', (l1 ++ (b, Ublk (ub_base d) (pages_for size) (negb ok) (owner_of oc)) :: l2').
    split; [done|]. split; [done|]. unfold abs. rewrite fmap_app, fmap_cons, El, Ec, Em. done.
Qed.

Lemma free_refines_aux s l ptr :
  uh_inv s l ->
  exists s' l', k_sys_free_user ptr s = Some s' /\ uh_inv s' l' /\ abs s' l' = spec_free ptr (abs s l).
Proof.
  intros Hinv. unfold k_sys_free_user. cbn [spec_free abs].
  destruct (find_base s l ptr (uh_rep _ _ Hinv)) as [[Hall ->]|(l1 & b & d & l2 & -> & Hd & Hb & ->)].
  - rewrite (proj2 (list_find_None _ _)) by (by apply Forall_fmap). exists s, l. by case_match.
  - assert (Hin : d ∈ (l1 ++ (b, d) :: l2).*2) by in_mid.
    destruct (uh_block _ _ _ Hinv Hin) as (Hlo & Hhi & _ & Hnp). unfold ub_end in *.
    rewrite (proj2 (Z.eqb_neq ptr 0)), (proj2 (Z.ltb_ge ptr _)), (proj2 (Z.leb_gt _ ptr))
      by (unfold USER_HEAP_BASE in *; lia). cbn [orb mbind option_bind].
    rewrite (proj2 (Z.eqb_neq b 0)) by lia.
    assert (Hfind : list_find (fun d => ub_base d = ptr) (l1 ++ (b, d) :: l2).*2 = Some (length l1.*2, d)).
    { apply (list_find_data (fun d => ub_base d = ptr) l1 (b, d) l2); [|done].
      apply Forall_forall. intros x Hx Hbx. pose proof (uh_ordered _ _ Hinv) as Ho.
      rewrite fmap_app, fmap_cons in Ho. simpl in Ho. apply ordered_middle in Ho as (H1 & _).
      destruct (ordered_in _ _ _ x.2 H1) as (_ & ? & _ & ?); [apply list_elem_of_fmap; eauto|].
      unfold ub_end in *. lia. }
    rewrite Hfind. rewrite fmap_app, fmap_cons. cbn [snd].
    destruct (middle_parts l1.*2 l2.*2 d) as [-> ->].
    rewrite (rep_lookup _ _ _ _ _ (uh_rep _ _ Hinv)). cbn [mbind option_bind node free npages UserHeap.base].
    destruct (ub_free d) eqn:Ef.
    { exists s, (l1 ++ (b, d) :: l2). split; [done|]. split; [done|]. unfold abs.
      by rewrite fmap_app, fmap_cons. }
    set (g := fun d => Ublk (ub_base d) (ub_npages d) true (ub_owner d)).
    pose proof (set_blk_inv _ _ _ _ _ (with_free_flag true) g ltac:(done) ltac:(done) Hinv) as Hinv1.
    set (v := unmap_pages_loop _ _ _ _). set (s1 := with_mem v _).
    assert (Hinv2 : uh_inv s1 (l1 ++ (b, g d) :: l2)) by (by apply uh_inv_mem).
    pose proof (uh_cur _ _ Hinv2) as Hcur. destruct Hinv2 as [Hrep Ho Hl Ha].
    assert (H64 : user_heap_cur s1 < 2 ^ 64) by (unfold USER_HEAP_LIMIT, USER_HEAP_BASE in *; lia).
    destruct (coalesce_spec s1 l1 b (g d) l2 USER_HEAP_BASE _ Hrep ltac:(done) H64 Ho)
      as (s2 & l' & -> & Hrep2 & El & [Em Ec] & Ho2).
    exists s2, l'. split; [done|]. split; [split; rewrite ?Ec; done|].
    unfold abs. by rewrite El, Ec, Em.
Qed.
End Ops.
