(* ===== verification/UserHeapSpace.v ===== *)
(** The user heap in one address space: the frames behind the blocks, and what a
    call of alloc or free does to them. *)
From Stdlib Require Import ZArith Lia.
From stdpp Require Import base numbers list gmap.
From S2P Require Import Prelude HeapIface Vmm VmmSpec VmmProps VmmFrame UserSpace.
From S2P Require Import UserHeap UserHeapSpec UserHeapMap UserHeapOps.

(** ** Blocks and their frames *)

Definition heap_page (a : Z) : Prop := win_page USER_HEAP_BASE USER_HEAP_LIMIT a.

(** [R] are the frames handed out; pages of free blocks may be mapped too, which
    is what a call that runs out of memory leaves behind. *)
Record umem (l : list ublk) (R : list Z) (v : vm) : Prop := {
  um_win : window USER_HEAP_BASE USER_HEAP_LIMIT R v;
  um_live d a : d ∈ l -> ub_free d = false -> heap_page a -> ub_base d <= a < ub_end d ->
    vmm_get_phys a v <> 0;
}.

Lemma heap_win : win_ok USER_HEAP_BASE USER_HEAP_LIMIT.
Proof. by split. Qed.

Lemma um_wf l R v : umem l R v -> wf (reserve R v).
Proof. intros [[]]. done. Qed.

(** [user_map_pages] on a range of the heap. *)
Lemma umem_map l l' R v lo n ok v' :
  umem l R v -> lo mod 4096 = 0 -> USER_HEAP_BASE <= lo -> 0 <= n -> lo + n * 4096 <= USER_HEAP_LIMIT ->
  user_map_pages lo n v = Some (ok, v') ->
  (forall d, d ∈ l' -> ub_free d = false -> d ∈ l \/ (ok = true /\ ub_base d = lo /\ ub_npages d = n)) ->
  exists F, mapped_run R lo n ok F v v' /\ umem l' (F ++ R) v'.
Proof.
  intros [Hwin Hlive] Hal Hlo Hn Hhi Hrun Hl'. pose proof Hwin as [Hwf Htame _ _ _].
  assert (H48 : 0 <= lo /\ lo + n * 4096 <= 2 ^ 48) by (unfold USER_HEAP_LIMIT, USER_HEAP_BASE in *; lia).
  destruct H48 as [H0 H48].
  destruct (map_pages_loop_spec _ 0 lo n R v ok v' Hwf ltac:(lia) Hal H0 H48
    ltac:(eapply tame_sub; [exact Htame|lia|lia]) Hrun) as [F HF].
  rewrite Z.mul_0_l, Z.add_0_r, Z.sub_0_r in HF. exists F. split; [done|].
  pose proof HF as [Hst Hwf' Hfree Hz Hfr Hother Hdone].
  assert (Hle : npages_of F <= n) by (destruct ok; lia).
  destruct (window_map _ _ R lo F v v' heap_win Hwin Hal Hlo ltac:(lia) Hst Hwf' Hfr Hother) as [Hwin' Hnz].
  split; [done|]. intros d a Hd Hf Ha Hr. apply Hnz; [done|].
  destruct (Hl' d Hd Hf) as [Hdl|(-> & Eb & En)]; [left; by eapply Hlive|right].
  unfold ub_end in Hr. rewrite Hdone, <-En, <-Eb. exact Hr.
Qed.

Lemma umem_unmap l l' R v lo n :
  umem l R v -> lo mod 4096 = 0 -> USER_HEAP_BASE <= lo -> lo + Z.of_nat n * 4096 <= USER_HEAP_LIMIT ->
  (forall a, heap_page a -> lo <= a < lo + Z.of_nat n * 4096 -> vmm_get_phys a v <> 0) ->
  (forall d, d ∈ l' -> ub_free d = false -> d ∈ l /\ disjoint_range lo (Z.of_nat n * 4096) (ub_base d) (ub_npages d * 4096)) ->
  exists R', let F := block_frames lo n v in
    R ≡ₚ F ++ R' /\ frames_at lo F v /\
    unmapped_run R' lo F v (unmap_pages_loop n 0 lo v) /\ umem l' R' (unmap_pages_loop n 0 lo v).
Proof.
  intros [Hwin Hlive] Hal Hlo Hhi Hmap Hl'.
  destruct (window_block _ _ R v lo n heap_win Hwin Hal Hlo Hhi Hmap) as (R' & HR & Hfr).
  exists R'. set (F := block_frames lo n v) in *.
  assert (Hlen : length F = n) by (unfold F, block_frames; by rewrite length_fmap, length_seq).
  pose proof (wf_reserve_perm _ _ _ HR (wd_wf _ _ _ _ Hwin)) as HwfF.
  assert (Hrun : unmapped_run R' lo F v (unmap_pages_loop n 0 lo v)).
  { assert (Hfr0 : frames_at (lo + 0 * 4096) F v) by (by rewrite Z.mul_0_l, Z.add_0_r).
    pose proof (unmap_pages_loop_spec F 0 lo R' v HwfF Hal) as Hs. rewrite Z.mul_0_l, Z.add_0_r, Hlen in Hs.
    unfold npages_of, USER_HEAP_LIMIT, USER_HEAP_BASE in *. rewrite Hlen in Hs. apply Hs; try done; lia. }
  destruct (window_unmap _ _ R R' v _ lo n heap_win Hwin Hal Hlo Hhi Hmap HR Hrun) as [Hwin' Hsame].
  split_and!; try done. split; [done|]. intros d a Hd Hf Ha Hr. destruct (Hl' d Hd Hf) as [Hdl Hdis].
  rewrite Hsame; [by eapply Hlive|done|]. unfold disjoint_range, ub_end in *. lia.
Qed.

(** ** The blocks in use *)

(** Two lists have the same allocated blocks, up to a change [P]. *)
Definition allocated (l : list ublk) (d : ublk) : Prop := d ∈ l /\ ub_free d = false.

Lemma coalesce_allocated before d after e :
  ub_free d = true -> allocated (coalesce before d after) e <-> allocated (before ++ after) e.
Proof.
  intros Hd. unfold allocated, coalesce, merge_left, merge_right.
  assert (Hg : forall x y, ub_free (grown x y) = ub_free x) by done.
  destruct (last before) as [p|] eqn:El.
  - apply last_Some in El as [before' ->]. rewrite removelast_last.
    destruct (ub_free p && adjacent p d) eqn:Ep.
    + apply andb_prop in Ep as [Ep _]. destruct after as [|n r].
      * set_unfold. naive_solver congruence.
      * destruct (ub_free n && _) eqn:En; [apply andb_prop in En as [En _]|];
          set_unfold; naive_solver congruence.
    + destruct after as [|n r]; [|destruct (ub_free n && _) eqn:En; [apply andb_prop in En as [En _]|]];
        set_unfold; naive_solver congruence.
  - destruct after as [|n r]; [|destruct (ub_free n && _) eqn:En; [apply andb_prop in En as [En _]|]];
      set_unfold; naive_solver congruence.
Qed.

(** What the abstract allocator does with a request that is not absurdly large:
    it refuses, or maps the pages of a range no allocated block overlaps. *)
Record placed (room : bool) (o n : Z) (l : list ublk) (v : vm) (r : Z) (l' : list ublk) (v' : vm)
    (lo : Z) (ok : bool) : Prop := {
  pl_map : user_map_pages lo n v = Some (ok, v');
  pl_result : r = if ok then lo else ALLOC_FAILED;
  pl_range : lo mod 4096 = 0 /\ USER_HEAP_BASE <= lo /\ lo + n * 4096 <= USER_HEAP_LIMIT;
  pl_disjoint d : allocated l d -> disjoint_range lo (n * 4096) (ub_base d) (ub_npages d * 4096);
  pl_sound d : allocated l' d -> allocated l d \/ (ok = true /\ d = Ublk lo n false o);
  pl_keeps d : allocated l d -> allocated l' d;
  pl_adds : ok = true -> room = true -> allocated l' (Ublk lo n false o);
}.

Lemma spec_alloc_placed room o size l cur v r l' cur' v' :
  ordered USER_HEAP_BASE l cur -> cur <= USER_HEAP_LIMIT -> cur mod 4096 = 0 -> 0 < size < 2 ^ 63 ->
  spec_alloc room o (pages_for size) (l, cur, v) = Some (r, (l', cur', v')) ->
  (r = ALLOC_FAILED /\ l' = l /\ v' = v /\ Forall (fun d => free_for (pages_for size) d = false) l /\
     USER_HEAP_LIMIT < cur + pages_for size * 4096) \/
  exists lo ok, placed room o (pages_for size) l v r l' v' lo ok.
Proof.
  intros Ho Hcur Hal Hsize. pose proof (pages_for_enough size ltac:(lia)) as Hn.
  set (n := pages_for size) in *. pose proof (ordered_bounds _ _ _ Ho) as Hb. cbn [spec_alloc].
  destruct (list_find (fun d => free_for n d = true) l) as [[i d]|] eqn:Ef.
  - apply list_find_Some in Ef as (Hi & Hfit & _). apply andb_prop in Hfit as [Hf Hle%Z.leb_le].
    pose proof (list_elem_of_lookup_2 _ _ _ Hi) as Hin.
    destruct (ordered_in _ _ _ _ Ho Hin) as (H1 & H2 & H3 & H4). unfold ub_end in H2.
    rewrite <-(take_drop_middle _ _ _ Hi) in Ho. pose proof Ho as (Hl1 & _ & _ & Hl2)%ordered_middle.
    assert (Hel : forall e, allocated l e -> e ∈ take i l \/ e ∈ drop (S i) l).
    { intros e [He Hfe]. rewrite <-(take_drop_middle _ _ _ Hi) in He.
      apply elem_of_app in He as [?|[->|?]%elem_of_cons]; [by left|congruence|by right]. }
    destruct (user_map_pages (ub_base d) n v) as [[ok w]|] eqn:Em; [|done].
    cbn [mbind option_bind]. intros [= <- <- <- <-]. right. exists (ub_base d), ok. split; try done.
    + split_and!; lia.
    + intros e He. unfold disjoint_range. destruct (Hel e He) as [Hi1|Hi2].
      * destruct (ordered_in _ _ _ _ Hl1 Hi1) as (_ & ? & _). unfold ub_end in *. lia.
      * destruct (ordered_in _ _ _ _ Hl2 Hi2) as (? & _). unfold ub_end in *. lia.
    + intros e [He Hfe]. apply elem_of_app in He as [He|[->|He]%elem_of_cons].
      * left. split; [|done]. rewrite <-(take_drop_middle _ _ _ Hi). set_solver.
      * right. destruct ok; [done|discriminate].
      * left. split; [|done]. rewrite <-(take_drop_middle _ _ _ Hi).
        destruct (room && (n <? ub_npages d)); [|set_solver].
        apply elem_of_cons in He as [->|He]; [done|set_solver].
    + intros e He. split; [|by destruct He]. apply elem_of_app. destruct (Hel e He); [by left|right].
      destruct (room && (n <? ub_npages d)); set_solver.
    + intros -> _. split; [set_solver|done].
  - apply list_find_None in Ef. unfold USER_HEAP_LIMIT, USER_HEAP_BASE in *.
    rewrite (wrap_small 64 (n * 4096)) by lia. rewrite (wrap_small 64 (cur + _)) by lia.
    destruct (Z.ltb_spec (0x20000000 + 256 * 1024 * 1024) (cur + n * 4096)) as [Hlt|Hge].
    { intros [= <- <- <- <-]. left. split_and!; try done.
      eapply Forall_impl; [exact Ef|]. intros d Hd. by apply not_true_is_false. }
    destruct (user_map_pages cur n v) as [[ok w]|] eqn:Em; [|done].
    cbn [mbind option_bind]. intros E. right. exists cur, ok.
    assert (E' : r = (if ok then cur else ALLOC_FAILED) /\ v' = w /\
      l' = (if ok && room then l ++ [Ublk cur n false o] else l)).
    { destruct ok; injection E as <- <- <- <-; [by destruct room|done]. }
    destruct E' as (-> & -> & ->). split; try done.
    + intros e [He _]. destruct (ordered_in _ _ _ _ Ho He) as (_ & ? & _). unfold ub_end, disjoint_range in *. lia.
    + intros e [He Hfe]. destruct ok, room; simpl in He; try (by left; split).
      apply elem_of_app in He as [?|He]; [by left|right]. split; [done|]. set_solver.
    + intros e [He Hfe]. split; [|done]. destruct ok, room; simpl; set_solver.
    + intros -> ->. split; [set_solver|done].
Qed.

Lemma wf_machine R v : wf (reserve R v) -> machine_mem v.
Proof.
  intros Hwf. pose proof (wf_unreserve _ _ Hwf) as Hwf'. split; [by apply wf_stack_ok|].
  destruct (wf_stack v Hwf') as [Hnd Hok]. rewrite Forall_forall in Hok.
  assert (Hl : (length ((fun p => Z.div p 4096) <$> free_pages_stack v : list Z) <= length (seqZ 0 (2 ^ 40)))%nat).
  { apply submseteq_length, NoDup_submseteq.
    - apply NoDup_alt. intros i j x. rewrite !list_lookup_fmap.
      destruct (free_pages_stack v !! i) as [p|] eqn:Ei, (free_pages_stack v !! j) as [q|] eqn:Ej; try done.
      intros [= <-] [= Hq]. eapply NoDup_lookup; [exact Hnd|exact Ei|]. rewrite Ej. f_equal.
      destruct (Hok p) as [_ Hp]; [by eapply list_elem_of_lookup_2|].
      destruct (Hok q) as [_ Hq']; [by eapply list_elem_of_lookup_2|]. zify_div.
    - intros x (p & -> & Hp)%list_elem_of_fmap. destruct (Hok p Hp) as [? _]. apply elem_of_seqZ.
      split; [zify_div|]. apply Z.div_lt_upper_bound; lia. }
  rewrite length_fmap, length_seqZ in Hl. lia.
Qed.

Section Theorems.
Context {H : Type} `{!KernelHeap H, !KernelHeapSpec H}.
Implicit Types (s : uheap H) (l : list (Z * ublk)).

Lemma spec_free_live a (l : list ublk) cur v d i :
  l !! i = Some d -> list_find (fun d => ub_base d = a) l = Some (i, d) -> ub_free d = false ->
  exists l' : list ublk, spec_free a (l, cur, v) =
    (l', cur, unmap_pages_loop (Z.to_nat (ub_npages d)) 0 (ub_base d) v) /\
    forall e, allocated l' e <-> allocated (take i l ++ drop (S i) l) e.
Proof.
  intros Hi Hf Hfree. cbn [spec_free]. rewrite Hf, Hfree. eexists. split; [done|].
  intros e. by apply coalesce_allocated.
Qed.

(** The entry of an ordered list with a given base. *)
Lemma find_base_ordered lo (l : list ublk) hi d :
  ordered lo l hi -> d ∈ l ->
  exists i, l !! i = Some d /\ list_find (fun e => ub_base e = ub_base d) l = Some (i, d) /\
    forall e, e ∈ take i l ++ drop (S i) l <-> e ∈ l /\ e <> d.
Proof.
  intros Ho [i Hi]%list_elem_of_lookup. exists i. split; [done|].
  assert (Hne : forall j e, l !! j = Some e -> j <> i -> ub_base e <> ub_base d /\ e <> d).
  { intros j e Hj Hji. assert (Hb : ub_base e <> ub_base d); [|split; congruence].
    pose proof (list_elem_of_lookup_2 _ _ _ Hi) as Hdi. pose proof (list_elem_of_lookup_2 _ _ _ Hj) as Hej.
    destruct (ordered_in _ _ _ _ Ho Hdi) as (_ & _ & _ & ?), (ordered_in _ _ _ _ Ho Hej) as (_ & _ & _ & ?).
    destruct (decide (j < i)%nat).
    - pose proof (ordered_disjoint _ _ _ _ _ _ _ Ho Hj Hi ltac:(done)). unfold ub_end in *. lia.
    - pose proof (ordered_disjoint _ _ _ _ _ _ _ Ho Hi Hj ltac:(lia)). unfold ub_end in *. lia. }
  split.
  - apply list_find_Some. split_and!; try done. intros j e Hj Hji. by apply (Hne j); [|lia].
  - intros e. split.
    + rewrite elem_of_app. intros [He|He].
      * split; [by eapply elem_of_take in He as (j & ? & _); eapply list_elem_of_lookup_2|].
        apply elem_of_take in He as (j & Hj & ?). by apply (Hne j); [|lia].
      * apply list_elem_of_lookup in He as [j Hj]. rewrite lookup_drop in Hj.
        split; [by eapply list_elem_of_lookup_2|]. by apply (Hne (S i + j)%nat); [|lia].
    + rewrite <-(take_drop_middle _ _ _ Hi) at 1. intros [He Hned].
      apply elem_of_app in He as [?|[?|?]%elem_of_cons]; [set_solver|done|set_solver].
Qed.

(** What a call has to know of the memory it works on. *)
Definition space_ok s l (R : list Z) : Prop := uh_inv s l /\ umem l.*2 R (mem s).

Lemma alloc_space s l R oc size r s' :
  space_ok s l R -> 0 < size < 2 ^ 63 -> k_sys_alloc_user oc size s = Some (r, s') ->
  (r = ALLOC_FAILED /\ exists l', space_ok s' l' R /\ l'.*2 = l.*2 /\ mem s' = mem s /\
     Forall (fun d => free_for (pages_for size) d = false) l.*2 /\
     USER_HEAP_LIMIT < user_heap_cur s + pages_for size * 4096) \/
  exists l' F lo ok, space_ok s' l' (F ++ R) /\
    placed (room (kh s)) (owner_of oc) (pages_for size) l.*2 (mem s) r l'.*2 (mem s') lo ok /\
    mapped_run R lo (pages_for size) ok F (mem s) (mem s').
Proof.
  intros [Hinv Hum] Hsize Hrun.
  pose proof (alloc_refines_aux s l oc size Hinv (wf_machine _ _ (um_wf _ _ _ Hum))) as Hr.
  unfold spec_alloc_call in Hr. rewrite (proj2 (Z.eqb_neq size 0)) in Hr by lia.
  destruct (spec_alloc _ _ _ _) as [[r0 [[l0 cur0] v0]]|] eqn:Es; [|congruence].
  destruct Hr as (s1 & l' & E & Hinv' & Habs). rewrite Hrun in E. injection E as <- <-.
  unfold abs in Habs, Es. injection Habs as <- <- <-.
  destruct Hinv as [Hrep Ho Hl Ha].
  destruct (spec_alloc_placed _ _ _ _ _ _ _ _ _ _ Ho Hl Ha Hsize Es)
    as [(-> & El & Em & Hall & Hlim)|(lo & ok & Hpl)]; [left|right].
  - split; [done|]. exists l'. split_and!; try done. split; [done|]. by rewrite El, Em.
  - pose proof Hpl as [Hmap Hres (Hal & Hlo & Hhi) Hdis Hs Hk Hadd].
    pose proof (pages_for_pos size) as Hn.
    destruct (umem_map l.*2 l'.*2 R (mem s) lo (pages_for size) ok (mem s') Hum Hal Hlo ltac:(lia) Hhi Hmap)
      as (F & HF & Hum').
    { intros d Hd Hf. destruct (Hs d (conj Hd Hf)) as [[? _]|[? ->]]; [by left|by right]. }
    exists l', F, lo, ok. split; [by split|]. done.
Qed.

Lemma free_space s l R ptr :
  space_ok s l R ->
  exists s' l' R', k_sys_free_user ptr s = Some s' /\ space_ok s' l' R' /\
    ((s' = s /\ R' = R /\ forall d, allocated l.*2 d -> ub_base d <> ptr) \/
     exists d, allocated l.*2 d /\ ub_base d = ptr /\
       (forall e, allocated l'.*2 e <-> allocated l.*2 e /\ e <> d) /\
       let F := block_frames ptr (Z.to_nat (ub_npages d)) (mem s) in
       R ≡ₚ F ++ R' /\ frames_at ptr F (mem s) /\ unmapped_run R' ptr F (mem s) (mem s')).
Proof.
  intros [Hinv Hum]. destruct (free_refines_aux s l ptr Hinv) as (s' & l' & E & Hinv' & Habs).
  destruct (list_find (fun d => ub_base d = ptr) l.*2) as [[i d]|] eqn:Ef.
  2:{ assert (Hs : s' = s).
      { unfold k_sys_free_user in E.
        destruct (find_base s l ptr (uh_rep _ _ Hinv)) as [[Hall Hf]|(l1 & b & d & l2 & -> & Hd & _)].
        - rewrite Hf in E. simpl in E. by case_match; injection E as <-.
        - apply list_find_None in Ef. rewrite Forall_forall in Ef. by destruct (Ef d ltac:(in_mid)). }
      exists s', l, R. subst s'. split_and!; try done; left. split_and!; try done.
      intros d [Hd _] Hb. apply list_find_None in Ef. rewrite Forall_forall in Ef. by apply (Ef d). }
  pose proof Ef as (Hi & Hd & _)%list_find_Some. pose proof (list_elem_of_lookup_2 _ _ _ Hi) as Hin.
  destruct (uh_block _ _ _ Hinv Hin) as (Hlo & Hhi & Hal & Hnp).
  destruct (ub_free d) eqn:Hfree.
  { assert (Hs : s' = s).
    { unfold k_sys_free_user in E. case_match; [by injection E|].
      destruct (find_base s l ptr (uh_rep _ _ Hinv)) as [[_ Hf]|(l1 & b & e & l2 & -> & He & Hb & Hf)].
      - rewrite Hf in E. by injection E.
      - rewrite Hf in E. simpl in E. rewrite (proj2 (Z.eqb_neq b 0)) in E by lia.
        rewrite (rep_lookup _ _ _ _ _ (uh_rep _ _ Hinv)) in E. simpl in E.
        assert (e = d) as ->; [|rewrite Hfree in E; by injection E].
        pose proof (uh_ordered _ _ Hinv) as Ho.
        destruct (find_base_ordered _ _ _ e Ho ltac:(in_mid)) as (j & Hj & Hfj & _).
        rewrite He, Ef in Hfj. congruence. }
    exists s', l, R. subst s'. split_and!; try done; left. split_and!; try done.
    intros e [He Hfe] Hb. destruct (find_base_ordered _ _ _ e (uh_ordered _ _ Hinv) He) as (j & Hj & Hfj & _).
    rewrite Hb, Ef in Hfj. congruence. }
  destruct (find_base_ordered _ _ _ d (uh_ordered _ _ Hinv) Hin) as (j & Hj & Hfj & Hiff).
  rewrite Hd, Ef in Hfj. injection Hfj as <-.
  destruct (spec_free_live ptr l.*2 (user_heap_cur s) (mem s) d i Hi Ef Hfree) as (l0 & Es & Hl0).
  unfold abs in Habs. rewrite Es in Habs. injection Habs as El Ec Em. rewrite <-El in Hl0. clear l0 El Es.
  assert (Hall : forall e, allocated l'.*2 e <-> allocated l.*2 e /\ e <> d).
  { intros e. rewrite Hl0. unfold allocated. rewrite Hiff. tauto. }
  subst ptr. set (n := Z.to_nat (ub_npages d)) in *.
  assert (Hn : Z.of_nat n = ub_npages d) by (unfold n; lia). unfold ub_end in *.
  destruct (umem_unmap l.*2 l'.*2 R (mem s) (ub_base d) n Hum Hal Hlo ltac:(lia)) as (R' & HR & Hfr & Hrun & Hum').
  { intros a Ha Hr. eapply (um_live _ _ _ Hum d); try done. unfold ub_end. lia. }
  { intros e He Hfe. destruct (proj1 (Hall e) (conj He Hfe)) as [[Hel _] Hne]. split; [done|].
    apply list_elem_of_lookup in Hel as [k Hk]. unfold disjoint_range.
    pose proof (uh_ordered _ _ Hinv) as Ho. destruct (decide (k < i)%nat).
    - pose proof (ordered_disjoint _ _ _ _ _ _ _ Ho Hk Hi ltac:(done)). unfold ub_end in *. lia.
    - assert (k <> i) by congruence.
      pose proof (ordered_disjoint _ _ _ _ _ _ _ Ho Hi Hk ltac:(lia)). unfold ub_end in *. lia. }
  exists s', l', R'. rewrite Em. split; [done|]. split; [split; [done|by rewrite Em]|right]. exists d. split_and!; try done.
Qed.
End Theorems.
