(* ===== verification/UserHeapProps.v ===== *)
(** The properties of the user heap: the calls refine an allocator on a list of
    blocks; in one address space every allocated page has a frame of its own,
    cleared, which free gives back; when alloc succeeds; the defects. *)
From Stdlib Require Import ZArith Lia.
From stdpp Require Import base numbers list gmap.
From S2P Require Import Prelude HeapIface Kheap KheapSpec KheapProps Vmm VmmSpec VmmProps VmmFrame UserSpace UserHeap UserHeapSpec.
From S2P Require Import UserHeapSpec UserHeapMap UserHeapOps UserHeapSpace.

(** ** Calls *)

Inductive heap_call :=
  | CAlloc (oc : option Z) (size : Z)
  | CFree (ptr : Z).

Definition run_call {H} `{!KernelHeap H} (c : heap_call) (s : uheap H) : option (Z * uheap H) :=
  match c with
  | CAlloc oc size => k_sys_alloc_user oc size s
  | CFree ptr => s ← k_sys_free_user ptr s; Some (0, s)
  end.

Fixpoint run_calls {H} `{!KernelHeap H} (cs : list heap_call) (s : uheap H) : option (uheap H) :=
  match cs with
  | [] => Some s
  | c :: cs => '(_, s) ← run_call c s; run_calls cs s
  end.

Definition spec_call (room : bool) (c : heap_call) (a : astate) : option (Z * astate) :=
  match c with
  | CAlloc oc size => spec_alloc_call room (owner_of oc) size a
  | CFree ptr => Some (0, spec_free ptr a)
  end.

(** Sizes for which the rounding to pages does not wrap around. *)
Definition call_ok (c : heap_call) : Prop :=
  match c with CAlloc _ size => 0 <= size < 2 ^ 63 | CFree _ => True end.

(** ** A concrete allocator for the witnesses *)

#[local] Instance the_heap : KernelHeap kheap := kheap_KernelHeap 2097152 1 0.
#[local] Instance the_heap_spec : KernelHeapSpec kheap := kheap_KernelHeapSpec 2097152 1 0.

(** An address space without user pages. *)
Lemma empty_umem v :
  wf v -> (forall a, USER_HEAP_BASE <= a < USER_HEAP_LIMIT -> vmm_get_phys a v = 0) -> umem [] [] v.
Proof.
  intros Hwf Hz. split; [by apply window_empty|]. intros d a Hd. by apply elem_of_nil in Hd.
Qed.

Lemma boot_inv {H} `{!KernelHeap H} v (h : H) : heap_ok h -> uh_inv (user_heap_boot v h) [].
Proof.
  intros Hh. split; [|done..]. split; cbn; try done; [by apply NoDup_nil|].
  intros a Ha. by apply elem_of_nil in Ha.
Qed.

Definition booted : uheap kheap := user_heap_boot user_space kheap_boot.

Lemma booted_inv : uh_inv booted [].
Proof.
  apply boot_inv. apply kheap_boot_ok.
Qed.

Lemma booted_space : space_ok booted [] [].
Proof.
  split; [apply booted_inv|]. apply empty_umem; [apply user_space_wf|]. intros a _. apply user_space_empty.
Qed.

(** The state after one allocation of 5000 bytes by task 7. *)
Definition one_block : uheap kheap := default booted (snd <$> k_sys_alloc_user (Some 7) 5000 booted).

Lemma one_block_eq : k_sys_alloc_user (Some 7) 5000 booted = Some (0x20000000, one_block).
Proof.
  assert (E : fst <$> k_sys_alloc_user (Some 7) 5000 booted = Some 0x20000000) by (vm_compute; reflexivity).
  unfold one_block. destruct (k_sys_alloc_user (Some 7) 5000 booted) as [[r s]|]; [|done].
  by injection E as ->.
Qed.

Lemma Some_pair {A B} (a c : A) (b d : B) : Some (a, b) = Some (c, d) -> a = c /\ b = d.
Proof. by intros [= -> ->]. Qed.

Section Theorems.
Context {H : Type} `{!KernelHeap H, !KernelHeapSpec H}.
Implicit Types (s : uheap H) (l : list (Z * ublk)).

(** ** Refinement *)

(** C4. The calls refine an allocator on a list of blocks: a call on the doubly
    linked descriptors returns what [spec_call] returns on the list they stand
    for, leaves descriptors that stand for the list [spec_call] leaves, still
    linked both ways, in ascending order and without overlap, and faults only
    where [spec_call] does.  Of the kernel heap only matters whether it has
    room for a descriptor. *)
Theorem user_heap_refines s l c :
  uh_inv s l -> machine_mem (mem s) ->
  match spec_call (room (kh s)) c (abs s l) with
  | None => run_call c s = None
  | Some (r, a) => exists s' l', run_call c s = Some (r, s') /\ uh_inv s' l' /\ abs s' l' = a
  end.
Proof.
  intros Hinv Hm. destruct c as [oc size|ptr]; [by apply alloc_refines_aux|].
  destruct (free_refines_aux s l ptr Hinv) as (s' & l' & E & Hinv' & Habs).
  exists s', l'. simpl. by rewrite E.
Qed.

(** ** Allocation *)

(** C5. A successful allocation: the address is page aligned and inside the
    heap's window, the range holds the size asked for and overlaps no allocated
    block, its pages are mapped in order to as many distinct frames that were
    free and are cleared, nothing else in the address space moves, and the
    invariant of the address space holds again with these frames handed out;
    the block is recorded with its owner unless the kernel heap was full. *)
Theorem k_sys_alloc_user_maps s l R oc size r s' :
  space_ok s l R -> 0 < size < 2 ^ 63 -> k_sys_alloc_user oc size s = Some (r, s') -> r <> ALLOC_FAILED ->
  let n := pages_for size in
  exists l' F, space_ok s' l' (F ++ R) /\
    r mod 4096 = 0 /\ USER_HEAP_BASE <= r /\ r + n * 4096 <= USER_HEAP_LIMIT /\ size <= n * 4096 /\
    (forall d, allocated l.*2 d -> disjoint_range r (n * 4096) (ub_base d) (ub_npages d * 4096)) /\
    Z.of_nat (length F) = n /\ Forall (fun f => f ∈ free_pages_stack (mem s)) F /\
    Forall (fun f => pages (mem s') !! f = Some zero_page) F /\ frames_at r F (mem s') /\
    (forall v, 0 <= v < 2 ^ 48 -> ~ (r <= v < r + n * 4096) ->
       vmm_get_phys v (mem s') = vmm_get_phys v (mem s)) /\
    (room (kh s) = true -> forall d, allocated l'.*2 d <->
       allocated l.*2 d \/ d = Ublk r n false (owner_of oc)).
Proof.
  intros Hsp Hsize Hrun Hr n. pose proof (pages_for_enough size ltac:(lia)) as Hn. fold n in Hn.
  destruct (alloc_space s l R oc size r s' Hsp Hsize Hrun)
    as [[-> _]|(l' & F & lo & ok & Hsp' & [Hmap Hres (Hal & Hlo & Hhi) Hdis Hs Hk Hadd] & HF)]; [done|].
  destruct ok; [|done]. subst lo. destruct HF as [_ _ Hfree Hz Hfr Hother Hdone]. fold n in Hdone.
  unfold npages_of in *. exists l', F. split_and!; try done; [lia| |].
  - intros v Hv Hne. apply Hother; [done|]. by rewrite Hdone.
  - intros Hroom d. split.
    + intros Hd. destruct (Hs d Hd) as [?|[_ ->]]; [by left|by right].
    + intros [?| ->]; [by apply Hk|by apply Hadd].
Qed.

(** A failed allocation: [k_sys_alloc_user] refuses a request only when
    every free block is too small and the window is used up, or when physical
    memory is exhausted; the allocated blocks stay as they are.  In the second
    case the pages mapped before the failure stay mapped: all free frames of the
    machine are gone, and no block records those in [F]. *)
Theorem k_sys_alloc_user_fails s l R oc size s' :
  space_ok s l R -> 0 < size < 2 ^ 63 -> k_sys_alloc_user oc size s = Some (ALLOC_FAILED, s') ->
  (exists l', space_ok s' l' R /\ l'.*2 = l.*2 /\ mem s' = mem s /\
     Forall (fun d => free_for (pages_for size) d = false) l.*2 /\
     USER_HEAP_LIMIT < user_heap_cur s + pages_for size * 4096) \/
  (exists l' F, space_ok s' l' (F ++ R) /\ free_pages_stack (mem s') = [] /\
     Z.of_nat (length F) < pages_for size /\
     (forall d, allocated l'.*2 d <-> allocated l.*2 d)).
Proof.
  intros Hsp Hsize Hrun.
  destruct (alloc_space s l R oc size _ s' Hsp Hsize Hrun)
    as [[_ ?]|(l' & F & lo & ok & Hsp' & [Hmap Hres (Hal & Hlo & Hhi) Hdis Hs Hk Hadd] & HF)]; [by left|right].
  destruct ok.
  { unfold ALLOC_FAILED, USER_HEAP_LIMIT, USER_HEAP_BASE in *.
    pose proof (pages_for_pos size). lia. }
  destruct (mr_done _ _ _ _ _ _ _ HF) as [Hlen Hnil]. exists l', F. split_and!; try done.
  intros d. split; [|apply Hk]. intros Hd. by destruct (Hs d Hd) as [?|[? _]].
Qed.

(** ** Freeing *)

(** Free: the frames behind a block go back to the stack of free pages, its
    addresses are unmapped, every other address keeps its translation, the
    other allocated blocks stay, and the invariant holds without these frames.
    An address that is not the base of an allocated block changes nothing. *)
Theorem k_sys_free_user_returns s l R ptr :
  space_ok s l R ->
  exists s' l' R', k_sys_free_user ptr s = Some s' /\ space_ok s' l' R' /\
    ((s' = s /\ forall d, allocated l.*2 d -> ub_base d <> ptr) \/
     exists d F, allocated l.*2 d /\ ub_base d = ptr /\
       (forall e, allocated l'.*2 e <-> allocated l.*2 e /\ e <> d) /\
       Z.of_nat (length F) = ub_npages d /\ frames_at ptr F (mem s) /\ R ≡ₚ F ++ R' /\
       free_pages_stack (mem s') = reverse F ++ free_pages_stack (mem s) /\
       forall v, 0 <= v < 2 ^ 48 -> vmm_get_phys v (mem s') =
         if decide (ptr <= v < ptr + ub_npages d * 4096) then 0 else vmm_get_phys v (mem s)).
Proof.
  intros Hsp. destruct (free_space s l R ptr Hsp) as (s' & l' & R' & E & Hsp' & Hcase).
  exists s', l', R'. split; [done|]. split; [done|].
  destruct Hcase as [(-> & _ & Hno)|(d & Hd & Hb & Hiff & HR & Hfr & [Hwf _ Hfree _ _ Hx])]; [by left|right].
  destruct (uh_block _ _ d (proj1 Hsp) (proj1 Hd)) as (_ & _ & _ & Hnp).
  assert (Hlen : Z.of_nat (length (block_frames ptr (Z.to_nat (ub_npages d)) (mem s))) = ub_npages d).
  { unfold block_frames. rewrite length_fmap, length_seq. lia. }
  exists d, (block_frames ptr (Z.to_nat (ub_npages d)) (mem s)). split_and!; try done.
  intros v Hv. rewrite Hx by done. unfold npages_of. by rewrite Hlen.
Qed.

(** ** Runs *)

Lemma run_call_space s l R c r s' :
  space_ok s l R -> call_ok c -> run_call c s = Some (r, s') -> exists l' R', space_ok s' l' R'.
Proof.
  intros Hsp Hc Hrun. destruct c as [oc size|ptr]; simpl in *.
  - destruct (decide (size = 0)) as [->|Hnz].
    { unfold k_sys_alloc_user in Hrun. simpl in Hrun. injection Hrun as _ <-. eauto. }
    destruct (alloc_space s l R oc size r s' Hsp ltac:(lia) Hrun)
      as [(_ & l' & ? & _)|(l' & F & lo & ok & ? & _)]; eauto.
  - destruct (free_space s l R ptr Hsp) as (s1 & l' & R' & E & Hsp' & _). rewrite E in Hrun.
    injection Hrun as _ <-. eauto.
Qed.

(** C6. The heap in use: after any calls in one address space, failed ones
    included, two pages of allocated blocks, of one or of two blocks, never
    share a frame; no such frame is free or a page table; blocks do not
    overlap and stay in the window. *)
Theorem user_heap_runs cs h v s :
  heap_ok h -> wf v -> (forall a, USER_HEAP_BASE <= a < USER_HEAP_LIMIT -> vmm_get_phys a v = 0) ->
  Forall call_ok cs -> run_calls cs (user_heap_boot v h) = Some s ->
  exists l, uh_inv s l /\ wf (mem s) /\
    forall d a, allocated l.*2 d -> heap_page a -> ub_base d <= a < ub_end d ->
      let f := vmm_get_phys a (mem s) in
      f <> 0 /\ f ∉ free_pages_stack (mem s) /\ (forall q t, table_at (mem s) q = Some t -> t <> f) /\
      (forall o, 0 <= o < 4096 -> vmm_get_phys (a + o) (mem s) = f + o) /\
      (forall e b, allocated l.*2 e -> heap_page b -> ub_base e <= b < ub_end e ->
         vmm_get_phys b (mem s) = f -> b = a /\ e = d).
Proof.
  intros Hh Hwf Hz Hcs Hrun.
  assert (Hend : exists l R, space_ok s l R).
  { assert (Hboot : space_ok (user_heap_boot v h) [] []).
    { split; [by apply boot_inv|by apply empty_umem]. }
    revert Hboot Hrun. generalize (user_heap_boot v h) as s0, (@nil (Z * ublk)) as l0, (@nil Z) as R0.
    induction Hcs as [|c cs Hc _ IH]; intros s0 l0 R0 Hsp Hrun; simpl in Hrun; [simplify_eq; eauto|].
    destruct (run_call c s0) as [[r s1]|] eqn:E; [|done].
    destruct (run_call_space s0 l0 R0 c r s1 Hsp Hc E) as (l1 & R1 & Hsp1). by apply (IH s1 l1 R1). }
  destruct Hend as (l & R & Hinv & Hum). exists l. split; [done|]. pose proof Hum as [[HwfR Htame Hpg Hinj _] Hlive].
  split; [by eapply wf_unreserve|]. intros d a [Hd Hf] Ha Hr f.
  assert (Hnz : f <> 0) by (by apply (Hlive d)). destruct (Hpg a Ha Hnz) as [HinR Hoff].
  destruct (reserved_pages _ _ HwfR) as (_ & _ & Hnf & Hnt). split_and!; try done.
  - by apply Hnf.
  - intros q t. by apply Hnt.
  - intros e b [He Hfe] Hb Hrb Heq. assert (b = a) as -> by (symmetry; by apply Hinj). split; [done|].
    destruct (decide (e = d)) as [|Hne]; [done|exfalso].
    apply list_elem_of_lookup in Hd as [i Hi]. apply list_elem_of_lookup in He as [j Hj].
    pose proof (uh_ordered _ _ Hinv) as Ho. destruct (decide (i < j)%nat).
    + pose proof (ordered_disjoint _ _ _ _ _ _ _ Ho Hi Hj ltac:(done)). lia.
    + assert (i <> j) by congruence. pose proof (ordered_disjoint _ _ _ _ _ _ _ Ho Hj Hi ltac:(lia)). lia.
Qed.

(** ** Requests that must succeed, and requests that must not *)

(** Allocation succeeds: six free pages for each page asked for (the page
    itself and at most five tables) and a free block that is large enough, or
    room in the window, and the call returns an address. *)
Theorem k_sys_alloc_user_succeeds s l R oc size :
  space_ok s l R -> 0 < size < 2 ^ 63 ->
  6 * pages_for size <= Z.of_nat (length (free_pages_stack (mem s))) ->
  Exists (fun d => free_for (pages_for size) d = true) l.*2 \/
    user_heap_cur s + pages_for size * 4096 <= USER_HEAP_LIMIT ->
  exists r s', k_sys_alloc_user oc size s = Some (r, s') /\ r <> ALLOC_FAILED.
Proof.
  intros [Hinv Hum] Hsize Hpages Hroom. pose proof (pages_for_pos size) as Hn.
  pose proof (pages_for_enough size ltac:(lia)) as Hns. pose proof (uh_cur _ _ Hinv) as Hcur.
  assert (Hmap : forall lo, lo mod 4096 = 0 -> USER_HEAP_BASE <= lo ->
    lo + pages_for size * 4096 <= USER_HEAP_LIMIT ->
    exists v, user_map_pages lo (pages_for size) (mem s) = Some (true, v)).
  { intros lo Hal Hlo Hhi. unfold USER_HEAP_LIMIT, USER_HEAP_BASE in *.
    destruct (map_pages_enough (S (length (free_pages_stack (mem s)))) 0 lo (pages_for size) R (mem s)) as (v & E & _);
      try done; try lia; [by eapply um_wf| |by exists v].
    eapply tame_sub; [apply (wd_tame _ _ _ _ (um_win _ _ _ Hum))|unfold USER_HEAP_BASE; lia|unfold USER_HEAP_LIMIT, USER_HEAP_BASE; lia]. }
  pose proof (alloc_refines_aux s l oc size Hinv (wf_machine _ _ (um_wf _ _ _ Hum))) as Hr.
  unfold spec_alloc_call in Hr. rewrite (proj2 (Z.eqb_neq size 0)) in Hr by lia.
  cbn [spec_alloc abs] in Hr.
  destruct (list_find (fun d => free_for (pages_for size) d = true) l.*2) as [[i d]|] eqn:Ef.
  - apply list_find_Some in Ef as (Hi & Hfit & _). apply andb_prop in Hfit as [_ Hle%Z.leb_le].
    destruct (uh_block _ _ d Hinv (list_elem_of_lookup_2 _ _ _ Hi)) as (H1 & H2 & H3 & H4). unfold ub_end in H2.
    destruct (Hmap (ub_base d) H3 H1 ltac:(lia)) as [v Hv]. rewrite Hv in Hr. cbn [mbind option_bind] in Hr.
    destruct Hr as (s' & l' & E & _). exists (ub_base d), s'. split; [done|].
    unfold ALLOC_FAILED, USER_HEAP_LIMIT, USER_HEAP_BASE in *. lia.
  - assert (Hfit : user_heap_cur s + pages_for size * 4096 <= USER_HEAP_LIMIT).
    { destruct Hroom as [Hex|?]; [exfalso|done]. apply list_find_None in Ef.
      apply Exists_exists in Hex as (d & Hd & Hfd). rewrite Forall_forall in Ef. by apply (Ef d). }
    destruct (Hmap (user_heap_cur s) (uh_aligned _ _ Hinv) (proj1 Hcur) Hfit) as [v Hv].
    unfold USER_HEAP_LIMIT, USER_HEAP_BASE in *.
    rewrite (wrap_small 64 (pages_for size * 4096)) in Hr by lia.
    rewrite (wrap_small 64 (user_heap_cur s + _)) in Hr by lia.
    rewrite (proj2 (Z.ltb_ge _ _)), Hv in Hr by lia. cbn [mbind option_bind] in Hr.
    destruct Hr as (s' & l' & E & _). exists (user_heap_cur s), s'. split; [done|].
    unfold ALLOC_FAILED. lia.
Qed.

(** A size within 4095 of 2^64 is rounded to one page. *)
Lemma pages_for_wraps size : 2 ^ 64 - 4095 <= size < 2 ^ 64 -> pages_for size = 1.
Proof.
  intros Hs. unfold pages_for. replace (u64 (size + 4095)) with (size + 4095 - 2 ^ 64).
  - by replace ((size + 4095 - 2 ^ 64) / 4096) with 0 by zify_div.
  - unfold wrap. zify_div.
Qed.

(** A request that drains the machine: when the end of the block passes
    2^64 the test against the window's limit wraps around and passes; the call
    then maps pages until none is left, and if it comes back at all it returns
    -1 with every free page of the machine taken and no block to give back. *)
Theorem k_sys_alloc_user_wraps s l oc size r s' :
  uh_inv s l -> wf (mem s) -> 0 < size < 2 ^ 64 ->
  2 ^ 64 <= user_heap_cur s + pages_for size * 4096 ->
  k_sys_alloc_user oc size s = Some (r, s') ->
  r = ALLOC_FAILED /\ free_pages_stack (mem s') = [] /\ exists l', uh_inv s' l' /\ l'.*2 = l.*2.
Proof.
  intros Hinv Hwf Hsize Hwrap Hrun. pose proof (pages_for_pos size) as Hn.
  pose proof (uh_cur _ _ Hinv) as Hcur. unfold USER_HEAP_LIMIT, USER_HEAP_BASE in Hcur.
  pose proof (wf_machine [] (mem s) ltac:(by rewrite reserve_nil)) as Hmm.
  pose proof (alloc_refines_aux s l oc size Hinv Hmm) as Hr. unfold spec_alloc_call in Hr.
  rewrite (proj2 (Z.eqb_neq size 0)) in Hr by lia. cbn [spec_alloc abs] in Hr.
  rewrite (proj2 (list_find_None _ _)) in Hr.
  2:{ apply Forall_forall. intros d Hd Hfit. apply andb_prop in Hfit as [_ Hle%Z.leb_le].
      destruct (uh_block _ _ d Hinv Hd) as (H1 & H2 & _ & _).
      unfold ub_end, USER_HEAP_LIMIT, USER_HEAP_BASE in *. lia. }
  rewrite (proj2 (Z.ltb_ge _ _)) in Hr.
  2:{ rewrite (wrap_small 64 (pages_for size * 4096)) by lia. unfold wrap, USER_HEAP_LIMIT, USER_HEAP_BASE. zify_div. }
  destruct (user_map_pages (user_heap_cur s) (pages_for size) (mem s)) as [[[] v]|] eqn:Em;
    cbn [mbind option_bind] in Hr; [| |congruence].
  { pose proof (map_pages_success_takes _ _ _ _ _ _ (mm_stack _ Hmm) Em). destruct Hmm. lia. }
  destruct Hr as (s1 & l' & E & Hinv' & Habs). rewrite Hrun in E. injection E as -> ->.
  unfold abs in Habs. injection Habs as El _ Emem. split; [done|]. split; [|by exists l'].
  rewrite Emem. eapply map_pages_failure; [exact (mm_stack _ Hmm)|exact Em|].
  destruct (wf_stack _ Hwf) as [_ Hok]. eapply Forall_impl; [exact Hok|]. intros p [? _]. lia.
Qed.

Lemma unmap_pages_absent n p lo v :
  (forall i, (i < n)%nat -> present (pml4e (u64 (lo + (p + Z.of_nat i) * 4096)) v) = false) ->
  unmap_pages_loop n p lo v = v.
Proof.
  revert p. induction n as [|n IH]; intros p Hp; [done|]. simpl.
  pose proof (Hp 0%nat ltac:(lia)) as H0. rewrite Z.add_0_r in H0.
  assert (E1 : vmm_unmap (u64 (lo + p * 4096)) v = v) by (by rewrite vmm_unmap_eq, H0).
  assert (E2 : vmm_get_phys (u64 (lo + p * 4096)) v = 0).
  { unfold vmm_get_phys. unfold pml4e in H0. by rewrite H0. }
  rewrite E1, E2. simpl. apply IH. intros i Hi.
  replace (p + 1 + Z.of_nat i) with (p + Z.of_nat (S i)) by lia. apply Hp. lia.
Qed.

(** Free does not ask who owns the block: from an address space in which the
    window is not mapped, any task can free a block of another one.  The block
    is recorded as free, and not one of its frames goes back. *)
Theorem k_sys_free_user_other_space s l d :
  uh_inv s l -> allocated l.*2 d ->
  (forall a, USER_HEAP_BASE <= a < USER_HEAP_LIMIT -> present (pml4e a (mem s)) = false) ->
  exists s' l', k_sys_free_user (ub_base d) s = Some s' /\ uh_inv s' l' /\ mem s' = mem s /\
    forall e, allocated l'.*2 e <-> allocated l.*2 e /\ e <> d.
Proof.
  intros Hinv [Hd Hf] Habsent. destruct (free_refines_aux s l (ub_base d) Hinv) as (s' & l' & E & Hinv' & Habs).
  destruct (find_base_ordered _ _ _ d (uh_ordered _ _ Hinv) Hd) as (i & Hi & Hfi & Hiff).
  destruct (spec_free_live (ub_base d) l.*2 (user_heap_cur s) (mem s) d i Hi Hfi Hf) as (l0 & Es & Hl0).
  unfold abs in Habs. rewrite Es in Habs. injection Habs as El _ Em. exists s', l'.
  split; [done|]. split; [done|]. split.
  - rewrite Em. apply unmap_pages_absent. intros j Hj.
    destruct (uh_block _ _ d Hinv Hd) as (H1 & H2 & _ & H4).
    unfold ub_end, USER_HEAP_LIMIT, USER_HEAP_BASE in *. rewrite wrap_small by lia. apply Habsent. lia.
  - intros e. rewrite El, Hl0. unfold allocated. rewrite Hiff. tauto.
Qed.
End Theorems.

(** ** The theorems at concrete states *)

Lemma booted_machine : machine_mem (mem booted).
Proof. apply (wf_machine []). rewrite reserve_nil. apply user_space_wf. Qed.

Lemma user_heap_refines_witness :
  exists l, uh_inv one_block l /\ l.*2 = [Ublk 0x20000000 2 false 7].
Proof.
  pose proof (user_heap_refines booted [] (CAlloc (Some 7) 5000) booted_inv booted_machine) as Hr.
  assert (E : (fun x => x.2.1.1) <$> spec_call (room (kh booted)) (CAlloc (Some 7) 5000) (abs booted []) =
    Some [Ublk 0x20000000 2 false 7]) by (vm_compute; reflexivity).
  destruct (spec_call _ _ _) as [[r a]|]; [|discriminate E].
  destruct Hr as (s' & l' & E' & Hinv & Habs). simpl in E'. rewrite one_block_eq in E'.
  apply Some_pair in E' as [_ E']. rewrite <-E', <-Habs in *.
  exists l'. split; [exact Hinv|]. by injection E.
Defined.

Lemma k_sys_alloc_user_maps_witness :
  exists l F, space_ok one_block l F /\ length F = 2%nat /\ frames_at 0x20000000 F (mem one_block).
Proof.
  destruct (k_sys_alloc_user_maps booted [] [] (Some 7) 5000 _ _ booted_space ltac:(lia) one_block_eq)
    as (l & F & Hsp & _ & _ & _ & _ & _ & Hlen & _ & _ & Hfr & _); [discriminate|].
  rewrite app_nil_r in Hsp. exists l, F. split; [exact Hsp|]. split; [|exact Hfr].
  replace (pages_for 5000) with 2 in Hlen by reflexivity. lia.
Defined.

Lemma one_block_space :
  exists l R, space_ok one_block l R /\ allocated l.*2 (Ublk 0x20000000 2 false 7).
Proof.
  destruct (alloc_space booted [] [] (Some 7) 5000 _ _ booted_space ltac:(lia) one_block_eq)
    as [[Hr _]|(l & F & lo & ok & Hsp & [_ Hres _ _ _ _ Hadd] & _)]; [discriminate Hr|].
  exists l, (F ++ []). split; [exact Hsp|]. destruct ok; [|discriminate Hres]. subst lo.
  apply Hadd; [reflexivity|vm_compute; reflexivity].
Qed.

Lemma k_sys_alloc_user_fails_witness :
  exists s', k_sys_alloc_user None (100 * 4096) booted = Some (ALLOC_FAILED, s') /\
    free_pages_stack (mem s') = [].
Proof.
  assert (E : (fun x => (x.1, free_pages_stack (mem x.2))) <$> k_sys_alloc_user None (100 * 4096) booted
    = Some (ALLOC_FAILED, [])) by (vm_compute; reflexivity).
  destruct (k_sys_alloc_user None (100 * 4096) booted) as [[r s']|] eqn:Er; [|discriminate E].
  apply Some_pair in E as [E1 E2]. cbn [fst] in E1. subst r. exists s'. split; [reflexivity|].
  destruct (k_sys_alloc_user_fails booted [] [] None (100 * 4096) s' booted_space ltac:(lia) Er)
    as [(l' & _ & _ & _ & _ & Hlim)|(l' & F & _ & Hnil & _)]; [|exact Hnil].
  vm_compute in Hlim. discriminate Hlim.
Defined.

Lemma k_sys_free_user_returns_witness :
  exists s' F, k_sys_free_user 0x20000000 one_block = Some s' /\ length F = 2%nat /\
    free_pages_stack (mem s') = reverse F ++ free_pages_stack (mem one_block).
Proof.
  destruct one_block_space as (l & R & Hsp & Hd).
  destruct (k_sys_free_user_returns one_block l R 0x20000000 Hsp)
    as (s' & l' & R' & E & _ & [[_ Hno]|(d & F & Hd' & Hb & _ & Hlen & _ & _ & Hfree & _)]).
  { by destruct (Hno _ Hd). }
  exists s', F. split; [exact E|]. split; [|exact Hfree].
  destruct (find_base_ordered _ _ _ _ (uh_ordered _ _ (proj1 Hsp)) (proj1 Hd)) as (i & _ & Hfi & _).
  destruct (find_base_ordered _ _ _ _ (uh_ordered _ _ (proj1 Hsp)) (proj1 Hd')) as (j & _ & Hfj & _).
  rewrite Hb in Hfj. cbn [ub_base] in Hfi. rewrite Hfi in Hfj.
  assert (Ed : Ublk 0x20000000 2 false 7 = d) by congruence. rewrite <-Ed in Hlen. cbn [ub_npages] in Hlen. lia.
Defined.

Definition sample_calls : list heap_call :=
  [CAlloc (Some 7) 5000; CAlloc (Some 7) 1; CFree 0x20000000; CAlloc (Some 9) 3].

Lemma user_heap_runs_witness :
  exists s l, run_calls sample_calls booted = Some s /\ uh_inv s l /\ wf (mem s).
Proof.
  assert (E : (fun _ => true) <$> run_calls sample_calls booted = Some true) by (vm_compute; reflexivity).
  destruct (run_calls sample_calls booted) as [s|] eqn:Er; [|discriminate E].
  assert (Hc : Forall call_ok sample_calls) by (repeat (constructor; [simpl; lia|]); constructor).
  destruct (@user_heap_runs kheap the_heap the_heap_spec sample_calls kheap_boot user_space s
    (kheap_boot_ok 2097152) user_space_wf (fun a _ => user_space_empty a) Hc Er) as (l & Hinv & Hwf & _).
  exists s, l. split; [reflexivity|]. by split.
Defined.

Lemma k_sys_alloc_user_succeeds_witness :
  exists r s', k_sys_alloc_user None 8192 booted = Some (r, s') /\ r <> ALLOC_FAILED.
Proof.
  apply (k_sys_alloc_user_succeeds booted [] [] None 8192 booted_space); [lia| |right].
  - vm_compute. discriminate.
  - vm_compute. discriminate.
Defined.

Lemma k_sys_alloc_user_wraps_witness :
  exists s', k_sys_alloc_user None (2 ^ 64 - 0x20000000) booted = Some (ALLOC_FAILED, s') /\
    free_pages_stack (mem s') = [].
Proof.
  assert (E : (fun _ => true) <$> k_sys_alloc_user None (2 ^ 64 - 0x20000000) booted = Some true)
    by (vm_compute; reflexivity).
  destruct (k_sys_alloc_user None (2 ^ 64 - 0x20000000) booted) as [[r s']|] eqn:Er; [|discriminate E].
  destruct (k_sys_alloc_user_wraps booted [] None (2 ^ 64 - 0x20000000) r s' booted_inv user_space_wf
    ltac:(lia) ltac:(vm_compute; discriminate) Er) as (-> & Hnil & _).
  exists s'. by split.
Defined.

(** A second task, whose address space is empty, frees the block of the first. *)
Definition other_space : vm := Vm {[ 4096 := zero_page ]} [] 4096.

Lemma k_sys_free_user_other_space_witness :
  exists s', k_sys_free_user 0x20000000 (with_mem other_space one_block) = Some s' /\ mem s' = other_space.
Proof.
  destruct one_block_space as (l & R & [Hinv _] & Hd).
  destruct (k_sys_free_user_other_space (with_mem other_space one_block) l _
    (uh_inv_mem _ _ other_space Hinv) Hd) as (s' & l' & E & _ & Em & _).
  { intros a _. unfold pml4e, entry, other_space. cbn [mem with_mem pages cr3].
    rewrite lookup_singleton_eq. cbn [mbind option_bind]. by rewrite zero_page_lookup. }
  exists s'. split; [exact E|exact Em].
Defined.

(** * The exit of a task that owns blocks of the user heap:
    [user_heap_release_owner] of src/kernel/syscall.c. *)

(** A block the loop gives back. *)
Definition owned (own : Z) (d : ublk) : bool := negb (ub_free d) && (ub_owner d =? own).

Definition released (d : ublk) : ublk := Ublk (ub_base d) (ub_npages d) true 0.

Lemma released_update : blk_update (fun x => with_owner 0 (with_free_flag true x)) released.
Proof. done. Qed.

Section Exit.
Context {H : Type} `{!KernelHeap H, !KernelHeapSpec H}.
Implicit Types (s : uheap H) (l : list (Z * ublk)).

Lemma rep_pos s l a : rep s l -> a ∈ l.*1 -> (a =? 0) = false.
Proof. intros Hrep Ha. destruct (rep_live _ _ Hrep a Ha). by apply Z.eqb_neq; lia. Qed.

(** Blocks of others are passed over. *)
Lemma release_skip own k l l2 s fuel :
  rep s (k ++ l ++ l2) -> Forall (fun x => owned own x.2 = false) l ->
  release_loop (length l + fuel) own (hd_addr 0 (l ++ l2)) s = release_loop fuel own (hd_addr 0 l2) s.
Proof.
  revert k. induction l as [|[a d] l IH]; intros k Hrep Hall; [done|].
  apply Forall_cons in Hall as [Hd Hall]. cbn [app hd_addr length Nat.add release_loop].
  rewrite (rep_pos _ _ a Hrep) by in_mid. pose proof (rep_lookup _ _ _ _ _ Hrep) as Ha. rewrite Ha.
  cbn [mbind option_bind node free owner]. unfold owned in Hd. simpl in Hd. rewrite Hd. cbn [mbind option_bind].
  rewrite Ha. cbn [mbind option_bind node next].
  apply (IH (k ++ [(a, d)])); [|done]. by rewrite <-app_assoc.
Qed.

Lemma merge_next_gone b p s s' : blks s !! b = None -> merge_next p s = Some s' -> blks s' !! b = None.
Proof.
  intros Hb. unfold merge_next. destruct (blks s !! p) as [x|] eqn:Ep; [|done]. cbn [mbind option_bind].
  case_match; [by intros [= <-]|]. destruct (blks s !! next x) as [n|]; [|done]. cbn [mbind option_bind].
  case_match; intros [= <-]; [|done]. unfold absorb. cbn [blks with_kh with_blks].
  apply lookup_delete_None. right. assert (p <> b) by (intros ->; congruence).
  case_match; [|rewrite lookup_alter_None]; by rewrite lookup_insert_ne.
Qed.

(** A block whose predecessor is free and adjacent is merged into it: its
    descriptor is gone when the loop reads its link. *)
Lemma release_merged own p dp b db l1 l2 s fuel :
  rep s (l1 ++ (p, dp) :: (b, db) :: l2) -> ub_free dp = true -> adjacent dp db = true -> 0 <= ub_end dp < 2 ^ 64 ->
  owned own db = true -> release_loop (S fuel) own b s = None.
Proof.
  intros Hrep Hfree Hadj Hend Hown.
  assert (Hrep' : rep s ((l1 ++ [(p, dp)]) ++ (b, db) :: l2)) by (by rewrite <-app_assoc).
  cbn [release_loop]. rewrite (rep_pos _ _ b Hrep) by in_mid. pose proof (rep_lookup _ _ _ _ _ Hrep') as Hb. rewrite Hb.
  cbn [mbind option_bind node free owner]. unfold owned in Hown. rewrite Hown.
  pose proof (set_blk_spec s _ b db l2 _ _ released_update Hrep') as Hrep1.
  set (s1 := set_blk b _ s) in *. pose proof (rep_lookup _ _ _ _ _ Hrep1) as Hb1.
  rewrite <-app_assoc in Hrep1. pose proof (rep_lookup _ _ _ _ _ Hrep1) as Hp1.
  unfold user_blk_coalesce, merge_prev. rewrite Hb1. cbn [mbind option_bind node prev].
  rewrite last_addr_app. cbn [last_addr]. rewrite (rep_pos _ _ p Hrep) by in_mid. rewrite Hp1. cbn [mbind option_bind].
  assert (Hc : contiguous (node dp (last_addr 0 l1) b) (node (released db) p (hd_addr 0 l2)) = true).
  { rewrite contiguous_adjacent by done. exact Hadj. }
  cbn [app hd_addr] in *. rewrite Hc. cbn [node free]. rewrite Hfree. cbn [andb mbind option_bind].
  match goal with |- context [merge_next p ?t] => destruct (merge_next p t) as [s2|] eqn:Em end; [|done]. cbn [mbind option_bind].
  eassert (Hgone : blks _ !! b = None); [|by rewrite (merge_next_gone _ _ _ _ Hgone Em)].
  unfold absorb. cbn [blks with_kh with_blks]. by rewrite lookup_delete_eq.
Qed.

(** The block before is free and ends where this one starts. *)
Definition merges_left l1 (dp : ublk) : Prop :=
  exists k q dq, l1 = k ++ [(q, dq)] /\ ub_free dq = true /\ adjacent dq dp = true.

Lemma merges_left_or l1 dp : merges_left l1 dp \/ ~ merges_left l1 dp.
Proof.
  destruct l1 as [|[q dq] k _] using rev_ind.
  { right. intros (k & q & dq & E & _). by destruct k. }
  destruct (ub_free dq && adjacent dq dp) eqn:E.
  - left. apply andb_true_iff in E as [? ?]. by exists k, q, dq.
  - right. intros (k' & q' & dq' & Hk & Hf & Ha). apply app_inj_tail in Hk as [_ [= <- <-]].
    by rewrite Hf, Ha in E.
Qed.

(** A block whose predecessor is not free or not adjacent stays where it is. *)
Lemma merge_prev_stays s l1 p dp l2 :
  rep s (l1 ++ (p, dp) :: l2) -> (forall q dq, (q, dq) ∈ l1 -> 0 <= ub_end dq < 2 ^ 64) ->
  ~ merges_left l1 dp ->
  merge_prev p s = Some (p, s).
Proof.
  intros Hrep Hend Hno. unfold merge_prev. rewrite (rep_lookup _ _ _ _ _ Hrep). cbn [mbind option_bind node prev].
  destruct l1 as [|[q dq] k _] using rev_ind; [done|].
  rewrite last_addr_app. cbn [last_addr]. rewrite (rep_pos _ _ q Hrep) by in_mid. rewrite <-app_assoc in Hrep.
  rewrite (rep_lookup _ _ _ _ _ Hrep). cbn [mbind option_bind node free].
  fold (node dq (last_addr 0 k) (hd_addr 0 ([(p, dp)] ++ l2))).
  change (UserBlk (ub_base dp) (ub_npages dp) (ub_free dp) (ub_owner dp) (hd_addr 0 l2) q) with (node dp q (hd_addr 0 l2)).
  rewrite contiguous_adjacent by (apply (Hend q); set_solver).
  destruct (ub_free dq) eqn:Ef; [|done]. destruct (adjacent dq dp) eqn:Ea; [|done].
  destruct Hno. by exists k, q, dq.
Qed.

(** The exit of a task that owns a block right behind a free block or another
    of its own: the loop merges the block into the one before it, gives its
    descriptor back to the kernel heap, and then follows its link; it reads
    freed memory. *)
Theorem release_owner_reads_freed s l own l1 p dp b db l2 :
  uh_inv s l -> 0 < own -> l = l1 ++ (p, dp) :: (b, db) :: l2 ->
  Forall (fun x => owned own x.2 = false) l1 ->
  ub_free dp = true \/ owned own dp = true -> adjacent dp db = true -> owned own db = true ->
  user_heap_release_owner own s = None.
Proof.
  intros Hinv Hown -> Hl1 Hdp Hadj Hdb. pose proof (uh_rep _ _ Hinv) as Hrep.
  unfold user_heap_release_owner. rewrite (proj2 (Z.leb_gt own 0)) by lia.
  pose proof (rep_steps _ _ Hrep) as Hsteps. rewrite length_app in Hsteps. cbn [length] in Hsteps.
  rewrite (rep_head _ _ Hrep). replace (walk_steps s) with (length l1 + (walk_steps s - length l1))%nat by lia.
  rewrite (release_skip own [] l1 _ s) by done. cbn [hd_addr].
  assert (Hend : forall d, d ∈ (l1 ++ (p, dp) :: (b, db) :: l2).*2 -> 0 <= ub_end d < 2 ^ 64).
  { intros d Hd. destruct (uh_block _ _ d Hinv Hd) as (? & ? & _ & ?).
    unfold ub_end, USER_HEAP_LIMIT, USER_HEAP_BASE in *. lia. }
  destruct (walk_steps s - length l1)%nat as [|[|fuel]] eqn:Ef; [lia|lia|].
  assert (Hp : dp ∈ (l1 ++ (p, dp) :: (b, db) :: l2).*2) by in_mid.
  destruct Hdp as [Hfree|Hmine].
  { change (S (S fuel)) with (length [(p, dp)] + S fuel)%nat.
    assert (Hskip : Forall (fun x => owned own x.2 = false) [(p, dp)]).
    { apply Forall_singleton. unfold owned. simpl. by rewrite Hfree. }
    pose proof (release_skip own l1 [(p, dp)] ((b, db) :: l2) s (S fuel) Hrep Hskip) as E.
    cbn [hd_addr app] in E. rewrite E.
    apply (release_merged own p dp b db l1 l2); try done. by apply Hend. }
  destruct (merges_left_or l1 dp)
    as [(k & q & dq & -> & Hq & Ha)|Hno].
  - apply (release_merged own q dq p dp k ((b, db) :: l2)); try done; [by rewrite <-app_assoc in Hrep|].
    apply Hend. in_mid.
  - cbn [release_loop]. rewrite (rep_pos _ _ p Hrep) by in_mid.
    pose proof (rep_lookup _ _ _ _ _ Hrep) as Hlp. rewrite Hlp. cbn [mbind option_bind node free owner].
    pose proof Hmine as Hm. unfold owned in Hm. rewrite Hm.
    pose proof (set_blk_spec s l1 p dp ((b, db) :: l2) _ _ released_update Hrep) as Hrep1.
    set (s1 := set_blk p _ s) in *.
    assert (Hb1 : blks s1 !! b = Some (node db p (hd_addr 0 l2))).
    { assert (Hr : rep s1 ((l1 ++ [(p, released dp)]) ++ (b, db) :: l2)) by (by rewrite <-app_assoc).
      rewrite (rep_lookup _ _ _ _ _ Hr), last_addr_app. done. }
    assert (Hstay : user_blk_coalesce p s1 = Some s1).
    { unfold user_blk_coalesce. rewrite (merge_prev_stays s1 l1 p (released dp) ((b, db) :: l2)); [|done| |].
      - cbn [mbind option_bind]. unfold merge_next. rewrite (rep_lookup _ _ _ _ _ Hrep1).
        cbn [mbind option_bind node next hd_addr]. rewrite (rep_pos _ _ b Hrep) by in_mid. rewrite Hb1.
        cbn [mbind option_bind node free]. unfold owned in Hdb. apply andb_true_iff in Hdb as [Hdb _].
        apply negb_true_iff in Hdb. by rewrite Hdb.
      - intros q dq Hq. apply Hend. rewrite fmap_app. apply elem_of_app. left. by apply list_elem_of_fmap; exists (q, dq).
      - exact Hno. }
    rewrite Hstay. cbn [mbind option_bind]. rewrite (rep_lookup _ _ _ _ _ Hrep1). cbn [mbind option_bind node next hd_addr].
    apply (release_merged own p (released dp) b db l1 l2); try done. exact (Hend dp Hp).
Qed.
End Exit.


(** ** A task with two blocks exits *)


(** Task 7 allocates 4096 bytes more. *)
Definition two_blocks : uheap kheap := default one_block (snd <$> k_sys_alloc_user (Some 7) 4096 one_block).

(** The list of blocks after an allocation, computed on the specification. *)
Lemma alloc_list s l oc size L :
  uh_inv s l -> machine_mem (UserHeap.mem s) ->
  (fun x => x.2.1.1) <$> spec_alloc_call (room (kh s)) (owner_of oc) size (l.*2, user_heap_cur s, UserHeap.mem s) = Some L ->
  exists l', uh_inv (default s (snd <$> k_sys_alloc_user oc size s)) l' /\ l'.*2 = L.
Proof.
  intros Hinv Hmm E. pose proof (alloc_refines_aux s l oc size Hinv Hmm) as Hr. fold (abs s l) in E.
  destruct (spec_alloc_call _ _ _ (abs s l)) as [[r a]|]; [|done].
  destruct Hr as (s' & l' & -> & Hinv' & Habs). exists l'. split; [done|]. rewrite <-Habs in E. by injection E.
Qed.

Lemma two_blocks_list :
  exists l, uh_inv two_blocks l /\ l.*2 = [Ublk 0x20000000 2 false 7; Ublk 0x20002000 1 false 7].
Proof.
  destruct (alloc_list booted [] (Some 7) 5000 [Ublk 0x20000000 2 false 7] booted_inv booted_machine) as (l1 & Hinv & Hl1);
    [vm_compute; reflexivity|]. fold one_block in Hinv.
  assert (Hmm : machine_mem (UserHeap.mem one_block)).
  { destruct one_block_space as (l & R & [_ Hum] & _). apply (wf_machine R). apply (um_wf _ _ _ Hum). }
  destruct (alloc_list one_block l1 (Some 7) 4096 [Ublk 0x20000000 2 false 7; Ublk 0x20002000 1 false 7] Hinv Hmm)
    as (l & Hinv' & Hl); [rewrite Hl1; vm_compute; reflexivity|]. by exists l.
Qed.

Lemma release_owner_reads_freed_witness : user_heap_release_owner 7 two_blocks = None.
Proof.
  destruct two_blocks_list as (l & Hinv & Hl).
  destruct l as [|[p dp] [|[b db] [|x l]]]; try discriminate Hl. cbn in Hl.
  assert (dp = Ublk 0x20000000 2 false 7) as -> by congruence.
  assert (db = Ublk 0x20002000 1 false 7) as -> by congruence.
  refine (release_owner_reads_freed two_blocks _ 7 [] p (Ublk 0x20000000 2 false 7) b (Ublk 0x20002000 1 false 7) []
    Hinv _ eq_refl _ _ _ _); [lia|by constructor|by right|reflexivity|reflexivity].
Defined.
