(* ===== verification/KStdio.v ===== *)
(** The formatting and number routines of the kernel's C library:
    src/kernel/lib/stdio.c, stdlib_ext.c and ctype.c.  A format or an argument
    string is the list of its bytes before the NUL; the destination of
    [vsnprintf] is the list of the bytes of its buffer.  [None] is what has no
    defined result: a store outside a buffer, a read past the end of the format,
    a [va_arg] of an argument that was not passed or has another type. *)
From Stdlib Require Import ZArith Lia.
From stdpp Require Import base numbers list gmap strings.
From S2P Require Import Prelude HeapIface.

(** ** ctype.c *)

Definition isdigit (c : Z) : bool := (48 <=? c) && (c <=? 57).
Definition isupper (c : Z) : bool := (65 <=? c) && (c <=? 90).
Definition islower (c : Z) : bool := (97 <=? c) && (c <=? 122).
Definition isalpha (c : Z) : bool := isupper c || islower c.
Definition isalnum (c : Z) : bool := isalpha c || isdigit c.
Definition isspace (c : Z) : bool :=
  (c =? 32) || (c =? 9) || (c =? 10) || (c =? 13) || (c =? 11) || (c =? 12).
Definition isprint (c : Z) : bool := (0x20 <=? c) && (c <=? 0x7E).
Definition isgraph (c : Z) : bool := (0x21 <=? c) && (c <=? 0x7E).
Definition ispunct (c : Z) : bool := isprint c && negb (isalnum c).
Definition iscntrl (c : Z) : bool := ((0 <=? c) && (c <=? 0x1F)) || (c =? 0x7F).
Definition toupper (c : Z) : Z := if islower c then c - (97 - 65) else c.
Definition tolower (c : Z) : Z := if isupper c then c + (97 - 65) else c.

(** ** stdlib_ext.c *)

(** The leading blanks [atoi] skips. *)
Fixpoint skip_blanks (s : list Z) : list Z :=
  match s with
  | c :: r => if (c =? 32) || (c =? 9) || (c =? 10) || (c =? 13) then skip_blanks r else s
  | [] => []
  end.

(** The loop over the digits; the sums wrap around as the machine's do. *)
Fixpoint atoi_digits (v : Z) (s : list Z) : Z :=
  match s with
  | c :: r => if isdigit c then atoi_digits (i32 (v * 10 + (c - 48))) r else v
  | [] => v
  end.

(** [None] is NULL. *)
Definition atoi (s : option (list Z)) : Z :=
  match s with
  | None => 0
  | Some s =>
      let s := skip_blanks s in
      match s with
      | c :: r =>
          if c =? 45 then i32 (- atoi_digits 0 r)
          else if c =? 43 then atoi_digits 0 r else atoi_digits 0 s
      | [] => 0
      end
  end.

Definition atol (s : option (list Z)) : Z := atoi s.

Definition abs (x : Z) : Z := if x <? 0 then i32 (- x) else x.

(** One step of the generator: the new [next_rand] and the number returned. *)
Definition rand (next_rand : Z) : Z * Z :=
  let n := u64 (next_rand * 1103515245 + 12345) in (n, (n / 65536) mod 32768).

Definition srand (seed : Z) : Z := u32 seed.

Section Alloc.
Context {H : Type} `{!KernelHeap H}.

(** The bytes of the blocks next to the heap, as the file system keeps them. *)
Record cheap := CHeap { ch_heap : H; ch_bytes : gmap Z (list Z) }.

Definition kmalloc_block (n : Z) (c : cheap) : option Z * cheap :=
  let '(p, h) := kmalloc n (ch_heap c) in (p, CHeap h (ch_bytes c)).

(** [memset(p, 0, n)]. *)
Definition zero_block (p n : Z) (c : cheap) : cheap :=
  CHeap (ch_heap c) (<[p := replicate (Z.to_nat n) 0]> (ch_bytes c)).

Definition malloc (size : Z) (c : cheap) : option Z * cheap :=
  if size =? 0 then (None, c) else kmalloc_block size c.

Definition free (p : Z) (c : cheap) : cheap :=
  if p =? 0 then c else CHeap (kfree p (ch_heap c)) (delete p (ch_bytes c)).

Definition calloc (n size : Z) (c : cheap) : option Z * cheap :=
  let total := u64 (n * size) in
  match kmalloc_block total c with
  | (Some p, c) => (Some p, zero_block p total c)
  | (None, c) => (None, c)
  end.

Definition realloc (p size : Z) (c : cheap) : option Z * cheap :=
  if p =? 0 then malloc size c else
  if size =? 0 then (None, free p c) else
  match kmalloc_block size c with
  | (None, c) => (None, c)
  | (Some q, c) =>
      let c := zero_block q size c in
      (Some q, CHeap (kfree p (ch_heap c)) (delete p (ch_bytes c)))
  end.
End Alloc.
Arguments cheap : clear implicits.
Arguments CHeap {H}.
Arguments ch_heap {H}.
Arguments ch_bytes {H}.

(** ** stdio.c: numbers *)

(** [reverse]: swaps from both ends. *)
Fixpoint reverse_loop (n i j : nat) (s : list Z) : list Z :=
  match n with
  | O => s
  | S n =>
      if (i <? j)%nat then
        reverse_loop n (S i) (pred j)
          (<[j := default 0 (s !! i)]> (<[i := default 0 (s !! j)]> s))
      else s
  end.

Definition reverse_str (s : list Z) : list Z := reverse_loop (length s) 0 (pred (length s)) s.

Definition digit_char (d : Z) : Z := if d <? 10 then 48 + d else 55 + d.    (* "0123456789ABCDEF" *)
Definition digit_char_lower (d : Z) : Z := if d <? 10 then 48 + d else 87 + d.

(** The digits of [n], lowest first.  A 64-bit number has at most 64 digits in
    any base from 2 on. *)
Fixpoint digits_loop (fuel : nat) (chr : Z -> Z) (n base : Z) : list Z :=
  match fuel with
  | O => []
  | S fuel => if 0 <? n then chr (n mod base) :: digits_loop fuel chr (n / base) base else []
  end.

Definition utoa_digits (chr : Z -> Z) (n base : Z) : list Z :=
  if n =? 0 then [48] else digits_loop 64 chr n base.

(** [utoa] into a buffer of 64 bytes. *)
Definition utoa (n base width : Z) (zero : bool) : option (list Z) :=
  let ds := utoa_digits digit_char n base in
  if 64 <? Z.max (Z.of_nat (length ds)) width then None else
  Some (reverse_str (ds ++ replicate (Z.to_nat (width - Z.of_nat (length ds))) (if zero then 48 else 32))).

(** [itoa]: decimal digits without a width. *)
Definition itoa (n : Z) : list Z := reverse_str (utoa_digits digit_char n 10).

(** ** stdio.c: vsnprintf *)

Inductive va :=
  | VInt (v : Z)                  (* an int or unsigned int *)
  | VStr (s : option (list Z))    (* a char*; None is NULL *)
  | VPtr (p : Z).

Record out := Out { pos : Z; buf : list Z }.

(** [if (pos + 1 < size) buf[pos] = c; pos++;] *)
Definition put (size c : Z) (o : out) : option out :=
  if u64 (pos o + 1) <? size then
    if pos o <? Z.of_nat (length (buf o)) then
      Some (Out (pos o + 1) (<[Z.to_nat (pos o) := c]> (buf o)))
    else None
  else Some (Out (pos o + 1) (buf o)).

Fixpoint puts_all (size : Z) (cs : list Z) (o : out) : option out :=
  match cs with
  | [] => Some o
  | c :: cs => o ← put size c o; puts_all size cs o
  end.

(** The digits of the width; a zero that comes first asks for zero padding. *)
Fixpoint parse_width (width : Z) (zero : bool) (fmt : list Z) : Z * bool * list Z :=
  match fmt with
  | c :: r =>
      if isdigit c then
        parse_width (i32 (width * 10 + (c - 48))) (zero || ((c =? 48) && (width =? 0))) r
      else (width, zero, fmt)
  | [] => (width, zero, [])
  end.

Definition va_int (args : list va) : option (Z * list va) :=
  match args with VInt v :: args => Some (v, args) | _ => None end.
Definition va_str (args : list va) : option (option (list Z) * list va) :=
  match args with VStr s :: args => Some (s, args) | _ => None end.
Definition va_ptr (args : list va) : option (Z * list va) :=
  match args with VPtr p :: args => Some (p, args) | _ => None end.

(** The conversion [c]: the [switch]. *)
Definition convert (size c width : Z) (zero : bool) (args : list va) (o : out) : option (list va * out) :=
  if c =? 100 then (* 'd' *)
    '(v, args) ← va_int args;
    let v := i32 v in
    o ← (if v <? 0 then put size 45 o else Some o);
    let v := if v <? 0 then i32 (- v) else v in
    ds ← utoa (u64 v) 10 width zero;
    o ← puts_all size ds o;
    Some (args, o)
  else if c =? 117 then (* 'u' *)
    '(v, args) ← va_int args;
    ds ← utoa (u32 v) 10 width zero;
    o ← puts_all size ds o;
    Some (args, o)
  else if c =? 120 then (* 'x' *)
    '(v, args) ← va_int args;
    ds ← utoa (u32 v) 16 width zero;
    o ← puts_all size ds o;
    Some (args, o)
  else if c =? 88 then (* 'X' *)
    '(v, args) ← va_int args;
    ds ← utoa (u32 v) 16 width zero;
    o ← puts_all size ((fun c => if (97 <=? c) && (c <=? 102) then c - 97 + 65 else c) <$> ds) o;
    Some (args, o)
  else if c =? 115 then (* 's' *)
    '(s, args) ← va_str args;
    o ← puts_all size (default (str "(null)") s) o;
    Some (args, o)
  else if c =? 112 then (* 'p' *)
    '(p, args) ← va_ptr args;
    let ds := reverse_str (utoa_digits digit_char_lower (u64 p) 16) in
    o ← put size 48 o;
    o ← put size 120 o;
    o ← puts_all size ds o;
    Some (args, o)
  else if c =? 99 then (* 'c' *)
    '(v, args) ← va_int args;
    o ← put size (u8 v) o;
    Some (args, o)
  else
    o ← put size c o;
    Some (args, o).

(** The loop over the format; it is shorter at each iteration. *)
Fixpoint vsn_loop (fuel : nat) (size : Z) (fmt : list Z) (args : list va) (o : out) : option out :=
  match fuel with
  | O => None
  | S fuel =>
      match fmt with
      | [] => Some o
      | c :: r =>
          if negb (c =? 37) then
            o ← put size c o;
            vsn_loop fuel size r args o
          else
            let '(width, zero, r) := parse_width 0 false r in
            match r with
            | [] => None        (* the NUL is copied and the scan goes on behind it *)
            | c :: r =>
                '(args, o) ← convert size c width zero args o;
                vsn_loop fuel size r args o
            end
      end
  end.

(** The value returned, and the buffer. *)
Definition vsnprintf (b : list Z) (size : Z) (fmt : list Z) (args : list va) : option (Z * list Z) :=
  o ← vsn_loop (S (length fmt)) size fmt args (Out 0 b);
  let i := if pos o <? size then pos o else size - 1 in
  if 0 <? size then
    if i <? Z.of_nat (length (buf o)) then Some (pos o, <[Z.to_nat i := 0]> (buf o)) else None
  else Some (pos o, buf o).

Definition SIZE_MAX : Z := 2 ^ 64 - 1.

Definition vsprintf (b fmt : list Z) (args : list va) : option (Z * list Z) :=
  vsnprintf b SIZE_MAX fmt args.
