(* ===== verification/KStdioProps.v ===== *)
(** The properties of the formatting routines: [vsnprintf] against a formatter
    without a buffer, numbers that are printed and read back, the conversions
    that go wrong, and the allocation functions of the C library. *)
From Stdlib Require Import ZArith Lia.
From stdpp Require Import base numbers list gmap strings.
From S2P Require Import Prelude HeapIface KStdio.

(** ** The string is reversed *)

Lemma reverse_loop_spec n a m c :
  (length m <= n)%nat ->
  reverse_loop n (length a) (pred (length a + length m)) (a ++ m ++ c) = a ++ reverse m ++ c.
Proof.
  revert a m c. induction n as [|n IH]; intros a m c Hn.
  { destruct m; [done|simpl in Hn; lia]. }
  simpl. destruct (Nat.ltb_spec (length a) (pred (length a + length m))) as [Hlt|Hge].
  - destruct m as [|x m]; [simpl in Hlt; lia|].
    destruct m as [|y m _] using rev_ind; [simpl in Hlt; lia|].
    assert (Hj : pred (length a + length (x :: m ++ [y])) = (length a + S (length m))%nat).
    { simpl. rewrite length_app. simpl. lia. }
    rewrite Hj.
    assert (Ei : (a ++ (x :: m ++ [y]) ++ c) !! length a = Some x) by (by apply list_lookup_middle).
    assert (Es : a ++ (x :: m ++ [y]) ++ c = (a ++ x :: m) ++ y :: c) by (by rewrite <-!app_assoc; simpl; rewrite <-app_assoc).
    assert (Ej : (a ++ (x :: m ++ [y]) ++ c) !! (length a + S (length m))%nat = Some y).
    { rewrite Es. apply list_lookup_middle. rewrite length_app. simpl. lia. }
    rewrite Ei, Ej. simpl. rewrite insert_app_r_alt, Nat.sub_diag by lia. simpl.
    assert (Es2 : a ++ y :: (m ++ [y]) ++ c = (a ++ y :: m) ++ y :: c) by (by rewrite <-!app_assoc; simpl).
    rewrite Es2, insert_app_r_alt by (rewrite length_app; simpl; lia).
    rewrite length_app. simpl. replace (length a + S (length m) - (length a + S (length m)))%nat with O by lia.
    simpl. replace ((a ++ y :: m) ++ x :: c) with ((a ++ [y]) ++ m ++ x :: c) by (by rewrite <-!app_assoc).
    pose proof (IH (a ++ [y]) m (x :: c)) as H.
    rewrite length_app in H. simpl in H. rewrite Nat.add_1_r in H.
    replace (length a + S (length m) - 1)%nat with (pred (S (length a) + length m)) by lia.
    replace (pred (length a + S (length m))) with (pred (S (length a) + length m)) by lia.
    rewrite H by (simpl in Hn; rewrite length_app in Hn; simpl in Hn; lia).
    rewrite reverse_cons, reverse_snoc, <-!app_assoc. done.
  - destruct m as [|x [|y m]]; [done|done|]. simpl in Hge. lia.
Qed.

Lemma reverse_str_reverse s : reverse_str s = reverse s.
Proof.
  pose proof (reverse_loop_spec (length s) [] s [] (le_n _)) as H. simpl in H. rewrite !app_nil_r in H. exact H.
Qed.

(** ** Writing into the buffer *)

(** What a buffer of [size] usable bytes holds after the text [t]. *)
Definition written (size : Z) (t b : list Z) : list Z :=
  let w := take (Z.to_nat (size - 1)) t in w ++ drop (length w) b.

(** The state of the writer after [t]. *)
Definition wrote (size : Z) (b t : list Z) : out := Out (Z.of_nat (length t)) (written size t b).

Lemma length_written size t b :
  size <= Z.of_nat (length b) -> length (written size t b) = length b.
Proof. intros. unfold written. rewrite length_app, length_drop, length_take. lia. Qed.

Lemma put_wrote size b t c :
  0 <= size <= Z.of_nat (length b) -> Z.of_nat (length t) < 2 ^ 31 ->
  put size c (wrote size b t) = Some (wrote size b (t ++ [c])).
Proof.
  intros Hs Ht. unfold put, wrote. cbn [pos buf]. rewrite (wrap_small 64) by lia.
  rewrite length_written by lia. rewrite length_app. simpl.
  replace (Z.of_nat (length t + 1)) with (Z.of_nat (length t) + 1) by lia.
  destruct (Z.ltb_spec (Z.of_nat (length t) + 1) size) as [Hlt|Hge].
  - destruct (Z.ltb_spec (Z.of_nat (length t)) (Z.of_nat (length b))); [|lia]. do 2 f_equal.
    unfold written. rewrite !take_ge by (rewrite ?length_app; simpl; lia).
    rewrite Nat2Z.id, insert_app_r_alt, Nat.sub_diag, length_app by lia. simpl.
    rewrite <-app_assoc. f_equal. simpl.
    destruct (drop (length t) b) as [|x r] eqn:E.
    { apply (f_equal length) in E. rewrite length_drop in E. simpl in E. lia. }
    rewrite <-drop_drop, E. done.
  - do 2 f_equal. unfold written. rewrite take_app_le by lia. done.
Qed.

Lemma puts_wrote size b t cs :
  0 <= size <= Z.of_nat (length b) -> Z.of_nat (length (t ++ cs)) < 2 ^ 31 ->
  puts_all size cs (wrote size b t) = Some (wrote size b (t ++ cs)).
Proof.
  revert t. induction cs as [|c cs IH]; intros t Hs Ht; simpl; [by rewrite app_nil_r|].
  rewrite length_app in Ht. simpl in Ht. rewrite put_wrote by (try done; lia). simpl.
  rewrite IH; [by rewrite <-app_assoc|done|]. rewrite <-app_assoc, length_app. simpl. lia.
Qed.

(** ** The loop without its buffer *)

Definition upper_hex (c : Z) : Z := if (97 <=? c) && (c <=? 102) then c - 97 + 65 else c.

(** What one conversion writes. *)
Definition scan_conversion (c width : Z) (zero : bool) (args : list va) : option (list va * list Z) :=
  if c =? 100 then
    '(v, args) ← va_int args;
    ds ← utoa (u64 (if i32 v <? 0 then i32 (- i32 v) else i32 v)) 10 width zero;
    Some (args, (if i32 v <? 0 then [45] else []) ++ ds)
  else if c =? 117 then '(v, args) ← va_int args; ds ← utoa (u32 v) 10 width zero; Some (args, ds)
  else if c =? 120 then '(v, args) ← va_int args; ds ← utoa (u32 v) 16 width zero; Some (args, ds)
  else if c =? 88 then
    '(v, args) ← va_int args; ds ← utoa (u32 v) 16 width zero; Some (args, upper_hex <$> (ds : list Z))
  else if c =? 115 then '(s, args) ← va_str args; Some (args, default (str "(null)") s)
  else if c =? 112 then
    '(p, args) ← va_ptr args;
    Some (args, [48; 120] ++ reverse_str (utoa_digits digit_char_lower (u64 p) 16))
  else if c =? 99 then '(v, args) ← va_int args; Some (args, [u8 v])
  else Some (args, [c]).

(** What the whole loop writes. *)
Fixpoint scan_loop (fuel : nat) (fmt : list Z) (args : list va) : option (list Z) :=
  match fuel with
  | O => None
  | S fuel =>
      match fmt with
      | [] => Some []
      | c :: r =>
          if negb (c =? 37) then t ← scan_loop fuel r args; Some (c :: t)
          else
            let '(width, zero, r) := parse_width 0 false r in
            match r with
            | [] => None
            | c :: r =>
                '(args, t) ← scan_conversion c width zero args;
                t' ← scan_loop fuel r args;
                Some (t ++ t')
            end
      end
  end.

Definition scan (fmt : list Z) (args : list va) : option (list Z) :=
  scan_loop (S (length fmt)) fmt args.

Lemma convert_wrote size b t c width zero args :
  0 <= size <= Z.of_nat (length b) ->
  match scan_conversion c width zero args with
  | None => convert size c width zero args (wrote size b t) = None
  | Some (args', t') => Z.of_nat (length (t ++ t')) < 2 ^ 31 ->
      convert size c width zero args (wrote size b t) = Some (args', wrote size b (t ++ t'))
  end.
Proof.
  intros Hs. unfold scan_conversion, convert.
  assert (Hone : forall x, Z.of_nat (length (t ++ [x])) < 2 ^ 31 ->
    put size x (wrote size b t) = Some (wrote size b (t ++ [x]))).
  { intros x Hx. apply put_wrote; [done|]. rewrite length_app in Hx. simpl in Hx. lia. }
  destruct (c =? 100).
  { destruct (va_int args) as [[v args']|]; [|done]. cbn [mbind option_bind].
    destruct (i32 v <? 0) eqn:Ev.
    - destruct (utoa _ 10 width zero) as [ds|]; cbn [mbind option_bind].
      + intros Hl. rewrite !length_app in Hl. simpl in Hl.
        rewrite Hone by (rewrite length_app; simpl; lia). cbn [mbind option_bind].
        rewrite puts_wrote; [by rewrite <-app_assoc|done|]. rewrite !length_app. simpl. lia.
      + by destruct (put size 45 _).
    - destruct (utoa _ 10 width zero) as [ds|]; [|done]. cbn [mbind option_bind app].
      intros Hl. by rewrite puts_wrote. }
  destruct (c =? 117).
  { destruct (va_int args) as [[v args']|]; [|done]. cbn [mbind option_bind].
    destruct (utoa _ 10 width zero) as [ds|]; [|done]. cbn [mbind option_bind]. intros Hl. by rewrite puts_wrote. }
  destruct (c =? 120).
  { destruct (va_int args) as [[v args']|]; [|done]. cbn [mbind option_bind].
    destruct (utoa _ 16 width zero) as [ds|]; [|done]. cbn [mbind option_bind]. intros Hl. by rewrite puts_wrote. }
  destruct (c =? 88).
  { destruct (va_int args) as [[v args']|]; [|done]. cbn [mbind option_bind].
    destruct (utoa _ 16 width zero) as [ds|]; [|done]. cbn [mbind option_bind]. intros Hl. by rewrite puts_wrote. }
  destruct (c =? 115).
  { destruct (va_str args) as [[s args']|]; [|done]. cbn [mbind option_bind]. intros Hl. by rewrite puts_wrote. }
  destruct (c =? 112).
  { destruct (va_ptr args) as [[p args']|]; [|done]. cbn [mbind option_bind]. intros Hl.
    rewrite !length_app in Hl. simpl in Hl.
    rewrite Hone by (rewrite length_app; simpl; lia). cbn [mbind option_bind].
    rewrite put_wrote by (try done; rewrite length_app; simpl; lia). cbn [mbind option_bind].
    rewrite puts_wrote; [by rewrite <-!app_assoc|done|]. rewrite !length_app. simpl. lia. }
  destruct (c =? 99).
  { destruct (va_int args) as [[v args']|]; [|done]. cbn [mbind option_bind]. intros Hl. by rewrite Hone. }
  intros Hl. by rewrite Hone.
Qed.

Lemma vsn_loop_wrote fuel size b t fmt args t' :
  0 <= size <= Z.of_nat (length b) -> scan_loop fuel fmt args = Some t' ->
  Z.of_nat (length (t ++ t')) < 2 ^ 31 ->
  vsn_loop fuel size fmt args (wrote size b t) = Some (wrote size b (t ++ t')).
Proof.
  intros Hs. revert t fmt args t'. induction fuel as [|fuel IH]; intros t fmt args t' Hr Hl; [done|].
  simpl in *. destruct fmt as [|c r]; [injection Hr as <-; by rewrite app_nil_r|].
  destruct (negb (c =? 37)).
  - destruct (scan_loop fuel r args) as [u|] eqn:Eu; [|done]. injection Hr as <-.
    rewrite put_wrote by (try done; rewrite length_app in Hl; simpl in Hl; lia). cbn [mbind option_bind].
    replace (t ++ c :: u) with ((t ++ [c]) ++ u) in * by (by rewrite <-app_assoc). by apply IH.
  - destruct (parse_width 0 false r) as [[width zero] [|c' r']]; [done|].
    pose proof (convert_wrote size b t c' width zero args Hs) as Hc.
    destruct (scan_conversion c' width zero args) as [[args' u]|]; [|done]. cbn [mbind option_bind] in Hr.
    destruct (scan_loop fuel r' args') as [u'|] eqn:Eu; [|done]. injection Hr as <-.
    rewrite app_assoc in *. rewrite Hc by (rewrite length_app in Hl; lia). cbn [mbind option_bind]. by apply IH.
Qed.

Lemma convert_none size c width zero args o :
  scan_conversion c width zero args = None -> convert size c width zero args o = None.
Proof.
  unfold scan_conversion, convert. repeat (case_match; try done); simpl; try done;
    repeat match goal with
    | |- context [va_int ?a] => destruct (va_int a) as [[??]|]; try done
    | |- context [va_str ?a] => destruct (va_str a) as [[??]|]; try done
    | |- context [va_ptr ?a] => destruct (va_ptr a) as [[??]|]; try done
    end; simpl.
  all: repeat match goal with
    | |- context [if ?b then put _ _ _ else _] => destruct b; [destruct (put _ _ _); [|done]|]; simpl
    | |- context [utoa ?a ?b ?c ?d] => destruct (utoa a b c d); try done
    end; try done.
Qed.

Lemma convert_args size c width zero args o args1 t args2 o2 :
  scan_conversion c width zero args = Some (args1, t) -> convert size c width zero args o = Some (args2, o2) ->
  args2 = args1.
Proof.
  unfold scan_conversion, convert. intros H1 H2. repeat (case_match; try done); simpl in *;
    repeat match goal with
    | H : context [va_int ?a] |- _ => destruct (va_int a) as [[??]|]; try done
    | H : context [va_str ?a] |- _ => destruct (va_str a) as [[??]|]; try done
    | H : context [va_ptr ?a] |- _ => destruct (va_ptr a) as [[??]|]; try done
    end; simpl in *; by simplify_option_eq.
Qed.

Lemma vsn_loop_none fuel size fmt args o :
  scan_loop fuel fmt args = None -> vsn_loop fuel size fmt args o = None.
Proof.
  revert fmt args o. induction fuel as [|fuel IH]; intros fmt args o Hr; [done|].
  simpl in *. destruct fmt as [|c r]; [done|]. destruct (negb (c =? 37)).
  - destruct (put size c o) as [o'|]; [|done]. cbn [mbind option_bind]. apply IH.
    by destruct (scan_loop fuel r args).
  - destruct (parse_width 0 false r) as [[width zero] [|c' r']]; [done|].
    destruct (scan_conversion c' width zero args) as [[args' u]|] eqn:Ec.
    + destruct (convert size c' width zero args o) as [[args2 o2]|] eqn:Eo; [|done].
      assert (args2 = args') as ->.
      { by eapply convert_args. }
      cbn [mbind option_bind] in *. apply IH. by destruct (scan_loop fuel r' args').
    + by rewrite convert_none.
Qed.

(** ** The reference formatter *)

(** The value of decimal digits, most significant first. *)
Fixpoint mval (v : Z) (s : list Z) : Z :=
  match s with [] => v | c :: s => mval (v * 10 + (c - 48)) s end.

(** Positional notation: a number has one digit, and one more for each power of
    the base up to it; the digits are characters of an alphabet. *)
Definition places (base n : Z) : nat := S (length (filter (fun i => base ^ Z.of_nat i <= n) (seq 1 64))).

Definition place_digit (base : Z) (alphabet : list Z) (n : Z) (i : nat) : Z :=
  default 0 (alphabet !! Z.to_nat (n / base ^ Z.of_nat i mod base)).

Definition numeral (base : Z) (alphabet : list Z) (n : Z) : list Z :=
  place_digit base alphabet n <$> reverse (seq 0 (places base n)).

Definition CAPITALS : list Z := str "0123456789ABCDEF".
Definition SMALL : list Z := str "0123456789abcdef".

(** A format is a list of characters and of conversions, each with the digits
    between its percent sign and its letter. *)
Inductive item := Plain (c : Z) | Conv (w : list Z) (c : Z).

Fixpoint leading_digits (s : list Z) : list Z * list Z :=
  match s with
  | c :: r => if decide (48 <= c <= 57) then let '(w, rest) := leading_digits r in (c :: w, rest) else ([], s)
  | [] => ([], [])
  end.

(** No items: the format ends inside a conversion. *)
Fixpoint items (fuel : nat) (fmt : list Z) : option (list item) :=
  match fuel, fmt with
  | O, _ => None
  | _, [] => Some []
  | S fuel, c :: r =>
      if decide (c = 37) then
        match leading_digits r with
        | (w, c :: r) => l ← items fuel r; Some (Conv w c :: l)
        | (_, []) => None
        end
      else l ← items fuel r; Some (Plain c :: l)
  end.

(** The width is an [int]; a zero pads with zeros when the digits before it are
    worth nothing. *)
Definition width_of (w : list Z) : Z := i32 (mval 0 w).
Definition zeros_of (w : list Z) : bool :=
  existsb (fun i => bool_decide (w !! i = Some 48) && bool_decide (width_of (take i w) = 0)) (seq 0 (length w)).

(** A number on the right of its field, which has at most 64 places. *)
Definition field (w : list Z) (text : list Z) : option (list Z) :=
  if decide (Z.of_nat (length text) <= 64 /\ width_of w <= 64)
  then Some (replicate (Z.to_nat (width_of w - Z.of_nat (length text))) (if zeros_of w then 48 else 32) ++ text)
  else None.

(** What [-v] of the least [int] becomes as an unsigned number of 64 bits. *)
Definition magnitude (v : Z) : Z := if decide (v = - 2 ^ 31) then 2 ^ 64 - 2 ^ 31 else Z.abs v.

Definition item_text (x : item) (args : list va) : option (list Z * list va) :=
  match x with
  | Plain c => Some ([c], args)
  | Conv w 100 => (* d *)
      match args with
      | VInt v :: args =>
          t ← field w (numeral 10 CAPITALS (magnitude (i32 v)));
          Some ((if decide (i32 v < 0) then [45] else []) ++ t, args)
      | _ => None
      end
  | Conv w 117 => (* u *)
      match args with VInt v :: args => t ← field w (numeral 10 CAPITALS (v mod 2 ^ 32)); Some (t, args) | _ => None end
  | Conv w (120 | 88) => (* x and X *)
      match args with VInt v :: args => t ← field w (numeral 16 CAPITALS (v mod 2 ^ 32)); Some (t, args) | _ => None end
  | Conv _ 115 => (* s *)
      match args with VStr s :: args => Some (default (str "(null)") s, args) | _ => None end
  | Conv _ 112 => (* p *)
      match args with VPtr p :: args => Some (str "0x" ++ numeral 16 SMALL (p mod 2 ^ 64), args) | _ => None end
  | Conv _ 99 => (* c *)
      match args with VInt v :: args => Some ([v mod 2 ^ 8], args) | _ => None end
  | Conv _ c => Some ([c], args)
  end.

Fixpoint items_text (l : list item) (args : list va) : option (list Z) :=
  match l with
  | [] => Some []
  | x :: l => '(t, args) ← item_text x args; t' ← items_text l args; Some (t ++ t')
  end.

Definition render (fmt : list Z) (args : list va) : option (list Z) :=
  l ← items (S (length fmt)) fmt; items_text l args.

(** *** The digits of the loop are positional notation *)

Lemma places_small base n : 1 < base -> 0 <= n < base -> places base n = 1%nat.
Proof.
  intros Hb Hn. unfold places. f_equal. apply length_zero_iff_nil.
  assert (Hf : forall l, Forall (fun i => 1 <= i)%nat l -> filter (fun i => base ^ Z.of_nat i <= n) l = []).
  { induction l as [|i l IH]; intros Hl; [done|]. apply Forall_cons_1 in Hl as [Hi Hl].
    rewrite filter_cons_False; [by apply IH|]. pose proof (Z.pow_le_mono_r base 1 (Z.of_nat i)). lia. }
  apply Hf, Forall_forall. intros i Hi%elem_of_seq. lia.
Qed.

Lemma places_step base n : 1 < base -> base <= n < base ^ 64 -> places base n = S (places base (n / base)).
Proof.
  intros Hb Hn. unfold places. f_equal. change (seq 1 64) with (1%nat :: seq 2 63) at 1.
  rewrite filter_cons_True by lia. cbn [length]. f_equal.
  change (seq 1 64) with (seq 1 63 ++ [64%nat]). rewrite filter_app, length_app.
  rewrite (filter_cons_False _ 64%nat) by
    (assert (n / base < base ^ Z.of_nat 64); [apply Z.div_lt_upper_bound; [lia|]; change (Z.of_nat 64) with 64; nia|lia]).
  rewrite filter_nil, Nat.add_0_r. change (seq 2 63) with (seq (S 1) 63). rewrite <-fmap_S_seq.
  generalize (seq 1 63). induction l as [|i l IH]; [done|]. cbn [fmap list_fmap].
  assert (E : base ^ Z.of_nat (S i) <= n <-> base ^ Z.of_nat i <= n / base).
  { rewrite Nat2Z.inj_succ, Z.pow_succ_r by lia. split; intros H.
    - apply Z.div_le_lower_bound; lia.
    - pose proof (Z.mul_div_le n base). nia. }
  destruct (decide (base ^ Z.of_nat i <= n / base)) as [H|H].
  - rewrite !filter_cons_True by (done || by apply E). cbn [length]. by rewrite IH.
  - rewrite !filter_cons_False by (done || by rewrite E). done.
Qed.

Lemma digits_numeral base chr alphabet n fuel :
  1 < base -> (forall d, 0 <= d < base -> chr d = default 0 (alphabet !! Z.to_nat d)) ->
  (fuel <= 64)%nat -> 0 < n < base ^ Z.of_nat fuel ->
  digits_loop fuel chr n base = place_digit base alphabet n <$> seq 0 (places base n).
Proof.
  intros Hb Hchr. revert n. induction fuel as [|fuel IH]; intros n Hf Hn; [simpl in Hn; lia|].
  cbn [digits_loop]. rewrite (proj2 (Z.ltb_lt 0 n)) by lia.
  assert (H0 : place_digit base alphabet n 0 = chr (n mod base)).
  { unfold place_digit. rewrite Z.pow_0_r, Z.div_1_r. symmetry. apply Hchr. apply Z.mod_pos_bound. lia. }
  destruct (decide (n < base)) as [Hs|Hl].
  - rewrite places_small by lia. cbn [seq fmap list_fmap]. rewrite H0. f_equal. rewrite Z.div_small by lia.
    by destruct fuel.
  - assert (H64 : n < base ^ 64).
    { eapply Z.lt_le_trans; [apply Hn|]. change 64 with (Z.of_nat 64). apply Z.pow_le_mono_r; lia. }
    rewrite places_step by lia. cbn [seq fmap list_fmap]. rewrite H0. f_equal.
    rewrite Nat2Z.inj_succ, Z.pow_succ_r in Hn by lia.
    assert (Hq : 0 < n / base < base ^ Z.of_nat fuel).
    { split; [apply Z.div_str_pos; lia|apply Z.div_lt_upper_bound; lia]. }
    rewrite IH by (done || lia). rewrite <-fmap_S_seq, <-list_fmap_compose. apply list_fmap_ext. intros _ i _.
    unfold compose, place_digit. by rewrite Nat2Z.inj_succ, Z.pow_succ_r, Z.div_div by lia.
Qed.

Lemma utoa_numeral base chr alphabet n :
  10 <= base -> (forall d, 0 <= d < base -> chr d = default 0 (alphabet !! Z.to_nat d)) ->
  alphabet !! O = Some 48 -> 0 <= n < 2 ^ 64 ->
  reverse (utoa_digits chr n base) = numeral base alphabet n.
Proof.
  intros Hb Hchr H0 Hn. unfold numeral, utoa_digits. rewrite fmap_reverse. f_equal.
  destruct (Z.eqb_spec n 0) as [->|Hnz].
  - rewrite places_small by lia. cbn [seq fmap list_fmap]. unfold place_digit.
    change (Z.to_nat (0 / base ^ Z.of_nat 0 mod base)) with (Z.to_nat (0 / 1 mod base)).
    rewrite Z.div_1_r, Z.mod_0_l by lia. change (Z.to_nat 0) with O. by rewrite H0.
  - apply digits_numeral; [lia|done|lia|]. split; [lia|]. eapply Z.lt_le_trans; [apply Hn|].
    change (Z.of_nat 64) with 64. apply Z.pow_le_mono_l. lia.
Qed.

Lemma digit_capitals d : 0 <= d < 16 -> digit_char d = default 0 (CAPITALS !! Z.to_nat d).
Proof.
  intros Hd. rewrite <-(Z2Nat.id d) at 1 by lia. assert (Hk : (Z.to_nat d < 16)%nat) by lia.
  revert Hk. generalize (Z.to_nat d). intros k Hk. do 16 (destruct k as [|k]; [reflexivity|]). lia.
Qed.

Lemma digit_small d : 0 <= d < 16 -> digit_char_lower d = default 0 (SMALL !! Z.to_nat d).
Proof.
  intros Hd. rewrite <-(Z2Nat.id d) at 1 by lia. assert (Hk : (Z.to_nat d < 16)%nat) by lia.
  revert Hk. generalize (Z.to_nat d). intros k Hk. do 16 (destruct k as [|k]; [reflexivity|]). lia.
Qed.

(** *** The conversions are those of the reference *)

Lemma i32_mul_add z d : i32 (i32 z * 10 + d) = i32 (z * 10 + d).
Proof.
  unfold i32. f_equal.
  replace (((z + 2 ^ 31) mod 2 ^ 32 - 2 ^ 31) * 10 + d + 2 ^ 31)
    with ((z + 2 ^ 31) mod 2 ^ 32 * 10 + (d + 2 ^ 31 - 2 ^ 31 * 10)) by lia.
  rewrite Z.add_mod, Z.mul_mod_idemp_l, <-Z.add_mod by lia. f_equal. lia.
Qed.

Lemma mval_app v s t : mval v (s ++ t) = mval (mval v s) t.
Proof. revert v. induction s; intros; simpl; auto. Qed.

Lemma width_snoc w c : width_of (w ++ [c]) = i32 (width_of w * 10 + (c - 48)).
Proof. unfold width_of. rewrite mval_app. cbn [mval]. by rewrite i32_mul_add. Qed.

Lemma zeros_snoc w c : zeros_of (w ++ [c]) = zeros_of w || ((c =? 48) && (width_of w =? 0)).
Proof.
  unfold zeros_of. rewrite length_app, Nat.add_1_r, seq_S, existsb_app, Nat.add_0_l. f_equal.
  - assert (Hl : Forall (fun i => i < length w)%nat (seq 0 (length w))).
    { apply Forall_forall. intros i Hi%elem_of_seq. lia. }
    induction Hl as [|i l Hi _ IH]; [done|]. cbn [existsb]. rewrite IH.
    by rewrite lookup_app_l, take_app_le by lia.
  - cbn [existsb]. rewrite orb_false_r, list_lookup_middle, take_app_length by done. f_equal.
    + destruct (Z.eqb_spec c 48) as [->|]; [by apply bool_decide_eq_true|apply bool_decide_eq_false; congruence].
    + destruct (Z.eqb_spec (width_of w) 0); [by apply bool_decide_eq_true|by apply bool_decide_eq_false].
Qed.

Lemma parse_width_digits a r :
  parse_width (width_of a) (zeros_of a) r =
    (width_of (a ++ fst (leading_digits r)), zeros_of (a ++ fst (leading_digits r)), snd (leading_digits r)).
Proof.
  revert a. induction r as [|c r IH]; intros a; cbn [parse_width leading_digits fst snd]; [by rewrite app_nil_r|].
  unfold isdigit. destruct (decide (48 <= c <= 57)) as [Hc|Hc].
  - rewrite (proj2 (Z.leb_le 48 c)), (proj2 (Z.leb_le c 57)) by lia. cbn [andb].
    rewrite <-width_snoc, <-zeros_snoc, IH. destruct (leading_digits r) as [w rest]. cbn [fst snd].
    by rewrite <-app_assoc.
  - assert ((48 <=? c) && (c <=? 57) = false) as ->.
    { destruct (Z.leb_spec 48 c), (Z.leb_spec c 57); try done. lia. }
    cbn [fst snd]. by rewrite app_nil_r.
Qed.

Lemma utoa_field n base w :
  10 <= base <= 16 -> 0 <= n < 2 ^ 64 ->
  utoa n base (width_of w) (zeros_of w) = field w (numeral base CAPITALS n).
Proof.
  intros Hb Hn. rewrite <-(utoa_numeral base digit_char CAPITALS n) by (try done; intros; try apply digit_capitals; lia).
  unfold utoa, field. rewrite length_reverse. set (ds := utoa_digits digit_char n base).
  destruct (Z.ltb_spec 64 (Z.max (Z.of_nat (length ds)) (width_of w))).
  - rewrite decide_False by lia. done.
  - rewrite decide_True by lia. rewrite reverse_str_reverse, reverse_app, reverse_replicate. done.
Qed.

Lemma capitals_upper n base w t :
  10 <= base <= 16 -> 0 <= n < 2 ^ 64 -> utoa n base (width_of w) (zeros_of w) = Some t -> upper_hex <$> t = t.
Proof.
  intros Hb Hn. rewrite utoa_field by done. unfold field. case_decide; [|done]. intros [= <-].
  assert (Hc : Forall (fun c => c < 97) (replicate (Z.to_nat (width_of w - Z.of_nat (length (numeral base CAPITALS n))))
    (if zeros_of w then 48 else 32) ++ numeral base CAPITALS n)).
  { apply Forall_app. split; [apply Forall_replicate; destruct (zeros_of w); lia|].
    unfold numeral. apply Forall_fmap, Forall_true. intros i. cbn. unfold place_digit.
    generalize (Z.to_nat (n / base ^ Z.of_nat i mod base)). intros k.
    do 16 (destruct k as [|k]; [vm_compute; reflexivity|]). done. }
  revert Hc. generalize (replicate (Z.to_nat (width_of w - Z.of_nat (length (numeral base CAPITALS n))))
    (if zeros_of w then 48 else 32) ++ numeral base CAPITALS n). intros l Hl.
  induction Hl as [|c l Hc _ IH]; [done|]. cbn [fmap list_fmap]. unfold upper_hex at 1.
  rewrite (proj2 (Z.leb_gt 97 c)) by lia. cbn [andb]. f_equal. exact IH.
Qed.

Lemma magnitude_u64 v : u64 (if i32 v <? 0 then i32 (- i32 v) else i32 v) = magnitude (i32 v).
Proof.
  assert (Hv : - 2 ^ 31 <= i32 v < 2 ^ 31).
  { unfold i32. pose proof (Z.mod_pos_bound (v + 2 ^ 31) (2 ^ 32) ltac:(lia)). lia. }
  revert Hv. generalize (i32 v). intros x Hx. unfold magnitude. case_decide as Hm.
  - subst. vm_compute. reflexivity.
  - destruct (Z.ltb_spec x 0).
    + rewrite i32_small by lia. rewrite wrap_small by lia. lia.
    + rewrite wrap_small by lia. lia.
Qed.

Lemma scan_item c w args :
  scan_conversion c (width_of w) (zeros_of w) args = ('(t, a) ← item_text (Conv w c) args; Some (a, t)).
Proof.
  assert (Hm : forall v, 0 <= u32 v < 2 ^ 64) by (intros v; pose proof (wrap_bounds 32 v ltac:(lia)); lia).
  assert (Hp : forall v, 0 <= u64 v < 2 ^ 64) by (intros v; by apply wrap_bounds).
  unfold scan_conversion.
  destruct (Z.eqb_spec c 100) as [->|N1].
  { cbn [item_text]. destruct args as [|[v| |] args]; try done. cbn [va_int mbind option_bind].
    rewrite magnitude_u64. rewrite utoa_field; [|lia|rewrite <-magnitude_u64; apply Hp].
    destruct (field _ _); [|done]. cbn [mbind option_bind]. destruct (Z.ltb_spec (i32 v) 0); case_decide; done || lia. }
  destruct (Z.eqb_spec c 117) as [->|N2].
  { cbn [item_text]. destruct args as [|[v| |] args]; try done. cbn [va_int mbind option_bind].
    rewrite utoa_field by (done || lia). fold (wrap 32 v). by destruct (field _ _). }
  destruct (Z.eqb_spec c 120) as [->|N3].
  { cbn [item_text]. destruct args as [|[v| |] args]; try done. cbn [va_int mbind option_bind].
    rewrite utoa_field by (done || lia). fold (wrap 32 v). by destruct (field _ _). }
  destruct (Z.eqb_spec c 88) as [->|N4].
  { cbn [item_text]. destruct args as [|[v| |] args]; try done. cbn [va_int mbind option_bind].
    destruct (utoa (u32 v) 16 _ _) as [t|] eqn:E; cbn [mbind option_bind].
    - rewrite (capitals_upper (u32 v) 16 w t ltac:(lia) (Hm v) E). rewrite utoa_field in E by (done || lia).
      fold (wrap 32 v). by rewrite E.
    - rewrite utoa_field in E by (done || lia). fold (wrap 32 v). by rewrite E. }
  destruct (Z.eqb_spec c 115) as [->|N5].
  { cbn [item_text]. by destruct args as [|[|s|] args]. }
  destruct (Z.eqb_spec c 112) as [->|N6].
  { cbn [item_text]. destruct args as [|[| |p] args]; try done. cbn [va_ptr mbind option_bind].
    rewrite reverse_str_reverse, (utoa_numeral 16 digit_char_lower SMALL) by (done || lia || apply digit_small). done. }
  destruct (Z.eqb_spec c 99) as [->|N7].
  { cbn [item_text]. by destruct args as [|[v| |] args]. }
  destruct c as [|q|q]; [done| |done].
  do 7 (destruct q as [q|q|]; try done).
Qed.

Lemma scan_items fuel fmt args : scan_loop fuel fmt args = (l ← items fuel fmt; items_text l args).
Proof.
  revert fmt args. induction fuel as [|fuel IH]; intros fmt args; [done|].
  cbn [scan_loop items]. destruct fmt as [|c r]; [done|].
  destruct (Z.eqb_spec c 37) as [->|Hc]; cbn [negb].
  - rewrite decide_True by done. change (parse_width 0 false r) with (parse_width (width_of []) (zeros_of []) r).
    rewrite parse_width_digits. cbn [app]. destruct (leading_digits r) as [w [|c' r']]; [done|]. cbn [fst snd].
    rewrite scan_item. destruct (items fuel r') as [l|] eqn:El; cbn [mbind option_bind items_text].
    + destruct (item_text _ args) as [[t a]|]; [|done]. cbn [mbind option_bind]. by rewrite IH, El.
    + destruct (item_text _ args) as [[t a]|]; [|done]. cbn [mbind option_bind]. by rewrite IH, El.
  - rewrite decide_False by done. rewrite IH. destruct (items fuel r) as [l|]; [|done].
    cbn [mbind option_bind items_text item_text]. by destruct (items_text l args).
Qed.

Lemma scan_render fmt args : scan fmt args = render fmt args.
Proof. apply scan_items. Qed.

(** C17. [vsnprintf] is the reference formatter cut to the buffer.  The reference
    splits the format into characters and conversions and writes numbers in
    positional notation: [%d] a sign and the magnitude (of the least [int] that
    of the wrapped negation), [%u] and [%x] and [%X] the argument modulo 2^32,
    both in capitals, right-aligned in a field whose width is the digits of the
    conversion and which is filled with zeros or blanks; [%s], [%c], and [%p]
    with small digits.  When [size] is at most the buffer's real length and the
    text shorter than 2^31, [vsnprintf] returns the length of the whole text,
    stores the first [size - 1] bytes of it and a NUL, and leaves every other
    byte of the buffer alone; it has no defined result exactly when the
    reference has none: a format that ends inside a conversion, an argument
    that is missing or of another type, a field of more than 64 places. *)
Theorem vsnprintf_renders b size fmt args :
  0 <= size <= Z.of_nat (length b) ->
  match render fmt args with
  | None => vsnprintf b size fmt args = None
  | Some t => Z.of_nat (length t) < 2 ^ 31 ->
      vsnprintf b size fmt args =
        Some (Z.of_nat (length t),
              if 0 <? size
              then let w := take (Z.to_nat (size - 1)) t in w ++ 0 :: drop (S (length w)) b
              else b)
  end.
Proof.
  intros Hs. rewrite <-scan_render. unfold vsnprintf, scan. destruct (scan_loop (S (length fmt)) fmt args) as [t|] eqn:Er.
  2:{ by rewrite vsn_loop_none. }
  intros Hl. assert (E0 : Out 0 b = wrote size b []).
  { unfold wrote, written. by rewrite take_nil. }
  rewrite E0, (vsn_loop_wrote _ size b [] _ _ _ Hs Er Hl). cbn [mbind option_bind app wrote pos buf].
  destruct (Z.ltb_spec 0 size) as [Hpos|Hz].
  2:{ f_equal. unfold written. replace (Z.to_nat (size - 1)) with O by lia. done. }
  set (w := take (Z.to_nat (size - 1)) t).
  assert (Ei : (if Z.of_nat (length t) <? size then Z.of_nat (length t) else size - 1) = Z.of_nat (length w)).
  { unfold w. rewrite length_take. destruct (Z.ltb_spec (Z.of_nat (length t)) size); lia. }
  rewrite Ei, length_written by lia. assert (Hw : (length w < length b)%nat).
  { unfold w. rewrite length_take. lia. }
  rewrite (proj2 (Z.ltb_lt _ _)) by lia. do 2 f_equal. rewrite Nat2Z.id. unfold written. fold w.
  rewrite insert_app_r_alt, Nat.sub_diag by lia. f_equal.
  destruct (drop (length w) b) as [|x r] eqn:E.
  { apply (f_equal length) in E. rewrite length_drop in E. simpl in E. lia. }
  simpl. f_equal. replace (S (length w)) with (length w + 1)%nat by lia. by rewrite <-drop_drop, E.
Qed.

Lemma vsnprintf_renders_witness :
  vsnprintf (replicate 12 7) 8 (str "%s=%03d;") [VStr (Some (str "port")); VInt 80] =
    Some (9, str "port=08" ++ 0 :: replicate 4 7).
Proof.
  assert (Hs : 0 <= 8 <= Z.of_nat (length (replicate 12 7))) by (simpl; lia).
  pose proof (vsnprintf_renders (replicate 12 7) 8 (str "%s=%03d;") [VStr (Some (str "port")); VInt 80] Hs) as H.
  assert (E : render (str "%s=%03d;") [VStr (Some (str "port")); VInt 80] = Some (str "port=080;"))
    by (vm_compute; reflexivity).
  rewrite E in H. rewrite H; [vm_compute; reflexivity|vm_compute; reflexivity].
Defined.

(** ** Numbers out and in *)

(** The value of decimal digits, lowest first. *)
Fixpoint dval (ds : list Z) : Z :=
  match ds with [] => 0 | c :: ds => (c - 48) + 10 * dval ds end.

Definition digits (s : list Z) : Prop := Forall (fun c => isdigit c = true) s.

Lemma isdigit_range c : isdigit c = true <-> 48 <= c <= 57.
Proof. unfold isdigit. rewrite andb_true_iff, !Z.leb_le. done. Qed.

Lemma digits_loop_spec fuel n :
  0 <= n < 10 ^ Z.of_nat fuel ->
  let ds := digits_loop fuel digit_char n 10 in digits ds /\ dval ds = n /\ (0 < n -> ds <> []).
Proof.
  revert n. induction fuel as [|fuel IH]; intros n Hn; simpl.
  { rewrite Z.pow_0_r in Hn. split; [constructor|]. simpl. split; [lia|lia]. }
  destruct (Z.ltb_spec 0 n); [|split; [constructor|split; [simpl; lia|lia]]].
  rewrite Nat2Z.inj_succ, Z.pow_succ_r in Hn by lia.
  destruct (IH (n / 10)) as (Hd & Hv & _).
  { split; [zify_div|]. apply Z.div_lt_upper_bound; lia. }
  pose proof (Z.mod_pos_bound n 10 ltac:(lia)) as Hm.
  assert (Ec : digit_char (n mod 10) = 48 + n mod 10).
  { unfold digit_char. destruct (Z.ltb_spec (n mod 10) 10); lia. }
  rewrite Ec. split; [constructor; [apply isdigit_range; lia|done]|]. split; [|done].
  simpl. rewrite Hv. zify_div.
Qed.

Lemma digits_loop_length fuel k n :
  0 <= n < 10 ^ Z.of_nat k -> (length (digits_loop fuel digit_char n 10) <= k)%nat.
Proof.
  revert k n. induction fuel as [|fuel IH]; intros k n Hn; simpl; [lia|].
  destruct (Z.ltb_spec 0 n); [|simpl; lia]. destruct k as [|k]; [rewrite Z.pow_0_r in Hn; lia|].
  simpl. apply le_n_S, IH. rewrite Nat2Z.inj_succ, Z.pow_succ_r in Hn by lia.
  split; [zify_div|]. apply Z.div_lt_upper_bound; lia.
Qed.

(** The digits of a number, of at most [k] places. *)
Lemma utoa_digits_spec k n :
  (1 <= k <= 64)%nat -> 0 <= n < 10 ^ Z.of_nat k ->
  let ds := utoa_digits digit_char n 10 in
  digits ds /\ dval ds = n /\ ds <> [] /\ (length ds <= k)%nat.
Proof.
  intros Hk Hn. unfold utoa_digits. destruct (Z.eqb_spec n 0) as [->|Hnz].
  - split; [by repeat constructor|]. by split_and!; [|done|simpl; lia].
  - destruct (digits_loop_spec 64 n) as (Hd & Hv & Hne).
    { split; [lia|]. eapply Z.lt_le_trans; [apply Hn|]. apply Z.pow_le_mono_r; lia. }
    split_and!; try done; [apply Hne; lia|]. by apply digits_loop_length.
Qed.

Lemma mval_reverse ds : mval 0 (reverse ds) = dval ds.
Proof.
  induction ds as [|c ds IH]; [done|]. rewrite reverse_cons, mval_app, IH. simpl. lia.
Qed.

Lemma mval_mono v s : 0 <= v -> digits s -> v <= mval v s.
Proof.
  intros Hv Hd. revert v Hv. induction Hd as [|c s Hc Hd IH]; intros v Hv; simpl; [lia|].
  apply isdigit_range in Hc. specialize (IH (v * 10 + (c - 48)) ltac:(lia)). lia.
Qed.

(** [atoi] reads digits up to the end of the string, as long as they fit. *)
Lemma atoi_digits_mval v s :
  0 <= v -> digits s -> mval v s < 2 ^ 31 -> atoi_digits v s = mval v s.
Proof.
  intros Hv Hd. revert v Hv. induction Hd as [|c s Hc Hd IH]; intros v Hv Hlt; simpl in *; [done|].
  rewrite Hc. apply isdigit_range in Hc.
  pose proof (mval_mono (v * 10 + (c - 48)) s ltac:(lia) Hd).
  rewrite i32_small by lia. apply IH; [lia|done].
Qed.

Lemma digit_not_blank c r : isdigit c = true -> skip_blanks (c :: r) = c :: r.
Proof.
  intros Hc%isdigit_range. simpl.
  destruct (Z.eqb_spec c 32), (Z.eqb_spec c 9), (Z.eqb_spec c 10), (Z.eqb_spec c 13); try lia. done.
Qed.

Lemma atoi_number s : s <> [] -> digits s -> mval 0 s < 2 ^ 31 -> atoi (Some s) = mval 0 s.
Proof.
  intros Hne Hd Hlt. destruct s as [|c r]; [done|]. unfold atoi.
  pose proof (Forall_inv Hd) as Hc. rewrite digit_not_blank by done. pose proof Hc as Hr%isdigit_range.
  rewrite (proj2 (Z.eqb_neq c 45)), (proj2 (Z.eqb_neq c 43)) by lia. by apply atoi_digits_mval.
Qed.

Lemma atoi_negative s : digits s -> mval 0 s < 2 ^ 31 -> atoi (Some (45 :: s)) = - mval 0 s.
Proof.
  intros Hd Hlt. unfold atoi. simpl. pose proof (mval_mono 0 s ltac:(lia) Hd).
  rewrite atoi_digits_mval by (try done; lia). apply i32_small. lia.
Qed.

(** The text of [%d]. *)
Definition decimal (v : Z) : list Z :=
  (if v <? 0 then [45] else []) ++ reverse (utoa_digits digit_char (Z.abs v) 10).

Lemma utoa_plain n : 0 <= n < 2 ^ 63 -> utoa n 10 0 false = Some (reverse (utoa_digits digit_char n 10)).
Proof.
  intros Hn. destruct (utoa_digits_spec 19 n ltac:(lia)) as (_ & _ & _ & Hl).
  { split; [lia|]. change (10 ^ Z.of_nat 19) with 10000000000000000000. lia. }
  unfold utoa. rewrite (proj2 (Z.ltb_ge 64 _)) by lia.
  replace (Z.to_nat (0 - _)) with O by lia. by rewrite reverse_str_reverse, app_nil_r.
Qed.

Lemma decimal_spec v :
  - 2 ^ 31 < v < 2 ^ 31 ->
  scan (str "%d") [VInt v] = Some (decimal v) /\ atoi (Some (decimal v)) = v /\
  is_cstr (decimal v) /\ (length (decimal v) <= 11)%nat.
Proof.
  intros Hv. assert (Hab : 0 <= Z.abs v < 10 ^ Z.of_nat 10).
  { change (10 ^ Z.of_nat 10) with 10000000000. lia. }
  destruct (utoa_digits_spec 10 (Z.abs v) ltac:(lia) Hab) as (Hd & Hval & Hne & Hlen).
  assert (Hr : digits (reverse (utoa_digits digit_char (Z.abs v) 10))) by (by apply Forall_reverse).
  assert (Hm : mval 0 (reverse (utoa_digits digit_char (Z.abs v) 10)) = Z.abs v) by (by rewrite mval_reverse).
  assert (Hc : is_cstr (reverse (utoa_digits digit_char (Z.abs v) 10))).
  { eapply Forall_impl; [exact Hr|]. intros c Hc%isdigit_range. lia. }
  unfold decimal. split_and!.
  - unfold scan. change (str "%d") with [37; 100]. cbn [length scan_loop negb Z.eqb Pos.eqb].
    change (parse_width 0 false [100]) with (0, false, [100]). cbv iota beta.
    unfold scan_conversion. cbn [Z.eqb Pos.eqb va_int mbind option_bind]. rewrite i32_small by lia.
    destruct (Z.ltb_spec v 0).
    + rewrite (i32_small (- v)) by lia. rewrite (wrap_small 64) by lia.
      rewrite utoa_plain by lia. cbn [mbind option_bind]. rewrite app_nil_r.
      by replace (Z.abs v) with (- v) by lia.
    + rewrite (wrap_small 64) by lia. rewrite utoa_plain by lia. cbn [mbind option_bind]. rewrite app_nil_r.
      by replace (Z.abs v) with v by lia.
  - destruct (Z.ltb_spec v 0); cbn [app].
    + rewrite atoi_negative by (try done; lia). lia.
    + rewrite atoi_number; [lia| |done|lia]. intros E. apply Hne. by apply (f_equal reverse) in E; rewrite reverse_involutive in E.
  - destruct (v <? 0); [by constructor|done].
  - rewrite length_app, length_reverse. destruct (v <? 0); simpl; lia.
Qed.

(** Numbers survive printing and reading: for every [int] except the least,
    [snprintf] with [%d] into twelve bytes or more, then [atoi] of the buffer,
    gives the number back. *)
Theorem snprintf_atoi v b size :
  - 2 ^ 31 < v < 2 ^ 31 -> 12 <= size <= Z.of_nat (length b) ->
  exists n b', vsnprintf b size (str "%d") [VInt v] = Some (n, b') /\ atoi (Some (cstr b')) = v.
Proof.
  intros Hv Hs. destruct (decimal_spec v Hv) as (Hr & Ha & Hc & Hl).
  assert (Et : take (Z.to_nat (size - 1)) (decimal v) = decimal v) by (apply take_ge; lia).
  unfold vsnprintf. unfold scan in Hr.
  assert (E0 : Out 0 b = wrote size b []) by (unfold wrote, written; by rewrite take_nil).
  rewrite E0, (vsn_loop_wrote _ size b [] _ _ _ ltac:(lia) Hr ltac:(simpl; lia)).
  cbn [mbind option_bind app wrote pos buf]. rewrite (proj2 (Z.ltb_lt 0 size)) by lia.
  rewrite (proj2 (Z.ltb_lt (Z.of_nat (length (decimal v))) size)) by lia.
  rewrite length_written, (proj2 (Z.ltb_lt (Z.of_nat (length (decimal v))) _)) by lia.
  eexists _, _. split; [reflexivity|]. unfold written. rewrite Et, Nat2Z.id, insert_app_r_alt, Nat.sub_diag by lia.
  destruct (drop (length (decimal v)) b) as [|x r] eqn:E.
  { apply (f_equal length) in E. rewrite length_drop in E. simpl in E. lia. }
  simpl. by rewrite cstr_is_cstr.
Qed.

Lemma snprintf_atoi_witness :
  exists n b', vsnprintf (replicate 16 1) 16 (str "%d") [VInt (-2147483647)] = Some (n, b') /\
    atoi (Some (cstr b')) = -2147483647.
Proof. apply snprintf_atoi; [lia|simpl; lia]. Defined.

(** [itoa] prints what [atoi] reads. *)
Lemma itoa_atoi n : 0 <= n < 2 ^ 31 -> atoi (Some (itoa n)) = n.
Proof.
  intros Hn. unfold itoa. rewrite reverse_str_reverse.
  destruct (utoa_digits_spec 10 n ltac:(lia)) as (Hd & Hval & Hne & _).
  { change (10 ^ Z.of_nat 10) with 10000000000. lia. }
  rewrite atoi_number, mval_reverse; [done| |by apply Forall_reverse|rewrite mval_reverse; lia].
  intros E. apply Hne. apply (f_equal reverse) in E. by rewrite reverse_involutive in E.
Qed.

(** ** Conversions that go wrong *)

(** The least [int] prints as a number of twenty digits; [%x] prints capital
    letters; a width of 65 stores outside the 64 bytes of [tmp]; a format that
    ends in a percent sign is read beyond its end. *)
Lemma vsnprintf_defects :
  render (str "%d") [VInt (- 2 ^ 31)] = Some (str "-18446744071562067968") /\
  render (str "%x") [VInt 255] = Some (str "FF") /\
  render (str "%65d") [VInt 1] = None /\
  render (str "100%") [] = None.
Proof. split_and!; vm_compute; reflexivity. Qed.

(** ** malloc and friends *)

Section Alloc.
Context {H : Type} `{!KernelHeap H, !KernelHeapSpec H}.
Implicit Types c : cheap H.

(** The bytes recorded belong to live blocks. *)
Definition cheap_ok c : Prop :=
  heap_ok (ch_heap c) /\ forall p, is_Some (ch_bytes c !! p) -> is_Some (live (ch_heap c) !! p).

(** [realloc] of a live block does not keep its contents: it returns a block
    at another address that holds zeros, and the old block is gone. *)
Lemma realloc_forgets c p size bs q c' :
  cheap_ok c -> p <> 0 -> 0 < size < 2 ^ 63 -> ch_bytes c !! p = Some bs -> live (ch_heap c) !! p <> None ->
  realloc p size c = (Some q, c') ->
  q <> p /\ ch_bytes c' !! q = Some (replicate (Z.to_nat size) 0) /\ ch_bytes c' !! p = None /\ cheap_ok c'.
Proof.
  intros [Hok Hlive] Hp Hs Hb Hl. unfold realloc. rewrite (proj2 (Z.eqb_neq p 0)) by done.
  rewrite (proj2 (Z.eqb_neq size 0)) by lia. unfold kmalloc_block.
  destruct (kmalloc size (ch_heap c)) as [[r|] h] eqn:Ek; [|done]. intros [= <- <-].
  destruct (kmalloc_ok _ _ _ _ Hok (conj (Z.lt_le_incl _ _ (proj1 Hs)) (proj2 Hs)) Ek)
    as (Hok1 & _ & _ & Hfresh & sz & _ & Hlv & _).
  assert (Hne : r <> p) by (intros ->; by rewrite Hfresh in Hl).
  assert (Hlp : is_Some (live h !! p)).
  { rewrite Hlv, lookup_insert_ne by done. by destruct (live (ch_heap c) !! p). }
  destruct (kfree_ok h p Hok1 Hlp) as [Hok2 Hlv2]. cbn [zero_block ch_heap ch_bytes].
  split; [done|]. split; [by rewrite lookup_delete_ne, lookup_insert_eq by done|].
  split; [by rewrite lookup_delete_eq|]. split; [done|]. cbn [ch_heap ch_bytes]. intros a.
  rewrite Hlv2, Hlv. destruct (decide (a = p)) as [->|Hap]; [rewrite lookup_delete_eq; by intros []|].
  rewrite !lookup_delete_ne by done. destruct (decide (a = r)) as [->|Har]; [by rewrite !lookup_insert_eq|].
  rewrite !lookup_insert_ne by done. apply Hlive.
Qed.

(** [calloc] multiplies modulo 2^64: the block can be far smaller than asked. *)
Lemma calloc_wraps c n size p c' :
  calloc n size c = (Some p, c') ->
  ch_bytes c' !! p = Some (replicate (Z.to_nat (u64 (n * size))) 0).
Proof.
  unfold calloc, kmalloc_block. destruct (kmalloc _ (ch_heap c)) as [[r|] h]; [|done].
  intros [= <- <-]. cbn [zero_block ch_bytes]. by rewrite lookup_insert_eq.
Qed.
End Alloc.
