(* ===== verification/Elf.v ===== *)
(** The ELF loader: src/kernel/elf.c.  The image is the list of the bytes of its
    buffer; [size] is what the caller says it has.  Segments are mapped and filled
    through the current page tables ([Vmm], [UserMem]).  [None] is a page fault or
    a read outside the image. *)
From Stdlib Require Import ZArith Lia.
From stdpp Require Import base numbers list gmap.
From S2P Require Import Prelude Vmm UserMem.

Definition ELF_MAGIC : Z := 0x464C457F.
Definition ELF_CLASS64 : Z := 2.
Definition ELF_ET_EXEC : Z := 2.
Definition PT_LOAD : Z := 1.
Definition PT_INTERP : Z := 3.

Record elf64_header := Elf64Header {
  e_magic : Z;        (* e_ident[0..3] *)
  e_class : Z;        (* e_ident[4] *)
  e_type : Z;
  e_machine : Z;
  e_entry : Z;
  e_phoff : Z;
  e_phentsize : Z;
  e_phnum : Z;
}.

Record elf64_phdr := Elf64Phdr {
  p_type : Z;
  p_offset : Z;
  p_vaddr : Z;
  p_filesz : Z;
  p_memsz : Z;
}.

Definition sizeof_header : Z := 64.
Definition sizeof_phdr : Z := 56.

(** The [n] bytes at [off] of the image, which memory holds below 2^64. *)
Definition image_bytes (off : Z) (n : Z) (data : list Z) : option (list Z) :=
  if (0 <=? off) && (off + n <=? Z.of_nat (length data)) && (off + n <? 2 ^ 64)
  then Some (slice (Z.to_nat off) (Z.to_nat n) data) else None.

Definition le_field (off n : Z) (b : list Z) : Z := le_val (slice (Z.to_nat off) (Z.to_nat n) b).

Definition header_at (data : list Z) : option elf64_header :=
  b ← image_bytes 0 sizeof_header data;
  Some (Elf64Header (le_field 0 4 b) (le_field 4 1 b) (le_field 16 2 b) (le_field 18 2 b)
          (le_field 24 8 b) (le_field 32 8 b) (le_field 54 2 b) (le_field 56 2 b)).

Definition phdr_at (off : Z) (data : list Z) : option elf64_phdr :=
  b ← image_bytes off sizeof_phdr data;
  Some (Elf64Phdr (le_field 0 4 b) (le_field 8 8 b) (le_field 16 8 b) (le_field 32 8 b) (le_field 40 8 b)).

(** The checks of the header; false is [return -1]. *)
Definition header_ok (eh : elf64_header) : bool :=
  (e_magic eh =? ELF_MAGIC) && (e_class eh =? ELF_CLASS64) && (e_type eh =? ELF_ET_EXEC) &&
  (e_machine eh =? 62) && (e_phentsize eh =? sizeof_phdr) &&
  negb (e_phnum eh =? 0) && (e_phnum eh <=? 1024).

(** The offset of program header [i]. *)
Definition phdr_off (eh : elf64_header) (i : Z) : Z := u64 (e_phoff eh + i * sizeof_phdr).

(** The first loop: no interpreter, and the sizes. *)
Fixpoint check_loop (n : nat) (i total : Z) (eh : elf64_header) (data : list Z) : option bool :=
  match n with
  | O => Some true
  | S n =>
      ph ← phdr_at (phdr_off eh i) data;
      if p_type ph =? PT_INTERP then Some false else
      if p_type ph =? PT_LOAD then
        if 256 * 2 ^ 20 <? p_memsz ph then Some false else
        let total := u64 (total + p_memsz ph) in
        if 512 * 2 ^ 20 <? total then Some false else check_loop n (i + 1) total eh data
      else check_loop n (i + 1) total eh data
  end.

Definition page_down (a : Z) : Z := Z.land a (u64 (Z.lnot 0xFFF)).

Definition seg_start (ph : elf64_phdr) : Z := page_down (p_vaddr ph).
Definition seg_end (ph : elf64_phdr) : Z := page_down (u64 (p_vaddr ph + p_memsz ph + 0xFFF)).

(** A page for each page of the segment; false when none is left.  An iteration
    takes a page, so one more iteration than there are free pages is enough. *)
Fixpoint map_seg_loop (fuel : nat) (cur vend : Z) (s : vm) : option (bool * vm) :=
  match fuel with
  | O => None
  | S fuel =>
      if cur <? vend then
        let '(phys, s) := pmm_alloc s in
        if phys =? 0 then Some (false, s) else
        let s := snd (vmm_map_range cur phys 4096 (Z.lor (Z.lor VMM_PRESENT VMM_WRITE) VMM_USER) s) in
        map_seg_loop fuel (cur + 4096) vend s
      else Some (true, s)
  end.

Fixpoint zero_pages (n : nat) (virt : Z) (s : vm) : option vm :=
  match n with
  | O => Some s
  | S n => s ← memset_page virt s; zero_pages n (virt + 4096) s
  end.

(** The number of bytes copied from the file. *)
Definition copy_size (ph : elf64_phdr) (size : Z) : Z :=
  let copy := if p_memsz ph <? p_filesz ph then p_memsz ph else p_filesz ph in
  if size <? u64 (p_offset ph + copy)
  then (if p_offset ph <? size then size - p_offset ph else 0)
  else copy.

Definition load_segment (ph : elf64_phdr) (data : list Z) (size : Z) (s : vm) : option (bool * vm) :=
  let vaddr := seg_start ph in
  let vend := seg_end ph in
  if vend <=? vaddr then Some (true, s) else
  if (vaddr <? 0x400000) || (0x800000000000 <? vend) then Some (false, s) else
  '(ok, s) ← map_seg_loop (S (length (free_pages_stack s))) vaddr vend s;
  if negb (ok : bool) then Some (false, s) else
  s ← zero_pages (Z.to_nat ((vend - vaddr) / 4096)) vaddr s;
  let copy := copy_size ph size in
  if 0 <? copy then
    bs ← image_bytes (p_offset ph) copy data;
    s ← store_bytes (p_vaddr ph) bs s;
    Some (true, s)
  else Some (true, s).

(** The second loop; false is [return -1]. *)
Fixpoint load_loop (n : nat) (i : Z) (eh : elf64_header) (data : list Z) (size : Z) (s : vm)
    : option (bool * vm) :=
  match n with
  | O => Some (true, s)
  | S n =>
      let phoff := phdr_off eh i in
      if size <? u64 (phoff + sizeof_phdr) then Some (false, s) else
      ph ← phdr_at phoff data;
      if negb (p_type ph =? PT_LOAD) then load_loop n (i + 1) eh data size s else
      '(ok, s) ← load_segment ph data size s;
      if (ok : bool) then load_loop n (i + 1) eh data size s else Some (false, s)
  end.

(** The entry point when the image is loaded; [None] inside is the error code. *)
Definition elf_load (data : list Z) (size : Z) (s : vm) : option (option Z * vm) :=
  if size <? sizeof_header then Some (None, s) else
  eh ← header_at data;
  if negb (header_ok eh) then Some (None, s) else
  ok ← check_loop (Z.to_nat (e_phnum eh)) 0 0 eh data;
  if negb (ok : bool) then Some (None, s) else
  '(ok, s) ← load_loop (Z.to_nat (e_phnum eh)) 0 eh data size s;
  Some (if (ok : bool) then Some (e_entry eh) else None, s).
