(* ===== verification/ElfProps.v ===== *)
(** The properties of the ELF loader: what an image looks like in memory once it is
    loaded, and the read outside the file that a short file provokes. *)
From Stdlib Require Import ZArith Lia.
From stdpp Require Import base numbers list gmap.
From S2P Require Import Prelude Vmm VmmSpec VmmProps VmmFrame UserSpace UserMem UserMemSpec Elf.

(** The user half of an address space; images start at 4 MiB. *)
Definition USER_LO : Z := 0.
Definition IMAGE_LO : Z := 0x400000.
Definition USER_HI : Z := 0x800000000000.

Lemma user_win : win_ok USER_LO USER_HI.
Proof. by split. Qed.

Lemma user_page_flags : Z.land (Z.lor (Z.lor VMM_PRESENT VMM_WRITE) VMM_USER) ADDR_MASK = 0.
Proof. reflexivity. Qed.

(** A step that reserves more and translates the same. *)
Lemma window_more lo hi R R' s s' :
  window lo hi R s -> wf (reserve (R' ++ R) s') -> (forall q t, table_at s q = Some t -> table_at s' q = Some t) ->
  (forall v, vmm_get_phys v s' = vmm_get_phys v s) -> window lo hi (R' ++ R) s'.
Proof.
  intros [Hwf Htame Hpg Hinj Hbase] Hwf' Hk Hph. split; [done| | | |].
  - intros x Hx. rewrite Hph. destruct (Htame x Hx) as [?|[t Ht]]; [by left|right; exists t; by apply Hk].
  - intros a Ha. rewrite Hph. intros Hnz. destruct (Hpg a Ha Hnz) as [? Ho]. split; [set_solver|].
    intros o Hoo. rewrite Hph. by apply Ho.
  - intros a b Ha Hb. rewrite !Hph. by apply Hinj.
  - intros a Ha. rewrite !Hph. by apply Hbase.
Qed.

(** Bytes of frames that are reserved and translate as before. *)
Lemma load_byte_same lo hi R s s' x :
  win_ok lo hi -> window lo hi R s -> lo <= x < hi -> vmm_get_phys x s' = vmm_get_phys x s ->
  (forall p, p ∈ R -> pages s' !! p = pages s !! p) -> load_byte x s' = load_byte x s.
Proof.
  intros Hwo Hwin Hx Hph Hpages. unfold load_byte. rewrite Hph.
  destruct (Z.eqb_spec (vmm_get_phys x s) 0) as [|Hnz]; [done|].
  destruct (window_addr lo hi Hwo R s x Hwin Hx Hnz) as (_ & _ & HfR & Hal & Ex).
  set (f := vmm_get_phys (x - x mod 4096) s) in *.
  destruct (frame_parts f (x mod 4096) Hal ltac:(by apply Z.mod_pos_bound)) as (E1 & _ & _).
  rewrite Ex, E1. unfold entry. by rewrite Hpages.
Qed.

Lemma image_lo_user x : IMAGE_LO <= x -> USER_LO <= x.
Proof. unfold IMAGE_LO, USER_LO. lia. Qed.

(** ** Mapping a segment *)

Lemma map_seg_step fuel cur vend s :
  map_seg_loop (S fuel) cur vend s =
    if cur <? vend then
      let '(phys, s) := pmm_alloc s in
      if phys =? 0 then Some (false, s)
      else map_seg_loop fuel (cur + 4096) vend
             (snd (vmm_map_range cur phys 4096 (Z.lor (Z.lor VMM_PRESENT VMM_WRITE) VMM_USER) s))
    else Some (true, s).
Proof. done. Qed.

(** One page: mapped to the new frame, or, without room for tables, not at all. *)
Lemma map_seg_page R cur f s :
  window USER_LO USER_HI R s -> wf (reserve (f :: R) s) -> win_page USER_LO USER_HI cur ->
  let s' := snd (vmm_map_range cur f 4096 (Z.lor (Z.lor VMM_PRESENT VMM_WRITE) VMM_USER) s) in
  window USER_LO USER_HI (f :: R) s' /\ holds_still (f :: R) s s' /\
  (vmm_get_phys cur s' = 0 \/ vmm_get_phys cur s' = f) /\
  forall x, USER_LO <= x < USER_HI -> ~ (cur <= x < cur + 4096) -> vmm_get_phys x s' = vmm_get_phys x s.
Proof.
  intros Hwin Hwf [Hcur Hal]. destruct (reserved_pages _ s Hwf) as (_ & [Hf _]%Forall_cons & _).
  unfold USER_LO, USER_HI in *. rewrite vmm_map_range_page by (destruct Hf; lia).
  destruct (vmm_map cur f _ s) as [[] s1] eqn:E; cbn [snd].
  - destruct (vmm_map_page _ _ _ _ _ _ Hwf user_page_flags Hal ltac:(lia) Hf E) as (Hst & H4k & Hx).
    assert (Hfr : frames_at cur [f] s1).
    { intros [|i] g o; [|done]. intros [= <-] Ho. rewrite Z.mul_0_l, Z.add_0_r.
      rewrite Hx, decide_True by lia. split; [lia|].
      apply (same_page_mapped cur); [symmetry; apply aligned_mid; lia|done]. }
    assert (H1 : npages_of [f] = 1) by done.
    destruct (window_map 0 0x800000000000 R cur [f] s s1 user_win Hwin Hal ltac:(lia) ltac:(rewrite H1; zify_div)
      (holds_still_shrink _ _ _ _ Hst) (hs_wf _ _ _ Hst) Hfr) as [Hwin' _].
    { intros x Hx0 Hne. rewrite H1 in Hne. rewrite Hx by done. rewrite decide_False by lia. done. }
    split; [done|]. split; [done|]. split.
    + right. rewrite Hx, decide_True by lia. lia.
    + intros x Hx0 Hne. rewrite Hx by lia. by rewrite decide_False.
  - destruct (vmm_map_page_fail _ _ _ _ _ _ Hwf E) as [Hst Hx].
    split; [by apply (window_more _ _ R [f] s); [done|apply Hst|apply Hst|]|]. split; [done|]. split.
    + left. rewrite Hx. destruct (wd_tame _ _ _ _ Hwin cur Hcur) as [?|[t Ht]]; [done|].
      unfold vmm_map in E. by rewrite (map_walk_mapped cur _ s t Ht) in E.
    + intros x _ _. apply Hx.
Qed.

(** The frames [F] were on top of the free stack of [s], and are no longer on that of [s']. *)
Definition taken_frames (F : list Z) (s s' : vm) : Prop :=
  exists ps, free_pages_stack s = ps ++ free_pages_stack s' /\ F ⊆ ps.

Lemma taken_none s s' : free_pages_stack s' = free_pages_stack s -> taken_frames [] s s'.
Proof. intros E. exists []. by rewrite E. Qed.

Lemma taken_app F G s1 s2 s3 : taken_frames F s1 s2 -> taken_frames G s2 s3 -> taken_frames (G ++ F) s1 s3.
Proof.
  intros (p & Hp & Hf) (q & Hq & Hg). exists (p ++ q). rewrite Hp, Hq, <-app_assoc. split; [done|set_solver].
Qed.

Lemma taken_takes k s s' : takes k s s' -> taken_frames [] s s'.
Proof. intros (ps & E & _). exists ps. split; [done|set_solver]. Qed.

Lemma taken_alloc s f s1 : pmm_alloc s = (f, s1) -> f <> 0 -> taken_frames [f] s s1.
Proof.
  unfold pmm_alloc. destruct (free_pages_stack s) as [|x r] eqn:E; intros [= <- <-]; [done|]. intros _.
  exists [x]. by rewrite E.
Qed.

Lemma taken_map_page cur f s :
  win_page USER_LO USER_HI cur -> page_ok f ->
  taken_frames [] s (snd (vmm_map_range cur f 4096 (Z.lor (Z.lor VMM_PRESENT VMM_WRITE) VMM_USER) s)).
Proof.
  intros [Hcur _] Hf. unfold USER_LO, USER_HI in Hcur. rewrite vmm_map_range_page by (destruct Hf; lia).
  unfold vmm_map. destruct (map_walk cur _ s) as [[pt|] s1] eqn:Ew; apply takes_walk, taken_takes in Ew; done.
Qed.

Lemma map_seg_loop_spec fuel cur vend R s ok s' :
  window USER_LO USER_HI R s -> cur mod 4096 = 0 -> vend mod 4096 = 0 -> USER_LO <= cur -> vend <= USER_HI ->
  map_seg_loop fuel cur vend s = Some (ok, s') ->
  exists F, window USER_LO USER_HI (F ++ R) s' /\ taken_frames F s s' /\
    (ok = true -> forall p, p mod 4096 = 0 -> cur <= p < vend -> vmm_get_phys p s' = 0 \/ vmm_get_phys p s' ∈ F) /\
    (forall x, USER_LO <= x < USER_HI -> ~ (cur <= x < vend) -> vmm_get_phys x s' = vmm_get_phys x s) /\
    (forall p, p ∈ R -> pages s' !! p = pages s !! p).
Proof.
  revert cur R s. induction fuel as [|fuel IH]; intros cur R s Hwin Hal Hvend Hlo Hhi; [done|].
  rewrite map_seg_step. destruct (Z.ltb_spec cur vend) as [Hlt|Hge].
  2:{ intros [= <- <-]. exists []. split; [done|]. split; [by apply taken_none|]. split; [intros _ p _ Hp; lia|done]. }
  pose proof (wd_wf _ _ _ _ Hwin) as Hwf.
  destruct (pmm_alloc s) as [f s1] eqn:Ea. destruct (Z.eqb_spec f 0) as [->|Hf].
  { intros [= <- <-]. destruct (pmm_alloc_wf s 0 s1 (wf_unreserve _ _ Hwf) Ea) as [(_ & -> & _)|([] & _)]; [|lia].
    exists []. split; [done|]. split; [by apply taken_none|]. by split. }
  destruct (alloc_holds_still R s f s1 Hwf Ea Hf) as (Hst1 & Hwf1 & _ & Hx1).
  assert (Hwin1 : window USER_LO USER_HI R s1).
  { apply (window_more _ _ R [] s); [done|apply Hst1|apply Hst1|done]. }
  destruct (map_seg_page R cur f s1 Hwin1 Hwf1 ltac:(split; [lia|done])) as (Hwin2 & Hst2 & Hphys & Hx2).
  destruct (reserved_pages _ _ Hwf1) as (_ & [Hfok _]%Forall_cons & _).
  pose proof (taken_map_page cur f s1 ltac:(split; [lia|done]) Hfok) as Ht2.
  set (s2 := snd _) in *. intros Hrun.
  destruct (IH (cur + 4096) (f :: R) s2 Hwin2 ltac:(zify_div) Hvend ltac:(lia) Hhi Hrun) as (F & Hwin' & Ht & Hin & Hx & Hp).
  exists (F ++ [f]). rewrite <-app_assoc. split; [done|]. split; [|split; [|split]].
  - apply (taken_app [f] F s s1); [by apply taken_alloc|]. rewrite <-(app_nil_r F). by apply (taken_app [] F s1 s2).
  - intros Hok p Hpal Hpr. destruct (decide (p = cur)) as [->|Hne].
    + rewrite Hx by lia. destruct Hphys as [E|E]; [by left|]. right. rewrite E. set_solver.
    + destruct (Hin Hok p Hpal ltac:(zify_div)) as [?|?]; [by left|right; set_solver].
  - intros x Hx0 Hne. assert (~ (cur <= x < cur + 4096)) by zify_div. rewrite Hx, Hx2, Hx1 by lia. done.
  - intros p HpR. rewrite Hp by set_solver. rewrite (hs_pages _ _ _ Hst2) by set_solver.
    by apply (hs_pages _ _ _ Hst1).
Qed.

(** ** Clearing and filling it *)

(** Every page of the range is backed by a whole frame. *)
Definition backed (a n : Z) (s : vm) : Prop :=
  forall p, p mod 4096 = 0 -> a <= p < a + n * 4096 -> full_page s (vmm_get_phys p s).

Lemma zero_pages_spec n a R s s' :
  window USER_LO USER_HI R s -> a mod 4096 = 0 -> USER_LO <= a -> a + Z.of_nat n * 4096 <= USER_HI ->
  zero_pages n a s = Some s' ->
  window USER_LO USER_HI R s' /\ (forall v, vmm_get_phys v s' = vmm_get_phys v s) /\
  (forall f, full_page s f -> full_page s' f) /\ backed a (Z.of_nat n) s' /\
  forall x, USER_LO <= x < USER_HI ->
    load_byte x s' = if decide (a <= x < a + Z.of_nat n * 4096) then Some 0 else load_byte x s.
Proof.
  revert a s. induction n as [|n IH]; intros a s Hwin Hal Hlo Hhi; simpl.
  { intros [= <-]. split_and!; try done; [intros p _ Hp; lia|]. intros x Hx. by rewrite decide_False by lia. }
  destruct (memset_page a s) as [s1|] eqn:E; [|done]. simpl. intros Hrun.
  destruct (memset_page_window _ _ user_win R s a s1 Hwin ltac:(split; [lia|done]) E)
    as (Hwin1 & Hph1 & Hfull & Hkeep1 & _ & Hb1).
  destruct (IH (a + 4096) s1 Hwin1 ltac:(zify_div) ltac:(lia) ltac:(lia) Hrun) as (Hwin' & Hph & Hkeep & Hback & Hb).
  split; [done|]. split; [intros v; by rewrite Hph|]. split; [auto|]. split.
  - intros p Hp Hr. destruct (decide (p = a)) as [->|Hne].
    + rewrite Hph, Hph1. by apply Hkeep.
    + apply Hback; [done|]. zify_div.
  - intros x Hx. rewrite Hb, Hb1 by done. repeat case_decide; try done; lia.
Qed.

Lemma store_bytes_spec a bs R s s' lo n :
  window USER_LO USER_HI R s -> lo mod 4096 = 0 -> USER_LO <= lo -> lo + n * 4096 <= USER_HI ->
  backed lo n s -> lo <= a -> a + Z.of_nat (length bs) <= lo + n * 4096 -> Forall is_byte bs ->
  store_bytes a bs s = Some s' ->
  window USER_LO USER_HI R s' /\ (forall v, vmm_get_phys v s' = vmm_get_phys v s) /\
  (forall f, full_page s f -> full_page s' f) /\
  forall x, USER_LO <= x < USER_HI ->
    load_byte x s' = if decide (a <= x < a + Z.of_nat (length bs)) then bs !! Z.to_nat (x - a) else load_byte x s.
Proof.
  intros Hwin Hal Hlo Hhi Hback Ha Hlen Hbytes. revert a s Hwin Hback Ha Hlen.
  induction Hbytes as [|b bs Hb Hbs IH]; intros a s Hwin Hback Ha Hlen; simpl in *.
  { intros [= <-]. split_and!; try done. intros x Hx. by rewrite decide_False by lia. }
  destruct (store_byte a b s) as [s1|] eqn:E; [|done]. simpl. intros Hrun.
  destruct (store_byte_window _ _ user_win R s a b s1 Hwin ltac:(lia) Hb) as (Hwin1 & Hph1 & Hkeep1 & Hb1); [|done|].
  { apply Hback; [zify_div|zify_div]. }
  destruct (IH (a + 1) s1 Hwin1) as (Hwin' & Hph & Hkeep & Hb'); [|lia|lia|done|].
  { intros p Hp Hr. rewrite Hph1. by apply Hkeep1, Hback. }
  split; [done|]. split; [intros v; by rewrite Hph|]. split; [auto|]. intros x Hx. rewrite Hb', Hb1 by done.
  destruct (decide (x = a)) as [->|Hne].
  - rewrite decide_False, decide_True by lia. by rewrite Z.sub_diag.
  - destruct (decide (a + 1 <= x < a + 1 + Z.of_nat (length bs))).
    + rewrite decide_True by lia. by replace (Z.to_nat (x - a)) with (S (Z.to_nat (x - (a + 1)))) by lia.
    + rewrite decide_False by lia. done.
Qed.

(** ** A segment *)

(** What the loader copies from the file is inside it and ends before 2^64. *)
Definition seg_range (ph : elf64_phdr) (x : Z) : Prop := seg_start ph <= x < seg_end ph.

#[global] Instance seg_range_dec ph x : Decision (seg_range ph x).
Proof. unfold seg_range. apply _. Defined.

(** The address [x] of a segment is one of the first [p_filesz] and of the first
    [p_memsz], and the file is long enough to have its byte. *)
Definition in_file (ph : elf64_phdr) (size x : Z) : Prop :=
  p_vaddr ph <= x /\ x - p_vaddr ph < p_filesz ph /\ x - p_vaddr ph < p_memsz ph /\
  p_offset ph + (x - p_vaddr ph) < size.

#[global] Instance in_file_dec ph size x : Decision (in_file ph size x).
Proof. unfold in_file. apply _. Defined.

(** The byte a segment has at [x]: from the file, or a cleared one. *)
Definition segment_byte (data : list Z) (size : Z) (ph : elf64_phdr) (x : Z) : option Z :=
  if decide (in_file ph size x) then data !! Z.to_nat (p_offset ph + (x - p_vaddr ph)) else Some 0.

(** The fields the loader reads are 64-bit values. *)
Record phdr_fits (ph : elf64_phdr) : Prop := {
  pf_offset : 0 <= p_offset ph < 2 ^ 64;
  pf_vaddr : 0 <= p_vaddr ph < 2 ^ 64;
  pf_filesz : 0 <= p_filesz ph < 2 ^ 64;
  pf_memsz : 0 <= p_memsz ph < 2 ^ 64;
}.

Lemma page_down_eq a : 0 <= a < 2 ^ 64 -> page_down a = a - a mod 4096.
Proof.
  intros Ha. unfold page_down. replace (u64 (Z.lnot 0xFFF)) with (Z.shiftl (Z.ones 52) 12) by reflexivity.
  rewrite land_field by lia. rewrite Z.mod_small by (split; [apply Z.div_pos; lia|apply Z.div_lt_upper_bound; lia]).
  zify_div.
Qed.

Lemma page_down_aligned a : 0 <= a < 2 ^ 64 -> page_down a mod 4096 = 0.
Proof. intros Ha. rewrite page_down_eq by done. zify_div. Qed.

Lemma seg_aligned ph : phdr_fits ph -> seg_start ph mod 4096 = 0 /\ seg_end ph mod 4096 = 0.
Proof.
  intros []. split; apply page_down_aligned; [done|]. by apply wrap_bounds.
Qed.

(** The copied bytes of a segment in the user range lie in its pages. *)
Lemma seg_copy ph size :
  phdr_fits ph -> 0 <= size -> p_memsz ph <= 2 ^ 28 -> seg_start ph < seg_end ph -> seg_end ph <= USER_HI ->
  copy_size ph size <= p_memsz ph /\ seg_start ph <= p_vaddr ph /\ p_vaddr ph + p_memsz ph <= seg_end ph.
Proof.
  intros [Ho Hv Hf Hm] Hsize Hmax Hlt Hhi. split.
  - unfold copy_size. destruct (p_memsz ph <? p_filesz ph) eqn:E1; case_match; try lia.
    + destruct (Z.ltb_spec (p_offset ph) size); [|lia].
      destruct (decide (p_offset ph + p_memsz ph < 2 ^ 64)); [rewrite wrap_small in H by lia; lia|].
      assert (u64 (p_offset ph + p_memsz ph) = p_offset ph + p_memsz ph - 2 ^ 64) by
        (unfold wrap; symmetry; apply (Z.mod_unique_pos _ _ 1); lia). lia.
    + destruct (Z.ltb_spec (p_offset ph) size); [|lia].
      destruct (decide (p_offset ph + p_filesz ph < 2 ^ 64)); [rewrite wrap_small in H by lia; lia|].
      assert (u64 (p_offset ph + p_filesz ph) = p_offset ph + p_filesz ph - 2 ^ 64) by
        (unfold wrap; symmetry; apply (Z.mod_unique_pos _ _ 1); lia). lia.
  - unfold USER_HI, seg_start, seg_end in *. rewrite (page_down_eq (p_vaddr ph)) in * by done.
    rewrite page_down_eq in * by (by apply wrap_bounds).
    destruct (decide (p_vaddr ph + p_memsz ph + 0xFFF < 2 ^ 64)); [rewrite wrap_small in * by lia; zify_div|].
    assert (E : u64 (p_vaddr ph + p_memsz ph + 0xFFF) = p_vaddr ph + p_memsz ph + 0xFFF - 2 ^ 64) by
      (unfold wrap; symmetry; apply (Z.mod_unique_pos _ _ 1); lia).
    rewrite E in *. zify_div.
Qed.

(** What is copied is what the file has of the segment, unless the copy ends past 2^64. *)
Lemma copy_in_file ph size :
  phdr_fits ph -> (0 < copy_size ph size -> p_offset ph + copy_size ph size < 2 ^ 64) ->
  forall x, in_file ph size x <-> p_vaddr ph <= x < p_vaddr ph + copy_size ph size.
Proof.
  intros [Ho Hv Hf Hm]. unfold copy_size, in_file. set (c := if p_memsz ph <? p_filesz ph then _ else _).
  assert (Hc : c = Z.min (p_filesz ph) (p_memsz ph)).
  { unfold c. destruct (Z.ltb_spec (p_memsz ph) (p_filesz ph)); lia. }
  clearbody c. intros Hend x. destruct (decide (p_offset ph + c < 2 ^ 64)) as [Hs|Hb].
  - rewrite (wrap_small 64 (p_offset ph + c)) in * by lia. destruct (Z.ltb_spec size (p_offset ph + c)); [|lia].
    destruct (Z.ltb_spec (p_offset ph) size); lia.
  - assert (Eu : u64 (p_offset ph + c) = p_offset ph + c - 2 ^ 64).
    { unfold wrap. symmetry. apply (Z.mod_unique_pos _ _ 1); lia. }
    rewrite Eu in *. destruct (Z.ltb_spec size (p_offset ph + c - 2 ^ 64)); [|lia].
    destruct (Z.ltb_spec (p_offset ph) size); lia.
Qed.

Lemma image_bytes_spec off n data bs :
  0 <= n -> image_bytes off n data = Some bs ->
  0 <= off /\ off + n < 2 ^ 64 /\ length bs = Z.to_nat n /\ forall i, 0 <= i < n -> bs !! Z.to_nat i = data !! Z.to_nat (off + i).
Proof.
  intros Hn. unfold image_bytes. destruct (Z.leb_spec 0 off); [|done].
  destruct (Z.leb_spec (off + n) (Z.of_nat (length data))); [|done].
  destruct (Z.ltb_spec (off + n) (2 ^ 64)); [|done]. intros [= <-].
  split; [done|]. split; [done|]. split; [apply length_slice; lia|]. intros i Hi. unfold slice.
  rewrite lookup_take_lt by lia. rewrite lookup_drop. f_equal. lia.
Qed.

Lemma image_bytes_bytes off n data bs : image_bytes off n data = Some bs -> Forall is_byte data -> Forall is_byte bs.
Proof.
  unfold image_bytes. case_match; [|done]. intros [= <-] Hd. unfold slice. by apply Forall_take, Forall_drop.
Qed.

Lemma zero_pages_keeps n a s s' : zero_pages n a s = Some s' -> free_pages_stack s' = free_pages_stack s.
Proof.
  revert a s. induction n as [|n IH]; intros a s; simpl; [by intros [= <-]|].
  destruct (memset_page a s) as [s1|] eqn:E; [|done]. simpl. intros Hrun. rewrite (IH _ _ Hrun).
  unfold memset_page in E. case_match; [done|]. by injection E as <-.
Qed.

Lemma store_bytes_keeps a bs s s' : store_bytes a bs s = Some s' -> free_pages_stack s' = free_pages_stack s.
Proof.
  revert a s. induction bs as [|b bs IH]; intros a s; simpl; [by intros [= <-]|].
  destruct (store_byte a b s) as [s1|] eqn:E; [|done]. simpl. intros Hrun. rewrite (IH _ _ Hrun).
  unfold store_byte in E. case_match; [done|]. by injection E as <-.
Qed.

(** A segment loaded: its pages are frames taken from the free stack that hold its
    bytes, the other bytes stay. *)
Lemma load_segment_frames R data size ph s s' :
  window USER_LO USER_HI R s -> phdr_fits ph -> p_memsz ph <= 2 ^ 28 -> 0 <= size -> Forall is_byte data ->
  load_segment ph data size s = Some (true, s') ->
  exists F, window USER_LO USER_HI (F ++ R) s' /\
    (seg_start ph < seg_end ph -> IMAGE_LO <= seg_start ph /\ seg_end ph <= USER_HI) /\
    taken_frames F s s' /\
    (forall p, p mod 4096 = 0 -> seg_range ph p -> vmm_get_phys p s' ∈ F) /\
    (forall x, USER_LO <= x < USER_HI -> ~ seg_range ph x -> vmm_get_phys x s' = vmm_get_phys x s) /\
    forall x, USER_LO <= x < USER_HI ->
      load_byte x s' = if decide (seg_range ph x) then segment_byte data size ph x else load_byte x s.
Proof.
  intros Hwin Hfits Hmem Hsize Hdata. unfold load_segment. destruct (seg_aligned ph Hfits) as [Hal1 Hal2].
  destruct (Z.leb_spec (seg_end ph) (seg_start ph)) as [Hle|Hlt].
  { intros [= <-]. exists []. split; [done|]. split; [lia|]. split; [by apply taken_none|].
    split; [unfold seg_range; lia|]. split; [done|]. intros x Hx. rewrite decide_False; [done|].
    unfold seg_range. lia. }
  destruct (Z.ltb_spec (seg_start ph) 0x400000) as [|Hlo0]; [done|].
  destruct (Z.ltb_spec 0x800000000000 (seg_end ph)) as [|Hhi]; [done|]. cbn [orb].
  pose proof (image_lo_user _ Hlo0) as Hlo.
  destruct (map_seg_loop _ _ _ s) as [[[] s1]|] eqn:Em; [|done|done]. cbn [mbind option_bind negb].
  destruct (map_seg_loop_spec _ _ _ R s _ s1 Hwin Hal1 Hal2 Hlo Hhi Em) as (F & Hwin1 & Ht1 & Hin1 & Hx1 & Hp1).
  destruct (zero_pages _ _ s1) as [s2|] eqn:Ez; [|done]. cbn [mbind option_bind].
  assert (En : Z.of_nat (Z.to_nat ((seg_end ph - seg_start ph) / 4096)) * 4096 = seg_end ph - seg_start ph).
  { rewrite Z2Nat.id by zify_div. zify_div. }
  destruct (zero_pages_spec _ _ _ _ _ Hwin1 Hal1 Hlo ltac:(rewrite En; unfold USER_HI; lia) Ez)
    as (Hwin2 & Hph2 & _ & Hback & Hb2). rewrite En in Hb2.
  assert (Hframes : forall p, p mod 4096 = 0 -> seg_range ph p -> vmm_get_phys p s2 ∈ F).
  { intros p Hp Hr. unfold seg_range in Hr. rewrite Hph2. destruct (Hin1 eq_refl p Hp Hr) as [E0|]; [|done].
    assert (Hb : load_byte p s2 = Some 0) by (rewrite Hb2, decide_True; [done|lia|unfold USER_LO, USER_HI in *; lia]).
    unfold load_byte in Hb. by rewrite Hph2, E0 in Hb. }
  assert (Hout : forall x, USER_LO <= x < USER_HI -> ~ seg_range ph x -> vmm_get_phys x s2 = vmm_get_phys x s).
  { intros x Hx Hne. rewrite Hph2. by apply Hx1. }
  assert (Ht2 : taken_frames F s s2).
  { rewrite <-(app_nil_l F). apply (taken_app F [] s s1 s2); [done|]. by eapply taken_none, zero_pages_keeps. }
  assert (Hrest : forall x, USER_LO <= x < USER_HI -> ~ seg_range ph x -> load_byte x s1 = load_byte x s).
  { intros x Hx Hne. by apply (load_byte_same _ _ R s s1 x user_win Hwin Hx); [apply Hx1|]. }
  assert (H0 : forall x, USER_LO <= x < USER_HI ->
    load_byte x s2 = if decide (seg_range ph x) then Some 0 else load_byte x s).
  { intros x Hx. rewrite Hb2 by done.
    destruct (decide (seg_range ph x)) as [Hin|Hin]; pose proof Hin as Hin'; unfold seg_range in Hin'.
    - by rewrite decide_True by lia.
    - rewrite decide_False by lia. by apply Hrest. }
  destruct (seg_copy ph size Hfits Hsize Hmem Hlt Hhi) as (Hc1 & Hc2 & Hc3).
  destruct (Z.ltb_spec 0 (copy_size ph size)) as [Hc|Hc].
  2:{ intros [= <-]. exists F. do 5 (split; [done|]). intros x Hx. rewrite H0 by done.
      destruct (decide _); [|done]. unfold segment_byte.
      rewrite decide_False; [done|]. rewrite (copy_in_file ph size Hfits) by lia. lia. }
  destruct (image_bytes _ _ data) as [bs|] eqn:Ei; [|done]. cbn [mbind option_bind].
  destruct (image_bytes_spec _ _ _ _ (Z.lt_le_incl _ _ Hc) Ei) as (_ & Hend & Hlen & Hbs).
  destruct (store_bytes _ bs s2) as [s3|] eqn:Es; [|done]. intros [= <-].
  destruct (store_bytes_spec _ bs _ s2 s3 _ _ Hwin2 Hal1 Hlo ltac:(rewrite En; unfold USER_HI; lia) Hback Hc2
    ltac:(rewrite En; lia) (image_bytes_bytes _ _ _ _ Ei Hdata) Es) as (Hwin3 & Hph3 & _ & Hb3).
  exists F. split; [done|]. split; [done|]. split.
  { rewrite <-(app_nil_l F). apply (taken_app F [] s s2 s3); [done|]. by eapply taken_none, store_bytes_keeps. }
  split; [intros p Hp Hr; rewrite Hph3; by apply Hframes|]. split; [intros x Hx Hne; rewrite Hph3; by apply Hout|].
  intros x Hx. rewrite Hb3, H0 by done. rewrite Hlen, Z2Nat.id by lia.
  unfold segment_byte. pose proof (copy_in_file ph size Hfits ltac:(lia) x) as Hiff.
  destruct (decide (p_vaddr ph <= x < p_vaddr ph + copy_size ph size)) as [Hin|Hne].
  - rewrite (decide_True (P := seg_range ph x)) by (unfold seg_range; lia).
    rewrite (decide_True (P := in_file ph size x)) by (by apply Hiff). apply Hbs. lia.
  - by rewrite (decide_False (P := in_file ph size x)) by (by rewrite Hiff).
Qed.

Lemma load_segment_spec R data size ph s s' :
  window USER_LO USER_HI R s -> phdr_fits ph -> p_memsz ph <= 2 ^ 28 -> 0 <= size -> Forall is_byte data ->
  load_segment ph data size s = Some (true, s') ->
  exists F, window USER_LO USER_HI (F ++ R) s' /\
    (seg_start ph < seg_end ph -> IMAGE_LO <= seg_start ph /\ seg_end ph <= USER_HI) /\
    forall x, USER_LO <= x < USER_HI ->
      load_byte x s' = if decide (seg_range ph x) then segment_byte data size ph x else load_byte x s.
Proof.
  intros Hwin Hfits Hmem Hsize Hdata E.
  destruct (load_segment_frames R data size ph s s' Hwin Hfits Hmem Hsize Hdata E) as (F & Hw & Hr & _ & _ & _ & Hb).
  by exists F.
Qed.

(** ** The image *)

(** The header fields and the program headers of an image made of bytes. *)
Lemma le_val_bound bs : Forall is_byte bs -> 0 <= le_val bs < 256 ^ Z.of_nat (length bs).
Proof.
  induction 1 as [|b bs Hb _ IH]; [done|]. cbn [le_val length]. rewrite Nat2Z.inj_succ, Z.pow_succ_r by lia.
  unfold is_byte in Hb. nia.
Qed.

Lemma le_field_bound off n b : Forall is_byte b -> 0 <= n -> 0 <= le_field off n b < 256 ^ n.
Proof.
  intros Hb Hn. unfold le_field. set (l := slice _ _ b).
  assert (Hl : Forall is_byte l) by (unfold l, slice; by apply Forall_take, Forall_drop).
  pose proof (le_val_bound l Hl). assert (Z.of_nat (length l) <= n).
  { unfold l, slice. rewrite length_take. lia. }
  pose proof (Z.pow_le_mono_r 256 (Z.of_nat (length l)) n ltac:(lia) ltac:(lia)). lia.
Qed.

Lemma phdr_at_fits off data ph : phdr_at off data = Some ph -> Forall is_byte data -> phdr_fits ph.
Proof.
  unfold phdr_at. destruct (image_bytes off _ data) as [b|] eqn:E; [|done]. intros [= <-] Hd.
  pose proof (image_bytes_bytes _ _ _ _ E Hd) as Hb.
  split; simpl; change (2 ^ 64) with (256 ^ 8); by apply le_field_bound.
Qed.

(** The program headers from number [i] on. *)
Fixpoint phdrs_from (n : nat) (i : Z) (eh : elf64_header) (data : list Z) : option (list elf64_phdr) :=
  match n with
  | O => Some []
  | S n => ph ← phdr_at (phdr_off eh i) data; phs ← phdrs_from n (i + 1) eh data; Some (ph :: phs)
  end.

Definition is_load (ph : elf64_phdr) : Prop := p_type ph = PT_LOAD.

#[global] Instance is_load_dec ph : Decision (is_load ph).
Proof. unfold is_load. apply _. Defined.

(** The byte at [x] when the segments are placed one after the other. *)
Definition image_byte (data : list Z) (size : Z) (phs : list elf64_phdr) (x : Z) (before : option Z) : option Z :=
  foldl (fun b ph => if decide (is_load ph /\ seg_range ph x) then segment_byte data size ph x else b) before phs.

(** What the two loops establish of each header. *)
Record phdr_checked (ph : elf64_phdr) : Prop := {
  pc_interp : p_type ph <> PT_INTERP;
  pc_memsz : is_load ph -> p_memsz ph <= 2 ^ 28;
  pc_range : is_load ph -> seg_start ph < seg_end ph -> IMAGE_LO <= seg_start ph /\ seg_end ph <= USER_HI;
}.

Lemma check_loop_spec n i total eh data phs :
  phdrs_from n i eh data = Some phs -> check_loop n i total eh data = Some true ->
  Forall (fun ph => p_type ph <> PT_INTERP /\ (is_load ph -> p_memsz ph <= 2 ^ 28)) phs.
Proof.
  revert i total phs. induction n as [|n IH]; intros i total phs; simpl; [intros [= <-] _; by constructor|].
  destruct (phdr_at (phdr_off eh i) data) as [ph|]; [|done]. cbn [mbind option_bind].
  destruct (phdrs_from n (i + 1) eh data) as [phs'|] eqn:Ep; [|done]. intros [= <-].
  destruct (Z.eqb_spec (p_type ph) PT_INTERP) as [|Hni]; [done|].
  destruct (Z.eqb_spec (p_type ph) PT_LOAD) as [Hl|Hl].
  - destruct (Z.ltb_spec (256 * 2 ^ 20) (p_memsz ph)); [done|]. case_match; [done|].
    intros Hc. constructor; [|by eapply IH]. split; [done|]. intros _. lia.
  - intros Hc. constructor; [|by eapply IH]. split; [done|]. by intros ?.
Qed.

Lemma check_loop_phdrs n i total eh data :
  check_loop n i total eh data = Some true -> exists phs, phdrs_from n i eh data = Some phs /\ length phs = n.
Proof.
  revert i total. induction n as [|n IH]; intros i total; simpl; [by exists []|].
  destruct (phdr_at (phdr_off eh i) data) as [ph|]; [|done]. cbn [mbind option_bind].
  intros Hc. assert (exists t, check_loop n (i + 1) t eh data = Some true) as [t Ht].
  { repeat case_match; try done; eauto. }
  destruct (IH _ _ Ht) as (phs & -> & Hl). exists (ph :: phs). split; [done|]. simpl. lia.
Qed.

(** Some header the loader places has [x] in its pages. *)
Definition in_image (phs : list elf64_phdr) (x : Z) : Prop :=
  Exists (fun ph => is_load ph /\ seg_range ph x) phs.

#[global] Instance in_image_dec phs x : Decision (in_image phs x).
Proof. unfold in_image. apply _. Defined.

Lemma load_loop_frames n i eh data size phs R s s' :
  Forall is_byte data -> 0 <= size -> phdrs_from n i eh data = Some phs ->
  Forall (fun ph => p_type ph <> PT_INTERP /\ (is_load ph -> p_memsz ph <= 2 ^ 28)) phs ->
  window USER_LO USER_HI R s -> load_loop n i eh data size s = Some (true, s') ->
  exists F, window USER_LO USER_HI (F ++ R) s' /\ Forall phdr_checked phs /\
    taken_frames F s s' /\
    (forall p, p mod 4096 = 0 -> USER_LO <= p < USER_HI -> in_image phs p -> vmm_get_phys p s' ∈ F) /\
    (forall x, USER_LO <= x < USER_HI -> ~ in_image phs x -> vmm_get_phys x s' = vmm_get_phys x s) /\
    forall x, USER_LO <= x < USER_HI -> load_byte x s' = image_byte data size phs x (load_byte x s).
Proof.
  intros Hdata Hsize. revert i phs R s. induction n as [|n IH]; intros i phs R s; simpl.
  { intros [= <-] _ Hwin [= <-]. exists []. split; [done|]. split; [by constructor|]. split; [by apply taken_none|].
    split; [intros p _ _ Hp; by apply Exists_nil in Hp|done]. }
  destruct (phdr_at (phdr_off eh i) data) as [ph|] eqn:Eph; [|done]. cbn [mbind option_bind].
  pose proof (phdr_at_fits _ _ _ Eph Hdata) as Hfits.
  destruct (phdrs_from n (i + 1) eh data) as [phs'|] eqn:Ep; [|done]. intros [= <-] Hall.
  apply Forall_cons in Hall as [[Hni Hmem] Hall]. intros Hwin. case_match; [done|].
  destruct (Z.eqb_spec (p_type ph) PT_LOAD) as [Hl|Hl]; cbn [negb].
  - destruct (load_segment ph data size s) as [[[] s1]|] eqn:El; [|done|done]. cbn [mbind option_bind].
    destruct (load_segment_frames R data size ph s s1 Hwin Hfits (Hmem Hl) Hsize Hdata El)
      as (F & Hwin1 & Hr & Ht & Hin & Hout & Hb).
    intros Hrun. destruct (IH _ _ _ _ Ep Hall Hwin1 Hrun) as (F' & Hwin' & Hck & Ht' & Hin' & Hout' & Hb').
    exists (F' ++ F). rewrite <-app_assoc. split; [done|]. split; [by constructor|].
    split; [by apply (taken_app F F' s s1)|]. split; [|split].
    { intros p Hp Hu Himg. destruct (decide (in_image phs' p)) as [Hi|Hn].
      - apply elem_of_app. left. by apply Hin'.
      - apply Exists_cons in Himg as [[_ Hs]|?]; [|done]. rewrite Hout' by done. apply elem_of_app. right. by apply Hin. }
    { intros x Hx Hn. rewrite Hout' by (done || (intros Hc; apply Hn; by right)).
      apply Hout; [done|]. intros Hc. apply Hn. by left. }
    intros x Hx. rewrite Hb', Hb by done. cbn [image_byte foldl]. unfold image_byte. f_equal.
    destruct (decide (seg_range ph x)); [by rewrite decide_True|by rewrite decide_False by tauto].
  - intros Hrun. destruct (IH _ _ _ _ Ep Hall Hwin Hrun) as (F' & Hwin' & Hck & Ht' & Hin' & Hout' & Hb').
    exists F'. split; [done|]. split; [by constructor|]. split; [done|]. split; [|split].
    { intros p Hp Hu [[Hc _]|?]%Exists_cons; [done|by apply Hin']. }
    { intros x Hx Hn. apply Hout'; [done|]. intros Hc. apply Hn. by right. }
    intros x Hx. rewrite Hb' by done.
    cbn [image_byte foldl]. unfold image_byte. f_equal. by rewrite decide_False by tauto.
Qed.

Lemma load_loop_spec n i eh data size phs R s s' :
  Forall is_byte data -> 0 <= size -> phdrs_from n i eh data = Some phs ->
  Forall (fun ph => p_type ph <> PT_INTERP /\ (is_load ph -> p_memsz ph <= 2 ^ 28)) phs ->
  window USER_LO USER_HI R s -> load_loop n i eh data size s = Some (true, s') ->
  exists F, window USER_LO USER_HI (F ++ R) s' /\ Forall phdr_checked phs /\
    forall x, USER_LO <= x < USER_HI -> load_byte x s' = image_byte data size phs x (load_byte x s).
Proof.
  intros Hdata Hsize Ep Hall Hwin E.
  destruct (load_loop_frames _ _ _ _ _ _ _ _ _ Hdata Hsize Ep Hall Hwin E) as (F & Hw & Hck & _ & _ & _ & Hb).
  by exists F.
Qed.

(** What a successful load went through. *)
Lemma elf_load_inv data size e s s' :
  elf_load data size s = Some (Some e, s') ->
  0 <= size /\ exists eh phs,
    header_at data = Some eh /\ header_ok eh = true /\ e = e_entry eh /\
    phdrs_from (Z.to_nat (e_phnum eh)) 0 eh data = Some phs /\
    Forall (fun ph => p_type ph <> PT_INTERP /\ (is_load ph -> p_memsz ph <= 2 ^ 28)) phs /\
    load_loop (Z.to_nat (e_phnum eh)) 0 eh data size s = Some (true, s').
Proof.
  unfold elf_load, sizeof_header. destruct (Z.ltb_spec size 64) as [|Hsz]; [done|].
  destruct (header_at data) as [eh|]; [|done]. cbn [mbind option_bind].
  destruct (header_ok eh) eqn:Hok; cbn [negb]; [|done].
  destruct (check_loop _ 0 0 eh data) as [[]|] eqn:Ec; [|done|done]. cbn [mbind option_bind negb].
  destruct (check_loop_phdrs _ _ _ _ _ Ec) as (phs & Ep & _).
  pose proof (check_loop_spec _ _ _ _ _ _ Ep Ec) as Hall.
  destruct (load_loop _ 0 eh data size s) as [[[] s1]|] eqn:El; [|done|done]. intros [= <- <-].
  split; [lia|]. by exists eh, phs.
Qed.

(** C12. An image that loads is in memory as its program headers say: none asks for
    an interpreter, every segment with pages lies between 4 MiB and 2^47 and has
    at most 256 MiB, each of its pages is a frame that was on the free stack, is
    not on it any more and is shared with no other page of the process, and a
    user byte is, for the last segment whose pages hold it, the byte of the file
    at the same distance from p_offset when it is within p_filesz, p_memsz and the
    file, else zero; outside the pages translations and bytes are as before. *)
Theorem elf_load_image R data size s e s' :
  window USER_LO USER_HI R s -> Forall is_byte data ->
  elf_load data size s = Some (Some e, s') ->
  exists eh phs F,
    header_at data = Some eh /\ header_ok eh = true /\ e = e_entry eh /\
    phdrs_from (Z.to_nat (e_phnum eh)) 0 eh data = Some phs /\ Forall phdr_checked phs /\
    window USER_LO USER_HI (F ++ R) s' /\ taken_frames F s s' /\
    (forall p, p mod 4096 = 0 -> USER_LO <= p < USER_HI -> in_image phs p -> vmm_get_phys p s' ∈ F) /\
    (forall x, USER_LO <= x < USER_HI -> ~ in_image phs x -> vmm_get_phys x s' = vmm_get_phys x s) /\
    forall x, USER_LO <= x < USER_HI -> load_byte x s' = image_byte data size phs x (load_byte x s).
Proof.
  intros Hwin Hdata E. destruct (elf_load_inv _ _ _ _ _ E) as (Hsize & eh & phs & Heh & Hok & He & Ep & Hall & El).
  destruct (load_loop_frames _ _ _ _ _ _ _ _ _ Hdata Hsize Ep Hall Hwin El) as (F & Hwin' & Hck & Ht & Hin & Hout & Hb).
  exists eh, phs, F. repeat (split; [done|]). done.
Qed.

(** ** Images that load *)

(** A page is mapped when there is room for it and its tables. *)
Lemma map_seg_enough fuel cur vend R s :
  window USER_LO USER_HI R s -> cur mod 4096 = 0 -> vend mod 4096 = 0 -> USER_LO <= cur -> vend <= USER_HI ->
  6 * (vend - cur) <= 4096 * Z.of_nat (length (free_pages_stack s)) -> (Z.to_nat ((vend - cur) / 4096) < fuel)%nat ->
  exists s', map_seg_loop fuel cur vend s = Some (true, s') /\
    (forall p, p mod 4096 = 0 -> cur <= p < vend -> vmm_get_phys p s' <> 0) /\
    4096 * Z.of_nat (length (free_pages_stack s)) <=
      6 * Z.max 0 (vend - cur) + 4096 * Z.of_nat (length (free_pages_stack s')).
Proof.
  revert cur R s. induction fuel as [|fuel IH]; intros cur R s Hwin Hal Hvend Hlo Hhi Hroom Hfuel; [lia|].
  rewrite map_seg_step. destruct (Z.ltb_spec cur vend) as [Hlt|Hge].
  2:{ exists s. split; [done|]. split; [|lia]. intros p _ Hp. lia. }
  pose proof (wd_wf _ _ _ _ Hwin) as Hwf. assert (Hpg : cur + 4096 <= vend) by zify_div.
  destruct (pmm_alloc s) as [f s1] eqn:Ea.
  destruct (pmm_alloc_wf s f s1 (wf_unreserve _ _ Hwf) Ea) as [(_ & _ & Hnil)|([Hf Hfa] & Hst & _)].
  { rewrite Hnil in Hroom. simpl in Hroom. lia. }
  rewrite (proj2 (Z.eqb_neq f 0)) by lia.
  destruct (alloc_holds_still R s f s1 Hwf Ea ltac:(lia)) as (Hst1 & Hwf1 & _ & Hx1).
  assert (Hwin1 : window USER_LO USER_HI R s1).
  { apply (window_more _ _ R [] s); [done|apply Hst1|apply Hst1|done]. }
  assert (Hcur : win_page USER_LO USER_HI cur) by (split; [lia|done]).
  destruct (map_seg_page R cur f s1 Hwin1 Hwf1 Hcur) as (Hwin2 & Hst2 & _ & Hx2).
  unfold USER_LO, USER_HI in Hlo, Hhi, Hcur.
  rewrite vmm_map_range_page in * by lia.
  destruct (vmm_map cur f _ s1) as [[] s2] eqn:Ev; cbn [snd] in *.
  2:{ exfalso. unfold vmm_map in Ev. destruct (map_walk cur _ s1) as [[pt|] s3] eqn:Ew; [done|].
      destruct (map_walk_spec _ _ _ _ _ (wf_unreserve _ _ Hwf1) Ew) as [_ Hl].
      rewrite Hst in Hroom. simpl in Hroom. lia. }
  destruct (vmm_map_page _ _ _ _ _ _ Hwf1 user_page_flags Hal ltac:(lia) (conj Hf Hfa) Ev) as (_ & _ & Hx).
  assert (Hal' : (cur + 4096) mod 4096 = 0) by zify_div.
  assert (Hlo' : USER_LO <= cur + 4096) by (unfold USER_LO; lia).
  assert (Hlen : (length (free_pages_stack s) <= 6 + length (free_pages_stack s2))%nat).
  { unfold vmm_map in Ev. destruct (map_walk cur _ s1) as [[pt|] s3] eqn:Ew; [|done]. injection Ev as <-.
    pose proof (takes_length _ _ _ (takes_walk _ _ _ _ _ Ew)). rewrite Hst. simpl in *. lia. }
  destruct (IH (cur + 4096) (f :: R) s2 Hwin2 Hal' Hvend Hlo' Hhi
    ltac:(lia) ltac:(zify_div)) as (s' & Hrun & Hmap & Hl').
  exists s'. split; [done|]. split; [|lia]. intros p Hp Hr.
  destruct (decide (p = cur)) as [->|Hne]; [|apply Hmap; [done|zify_div]].
  destruct (map_seg_loop_spec _ _ _ _ _ _ _ Hwin2 Hal' Hvend Hlo' Hhi Hrun)
    as (_ & _ & _ & _ & Hkeep & _).
  rewrite Hkeep by (unfold USER_LO, USER_HI; lia). rewrite Hx, decide_True by lia. lia.
Qed.

Lemma zero_pages_enough n a R s :
  window USER_LO USER_HI R s -> a mod 4096 = 0 -> USER_LO <= a -> a + Z.of_nat n * 4096 <= USER_HI ->
  (forall p, p mod 4096 = 0 -> a <= p < a + Z.of_nat n * 4096 -> vmm_get_phys p s <> 0) ->
  exists s', zero_pages n a s = Some s' /\ free_pages_stack s' = free_pages_stack s.
Proof.
  revert a s. induction n as [|n IH]; intros a s Hwin Hal Hlo Hhi Hmap; simpl; [by eexists|].
  destruct (memset_page a s) as [s1|] eqn:E.
  - destruct (memset_page_window _ _ user_win R s a s1 Hwin ltac:(split; [lia|done]) E) as (Hwin1 & Hph1 & _).
    assert (Hfree : free_pages_stack s1 = free_pages_stack s).
    { unfold memset_page in E. case_match; [done|]. by injection E as <-. }
    assert (Hal' : (a + 4096) mod 4096 = 0) by zify_div.
    destruct (IH (a + 4096) s1 Hwin1 Hal' ltac:(lia) ltac:(lia)) as (s' & Es & Ef).
    { intros p Hp Hr. rewrite Hph1. apply Hmap; [done|lia]. }
    exists s'. split; [done|]. by rewrite Ef.
  - unfold memset_page in E. destruct (Z.eqb_spec (vmm_get_phys a s) 0) as [E0|]; [|done].
    by destruct (Hmap a Hal ltac:(lia)).
Qed.

Lemma store_bytes_enough a bs R s lo n :
  window USER_LO USER_HI R s -> lo mod 4096 = 0 -> USER_LO <= lo -> lo + n * 4096 <= USER_HI ->
  backed lo n s -> lo <= a -> a + Z.of_nat (length bs) <= lo + n * 4096 -> Forall is_byte bs ->
  (forall p, p mod 4096 = 0 -> lo <= p < lo + n * 4096 -> vmm_get_phys p s <> 0) ->
  exists s', store_bytes a bs s = Some s' /\ free_pages_stack s' = free_pages_stack s.
Proof.
  intros Hwin Hal Hlo Hhi Hback Ha Hlen Hbytes. revert a s Hwin Hback Ha Hlen.
  induction Hbytes as [|b bs Hb Hbs IH]; intros a s Hwin Hback Ha Hlen Hmap; simpl in *; [by eexists|].
  destruct (store_byte a b s) as [s1|] eqn:E.
  - destruct (store_byte_window _ _ user_win R s a b s1 Hwin ltac:(lia) Hb) as (Hwin1 & Hph1 & Hkeep1 & _); [|done|].
    { apply Hback; [zify_div|zify_div]. }
    assert (Hfree : free_pages_stack s1 = free_pages_stack s).
    { unfold store_byte in E. case_match; [done|]. by injection E as <-. }
    destruct (IH (a + 1) s1 Hwin1) as (s' & Es & Ef); [|lia|lia| |].
    + intros p Hp Hr. rewrite Hph1. by apply Hkeep1, Hback.
    + intros p Hp Hr. rewrite Hph1. by apply Hmap.
    + exists s'. split; [done|]. by rewrite Ef.
  - exfalso. unfold store_byte in E. destruct (Z.eqb_spec (vmm_get_phys a s) 0) as [E0|]; [|done].
    assert (Hp : win_page USER_LO USER_HI (a - a mod 4096)) by (split; zify_div).
    assert (Hnz : vmm_get_phys (a - a mod 4096) s <> 0) by (apply Hmap; zify_div).
    destruct (wd_page _ _ _ _ Hwin _ Hp Hnz) as [HR Hoff].
    specialize (Hoff (a mod 4096) ltac:(by apply Z.mod_pos_bound)).
    replace (a - a mod 4096 + a mod 4096) with a in Hoff by lia.
    destruct (reserved_pages _ _ (wd_wf _ _ _ _ Hwin)) as (_ & Hok & _). rewrite Forall_forall in Hok.
    destruct (Hok _ HR). pose proof (Z.mod_pos_bound a 4096). lia.
Qed.

(** The bytes of pages a header asks for. *)
Definition seg_bytes (ph : elf64_phdr) : Z :=
  if decide (is_load ph) then Z.max 0 (seg_end ph - seg_start ph) else 0.

(** A header that is accepted: what is copied ends before 2^64. *)
Record loadable (ph : elf64_phdr) : Prop := {
  ld_checked : phdr_checked ph;
  ld_file : is_load ph -> p_offset ph + p_filesz ph < 2 ^ 64;
}.

Lemma copy_inside ph data size :
  phdr_fits ph -> p_offset ph + p_filesz ph < 2 ^ 64 -> size <= Z.of_nat (length data) ->
  0 < copy_size ph size -> exists bs, image_bytes (p_offset ph) (copy_size ph size) data = Some bs.
Proof.
  intros [Ho Hv Hf Hm] Hend Hsize. unfold copy_size. set (c := if _ <? p_filesz ph then _ else _).
  assert (Hc : 0 <= c <= p_filesz ph) by (unfold c; case_match; lia). rewrite wrap_small by lia.
  intros Hpos. unfold image_bytes. rewrite (proj2 (Z.leb_le 0 _)) by lia.
  rewrite (proj2 (Z.leb_le _ _)), (proj2 (Z.ltb_lt _ _)); [by eexists|..];
    (destruct (Z.ltb_spec size (p_offset ph + c)); [|lia]); destruct (Z.ltb_spec (p_offset ph) size); lia.
Qed.

Lemma load_segment_enough R data size ph s :
  window USER_LO USER_HI R s -> Forall is_byte data -> 0 <= size <= Z.of_nat (length data) ->
  phdr_fits ph -> is_load ph -> loadable ph ->
  6 * seg_bytes ph <= 4096 * Z.of_nat (length (free_pages_stack s)) ->
  exists s', load_segment ph data size s = Some (true, s') /\
    4096 * Z.of_nat (length (free_pages_stack s)) <= 6 * seg_bytes ph + 4096 * Z.of_nat (length (free_pages_stack s')).
Proof.
  intros Hwin Hdata Hsize Hfits Hl [[_ Hmem Hrange] Hfile]. unfold seg_bytes. rewrite decide_True by done.
  specialize (Hmem Hl). specialize (Hrange Hl). specialize (Hfile Hl). intros Hroom.
  unfold load_segment. destruct (seg_aligned ph Hfits) as [Hal1 Hal2].
  destruct (Z.leb_spec (seg_end ph) (seg_start ph)) as [Hle|Hlt]; [exists s; split; [done|lia]|].
  destruct (Hrange Hlt) as [Hlo' Hhi]. pose proof (image_lo_user _ Hlo') as Hlo. pose proof Hhi as Hhi'. unfold IMAGE_LO, USER_HI in Hlo', Hhi'.
  rewrite (proj2 (Z.ltb_ge (seg_start ph) _)), (proj2 (Z.ltb_ge _ (seg_end ph))) by lia. cbn [orb].
  set (fuel := S _). set (n := (seg_end ph - seg_start ph) / 4096).
  assert (En : Z.of_nat (Z.to_nat n) * 4096 = seg_end ph - seg_start ph) by (unfold n; zify_div).
  assert (Hfuel : (Z.to_nat n < fuel)%nat) by (unfold fuel; lia).
  assert (Hroom' : 6 * (seg_end ph - seg_start ph) <= 4096 * Z.of_nat (length (free_pages_stack s))) by lia.
  destruct (map_seg_enough fuel _ _ R s Hwin Hal1 Hal2 Hlo Hhi Hroom' Hfuel) as (s1 & Em & Hmap & Hlen).
  rewrite Em. cbn [mbind option_bind negb].
  destruct (map_seg_loop_spec _ _ _ R s _ s1 Hwin Hal1 Hal2 Hlo Hhi Em) as (F & Hwin1 & _).
  assert (Hn : seg_start ph + Z.of_nat (Z.to_nat n) * 4096 <= USER_HI) by lia.
  destruct (zero_pages_enough (Z.to_nat n) (seg_start ph) _ s1 Hwin1 Hal1 Hlo Hn) as (s2 & Ez & Ef2).
  { intros p Hp Hr. apply Hmap; [done|lia]. }
  destruct (zero_pages_spec _ _ _ _ _ Hwin1 Hal1 Hlo Hn Ez) as (Hwin2 & Hph2 & _ & Hback & _).
  rewrite Ez. cbn [mbind option_bind]. destruct (seg_copy ph size Hfits (proj1 Hsize) Hmem Hlt Hhi) as (Hc1 & Hc2 & Hc3).
  destruct (Z.ltb_spec 0 (copy_size ph size)) as [Hc|Hc]; [|exists s2; rewrite Ef2; split; [done|lia]].
  destruct (copy_inside ph data size Hfits Hfile (proj2 Hsize) Hc) as [bs Ei]. rewrite Ei. cbn [mbind option_bind].
  destruct (image_bytes_spec _ _ _ _ (Z.lt_le_incl _ _ Hc) Ei) as (_ & _ & Hlb & _).
  assert (Hend : p_vaddr ph + Z.of_nat (length bs) <= seg_start ph + Z.of_nat (Z.to_nat n) * 4096) by lia.
  destruct (store_bytes_enough (p_vaddr ph) bs _ s2 _ _ Hwin2 Hal1 Hlo Hn Hback Hc2 Hend
    (image_bytes_bytes _ _ _ _ Ei Hdata)) as (s3 & Es & Ef3).
  { intros p Hp Hr. rewrite Hph2. apply Hmap; [done|lia]. }
  rewrite Es. exists s3. rewrite Ef3, Ef2. split; [done|lia].
Qed.

Definition total (f : elf64_phdr -> Z) (phs : list elf64_phdr) : Z := foldr (fun ph a => f ph + a) 0 phs.

(** What a header adds to [total_memsz]. *)
Definition mem_bytes (ph : elf64_phdr) : Z := if decide (is_load ph) then p_memsz ph else 0.

Lemma total_bytes_nonneg f phs : (forall ph, ph ∈ phs -> 0 <= f ph) -> 0 <= total f phs.
Proof.
  induction phs as [|ph phs IH]; intros Hf; simpl; [lia|].
  pose proof (Hf ph ltac:(by left)). assert (0 <= total f phs); [|lia]. apply IH. intros q Hq. apply Hf. by right.
Qed.

Lemma phdrs_from_fits n i eh data phs :
  Forall is_byte data -> phdrs_from n i eh data = Some phs -> Forall phdr_fits phs.
Proof.
  intros Hd. revert i phs. induction n as [|n IH]; intros i phs; simpl; [by intros [= <-]|].
  destruct (phdr_at (phdr_off eh i) data) as [ph|] eqn:E; [|done]. cbn [mbind option_bind].
  destruct (phdrs_from n (i + 1) eh data) as [phs'|] eqn:Ep; [|done]. intros [= <-].
  constructor; [by eapply phdr_at_fits|by eapply IH].
Qed.

Lemma mem_bytes_nonneg ph : phdr_fits ph -> 0 <= mem_bytes ph.
Proof. intros []. unfold mem_bytes. case_match; lia. Qed.

Lemma check_loop_enough n i t eh data phs :
  phdrs_from n i eh data = Some phs -> Forall phdr_fits phs -> Forall phdr_checked phs ->
  0 <= t -> t + total mem_bytes phs <= 2 ^ 29 -> check_loop n i t eh data = Some true.
Proof.
  revert i t phs. induction n as [|n IH]; intros i t phs; simpl; [done|].
  destruct (phdr_at (phdr_off eh i) data) as [ph|]; [|done]. cbn [mbind option_bind].
  destruct (phdrs_from n (i + 1) eh data) as [phs'|] eqn:Ep; [|done]. intros [= <-].
  intros [Hf Hfs]%Forall_cons [[Hni Hm _] Hcs]%Forall_cons Ht. cbn [total foldr]. fold (total mem_bytes phs'). intros Htot.
  pose proof (mem_bytes_nonneg ph Hf) as H0. assert (H1 : 0 <= total mem_bytes phs').
  { apply total_bytes_nonneg. rewrite Forall_forall in Hfs. intros q Hq. by apply mem_bytes_nonneg, Hfs. }
  rewrite (proj2 (Z.eqb_neq _ _) Hni).
  destruct (Z.eqb_spec (p_type ph) PT_LOAD) as [Hl|Hl].
  - assert (Em : mem_bytes ph = p_memsz ph) by (unfold mem_bytes; by rewrite decide_True).
    rewrite Em in *. specialize (Hm Hl).
    rewrite (proj2 (Z.ltb_ge _ (p_memsz ph))), (wrap_small 64) by lia.
    rewrite (proj2 (Z.ltb_ge _ (t + p_memsz ph))) by lia. eapply IH; [done..|lia|lia].
  - eapply IH; [done..|lia].
Qed.

Lemma load_loop_enough n i eh data size phs R s :
  Forall is_byte data -> 0 <= size <= Z.of_nat (length data) -> 0 <= e_phoff eh -> 0 <= i ->
  e_phoff eh + (i + Z.of_nat n) * 56 <= size -> size < 2 ^ 64 ->
  phdrs_from n i eh data = Some phs -> Forall loadable phs -> window USER_LO USER_HI R s ->
  6 * total seg_bytes phs <= 4096 * Z.of_nat (length (free_pages_stack s)) ->
  exists s', load_loop n i eh data size s = Some (true, s') /\
    4096 * Z.of_nat (length (free_pages_stack s)) <= 6 * total seg_bytes phs + 4096 * Z.of_nat (length (free_pages_stack s')).
Proof.
  intros Hdata Hsize Hoff. revert i phs R s.
  induction n as [|n IH]; intros i phs R s Hi Hend H64; simpl; [intros [= <-]; eexists; split; [done|simpl; lia]|].
  destruct (phdr_at (phdr_off eh i) data) as [ph|] eqn:Eph; [|done]. cbn [mbind option_bind].
  pose proof (phdr_at_fits _ _ _ Eph Hdata) as Hfits.
  destruct (phdrs_from n (i + 1) eh data) as [phs'|] eqn:Ep; [|done]. intros [= <-].
  intros [Hl Hls]%Forall_cons Hwin. cbn [total foldr]. fold (total seg_bytes phs'). intros Hroom.
  assert (Ew : phdr_off eh i = e_phoff eh + i * 56) by (unfold phdr_off, sizeof_phdr; rewrite wrap_small; lia).
  unfold sizeof_phdr. rewrite Ew in *. rewrite (wrap_small 64) by lia.
  rewrite (proj2 (Z.ltb_ge size _)) by lia.
  assert (H0 : 0 <= total seg_bytes phs').
  { apply total_bytes_nonneg. intros q _. unfold seg_bytes. case_match; lia. }
  assert (H1 : 0 <= seg_bytes ph) by (unfold seg_bytes; case_match; lia).
  destruct (Z.eqb_spec (p_type ph) PT_LOAD) as [Hload|Hload]; cbn [negb].
  - destruct (load_segment_enough R data size ph s Hwin Hdata Hsize Hfits Hload Hl ltac:(lia)) as (s1 & E & Hfree).
    rewrite E. cbn [mbind option_bind].
    destruct (load_segment_spec R data size ph s s1 Hwin Hfits (pc_memsz _ (ld_checked _ Hl) Hload) (proj1 Hsize) Hdata E)
      as (F & Hwin1 & _).
    destruct (IH (i + 1) phs' (F ++ R) s1) as (s2 & E2 & Hl2); [lia..|done|done|done|lia|]. exists s2. split; [done|lia].
  - destruct (IH (i + 1) phs' R s) as (s2 & E2 & Hl2); [lia..|done|done|done|lia|]. exists s2. split; [done|lia].
Qed.

(** An image with a valid header, a program header table inside the file, no
    interpreter, at most 512 MiB of segments, each at most 256 MiB and between
    4 MiB and 2^47. *)
Record valid_image (data : list Z) (size : Z) (eh : elf64_header) (phs : list elf64_phdr) : Prop := {
  vi_bytes : Forall is_byte data;
  vi_size : sizeof_header <= size <= Z.of_nat (length data) /\ size < 2 ^ 64;
  vi_header : header_at data = Some eh;
  vi_ok : header_ok eh = true;
  vi_table : e_phoff eh + e_phnum eh * sizeof_phdr <= size;
  vi_phdrs : phdrs_from (Z.to_nat (e_phnum eh)) 0 eh data = Some phs;
  vi_loadable : Forall loadable phs;
  vi_mem : total mem_bytes phs <= 2 ^ 29;
}.

Lemma elf_load_enough R data size s eh phs :
  window USER_LO USER_HI R s -> valid_image data size eh phs ->
  6 * total seg_bytes phs <= 4096 * Z.of_nat (length (free_pages_stack s)) ->
  exists s', elf_load data size s = Some (Some (e_entry eh), s') /\
    4096 * Z.of_nat (length (free_pages_stack s)) <= 6 * total seg_bytes phs + 4096 * Z.of_nat (length (free_pages_stack s')).
Proof.
  unfold sizeof_header, sizeof_phdr. intros Hwin [Hdata [Hsize H64] Heh Hok Htab Hphs Hload Hmem] Hroom.
  unfold sizeof_header, sizeof_phdr in *.
  assert (Hpos : 0 <= e_phoff eh /\ 0 <= e_phnum eh).
  { unfold header_at in Heh. destruct (image_bytes 0 _ data) as [b|] eqn:E; [|done]. injection Heh as <-. simpl.
    pose proof (image_bytes_bytes _ _ _ _ E Hdata) as Hb.
    pose proof (le_field_bound 32 8 b Hb). pose proof (le_field_bound 56 2 b Hb). lia. }
  unfold elf_load, sizeof_header. rewrite (proj2 (Z.ltb_ge size 64)) by lia. rewrite Heh. cbn [mbind option_bind].
  rewrite Hok. cbn [negb].
  rewrite (check_loop_enough _ 0 0 eh data phs Hphs (phdrs_from_fits _ _ _ _ _ Hdata Hphs)); [|
    eapply Forall_impl; [exact Hload|by intros ? []]|lia|lia]. cbn [mbind option_bind negb].
  destruct (load_loop_enough (Z.to_nat (e_phnum eh)) 0 eh data size phs R s Hdata ltac:(lia) (proj1 Hpos) ltac:(lia)
    ltac:(lia) H64 Hphs Hload Hwin Hroom) as (s' & E & Hl).
  rewrite E. by exists s'.
Qed.

(** A valid image loads when six frames are free for each page of its
    segments: its header and program headers lie inside the file and ask for no
    interpreter, and its segments have at most 512 MiB, each at most 256 MiB and
    between 4 MiB and 2^47. *)
Theorem elf_load_succeeds R data size s eh phs :
  window USER_LO USER_HI R s -> valid_image data size eh phs ->
  6 * total seg_bytes phs <= 4096 * Z.of_nat (length (free_pages_stack s)) ->
  exists s', elf_load data size s = Some (Some (e_entry eh), s').
Proof.
  intros Hwin Hv Hroom. destruct (elf_load_enough R data size s eh phs Hwin Hv Hroom) as (s' & E & _). by exists s'.
Qed.

(** ** Short files *)

(** The first loop reads every program header before the second one compares
    it with the size: a file with a valid header whose table starts after its
    end is read outside its buffer, whatever the size passed says. *)
Theorem elf_header_overread data s eh :
  Forall is_byte data -> header_at data = Some eh -> header_ok eh = true ->
  Z.of_nat (length data) < phdr_off eh 0 + sizeof_phdr ->
  elf_load data (Z.of_nat (length data)) s = None.
Proof.
  intros Hdata Heh Hok Hend. unfold elf_load.
  assert (Hlen : sizeof_header <= Z.of_nat (length data) /\ 0 <= e_phnum eh).
  { unfold header_at in Heh. destruct (image_bytes 0 _ data) as [b|] eqn:E; [|done]. injection Heh as <-. simpl.
    pose proof (image_bytes_bytes _ _ _ _ E Hdata) as Hb. pose proof (le_field_bound 56 2 b Hb).
    unfold image_bytes, sizeof_header in *. destruct (Z.leb_spec (0 + 64) (Z.of_nat (length data))); [lia|done]. }
  rewrite (proj2 (Z.ltb_ge _ sizeof_header)) by lia. rewrite Heh. cbn [mbind option_bind]. rewrite Hok. cbn [negb].
  destruct (Z.to_nat (e_phnum eh)) as [|n] eqn:En.
  { unfold header_ok in Hok. replace (e_phnum eh) with 0 in Hok by lia. by rewrite andb_false_r in Hok. }
  simpl. unfold phdr_at, image_bytes. rewrite (proj2 (Z.leb_gt _ (Z.of_nat (length data)))) by lia.
  by rewrite andb_false_r.
Qed.

(** ** The theorems at concrete images *)

(** An executable of one segment: four bytes of the file in a page at 4 MiB, the
    rest cleared. *)
Definition sample_header (phoff : Z) : list Z :=
  [0x7F; 0x45; 0x4C; 0x46; 2; 1; 1; 0; 0; 0; 0; 0; 0; 0; 0; 0] ++ le_bytes 2 2 ++ le_bytes 2 62 ++ le_bytes 4 1 ++
  le_bytes 8 0x400010 ++ le_bytes 8 phoff ++ le_bytes 8 0 ++ le_bytes 4 0 ++ le_bytes 2 64 ++ le_bytes 2 56 ++
  le_bytes 2 1 ++ le_bytes 6 0.

Definition sample_phdr : list Z :=
  le_bytes 4 1 ++ le_bytes 4 5 ++ le_bytes 8 120 ++ le_bytes 8 0x400010 ++ le_bytes 8 0x400010 ++
  le_bytes 8 4 ++ le_bytes 8 32 ++ le_bytes 8 4096.

Definition sample_image : list Z := sample_header 64 ++ sample_phdr ++ [0x41; 0x42; 0x43; 0x44].

(** The same file cut after its header. *)
Definition short_image : list Z := sample_header 64.

Lemma image_is_bytes (l : list Z) : forallb (fun b => (0 <=? b) && (b <? 256)) l = true -> Forall is_byte l.
Proof.
  intros Hl. apply Forall_forall. intros b Hb. rewrite forallb_forall in Hl.
  specialize (Hl b ltac:(by apply list_elem_of_In)). unfold is_byte. lia.
Qed.

Definition sample_eh : elf64_header := Elf64Header ELF_MAGIC 2 2 62 0x400010 64 56 1.
Definition sample_ph : elf64_phdr := Elf64Phdr 1 120 0x400010 4 32.

Lemma sample_header_at : header_at sample_image = Some sample_eh.
Proof. vm_compute. reflexivity. Qed.

Lemma sample_phdrs : phdrs_from (Z.to_nat (e_phnum sample_eh)) 0 sample_eh sample_image = Some [sample_ph].
Proof. vm_compute. reflexivity. Qed.

Lemma user_space_window : window USER_LO USER_HI [] user_space.
Proof. apply window_empty; [apply user_space_wf|]. intros a _. apply user_space_empty. Qed.

Lemma elf_load_image_witness :
  exists s', elf_load sample_image 124 user_space = Some (Some 0x400010, s') /\
    load_byte 0x400012 s' = Some 0x43 /\ load_byte 0x400014 s' = Some 0 /\ load_byte 0x401000 s' = None.
Proof.
  assert (E : fst <$> elf_load sample_image 124 user_space = Some (Some 0x400010)) by (vm_compute; reflexivity).
  destruct (elf_load sample_image 124 user_space) as [[r s']|] eqn:El; [|discriminate E].
  assert (r = Some 0x400010) as -> by (cbn in E; congruence). clear E. exists s'. split; [reflexivity|].
  destruct (elf_load_image [] sample_image 124 user_space 0x400010 s' user_space_window
    ltac:(apply image_is_bytes; vm_compute; reflexivity) El) as (eh & phs & F & Heh & _ & _ & Hphs & _ & _ & _ & _ & _ & Hb).
  rewrite sample_header_at in Heh. apply (inj Some) in Heh. subst eh.
  rewrite sample_phdrs in Hphs. apply (inj Some) in Hphs. subst phs.
  rewrite !Hb by (unfold USER_LO, USER_HI; lia). unfold load_byte. rewrite !user_space_empty.
  vm_compute. split; [reflexivity|split; reflexivity].
Defined.

Lemma sample_valid : valid_image sample_image 124 sample_eh [sample_ph].
Proof.
  split; [apply image_is_bytes; vm_compute; reflexivity|split; [vm_compute; split; discriminate|lia]|exact sample_header_at|
    reflexivity|vm_compute; discriminate|exact sample_phdrs| |vm_compute; discriminate].
  constructor; [|constructor]. split; [|intros _; simpl; lia]. split; [discriminate|intros _; simpl; lia|].
  intros _ _. vm_compute. split; discriminate.
Qed.

Lemma elf_load_succeeds_witness : exists s', elf_load sample_image 124 user_space = Some (Some 0x400010, s').
Proof.
  refine (elf_load_succeeds [] sample_image 124 user_space sample_eh [sample_ph] user_space_window sample_valid _).
  vm_compute. discriminate.
Defined.

Lemma elf_header_overread_witness : elf_load short_image 64 user_space = None.
Proof.
  refine (elf_header_overread short_image user_space sample_eh _ _ _ _);
    [apply image_is_bytes; vm_compute; reflexivity|reflexivity|reflexivity|vm_compute; reflexivity].
Defined.
