(* ===== verification/Security.v ===== *)
(** User accounts and sessions: src/kernel/security/security.c.  A name or a
    password is the list of its bytes before the NUL. *)
From Stdlib Require Import ZArith Lia.
From stdpp Require Import base numbers list strings.
From S2P Require Import Prelude.

Definition MAX_USERS : nat := 16.
Definition MAX_SESSIONS : nat := 8.

Inductive privilege_level := PRIV_ADMIN | PRIV_USER | PRIV_GUEST.

#[export] Instance privilege_level_eq_dec : EqDecision privilege_level.
Proof. solve_decision. Defined.

Record user_t := User {
  uid : Z;
  username : list Z;
  password_hash : list Z;
  priv_level : privilege_level;
}.

Record session_t := Session {
  session_id : Z;
  s_uid : Z;
  is_active : bool;
  login_time : Z;
  page_directory_physical : Z;
}.

Record sec := Sec {
  users : list user_t;
  sessions : list session_t;
  current_session_id : Z;
  next_uid : Z;
}.

(** The variables before [init_security]: zeroes, -1 and 1. *)
Definition sec_boot : sec :=
  Sec (replicate MAX_USERS (User 0 [] [] PRIV_ADMIN))
      (replicate MAX_SESSIONS (Session 0 0 false 0 0)) (-1) 1.

Fixpoint streq (a b : list Z) : bool :=
  match a, b with
  | x :: a, y :: b => if x =? y then streq a b else false
  | [], [] => true
  | _, _ => false
  end.

(** The id of the new user, or -1. *)
Definition create_user (name pw : list Z) (priv : privilege_level) (s : sec) : Z * sec :=
  match find_from (fun _ u => uid u =? 0) 0 (users s) with
  | None => (-1, s)
  | Some slot =>
      let id := next_uid s in
      (id, Sec (<[slot := User id (take 31 name) (take 63 pw) priv]> (users s))
             (sessions s) (current_session_id s) (i32 (next_uid s + 1)))
  end.

Fixpoint auth_loop (us : list user_t) (name pw : list Z) : Z :=
  match us with
  | [] => 0
  | u :: us =>
      if uid u =? 0 then auth_loop us name pw
      else if negb (streq (username u) name) then auth_loop us name pw
      else if decide (priv_level u = PRIV_GUEST) then uid u
      else if streq (password_hash u) pw then uid u
      else 0
  end.

(** [None] is NULL. *)
Definition authenticate_user (name pw : option (list Z)) (s : sec) : Z :=
  match name, pw with
  | Some name, Some pw => auth_loop (users s) name pw
  | _, _ => 0
  end.

(** [now] is [timer_get_ms()]. *)
Definition start_session (id now : Z) (s : sec) : Z * sec :=
  match find_from (fun _ x => negb (is_active x)) 0 (sessions s) with
  | None => (-1, s)
  | Some slot =>
      (Z.of_nat slot,
       Sec (users s) (<[slot := Session (Z.of_nat slot) id true now 0]> (sessions s)) (Z.of_nat slot) (next_uid s))
  end.

Definition end_session (id : Z) (s : sec) : sec :=
  if (0 <=? id) && (id <? Z.of_nat MAX_SESSIONS) then
    Sec (users s)
      (alter (fun x => Session (session_id x) (s_uid x) false (login_time x) (page_directory_physical x))
         (Z.to_nat id) (sessions s))
      (if current_session_id s =? id then -1 else current_session_id s) (next_uid s)
  else s.

Definition get_current_session (s : sec) : option session_t :=
  if current_session_id s =? -1 then None else sessions s !! Z.to_nat (current_session_id s).

Definition clear_user (u : user_t) : user_t := User 0 [] [] (priv_level u).
Definition clear_session (x : session_t) : session_t :=
  Session (session_id x) (s_uid x) false (login_time x) (page_directory_physical x).

Definition init_security (now : Z) (s : sec) : sec :=
  let s := Sec (clear_user <$> users s) (clear_session <$> sessions s) (current_session_id s) (next_uid s) in
  let s := snd (create_user (str "root") (str "toor") PRIV_ADMIN s) in
  let s := snd (create_user (str "guest") [] PRIV_GUEST s) in
  snd (start_session 1 now s).
