(* ===== verification/SecurityProps.v ===== *)
(** The properties of the user and session tables. *)
From Stdlib Require Import ZArith Lia.
From stdpp Require Import base numbers list strings.
From S2P Require Import Prelude Security.

Lemma streq_eq a b : streq a b = true <-> a = b.
Proof.
  revert b. induction a as [|x a IH]; intros [|y b]; simpl; try done.
  destruct (Z.eqb_spec x y) as [->|Hne]; [rewrite IH|]; split; congruence.
Qed.

Lemma streq_false a b : a <> b -> streq a b = false.
Proof. intros Hne. destruct (streq a b) eqn:E; [|done]. by apply streq_eq in E. Qed.

(** A user whose name is looked up. *)
Definition named (name : list Z) (u : user_t) : Prop := uid u <> 0 /\ username u = name.

#[global] Instance named_dec name u : Decision (named name u).
Proof. unfold named. apply _. Defined.

(** The verdict over one user. *)
Definition admits (u : user_t) (pw : list Z) : Z :=
  if decide (priv_level u = PRIV_GUEST \/ password_hash u = pw) then uid u else 0.

(** The first user of the name decides. *)
Lemma auth_loop_find us name pw :
  auth_loop us name pw = match list_find (named name) us with Some (_, u) => admits u pw | None => 0 end.
Proof.
  induction us as [|u us IH]; [done|]. cbn [auth_loop list_find].
  destruct (Z.eqb_spec (uid u) 0) as [E|E].
  { rewrite (decide_False (P := named name u)) by (unfold named; tauto). rewrite IH. by destruct (list_find _ us) as [[]|]. }
  destruct (decide (username u = name)) as [En|En].
  - rewrite (decide_True (P := named name u)) by done. rewrite (proj2 (streq_eq _ _) En). cbn [negb]. unfold admits.
    destruct (decide (priv_level u = PRIV_GUEST)); [by rewrite decide_True by tauto|].
    destruct (decide (password_hash u = pw)) as [Ep|Ep].
    + rewrite (proj2 (streq_eq _ _) Ep). by rewrite decide_True by tauto.
    + rewrite (streq_false _ _ Ep). by rewrite decide_False by tauto.
  - rewrite (decide_False (P := named name u)) by (unfold named; tauto). rewrite (streq_false _ _ En). cbn [negb].
    rewrite IH. by destruct (list_find _ us) as [[]|].
Qed.

(** ** The reachable tables *)

Inductive sec_op :=
  | OCreate (name pw : list Z) (priv : privilege_level)
  | OStart (id now : Z)
  | OEnd (id : Z).

Definition sec_step (o : sec_op) (s : sec) : sec :=
  match o with
  | OCreate name pw priv => snd (create_user name pw priv s)
  | OStart id now => snd (start_session id now s)
  | OEnd id => end_session id s
  end.

Definition sec_run (ops : list sec_op) (s : sec) : sec := foldl (fun s o => sec_step o s) s ops.

(** The users are the first [k] entries, numbered from 1; the current session is
    none, or an active one that knows its own number. *)
Record sec_ok (s : sec) : Prop := {
  so_users : length (users s) = MAX_USERS;
  so_sessions : length (sessions s) = MAX_SESSIONS;
  so_next : 1 <= next_uid s <= Z.of_nat MAX_USERS + 1;
  so_uid i u : users s !! i = Some u ->
    uid u = if decide (Z.of_nat i + 1 < next_uid s) then Z.of_nat i + 1 else 0;
  so_cut i u : users s !! i = Some u -> (length (username u) <= 31)%nat /\ (length (password_hash u) <= 63)%nat;
  so_ids i x : sessions s !! i = Some x -> is_active x = true -> session_id x = Z.of_nat i;
  so_current : current_session_id s = -1 \/
    exists i x, current_session_id s = Z.of_nat i /\ sessions s !! i = Some x /\ is_active x = true;
}.

(** Creating a user: the slot is the number of users so far. *)
Lemma create_user_slot s name pw priv :
  sec_ok s ->
  (next_uid s = Z.of_nat MAX_USERS + 1 /\ create_user name pw priv s = (-1, s)) \/
  (next_uid s <= Z.of_nat MAX_USERS /\
   let k := Z.to_nat (next_uid s - 1) in
   (exists u, users s !! k = Some u /\ uid u = 0) /\
   create_user name pw priv s =
     (next_uid s, Sec (<[k := User (next_uid s) (take 31 name) (take 63 pw) priv]> (users s))
        (sessions s) (current_session_id s) (next_uid s + 1))).
Proof.
  intros Hok. pose proof (so_next _ Hok) as Hn. pose proof (so_users _ Hok) as Hlen. unfold create_user, MAX_USERS in *.
  destruct (find_from _ 0 (users s)) as [k|] eqn:E.
  - right. apply find_from_Some in E as (_ & (u & Hu & E0) & Hmin). apply Z.eqb_eq in E0.
    pose proof (so_uid _ Hok k u Hu) as Hk. rewrite E0 in Hk. pose proof (lookup_lt_Some _ _ _ Hu) as Hlt.
    assert (Hge : next_uid s <= Z.of_nat k + 1) by (case_decide; lia).
    assert (Hk' : k = Z.to_nat (next_uid s - 1)).
    { destruct (decide (Z.to_nat (next_uid s - 1) < k)%nat) as [Hlt'|]; [|lia].
      destruct (lookup_lt_is_Some_2 (users s) (Z.to_nat (next_uid s - 1)) ltac:(lia)) as [v Hv].
      pose proof (Hmin (Z.to_nat (next_uid s - 1)) v ltac:(lia) Hv) as Hf. apply Z.eqb_neq in Hf.
      rewrite (so_uid _ Hok _ _ Hv), decide_False in Hf by lia. done. }
    split; [lia|]. split; [exists u; by rewrite <-Hk'|]. rewrite <-Hk'. f_equal. f_equal. apply i32_small. lia.
  - left. split; [|done]. rewrite find_from_None in E.
    destruct (decide (next_uid s = Z.of_nat 16 + 1)) as [|Hne]; [done|]. exfalso.
    destruct (lookup_lt_is_Some_2 (users s) (Z.to_nat (next_uid s - 1)) ltac:(lia)) as [v Hv].
    pose proof (E (Z.to_nat (next_uid s - 1)) v ltac:(lia) Hv) as Hf. apply Z.eqb_neq in Hf.
    rewrite (so_uid _ Hok _ _ Hv), decide_False in Hf by lia. done.
Qed.

Lemma create_user_ok s name pw priv : sec_ok s -> sec_ok (snd (create_user name pw priv s)).
Proof.
  intros Hok. destruct (create_user_slot s name pw priv Hok) as [[_ ->]|(Hn & (u0 & Hu0 & _) & ->)]; [done|].
  cbn [snd]. pose proof (so_next _ Hok). destruct Hok as [H1 H2 H3 H4 H5 H6 H7].
  apply lookup_lt_Some in Hu0. split; simpl; try done; [by rewrite length_insert|lia| |].
  - intros i u [(<- & <- & _)|[Hne Hi]]%list_lookup_insert_Some.
    + simpl. rewrite decide_True by lia. lia.
    + rewrite (H4 i u Hi). repeat case_decide; lia.
  - intros i u [(<- & <- & _)|[Hne Hi]]%list_lookup_insert_Some; [|by apply (H5 i)].
    simpl. rewrite !length_take. lia.
Qed.

Lemma start_session_ok s id now : sec_ok s -> sec_ok (snd (start_session id now s)).
Proof.
  intros [H1 H2 H3 H4 H5 H6 H7]. unfold start_session.
  destruct (find_from _ 0 (sessions s)) as [k|] eqn:E; [|done].
  apply find_from_lt in E as [_ E]. split; simpl; try done; [by rewrite length_insert| |].
  - intros i x [(<- & <- & _)|[Hne Hi]]%list_lookup_insert_Some; [done|by apply (H6 i)].
  - right. exists k. eexists. split; [done|]. split; [by rewrite list_lookup_insert_eq by lia|done].
Qed.

Lemma end_session_ok s id : sec_ok s -> sec_ok (end_session id s).
Proof.
  intros Hok. unfold end_session. destruct (Z.leb_spec 0 id); [|done]. destruct (Z.ltb_spec id (Z.of_nat MAX_SESSIONS)); [|done].
  destruct Hok as [H1 H2 H3 H4 H5 H6 H7]. split; simpl; try done; [by rewrite length_alter| |].
  - intros i x Hx Ha. destruct (decide (i = Z.to_nat id)) as [->|Hne].
    + rewrite list_lookup_alter_eq in Hx. destruct (sessions s !! Z.to_nat id) as [y|]; [|done].
      injection Hx as <-. done.
    + rewrite list_lookup_alter_ne in Hx by done. by apply (H6 i).
  - destruct (Z.eqb_spec (current_session_id s) id) as [|Hne]; [by left|].
    destruct H7 as [?|(i & x & Hc & Hi & Ha)]; [by left|right]. exists i, x. split; [done|]. split; [|done].
    rewrite list_lookup_alter_ne; [done|lia].
Qed.

Lemma boot_sec_ok now : sec_ok (init_security now sec_boot).
Proof.
  assert (H0 : sec_ok (Sec (clear_user <$> users sec_boot) (clear_session <$> sessions sec_boot) (-1) 1)).
  { assert (Hu : forall i u, (clear_user <$> users sec_boot) !! i = Some u -> u = User 0 [] [] PRIV_ADMIN).
    { intros i u. apply (Forall_lookup_1 (fun u => u = _)). repeat constructor. }
    assert (Hx : forall i x, (clear_session <$> sessions sec_boot) !! i = Some x -> x = Session 0 0 false 0 0).
    { intros i x. apply (Forall_lookup_1 (fun x => x = _)). repeat constructor. }
    split; simpl; try done.
    - intros i u ->%Hu. simpl. case_decide; lia.
    - intros i u ->%Hu. simpl. lia.
    - by intros i x ->%Hx.
    - by left. }
  unfold init_security. by apply start_session_ok, create_user_ok, create_user_ok.
Qed.

Lemma sec_run_ok_from ops s : sec_ok s -> sec_ok (sec_run ops s).
Proof.
  revert s. induction ops as [|o ops IH]; intros s Hok; [done|]. apply IH.
  destruct o; [by apply create_user_ok|by apply start_session_ok|by apply end_session_ok].
Qed.

(** ** Properties *)

(** However the account and session calls are mixed after start-up, the users
    are the first entries of the table and numbered 1, 2, ... in the order of
    their creation, no stored string reaches the end of its buffer, and the
    current session is none or an active one. *)
Theorem sec_run_ok ops now : sec_ok (sec_run ops (init_security now sec_boot)).
Proof. apply sec_run_ok_from, boot_sec_ok. Qed.

(** Entries that are not in use do not have a name. *)
Lemma list_find_insert_free us k u name :
  (exists v, us !! k = Some v /\ uid v = 0) -> (forall j v, (k < j)%nat -> us !! j = Some v -> uid v = 0) ->
  uid u <> 0 ->
  list_find (named name) (<[k := u]> us) =
    match list_find (named name) us with
    | Some r => Some r
    | None => if decide (username u = name) then Some (k, u) else None
    end.
Proof.
  intros (v & Hv & E0) Hrest Hu. destruct (list_find (named name) us) as [[i w]|] eqn:E.
  - apply list_find_Some in E as (Hi & Hw & Hmin).
    assert (Hik : (i < k)%nat).
    { destruct (decide (i = k)) as [->|]; [destruct Hw as [Hw _]; congruence|].
      destruct (decide (k < i)%nat) as [Hki|]; [|lia]. destruct Hw as [Hw _]. by destruct Hw; apply (Hrest i). }
    apply list_find_Some. split; [by rewrite list_lookup_insert_ne by lia|]. split; [done|].
    intros j y Hy Hj. apply (Hmin j y); [|done]. by rewrite list_lookup_insert_ne in Hy by lia.
  - apply list_find_None in E. rewrite Forall_lookup in E. pose proof (lookup_lt_Some _ _ _ Hv) as Hlt. case_decide as Hn.
    + apply list_find_Some. split; [by rewrite list_lookup_insert_eq|]. split; [done|].
      intros j y Hy Hj. rewrite list_lookup_insert_ne in Hy by lia. by apply (E j).
    + apply list_find_None, Forall_lookup. intros j y [(<- & <- & _)|[Hne Hj]]%list_lookup_insert_Some; [by intros []|].
      by apply (E j).
Qed.

(** Logging in after a user was created: if no user has the name as it is
    stored (its first 31 bytes), the user is admitted under exactly that stored
    name, with the first 63 bytes of the password (any password for a guest),
    and every other attempt has the result it had before; if a user of that
    name exists, creating the second one changes no attempt at all. *)
Theorem create_user_authenticates s name pw priv id s' n' p' :
  sec_ok s -> create_user name pw priv s = (id, s') -> id <> -1 ->
  authenticate_user (Some n') (Some p') s' =
    if decide (n' = take 31 name /\ Forall (fun u => ~ named (take 31 name) u) (users s))
    then (if decide (priv = PRIV_GUEST \/ p' = take 63 pw) then id else 0)
    else authenticate_user (Some n') (Some p') s.
Proof.
  intros Hok E Hid. destruct (create_user_slot s name pw priv Hok) as [[_ E']|(Hn & (u0 & Hu0 & E0) & E')].
  { rewrite E' in E. by injection E as <- _. }
  rewrite E' in E. injection E as <- <-. simpl. rewrite !auth_loop_find.
  pose proof (so_next _ Hok) as H1. rewrite list_find_insert_free; [|by exists u0| |simpl; lia].
  2:{ intros j v Hj Hv. rewrite (so_uid _ Hok j v Hv), decide_False by lia. done. }
  destruct (list_find (named n') (users s)) as [[i w]|] eqn:Ef.
  - rewrite decide_False; [done|]. intros [-> Hno]. apply list_find_Some in Ef as (Hi & Hw & _).
    rewrite Forall_lookup in Hno. by apply (Hno i w).
  - apply list_find_None in Ef. simpl. destruct (decide (take 31 name = n')) as [En|En].
    + rewrite decide_True by (by rewrite En). unfold admits. simpl.
      repeat case_decide; try done; exfalso; intuition congruence.
    + rewrite decide_False; [done|]. intros [? _]. congruence.
Qed.

Definition after_boot : sec := init_security 0 sec_boot.

Lemma create_user_authenticates_witness :
  let s := snd (create_user (str "ann") (str "secret") PRIV_USER after_boot) in
  authenticate_user (Some (str "ann")) (Some (str "secret")) s = 3 /\
  authenticate_user (Some (str "ann")) (Some (str "toor")) s = 0 /\
  authenticate_user (Some (str "root")) (Some (str "toor")) s = 1.
Proof.
  intros s. assert (Hok : sec_ok after_boot) by (apply (sec_run_ok_from []), boot_sec_ok).
  assert (E : create_user (str "ann") (str "secret") PRIV_USER after_boot = (3, s)) by (vm_compute; reflexivity).
  split; [|split]; (rewrite (create_user_authenticates after_boot _ _ _ _ _ _ _ Hok E) by lia; vm_compute; reflexivity).
Defined.

(** A name of 32 bytes or more, or a password of 64 bytes or more, never gets
    its user in (guests need no password). *)
Lemma long_name_locked_out s name pw priv id s' :
  sec_ok s -> create_user name pw priv s = (id, s') -> id <> -1 -> (31 < length name)%nat ->
  authenticate_user (Some name) (Some pw) s' = 0.
Proof.
  intros Hok E Hid Hlen. assert (Hok' : sec_ok s') by (pose proof (create_user_ok s name pw priv Hok) as H; by rewrite E in H).
  simpl. rewrite auth_loop_find. destruct (list_find _ _) as [[i u]|] eqn:Ef; [|done].
  apply list_find_Some in Ef as (Hi & [_ Hname] & _). destruct (so_cut _ Hok' i u Hi) as [Hc _].
  rewrite Hname in Hc. lia.
Qed.
