(* ===== verification/Keyboard.v ===== *)
(** The PS/2 keyboard: src/drivers/input/keyboard.c.  The bytes the handler reads
    from ports 0x64 and 0x60 are its arguments; [key_states] and the key buffer
    are arrays, a key event is the value of its [int]. *)
From Stdlib Require Import ZArith Lia.
From stdpp Require Import base numbers list.
From S2P Require Import Prelude.

Definition KEY_BUF_SIZE : Z := 256.

Definition KEY_UP : Z := 128.
Definition KEY_DOWN : Z := 129.
Definition KEY_LEFT : Z := 130.
Definition KEY_RIGHT : Z := 131.
Definition KEY_SUPER : Z := 132.
Definition KEY_PAGE_UP : Z := 133.
Definition KEY_PAGE_DOWN : Z := 134.
Definition KEY_LSHIFT : Z := 135.
Definition KEY_RSHIFT : Z := 136.
Definition KEY_HOME : Z := 137.
Definition KEY_END : Z := 138.
Definition KEY_DELETE : Z := 139.
Definition KEY_ESC : Z := 27.

(** The flags the handler keeps between bytes. *)
Record kmods := KMods {
  shift_pressed : bool;
  caps_lock : bool;
  ctrl_pressed : bool;
  extended_key : bool;
  super_active : bool;
  super_used_combo : bool;
}.

Record kbd := Kbd {
  mods : kmods;
  key_buffer : list Z;
  key_head : Z;
  key_tail : Z;
  key_states : list bool;
}.

Definition kbd_boot : kbd :=
  Kbd (KMods false false false false false false) (replicate (Z.to_nat KEY_BUF_SIZE) 0) 0 0 (replicate 256 false).

Definition with_mods (m : kmods) (s : kbd) : kbd := Kbd m (key_buffer s) (key_head s) (key_tail s) (key_states s).
Definition set_state (i : Z) (b : bool) (s : kbd) : kbd :=
  Kbd (mods s) (key_buffer s) (key_head s) (key_tail s) (<[Z.to_nat i := b]> (key_states s)).

Definition set_shift (b : bool) (m : kmods) : kmods :=
  KMods b (caps_lock m) (ctrl_pressed m) (extended_key m) (super_active m) (super_used_combo m).
Definition set_caps (b : bool) (m : kmods) : kmods :=
  KMods (shift_pressed m) b (ctrl_pressed m) (extended_key m) (super_active m) (super_used_combo m).
Definition set_ctrl (b : bool) (m : kmods) : kmods :=
  KMods (shift_pressed m) (caps_lock m) b (extended_key m) (super_active m) (super_used_combo m).
Definition set_extended (b : bool) (m : kmods) : kmods :=
  KMods (shift_pressed m) (caps_lock m) (ctrl_pressed m) b (super_active m) (super_used_combo m).
Definition set_super (a u : bool) (m : kmods) : kmods :=
  KMods (shift_pressed m) (caps_lock m) (ctrl_pressed m) (extended_key m) a u.
(** [if (super_active) super_used_combo = 1;] *)
Definition use_super (m : kmods) : kmods :=
  if super_active m then set_super true true m else m.

Definition keyboard_is_key_down (scancode : Z) (s : kbd) : bool :=
  key_states s !!! Z.to_nat (Z.land scancode 0x7F).

Definition push_key (c : Z) (s : kbd) : kbd :=
  if c =? 0 then s else
  let next := (key_head s + 1) mod KEY_BUF_SIZE in
  if next =? key_tail s then s
  else Kbd (mods s) (<[Z.to_nat (key_head s) := c]> (key_buffer s)) next (key_tail s) (key_states s).

Definition get_key_ex (s : kbd) : Z * kbd :=
  if key_head s =? key_tail s then (0, s)
  else (key_buffer s !!! Z.to_nat (key_tail s),
        Kbd (mods s) (key_buffer s) (key_head s) ((key_tail s + 1) mod KEY_BUF_SIZE) (key_states s)).

(** The conversion to [char], which is signed. *)
Definition i8 (z : Z) : Z := (z + 128) mod 256 - 128.

Definition get_key (s : kbd) : Z * kbd :=
  let '(c, s) := get_key_ex s in
  (if Z.land c 0x100 =? 0 then i8 c else 0, s).

Definition keyboard_has_input (s : kbd) : bool := negb (key_head s =? key_tail s).

Definition keyboard_drain (s : kbd) : kbd :=
  Kbd (mods s) (key_buffer s) (key_head s) (key_head s) (key_states s).

(** The two tables, by their characters; the last entries are those of the
    shift, keypad-star and alt keys (0) and of the space bar. *)
Definition normal_map : list Z :=
  [0; 0; 49; 50; 51; 52; 53; 54; 55; 56; 57; 48; 45; 61; 8;              (* 1234567890-= backspace *)
   9; 113; 119; 101; 114; 116; 121; 117; 105; 111; 112; 91; 93; 10;      (* tab qwertyuiop[] enter *)
   0; 97; 115; 100; 102; 103; 104; 106; 107; 108; 59; 39; 96; 0; 92;     (* asdfghjkl;'` \ *)
   122; 120; 99; 118; 98; 110; 109; 44; 46; 47; 0; 0; 0; 32].            (* zxcvbnm,./ space *)

Definition shift_map : list Z :=
  [0; 0; 33; 64; 35; 36; 37; 94; 38; 42; 40; 41; 95; 43; 8;              (* !@#$%^&*()_+ *)
   9; 81; 87; 69; 82; 84; 89; 85; 73; 79; 80; 123; 125; 10;              (* QWERTYUIOP{} *)
   0; 65; 83; 68; 70; 71; 72; 74; 75; 76; 58; 34; 126; 0; 124;           (* ASDFGHJKL:, the double quote, ~ | *)
   90; 88; 67; 86; 66; 78; 77; 60; 62; 63; 0; 0; 0; 32].                 (* ZXCVBNM<>? *)

Definition is_lower (c : Z) : bool := (97 <=? c) && (c <=? 122).
Definition is_upper (c : Z) : bool := (65 <=? c) && (c <=? 90).

Definition map_code (sc : Z) (m : kmods) : Z :=
  if sc =? 0x01 then KEY_ESC else
  if 58 <=? sc then 0 else
  let c := (if shift_pressed m then shift_map else normal_map) !!! Z.to_nat sc in
  let c := if (c =? 0) && (sc =? 50) then 109 else c in
  let c := if shift_pressed m || caps_lock m
           then (if is_lower c then c - 32 else if is_upper c then c + 32 else c) else c in
  let c := if ctrl_pressed m
           then (if is_lower c then c - 97 + 1 else if is_upper c then c - 65 + 1 else c) else c in
  u8 c.

(** The codes of the extended keys; 0 for the others. *)
Definition extended_code (sc : Z) : Z :=
  if sc =? 0x48 then KEY_UP else if sc =? 0x50 then KEY_DOWN
  else if sc =? 0x4B then KEY_LEFT else if sc =? 0x4D then KEY_RIGHT
  else if sc =? 0x47 then KEY_HOME else if sc =? 0x4F then KEY_END
  else if sc =? 0x49 then KEY_PAGE_UP else if sc =? 0x51 then KEY_PAGE_DOWN
  else if sc =? 0x53 then KEY_DELETE else 0.

Definition is_shift (sc : Z) : bool := (sc =? 0x2A) || (sc =? 0x36).
Definition shift_state (sc : Z) : Z := if sc =? 0x2A then KEY_LSHIFT else KEY_RSHIFT.

(** The byte after 0xE0. *)
Definition extended_byte (scancode : Z) (s : kbd) : kbd :=
  let s := with_mods (set_extended false (mods s)) s in
  let is_release := negb (Z.land scancode 0x80 =? 0) in
  let sc := Z.land scancode 0x7F in
  let s := set_state sc (negb is_release) s in
  if (sc =? 0x5B) || (sc =? 0x5C) then
    if negb is_release then with_mods (set_super true false (mods s)) s
    else
      let s := if super_active (mods s) && negb (super_used_combo (mods s)) then push_key KEY_SUPER s else s in
      with_mods (set_super false (super_used_combo (mods s)) (mods s)) s
  else
    let s := with_mods (use_super (mods s)) s in
    let code := extended_code sc in
    if code =? 0 then s else push_key (if is_release then Z.lor code 0x100 else code) s.

(** The release of a normal key. *)
Definition release_byte (scancode : Z) (s : kbd) : kbd :=
  let sc := Z.land scancode 0x7F in
  let s := set_state sc false s in
  if sc =? 0x1D then with_mods (set_ctrl false (mods s)) s else
  if is_shift sc then set_state (shift_state sc) false (with_mods (set_shift false (mods s)) s) else
  let c := map_code sc (mods s) in
  if c =? 0 then s else push_key (Z.lor c 0x100) s.

(** The press of a normal key. *)
Definition press_byte (scancode : Z) (s : kbd) : kbd :=
  let s := set_state (Z.land scancode 0x7F) true s in
  let s := with_mods (use_super (mods s)) s in
  if scancode =? 0x1D then with_mods (set_ctrl true (mods s)) s else
  if scancode =? 0x3A then with_mods (set_caps (negb (caps_lock (mods s))) (mods s)) s else
  if is_shift scancode then set_state (shift_state scancode) true (with_mods (set_shift true (mods s)) s) else
  let c := map_code scancode (mods s) in
  if c =? 0 then s else push_key c s.

Definition keyboard_handler (status scancode : Z) (s : kbd) : kbd :=
  if Z.land status 1 =? 0 then s else
  if scancode =? 0xE0 then with_mods (set_extended true (mods s)) s else
  if extended_key (mods s) then extended_byte scancode s else
  if negb (Z.land scancode 0x80 =? 0) then release_byte scancode s
  else press_byte scancode s.
