(* ===== verification/KeyboardProps.v ===== *)
(** The properties of the keyboard driver: its buffer is a bounded queue of
    events, the events of a byte depend on the flags alone, and what typing
    gives. *)
From Stdlib Require Import ZArith Lia.
From stdpp Require Import base numbers list.
From S2P Require Import Prelude Ring Keyboard.

Lemma key_buf_pos : 0 < KEY_BUF_SIZE.
Proof. done. Qed.

(** ** The key buffer *)

Record kbd_ok (s : kbd) : Prop := {
  ko_head : in_ring KEY_BUF_SIZE (key_head s);
  ko_tail : in_ring KEY_BUF_SIZE (key_tail s);
  ko_buffer : length (key_buffer s) = Z.to_nat KEY_BUF_SIZE;
  ko_states : length (key_states s) = 256%nat;
}.

(** The events that wait, the oldest first. *)
Definition events (s : kbd) : list Z :=
  window KEY_BUF_SIZE (key_buffer s) (key_tail s) (level KEY_BUF_SIZE (key_head s) (key_tail s)).

Lemma length_events s : length (events s) = level KEY_BUF_SIZE (key_head s) (key_tail s).
Proof. apply length_window. Qed.

Lemma events_bound s : (length (events s) <= 255)%nat.
Proof.
  rewrite length_events. pose proof (level_lt KEY_BUF_SIZE key_buf_pos (key_head s) (key_tail s)).
  unfold KEY_BUF_SIZE in *. lia.
Qed.

(** A queue of 255 events: one that is full loses the event. *)
Definition enqueue (c : Z) (q : list Z) : list Z :=
  if c =? 0 then q else if (length q <? 255)%nat then q ++ [c] else q.

Lemma next_full h t : in_ring KEY_BUF_SIZE h -> in_ring KEY_BUF_SIZE t ->
  ((h + 1) mod KEY_BUF_SIZE =? t) = negb (level KEY_BUF_SIZE h t <? 255)%nat.
Proof.
  intros Hh Ht. unfold in_ring in *. pose proof (level_head KEY_BUF_SIZE key_buf_pos h t Hh) as E.
  pose proof (level_lt KEY_BUF_SIZE key_buf_pos h t) as Hl. set (n := level _ h t) in *.
  rewrite <-E, Zplus_mod_idemp_l. unfold KEY_BUF_SIZE in *.
  destruct (Nat.ltb_spec n 255) as [Hn|Hn]; cbn [negb].
  - apply Z.eqb_neq. intros Hm. zify_div.
  - apply Z.eqb_eq. replace (t + Z.of_nat n + 1) with (t + 1 * 256) by lia. rewrite Z.mod_add by lia.
    by apply Z.mod_small.
Qed.

Lemma push_key_spec c s : kbd_ok s ->
  kbd_ok (push_key c s) /\ events (push_key c s) = enqueue c (events s) /\ mods (push_key c s) = mods s.
Proof.
  intros [Hh Ht Hb Hs]. unfold push_key, enqueue. destruct (c =? 0); [done|].
  rewrite next_full, length_events by done.
  destruct (Nat.ltb_spec (level KEY_BUF_SIZE (key_head s) (key_tail s)) 255) as [Hn|Hn]; cbn [negb]; [|done].
  split; [|split; [|done]].
  - split; simpl; try done; [by apply Z.mod_pos_bound|by rewrite length_insert].
  - unfold events. cbn [key_buffer key_head key_tail].
    change (key_head s + 1) with (key_head s + Z.of_nat 1).
    rewrite (level_push _ key_buf_pos (key_head s) (key_tail s) 1) by (unfold KEY_BUF_SIZE in *; lia).
    rewrite Nat.add_1_r. rewrite <-(level_head KEY_BUF_SIZE key_buf_pos (key_head s) (key_tail s)) at 1 by done.
    apply window_push; [done|unfold KEY_BUF_SIZE in *; lia|done].
Qed.

Lemma get_key_ex_spec s : kbd_ok s ->
  kbd_ok (snd (get_key_ex s)) /\ fst (get_key_ex s) = default 0 (head (events s)) /\
  events (snd (get_key_ex s)) = tail (events s) /\ mods (snd (get_key_ex s)) = mods s.
Proof.
  intros [Hh Ht Hb Hs]. unfold get_key_ex. pose proof (length_events s) as Hl.
  destruct (Z.eqb_spec (key_head s) (key_tail s)) as [E|Hne].
  - assert (Hnil : events s = []).
    { apply length_zero_iff_nil. rewrite Hl. unfold level. by rewrite E, Z.sub_diag. }
    cbn [fst snd]. by rewrite Hnil.
  - cbn [fst snd mods].
    assert (Hpos : (0 < level KEY_BUF_SIZE (key_head s) (key_tail s))%nat).
    { destruct (level KEY_BUF_SIZE (key_head s) (key_tail s)) eqn:El; [|lia].
      pose proof (level_head KEY_BUF_SIZE key_buf_pos (key_head s) (key_tail s) Hh) as Eh. rewrite El, Z.add_0_r in Eh.
      rewrite Z.mod_small in Eh by done. congruence. }
    assert (Hev : events s = key_buffer s !!! Z.to_nat (key_tail s) ::
      window KEY_BUF_SIZE (key_buffer s) ((key_tail s + 1) mod KEY_BUF_SIZE)
        (level KEY_BUF_SIZE (key_head s) (key_tail s) - 1)).
    { unfold events. rewrite <-window_cons by done. f_equal. lia. }
    split; [|split; [by rewrite Hev|split; [|done]]].
    + split; simpl; try done. by apply Z.mod_pos_bound.
    + rewrite Hev. unfold events. cbn [key_buffer key_head key_tail tail].
      change (key_tail s + 1) with (key_tail s + Z.of_nat 1).
      rewrite (level_pop _ key_buf_pos (key_head s) (key_tail s) 1) by lia. done.
Qed.

(** ** What a byte means *)

Definition key_of (b : Z) : Z := Z.land b 0x7F.
Definition is_release (b : Z) : bool := negb (Z.land b 0x80 =? 0).
Definition is_super (sc : Z) : bool := (sc =? 0x5B) || (sc =? 0x5C).

(** A release carries the marker 0x100; 0 is no event. *)
Definition mark_release (rel : bool) (c : Z) : Z := if c =? 0 then 0 else if rel then Z.lor c 0x100 else c.

(** The event of a byte, under the flags before it. *)
Definition byte_event (b : Z) (m : kmods) : Z :=
  if b =? 0xE0 then 0
  else if extended_key m then
    if is_super (key_of b) then
      if is_release b && super_active m && negb (super_used_combo m) then KEY_SUPER else 0
    else mark_release (is_release b) (extended_code (key_of b))
  else if (key_of b =? 0x1D) || is_shift (key_of b) || (negb (is_release b) && (b =? 0x3A)) then 0
  else mark_release (is_release b) (map_code (if is_release b then key_of b else b) m).

(** The flags after it. *)
Definition byte_mods (b : Z) (m : kmods) : kmods :=
  if b =? 0xE0 then set_extended true m
  else if extended_key m then
    let m := set_extended false m in
    if is_super (key_of b) then
      if is_release b then set_super false (super_used_combo m) m else set_super true false m
    else use_super m
  else if is_release b then
    if key_of b =? 0x1D then set_ctrl false m
    else if is_shift (key_of b) then set_shift false m else m
  else
    let m := use_super m in
    if b =? 0x1D then set_ctrl true m
    else if b =? 0x3A then set_caps (negb (caps_lock m)) m
    else if is_shift b then set_shift true m else m.

(** A byte of the port is not sign-extended, and a press is its own key. *)
Lemma press_key b : 0 <= b < 256 -> is_release b = false -> key_of b = b.
Proof.
  intros Hb. unfold is_release, key_of. rewrite negb_false_iff, Z.eqb_eq. intros E.
  change 0x7F with (Z.ones 7). rewrite Z.land_ones by lia.
  change 0x80 with (Z.shiftl (Z.ones 1) 7) in E. rewrite land_field in E by lia.
  apply Z.mod_small. change (2 ^ 7) with 128 in *. change (2 ^ 1) with 2 in *. zify_div.
Qed.

Lemma set_state_same b v s : kbd_ok s ->
  kbd_ok (set_state b v s) /\ events (set_state b v s) = events s /\ mods (set_state b v s) = mods s.
Proof. intros [? ? ? ?]. split; [|done]. split; simpl; try done. by rewrite length_insert. Qed.

Lemma with_mods_same m s : kbd_ok s ->
  kbd_ok (with_mods m s) /\ events (with_mods m s) = events s /\ mods (with_mods m s) = m.
Proof. by intros [? ? ? ?]. Qed.

(** [s'] is the state with the flags [m] and the queue [q]. *)
Definition shows (m : kmods) (q : list Z) (s' : kbd) : Prop := kbd_ok s' /\ events s' = q /\ mods s' = m.

Lemma shows_self s : kbd_ok s -> shows (mods s) (events s) s.
Proof. done. Qed.

Lemma shows_state m q b v s : shows m q s -> shows m q (set_state b v s).
Proof. intros (Hok & Hq & Hm). destruct (set_state_same b v s Hok) as (? & ? & ?). split_and!; congruence. Qed.

Lemma shows_mods m m' q s : shows m q s -> shows m' q (with_mods m' s).
Proof. intros (Hok & Hq & Hm). destruct (with_mods_same m' s Hok) as (? & ? & ?). split_and!; congruence. Qed.

Lemma shows_push m q c s : shows m q s -> shows m (enqueue c q) (push_key c s).
Proof. intros (Hok & Hq & Hm). destruct (push_key_spec c s Hok) as (? & ? & ?). split_and!; congruence. Qed.

Lemma enqueue_0 q : enqueue 0 q = q.
Proof. done. Qed.

Lemma shows_push_if m q c s : shows m q s -> shows m (enqueue c q) (if c =? 0 then s else push_key c s).
Proof.
  intros Hs. destruct (Z.eqb_spec c 0) as [->|]; [by rewrite enqueue_0|by apply shows_push].
Qed.

Lemma map_code_use sc m : map_code sc (use_super m) = map_code sc m.
Proof. unfold use_super. by destruct (super_active m). Qed.

Lemma extended_byte_spec b m q s : shows m q s -> b <> 0xE0 -> extended_key m = true ->
  shows (byte_mods b m) (enqueue (byte_event b m) q) (extended_byte b s).
Proof.
  intros Hs Hb Hx. unfold byte_mods, byte_event, extended_byte. rewrite (proj2 (Z.eqb_neq _ _) Hb), Hx.
  pose proof (shows_mods m (set_extended false (mods s)) q s Hs) as H1. destruct Hs as (_ & _ & Em).
  rewrite Em in H1 |- *. clear Em.
  pose proof (shows_state _ _ (key_of b) (negb (is_release b)) _ H1) as H2. fold (key_of b).
  change (negb (Z.land b 0x80 =? 0)) with (is_release b).
  set (s2 := set_state _ _ _) in *. destruct H2 as (Hok & Hq & Em). rewrite !Em.
  assert (H2 : shows (set_extended false m) q s2) by done. fold (is_super (key_of b)).
  destruct (is_super (key_of b)).
  - destruct (is_release b); cbn [negb andb]; [|by eapply shows_mods].
    change (super_active (set_extended false m)) with (super_active m).
    change (super_used_combo (set_extended false m)) with (super_used_combo m).
    destruct (super_active m && negb (super_used_combo m)).
    + pose proof (shows_push _ _ KEY_SUPER _ H2) as H3. pose proof H3 as (_ & _ & E3). rewrite E3.
      by apply shows_mods with (m := set_extended false m).
    + rewrite Em. by apply shows_mods with (m := set_extended false m).
  - pose proof (shows_mods _ (use_super (set_extended false m)) _ _ H2) as H3. unfold mark_release.
    destruct (extended_code (key_of b) =? 0); [done|]. by apply shows_push.
Qed.

Lemma release_byte_spec b m q s : shows m q s -> b <> 0xE0 -> extended_key m = false -> is_release b = true ->
  shows (byte_mods b m) (enqueue (byte_event b m) q) (release_byte b s).
Proof.
  intros Hs Hb Hx Hr. unfold byte_mods, byte_event, release_byte. rewrite (proj2 (Z.eqb_neq _ _) Hb), Hx, Hr.
  fold (key_of b). pose proof (shows_state _ _ (key_of b) false _ Hs) as H1.
  set (s1 := set_state _ _ s) in *. pose proof H1 as (_ & _ & Em). rewrite !Em. cbn [negb andb orb].
  destruct (key_of b =? 0x1D); cbn [orb]; [by apply shows_mods with (m := m)|].
  destruct (is_shift (key_of b)); cbn [orb]; [by apply shows_state, shows_mods with (m := m)|].
  unfold mark_release. destruct (map_code (key_of b) m =? 0); [done|]. by apply shows_push.
Qed.

Lemma press_byte_spec b m q s : shows m q s -> 0 <= b < 256 -> extended_key m = false -> is_release b = false ->
  shows (byte_mods b m) (enqueue (byte_event b m) q) (press_byte b s).
Proof.
  intros Hs Hb Hx Hr. unfold byte_mods, byte_event, press_byte.
  assert (Hne : b <> 0xE0) by (intros ->; vm_compute in Hr; discriminate Hr).
  pose proof (press_key b Hb Hr) as Hk. rewrite (proj2 (Z.eqb_neq _ _) Hne), Hx, Hr, Hk. cbn [negb andb].
  pose proof (shows_state _ _ (Z.land b 0x7F) true _ Hs) as H1. set (s1 := set_state _ _ s) in *.
  pose proof H1 as (_ & _ & E1). rewrite E1. pose proof (shows_mods _ (use_super m) _ _ H1) as H2.
  set (s2 := with_mods _ s1) in *. pose proof H2 as (_ & _ & E2). rewrite !E2.
  destruct (b =? 0x1D); cbn [orb]; [by apply shows_mods with (m := use_super m)|].
  destruct (b =? 0x3A); [rewrite orb_true_r; by apply shows_mods with (m := use_super m)|]. rewrite orb_false_r.
  destruct (is_shift b); [by apply shows_state, shows_mods with (m := use_super m)|].
  rewrite map_code_use. unfold mark_release. destruct (map_code b m =? 0); [done|]. by apply shows_push.
Qed.

(** An interrupt with a byte in the port: the event of the byte is queued, the
    flags are the byte's. *)
Lemma handler_shows st b m q s : shows m q s -> 0 <= b < 256 -> Z.land st 1 <> 0 ->
  shows (byte_mods b m) (enqueue (byte_event b m) q) (keyboard_handler st b s).
Proof.
  intros Hs Hb Hst. unfold keyboard_handler. rewrite (proj2 (Z.eqb_neq _ _) Hst). pose proof Hs as (_ & _ & Em). rewrite Em.
  destruct (Z.eqb_spec b 0xE0) as [->|Hne].
  { unfold byte_mods, byte_event. simpl. by apply shows_mods with (m := m). }
  destruct (extended_key m) eqn:Ex; [by apply extended_byte_spec|].
  fold (is_release b). destruct (is_release b) eqn:Er; [by apply release_byte_spec|by apply press_byte_spec].
Qed.

(** ** The driver against its abstraction *)

Inductive kbd_op := KByte (status b : Z) | KGetEx | KGet | KDrain.

Definition op_ok (o : kbd_op) : Prop := match o with KByte _ b => 0 <= b < 256 | _ => True end.

Definition kbd_step (o : kbd_op) (s : kbd) : Z * kbd :=
  match o with
  | KByte st b => (0, keyboard_handler st b s)
  | KGetEx => get_key_ex s
  | KGet => get_key s
  | KDrain => (0, keyboard_drain s)
  end.

(** The abstract driver: the flags and a bounded queue of events. *)
Definition spec_kbd_step (o : kbd_op) (a : kmods * list Z) : Z * (kmods * list Z) :=
  let '(m, q) := a in
  match o with
  | KByte st b => (0, if Z.land st 1 =? 0 then a else (byte_mods b m, enqueue (byte_event b m) q))
  | KGetEx => (default 0 (head q), (m, tail q))
  | KGet => (let c := default 0 (head q) in if Z.land c 0x100 =? 0 then i8 c else 0, (m, tail q))
  | KDrain => (0, (m, []))
  end.

Fixpoint run_ops {S} (step : kbd_op -> S -> Z * S) (os : list kbd_op) (s : S) : list Z * S :=
  match os with
  | [] => ([], s)
  | o :: os => let '(r, s) := step o s in let '(rs, s) := run_ops step os s in (r :: rs, s)
  end.

Lemma kbd_step_refines o s : kbd_ok s -> op_ok o ->
  kbd_ok (snd (kbd_step o s)) /\
  spec_kbd_step o (mods s, events s) =
    (fst (kbd_step o s), (mods (snd (kbd_step o s)), events (snd (kbd_step o s)))).
Proof.
  intros Hok Ho. destruct o as [st b| | |]; cbn [kbd_step spec_kbd_step fst snd].
  - destruct (Z.eqb_spec (Z.land st 1) 0) as [E|Hne].
    + unfold keyboard_handler. rewrite E. done.
    + destruct (handler_shows st b _ _ s (shows_self s Hok) Ho Hne) as (H1 & H2 & H3). by rewrite H2, H3.
  - destruct (get_key_ex_spec s Hok) as (H1 & H2 & H3 & H4). by rewrite H2, H3, H4.
  - destruct (get_key_ex_spec s Hok) as (H1 & H2 & H3 & H4). unfold get_key.
    destruct (get_key_ex s) as [c s']. cbn [fst snd] in *. rewrite <-H2, H3, H4. done.
  - destruct Hok as [Hh Ht Hb Hs]. split; [by split|]. unfold keyboard_drain, events. cbn [key_head key_tail key_buffer mods].
    unfold level. by rewrite Z.sub_diag.
Qed.

Lemma keyboard_refines_aux os s : kbd_ok s -> Forall op_ok os ->
  let '(rs, s') := run_ops kbd_step os s in
  kbd_ok s' /\ run_ops spec_kbd_step os (mods s, events s) = (rs, (mods s', events s')).
Proof.
  revert s. induction os as [|o os IH]; intros s Hok Hos; cbn [run_ops]; [done|].
  apply Forall_cons in Hos as [Ho Hos]. destruct (kbd_step_refines o s Hok Ho) as [Hok' E].
  cbn [fst snd] in E. rewrite E. destruct (kbd_step o s) as [r s1]. cbn [fst snd] in *.
  specialize (IH s1 Hok' Hos). destruct (run_ops kbd_step os s1) as [rs s']. destruct IH as [IH1 IH2].
  split; [done|]. by rewrite IH2.
Qed.

(** C36. The keyboard driver refines a bounded queue: for any interleaving of
    interrupts and reads, what the readers get is what they get from a queue of
    at most 255 events fed with the event of each byte, which depends on the
    modifier flags alone; an event that finds the queue full is lost. *)
Theorem keyboard_refines os s : kbd_ok s -> Forall op_ok os ->
  let '(rs, s') := run_ops kbd_step os s in
  kbd_ok s' /\ run_ops spec_kbd_step os (mods s, events s) = (rs, (mods s', events s')).
Proof. apply keyboard_refines_aux. Qed.

Lemma kbd_boot_ok : kbd_ok kbd_boot.
Proof. by split. Qed.

Lemma keyboard_refines_witness :
  fst (run_ops kbd_step [KByte 1 0x1E; KByte 1 0x9E; KGet; KGet; KGetEx] kbd_boot) = [0; 0; 97; 0; 0].
Proof.
  assert (Hos : Forall op_ok [KByte 1 0x1E; KByte 1 0x9E; KGet; KGet; KGetEx]).
  { repeat (apply Forall_cons; split; [simpl; first [exact I|lia]|]). by apply Forall_nil. }
  pose proof (keyboard_refines [KByte 1 0x1E; KByte 1 0x9E; KGet; KGet; KGetEx] kbd_boot kbd_boot_ok Hos) as H.
  destruct (run_ops kbd_step _ kbd_boot) as [rs s']. destruct H as [_ H].
  vm_compute in H. cbn [fst]. congruence.
Defined.

(** ** What typing gives *)

(** The keys pressed and released in turn. *)
Definition typed (scs : list Z) : list kbd_op :=
  flat_map (fun sc => [KByte 1 sc; KByte 1 (sc + 0x80)]) scs.

Definition is_modifier (sc : Z) : bool := (sc =? 0x1D) || (sc =? 0x3A) || is_shift sc.

(** A key that has a code under the flags. *)
Definition typable (m : kmods) (sc : Z) : Prop :=
  0 <= sc < 58 /\ is_modifier sc = false /\ map_code sc m <> 0.

Lemma map_code_flags sc m m' :
  shift_pressed m = shift_pressed m' -> caps_lock m = caps_lock m' -> ctrl_pressed m = ctrl_pressed m' ->
  map_code sc m = map_code sc m'.
Proof. intros E1 E2 E3. unfold map_code. by rewrite E1, E2, E3. Qed.

Lemma map_code_byte sc m : 0 <= map_code sc m < 256.
Proof. unfold map_code, KEY_ESC. repeat case_match; try lia; by apply wrap_bounds. Qed.

(** The scan codes below 58, one by one. *)
Lemma small_codes (P : Z -> bool) : forallb P (Z.of_nat <$> seq 0 58) = true -> forall sc, 0 <= sc < 58 -> P sc = true.
Proof.
  intros H sc Hsc. rewrite forallb_forall in H. apply H. apply in_map_iff. exists (Z.to_nat sc).
  split; [lia|]. apply in_seq. lia.
Qed.

Lemma press_release_bits sc : 0 <= sc < 58 ->
  is_release sc = false /\ is_release (sc + 0x80) = true /\ key_of sc = sc /\ key_of (sc + 0x80) = sc.
Proof.
  intros Hsc. pose proof (small_codes (fun sc => negb (is_release sc) && is_release (sc + 0x80) &&
    (key_of sc =? sc) && (key_of (sc + 0x80) =? sc)) eq_refl sc Hsc) as H. simpl in H.
  repeat (apply andb_true_iff in H as [H ?]). apply negb_true_iff in H. split_and!; try done; lia.
Qed.

(** A press and a release of a typable key. *)
Lemma type_key m sc :
  extended_key m = false -> typable m sc ->
  byte_event sc m = map_code sc m /\ byte_event (sc + 0x80) (byte_mods sc m) = Z.lor (map_code sc m) 0x100 /\
  byte_mods (sc + 0x80) (byte_mods sc m) = use_super m.
Proof.
  intros Hx (Hsc & Hmod & Hc). destruct (press_release_bits sc Hsc) as (E1 & E2 & E3 & E4).
  unfold is_modifier in Hmod. apply orb_false_iff in Hmod as [[H1 H2]%orb_false_iff H3].
  assert (Hm : byte_mods sc m = use_super m).
  { unfold byte_mods. rewrite (proj2 (Z.eqb_neq sc 0xE0)), Hx, E1, H1, H2, H3 by lia. done. }
  assert (Hx' : extended_key (use_super m) = false) by (unfold use_super; by destruct (super_active m)).
  rewrite Hm. split; [|split].
  - unfold byte_event. rewrite (proj2 (Z.eqb_neq sc 0xE0)), Hx, E1, E3, H1, H2, H3 by lia. cbn [negb andb orb].
    unfold mark_release. by rewrite (proj2 (Z.eqb_neq _ _) Hc).
  - unfold byte_event. rewrite (proj2 (Z.eqb_neq (sc + 0x80) 0xE0)), Hx', E2, E4, H1, H3 by lia. cbn [negb andb orb].
    unfold mark_release. rewrite map_code_use. by rewrite (proj2 (Z.eqb_neq _ _) Hc).
  - unfold byte_mods. by rewrite (proj2 (Z.eqb_neq (sc + 0x80) 0xE0)), Hx', E2, E4, H1, H3 by lia.
Qed.

Lemma release_mark c : 0 <= c < 256 -> Z.land c 0x100 = 0 /\ Z.land (Z.lor c 0x100) 0x100 <> 0 /\ Z.lor c 0x100 <> 0.
Proof.
  intros Hc. assert (E : Z.lor c 0x100 = c + 256).
  { rewrite Z.lor_comm, (lor_disjoint 0x100 c 8) by (done || lia). lia. }
  assert (L : forall x, Z.land x 0x100 = (x / 256) mod 2 * 256).
  { intros x. exact (land_field x 8 1 ltac:(lia) ltac:(lia)). }
  rewrite E, !L. split_and!; zify_div.
Qed.

Lemma run_ops_app {S} (step : kbd_op -> S -> Z * S) os1 os2 s :
  run_ops step (os1 ++ os2) s =
    let '(r1, s1) := run_ops step os1 s in let '(r2, s2) := run_ops step os2 s1 in (r1 ++ r2, s2).
Proof.
  revert s. induction os1 as [|o os1 IH]; intros s; cbn [run_ops app]; [by destruct (run_ops step os2 s)|].
  destruct (step o s) as [r s1]. rewrite IH. destruct (run_ops step os1 s1) as [r1 s2].
  by destruct (run_ops step os2 s2).
Qed.

(** The events of the keys, and what [get_key] makes of them. *)
Definition key_events (m : kmods) (scs : list Z) : list Z :=
  flat_map (fun sc => [map_code sc m; Z.lor (map_code sc m) 0x100]) scs.

Definition same_flags (m m' : kmods) : Prop :=
  shift_pressed m = shift_pressed m' /\ caps_lock m = caps_lock m' /\ ctrl_pressed m = ctrl_pressed m' /\
  extended_key m = extended_key m'.

Lemma run_byte b os m q :
  run_ops spec_kbd_step (KByte 1 b :: os) (m, q) =
    let '(rs, a) := run_ops spec_kbd_step os (byte_mods b m, enqueue (byte_event b m) q) in (0 :: rs, a).
Proof. done. Qed.

Lemma spec_type m0 scs m q :
  same_flags m0 m -> extended_key m0 = false -> Forall (typable m0) scs -> (length q + 2 * length scs <= 255)%nat ->
  exists m', run_ops spec_kbd_step (typed scs) (m, q) = (replicate (2 * length scs) 0, (m', q ++ key_events m0 scs)).
Proof.
  intros Hf Hx Hall. revert m q Hf. induction Hall as [|sc scs Ht Hall IH]; intros m q Hf Hlen.
  { exists m. cbn. by rewrite app_nil_r. }
  destruct Hf as (F1 & F2 & F3 & F4). pose proof (map_code_flags sc m0 m F1 F2 F3) as Ec.
  destruct (type_key m sc) as (E1 & E2 & E3); [congruence|unfold typable; by rewrite <-Ec|].
  destruct (release_mark (map_code sc m0) (map_code_byte _ _)) as (_ & _ & Hr0).
  destruct Ht as (_ & _ & Hc). cbn [length] in Hlen.
  destruct (IH (use_super m) ((q ++ [map_code sc m0]) ++ [Z.lor (map_code sc m0) 0x100])) as [m' E].
  { unfold use_super. destruct (super_active m); done. }
  { rewrite !length_app. simpl. lia. }
  exists m'. cbn [typed flat_map app]. fold (typed scs). rewrite !run_byte, E1, E2, E3, <-Ec. unfold enqueue.
  rewrite (proj2 (Z.eqb_neq _ _) Hc), (proj2 (Z.eqb_neq _ _) Hr0).
  rewrite (proj2 (Nat.ltb_lt (length q) 255)) by lia.
  rewrite (proj2 (Nat.ltb_lt (length (q ++ [map_code sc m0])) 255)) by (rewrite length_app; simpl; lia).
  rewrite E. cbn [key_events flat_map]. fold (key_events m0 scs). rewrite <-!app_assoc.
  by replace (2 * length (sc :: scs))%nat with (S (S (2 * length scs))) by (simpl; lia).
Qed.

(** What a reader sees of an event. *)
Definition read_event (c : Z) : Z := if Z.land c 0x100 =? 0 then i8 c else 0.

Lemma spec_read m q : run_ops spec_kbd_step (replicate (length q) KGet) (m, q) = (read_event <$> q, (m, [])).
Proof.
  induction q as [|c q IH]; [done|]. cbn [length replicate run_ops spec_kbd_step head tail default from_option].
  rewrite IH. done.
Qed.

(** Typing: keys that have a code, pressed and released one after the other
    with the modifiers held as they are, are read by [get_key] in order, each as
    its code followed by one empty read for its release; up to 127 keys fit. *)
Theorem keyboard_types s scs :
  kbd_ok s -> events s = [] -> extended_key (mods s) = false -> Forall (typable (mods s)) scs ->
  (2 * length scs <= 255)%nat ->
  fst (run_ops kbd_step (typed scs ++ replicate (2 * length scs) KGet) s) =
    replicate (2 * length scs) 0 ++ flat_map (fun sc => [i8 (map_code sc (mods s)); 0]) scs.
Proof.
  intros Hok Hq Hx Hall Hlen.
  assert (Hos : Forall op_ok (typed scs ++ replicate (2 * length scs) KGet)).
  { apply Forall_app. split; [|by apply Forall_replicate].
    clear -Hall. induction Hall as [|sc scs (Hsc & _) _ IH]; [done|]. cbn. repeat (constructor; simpl; [lia|]). done. }
  pose proof (keyboard_refines_aux _ s Hok Hos) as H. destruct (run_ops kbd_step _ s) as [rs s']. destruct H as [_ H].
  rewrite run_ops_app, Hq in H.
  destruct (spec_type (mods s) scs (mods s) [] ltac:(done) Hx Hall Hlen) as [m' E]. rewrite E in H. cbn [app] in H.
  assert (Hn : length (key_events (mods s) scs) = (2 * length scs)%nat).
  { clear. unfold key_events. induction scs as [|sc scs IH]; [done|]. cbn [flat_map app length]. lia. }
  rewrite <-Hn, spec_read in H. cbn [fst]. injection H as H _. rewrite <-H, Hn. f_equal.
  clear. unfold key_events. induction scs as [|sc scs IH]; [done|]. cbn [flat_map app fmap list_fmap]. rewrite IH.
  destruct (release_mark (map_code sc (mods s)) (map_code_byte _ _)) as (E1 & E2 & _). unfold read_event.
  by rewrite E1, (proj2 (Z.eqb_neq _ _) E2).
Qed.

(** The keys h, e, l, l, o. *)
Definition hello : list Z := [35; 18; 38; 38; 24].

Lemma keyboard_types_witness :
  fst (run_ops kbd_step (typed hello ++ replicate (2 * length hello) KGet) kbd_boot) =
    replicate 10 0 ++ [104; 0; 101; 0; 108; 0; 108; 0; 111; 0].
Proof.
  assert (Ht : Forall (typable (mods kbd_boot)) hello).
  { repeat (apply Forall_cons; split; [split; [lia|split; [reflexivity|vm_compute; discriminate]]|]). by apply Forall_nil. }
  rewrite (keyboard_types kbd_boot hello kbd_boot_ok eq_refl eq_refl Ht) by (simpl; lia).
  reflexivity.
Defined.

(** ** Letters *)

(** The lower-case letter of a key, if it has one. *)
Definition letter (sc : Z) : option Z :=
  let c := normal_map !!! Z.to_nat sc in if is_lower c then Some c else None.

(** The code of a letter key: with control its number in the alphabet,
    otherwise the lower-case letter while a shift key is held, whatever caps
    lock says, and with caps lock alone the capital.  So shift, whose table has
    the capitals already, never types one. *)
Theorem keyboard_letters sc c m :
  0 <= sc < 58 -> letter sc = Some c ->
  map_code sc m =
    if ctrl_pressed m then c - 96
    else if shift_pressed m then c
    else if caps_lock m then c - 32 else c.
Proof.
  intros Hsc Hl. set (t ct sh ca := KMods sh ca ct false false false).
  assert (H : (match letter sc with
    | None => true
    | Some c => forallb (fun ct => forallb (fun sh => forallb (fun ca =>
        map_code sc (t ct sh ca) =? (if (ct : bool) then c - 96 else if (sh : bool) then c else if (ca : bool) then c - 32 else c))
        [true; false]) [true; false]) [true; false]
    end) = true).
  { apply (small_codes (fun sc => match letter sc with
    | None => true
    | Some c => forallb (fun ct => forallb (fun sh => forallb (fun ca =>
        map_code sc (t ct sh ca) =? (if (ct : bool) then c - 96 else if (sh : bool) then c else if (ca : bool) then c - 32 else c))
        [true; false]) [true; false]) [true; false]
    end)); [vm_compute; reflexivity|done]. }
  rewrite Hl in H. rewrite (map_code_flags sc m (t (ctrl_pressed m) (shift_pressed m) (caps_lock m))) by done.
  cbn [forallb] in H. repeat (apply andb_true_iff in H as [? H]).
  repeat match goal with X : (_ && _) = true |- _ => apply andb_true_iff in X as [? X] end.
  destruct (ctrl_pressed m), (shift_pressed m), (caps_lock m); by apply Z.eqb_eq.
Qed.

Lemma keyboard_letters_witness : map_code 30 (KMods true false false false false false) = 97.
Proof. exact (keyboard_letters 30 97 (KMods true false false false false false) ltac:(lia) eq_refl). Defined.

(** ** The super key *)

(** Bytes of normal keys. *)
Definition normal_byte (b : Z) : Prop := 0 <= b < 256 /\ b <> 0xE0.

Definition fed (bs : list Z) (s : kbd) : kbd := foldl (fun s b => keyboard_handler 1 b s) s bs.

Lemma fed_shows bs s : kbd_ok s -> Forall normal_byte bs -> extended_key (mods s) = false ->
  kbd_ok (fed bs s) /\ extended_key (mods (fed bs s)) = false /\ super_active (mods (fed bs s)) = super_active (mods s) /\
  super_used_combo (mods (fed bs s)) =
    super_used_combo (mods s) || (super_active (mods s) && existsb (fun b => negb (is_release b)) bs).
Proof.
  revert s. induction bs as [|b bs IH]; intros s Hok Hbs Hx; cbn [fed foldl existsb].
  { by rewrite andb_false_r, orb_false_r. }
  apply Forall_cons in Hbs as [[Hb Hne] Hbs]. fold (fed bs (keyboard_handler 1 b s)).
  destruct (handler_shows 1 b _ _ s (shows_self s Hok) Hb ltac:(done)) as (Hok' & _ & Em).
  assert (E : extended_key (byte_mods b (mods s)) = false /\ super_active (byte_mods b (mods s)) = super_active (mods s) /\
    super_used_combo (byte_mods b (mods s)) = super_used_combo (mods s) || (super_active (mods s) && negb (is_release b))).
  { unfold byte_mods, use_super. rewrite (proj2 (Z.eqb_neq _ _) Hne), Hx.
    destruct (is_release b), (super_active (mods s)) eqn:Es, (super_used_combo (mods s)) eqn:Eu; cbn [negb andb orb];
      repeat case_match; simpl; rewrite ?Hx, ?Es, ?Eu; done. }
  destruct E as (E1 & E2 & E3). rewrite <-Em in E1, E2, E3.
  destruct (IH _ Hok' Hbs E1) as (I1 & I2 & I3 & I4). rewrite I3, I4, E2, E3. split_and!; try done.
  by destruct (super_active (mods s)), (super_used_combo (mods s)), (is_release b).
Qed.

Lemma fed_app bs1 bs2 s : fed (bs1 ++ bs2) s = fed bs2 (fed bs1 s).
Proof. apply foldl_app. Qed.

(** The super key: pressed and released with other keys in between, its
    release queues [KEY_SUPER] when none of those was pressed, only released,
    and nothing otherwise; so a combination never opens the menu as well. *)
Theorem keyboard_super s bs :
  kbd_ok s -> extended_key (mods s) = false -> Forall normal_byte bs ->
  events (fed ([0xE0; 0x5B] ++ bs ++ [0xE0; 0xDB]) s) =
    (if existsb (fun b => negb (is_release b)) bs
     then events (fed ([0xE0; 0x5B] ++ bs) s)
     else enqueue KEY_SUPER (events (fed ([0xE0; 0x5B] ++ bs) s))).
Proof.
  intros Hok Hx Hbs. rewrite app_assoc, fed_app.
  assert (H1 : kbd_ok (fed [0xE0; 0x5B] s) /\ mods (fed [0xE0; 0x5B] s) = set_super true false (mods s)).
  { cbn [fed foldl].
    destruct (handler_shows 1 0xE0 _ _ s (shows_self s Hok) ltac:(lia) ltac:(done)) as (Hok1 & _ & E1).
    destruct (handler_shows 1 0x5B _ _ _ (shows_self _ Hok1) ltac:(lia) ltac:(done)) as (Hok2 & _ & E2).
    split; [done|]. rewrite E2, E1. unfold byte_mods at 2. cbn [Z.eqb Pos.eqb]. unfold byte_mods, set_super, set_extended; simpl.
    by rewrite Hx. }
  destruct H1 as [Hok1 E1]. rewrite fed_app. set (s1 := fed [0xE0; 0x5B] s) in *.
  destruct (fed_shows bs s1 Hok1 Hbs) as (Hok2 & E2 & E3 & E4); [by rewrite E1|].
  rewrite E1 in E3, E4. cbn [super_active super_used_combo set_super orb andb] in E3, E4.
  set (s2 := fed bs s1) in *. cbn [fed foldl].
  destruct (handler_shows 1 0xE0 _ _ s2 (shows_self s2 Hok2) ltac:(lia) ltac:(done)) as (Hok3 & Q3 & M3).
  destruct (handler_shows 1 0xDB _ _ _ (shows_self _ Hok3) ltac:(lia) ltac:(done)) as (_ & Q4 & _).
  rewrite Q4, Q3, M3. unfold byte_event, byte_mods. cbn [Z.eqb Pos.eqb extended_key set_extended].
  change (is_super (key_of 0xDB)) with true. change (is_release 0xDB) with true. cbn iota. cbn [andb].
  change (super_active (set_extended true (mods s2))) with (super_active (mods s2)).
  change (super_used_combo (set_extended true (mods s2))) with (super_used_combo (mods s2)).
  rewrite E3, E4. by destruct (existsb _ bs).
Qed.

Lemma keyboard_super_witness : events (fed ([0xE0; 0x5B] ++ [0x14; 0x94] ++ [0xE0; 0xDB]) kbd_boot) = [116; 372].
Proof.
  rewrite (keyboard_super kbd_boot [0x14; 0x94] kbd_boot_ok eq_refl); [reflexivity|].
  repeat (apply Forall_cons; split; [split; lia|]). by apply Forall_nil.
Defined.

(** A release after the modifiers have changed does not mirror its press: with
    shift held 1 is pressed as an exclamation mark, and when shift goes first
    it is released as 1. *)
Lemma keyboard_release_mismatch :
  events (fed [0x2A; 0x02; 0xAA; 0x82] kbd_boot) = [33; Z.lor 49 0x100].
Proof. vm_compute. reflexivity. Qed.
