(* ===== verification/Mouse.v ===== *)
(** The PS/2 mouse: the packet parser and the accessors of
    src/drivers/input/mouse.c.  The bytes read from ports 0x64 and 0x60 are
    arguments.  The commands of [init_mouse] and the drawing of the cursor are
    not here. *)
From Stdlib Require Import ZArith Lia.
From stdpp Require Import base numbers list.
From S2P Require Import Prelude.

Record mouse := Mouse {
  mouse_x : Z;
  mouse_y : Z;
  mouse_buttons : Z;
  mouse_updated : bool;
  mouse_dx_acc : Z;
  mouse_dy_acc : Z;
  bound_x : Z;
  bound_y : Z;
  mouse_cycle : Z;
  packet0 : Z;             (* mouse_packet[0..2]; the fourth byte is used at once *)
  packet1 : Z;
  packet2 : Z;
  mouse_scroll_delta : Z;
  mouse_intellimouse : bool;
  click_latched : bool;
  click_lx : Z;
  click_ly : Z;
  prev_btn_state : Z;
  mouse_sensitivity : Z;
}.

(** The variables at boot; [wheel] is what [init_mouse] finds out. *)
Definition mouse_boot (wheel : bool) : mouse :=
  Mouse 512 384 0 false 0 0 1024 768 0 0 0 0 0 wheel false 0 0 0 2.

Definition set_packet (cycle p0 p1 p2 : Z) (s : mouse) : mouse :=
  Mouse (mouse_x s) (mouse_y s) (mouse_buttons s) (mouse_updated s) (mouse_dx_acc s) (mouse_dy_acc s)
    (bound_x s) (bound_y s) cycle p0 p1 p2 (mouse_scroll_delta s) (mouse_intellimouse s)
    (click_latched s) (click_lx s) (click_ly s) (prev_btn_state s) (mouse_sensitivity s).

Definition set_cycle (c : Z) (s : mouse) : mouse := set_packet c (packet0 s) (packet1 s) (packet2 s) s.

(** A movement byte with its sign bit from the status byte. *)
Definition sign_extend (b status bit : Z) : Z :=
  if Z.land status bit =? 0 then b else i32 (Z.lor b 0xFFFFFF00).

Definition apply_sensitivity (level d : Z) : Z :=
  if level =? 1 then Z.quot d 2 else if level =? 3 then i32 (d + Z.quot d 2) else d.

(** The two comparisons of each coordinate. *)
Definition clamp (v bound : Z) : Z :=
  let v := if v <? 0 then 0 else v in
  if bound <=? v then i32 (bound - 1) else v.

(** The third byte of a packet without overflow. *)
Definition mouse_move (s : mouse) : mouse :=
  let buttons := Z.land (packet0 s) 0x07 in
  let dx := sign_extend (packet1 s) (packet0 s) 0x10 in
  let dy := sign_extend (packet2 s) (packet0 s) 0x20 in
  let x := clamp (i32 (mouse_x s + apply_sensitivity (mouse_sensitivity s) dx)) (bound_x s) in
  let y := clamp (i32 (mouse_y s - apply_sensitivity (mouse_sensitivity s) dy)) (bound_y s) in
  let press := negb (Z.land buttons 0x01 =? 0) && (Z.land (prev_btn_state s) 0x01 =? 0) in
  Mouse x y buttons true (i32 (mouse_dx_acc s + dx)) (i32 (mouse_dy_acc s + dy))
    (bound_x s) (bound_y s) (if mouse_intellimouse s then 3 else 0)
    (packet0 s) (packet1 s) (packet2 s) (mouse_scroll_delta s) (mouse_intellimouse s)
    (if press then true else click_latched s) (if press then x else click_lx s) (if press then y else click_ly s)
    buttons (mouse_sensitivity s).

Definition wheel_byte (data : Z) (s : mouse) : mouse :=
  let z := (data + 128) mod 256 - 128 in
  Mouse (mouse_x s) (mouse_y s) (mouse_buttons s) (mouse_updated s) (mouse_dx_acc s) (mouse_dy_acc s)
    (bound_x s) (bound_y s) 0 (packet0 s) (packet1 s) (packet2 s)
    (if z =? 0 then mouse_scroll_delta s else i32 (mouse_scroll_delta s + z)) (mouse_intellimouse s)
    (click_latched s) (click_lx s) (click_ly s) (prev_btn_state s) (mouse_sensitivity s).

Definition mouse_handler (status data : Z) (s : mouse) : mouse :=
  if Z.land status 0x01 =? 0 then s else
  if mouse_cycle s =? 0 then
    if Z.land data 0x08 =? 0 then s else set_packet 1 data (packet1 s) (packet2 s) s
  else if mouse_cycle s =? 1 then set_packet 2 (packet0 s) data (packet2 s) s
  else if mouse_cycle s =? 2 then
    let s := set_packet 2 (packet0 s) (packet1 s) data s in
    if negb (Z.land (packet0 s) 0xC0 =? 0) then set_cycle 0 s else mouse_move s
  else if mouse_cycle s =? 3 then wheel_byte data s
  else s.

(** ** Accessors *)

Definition mouse_get_deltas (s : mouse) : Z * Z * mouse :=
  (mouse_dx_acc s, mouse_dy_acc s,
   Mouse (mouse_x s) (mouse_y s) (mouse_buttons s) (mouse_updated s) 0 0 (bound_x s) (bound_y s)
     (mouse_cycle s) (packet0 s) (packet1 s) (packet2 s) (mouse_scroll_delta s) (mouse_intellimouse s)
     (click_latched s) (click_lx s) (click_ly s) (prev_btn_state s) (mouse_sensitivity s)).

Definition mouse_has_update (s : mouse) : bool * mouse :=
  (mouse_updated s,
   Mouse (mouse_x s) (mouse_y s) (mouse_buttons s) false (mouse_dx_acc s) (mouse_dy_acc s) (bound_x s) (bound_y s)
     (mouse_cycle s) (packet0 s) (packet1 s) (packet2 s) (mouse_scroll_delta s) (mouse_intellimouse s)
     (click_latched s) (click_lx s) (click_ly s) (prev_btn_state s) (mouse_sensitivity s)).

Definition mouse_set_bounds (max_x max_y : Z) (s : mouse) : mouse :=
  Mouse (if max_x <=? mouse_x s then i32 (max_x - 1) else mouse_x s)
    (if max_y <=? mouse_y s then i32 (max_y - 1) else mouse_y s)
    (mouse_buttons s) (mouse_updated s) (mouse_dx_acc s) (mouse_dy_acc s) max_x max_y
    (mouse_cycle s) (packet0 s) (packet1 s) (packet2 s) (mouse_scroll_delta s) (mouse_intellimouse s)
    (click_latched s) (click_lx s) (click_ly s) (prev_btn_state s) (mouse_sensitivity s).

Definition mouse_set_sensitivity (level : Z) (s : mouse) : mouse :=
  let level := if level <? 1 then 1 else level in
  let level := if 3 <? level then 3 else level in
  Mouse (mouse_x s) (mouse_y s) (mouse_buttons s) (mouse_updated s) (mouse_dx_acc s) (mouse_dy_acc s)
    (bound_x s) (bound_y s) (mouse_cycle s) (packet0 s) (packet1 s) (packet2 s) (mouse_scroll_delta s)
    (mouse_intellimouse s) (click_latched s) (click_lx s) (click_ly s) (prev_btn_state s) level.

Definition mouse_clear_wheel_delta (s : mouse) : mouse :=
  Mouse (mouse_x s) (mouse_y s) (mouse_buttons s) (mouse_updated s) (mouse_dx_acc s) (mouse_dy_acc s)
    (bound_x s) (bound_y s) (mouse_cycle s) (packet0 s) (packet1 s) (packet2 s) 0 (mouse_intellimouse s)
    (click_latched s) (click_lx s) (click_ly s) (prev_btn_state s) (mouse_sensitivity s).

(** The position of the latched click, or none. *)
Definition mouse_consume_click (s : mouse) : option (Z * Z) * mouse :=
  if click_latched s then
    (Some (click_lx s, click_ly s),
     Mouse (mouse_x s) (mouse_y s) (mouse_buttons s) (mouse_updated s) (mouse_dx_acc s) (mouse_dy_acc s)
       (bound_x s) (bound_y s) (mouse_cycle s) (packet0 s) (packet1 s) (packet2 s) (mouse_scroll_delta s)
       (mouse_intellimouse s) false (click_lx s) (click_ly s) (prev_btn_state s) (mouse_sensitivity s))
  else (None, s).
