(* ===== verification/MouseProps.v ===== *)
(** The properties of the mouse driver: packets are decoded as they were
    encoded, the pointer stays on the screen, and the overflow that loses the
    start of the packets. *)
From Stdlib Require Import ZArith Lia.
From stdpp Require Import base numbers list.
From S2P Require Import Prelude Mouse.

Definition mouse_fed (bs : list Z) (s : mouse) : mouse := foldl (fun s b => mouse_handler 1 b s) s bs.

Lemma mouse_fed_app bs1 bs2 s : mouse_fed (bs1 ++ bs2) s = mouse_fed bs2 (mouse_fed bs1 s).
Proof. apply foldl_app. Qed.

(** ** The pointer stays on the screen *)

(** Bounds of a screen: positive and within 16 bits. *)
Definition screen (b : Z) : Prop := 1 <= b <= 2 ^ 16.

Record mouse_ok (s : mouse) : Prop := {
  mo_bx : screen (bound_x s);
  mo_by : screen (bound_y s);
  mo_x : 0 <= mouse_x s < bound_x s;
  mo_y : 0 <= mouse_y s < bound_y s;
  mo_cycle : 0 <= mouse_cycle s <= 3;
  mo_packet : is_byte (packet0 s) /\ is_byte (packet1 s) /\ is_byte (packet2 s);
  mo_level : 1 <= mouse_sensitivity s <= 3;
}.

Lemma clamp_screen v b : screen b -> 0 <= clamp v b < b.
Proof.
  unfold screen, clamp. intros Hb. destruct (Z.ltb_spec v 0).
  - destruct (Z.leb_spec b 0); [lia|]. lia.
  - destruct (Z.leb_spec b v); [rewrite i32_small by lia; lia|lia].
Qed.

Inductive mouse_op :=
  | MByte (status b : Z) | MDeltas | MUpdate | MBounds (x y : Z) | MLevel (l : Z) | MClear | MClick.

Definition mouse_op_ok (o : mouse_op) : Prop :=
  match o with MByte _ b => is_byte b | MBounds x y => screen x /\ screen y | _ => True end.

Definition mouse_step (o : mouse_op) (s : mouse) : mouse :=
  match o with
  | MByte st b => mouse_handler st b s
  | MDeltas => snd (mouse_get_deltas s)
  | MUpdate => snd (mouse_has_update s)
  | MBounds x y => mouse_set_bounds x y s
  | MLevel l => mouse_set_sensitivity l s
  | MClear => mouse_clear_wheel_delta s
  | MClick => snd (mouse_consume_click s)
  end.

Lemma handler_ok st b s : mouse_ok s -> is_byte b -> mouse_ok (mouse_handler st b s).
Proof.
  intros Hok Hb. unfold mouse_handler. pose proof Hok as [Hbx Hby Hx Hy Hc (H0 & H1 & H2) Hl].
  repeat (case_match; [|]); try exact Hok; split; simpl; try done; try lia; try (by split_and!);
    try (by apply clamp_screen); by destruct (mouse_intellimouse s).
Qed.

Lemma step_ok o s : mouse_ok s -> mouse_op_ok o -> mouse_ok (mouse_step o s).
Proof.
  intros Hok Ho. pose proof Hok as [Hbx Hby Hx Hy Hc Hp Hl].
  destruct o as [st b| | |x y|l| |]; cbn [mouse_step mouse_op_ok] in *.
  - by apply handler_ok.
  - by split.
  - by split.
  - destruct Ho as [Hx' Hy']. unfold screen in *. split; simpl; try done.
    + destruct (Z.leb_spec x (mouse_x s)); [rewrite i32_small by lia|]; lia.
    + destruct (Z.leb_spec y (mouse_y s)); [rewrite i32_small by lia|]; lia.
  - split; simpl; try done. repeat case_match; lia.
  - by split.
  - unfold mouse_consume_click. destruct (click_latched s); [by split|done].
Qed.

(** The pointer is inside the screen after every sequence of bytes from the
    mouse, whatever they are, and of calls of the accessors, when the bounds set
    are those of a screen. *)
Theorem mouse_on_screen wheel os :
  Forall mouse_op_ok os -> mouse_ok (foldl (fun s o => mouse_step o s) (mouse_boot wheel) os).
Proof.
  assert (H0 : mouse_ok (mouse_boot wheel)) by (split; unfold screen, is_byte; simpl; lia).
  revert H0. generalize (mouse_boot wheel) as s. induction os as [|o os IH]; intros s Hok Hos; [done|].
  apply Forall_cons in Hos as [Ho Hos]. cbn [foldl]. apply IH; [by apply step_ok|done].
Qed.

Lemma mouse_on_screen_witness :
  mouse_ok (foldl (fun s o => mouse_step o s) (mouse_boot false) [MByte 1 0x18; MByte 1 0; MByte 1 0; MBounds 640 480]).
Proof.
  apply mouse_on_screen. repeat (apply Forall_cons; split; [simpl; unfold screen, is_byte; lia|]). by apply Forall_nil.
Defined.

(** ** Packets *)

(** What the mouse reports: three buttons, two 9-bit movements, the wheel. *)
Record report := Report { rb : Z; rdx : Z; rdy : Z; rz : Z }.

Definition report_ok (r : report) : Prop :=
  0 <= rb r < 8 /\ -256 <= rdx r < 256 /\ -256 <= rdy r < 256 /\ -128 <= rz r < 128.

Definition status_byte (r : report) : Z :=
  rb r + 8 + (if rdx r <? 0 then 16 else 0) + (if rdy r <? 0 then 32 else 0).

Definition encode (wheel : bool) (r : report) : list Z :=
  [status_byte r; rdx r mod 256; rdy r mod 256] ++ (if wheel then [rz r mod 256] else []).

(** The fields of a status byte, by enumeration. *)
Lemma status_fields r : report_ok r ->
  Z.land (status_byte r) 0x08 <> 0 /\ Z.land (status_byte r) 0xC0 = 0 /\ Z.land (status_byte r) 0x07 = rb r /\
  (Z.land (status_byte r) 0x10 =? 0) = negb (rdx r <? 0) /\ (Z.land (status_byte r) 0x20 =? 0) = negb (rdy r <? 0).
Proof.
  intros (Hb & _). unfold status_byte.
  assert (E : exists k, (k < 8)%nat /\ rb r = Z.of_nat k) by (exists (Z.to_nat (rb r)); lia).
  destruct E as (k & Hk & ->). destruct (rdx r <? 0), (rdy r <? 0);
    do 8 (destruct k as [|k]; [vm_compute; repeat split; discriminate|]); lia.
Qed.

Lemma sign_extend_decodes d st bit : -256 <= d < 256 -> (Z.land st bit =? 0) = negb (d <? 0) ->
  sign_extend (d mod 256) st bit = d.
Proof.
  intros Hd E. unfold sign_extend. rewrite E. destruct (Z.ltb_spec d 0); cbn [negb].
  - assert (Em : d mod 256 = d + 256) by (symmetry; apply (Z.mod_unique_pos _ _ (-1)); lia). rewrite Em.
    rewrite Z.lor_comm, (lor_disjoint 0xFFFFFF00 (d + 256) 8) by (done || lia). unfold i32.
    rewrite <-(Z.mod_unique_pos (0xFFFFFF00 + (d + 256) + 2 ^ 31) (2 ^ 32) 1 (d + 2 ^ 31)) by lia. lia.
  - apply Z.mod_small. lia.
Qed.

(** What a report does. *)
Definition reported (wheel : bool) (r : report) (s : mouse) : mouse :=
  let x := clamp (i32 (mouse_x s + apply_sensitivity (mouse_sensitivity s) (rdx r))) (bound_x s) in
  let y := clamp (i32 (mouse_y s - apply_sensitivity (mouse_sensitivity s) (rdy r))) (bound_y s) in
  let press := Z.testbit (rb r) 0 && negb (Z.testbit (prev_btn_state s) 0) in
  Mouse x y (rb r) true (i32 (mouse_dx_acc s + rdx r)) (i32 (mouse_dy_acc s + rdy r))
    (bound_x s) (bound_y s) 0 (status_byte r) (rdx r mod 256) (rdy r mod 256)
    (if wheel && negb (rz r =? 0) then i32 (mouse_scroll_delta s + rz r) else mouse_scroll_delta s) (mouse_intellimouse s)
    (click_latched s || press) (if press then x else click_lx s) (if press then y else click_ly s)
    (rb r) (mouse_sensitivity s).

Lemma low_bit b : (Z.land b 0x01 =? 0) = negb (Z.testbit b 0).
Proof.
  change 0x01 with (Z.ones 1). rewrite Z.land_ones by lia. rewrite Z.bit0_odd, <-Z.negb_even, negb_involutive.
  rewrite Zeven_mod. change (2 ^ 1) with 2. unfold Zeq_bool. destruct (Z.eqb_spec (b mod 2) 0) as [->|]; [done|].
  pose proof (Z.mod_pos_bound b 2). by replace (b mod 2) with 1 by lia.
Qed.

(** Reduces the fields of a state that is written out. *)
Ltac mouse_fields :=
  cbv beta delta [set_packet set_cycle];
  cbn [mouse_x mouse_y mouse_buttons mouse_updated mouse_dx_acc mouse_dy_acc bound_x bound_y mouse_cycle
    packet0 packet1 packet2 mouse_scroll_delta mouse_intellimouse click_latched click_lx click_ly prev_btn_state
    mouse_sensitivity].

(** The byte that is handled now: its case of the switch. *)
Ltac next_byte :=
  match goal with |- context [mouse_handler 1 ?d (Mouse ?a1 ?a2 ?a3 ?a4 ?a5 ?a6 ?a7 ?a8 ?c ?p0 ?p1 ?p2 ?e1 ?e2 ?e3 ?e4 ?e5 ?e6 ?e7)] =>
    let s := constr:(Mouse a1 a2 a3 a4 a5 a6 a7 a8 c p0 p1 p2 e1 e2 e3 e4 e5 e6 e7) in
    let t := eval cbv beta delta [mouse_handler] in (mouse_handler 1 d s) in
    change (mouse_handler 1 d s) with t
  end; change (Z.land 1 1 =? 0) with false; mouse_fields; cbn [Z.eqb Pos.eqb].

Lemma fed_report r s : report_ok r -> mouse_cycle s = 0 ->
  mouse_fed (encode (mouse_intellimouse s) r) s = reported (mouse_intellimouse s) r s.
Proof.
  intros Hr Hc. destruct (status_fields r Hr) as (E8 & EC & E7 & E10 & E20).
  destruct Hr as (_ & Hdx & Hdy & Hz).
  destruct s as [x y b up ax ay bx by' cyc p0 p1 p2 sc im cl clx cly pb lv]. cbn [mouse_cycle] in Hc. subst cyc.
  unfold encode. rewrite mouse_fed_app. cbn [mouse_fed foldl].
  next_byte. rewrite (proj2 (Z.eqb_neq _ _) E8). mouse_fields.
  next_byte. next_byte. rewrite EC. cbn [Z.eqb negb]. unfold mouse_move. mouse_fields.
  rewrite E7, !sign_extend_decodes by done. rewrite !low_bit, negb_involutive.
  unfold reported. mouse_fields.
  destruct im; cbn [mouse_fed foldl andb].
  - next_byte. unfold wheel_byte. mouse_fields.
    assert (Ez : (rz r mod 256 + 128) mod 256 - 128 = rz r).
    { rewrite Zplus_mod_idemp_l, Z.mod_small by lia. lia. }
    rewrite Ez. f_equal; [by destruct (rz r =? 0)|by destruct (Z.testbit (rb r) 0 && negb (Z.testbit pb 0)), cl].
  - f_equal. by destruct (Z.testbit (rb r) 0 && negb (Z.testbit pb 0)), cl.
Qed.

(** The driver decodes what the mouse sends: after any sequence of whole
    packets (three bytes, or four with a wheel) it has applied each report in
    turn: buttons, the two signed movements scaled and clamped, the raw
    movements and the wheel accumulated, and a left press latched where the
    pointer is drawn after its movement; and it is ready for a packet. *)
Theorem mouse_decodes rs s :
  Forall report_ok rs -> mouse_cycle s = 0 ->
  mouse_fed (flat_map (encode (mouse_intellimouse s)) rs) s =
    foldl (fun s r => reported (mouse_intellimouse s) r s) s rs /\
  mouse_cycle (mouse_fed (flat_map (encode (mouse_intellimouse s)) rs) s) = 0.
Proof.
  intros Hrs. revert s. induction Hrs as [|r rs Hr _ IH]; intros s Hc; [done|].
  cbn [flat_map foldl]. rewrite mouse_fed_app, fed_report by done.
  exact (IH (reported (mouse_intellimouse s) r s) eq_refl).
Qed.

Lemma mouse_decodes_witness :
  let s := mouse_fed (flat_map (encode true) [Report 1 (-3) 5 0; Report 0 200 0 (-1)]) (mouse_boot true) in
  (mouse_x s, mouse_y s, mouse_scroll_delta s) = (709, 379, -1).
Proof.
  intros s. destruct (mouse_decodes [Report 1 (-3) 5 0; Report 0 200 0 (-1)] (mouse_boot true)) as [E _]; [|reflexivity|].
  { repeat (apply Forall_cons; split; [unfold report_ok; simpl; lia|]). by apply Forall_nil. }
  change (mouse_intellimouse (mouse_boot true)) with true in E. unfold s. rewrite E. vm_compute. reflexivity.
Defined.

(** A packet whose overflow bits are set is dropped, and a mouse without a
    wheel is in step afterwards.  With a wheel the parser returns to the start
    after the third byte of such a packet: the fourth one, the wheel, is then
    taken for a status byte whenever its bit 3 is set (every small negative
    movement), and the packets after it are read one byte off. *)
Theorem mouse_overflow_desync p0 p1 p2 z s :
  mouse_cycle s = 0 -> Z.land p0 0x08 <> 0 -> Z.land p0 0xC0 <> 0 ->
  mouse_fed [p0; p1; p2] s = set_packet 0 p0 p1 p2 s /\
  mouse_fed [p0; p1; p2; z] s =
    if Z.land z 0x08 =? 0 then set_packet 0 p0 p1 p2 s else set_packet 1 z p1 p2 s.
Proof.
  intros Hc E8 EC. assert (H3 : mouse_fed [p0; p1; p2] s = set_packet 0 p0 p1 p2 s).
  { destruct s as [x y b up ax ay bx by' cyc q0 q1 q2 sc im cl clx cly pb lv]. cbn [mouse_cycle] in Hc. subst cyc. cbn [mouse_fed foldl].
    next_byte. rewrite (proj2 (Z.eqb_neq _ _) E8). mouse_fields. next_byte. next_byte.
    by rewrite (proj2 (Z.eqb_neq _ _) EC). }
  split; [done|]. change [p0; p1; p2; z] with ([p0; p1; p2] ++ [z]). rewrite mouse_fed_app, H3.
  destruct s as [x y b up ax ay bx by' cyc q0 q1 q2 sc im cl clx cly pb lv]. mouse_fields. cbn [mouse_fed foldl]. next_byte.
  by destruct (Z.land z 8 =? 0).
Qed.

(** A fast movement with the wheel turned by one, then a report of a button: the
    button is not seen. *)
Lemma mouse_overflow_desync_witness :
  mouse_fed [0xC8; 0; 0; 0xFF] (mouse_boot true) = set_packet 1 0xFF 0 0 (mouse_boot true) /\
  mouse_buttons (mouse_fed (encode true (Report 1 0 0 0)) (mouse_fed [0xC8; 0; 0; 0xFF] (mouse_boot true))) = 0.
Proof.
  assert (E8 : Z.land 0xC8 0x08 <> 0) by (vm_compute; discriminate).
  assert (EC : Z.land 0xC8 0xC0 <> 0) by (vm_compute; discriminate).
  rewrite (proj2 (mouse_overflow_desync 0xC8 0 0 0xFF (mouse_boot true) eq_refl E8 EC)).
  split; vm_compute; reflexivity.
Defined.
