(* ===== verification/Poll.v ===== *)
(** Readiness: [fd_poll_revents], poll and epoll of src/kernel/syscall.c.  A call
    that sleeps sees the world again after each sleep, so the worlds of its
    passes are an argument, each with the time read after the pass; running out
    of them ([None]) is a call that still waits.  Error codes are the negative
    numbers before their conversion to 64 bits. *)
From Stdlib Require Import ZArith Lia.
From stdpp Require Import base numbers list gmap strings.
From S2P Require Import Prelude HeapIface Ring Task Pty Fd Net Sock.

Definition POLLERR : Z := 0x008.
Definition POLLNVAL : Z := 0x020.
Definition POLLRDNORM : Z := 0x040.
Definition POLLWRNORM : Z := 0x100.
Definition ENOENT : Z := 2.
Definition EEXIST : Z := 17.
Definition EINVAL : Z := 22.
Definition ENFILE : Z := 24.
Definition ENOSPC : Z := 28.
Definition EIGEN_POLL_MAXFD : Z := 256.
Definition EIGEN_EPOLL_MAXMON : nat := 32.
Definition EIGEN_EPOLL_MAXENT : Z := 64.

(** One of [g_epoll]: [e] holds the first [count] entries. *)
Record epoll_ent := EpollEnt { ee_fd : Z; ee_events : Z; ee_data : Z }.
Record epoll_mon := EpollMon { used : bool; owner_group : Z; e : list epoll_ent }.

Definition count (m : epoll_mon) : Z := Z.of_nat (length (e m)).

(** A [struct eigen_pollfd] without its result. *)
Record pollfd := PollFd { pf_fd : Z; pf_events : Z }.

Inductive epoll_result := EpollError (code : Z) | EpollEvents (l : list (Z * Z)).

Section poll.
Context {H : Type}.

(** The state the calls look at. *)
Record world := World {
  w_io : io (H := H);
  w_net : net H;
  g_epoll : list epoll_mon;
}.

Definition fd_poll_revents (fd : Z) (w : world) : Z :=
  if fd_bad fd then POLLNVAL else
  let f := fd_of fd (w_io w) in
  if fd_types f =? FD_SOCKET then
    let r := sys_socket_poll fd (w_net w) in
    if r <? 0 then POLLNVAL else r
  else if fd_types f =? FD_PIPE then
    let p := pipe_at (io_pipes (w_io w)) (fd_pipe f) in
    let avail := u32 (p_head p - p_tail p + PIPE_BUF_SIZE) mod PIPE_BUF_SIZE in
    Z.lor (Z.lor (if 0 <? avail then Z.lor POLLIN POLLRDNORM else 0)
                 (if avail <? PIPE_BUF_SIZE - 1 then Z.lor POLLOUT POLLWRNORM else 0))
          (if writer_count p =? 0 then POLLHUP else 0)
  else if fd_types f =? FD_PTY then
    pty_poll (fd_pty f) (negb (Z.land (fd_flags_extra f) 1 =? 0)) (io_ptys (w_io w))
  else if (fd =? 1) || (fd =? 2) then Z.lor POLLOUT POLLWRNORM
  else if (0 <? fd_flags f) || negb (fds f =? 0)
       then Z.lor (Z.lor (Z.lor POLLIN POLLRDNORM) POLLOUT) POLLWRNORM
  else POLLNVAL.

(** ** poll *)

(** The loop over the descriptors: how many are ready, and their [revents]. *)
Fixpoint poll_pass (l : list pollfd) (w : world) : Z * list Z :=
  match l with
  | [] => (0, [])
  | p :: l =>
      let '(ready, rs) := poll_pass l w in
      if pf_fd p <? 0 then (ready, 0 :: rs) else
      let r := fd_poll_revents (pf_fd p) w in
      if r =? POLLNVAL then (ready + 1, POLLNVAL :: rs) else
      let reported := Z.lor (Z.land r (pf_events p)) (Z.land r (Z.lor POLLERR POLLHUP)) in
      (if reported =? 0 then ready else ready + 1, reported :: rs)
  end.

Fixpoint poll_loop (l : list pollfd) (timeout_ms deadline : Z) (env : list (world * Z)) : option (Z * list Z) :=
  match env with
  | [] => None
  | (w, now) :: env =>
      let '(ready, rs) := poll_pass l w in
      if negb (ready =? 0) || (timeout_ms =? 0) then Some (ready, rs)
      else if deadline <? 0 then poll_loop l timeout_ms deadline env
      else if u32 deadline <=? now then Some (ready, rs)
      else poll_loop l timeout_ms deadline env
  end.

(** [now] is the time at the call; the array is not NULL when it has entries.
    The result and the [revents] written back. *)
Definition k_sys_poll (l : list pollfd) (timeout now : Z) (env : list (world * Z)) : option (Z * list Z) :=
  if EIGEN_POLL_MAXFD <? Z.of_nat (length l) then Some (- EINVAL, []) else
  let timeout_ms := i32 timeout in
  poll_loop l timeout_ms (if timeout_ms <? 0 then -1 else now + timeout_ms) env.

(** ** epoll *)

Definition epoll_find_entry (m : epoll_mon) (fd : Z) : option nat :=
  find_from (fun _ x => ee_fd x =? fd) 0 (e m).

Definition set_mon (i : nat) (m : epoll_mon) (w : world) : world :=
  World (w_io w) (w_net w) (<[i := m]> (g_epoll w)).

(** The group of the caller: [group > 0 ? group : id]. *)
Definition own_group (w : world) : Z :=
  let t := slot (io_tasks (w_io w)) (io_cur (w_io w)) in
  if 0 <? t_group t then t_group t else t_id t.

Definition epoll_create (w : world) : Z * world :=
  match find_from (fun _ m => negb (used m)) 0 (g_epoll w) with
  | None => (- ENFILE, w)
  | Some i => (Z.of_nat i + 1, set_mon i (EpollMon true (own_group w) []) w)
  end.

(** The monitor of an id, when it is in use and the caller's. *)
Definition get_mon (epid : Z) (w : world) : option (nat * epoll_mon) :=
  if (epid <=? 0) || (Z.of_nat EIGEN_EPOLL_MAXMON <? epid) then None else
  let i := Z.to_nat (epid - 1) in
  match g_epoll w !! i with
  | Some m => if used m && (owner_group m =? own_group w) then Some (i, m) else None
  | None => None
  end.

(** Entry [idx] taken out: the later ones move up. *)
Definition remove_entry (idx : nat) (l : list epoll_ent) : list epoll_ent := take idx l ++ drop (S idx) l.

Definition epoll_ctl (epid ctl_op : Z) (arg : epoll_ent) (w : world) : Z * world :=
  match get_mon epid w with
  | None => (- EBADF, w)
  | Some (i, m) =>
      if fd_bad (ee_fd arg) then (- EBADF, w) else
      let idx := epoll_find_entry m (ee_fd arg) in
      if ctl_op =? 1 then
        match idx with
        | Some _ => (- EEXIST, w)
        | None =>
            if EIGEN_EPOLL_MAXENT <=? count m then (- ENOSPC, w)
            else if fd_poll_revents (ee_fd arg) w =? POLLNVAL then (- EBADF, w)
            else (0, set_mon i (EpollMon true (owner_group m) (e m ++ [arg])) w)
        end
      else if ctl_op =? 2 then
        match idx with
        | None => (- ENOENT, w)
        | Some k => (0, set_mon i (EpollMon true (owner_group m)
                      (alter (fun x => EpollEnt (ee_fd x) (ee_events arg) (ee_data arg)) k (e m))) w)
        end
      else if ctl_op =? 3 then
        match idx with
        | None => (- ENOENT, w)
        | Some k => (0, set_mon i (EpollMon true (owner_group m) (remove_entry k (e m))) w)
        end
      else (- EINVAL, w)
  end.

(** The events of an entry: [r] masked, a stale descriptor as an error. *)
Definition epoll_revents (x : epoll_ent) (w : world) : Z :=
  let r := fd_poll_revents (ee_fd x) w in
  Z.land (if r =? POLLNVAL then POLLERR else r) (ee_events x).

(** The scan of the entries while there is room for an event. *)
Fixpoint epoll_pass (room : nat) (l : list epoll_ent) (w : world) : list (Z * Z) :=
  match room, l with
  | S room', x :: l =>
      let r := epoll_revents x w in
      if r =? 0 then epoll_pass room l w else (r, ee_data x) :: epoll_pass room' l w
  | _, _ => []
  end.

(** Number [i] stays the caller's monitor; its entries may change. *)
Fixpoint epoll_wait_loop (i : nat) (maxevents timeout_ms deadline : Z) (env : list (world * Z)) : option (list (Z * Z)) :=
  match env with
  | [] => None
  | (w, now) :: env =>
      let out := epoll_pass (Z.to_nat maxevents) (default [] (e <$> g_epoll w !! i)) w in
      match out with
      | _ :: _ => Some out
      | [] =>
          if timeout_ms =? 0 then Some []
          else if deadline <? 0 then epoll_wait_loop i maxevents timeout_ms deadline env
          else if u32 deadline <=? now then Some []
          else epoll_wait_loop i maxevents timeout_ms deadline env
      end
  end.

(** [w] is the world at the call. *)
Definition epoll_wait (epid c now : Z) (w : world) (env : list (world * Z)) : option epoll_result :=
  let maxevents := i32 (Z.shiftr c 32) in
  let timeout_ms := i32 c in
  match get_mon epid w with
  | None => Some (EpollError (- EBADF))
  | Some (i, _) =>
      let maxevents := if EIGEN_EPOLL_MAXENT <? maxevents then EIGEN_EPOLL_MAXENT else maxevents in
      out ← epoll_wait_loop i maxevents timeout_ms (if timeout_ms <? 0 then -1 else now + timeout_ms) env;
      Some (EpollEvents out)
  end.
End poll.
Arguments world : clear implicits.
Arguments World {H}. Arguments w_io {H}. Arguments w_net {H}. Arguments g_epoll {H}.
