(* ===== verification/PollProps.v ===== *)
(** The properties of poll and epoll: what they report, when they return, and the
    invariant of the monitors. *)
From Stdlib Require Import ZArith Lia.
From stdpp Require Import base numbers list gmap strings.
From S2P Require Import Prelude HeapIface Fs Ring Task Pty Fd Net Sock Poll.

Section poll.
Context {H : Type}.
Implicit Types (w : world H) (env : list (world H * Z)).

(** ** poll *)

(** The [revents] of one descriptor. *)
Definition reported (w : world H) (p : pollfd) : Z :=
  if pf_fd p <? 0 then 0
  else if fd_poll_revents (pf_fd p) w =? POLLNVAL then POLLNVAL
  else Z.land (fd_poll_revents (pf_fd p) w) (Z.lor (pf_events p) (Z.lor POLLERR POLLHUP)).

Definition ready_count (rs : list Z) : Z := Z.of_nat (length (filter (fun r => r <> 0) rs)).

Lemma ready_count_cons r rs : ready_count (r :: rs) = if r =? 0 then ready_count rs else ready_count rs + 1.
Proof.
  unfold ready_count. rewrite filter_cons. destruct (Z.eqb_spec r 0) as [->|Hne].
  - by rewrite decide_False by tauto.
  - rewrite decide_True by done. cbn [length]. lia.
Qed.

Lemma poll_pass_spec l w : poll_pass l w = (ready_count (reported w <$> l), reported w <$> l).
Proof.
  induction l as [|p l IH]; [done|]. cbn [poll_pass]. rewrite IH, fmap_cons, ready_count_cons.
  assert (E : reported w p = if pf_fd p <? 0 then 0
    else if fd_poll_revents (pf_fd p) w =? POLLNVAL then POLLNVAL
    else Z.lor (Z.land (fd_poll_revents (pf_fd p) w) (pf_events p))
               (Z.land (fd_poll_revents (pf_fd p) w) (Z.lor POLLERR POLLHUP))).
  { unfold reported. by rewrite Z.land_lor_distr_r. }
  rewrite E. destruct (pf_fd p <? 0); [done|]. by destruct (fd_poll_revents (pf_fd p) w =? POLLNVAL).
Qed.

(** Nothing to report. *)
Definition quiet (l : list pollfd) (w : world H) : Prop := Forall (fun p => reported w p = 0) l.

#[global] Instance quiet_dec l w : Decision (quiet l w).
Proof. unfold quiet. apply _. Defined.

Lemma ready_quiet l w : ready_count (reported w <$> l) = 0 <-> quiet l w.
Proof.
  unfold quiet. induction l as [|p l IH]; [done|]. rewrite fmap_cons, ready_count_cons, Forall_cons, <-IH.
  assert (0 <= ready_count (reported w <$> l)) by (unfold ready_count; lia).
  destruct (Z.eqb_spec (reported w p) 0); [tauto|]. split; [lia|]. intros [? _]. done.
Qed.

(** A pass whose results are final when nothing is ready. *)
Definition times_out (timeout_ms deadline now : Z) : bool :=
  (timeout_ms =? 0) || ((0 <=? deadline) && (u32 deadline <=? now)).

Lemma poll_loop_step l timeout_ms deadline w now env :
  poll_loop l timeout_ms deadline ((w, now) :: env) =
    if decide (quiet l w) then
      if times_out timeout_ms deadline now then Some (0, reported w <$> l)
      else poll_loop l timeout_ms deadline env
    else Some (ready_count (reported w <$> l), reported w <$> l).
Proof.
  cbn [poll_loop]. rewrite poll_pass_spec. unfold times_out. pose proof (ready_quiet l w) as Hq.
  destruct (Z.eqb_spec (ready_count (reported w <$> l)) 0) as [E|Hne]; cbn [negb orb].
  - rewrite decide_True by tauto. rewrite E. destruct (timeout_ms =? 0); [done|]. cbn [orb].
    destruct (Z.ltb_spec deadline 0); [by rewrite (proj2 (Z.leb_gt 0 deadline))|].
    by rewrite (proj2 (Z.leb_le 0 deadline)).
  - by rewrite decide_False by tauto.
Qed.

(** poll returns at the first look at the descriptors in which one of them has
    something to report, or has timed out; what it writes back is, for each
    entry, 0 for a negative descriptor, POLLNVAL for a bad one, and otherwise
    the readiness at that moment cut to the events asked for and the hang-up
    bits; and it returns the number of entries that are not 0. *)
Theorem poll_first_ready l timeout now env ready rs :
  Z.of_nat (length l) <= EIGEN_POLL_MAXFD ->
  k_sys_poll l timeout now env = Some (ready, rs) ->
  exists k w t, env !! k = Some (w, t) /\ rs = reported w <$> l /\ ready = ready_count rs /\
    (forall j w' t', (j < k)%nat -> env !! j = Some (w', t') -> quiet l w') /\
    (ready = 0 -> times_out (i32 timeout) (if i32 timeout <? 0 then -1 else now + i32 timeout) t = true).
Proof.
  intros Hlen. unfold k_sys_poll. rewrite (proj2 (Z.ltb_ge _ _) Hlen).
  generalize (i32 timeout) as tm. intros tm. generalize (if tm <? 0 then -1 else now + tm) as dl. intros dl.
  induction env as [|[w t] env IH]; [done|]. rewrite poll_loop_step. destruct (decide (quiet l w)) as [Hq|Hq].
  - destruct (times_out tm dl t) eqn:Et.
    + intros [= <- <-]. exists 0%nat, w, t. apply ready_quiet in Hq.
      split; [done|]. split; [done|]. split; [by rewrite Hq|]. split; [lia|done].
    + intros Hr. destruct (IH Hr) as (k & w' & t' & Hk & -> & -> & Hmin & Hto). exists (S k), w', t'.
      split; [done|]. split; [done|]. split; [done|]. split; [|done].
      intros [|j] w2 t2 Hj Hl; [by injection Hl as <- _|]. apply (Hmin j w2 t2); [lia|done].
  - intros [= <- <-]. exists 0%nat, w, t. split; [done|]. split; [done|]. split; [done|]. split; [lia|].
    intros E. by apply ready_quiet in E.
Qed.

(** poll returns: when a descriptor asked about becomes ready in some pass, or
    a time-out passes, the call comes back. *)
Theorem poll_returns l timeout now env k w t :
  env !! k = Some (w, t) ->
  ~ quiet l w \/ i32 timeout = 0 \/
    (0 <= i32 timeout /\ 0 <= now + i32 timeout < 2 ^ 32 /\ now + i32 timeout <= t) ->
  is_Some (k_sys_poll l timeout now env).
Proof.
  intros Hk Hwhy. unfold k_sys_poll. destruct (EIGEN_POLL_MAXFD <? _); [by eexists|].
  set (dl := if i32 timeout <? 0 then -1 else now + i32 timeout).
  assert (Hor : ~ quiet l w \/ times_out (i32 timeout) dl t = true).
  { destruct Hwhy as [|[E|(H0 & H1 & H2)]]; [by left|right|right]; unfold times_out; [by rewrite E|].
    unfold dl. rewrite (proj2 (Z.ltb_ge (i32 timeout) 0)) by lia. rewrite (wrap_small 32) by lia.
    rewrite (proj2 (Z.leb_le 0 _)), (proj2 (Z.leb_le _ t)) by lia. apply orb_true_r. }
  clearbody dl. revert k Hk. induction env as [|[w' t'] env IH]; intros [|k] Hk; try done; rewrite poll_loop_step.
  - injection Hk as -> ->. destruct (decide (quiet l w)) as [Hq|]; [|by eexists].
    destruct Hor as [|Hto]; [done|]. rewrite Hto. by eexists.
  - destruct (decide _); [|by eexists]. destruct (times_out _ _ t'); [by eexists|]. by apply (IH k).
Qed.

(** The deadline is compared in 32 bits: when the clock is close to its wrap
    after 49.7 days a finite wait ends at once. *)
Lemma poll_timeout_wraps l timeout now w env :
  0 < i32 timeout -> 0 <= now < 2 ^ 32 -> 2 ^ 32 <= now + i32 timeout -> Z.of_nat (length l) <= EIGEN_POLL_MAXFD -> quiet l w ->
  k_sys_poll l timeout now ((w, now) :: env) = Some (0, reported w <$> l).
Proof.
  intros Ht Hn Hw Hlen Hq. unfold k_sys_poll. rewrite (proj2 (Z.ltb_ge _ _) Hlen), poll_loop_step, decide_True by done.
  unfold times_out. rewrite (proj2 (Z.ltb_ge (i32 timeout) 0)) by lia.
  assert (Hb : i32 timeout < 2 ^ 31).
  { unfold i32. pose proof (Z.mod_pos_bound (timeout + 2 ^ 31) (2 ^ 32) ltac:(lia)). lia. }
  assert (E : u32 (now + i32 timeout) = now + i32 timeout - 2 ^ 32).
  { unfold wrap. symmetry. apply (Z.mod_unique_pos _ _ 1); lia. }
  rewrite E, (proj2 (Z.leb_le 0 (now + i32 timeout))), (proj2 (Z.leb_le _ now)) by lia.
  by rewrite orb_true_r.
Qed.

(** ** epoll *)

(** A monitor as a map from descriptors to events and data. *)
Definition mon_map (m : epoll_mon) : gmap Z (Z * Z) :=
  list_to_map ((fun x => (ee_fd x, (ee_events x, ee_data x))) <$> e m).

Definition mon_fds (m : epoll_mon) : list Z := ee_fd <$> e m.

(** The entries are for different descriptors of the table. *)
Record mon_ok (m : epoll_mon) : Prop := {
  mn_nodup : NoDup (mon_fds m);
  mn_fds : Forall (fun fd => fd_bad fd = false) (mon_fds m);
}.

Definition epoll_ok (w : world H) : Prop := length (g_epoll w) = EIGEN_EPOLL_MAXMON /\ Forall mon_ok (g_epoll w).

(** There are never more entries than descriptors, so the table is never full. *)
Lemma mon_count m : mon_ok m -> count m <= 16.
Proof.
  intros [Hn Hf]. unfold count. rewrite <-(length_fmap ee_fd). fold (mon_fds m).
  assert (Hsub : mon_fds m ⊆ (Z.of_nat <$> seq 0 16)).
  { intros fd Hfd. rewrite Forall_forall in Hf. specialize (Hf fd Hfd). unfold fd_bad, MAX_FDS in Hf.
    apply orb_false_iff in Hf as [H1%Z.ltb_ge H2%Z.leb_gt].
    apply list_elem_of_fmap. exists (Z.to_nat fd). rewrite elem_of_seq. lia. }
  pose proof (submseteq_length _ _ (NoDup_submseteq _ _ Hn Hsub)) as Hl. rewrite length_fmap, length_seq in Hl. lia.
Qed.

Lemma find_entry_spec m fd :
  match epoll_find_entry m fd with
  | Some k => exists x, e m !! k = Some x /\ ee_fd x = fd
  | None => fd ∉ mon_fds m
  end.
Proof.
  unfold epoll_find_entry. destruct (find_from _ 0 (e m)) as [k|] eqn:E.
  - apply find_from_Some in E as (_ & (x & Hx & Ex) & _). exists x. split; [done|lia].
  - rewrite find_from_None in E. unfold mon_fds. intros (x & -> & Hx)%list_elem_of_fmap.
    apply list_elem_of_lookup in Hx as [j Hj]. specialize (E j x ltac:(lia) Hj). lia.
Qed.

Lemma mon_map_lookup_None m fd : fd ∉ mon_fds m <-> mon_map m !! fd = None.
Proof.
  unfold mon_map, mon_fds. rewrite <-not_elem_of_list_to_map. rewrite <-list_fmap_compose.
  done.
Qed.

Lemma remove_entry_split k (l : list epoll_ent) x : l !! k = Some x -> l = take k l ++ x :: drop (S k) l.
Proof. intros Hx. symmetry. by apply take_drop_middle. Qed.

(** The three operations on the map. *)
Definition spec_ctl (ctl_op : Z) (arg : epoll_ent) (nval : bool) (g : gmap Z (Z * Z)) : Z * gmap Z (Z * Z) :=
  let known := bool_decide (is_Some (g !! ee_fd arg)) in
  let put := <[ee_fd arg := (ee_events arg, ee_data arg)]> g in
  if ctl_op =? 1 then
    if known then (- EEXIST, g) else if nval then (- EBADF, g) else (0, put)
  else if ctl_op =? 2 then if known then (0, put) else (- ENOENT, g)
  else if ctl_op =? 3 then if known then (0, delete (ee_fd arg) g) else (- ENOENT, g)
  else (- EINVAL, g).

Lemma mon_map_add m arg own :
  ee_fd arg ∉ mon_fds m ->
  mon_map (EpollMon true own (e m ++ [arg])) = <[ee_fd arg := (ee_events arg, ee_data arg)]> (mon_map m).
Proof.
  intros Hn. unfold mon_map. cbn [e]. rewrite fmap_app, list_to_map_app. cbn [fmap list_fmap list_to_map foldr].
  rewrite <-insert_union_r by (by apply mon_map_lookup_None). by rewrite map_union_empty.
Qed.

Lemma mon_map_split m l1 x l2 own :
  NoDup (ee_fd <$> l1 ++ x :: l2) -> e m = l1 ++ x :: l2 ->
  (forall y, ee_fd y = ee_fd x ->
     mon_map (EpollMon true own (l1 ++ y :: l2)) = <[ee_fd x := (ee_events y, ee_data y)]> (mon_map m)) /\
  mon_map (EpollMon true own (l1 ++ l2)) = delete (ee_fd x) (mon_map m).
Proof.
  intros Hn E. rewrite fmap_app, fmap_cons, NoDup_app, NoDup_cons in Hn. destruct Hn as (_ & Hd & Hx2 & _).
  assert (Hx1 : ee_fd x ∉ ee_fd <$> l1) by (intros Hin; apply (Hd _ Hin); by left).
  set (kv := fun x => (ee_fd x, (ee_events x, ee_data x))) in *.
  assert (N1 : (list_to_map (kv <$> l1) : gmap Z (Z * Z)) !! ee_fd x = None).
  { apply not_elem_of_list_to_map. by rewrite <-list_fmap_compose. }
  assert (N2 : (list_to_map (kv <$> l2) : gmap Z (Z * Z)) !! ee_fd x = None).
  { apply not_elem_of_list_to_map. by rewrite <-list_fmap_compose. }
  assert (Hm : mon_map m = <[ee_fd x := (ee_events x, ee_data x)]> (list_to_map (kv <$> l1) ∪ list_to_map (kv <$> l2))).
  { unfold mon_map. rewrite E, fmap_app, list_to_map_app. cbn [fmap list_fmap list_to_map foldr].
    by rewrite <-insert_union_r. }
  rewrite Hm. split.
  - intros y Ey. unfold mon_map. cbn [e]. rewrite fmap_app, list_to_map_app. cbn [fmap list_fmap list_to_map foldr].
    rewrite Ey, <-insert_union_r by done. by rewrite insert_insert_eq.
  - unfold mon_map. cbn [e]. rewrite fmap_app, list_to_map_app, delete_insert_id; [done|].
    by rewrite lookup_union_None.
Qed.

Lemma get_mon_spec epid w i m :
  get_mon epid w = Some (i, m) -> g_epoll w !! i = Some m /\ used m = true /\ owner_group m = own_group w.
Proof.
  unfold get_mon. case_match; [done|]. destruct (g_epoll w !! _) as [m0|] eqn:E; [|done].
  destruct (used m0) eqn:Eu; [|done]. destruct (Z.eqb_spec (owner_group m0) (own_group w)); [|done].
  cbn [andb]. intros [= <- <-]. done.
Qed.

Lemma set_mon_ok i m w : epoll_ok w -> mon_ok m -> epoll_ok (set_mon i m w).
Proof.
  intros [Hl Hall] Hm. unfold set_mon, epoll_ok. cbn [g_epoll]. rewrite length_insert. split; [done|].
  by apply Forall_insert.
Qed.

Lemma known_spec m fd : bool_decide (is_Some (mon_map m !! fd)) =
  match epoll_find_entry m fd with Some _ => true | None => false end.
Proof.
  pose proof (find_entry_spec m fd) as Hf. destruct (epoll_find_entry m fd) as [k|].
  - apply bool_decide_eq_true. destruct Hf as (x & Hx & Ex). destruct (mon_map m !! fd) eqn:E; [by eexists|].
    apply mon_map_lookup_None in E. destruct E. unfold mon_fds. apply list_elem_of_fmap. exists x.
    split; [done|]. by eapply list_elem_of_lookup_2.
  - apply bool_decide_eq_false. apply mon_map_lookup_None in Hf. rewrite Hf. by intros [? ?].
Qed.

Lemma alter_split {A} (f : A -> A) k (l : list A) x : l !! k = Some x -> alter f k l = take k l ++ f x :: drop (S k) l.
Proof.
  intros Hx. rewrite <-(take_drop_middle l k x Hx) at 1. pose proof (lookup_lt_Some _ _ _ Hx).
  rewrite alter_app_r_alt by (rewrite length_take; lia). rewrite length_take.
  by replace (k - k `min` length l)%nat with 0%nat by lia.
Qed.

(** C33. epoll_ctl keeps a finite map: on a monitor of the caller and a descriptor
    in range, adding, changing and removing act on the map from descriptors to
    events and data as on any map, with EEXIST, ENOENT and EBADF exactly where
    the key is there, is missing, or is not open; the monitors stay well formed,
    and ENOSPC never happens. *)
Theorem epoll_ctl_refines w epid ctl_op arg i m :
  epoll_ok w -> get_mon epid w = Some (i, m) -> fd_bad (ee_fd arg) = false ->
  let '(r, w') := epoll_ctl epid ctl_op arg w in
  epoll_ok w' /\ exists m', g_epoll w' = <[i := m']> (g_epoll w) /\
    spec_ctl ctl_op arg (fd_poll_revents (ee_fd arg) w =? POLLNVAL) (mon_map m) = (r, mon_map m').
Proof.
  intros Hok Hget Hfd. destruct (get_mon_spec _ _ _ _ Hget) as (Hi & Hu & _).
  assert (Hm : mon_ok m) by (destruct Hok as [_ Hall]; rewrite Forall_lookup in Hall; by apply (Hall i)).
  assert (Hid : <[i := m]> (g_epoll w) = g_epoll w) by (by apply list_insert_id).
  assert (Hsame : forall r, spec_ctl ctl_op arg (fd_poll_revents (ee_fd arg) w =? POLLNVAL) (mon_map m) = (r, mon_map m) ->
    epoll_ok w /\ exists m', g_epoll w = <[i := m']> (g_epoll w) /\
    spec_ctl ctl_op arg (fd_poll_revents (ee_fd arg) w =? POLLNVAL) (mon_map m) = (r, mon_map m')).
  { intros r Hr. split; [done|]. exists m. by rewrite Hid. }
  unfold epoll_ctl. rewrite Hget, Hfd. unfold spec_ctl in *. rewrite known_spec in *.
  pose proof (find_entry_spec m (ee_fd arg)) as Hf. pose proof (mon_count m Hm) as Hc.
  destruct (ctl_op =? 1); [|destruct (ctl_op =? 2); [|destruct (ctl_op =? 3); [|by apply Hsame]]];
    destruct (epoll_find_entry m (ee_fd arg)) as [k|] eqn:Ef; try (by apply Hsame).
  - rewrite (proj2 (Z.leb_gt EIGEN_EPOLL_MAXENT (count m))) by (unfold EIGEN_EPOLL_MAXENT; lia).
    destruct (fd_poll_revents (ee_fd arg) w =? POLLNVAL); [by apply Hsame|].
    split.
    + apply set_mon_ok; [done|]. destruct Hm as [Hn Hb]. split; unfold mon_fds in *; cbn [e]; rewrite fmap_app.
      * apply NoDup_app. split; [done|]. split; [|by apply NoDup_singleton].
        intros fd Hin Hx%list_elem_of_singleton. by subst.
      * apply Forall_app. split; [done|]. by apply Forall_singleton.
    + eexists. split; [done|]. by rewrite mon_map_add.
  - destruct Hf as (x & Hx & Ex). pose proof (alter_split (fun x => EpollEnt (ee_fd x) (ee_events arg) (ee_data arg)) k (e m) x Hx) as Ea.
    pose proof (remove_entry_split k (e m) x Hx) as Es. split.
    + apply set_mon_ok; [done|].
      assert (E : mon_fds (EpollMon true (owner_group m)
        (alter (fun x => EpollEnt (ee_fd x) (ee_events arg) (ee_data arg)) k (e m))) = mon_fds m).
      { unfold mon_fds. cbn [e]. rewrite Ea. rewrite Es at 3. by rewrite !fmap_app. }
      destruct Hm as [Hn Hb]. split; by rewrite E.
    + eexists. split; [done|]. rewrite Ea. destruct Hm as [Hn _]. unfold mon_fds in Hn. rewrite Es in Hn.
      destruct (mon_map_split m _ x _ (owner_group m) Hn Es) as [Hput _]. rewrite Hput by done. by rewrite Ex.
  - destruct Hf as (x & Hx & Ex). pose proof (remove_entry_split k (e m) x Hx) as Es. split.
    + apply set_mon_ok; [done|]. destruct Hm as [Hn Hb]. unfold mon_fds in *. rewrite Es in Hn, Hb.
      rewrite fmap_app in Hn, Hb. cbn [fmap list_fmap] in Hn, Hb.
      apply NoDup_app in Hn as (N1 & N2 & N3). apply NoDup_cons in N3 as [_ N3].
      apply Forall_app in Hb as [B1 [_ B2]%Forall_cons]. split; unfold mon_fds, remove_entry; cbn [e]; rewrite fmap_app.
      * apply NoDup_app. split; [done|]. split; [|done]. intros fd H1 H2. apply (N2 fd H1). by right.
      * by apply Forall_app.
    + eexists. split; [done|]. destruct Hm as [Hn _]. unfold mon_fds in Hn. rewrite Es in Hn.
      destruct (mon_map_split m _ x _ (owner_group m) Hn Es) as [_ Hdel]. unfold remove_entry. by rewrite Hdel, Ex.
Qed.

(** The events of a pass: the ready entries in order, as many as asked for. *)
Definition epoll_ready (l : list epoll_ent) (w : world H) : list (Z * Z) :=
  (fun x => (epoll_revents x w, ee_data x)) <$> filter (fun x => epoll_revents x w <> 0) l.

Lemma epoll_pass_spec room l w : epoll_pass room l w = take room (epoll_ready l w).
Proof.
  revert room. induction l as [|x l IH]; intros [|room]; try done.
  unfold epoll_ready. rewrite filter_cons. cbn [epoll_pass].
  destruct (Z.eqb_spec (epoll_revents x w) 0) as [E|Hne].
  - rewrite decide_False by tauto. apply (IH (S room)).
  - rewrite decide_True by done. cbn [fmap list_fmap take]. by rewrite IH.
Qed.

(** epoll_wait on the caller's monitor returns at the first look in which an
    entry is ready, with the ready entries in the order they were added, at most
    as many as asked for, each with its data and its readiness cut to the events
    it was added with; or nothing, after the time-out. *)
Theorem epoll_wait_reports w epid c now env out i m :
  get_mon epid w = Some (i, m) -> 0 < i32 (Z.shiftr c 32) ->
  epoll_wait epid c now w env = Some (EpollEvents out) ->
  exists k w' t, env !! k = Some (w', t) /\
    out = take (Z.to_nat (Z.min EIGEN_EPOLL_MAXENT (i32 (Z.shiftr c 32)))) (epoll_ready (default [] (e <$> g_epoll w' !! i)) w') /\
    (forall j w2 t2, (j < k)%nat -> env !! j = Some (w2, t2) -> epoll_ready (default [] (e <$> g_epoll w2 !! i)) w2 = []) /\
    (out = [] -> times_out (i32 c) (if i32 c <? 0 then -1 else now + i32 c) t = true).
Proof.
  intros Hget Hmax. unfold epoll_wait. rewrite Hget.
  set (mx := if EIGEN_EPOLL_MAXENT <? _ then _ else _).
  assert (Emx : mx = Z.min EIGEN_EPOLL_MAXENT (i32 (Z.shiftr c 32))).
  { unfold mx. destruct (Z.ltb_spec EIGEN_EPOLL_MAXENT (i32 (Z.shiftr c 32))); lia. }
  rewrite <-Emx. assert (Hpos : (0 < Z.to_nat mx)%nat) by (rewrite Emx; unfold EIGEN_EPOLL_MAXENT; lia).
  clearbody mx. clear Emx Hmax. generalize (i32 c) as tm. intros tm.
  generalize (if tm <? 0 then -1 else now + tm) as dl. intros dl.
  destruct (epoll_wait_loop i mx tm dl env) as [o|] eqn:Eo; [|done]. cbn [mbind option_bind]. intros [= <-].
  revert Eo. induction env as [|[w1 t1] env IH]; [done|]. cbn [epoll_wait_loop]. rewrite epoll_pass_spec.
  set (r1 := epoll_ready _ w1).
  destruct (take (Z.to_nat mx) r1) as [|ev evs] eqn:Et.
  - assert (Hnil : r1 = []) by (destruct r1; [done|]; destruct (Z.to_nat mx); [lia|done]).
    assert (Hnext : epoll_wait_loop i mx tm dl env = Some o ->
      exists k w' t, ((w1, t1) :: env) !! k = Some (w', t) /\
      o = take (Z.to_nat mx) (epoll_ready (default [] (e <$> g_epoll w' !! i)) w') /\
      (forall j w2 t2, (j < k)%nat -> ((w1, t1) :: env) !! j = Some (w2, t2) ->
         epoll_ready (default [] (e <$> g_epoll w2 !! i)) w2 = []) /\
      (o = [] -> times_out tm dl t = true)).
    { intros Hr. destruct (IH Hr) as (k & w' & t' & Hk & Ho & Hmin & Hto). exists (S k), w', t'.
      split; [done|]. split; [done|]. split; [|done].
      intros [|j] w2 t2 Hj Hl; [by injection Hl as <- _|]. apply (Hmin j w2 t2); [lia|done]. }
    assert (Hnow : times_out tm dl t1 = true -> Some [] = Some o ->
      exists k w' t, ((w1, t1) :: env) !! k = Some (w', t) /\
      o = take (Z.to_nat mx) (epoll_ready (default [] (e <$> g_epoll w' !! i)) w') /\
      (forall j w2 t2, (j < k)%nat -> ((w1, t1) :: env) !! j = Some (w2, t2) ->
         epoll_ready (default [] (e <$> g_epoll w2 !! i)) w2 = []) /\
      (o = [] -> times_out tm dl t = true)).
    { intros Hto [= <-]. exists 0%nat, w1, t1. split; [done|]. fold r1. rewrite Hnil, take_nil. split; [done|]. split; [lia|done]. }
    unfold times_out in Hnow at 1. destruct (tm =? 0); [by apply Hnow|]. cbn [orb] in Hnow.
    destruct (Z.ltb_spec dl 0); [by apply Hnext|]. rewrite (proj2 (Z.leb_le 0 dl)) in Hnow by done.
    destruct (u32 dl <=? t1); [by apply Hnow|by apply Hnext].
  - intros [= <-]. exists 0%nat, w1, t1. split; [done|]. fold r1. split; [by rewrite Et|]. split; [lia|done].
Qed.

(** The calls that change the monitors, and everything else the kernel does. *)
Inductive epoll_call := ECreate | ECtl (epid ctl_op : Z) (arg : epoll_ent) | EOther (i : io (H := H)) (n : net H).

Definition epoll_step (c : epoll_call) (w : world H) : world H :=
  match c with ECreate => snd (epoll_create w) | ECtl epid o arg => snd (epoll_ctl epid o arg w)
  | EOther i n => World i n (g_epoll w) end.

Definition exhausted (w : world H) : Prop := Forall (fun m => used m = true) (g_epoll w).

Lemma step_exhausted c w : exhausted w -> exhausted (epoll_step c w).
Proof.
  unfold exhausted. intros Hw. destruct c as [|epid o arg|i n]; cbn [epoll_step]; [| |done].
  - unfold epoll_create. destruct (find_from _ 0 _) as [i|]; [|done]. cbn [snd set_mon g_epoll]. by apply Forall_insert.
  - unfold epoll_ctl. repeat case_match; try done; cbn [snd set_mon g_epoll]; by apply Forall_insert.
Qed.

Lemma create_exhausted w : exhausted w -> epoll_create w = (- ENFILE, w).
Proof.
  intros Hw. unfold epoll_create. destruct (find_from _ 0 _) as [i|] eqn:E; [|done].
  apply find_from_Some in E as (_ & (x & Hx & Ex) & _). unfold exhausted in Hw. rewrite Forall_lookup in Hw.
  by rewrite (Hw i x Hx) in Ex.
Qed.

(** No call gives a monitor back: once all 32 are in use every later creation
    in any process fails, whatever controls and waits come in between. *)
Theorem epoll_create_exhausted cs w :
  exhausted w -> fst (epoll_create (foldl (fun w c => epoll_step c w) w cs)) = - ENFILE.
Proof.
  intros Hw. rewrite create_exhausted; [done|]. revert w Hw. induction cs as [|c cs IH]; intros w Hw; [done|].
  apply IH. by apply step_exhausted.
Qed.
End poll.

(** ** The theorems at concrete worlds *)

(** A task whose descriptor 3 is the reading end of pipe 1; [writers] of it are
    left, and [data] is in it. *)
Definition pipe_task : task_t :=
  with_fds (<[3%nat := FdSlot 0 0 0 FD_PIPE 1 0 0]> (replicate MAX_FDS null_slot)) null_task.

Definition pipe_world (data : list Z) (writers : Z) (mons : list epoll_mon) : world unit :=
  let p := snd (pipe_write data (PipeBuf 0 0 1 1 (replicate (Z.to_nat PIPE_BUF_SIZE) 0))) in
  World (Io [pipe_task] 0 (<[1%nat := PipeBuf (p_head p) (p_tail p) writers 1 (p_data p)]> (replicate MAX_PIPES null_pipe))
           [] (Fs [] 0 0 0 0 None tt ∅ false 0) (Vfs ∅ 0 [])) (net_boot tt) mons.

(** The first look finds an empty pipe, the second one two bytes. *)
Definition filling : list (world unit * Z) := [(pipe_world [] 1 [], 0); (pipe_world [7; 8] 1 [], 10)].

Lemma poll_first_ready_witness : k_sys_poll [PollFd 3 POLLIN] (2 ^ 32 - 1) 0 filling = Some (1, [POLLIN]).
Proof.
  assert (E : k_sys_poll [PollFd 3 POLLIN] (2 ^ 32 - 1) 0 filling <> None) by (vm_compute; discriminate).
  destruct (k_sys_poll _ _ _ filling) as [[ready rs]|] eqn:Er; [|done].
  destruct (poll_first_ready [PollFd 3 POLLIN] (2 ^ 32 - 1) 0 filling ready rs) as (k & w & t & Hk & -> & -> & Hmin & Hto);
    [vm_compute; discriminate|exact Er|].
  destruct k as [|[|k]]; [|injection Hk as <- <-; vm_compute; reflexivity|discriminate Hk].
  injection Hk as <- <-. assert (Hf : times_out (i32 (2 ^ 32 - 1)) (if i32 (2 ^ 32 - 1) <? 0 then -1 else 0 + i32 (2 ^ 32 - 1)) 0 = false)
    by (vm_compute; reflexivity). rewrite Hto in Hf by (vm_compute; reflexivity). discriminate Hf.
Defined.

Lemma poll_returns_witness : is_Some (k_sys_poll [PollFd 3 POLLIN] (2 ^ 32 - 1) 0 filling).
Proof.
  refine (poll_returns [PollFd 3 POLLIN] (2 ^ 32 - 1) 0 filling 1 (pipe_world [7; 8] 1 []) 10 eq_refl (or_introl _)).
  intros Hq. apply Forall_cons in Hq as [Hq _]. vm_compute in Hq. discriminate Hq.
Defined.

(** Task 0 of group 0 and id 0 owns monitor 1. *)
Definition one_mon : list epoll_mon := EpollMon true 0 [] :: replicate 31 (EpollMon false 0 []).

Lemma epoll_ctl_refines_witness :
  fst (epoll_ctl 1 1 (EpollEnt 3 POLLIN 77) (pipe_world [] 1 one_mon)) = 0.
Proof.
  assert (Hok : epoll_ok (pipe_world [] 1 one_mon)).
  { split; [reflexivity|]. apply Forall_cons. split; [|apply Forall_replicate]; split; by constructor. }
  pose proof (epoll_ctl_refines (pipe_world [] 1 one_mon) 1 1 (EpollEnt 3 POLLIN 77) 0 (EpollMon true 0 []) Hok eq_refl eq_refl) as H.
  destruct (epoll_ctl 1 1 _ _) as [r w']. destruct H as (_ & m' & _ & Hs). cbn [fst].
  vm_compute in Hs. congruence.
Defined.

Definition watching : list epoll_mon := EpollMon true 0 [EpollEnt 3 POLLIN 77] :: replicate 31 (EpollMon false 0 []).

Lemma epoll_wait_reports_witness :
  epoll_wait 1 (8 * 2 ^ 32) 0 (pipe_world [] 1 watching) [(pipe_world [5] 1 watching, 0)] = Some (EpollEvents [(POLLIN, 77)]).
Proof.
  destruct (epoll_wait 1 (8 * 2 ^ 32) 0 (pipe_world [] 1 watching) [(pipe_world [5] 1 watching, 0)]) as [[c|out]|] eqn:E;
    [vm_compute in E; discriminate E| |vm_compute in E; discriminate E].
  destruct (epoll_wait_reports (pipe_world [] 1 watching) 1 (8 * 2 ^ 32) 0 [(pipe_world [5] 1 watching, 0)] out 0
    (EpollMon true 0 [EpollEnt 3 POLLIN 77]) eq_refl ltac:(vm_compute; reflexivity) E) as (k & w' & t & Hk & -> & _).
  destruct k as [|k]; [|discriminate Hk]. injection Hk as <- <-. vm_compute. reflexivity.
Defined.

Lemma epoll_create_exhausted_witness :
  fst (epoll_create (foldl (fun w c => epoll_step c w) (pipe_world [] 1 (replicate 32 (EpollMon true 9 []))) [ECreate; ECreate]))
    = - ENFILE.
Proof.
  refine (epoll_create_exhausted [ECreate; ECreate] (pipe_world [] 1 (replicate 32 (EpollMon true 9 []))) _).
  by apply Forall_replicate.
Defined.

(** A hang-up is reported by poll whatever was asked for, by epoll only when it was
    asked for: a waiter for input on a pipe whose writers are gone sleeps on. *)
Lemma epoll_hides_hup :
  reported (pipe_world [] 0 watching) (PollFd 3 POLLIN) = POLLHUP /\
  epoll_ready [EpollEnt 3 POLLIN 77] (pipe_world [] 0 watching) = [].
Proof. split; vm_compute; reflexivity. Qed.
