(* ===== verification/Fork.v ===== *)
(** The copy of an address space for fork: [copy_user_as] of
    src/kernel/task/task.c.  Both trees are reached through the direct map, so a
    table is the physical address of its page, as in [Vmm.v]. *)
From Stdlib Require Import ZArith Lia.
From stdpp Require Import base numbers list gmap.
From S2P Require Import Prelude Vmm.

(** [memcpy] of a whole page. *)
Definition copy_page (src dst : Z) (s : vm) : vm :=
  fill_page dst ((fun k => entry (pages s) src k) <$> seq 0 512) s.

(** [for (i = 0; i < n; i++)] with [return -1] inside. *)
Definition copy_entries (step : nat -> vm -> bool * vm) (n : nat) (s : vm) : bool * vm :=
  foldl (fun (acc : bool * vm) i => if fst acc then step i (snd acc) else acc) (true, s) (seq 0 n).

(** The innermost loop: entry [j] of a page table. *)
Definition copy_leaf (src dst : Z) (j : nat) (s : vm) : bool * vm :=
  let e1 := entry (pages s) src j in
  if negb (present e1) then (true, s) else
  let '(dp_phys, s) := pmm_alloc s in
  if dp_phys =? 0 then (false, s) else
  let s := copy_page (addr_of e1) dp_phys s in
  (true, set_entry dst j (Z.lor dp_phys (Z.land e1 0xFFF)) s).

(** The three outer loops: entry [j] of a table above; [top] is the PML4, whose
    entries are not tested for a huge page. *)
Definition copy_node (top : bool) (below : Z -> Z -> vm -> bool * vm) (src dst : Z) (j : nat) (s : vm)
    : bool * vm :=
  let e := entry (pages s) src j in
  if negb (present e) then (true, s) else
  if negb top && huge e then (true, s) else
  let '(d, s) := pmm_alloc s in
  if d =? 0 then (false, s) else
  let s := fill_page d zero_page s in
  below (addr_of e) d (set_entry dst j (Z.lor d (Z.land e 0xFFF)) s).

(** [n] levels of tables below: 3 at the PML4, of which the user half is copied,
    0 at a page table. *)
Definition entries_at (n : nat) : nat := if (n =? 3)%nat then 256 else 512.

Fixpoint copy_table (n : nat) (src dst : Z) (s : vm) : bool * vm :=
  copy_entries
    (match n with
     | O => copy_leaf src dst
     | S m => copy_node (n =? 3)%nat (copy_table m) src dst
     end) (entries_at n) s.

(** True is [return 0]. *)
Definition copy_user_as (src_pml4_phys dst_pml4_phys : Z) (s : vm) : bool * vm :=
  copy_table 3 src_pml4_phys dst_pml4_phys s.
