(* ===== verification/ForkSpec.v ===== *)
(** Correctness of [copy_table]: what it writes, page by page, and the tables and
    frames of the copied tree by path.  The source tree is read in the state before
    the copy; the pages the copy takes are the top of the stack of free pages, in
    order. *)
From Stdlib Require Import ZArith Lia.
From stdpp Require Import base numbers list gmap.
From S2P Require Import Prelude Vmm VmmSpec VmmProps VmmFrame Fork.

(** The entries that are copied: [n] levels of tables below. *)
Definition copies (n : nat) (e : Z) : bool :=
  present e && ((n =? 0)%nat || (n =? 3)%nat || negb (huge e)).

Definition full (pg : gmap Z (list Z)) (p : Z) : Prop := exists l, pg !! p = Some l /\ length l = 512%nat.

(** An entry [e] and its copy [e'], which took the pages [T]. *)
Definition entry_copied (n : nat) (below : Z -> Z -> list Z -> Prop) (pg : gmap Z (list Z))
    (e e' : Z) (T : list Z) : Prop :=
  if copies n e then
    exists d T', T = d :: T' /\ e' = Z.lor d (Z.land e 0xFFF) /\ page_ok d /\ full pg d /\ below (addr_of e) d T'
  else T = [] /\ e' = 0.

Definition page_copied (pg0 pg : gmap Z (list Z)) (src dst : Z) (T : list Z) : Prop :=
  T = [] /\ forall k, (k < 512)%nat -> entry pg dst k = entry pg0 src k.

(** The tree below [dst] is a copy of the tree below [src] made of the pages [T]. *)
Fixpoint copied (n : nat) (pg0 pg : gmap Z (list Z)) (src dst : Z) (T : list Z) : Prop :=
  exists Ts, T = mjoin Ts /\ length Ts = entries_at n /\
    forall j Tj, Ts !! j = Some Tj ->
      entry_copied n (match n with O => page_copied pg0 pg | S m => copied m pg0 pg end) pg
        (entry pg0 src j) (entry pg dst j) Tj.

Definition below (n : nat) (pg0 pg : gmap Z (list Z)) : Z -> Z -> list Z -> Prop :=
  match n with O => page_copied pg0 pg | S m => copied m pg0 pg end.

Lemma copied_unfold n pg0 pg src dst T :
  copied n pg0 pg src dst T <->
  exists Ts, T = mjoin Ts /\ length Ts = entries_at n /\
    forall j Tj, Ts !! j = Some Tj ->
      entry_copied n (below n pg0 pg) pg (entry pg0 src j) (entry pg dst j) Tj.
Proof. by destruct n. Qed.

Lemma entry_same (pg pg' : gmap Z (list Z)) p j : pg' !! p = pg !! p -> entry pg' p j = entry pg p j.
Proof. unfold entry. by intros ->. Qed.

Lemma in_mjoin (T : list Z) Ts j Tj p : T = mjoin Ts -> Ts !! j = Some Tj -> p ∈ Tj -> p ∈ T.
Proof.
  intros -> Hj Hp. apply list_elem_of_join. exists Tj. split; [done|]. by eapply list_elem_of_lookup_2.
Qed.

(** Only its own pages matter to a copy. *)
Lemma copied_frame n pg0 pg pg' src dst T :
  (forall p, p = dst \/ p ∈ T -> pg' !! p = pg !! p) ->
  copied n pg0 pg src dst T -> copied n pg0 pg' src dst T.
Proof.
  revert src dst T. induction n as [|n IH]; intros src dst T Hp (Ts & -> & Hlen & Hall); exists Ts;
    (split; [done|split; [done|]]); intros j Tj Hj; specialize (Hall j Tj Hj);
    rewrite (entry_same pg pg') by (apply Hp; by left); unfold entry_copied in *;
    (destruct (copies _ _); [|done]); destruct Hall as (d & T' & -> & E & Hok & (l & Hl & Hll) & Hb);
    assert (HT : forall p, p ∈ d :: T' -> pg' !! p = pg !! p)
      by (intros p Hin; apply Hp; right; by eapply in_mjoin);
    exists d, T'; (split; [done|split; [done|split; [done|split]]]).
  1,3: exists l; rewrite HT by set_solver; done.
  - destruct Hb as [-> Hb]. split; [done|]. intros k Hk. rewrite (entry_same pg pg') by (apply HT; set_solver). by apply Hb.
  - apply IH; [|done]. intros p [->|Hin]; apply HT; set_solver.
Qed.

Lemma entry_copied_frame n pg0 pg pg' e e' T :
  (forall p, p ∈ T -> pg' !! p = pg !! p) ->
  entry_copied n (below n pg0 pg) pg e e' T -> entry_copied n (below n pg0 pg') pg' e e' T.
Proof.
  intros HT. unfold entry_copied. destruct (copies n e); [|done].
  intros (d & T' & -> & E & Hok & (l & Hl & Hll) & Hb). exists d, T'.
  split; [done|]. split; [done|]. split; [done|]. split.
  { exists l. rewrite HT by set_solver. done. }
  destruct n as [|n]; simpl in *.
  - destruct Hb as [-> Hb]. split; [done|]. intros k Hk. rewrite (entry_same pg pg') by (apply HT; set_solver). by apply Hb.
  - eapply copied_frame; [|done]. intros p [->|Hin]; apply HT; set_solver.
Qed.

(** ** What a part of the copy does *)

(** The pages [T] were taken; they and [dst] are all that changed. *)
Record grows (dst : Z) (s s' : vm) (T : list Z) : Prop := {
  gr_free : free_pages_stack s = T ++ free_pages_stack s';
  gr_cr3 : cr3 s' = cr3 s;
  gr_other p : p ∉ T -> p <> dst -> pages s' !! p = pages s !! p;
  gr_full : full (pages s) dst -> full (pages s') dst;
}.

Lemma grows_refl dst s : grows dst s s [].
Proof. by split. Qed.

Lemma grows_trans dst s1 s2 s3 T1 T2 :
  grows dst s1 s2 T1 -> grows dst s2 s3 T2 -> grows dst s1 s3 (T1 ++ T2).
Proof.
  intros [F1 C1 O1 L1] [F2 C2 O2 L2]. split; [by rewrite F1, F2, app_assoc|by rewrite C2| |by intros; apply L2, L1].
  intros p Hp Hd. rewrite O2, O1 by set_solver. done.
Qed.

Section Copy.
(** The state before the copy, in which the source is read. *)
Context (s0 : vm) (Hwf : wf s0).

(** A table of the user half. *)
Definition user_path (path : list nat) : Prop :=
  match path with [] => True | i :: _ => (i < 256)%nat end.

(** No page of the user is free. *)
Definition leaves_used : Prop :=
  forall path t j, table_at s0 path = Some t -> length path = 3%nat -> user_path path ->
    present (entry (pages s0) t j) = true -> addr_of (entry (pages s0) t j) ∉ free_pages_stack s0.

(** A state of the copy: [dst] was taken from the stack and is filled in. *)
Record copying (dst : Z) (s : vm) : Prop := {
  co_cr3 : cr3 s = cr3 s0;
  co_pages p : p ∉ free_pages_stack s0 -> pages s !! p = pages s0 !! p;
  co_taken : exists pre, free_pages_stack s0 = pre ++ free_pages_stack s /\ dst ∈ pre;
  co_full : full (pages s) dst;
}.

Lemma copying_out dst s : copying dst s -> dst ∉ free_pages_stack s /\ dst ∈ free_pages_stack s0 /\
  NoDup (free_pages_stack s) /\ Forall page_ok (free_pages_stack s) /\
  forall p, p ∈ free_pages_stack s -> p ∈ free_pages_stack s0.
Proof.
  intros [_ _ (pre & E & Hd) _]. destruct (wf_stack s0 Hwf) as [Hnd Hok]. rewrite E in *.
  apply NoDup_app in Hnd as (_ & Hdis & Hnd). apply Forall_app in Hok as [_ Hok]. set_solver.
Qed.

Lemma copying_grows dst s s' T : copying dst s -> grows dst s s' T -> copying dst s'.
Proof.
  intros Hco [F C O L]. pose proof (copying_out _ _ Hco) as (_ & Hd0 & _ & _ & Hsub).
  destruct Hco as [H1 H2 (pre & E & Hd) H4]. split; [congruence| | |by apply L].
  - intros p Hp. rewrite O, H2; [done|done| |by intros ->].
    intros Hin. apply Hp, Hsub. rewrite F. set_solver.
  - exists (pre ++ T). rewrite E, F, app_assoc. split; [done|set_solver].
Qed.

(** *** A loop over the entries of a table *)

Definition step_spec (n : nat) (src dst : Z) (step : nat -> vm -> bool * vm) : Prop :=
  forall j s ok s', (j < entries_at n)%nat -> copying dst s -> entry (pages s) dst j = 0 -> step j s = (ok, s') ->
    exists T, grows dst s s' T /\
      (forall k, k <> j -> entry (pages s') dst k = entry (pages s) dst k) /\
      (ok = true ->
       entry_copied n (below n (pages s0) (pages s')) (pages s') (entry (pages s0) src j) (entry (pages s') dst j) T).

Lemma copy_entries_spec n src dst step i s ok s' :
  step_spec n src dst step -> (i <= entries_at n)%nat -> copying dst s ->
  (forall j, (j < i)%nat -> entry (pages s) dst j = 0) ->
  copy_entries step i s = (ok, s') ->
  exists Ts, grows dst s s' (mjoin Ts) /\
    (forall k, (i <= k)%nat -> entry (pages s') dst k = entry (pages s) dst k) /\
    (ok = true -> length Ts = i /\ forall j T, Ts !! j = Some T ->
       entry_copied n (below n (pages s0) (pages s')) (pages s') (entry (pages s0) src j) (entry (pages s') dst j) T).
Proof.
  intros Hstep. revert ok s'. induction i as [|i IH]; intros ok s' Hi Hco H0 E.
  { injection E as <- <-. exists []. split; [apply grows_refl|]. split; [done|]. done. }
  unfold copy_entries in E. rewrite seq_S, foldl_app in E. cbn [foldl Nat.add] in E.
  fold (copy_entries step i s) in E. destruct (copy_entries step i s) as [ok1 s1] eqn:E1.
  destruct (IH _ _ ltac:(lia) Hco (fun j Hj => H0 j ltac:(lia)) eq_refl) as (Ts & Hg & Hk & Hok).
  cbn [fst snd] in E. destruct ok1; cycle 1.
  { injection E as <- <-. exists Ts. split; [done|]. split; [|done]. intros k Hki. apply Hk. lia. }
  pose proof (copying_grows _ _ _ _ Hco Hg) as Hco1.
  destruct (Hstep i s1 ok s' ltac:(lia) Hco1 ltac:(by rewrite Hk, H0 by lia) E) as (T & Hg1 & Hk1 & Hok1).
  exists (Ts ++ [T]). rewrite join_app. cbn [mjoin list_join]. rewrite app_nil_r.
  split; [by eapply grows_trans|]. split.
  { intros k Hki. rewrite Hk1, Hk by lia. done. }
  intros ->. destruct (Hok eq_refl) as [Hlen Hall]. split; [rewrite length_app, Hlen; simpl; lia|].
  intros j Tj Hj. apply lookup_app_Some in Hj as [Hj|[Hlj Hj]].
  - assert (j < length Ts)%nat by (by eapply lookup_lt_Some). rewrite Hk1 by lia.
    eapply entry_copied_frame; [|by apply Hall]. intros p Hp.
    assert (Hin : p ∈ mjoin Ts) by (by eapply in_mjoin).
    destruct Hg1 as [F1 _ O1 _]. destruct Hg as [F _ _ _].
    destruct (copying_out _ _ Hco) as (Hd & _ & Hnd & _). rewrite F, F1 in Hnd, Hd.
    apply NoDup_app in Hnd as (_ & Hdis & _). apply O1; set_solver.
  - apply list_lookup_singleton_Some in Hj as [Hj0 ->]. replace j with i by lia. by apply Hok1.
Qed.

(** *** A page taken from the stack *)

Lemma copying_alloc dst s d s1 :
  copying dst s -> pmm_alloc s = (d, s1) ->
  (d = 0 /\ s1 = s) \/
  (d <> 0 /\ page_ok d /\ free_pages_stack s = d :: free_pages_stack s1 /\ s1 = with_free (free_pages_stack s1) s /\
   d <> dst /\ d ∈ free_pages_stack s0).
Proof.
  intros Hco. destruct (copying_out _ _ Hco) as (Hd & _ & _ & Hok & Hsub). unfold pmm_alloc.
  destruct (free_pages_stack s) as [|x r] eqn:E; intros [= <- <-]; [by left|right].
  apply Forall_cons in Hok as [Hx _]. split; [destruct Hx; lia|]. split; [done|].
  split; [done|]. split; [done|]. split; [set_solver|]. apply Hsub. set_solver.
Qed.

(** A source page reads as it did before the copy. *)
Lemma source_entry dst s p j :
  copying dst s -> p ∉ free_pages_stack s0 -> entry (pages s) p j = entry (pages s0) p j.
Proof. intros Hco Hp. apply entry_same. by apply (co_pages _ _ Hco). Qed.

Lemma set_entry_page t i e s p :
  pages (set_entry t i e s) !! p =
    if decide (p = t) then <[i := e]> <$> (pages s !! t) else pages s !! p.
Proof.
  unfold set_entry, with_pages. cbn [pages]. case_decide; subst; [by rewrite lookup_alter_eq|].
  by rewrite lookup_alter_ne.
Qed.

Lemma fill_page_page t l s p :
  pages (fill_page t l s) !! p = if decide (p = t) then Some l else pages s !! p.
Proof.
  unfold fill_page, with_pages. cbn [pages]. case_decide; subst; [by rewrite lookup_insert_eq|].
  by rewrite lookup_insert_ne.
Qed.

(** The page [d] is filled with [l] and linked at entry [j] of [dst]. *)
Lemma link_page dst s d s1 l j e :
  copying dst s -> pmm_alloc s = (d, s1) -> d <> 0 -> length l = 512%nat -> (j < 512)%nat ->
  let s2 := set_entry dst j e (fill_page d l s1) in
  grows dst s s2 [d] /\ pages s2 !! d = Some l /\
  (forall k, entry (pages s2) dst k = if decide (k = j) then e else entry (pages s) dst k).
Proof.
  intros Hco Ha Hd Hl Hj s2. destruct (copying_alloc _ _ _ _ Hco Ha) as [[-> _]|(_ & _ & F & Es & Hne & _)]; [done|].
  destruct (co_full _ _ Hco) as (ld & Hld & Hlen).
  assert (Hpg : forall p, pages s1 !! p = pages s !! p) by (intros; by rewrite Es).
  assert (Hdst : pages (fill_page d l s1) !! dst = Some ld).
  { rewrite fill_page_page, decide_False, Hpg by done. done. }
  split; [split; [by rewrite F|by unfold s2; rewrite Es| |]|split].
  - intros p Hp Hpd. unfold s2. rewrite set_entry_page, decide_False, fill_page_page, decide_False by set_solver. apply Hpg.
  - intros _. unfold s2, full. rewrite set_entry_page, decide_True, Hdst by done. simpl. eexists.
    split; [done|]. by rewrite length_insert.
  - unfold s2. by rewrite set_entry_page, decide_False, fill_page_page, decide_True by done.
  - intros k. unfold s2. rewrite (entry_set _ _ _ _ _ _ _ Hdst) by lia.
    destruct (decide (k = j)) as [->|Hk]; [by rewrite decide_True|]. rewrite decide_False by naive_solver.
    rewrite entry_fill, decide_False by done. unfold entry. by rewrite Hpg.
Qed.

(** A table that was just linked can be filled in. *)
Lemma linked_copying dst s d s2 l :
  copying dst s -> d ∈ free_pages_stack s0 -> grows dst s s2 [d] -> pages s2 !! d = Some l -> length l = 512%nat ->
  copying d s2.
Proof.
  intros Hco Hd0 Hg Hpd Hl. pose proof (copying_grows _ _ _ _ Hco Hg) as [K1 K2 _ _].
  split; [done|done| |by exists l]. destruct Hco as [_ _ (pre0 & F0 & _) _]. exists (pre0 ++ [d]).
  split; [|set_solver]. rewrite F0, (gr_free _ _ _ _ Hg). by rewrite <-app_assoc.
Qed.

(** *** The loops *)

Lemma copy_leaf_spec path src dst :
  leaves_used -> table_at s0 path = Some src -> length path = 3%nat -> user_path path ->
  step_spec 0 src dst (copy_leaf src dst).
Proof.
  intros Hlv Ht Hlen Hu j s ok s' Hj Hco Hz. unfold copy_leaf.
  assert (Hsrc : src ∉ free_pages_stack s0) by (by eapply wf_free).
  rewrite (source_entry dst s src j Hco Hsrc). set (e := entry (pages s0) src j).
  destruct (present e) eqn:P; cbn [negb]; cycle 1.
  { intros [= <- <-]. exists []. split; [apply grows_refl|]. split; [done|]. intros _.
    unfold entry_copied, copies. rewrite P, Hz. done. }
  destruct (pmm_alloc s) as [d s1] eqn:Ea.
  destruct (Z.eqb_spec d 0) as [->|Hd].
  { intros [= <- <-]. destruct (copying_alloc _ _ _ _ Hco Ea) as [[_ ->]|[[] _]]; [|done].
    exists []. split; [apply grows_refl|]. done. }
  intros [= <- <-]. destruct (copying_alloc _ _ _ _ Hco Ea) as [[-> _]|(_ & Hok & _ & Es & _ & Hd0)]; [done|].
  unfold copy_page. set (l := (fun k => entry (pages s1) (addr_of e) k) <$> seq 0 512).
  assert (Hl : length l = 512%nat) by (unfold l; by rewrite length_fmap, length_seq).
  destruct (link_page dst s d s1 l j (Z.lor d (Z.land e 0xFFF)) Hco Ea Hd Hl Hj) as (Hg & Hpd & He).
  exists [d]. split; [exact Hg|]. split; [intros k Hk; by rewrite He, decide_False|]. intros _.
  unfold entry_copied, copies. rewrite P. cbn [andb Nat.eqb orb]. exists d, [].
  split; [done|]. split; [by rewrite He, decide_True|]. split; [done|]. split; [by exists l|].
  split; [done|]. intros k Hk. unfold entry at 1. rewrite Hpd. cbn [mbind option_bind].
  unfold l. rewrite list_lookup_fmap, lookup_seq_lt by done. cbn.
  assert (Hf : addr_of e ∉ free_pages_stack s0) by (by eapply Hlv).
  rewrite Es. cbn [pages with_free]. by apply (source_entry dst).
Qed.

Lemma user_path_snoc path j n :
  (length path + n = 3)%nat -> user_path path -> (j < entries_at n)%nat -> user_path (path ++ [j]).
Proof.
  intros Hlen Hu Hj. destruct path as [|i path]; [|done]. simpl in *. subst n. exact Hj.
Qed.

Lemma entries_at_512 n : (entries_at n <= 512)%nat.
Proof. unfold entries_at. destruct (n =? 3)%nat; lia. Qed.

Lemma zero_entry (d : Z) k (pg : gmap Z (list Z)) : pg !! d = Some zero_page -> entry pg d k = 0.
Proof.
  intros H. unfold entry. rewrite H. cbn [mbind option_bind]. unfold zero_page.
  destruct (decide (k < 512)%nat); [by rewrite lookup_replicate_2 by lia|].
  by rewrite lookup_ge_None_2 by (rewrite length_replicate; lia).
Qed.

(** The copy of a table: what [copy_table_spec] proves by induction. *)
Definition table_spec (n : nat) : Prop :=
  forall path src dst s ok s',
    table_at s0 path = Some src -> (length path + n = 3)%nat -> user_path path ->
    copying dst s -> (forall j, (j < entries_at n)%nat -> entry (pages s) dst j = 0) ->
    copy_table n src dst s = (ok, s') ->
    exists T, grows dst s s' T /\
      (forall k, (entries_at n <= k)%nat -> entry (pages s') dst k = entry (pages s) dst k) /\
      (ok = true -> copied n (pages s0) (pages s') src dst T).

Lemma copy_node_spec path src dst m :
  table_spec m -> table_at s0 path = Some src -> (length path + S m = 3)%nat -> user_path path ->
  step_spec (S m) src dst (copy_node (S m =? 3)%nat (copy_table m) src dst).
Proof.
  intros IH Ht Hlen Hu j s ok s' Hj Hco Hz. unfold copy_node.
  assert (Hsrc : src ∉ free_pages_stack s0) by (by eapply wf_free).
  rewrite (source_entry dst s src j Hco Hsrc). set (e := entry (pages s0) src j).
  assert (Hskip : copies (S m) e = false -> exists T, grows dst s s T /\
     (forall k, k <> j -> entry (pages s) dst k = entry (pages s) dst k) /\
     (true = true -> entry_copied (S m) (below (S m) (pages s0) (pages s)) (pages s) e (entry (pages s) dst j) T)).
  { intros E. exists []. split; [apply grows_refl|]. split; [done|]. intros _.
    unfold entry_copied. by rewrite E, Hz. }
  destruct (present e) eqn:P; cbn [negb].
  2:{ intros [= <- <-]. apply Hskip. unfold copies. by rewrite P. }
  destruct (negb (S m =? 3)%nat && huge e) eqn:Hh.
  { intros [= <- <-]. apply Hskip. unfold copies. apply andb_true_iff in Hh as [H1 H2].
    rewrite H2. apply negb_true_iff in H1. rewrite H1. by rewrite andb_false_r. }
  assert (Hc : copies (S m) e = true).
  { unfold copies. rewrite P. change (S m =? 0)%nat with false. cbn [orb andb].
    destruct (S m =? 3)%nat; [done|]. cbn [negb andb orb] in *. by rewrite Hh. }
  destruct (pmm_alloc s) as [d s1] eqn:Ea. destruct (Z.eqb_spec d 0) as [->|Hd].
  { intros [= <- <-]. destruct (copying_alloc _ _ _ _ Hco Ea) as [[_ ->]|[[] _]]; [|done].
    exists []. split; [apply grows_refl|]. done. }
  destruct (copying_alloc _ _ _ _ Hco Ea) as [[-> _]|(_ & Hok & F & Es & Hne & Hd0)]; [done|].
  pose proof (entries_at_512 (S m)).
  destruct (link_page dst s d s1 zero_page j (Z.lor d (Z.land e 0xFFF)) Hco Ea Hd
    (length_replicate _ _) ltac:(lia)) as (Hg & Hpd & He).
  set (s2 := set_entry dst j _ _) in *. intros E.
  assert (Hsub : table_at s0 (path ++ [j]) = Some (addr_of e)).
  { rewrite table_at_snoc, Ht. replace (3 - length path)%nat with (S m) by lia.
    destruct (Nat.ltb_spec (length path) 3); [|lia]. cbn [andb]. fold e. unfold is_table.
    unfold copies in Hc. change (S m =? 0)%nat with false in Hc. cbn [orb] in Hc. by rewrite Hc. }
  assert (Hco2 : copying d s2) by (by eapply linked_copying).
  destruct (IH (path ++ [j]) (addr_of e) d s2 ok s' Hsub ltac:(rewrite length_app; simpl; lia)
    (user_path_snoc path j (S m) Hlen Hu Hj) Hco2 (fun k _ => zero_entry d k _ Hpd) E) as (T & Hg2 & Hk2 & Hok2).
  assert (HdT : dst ∉ T).
  { destruct (copying_out _ _ Hco) as (Hdf & _). rewrite (gr_free _ _ _ _ Hg), (gr_free _ _ _ _ Hg2) in Hdf. set_solver. }
  assert (Hdst : pages s' !! dst = pages s2 !! dst) by (by apply (gr_other _ _ _ _ Hg2)).
  assert (HgT : grows dst s s' (d :: T)).
  { destruct Hg as [F1 C1 O1 L1], Hg2 as [F2 C2 O2 L2]. split; [by rewrite F1, F2|congruence| |].
    - intros p Hp Hpd'. rewrite O2, O1 by set_solver. done.
    - intros Hf. unfold full. rewrite Hdst. by apply L1. }
  exists (d :: T). split; [exact HgT|]. split.
  { intros k Hk. rewrite (entry_same _ _ dst k Hdst), He, decide_False by done. done. }
  intros ->. rewrite (entry_same _ _ dst j Hdst), He, decide_True by done. unfold entry_copied. rewrite Hc.
  exists d, T. split; [done|]. split; [done|]. split; [done|]. split; [|by apply Hok2].
  apply (gr_full _ _ _ _ Hg2). by exists zero_page.
Qed.

Lemma copy_table_O src dst s :
  copy_table 0 src dst s = copy_entries (copy_leaf src dst) (entries_at 0) s.
Proof. reflexivity. Qed.

Lemma copy_table_S m src dst s :
  copy_table (S m) src dst s =
    copy_entries (copy_node (S m =? 3)%nat (copy_table m) src dst) (entries_at (S m)) s.
Proof. reflexivity. Qed.

Lemma copy_table_spec n : leaves_used -> (n <= 3)%nat -> table_spec n.
Proof.
  intros Hlv. induction n as [|n IH]; intros Hn path src dst s ok s' Ht Hlen Hu Hco Hz E.
  - rewrite copy_table_O in E. destruct (copy_entries_spec 0 src dst _ _ s ok s'
      (copy_leaf_spec path src dst Hlv Ht ltac:(lia) Hu) (le_n _) Hco Hz E) as (Ts & Hg & Hk & Hok).
    exists (mjoin Ts). split; [done|]. split; [done|]. intros Eo. destruct (Hok Eo) as [Hl Hall].
    apply copied_unfold. by exists Ts.
  - rewrite copy_table_S in E. destruct (copy_entries_spec (S n) src dst _ _ s ok s'
      (copy_node_spec path src dst n (IH ltac:(lia)) Ht Hlen Hu) (le_n _) Hco Hz E) as (Ts & Hg & Hk & Hok).
    exists (mjoin Ts). split; [done|]. split; [done|]. intros Eo. destruct (Hok Eo) as [Hl Hall].
    apply copied_unfold. by exists Ts.
Qed.
End Copy.

(** * The copied tree as an address space: its tables and frames by path, their
    distinctness, and that the child's space is well formed. *)

(** ** Entries and their copies *)

Lemma copies_table n e : (0 < n)%nat -> copies n e = is_table n e.
Proof. intros Hn. unfold copies, is_table. destruct n; [lia|done]. Qed.

Lemma copies_0 e : copies 0 e = present e.
Proof. unfold copies. by rewrite andb_true_r. Qed.

Lemma copies_zero n : copies n 0 = false.
Proof. done. Qed.

Lemma copied_flags n d e :
  page_ok d -> addr_of (Z.lor d (Z.land e 0xFFF)) = d /\ copies n (Z.lor d (Z.land e 0xFFF)) = copies n e.
Proof.
  intros Hd. change 0xFFF with (Z.ones 12). rewrite Z.land_ones by lia.
  assert (Hf : 0 <= e mod 2 ^ 12 < 4096) by (by apply Z.mod_pos_bound).
  destruct (entry_parts d (e mod 2 ^ 12) Hd Hf) as (H1 & H2 & H3). split; [done|].
  unfold copies. rewrite H2, H3, !present_bit, !huge_bit.
  by rewrite !Z.mod_pow2_bits_low by lia.
Qed.

Lemma full_bound (pg : gmap Z (list Z)) p j : full pg p -> (512 <= j)%nat -> entry pg p j = 0.
Proof.
  intros (l & Hl & Hlen) Hj. unfold entry. rewrite Hl. cbn [mbind option_bind].
  by rewrite lookup_ge_None_2 by lia.
Qed.

(** What entry [j] of a copied table is, made of the pages [Tj]. *)
Definition entry_case (n : nat) (pg0 pg : gmap Z (list Z)) (e e' : Z) (Tj : list Z) : Prop :=
  (copies n e = false /\ e' = 0 /\ Tj = []) \/
  (copies n e = true /\ exists d T', Tj = d :: T' /\ e' = Z.lor d (Z.land e 0xFFF) /\ copies n e' = true /\
     addr_of e' = d /\ page_ok d /\ full pg d /\ below n pg0 pg (addr_of e) d T').

Lemma copied_entries n pg0 pg src dst T :
  copied n pg0 pg src dst T ->
  exists Ts, T = mjoin Ts /\ forall j, (j < entries_at n)%nat -> exists Tj, Ts !! j = Some Tj /\
    entry_case n pg0 pg (entry pg0 src j) (entry pg dst j) Tj.
Proof.
  rewrite copied_unfold. intros (Ts & HT & Hlen & Hall). exists Ts. split; [done|]. intros j Hj.
  destruct (lookup_lt_is_Some_2 Ts j ltac:(lia)) as [Tj HTj]. exists Tj. split; [done|].
  specialize (Hall j Tj HTj). unfold entry_copied, entry_case in *.
  destruct (copies n (entry pg0 src j)) eqn:E; [right|left; naive_solver].
  destruct Hall as (d & T' & -> & He & Hok & Hf & Hb). split; [done|]. exists d, T'.
  destruct (copied_flags n d (entry pg0 src j) Hok) as [Ha Hc]. rewrite <-He in Ha, Hc.
  split; [done|]. split; [done|]. split; [by rewrite Hc|]. done.
Qed.

(** ** Nodes by path: tables, and below the page tables frames *)

Fixpoint node (pg : gmap Z (list Z)) (n : nat) (t : Z) (path : list nat) {struct path} : option Z :=
  match path with
  | [] => Some t
  | i :: r =>
      let e := entry pg t i in
      if copies n e then
        match n with
        | O => match r with [] => Some (addr_of e) | _ => None end
        | S m => node pg m (addr_of e) r
        end
      else None
  end.

(** The path stays in the half that was copied. *)
Definition path_in (n : nat) (path : list nat) : Prop := n = 3%nat -> user_path path.

Lemma tbl_node pg n t path x : tbl pg n t path = Some x -> node pg n t path = Some x.
Proof.
  revert n t. induction path as [|i r IH]; intros n t; [done|]. simpl. destruct n as [|n]; [done|].
  rewrite copies_table by lia. destruct (is_table (S n) (entry pg t i)); [apply IH|done].
Qed.

Lemma path_in_lt n i r pg t :
  path_in n (i :: r) -> full pg t -> copies n (entry pg t i) = true -> (i < entries_at n)%nat.
Proof.
  intros Hp Hf Hc. unfold entries_at. destruct (Nat.eqb_spec n 3) as [->|Hn].
  - by apply (Hp eq_refl).
  - destruct (decide (i < 512)%nat); [done|]. rewrite (full_bound _ _ _ Hf) in Hc by lia. done.
Qed.

Lemma node_leaf pg t r x : node pg 0 t r = Some x -> r = [] \/ exists i, r = [i].
Proof.
  destruct r as [|i r]; [by left|]. simpl. destruct (copies 0 _); [|done]. destruct r; [|done]. right. eauto.
Qed.

Lemma node_length pg n t path x : node pg n t path = Some x -> (length path <= S n)%nat.
Proof.
  revert t path. induction n as [|n IH]; intros t path H.
  - destruct (node_leaf _ _ _ _ H) as [->|[i ->]]; simpl; lia.
  - destruct path as [|i r]; simpl in *; [lia|]. destruct (copies (S n) _); [|done]. apply IH in H. lia.
Qed.

Lemma mjoin_disjoint (Ts : list (list Z)) i j Ti Tj (x : Z) :
  NoDup (mjoin Ts) -> Ts !! i = Some Ti -> Ts !! j = Some Tj -> x ∈ Ti -> x ∈ Tj -> i = j.
Proof.
  revert i j. induction Ts as [|T Ts IH]; intros i j Hnd Hi Hj Hxi Hxj; [done|].
  cbn [mjoin list_join] in Hnd. apply NoDup_app in Hnd as (_ & Hdis & Hnd).
  destruct i as [|i], j as [|j]; simpl in Hi, Hj; try done.
  - injection Hi as <-. destruct (Hdis x Hxi). by eapply in_mjoin.
  - injection Hj as <-. destruct (Hdis x Hxj). by eapply in_mjoin.
  - f_equal. by eapply IH.
Qed.

Lemma mjoin_NoDup (Ts : list (list Z)) i Ti : NoDup (mjoin Ts) -> Ts !! i = Some Ti -> NoDup Ti.
Proof.
  revert i. induction Ts as [|T Ts IH]; intros i Hnd Hi; [done|].
  cbn [mjoin list_join] in Hnd. apply NoDup_app in Hnd as (HT & _ & Hnd).
  destruct i; simpl in Hi; [by injection Hi as <-|by eapply IH].
Qed.

(** A step of a path in the copy. *)
Lemma node_step n pg0 pg src dst (Ts : list (list Z)) i r x :
  (forall j, (j < entries_at n)%nat -> exists Tj, Ts !! j = Some Tj /\
     entry_case n pg0 pg (entry pg0 src j) (entry pg dst j) Tj) ->
  full pg dst -> path_in n (i :: r) -> node pg n dst (i :: r) = Some x ->
  exists d T', Ts !! i = Some (d :: T') /\ page_ok d /\ full pg d /\
    below n pg0 pg (addr_of (entry pg0 src i)) d T' /\
    ((r = [] /\ x = d) \/ exists m, n = S m /\ r <> [] /\ node pg m d r = Some x).
Proof.
  intros Hall Hf Hp H. simpl in H. destruct (copies n (entry pg dst i)) eqn:Ec; [|done].
  destruct (Hall i (path_in_lt _ _ _ _ _ Hp Hf Ec)) as (Tj & HTj & [(_ & E0 & _)|(_ & d & T' & -> & _ & _ & Ea & Hok & Hfd & Hb)]).
  { rewrite E0 in Ec. done. }
  rewrite Ea in H. exists d, T'. do 4 (split; [done|]). destruct n as [|m].
  - destruct r; [|done]. injection H as <-. by left.
  - destruct r as [|i' r]; [injection H as <-; by left|]. right. by exists m.
Qed.

Lemma path_in_sub n r : (n < 3)%nat -> path_in n r.
Proof. intros Hn ->. lia. Qed.

(** A node below the root is one of the pages taken. *)
Lemma node_in n pg0 pg src dst T path x :
  (n <= 3)%nat -> copied n pg0 pg src dst T -> full pg dst -> path_in n path -> path <> [] ->
  node pg n dst path = Some x -> x ∈ T /\ full pg x /\ page_ok x.
Proof.
  revert src dst T path. induction n as [n IH] using lt_wf_ind.
  intros src dst T [|i r] Hn Hc Hf Hp Hne H; [done|].
  destruct (copied_entries _ _ _ _ _ _ Hc) as (Ts & -> & Hall).
  destruct (node_step _ _ _ _ _ _ _ _ _ Hall Hf Hp H) as (d & T' & HTs & Hok & Hfd & Hb & [[-> ->]|(m & -> & Hr & H')]).
  - split; [|done]. eapply in_mjoin; [done..|set_solver].
  - destruct (IH m ltac:(lia) _ _ _ r ltac:(lia) Hb Hfd (path_in_sub m r ltac:(lia)) Hr H') as (Hx & ? & ?).
    split; [|done]. eapply in_mjoin; [done..|set_solver].
Qed.

(** Two paths never lead to the same page. *)
Lemma node_inj n pg0 pg src dst T p1 p2 x :
  (n <= 3)%nat -> copied n pg0 pg src dst T -> full pg dst -> NoDup T ->
  path_in n p1 -> path_in n p2 -> p1 <> [] -> p2 <> [] ->
  node pg n dst p1 = Some x -> node pg n dst p2 = Some x -> p1 = p2.
Proof.
  revert src dst T p1 p2. induction n as [n IH] using lt_wf_ind.
  intros src dst T [|i1 r1] [|i2 r2] Hn Hc Hf Hnd Hp1 Hp2 Hne1 Hne2 H1 H2; try done.
  destruct (copied_entries _ _ _ _ _ _ Hc) as (Ts & -> & Hall).
  destruct (node_step _ _ _ _ _ _ _ _ _ Hall Hf Hp1 H1) as (d1 & T1 & HT1 & _ & Hfd1 & Hb1 & C1).
  destruct (node_step _ _ _ _ _ _ _ _ _ Hall Hf Hp2 H2) as (d2 & T2 & HT2 & _ & Hfd2 & Hb2 & C2).
  assert (Hin : forall d T' i m r, Ts !! i = Some (d :: T') -> below n pg0 pg (addr_of (entry pg0 src i)) d T' ->
    full pg d -> n = S m -> r <> [] -> node pg m d r = Some x -> x ∈ T').
  { intros d T' i m r _ Hb Hfd -> Hr H.
    exact (proj1 (node_in m pg0 pg _ d T' r x ltac:(lia) Hb Hfd (path_in_sub m r ltac:(lia)) Hr H)). }
  assert (Hx1 : x ∈ d1 :: T1).
  { destruct C1 as [[_ ->]|(m & Em & Hr & H)]; [set_solver|]. pose proof (Hin _ _ _ _ _ HT1 Hb1 Hfd1 Em Hr H). set_solver. }
  assert (Hx2 : x ∈ d2 :: T2).
  { destruct C2 as [[_ ->]|(m & Em & Hr & H)]; [set_solver|]. pose proof (Hin _ _ _ _ _ HT2 Hb2 Hfd2 Em Hr H). set_solver. }
  assert (i1 = i2) as <- by (by eapply mjoin_disjoint). rewrite HT1 in HT2. injection HT2 as <- <-. f_equal.
  pose proof (mjoin_NoDup _ _ _ Hnd HT1) as HndT. apply NoDup_cons in HndT as [Hd HndT].
  destruct C1 as [[-> ->]|(m1 & -> & Hr1 & H1')], C2 as [[-> E2]|(m2 & E2 & Hr2 & H2')]; [done| | |].
  - destruct Hd. by eapply Hin.
  - subst x. destruct Hd. by eapply Hin.
  - injection E2 as <-. eapply (IH m1); [lia|lia|exact Hb1|done|done|..]; try done; apply path_in_sub; lia.
Qed.
