(* ===== verification/ForkSpace.v ===== *)
(** The two address spaces after [copy_user_as]: the parent's is as before, the
    child's is well formed, its user pages have frames of their own. *)
From Stdlib Require Import ZArith Lia.
From stdpp Require Import base numbers list gmap.
From S2P Require Import Prelude Vmm VmmSpec VmmProps VmmFrame UserMem UserSpace UserMemSpec.
From S2P Require Import Fork ForkSpec.

(** The user half. *)
Definition LOW_HALF : Z := 2 ^ 47.

Lemma low_win : win_ok 0 LOW_HALF.
Proof. by split. Qed.

Lemma low_idx v : 0 <= v < LOW_HALF -> (pml4_idx v < 256)%nat.
Proof. unfold LOW_HALF. intros Hv. unfold pml4_idx. pose proof (idx_field v 39 ltac:(lia)). zify_div. Qed.

(** ** The frames of a tree *)

Fixpoint leaves (n : nat) (pg : gmap Z (list Z)) (t : Z) : list Z :=
  seq 0 (entries_at n) ≫= fun j =>
    if copies n (entry pg t j) then
      match n with
      | O => [addr_of (entry pg t j)]
      | S m => leaves m pg (addr_of (entry pg t j))
      end
    else [].

Definition leaf_of (n : nat) (pg : gmap Z (list Z)) (t : Z) (j : nat) : list Z :=
  if copies n (entry pg t j) then
    match n with
    | O => [addr_of (entry pg t j)]
    | S m => leaves m pg (addr_of (entry pg t j))
    end
  else [].

Lemma leaves_unfold n pg t : leaves n pg t = seq 0 (entries_at n) ≫= leaf_of n pg t.
Proof. destruct n; reflexivity. Qed.

Lemma bind_sublist (f : nat -> list Z) (Ts : list (list Z)) i :
  (forall j Tj, Ts !! j = Some Tj -> f (i + j)%nat `sublist_of` Tj) ->
  (seq i (length Ts) ≫= f) `sublist_of` mjoin Ts.
Proof.
  revert i. induction Ts as [|T Ts IH]; intros i H; [done|]. cbn [length seq mbind list_bind mjoin list_join].
  apply sublist_app.
  - specialize (H 0%nat T eq_refl). by rewrite Nat.add_0_r in H.
  - apply IH. intros j Tj Hj. replace (S i + j)%nat with (i + S j)%nat by lia. by apply H.
Qed.

(** The frames of a copy are among its pages, each once. *)
Lemma leaves_sublist n pg0 pg src dst T : copied n pg0 pg src dst T -> leaves n pg dst `sublist_of` T.
Proof.
  revert src dst T. induction n as [n IH] using lt_wf_ind. intros src dst T Hc.
  pose proof Hc as Hc'. rewrite copied_unfold in Hc'. destruct Hc' as (Ts & -> & Hlen & Hall).
  rewrite leaves_unfold, <-Hlen. apply bind_sublist. intros j Tj Hj. cbn [Nat.add].
  specialize (Hall j Tj Hj). unfold entry_copied in Hall. unfold leaf_of.
  destruct (copies n (entry pg0 src j)) eqn:E.
  - destruct Hall as (d & T' & -> & He & Hok & _ & Hb).
    destruct (copied_flags n d (entry pg0 src j) Hok) as [Ha Hcp]. rewrite <-He in Ha, Hcp. rewrite Hcp, E, Ha.
    destruct n as [|m]; [apply sublist_skip, sublist_nil_l|]. apply sublist_cons. eapply IH; [lia|exact Hb].
  - destruct Hall as [-> ->]. by rewrite copies_zero.
Qed.

Lemma leaves_node n pg t x :
  x ∈ leaves n pg t -> exists path, node pg n t path = Some x /\ length path = S n /\ path_in n path.
Proof.
  revert t. induction n as [n IH] using lt_wf_ind. intros t. rewrite leaves_unfold, list_elem_of_bind.
  intros (j & Hx & Hj). apply elem_of_seq in Hj. unfold leaf_of in Hx.
  destruct (copies n (entry pg t j)) eqn:E; [|set_solver].
  assert (Hp : forall r, path_in n (j :: r)) by (intros r ->; exact (proj2 Hj)).
  destruct n as [|m].
  - apply list_elem_of_singleton in Hx as ->. exists [j]. simpl. by rewrite E.
  - destruct (IH m ltac:(lia) _ Hx) as (path & Hn & Hl & _). exists (j :: path). simpl. rewrite E, Hn, Hl. done.
Qed.

Lemma node_leaves n pg0 pg src dst T path x :
  (n <= 3)%nat -> copied n pg0 pg src dst T -> full pg dst -> path_in n path -> length path = S n ->
  node pg n dst path = Some x -> x ∈ leaves n pg dst.
Proof.
  revert src dst T path. induction n as [n IH] using lt_wf_ind. intros src dst T [|i r] Hn Hc Hf Hp Hl H; [done|].
  destruct (copied_entries _ _ _ _ _ _ Hc) as (Ts & -> & Hall).
  pose proof H as H0. simpl in H0. destruct (copies n (entry pg dst i)) eqn:Ec; [|done].
  pose proof (path_in_lt _ _ _ _ _ Hp Hf Ec) as Hi.
  rewrite leaves_unfold, list_elem_of_bind. exists i. split; [|by apply elem_of_seq; lia].
  unfold leaf_of. rewrite Ec. destruct n as [|m].
  - destruct r; [|done]. injection H0 as <-. by left.
  - destruct (Hall i Hi) as (Tj & _ & [(_ & E0 & _)|(_ & d & T' & _ & _ & _ & Ea & _ & Hfd & Hb)]); [by rewrite E0 in Ec|].
    rewrite Ea in *. apply (IH m ltac:(lia) (addr_of (entry pg0 src i)) d T' r); [lia|exact Hb|done|apply path_in_sub; lia|simpl in Hl; lia|done].
Qed.

(** ** Spaces that agree on their tables *)

Lemma same_tables s s' :
  cr3 s' = cr3 s -> (forall q t, table_at s q = Some t -> pages s' !! t = pages s !! t) ->
  (forall q, table_at s' q = table_at s q) /\ (forall v, vmm_get_phys v s' = vmm_get_phys v s).
Proof.
  intros Hc Hp. assert (Hta : forall q, table_at s' q = table_at s q).
  { induction q as [|j q IH] using rev_ind; [unfold table_at; simpl; by rewrite Hc|].
    rewrite !table_at_snoc, IH. destruct (table_at s q) as [t|] eqn:E; [|done].
    by rewrite (entry_same _ _ t j (Hp _ _ E)). }
  split; [done|]. intros v. rewrite !get_phys_xlate. unfold read_at. rewrite !Hta.
  assert (Hr : forall q i, match table_at s q with Some t => entry (pages s') t i | None => 0 end
    = match table_at s q with Some t => entry (pages s) t i | None => 0 end).
  { intros q i. destruct (table_at s q) as [t|] eqn:E; [|done]. by rewrite (entry_same _ _ t i (Hp _ _ E)). }
  by rewrite !Hr.
Qed.

(** ** After a copy *)

(** [s'] is the state after a successful copy of the user half of [s0] into the
    new PML4 [root], which took the pages [T]. *)
Record forked (s0 s' : vm) (root : Z) (T : list Z) : Prop := {
  fk_free : free_pages_stack s0 = root :: T ++ free_pages_stack s';
  fk_cr3 : cr3 s' = cr3 s0;
  fk_pages p : p ∉ free_pages_stack s0 -> pages s' !! p = pages s0 !! p;
  fk_full : full (pages s') root;
  fk_high k : (256 <= k)%nat -> entry (pages s') root k = entry (pages s0) (cr3 s0) k;
  fk_low : copied 3 (pages s0) (pages s') (cr3 s0) root T;
}.

Lemma half_full (s : vm) : length ((fun i => if (256 <=? i)%nat then entry (pages s) (cr3 s) i else 0) <$> seq 0 512) = 512%nat.
Proof. by rewrite length_fmap, length_seq. Qed.

(** The new PML4 before the copy: the kernel half is there, the user half is
    empty. *)
Record fresh_pml4 (s0 : vm) (root : Z) (s1 : vm) : Prop := {
  fp_copying : copying s0 root s1;
  fp_free : free_pages_stack s0 = root :: free_pages_stack s1;
  fp_pages q : q <> root -> pages s1 !! q = pages s0 !! q;
  fp_low k : (k < 256)%nat -> entry (pages s1) root k = 0;
  fp_high k : (256 <= k < 512)%nat -> entry (pages s1) root k = entry (pages s0) (cr3 s0) k;
}.

Lemma new_pml4_fresh s0 root s1 :
  wf s0 -> vmm_new_user_pml4 s0 = (root, s1) -> root <> 0 -> fresh_pml4 s0 root s1.
Proof.
  intros Hwf. unfold vmm_new_user_pml4. destruct (pmm_alloc s0) as [p s2] eqn:Ea.
  destruct (pmm_alloc_wf s0 p s2 Hwf Ea) as [(-> & -> & _)|(_ & Hf & Hs2 & _ & _ & _)].
  { intros [= <- <-]. done. }
  destruct (Z.eqb_spec p 0) as [->|Hp]; [by intros [= <- <-]|]. intros [= <- <-] _.
  set (s1 := fill_page p _ s2) in *.
  assert (Hent : forall k, (k < 512)%nat -> entry (pages s1) p k = if (256 <=? k)%nat then entry (pages s0) (cr3 s0) k else 0).
  { intros k Hk. destruct (half_entries s2 p k Hk) as [Hlo Hhi]. fold s1 in Hlo, Hhi. rewrite half_pages in Hlo, Hhi.
    assert (E0 : entry (pages s2) (cr3 s2) k = entry (pages s0) (cr3 s0) k) by (by rewrite Hs2).
    rewrite E0 in Hhi. destruct (Nat.leb_spec 256 k); [by apply Hhi|by apply Hlo]. }
  assert (Hpg1 : forall q, q <> p -> pages s1 !! q = pages s0 !! q).
  { intros q Hq. unfold s1. rewrite fill_page_page, decide_False by done. by rewrite Hs2. }
  split; [|exact Hf|exact Hpg1| |].
  - split.
    + unfold s1. by rewrite Hs2.
    + intros q Hq. apply Hpg1. intros ->. apply Hq. rewrite Hf. by left.
    + exists [p]. split; [exact Hf|by left].
    + eexists. unfold s1. rewrite fill_page_page, decide_True by done. split; [done|]. apply half_full.
  - intros k Hk. rewrite Hent by lia. destruct (Nat.leb_spec 256 k); [lia|done].
  - intros k Hk. rewrite Hent by lia. destruct (Nat.leb_spec 256 k); [done|lia].
Qed.

Lemma fresh_low s0 root s1 : fresh_pml4 s0 root s1 -> forall j, (j < entries_at 3)%nat -> entry (pages s1) root j = 0.
Proof. intros Hfp j Hj. apply (fp_low _ _ _ Hfp). exact Hj. Qed.

Lemma fork_forked s0 root s1 s' :
  wf s0 -> leaves_used s0 -> fresh_pml4 s0 root s1 ->
  copy_user_as (cr3 s0) root s1 = (true, s') -> exists T, forked s0 s' root T.
Proof.
  intros Hwf Hlv Hfp. unfold copy_user_as. intros E. pose proof Hfp as [Hco Hf Hpg Hlo Hhi].
  assert (Hroot : table_at s0 [] = Some (cr3 s0)) by done.
  destruct (copy_table_spec s0 Hwf 3 Hlv ltac:(lia) [] (cr3 s0) root s1 true s' Hroot eq_refl I Hco
    (fresh_low _ _ _ Hfp) E) as (T & [F C O L] & Hk & Hc).
  exists T. split.
  - by rewrite Hf, F.
  - by rewrite C, (co_cr3 _ _ _ Hco).
  - intros q Hq. assert (Hne : q <> root) by (intros ->; apply Hq; rewrite Hf; by left).
    rewrite O, Hpg; [done|done| |done]. intros Hin. apply Hq. rewrite Hf, F. right. apply elem_of_app. by left.
  - apply L, (co_full _ _ _ Hco).
  - intros k Hk256. destruct (decide (k < 512)%nat) as [Hlt|Hge].
    + rewrite Hk by (unfold entries_at; cbn [Nat.eqb]; lia). by apply Hhi.
    + destruct (wf_pages s0 Hwf [] _ Hroot) as (l & Hl & Hll).
      assert (F0 : full (pages s0) (cr3 s0)) by (by exists l).
      by rewrite (full_bound _ _ k F0), (full_bound _ _ k (L (co_full _ _ _ Hco))) by lia.
  - by apply Hc.
Qed.

Section Child.
Context (s0 s' : vm) (root : Z) (T : list Z) (Hwf : wf s0) (Hfk : forked s0 s' root T).

Definition child : vm := vmm_activate_pml4 root s'.

Lemma fk_NoDup : NoDup (root :: T ++ free_pages_stack s') /\ Forall page_ok (root :: T ++ free_pages_stack s').
Proof. rewrite <-(fk_free _ _ _ _ Hfk). apply (wf_stack s0 Hwf). Qed.

Lemma fk_table q t : table_at s0 q = Some t -> pages s' !! t = pages s0 !! t.
Proof. intros Ht. apply (fk_pages _ _ _ _ Hfk). by eapply wf_free. Qed.

(** The parent's space. *)
Lemma parent_same :
  (forall q, table_at s' q = table_at s0 q) /\ (forall v, vmm_get_phys v s' = vmm_get_phys v s0).
Proof. apply same_tables; [apply (fk_cr3 _ _ _ _ Hfk)|apply fk_table]. Qed.

(** The kernel half of the child is the parent's. *)
Lemma child_high i r : (256 <= i)%nat -> table_at child (i :: r) = table_at s0 (i :: r).
Proof.
  intros Hi. induction r as [|j r IH] using rev_ind.
  - change [i] with ([] ++ [i]). rewrite !table_at_snoc. unfold table_at. cbn [tbl length child vmm_activate_pml4 cr3 pages].
    by rewrite (fk_high _ _ _ _ Hfk i Hi).
  - rewrite app_comm_cons, !table_at_snoc, IH. destruct (table_at s0 (i :: r)) as [t|] eqn:Et; [|done].
    unfold child. cbn [vmm_activate_pml4 pages]. by rewrite (entry_same _ _ t j (fk_table _ _ Et)).
Qed.

(** A table of the child: its root, one of the pages taken, or a kernel table. *)
Lemma child_table q t :
  table_at child q = Some t ->
  (q = [] /\ t = root) \/
  (q <> [] /\ user_path q /\ node (pages s') 3 root q = Some t /\ t ∈ T /\ full (pages s') t) \/
  (q <> [] /\ ~ user_path q /\ table_at s0 q = Some t).
Proof.
  intros H. destruct q as [|i r]; [left; injection H as <-; done|right].
  destruct (decide (i < 256)%nat) as [Hi|Hi].
  - left. unfold table_at in H. apply tbl_node in H. cbn [child vmm_activate_pml4 pages cr3] in H.
    destruct (node_in 3 (pages s0) (pages s') (cr3 s0) root T (i :: r) t ltac:(lia) (fk_low _ _ _ _ Hfk)
      (fk_full _ _ _ _ Hfk) (fun _ => Hi) ltac:(done) H) as (Hin & Hf & _). done.
  - right. rewrite child_high in H by lia. done.
Qed.

Lemma child_wf : wf child.
Proof.
  destruct fk_NoDup as [Hnd Hok]. apply NoDup_cons in Hnd as [Hr Hnd].
  pose proof Hnd as HndT. apply NoDup_app in HndT as (HndT & HdT & Hndf).
  assert (Hhigh : forall q t, table_at s0 q = Some t -> t ∉ root :: T ++ free_pages_stack s').
  { intros q t Ht. rewrite <-(fk_free _ _ _ _ Hfk). by eapply wf_free. }
  split.
  - intros q t [(-> & ->)|[(_ & _ & _ & _ & Hf)|(_ & _ & Ht)]]%child_table;
      [apply (fk_full _ _ _ _ Hfk)|exact Hf|].
    destruct (wf_pages s0 Hwf _ _ Ht) as (l & Hl & Hll). exists l. split; [|done].
    unfold child. cbn [vmm_activate_pml4 pages]. by rewrite (fk_table _ _ Ht).
  - intros p q t Hp Hq.
    destruct (child_table _ _ Hp) as [(-> & E1)|[(Np & Up & Ep & Tp & _)|(Np & Up & Ep)]],
      (child_table _ _ Hq) as [(-> & E2)|[(Nq & Uq & Eq & Tq & _)|(Nq & Uq & Eq)]]; try done.
    + subst t. destruct Hr. apply elem_of_app. by left.
    + subst t. destruct (Hhigh _ _ Eq). by left.
    + subst t. destruct Hr. apply elem_of_app. by left.
    + exact (node_inj 3 (pages s0) (pages s') (cr3 s0) root T p q t ltac:(lia) (fk_low _ _ _ _ Hfk)
        (fk_full _ _ _ _ Hfk) HndT (fun _ => Up) (fun _ => Uq) Np Nq Ep Eq).
    + destruct (Hhigh _ _ Eq). right. apply elem_of_app. by left.
    + subst t. destruct (Hhigh _ _ Ep). by left.
    + destruct (Hhigh _ _ Ep). right. apply elem_of_app. by left.
    + by eapply wf_inj.
  - intros q t Ht Hin. cbn [child vmm_activate_pml4 free_pages_stack] in Hin.
    destruct (child_table _ _ Ht) as [(_ & ->)|[(_ & _ & _ & Tt & _)|(_ & _ & E)]].
    + apply Hr. apply elem_of_app. by right.
    + by apply (HdT t).
    + apply (Hhigh _ _ E). right. apply elem_of_app. by right.
  - split; [exact Hndf|]. apply Forall_cons in Hok as [_ Hok]. by apply Forall_app in Hok as [_ ?].
Qed.

(** The child's frames. *)
Definition frames : list Z := leaves 3 (pages s') root.

Lemma frames_in x : x ∈ frames -> x ∈ T.
Proof.
  intros Hx. eapply elem_of_sublist; [exact Hx|]. eapply leaves_sublist. apply (fk_low _ _ _ _ Hfk).
Qed.

Lemma child_reserved : wf (reserve frames child).
Proof.
  destruct fk_NoDup as [Hnd Hok]. apply NoDup_cons in Hnd as [Hr Hnd]. apply NoDup_app in Hnd as (HndT & HdT & Hndf).
  apply Forall_cons in Hok as [_ Hok]. apply Forall_app in Hok as [HokT _].
  apply wf_reserve_intro; [apply child_wf| | |].
  - eapply sublist_NoDup; [exact HndT|]. eapply leaves_sublist, fk_low, Hfk.
  - apply Forall_forall. intros x Hx. rewrite Forall_forall in HokT. by apply HokT, frames_in.
  - apply Forall_forall. intros x Hx. pose proof (frames_in x Hx) as HxT. split.
    { cbn [child vmm_activate_pml4 free_pages_stack]. by apply HdT. }
    intros q t Ht ->. destruct (leaves_node _ _ _ _ Hx) as (path & Hn & Hl & Hp).
    destruct (child_table _ _ Ht) as [(_ & ->)|[(Nq & Uq & Eq & _)|(_ & _ & E)]].
    + apply Hr. apply elem_of_app. by left.
    + assert (path = q) as ->.
      { assert (Hne : path <> []) by (by intros ->).
        exact (node_inj 3 (pages s0) (pages s') (cr3 s0) root T path q x ltac:(lia) (fk_low _ _ _ _ Hfk)
          (fk_full _ _ _ _ Hfk) HndT Hp (fun _ => Uq) Hne Nq Hn Eq). }
      assert (length q <= 3)%nat; [|lia]. clear -Ht. revert Ht. unfold table_at.
      generalize (cr3 child). generalize 3%nat. induction q as [|i q IH]; intros n t; simpl; [lia|].
      destruct n as [|n]; [done|]. destruct (is_table _ _); [|done]. intros H%IH. lia.
    + pose proof (wf_free s0 Hwf _ _ E) as Hf. rewrite (fk_free _ _ _ _ Hfk) in Hf. apply Hf. right. apply elem_of_app. by left.
Qed.
End Child.

(** ** How many pages a copy needs *)

Fixpoint tree_size (n : nat) (pg : gmap Z (list Z)) (t : Z) : nat :=
  sum_list_with (fun j =>
    if copies n (entry pg t j)
    then S (match n with O => 0 | S m => tree_size m pg (addr_of (entry pg t j)) end) else 0)%nat
    (seq 0 (entries_at n)).

Definition entry_size (n : nat) (pg : gmap Z (list Z)) (e : Z) : nat :=
  if copies n e then S (match n with O => 0 | S m => tree_size m pg (addr_of e) end) else 0.

Lemma tree_size_unfold n pg t :
  tree_size n pg t = sum_list_with (fun j => entry_size n pg (entry pg t j)) (seq 0 (entries_at n)).
Proof. destruct n; reflexivity. Qed.

Lemma length_mjoin_sum (f : nat -> nat) (Ts : list (list Z)) i :
  (forall j Tj, Ts !! j = Some Tj -> length Tj = f (i + j)%nat) ->
  length (mjoin Ts) = sum_list_with f (seq i (length Ts)).
Proof.
  revert i. induction Ts as [|T Ts IH]; intros i H; [done|].
  cbn [length seq sum_list_with]. change (mjoin (T :: Ts)) with (T ++ mjoin Ts). rewrite length_app, (IH (S i)).
  - specialize (H 0%nat T eq_refl). rewrite Nat.add_0_r in H. by rewrite H.
  - intros j Tj Hj. replace (S i + j)%nat with (i + S j)%nat by lia. by apply H.
Qed.

Lemma copied_size n pg0 pg src dst T : copied n pg0 pg src dst T -> length T = tree_size n pg0 src.
Proof.
  revert src dst T. induction n as [n IH] using lt_wf_ind. intros src dst T Hc.
  rewrite copied_unfold in Hc. destruct Hc as (Ts & -> & Hlen & Hall). rewrite tree_size_unfold, <-Hlen.
  apply (length_mjoin_sum (fun j => entry_size n pg0 (entry pg0 src j))).
  intros j Tj Hj. cbn [Nat.add]. specialize (Hall j Tj Hj). unfold entry_copied in Hall. unfold entry_size.
  destruct (copies n (entry pg0 src j)); [|by destruct Hall as [-> _]].
  destruct Hall as (d & T' & -> & _ & _ & _ & Hb). cbn [length]. f_equal. destruct n as [|m]; simpl in Hb.
  - by destruct Hb as [-> _].
  - by eapply IH; [lia|].
Qed.

Section Enough.
Context (s0 : vm) (Hwf : wf s0) (Hlv : leaves_used s0).

(** A step that succeeds when the pages of its entry are free. *)
Definition step_enough (n : nat) (src dst : Z) (step : nat -> vm -> bool * vm) : Prop :=
  forall j s, (j < entries_at n)%nat -> copying s0 dst s -> entry (pages s) dst j = 0 ->
    (entry_size n (pages s0) (entry (pages s0) src j) <= length (free_pages_stack s))%nat -> fst (step j s) = true.

Lemma copy_entries_enough n src dst step i s :
  step_spec s0 n src dst step -> step_enough n src dst step -> (i <= entries_at n)%nat -> copying s0 dst s ->
  (forall j, (j < i)%nat -> entry (pages s) dst j = 0) ->
  (sum_list_with (fun j => entry_size n (pages s0) (entry (pages s0) src j)) (seq 0 i)
     <= length (free_pages_stack s))%nat ->
  fst (copy_entries step i s) = true.
Proof.
  intros Hspec Hen. induction i as [|i IH]; intros Hi Hco H0 Hsz; [done|].
  rewrite seq_S, sum_list_with_app in Hsz. cbn [sum_list_with Nat.add] in Hsz.
  unfold copy_entries. rewrite seq_S, foldl_app. cbn [foldl Nat.add]. fold (copy_entries step i s).
  specialize (IH ltac:(lia) Hco (fun j Hj => H0 j ltac:(lia)) ltac:(lia)).
  destruct (copy_entries step i s) as [ok s1] eqn:E. cbn [fst snd] in *. subst ok.
  destruct (copy_entries_spec s0 Hwf n src dst step i s true s1 Hspec ltac:(lia) Hco
    (fun j Hj => H0 j ltac:(lia)) E) as (Ts & Hg & Hk & Hok).
  destruct (Hok eq_refl) as [Hlen Hall]. apply Hen; [lia|by eapply copying_grows|by rewrite Hk, H0 by lia|].
  assert (Hsum : length (mjoin Ts) =
    sum_list_with (fun j => entry_size n (pages s0) (entry (pages s0) src j)) (seq 0 i)).
  { rewrite <-Hlen. apply (length_mjoin_sum (fun j => entry_size n (pages s0) (entry (pages s0) src j))).
    intros j Tj Hj. cbn [Nat.add]. specialize (Hall j Tj Hj). unfold entry_copied in Hall. unfold entry_size.
    destruct (copies n (entry (pages s0) src j)); [|by destruct Hall as [-> _]].
    destruct Hall as (d & T' & -> & _ & _ & _ & Hb). cbn [length]. f_equal. destruct n as [|m]; simpl in Hb.
    - by destruct Hb as [-> _].
    - by eapply copied_size. }
  pose proof (f_equal length (gr_free _ _ _ _ Hg)) as Hl. rewrite length_app, Hsum in Hl. lia.
Qed.

Lemma alloc_enough dst s : copying s0 dst s -> (0 < length (free_pages_stack s))%nat -> fst (pmm_alloc s) <> 0.
Proof.
  intros Hco Hl. destruct (copying_out s0 Hwf _ _ Hco) as (_ & _ & _ & Hok & _). unfold pmm_alloc.
  destruct (free_pages_stack s) as [|p r]; [simpl in Hl; lia|]. apply Forall_cons in Hok as [[Hp _] _]. simpl. lia.
Qed.

Lemma copy_table_enough n path src dst s :
  (n <= 3)%nat -> table_at s0 path = Some src -> (length path + n = 3)%nat -> user_path path ->
  copying s0 dst s -> (forall j, (j < entries_at n)%nat -> entry (pages s) dst j = 0) ->
  (tree_size n (pages s0) src <= length (free_pages_stack s))%nat -> fst (copy_table n src dst s) = true.
Proof.
  revert path src dst s. induction n as [|m IH]; intros path src dst s Hn Ht Hlen Hu Hco Hz Hsz;
    rewrite tree_size_unfold in Hsz; pose proof (wf_free s0 Hwf _ _ Ht) as Hsrc.
  - rewrite copy_table_O. apply (copy_entries_enough 0 src dst); try done.
    { eapply copy_leaf_spec; [done|done|exact Ht|lia|done]. }
    clear s Hco Hz Hsz. intros j s Hj Hco Hz Hsz. unfold copy_leaf. unfold entry_size, copies in Hsz.
    rewrite (source_entry s0 dst s src j Hco Hsrc). rewrite andb_true_r in Hsz.
    destruct (present (entry (pages s0) src j)); [|done]. cbn [negb].
    pose proof (alloc_enough dst s Hco ltac:(lia)) as Ha. destruct (pmm_alloc s) as [d s1]. cbn [fst] in Ha.
    by rewrite (proj2 (Z.eqb_neq d 0) Ha).
  - rewrite copy_table_S.
    pose proof (copy_node_spec s0 Hwf path src dst m (copy_table_spec s0 Hwf m Hlv ltac:(lia)) Ht Hlen Hu) as Hspec.
    apply (copy_entries_enough (S m) src dst); try done.
    clear s Hco Hz Hsz. intros j s Hj Hco Hz Hsz.
    assert (Hent : entry (pages s) src j = entry (pages s0) src j) by (by apply (source_entry s0 dst)).
    unfold copy_node. rewrite Hent. unfold entry_size in Hsz. set (e := entry (pages s0) src j) in *.
    destruct (present e) eqn:P; [|done]. cbn [negb]. destruct (negb (S m =? 3)%nat && huge e) eqn:Hh; [done|].
    assert (Hc : copies (S m) e = true).
    { unfold copies. rewrite P. change (S m =? 0)%nat with false. cbn [orb andb].
      destruct (S m =? 3)%nat; [done|]. cbn [negb andb orb] in *. by rewrite Hh. }
    rewrite Hc in Hsz. pose proof (alloc_enough dst s Hco ltac:(lia)) as Ha.
    destruct (pmm_alloc s) as [d s1] eqn:Ea. cbn [fst] in Ha. rewrite (proj2 (Z.eqb_neq d 0) Ha).
    destruct (copying_alloc s0 Hwf _ _ _ _ Hco Ea) as [[-> _]|(_ & Hok & F & Es & Hne & Hd0)]; [done|].
    pose proof (entries_at_512 (S m)).
    destruct (link_page s0 Hwf dst s d s1 zero_page j (Z.lor d (Z.land e 0xFFF)) Hco Ea Ha
      (length_replicate _ _) ltac:(lia)) as (Hg & Hpd & He).
    apply (IH (path ++ [j])); [lia| |rewrite length_app; simpl; lia|by eapply user_path_snoc| | |].
    + rewrite table_at_snoc, Ht. replace (3 - length path)%nat with (S m) by lia.
      destruct (Nat.ltb_spec (length path) 3); [|lia]. cbn [andb]. fold e. rewrite <-copies_table, Hc by lia. done.
    + by eapply (linked_copying s0 Hwf dst s d _ zero_page).
    + intros k _. by apply zero_entry.
    + rewrite F in Hsz. cbn [length] in Hsz. rewrite Es. simpl. lia.
Qed.
End Enough.
