(* ===== verification/ForkProps.v ===== *)
(** What fork's copy of an address space guarantees: the child reads what the
    parent reads, and neither sees what the other writes afterwards. *)
From Stdlib Require Import ZArith Lia.
From stdpp Require Import base numbers list gmap.
From S2P Require Import Prelude Vmm VmmSpec VmmProps VmmFrame UserMem UserSpace UserMemSpec.
From S2P Require Import UserHeap UserHeapMap Fork ForkSpec ForkSpace.

Lemma addr_of_aligned e : addr_of e mod 4096 = 0 /\ 0 <= addr_of e.
Proof. rewrite addr_of_val. zify_div. Qed.

Lemma frame_or f v : f mod 4096 = 0 -> 0 <= f -> Z.lor f (Z.land v 0xFFF) = f + v mod 4096.
Proof.
  intros Hf H0. rewrite low_12. apply (lor_disjoint f (v mod 4096) 12); [lia|done|].
  by apply Z.mod_pos_bound.
Qed.

Definition pt_path (v : Z) : list nat := [pml4_idx v; pdpt_idx v; pd_idx v].
Definition page_path (v : Z) : list nat := [pml4_idx v; pdpt_idx v; pd_idx v; pt_idx v].


Section Forked.
Context (s0 s' : vm) (root : Z) (T : list Z) (Hwf : wf s0) (Hfk : forked s0 s' root T).
#[local] Notation c := (child s' root).

(** The entry of the child behind an entry of the parent. *)
Lemma level_case n src dst T' i :
  copied n (pages s0) (pages s') src dst T' -> (i < entries_at n)%nat ->
  exists Tj, entry_case n (pages s0) (pages s') (entry (pages s0) src i) (entry (pages s') dst i) Tj.
Proof. intros Hc Hi. destruct (copied_entries _ _ _ _ _ _ Hc) as (Ts & _ & Hall). destruct (Hall i Hi) as (Tj & _ & H). eauto. Qed.

(** An address of the user half is unmapped in the child, where it is not mapped
    by a page table in the parent, or both translate it, by pages of the same
    contents. *)
Definition unmapped_both (v : Z) : Prop :=
  vmm_get_phys v c = 0 /\ (mapped_4k v s0 -> vmm_get_phys v s0 = 0).

Record mapped_both (v t d : Z) : Prop := {
  mb_table : table_at s0 (pt_path v) = Some t;
  mb_present : present (entry (pages s0) t (pt_idx v)) = true;
  mb_parent : vmm_get_phys v s0 = addr_of (entry (pages s0) t (pt_idx v)) + v mod 4096;
  mb_child : vmm_get_phys v c = d + v mod 4096;
  mb_node : node (pages s') 3 root (page_path v) = Some d;
  mb_mapped : mapped_4k v c;
  mb_same k : (k < 512)%nat -> entry (pages s') d k = entry (pages s0) (addr_of (entry (pages s0) t (pt_idx v))) k;
}.

Lemma child_xlate v : 0 <= v < LOW_HALF -> unmapped_both v \/ exists t d, mapped_both v t d.
Proof.
  intros Hv. pose proof (low_idx v Hv) as Hi4.
  destruct (level_case 3 (cr3 s0) root T (pml4_idx v) (fk_low _ _ _ _ Hfk) Hi4) as (T4 & C4).
  set (e4 := entry (pages s0) (cr3 s0) (pml4_idx v)) in *. set (x4 := entry (pages s') root (pml4_idx v)) in *.
  destruct C4 as [(N4 & Z4 & _)|(Y4 & d3 & T3 & _ & _ & X4 & A4 & _ & _ & B4)].
  { left. split; [unfold vmm_get_phys; cbn [child vmm_activate_pml4 pages cr3]; fold x4; by rewrite Z4|].
    intros _. unfold vmm_get_phys. fold e4. unfold copies in N4. rewrite andb_true_r in N4. by rewrite N4. }
  assert (P4 : present e4 = true) by (unfold copies in Y4; by rewrite andb_true_r in Y4).
  assert (Q4 : present x4 = true) by (unfold copies in X4; by rewrite andb_true_r in X4).
  destruct (level_case 2 _ d3 T3 (pdpt_idx v) B4 (pdpt_idx_lt v)) as (U3 & C3).
  set (e3 := entry (pages s0) (addr_of e4) (pdpt_idx v)) in *. set (x3 := entry (pages s') d3 (pdpt_idx v)) in *.
  destruct C3 as [(N3 & Z3 & _)|(Y3 & d2 & T2 & _ & _ & X3 & A3 & _ & _ & B3)].
  { left. split; [unfold vmm_get_phys; cbn [child vmm_activate_pml4 pages cr3]; fold x4; rewrite A4, Q4; fold x3; by rewrite Z3|].
    intros [t Ht]. unfold table_at in Ht. cbn [tbl] in Ht. fold e4 in Ht. destruct (is_table 3 e4); [|done]. fold e3 in Ht.
    rewrite <-copies_table, N3 in Ht by lia. done. }
  destruct (level_case 1 _ d2 T2 (pd_idx v) B3 (pd_idx_lt v)) as (U2 & C2).
  set (e2 := entry (pages s0) (addr_of e3) (pd_idx v)) in *. set (x2 := entry (pages s') d2 (pd_idx v)) in *.
  assert (F3 : present e3 = true /\ huge e3 = false).
  { unfold copies in Y3. cbn [Nat.eqb orb] in Y3. by destruct (present e3), (huge e3). }
  assert (G3 : present x3 = true /\ huge x3 = false).
  { unfold copies in X3. cbn [Nat.eqb orb] in X3. by destruct (present x3), (huge x3). }
  destruct F3 as [P3 H3], G3 as [Q3 K3].
  destruct C2 as [(N2 & Z2 & _)|(Y2 & d1 & T1 & _ & _ & X2 & A2 & _ & _ & B2)].
  { left. split.
    { unfold vmm_get_phys; cbn [child vmm_activate_pml4 pages cr3]; fold x4; rewrite A4, Q4; fold x3; rewrite Q3, K3, A3.
      fold x2. by rewrite Z2. }
    intros [t Ht]. unfold table_at in Ht. cbn [tbl] in Ht. fold e4 in Ht. destruct (is_table 3 e4); [|done]. fold e3 in Ht.
    destruct (is_table 2 e3); [|done]. fold e2 in Ht. rewrite <-copies_table, N2 in Ht by lia. done. }
  destruct (level_case 0 _ d1 T1 (pt_idx v) B2 (pt_idx_lt v)) as (U1 & C1).
  set (e1 := entry (pages s0) (addr_of e2) (pt_idx v)) in *. set (x1 := entry (pages s') d1 (pt_idx v)) in *.
  assert (F2 : present e2 = true /\ huge e2 = false).
  { unfold copies in Y2. cbn [Nat.eqb orb] in Y2. by destruct (present e2), (huge e2). }
  assert (G2 : present x2 = true /\ huge x2 = false).
  { unfold copies in X2. cbn [Nat.eqb orb] in X2. by destruct (present x2), (huge x2). }
  destruct F2 as [P2 H2], G2 as [Q2 K2].
  assert (Ec : vmm_get_phys v c = if negb (present x1) then 0 else Z.lor (addr_of x1) (Z.land v 0xFFF)).
  { unfold vmm_get_phys; cbn [child vmm_activate_pml4 pages cr3]. fold x4. rewrite A4, Q4. fold x3. rewrite Q3, K3, A3.
    fold x2. rewrite Q2, K2, A2. done. }
  assert (Es : vmm_get_phys v s0 = if negb (present e1) then 0 else Z.lor (addr_of e1) (Z.land v 0xFFF)).
  { unfold vmm_get_phys. fold e4. rewrite P4. fold e3. rewrite P3, H3. fold e2. rewrite P2, H2. done. }
  destruct C1 as [(N1 & Z1 & _)|(Y1 & d & T0 & _ & _ & X1 & A1 & Hok & _ & B1)].
  { left. split; [by rewrite Ec, Z1|]. intros _. rewrite copies_0 in N1. by rewrite Es, N1. }
  right. exists (addr_of e2), d. rewrite copies_0 in Y1, X1. destruct Hok as [Hd0 Hda].
  split.
  - unfold table_at, pt_path. cbn [tbl]. fold e4. unfold is_table at 1. rewrite P4. fold e3. unfold is_table at 1. rewrite P3, H3.
    fold e2. unfold is_table at 1. by rewrite P2, H2.
  - exact Y1.
  - rewrite Es, Y1. cbn [negb]. destruct (addr_of_aligned e1). by apply frame_or.
  - rewrite Ec, X1, A1. cbn [negb]. apply frame_or; lia.
  - unfold page_path. cbn [node]. fold x4. rewrite X4, A4. fold x3. rewrite X3, A3. fold x2. rewrite X2, A2. fold x1.
    rewrite copies_0, X1. by rewrite A1.
  - exists d1. unfold table_at. cbn [tbl child vmm_activate_pml4 pages cr3]. fold x4. unfold is_table at 1. rewrite Q4, A4. fold x3.
    unfold is_table at 1. rewrite Q3, K3, A3. fold x2. unfold is_table at 1. by rewrite Q2, K2, A2.
  - destruct B1 as [_ Hb]. exact Hb.
Qed.
End Forked.

(** ** The windows of parent and child *)

Lemma path_addr a b c j :
  (a < 256)%nat -> (b < 512)%nat -> (c < 512)%nat -> (j < 512)%nat ->
  exists v, 0 <= v < LOW_HALF /\ v mod 4096 = 0 /\ page_path v = [a; b; c; j].
Proof.
  intros Ha Hb Hc Hj.
  set (v := Z.of_nat a * 2 ^ 39 + Z.of_nat b * 2 ^ 30 + Z.of_nat c * 2 ^ 21 + Z.of_nat j * 4096).
  exists v. unfold LOW_HALF. split; [unfold v; lia|]. split; [unfold v; zify_div|].
  unfold page_path, pml4_idx, pdpt_idx, pd_idx, pt_idx.
  pose proof (idx_field v 39 ltac:(lia)) as E4. pose proof (idx_field v 30 ltac:(lia)) as E3.
  pose proof (idx_field v 21 ltac:(lia)) as E2. pose proof (idx_field v 12 ltac:(lia)) as E1.
  assert ((v / 2 ^ 39) mod 512 = Z.of_nat a) as X4 by (unfold v; zify_div).
  assert ((v / 2 ^ 30) mod 512 = Z.of_nat b) as X3 by (unfold v; zify_div).
  assert ((v / 2 ^ 21) mod 512 = Z.of_nat c) as X2 by (unfold v; zify_div).
  assert ((v / 2 ^ 12) mod 512 = Z.of_nat j) as X1 by (unfold v; zify_div).
  rewrite X4 in E4. rewrite X3 in E3. rewrite X2 in E2. rewrite X1 in E1.
  apply Nat2Z.inj in E4, E3, E2, E1. by rewrite E4, E3, E2, E1.
Qed.

Lemma table_index s q j t : wf s -> table_at s (q ++ [j]) = Some t -> (j < 512)%nat.
Proof.
  intros Hwf. rewrite table_at_snoc. destruct (table_at s q) as [u|] eqn:Eu; [|done].
  intros H. destruct (decide (j < 512)%nat) as [|Hj]; [done|]. exfalso.
  rewrite (full_bound (pages s) u j (wf_pages s Hwf _ _ Eu)) in H by lia.
  unfold is_table in H. change (present 0) with false in H. cbn [andb] in H. by rewrite andb_false_r in H.
Qed.

Lemma present_phys s v t :
  table_at s (pt_path v) = Some t -> present (entry (pages s) t (pt_idx v)) = true ->
  vmm_get_phys v s = addr_of (entry (pages s) t (pt_idx v)) + v mod 4096.
Proof.
  intros Ht Hp. destruct (reached_pt s _ _ _ t Ht) as (P4 & P3 & H3 & P2 & H2).
  rewrite get_phys_xlate. unfold xlate. rewrite P4, P3, H3, P2, H2. cbn [negb].
  unfold read_at. unfold pt_path in Ht. rewrite Ht, Hp. cbn [negb]. destruct (addr_of_aligned (entry (pages s) t (pt_idx v))).
  by apply frame_or.
Qed.

Section Window.
Context (s0 : vm) (R : list Z) (Hwin : window 0 LOW_HALF R s0).

Lemma win_wf : wf s0.
Proof. apply (wf_unreserve R). apply (wd_wf _ _ _ _ Hwin). Qed.

(** A page that a page table of the user half maps has a frame of its own. *)
Lemma window_frame v t :
  0 <= v < LOW_HALF -> table_at s0 (pt_path v) = Some t -> present (entry (pages s0) t (pt_idx v)) = true ->
  addr_of (entry (pages s0) t (pt_idx v)) ∈ R /\ addr_of (entry (pages s0) t (pt_idx v)) <> 0.
Proof.
  intros Hv Ht Hp. set (f := addr_of (entry (pages s0) t (pt_idx v))).
  set (b := v - v mod 4096). assert (Hb : win_page 0 LOW_HALF b) by (unfold b, LOW_HALF in *; split; zify_div).
  assert (Hph : forall o, 0 <= o < 4096 -> vmm_get_phys (b + o) s0 = f + o).
  { intros o Ho. assert (Hsp : same_page (b + o) v) by (unfold same_page, b; f_equal; zify_div).
    apply same_page_idx in Hsp as (E4 & E3 & E2 & E1).
    rewrite (present_phys s0 (b + o) t); unfold pt_path; rewrite ?E4, ?E3, ?E2, ?E1; [|done..].
    fold f. f_equal. unfold b. zify_div. }
  assert (Hb0 : vmm_get_phys b s0 = f) by (rewrite <-(Z.add_0_r b), Hph by lia; lia).
  assert (Hf : f <> 0).
  { intros E. apply (wd_base _ _ _ _ Hwin (b + 1)).
    - destruct Hb as [Hb1 Hb2]. unfold LOW_HALF in *. zify_div.
    - rewrite Hph by lia. rewrite E. done.
    - replace (b + 1 - (b + 1) mod 4096) with b by (destruct Hb; zify_div). by rewrite Hb0. }
  split; [|done]. rewrite <-Hb0. apply (wd_page _ _ _ _ Hwin b Hb). by rewrite Hb0.
Qed.

Lemma window_leaves_used : leaves_used s0.
Proof.
  intros path t j Ht Hlen Hu Hp. pose proof win_wf as Hwf.
  assert (Hj : (j < 512)%nat).
  { destruct (decide (j < 512)%nat) as [|Hj]; [done|].
    rewrite (full_bound (pages s0) t j (wf_pages s0 Hwf _ _ Ht)) in Hp by lia. done. }
  destruct path as [|a [|b [|c [|]]]]; try done.
  pose proof (table_index s0 [a; b] c t Hwf Ht) as Hc.
  destruct (table_at_prefix s0 [a; b] [c] t Ht) as [t2 Ht2]. pose proof (table_index s0 [a] b t2 Hwf Ht2) as Hb.
  destruct (path_addr a b c j Hu Hb Hc Hj) as (v & Hv & _ & Hpp). unfold page_path in Hpp. injection Hpp as E4 E3 E2 E1.
  rewrite <-E1 in *. destruct (window_frame v t Hv) as [Hin _]; [by unfold pt_path; rewrite E4, E3, E2|done|].
  destruct (reserved_pages _ _ (wd_wf _ _ _ _ Hwin)) as (_ & _ & Hf & _). by apply Hf.
Qed.

Context (s' : vm) (root : Z) (T : list Z) (Hfk : forked s0 s' root T).
#[local] Notation c := (child s' root).

(** The parent's window is the one it had. *)
Lemma parent_window : window 0 LOW_HALF R s'.
Proof.
  destruct (parent_same s0 s' root T win_wf Hfk) as [Hta Hph]. destruct Hwin as [Hw Ht Hp Hi Hb].
  split; try setoid_rewrite Hph; try done.
  - destruct (reserved_pages _ _ Hw) as (HndR & HokR & HfR & HtR). destruct (fk_NoDup s0 s' root T win_wf Hfk) as [Hnd Hok].
    apply wf_reserve_intro; [|done|done|].
    + destruct win_wf as [W1 W2 W3 W4]. split.
      * intros q t. rewrite Hta. intros Hq. destruct (W1 q t Hq) as (l & Hl & Hll). exists l. split; [|done].
        by rewrite (fk_table s0 s' root T win_wf Hfk q t Hq).
      * intros p q t. rewrite !Hta. apply W2.
      * intros q t. rewrite Hta. intros Hq Hin. apply (W3 q t Hq). rewrite (fk_free _ _ _ _ Hfk). right. apply elem_of_app. by right.
      * apply NoDup_cons in Hnd as [_ Hnd]. apply NoDup_app in Hnd as (_ & _ & Hnd). split; [done|].
        apply Forall_cons in Hok as [_ Hok]. by apply Forall_app in Hok as [_ ?].
    + apply Forall_forall. intros p Hpr. split.
      * intros Hin. apply (HfR p Hpr). rewrite (fk_free _ _ _ _ Hfk). right. apply elem_of_app. by right.
      * intros q t. rewrite Hta. by apply HtR.
  - intros v Hv. rewrite Hph. destruct (Ht v Hv) as [?|[t Hm]]; [by left|right]. exists t. by rewrite Hta.
Qed.

(** A user page of the child, with its frame. *)
Lemma child_page v :
  0 <= v < LOW_HALF ->
  (vmm_get_phys v c = 0 /\ vmm_get_phys v s0 = 0) \/ exists t d, mapped_both s0 s' root v t d.
Proof.
  intros Hv. destruct (child_xlate s0 s' root T Hfk v Hv) as [[Hc Hs]|H]; [left|by right].
  split; [done|]. destruct (wd_tame _ _ _ _ Hwin v Hv) as [?|?]; [done|by apply Hs].
Qed.

Lemma child_frame v t d : 0 <= v < LOW_HALF -> mapped_both s0 s' root v t d -> d ∈ frames s' root /\ page_ok d.
Proof.
  intros Hv [_ _ _ _ Hn _ _]. pose proof (low_idx v Hv) as Hi.
  assert (Hp : path_in 3 (page_path v)) by (intros _; exact Hi). split.
  - eapply (node_leaves 3); [lia|apply (fk_low _ _ _ _ Hfk)|apply (fk_full _ _ _ _ Hfk)|exact Hp|done|exact Hn].
  - eapply (node_in 3); [lia|apply (fk_low _ _ _ _ Hfk)|apply (fk_full _ _ _ _ Hfk)|exact Hp|done|exact Hn].
Qed.

Lemma same_page_path v w : same_page v w -> page_path v = page_path w.
Proof. intros (E4 & E3 & E2 & E1)%same_page_idx. unfold page_path. by rewrite E4, E3, E2, E1. Qed.

Lemma child_window : window 0 LOW_HALF (frames s' root) c.
Proof.
  pose proof win_wf as Hwf. split; [apply (child_reserved s0 s' root T Hwf Hfk)| | | |].
  - intros v Hv. destruct (child_page v Hv) as [[? _]|(t & d & H)]; [by left|right]. apply (mb_mapped _ _ _ _ _ _ H).
  - intros a [Ha Hal] Hnz. destruct (child_page a Ha) as [[? _]|(t & d & H)]; [done|].
    destruct (child_frame a t d Ha H) as [Hin [Hd0 Hd]]. rewrite (mb_child _ _ _ _ _ _ H), Hal, Z.add_0_r.
    split; [done|]. intros o Ho. assert (Hao : 0 <= a + o < LOW_HALF) by (unfold LOW_HALF in *; zify_div).
    assert (Hsp : page_path (a + o) = page_path a) by (apply same_page_path; unfold same_page; f_equal; zify_div).
    destruct (child_page (a + o) Hao) as [[_ E]|(t' & d' & H')].
    + destruct (window_frame a t Ha (mb_table _ _ _ _ _ _ H) (mb_present _ _ _ _ _ _ H)) as [_ Hf].
      pose proof (mb_parent _ _ _ _ _ _ H) as Ep. rewrite Hal, Z.add_0_r in Ep.
      destruct (wd_page _ _ _ _ Hwin a) as [_ Hoff]; [by split|by rewrite Ep|].
      rewrite (Hoff o Ho), Ep in E. destruct (addr_of_aligned (entry (pages s0) t (pt_idx a))). lia.
    + rewrite (mb_child _ _ _ _ _ _ H'). pose proof (mb_node _ _ _ _ _ _ H') as Hn'.
      rewrite Hsp, (mb_node _ _ _ _ _ _ H) in Hn'. injection Hn' as <-. f_equal. zify_div.
  - intros a b [Ha Hal] [Hb Hbl] Hnz E. destruct (child_page a Ha) as [[? _]|(t & d & H)]; [done|].
    destruct (child_frame a t d Ha H) as [_ [Hd0 _]].
    rewrite (mb_child _ _ _ _ _ _ H), Hal, Z.add_0_r in E.
    destruct (child_page b Hb) as [[E0 _]|(t' & d' & H')]; [rewrite E0 in E; lia|].
    rewrite (mb_child _ _ _ _ _ _ H'), Hbl, Z.add_0_r in E. subst d'.
    destruct (fk_NoDup s0 s' root T Hwf Hfk) as [Hnd _]. apply NoDup_cons in Hnd as [_ Hnd]. apply NoDup_app in Hnd as (HndT & _).
    assert (page_path a = page_path b) as Epp.
    { pose proof (low_idx a Ha) as Ia. pose proof (low_idx b Hb) as Ib.
      exact (node_inj 3 (pages s0) (pages s') (cr3 s0) root T (page_path a) (page_path b) d ltac:(lia) (fk_low _ _ _ _ Hfk) (fk_full _ _ _ _ Hfk)
        HndT (fun _ => Ia) (fun _ => Ib) ltac:(done) ltac:(done) (mb_node _ _ _ _ _ _ H) (mb_node _ _ _ _ _ _ H')). }
    unfold page_path in Epp. injection Epp as E4 E3 E2 E1.
    assert (Hsp : same_page a b) by (by apply same_page_idx). unfold same_page in Hsp. unfold LOW_HALF in *. zify_div.
  - intros x Hx Hnz. assert (Hb : 0 <= x - x mod 4096 < LOW_HALF) by (unfold LOW_HALF in *; zify_div).
    destruct (child_page x Hx) as [[? _]|(t & d & H)]; [done|].
    destruct (child_page _ Hb) as [[E E0]|(t' & d' & H')].
    + exfalso. apply (wd_base _ _ _ _ Hwin x Hx); [|done].
      destruct (window_frame x t Hx (mb_table _ _ _ _ _ _ H) (mb_present _ _ _ _ _ _ H)) as [_ Hf].
      rewrite (mb_parent _ _ _ _ _ _ H). destruct (addr_of_aligned (entry (pages s0) t (pt_idx x))).
      pose proof (Z.mod_pos_bound x 4096). lia.
    + rewrite (mb_child _ _ _ _ _ _ H'). destruct (child_frame _ _ _ Hb H') as [_ [? _]].
      pose proof (Z.mod_pos_bound (x - x mod 4096) 4096). lia.
Qed.

(** The child reads every user byte the parent reads. *)
Lemma child_load v : 0 <= v < LOW_HALF -> load_byte v c = load_byte v s0.
Proof.
  intros Hv. unfold load_byte. destruct (child_page v Hv) as [[E E0]|(t & d & H)]; [by rewrite E, E0|].
  destruct (child_frame v t d Hv H) as [_ [Hd0 Hda]].
  destruct (window_frame v t Hv (mb_table _ _ _ _ _ _ H) (mb_present _ _ _ _ _ _ H)) as [_ Hf].
  rewrite (mb_child _ _ _ _ _ _ H), (mb_parent _ _ _ _ _ _ H). destruct (addr_of_aligned (entry (pages s0) t (pt_idx v))) as [Hfa Hfn].
  set (f := addr_of (entry (pages s0) t (pt_idx v))) in *. assert (Ho : 0 <= v mod 4096 < 4096) by (by apply Z.mod_pos_bound).
  destruct (Z.eqb_spec (d + v mod 4096) 0); [lia|]. destruct (Z.eqb_spec (f + v mod 4096) 0); [lia|].
  destruct (frame_parts d _ Hda Ho) as (-> & -> & ->). destruct (frame_parts f _ Hfa Ho) as (-> & -> & ->).
  do 2 f_equal. unfold child. cbn [vmm_activate_pml4 pages].
  apply (mb_same _ _ _ _ _ _ H). zify_div.
Qed.

(** The parent reads what it read. *)
Lemma parent_load v : 0 <= v < LOW_HALF -> load_byte v s' = load_byte v s0.
Proof.
  intros Hv. unfold load_byte. destruct (parent_same s0 s' root T win_wf Hfk) as [_ Hph]. rewrite Hph.
  destruct (Z.eqb_spec (vmm_get_phys v s0) 0) as [|Hnz]; [done|].
  destruct (window_addr 0 LOW_HALF low_win R s0 v Hwin Hv Hnz) as (Hp & Hf & HfR & Hal & Ea).
  destruct (frame_parts _ (v mod 4096) Hal ltac:(by apply Z.mod_pos_bound)) as (E1 & E2 & E3).
  rewrite Ea, E1, E2, E3. do 2 f_equal. apply entry_same, (fk_pages _ _ _ _ Hfk).
  by apply (reserved_pages _ _ (wd_wf _ _ _ _ Hwin)).
Qed.
End Window.

(** ** Stores of one process, seen from the other *)

Lemma store_byte_changes a b s s2 :
  store_byte a b s = Some s2 ->
  cr3 s2 = cr3 s /\ forall g, g <> page_base (vmm_get_phys a s) -> pages s2 !! g = pages s !! g.
Proof.
  unfold store_byte. destruct (Z.eqb_spec (vmm_get_phys a s) 0); [done|]. intros [= <-]. split; [done|].
  intros g Hg. by rewrite set_entry_page, decide_False.
Qed.

Lemma store_frame lo hi R a b s s2 :
  win_ok lo hi -> window lo hi R s -> lo <= a < hi -> store_byte a b s = Some s2 ->
  page_base (vmm_get_phys a s) ∈ R.
Proof.
  intros Hwo Hwin Ha E. assert (Hnz : vmm_get_phys a s <> 0).
  { intros E0. unfold store_byte in E. by rewrite E0 in E. }
  destruct (window_addr lo hi Hwo R s a Hwin Ha Hnz) as (_ & _ & Hin & Hal & ->).
  destruct (frame_parts _ (a mod 4096) Hal ltac:(by apply Z.mod_pos_bound)) as (-> & _). done.
Qed.

(** A page that is no table and no frame of a window may change. *)
Lemma load_other lo hi R w w' f v :
  win_ok lo hi -> window lo hi R w -> lo <= v < hi -> cr3 w' = cr3 w ->
  (forall g, g <> f -> pages w' !! g = pages w !! g) -> f ∉ R ->
  (forall q t, table_at w q = Some t -> t <> f) -> load_byte v w' = load_byte v w.
Proof.
  intros Hwo Hwin Hv Hc Hp HfR Hft.
  destruct (same_tables w w' Hc ltac:(intros q t Ht; apply Hp; by eapply Hft)) as [_ Hph].
  unfold load_byte. rewrite Hph. destruct (Z.eqb_spec (vmm_get_phys v w) 0) as [|Hnz]; [done|].
  destruct (window_addr lo hi Hwo R w v Hwin Hv Hnz) as (_ & _ & Hin & Hal & Ea).
  destruct (frame_parts _ (v mod 4096) Hal ltac:(by apply Z.mod_pos_bound)) as (E1 & E2 & E3).
  rewrite Ea, E1, E2, E3. do 2 f_equal. apply entry_same, Hp. intros E. by rewrite E in Hin.
Qed.

(** The parent runs again: its page table is activated in the state [s]. *)
Definition run_as (pml4 : Z) (s : vm) : vm := vmm_activate_pml4 pml4 s.

Section Isolation.
Context (s0 : vm) (R : list Z) (Hwin : window 0 LOW_HALF R s0).
Context (s' : vm) (root : Z) (T : list Z) (Hfk : forked s0 s' root T).
#[local] Notation c := (child s' root).

Lemma child_store_hidden a b c' v :
  0 <= a < LOW_HALF -> store_byte a b c = Some c' -> 0 <= v < LOW_HALF ->
  load_byte v (run_as (cr3 s0) c') = load_byte v s0.
Proof.
  intros Ha E Hv. pose proof (win_wf s0 R Hwin) as Hwf.
  pose proof (store_frame 0 LOW_HALF _ a b c c' low_win (child_window s0 R Hwin s' root T Hfk) Ha E) as Hin.
  apply (frames_in s0 s' root T Hfk) in Hin. destruct (store_byte_changes a b c c' E) as [_ Hp].
  rewrite <-(parent_load s0 R Hwin s' root T Hfk v Hv).
  assert (Hfree : page_base (vmm_get_phys a c) ∈ free_pages_stack s0).
  { rewrite (fk_free _ _ _ _ Hfk). right. apply elem_of_app. by left. }
  apply (load_other 0 LOW_HALF R s' _ (page_base (vmm_get_phys a c)) v low_win); try done.
  - apply (parent_window s0 R Hwin s' root T Hfk).
  - cbn [run_as vmm_activate_pml4 cr3]. by rewrite (fk_cr3 _ _ _ _ Hfk).
  - intros Hr. by apply (reserved_pages _ _ (wd_wf _ _ _ _ Hwin)) in Hr.
  - intros q t Ht ->. destruct (parent_same s0 s' root T Hwf Hfk) as [Hta _]. rewrite Hta in Ht.
    by apply (wf_free s0 Hwf) in Ht.
Qed.

Lemma parent_store_hidden a b p' v :
  0 <= a < LOW_HALF -> store_byte a b s' = Some p' -> 0 <= v < LOW_HALF ->
  load_byte v (run_as root p') = load_byte v s0.
Proof.
  intros Ha E Hv. pose proof (win_wf s0 R Hwin) as Hwf.
  pose proof (store_frame 0 LOW_HALF _ a b s' p' low_win (parent_window s0 R Hwin s' root T Hfk) Ha E) as Hin.
  destruct (store_byte_changes a b s' p' E) as [_ Hp].
  rewrite <-(child_load s0 R Hwin s' root T Hfk v Hv).
  destruct (reserved_pages _ _ (wd_wf _ _ _ _ Hwin)) as (_ & _ & Hf & Ht0). specialize (Hf _ Hin).
  rewrite (fk_free _ _ _ _ Hfk) in Hf.
  apply (load_other 0 LOW_HALF (frames s' root) c _ (page_base (vmm_get_phys a s')) v low_win); try done.
  - apply (child_window s0 R Hwin s' root T Hfk).
  - intros HfT%(frames_in s0 s' root T Hfk). apply Hf. right. apply elem_of_app. by left.
  - intros q t Ht ->. destruct (child_table s0 s' root T Hwf Hfk q _ Ht) as [(_ & E0)|[(_ & _ & _ & HT & _)|(_ & _ & E0)]].
    + apply Hf. rewrite E0. by left.
    + apply Hf. right. apply elem_of_app. by left.
    + by apply (Ht0 _ _ _ Hin) in E0.
Qed.
End Isolation.

(** ** Theorems *)

(** C8. After a copy that returns 0 the child's address space reads every user
    byte as the parent's does, its kernel half translates as the parent's, its
    user pages have frames of their own which are none of the parent's, and both
    spaces are well formed; the parent's space and bytes are as before, and the
    copy took one page for the PML4 and one for each table and frame. *)
Theorem fork_copies R s0 root s1 s' :
  window 0 LOW_HALF R s0 ->
  vmm_new_user_pml4 s0 = (root, s1) -> root <> 0 -> copy_user_as (cr3 s0) root s1 = (true, s') ->
  let child := vmm_activate_pml4 root s' in
  exists F, window 0 LOW_HALF F child /\ window 0 LOW_HALF R s' /\ (forall f, f ∈ F -> f ∉ R) /\
    (forall v, 0 <= v < LOW_HALF -> load_byte v child = load_byte v s0 /\ load_byte v s' = load_byte v s0) /\
    (forall v, (256 <= pml4_idx v)%nat -> vmm_get_phys v child = vmm_get_phys v s0) /\
    length (free_pages_stack s0) = S (tree_size 3 (pages s0) (cr3 s0) + length (free_pages_stack s')).
Proof.
  intros Hwin En Hr Ec child. pose proof (win_wf s0 R Hwin) as Hwf.
  pose proof (new_pml4_fresh s0 root s1 Hwf En Hr) as Hfp.
  destruct (fork_forked s0 root s1 s' Hwf (window_leaves_used s0 R Hwin) Hfp Ec) as [T Hfk].
  exists (frames s' root). split; [by eapply child_window|]. split; [by eapply parent_window|]. split.
  { intros f Hf HR. apply (frames_in s0 s' root T Hfk) in Hf.
    apply (reserved_pages _ _ (wd_wf _ _ _ _ Hwin)) in HR. apply HR. rewrite (fk_free _ _ _ _ Hfk).
    right. apply elem_of_app. by left. }
  split; [intros v Hv; split; [by eapply child_load|by eapply parent_load]|]. split.
  - intros v Hv. rewrite !get_phys_xlate. unfold read_at.
    assert (Hhi : forall r, table_at child (pml4_idx v :: r) = table_at s0 (pml4_idx v :: r)).
    { intros r. exact (child_high s0 s' root T Hwf Hfk (pml4_idx v) r Hv). }
    assert (He : forall q t j, table_at s0 q = Some t -> entry (pages child) t j = entry (pages s0) t j).
    { intros q t j Ht. apply entry_same. exact (fk_table s0 s' root T Hwf Hfk q t Ht). }
    assert (E4 : entry (pages child) root (pml4_idx v) = entry (pages s0) (cr3 s0) (pml4_idx v)).
    { exact (fk_high _ _ _ _ Hfk (pml4_idx v) Hv). }
    rewrite !Hhi. unfold table_at at 1 5. cbn [tbl child vmm_activate_pml4 cr3]. fold child. rewrite E4.
    destruct (table_at s0 [pml4_idx v]) as [t3|] eqn:E3; [rewrite (He _ _ _ E3)|];
      (destruct (table_at s0 [pml4_idx v; pdpt_idx v]) as [t2|] eqn:E2; [rewrite (He _ _ _ E2)|]);
      (destruct (table_at s0 [pml4_idx v; pdpt_idx v; pd_idx v]) as [t1|] eqn:E1; [rewrite (He _ _ _ E1)|]); done.
  - rewrite (fk_free _ _ _ _ Hfk). cbn [length]. rewrite length_app.
    by rewrite (copied_size _ _ _ _ _ _ (fk_low _ _ _ _ Hfk)).
Qed.

(** C9. Parent and child do not share memory: after the copy, a byte the child
    stores at a user address is read back by the child and leaves every user byte
    of the parent as it was before the fork, and a byte the parent stores leaves
    every user byte of the child as it was. *)
Theorem fork_isolated R s0 root s1 s' :
  window 0 LOW_HALF R s0 ->
  vmm_new_user_pml4 s0 = (root, s1) -> root <> 0 -> copy_user_as (cr3 s0) root s1 = (true, s') ->
  forall a b, 0 <= a < LOW_HALF -> 0 <= b < 256 ->
  (forall c, store_byte a b (vmm_activate_pml4 root s') = Some c ->
     forall v, 0 <= v < LOW_HALF ->
       load_byte v c = (if decide (v = a) then Some b else load_byte v s0) /\
       load_byte v (vmm_activate_pml4 (cr3 s0) c) = load_byte v s0) /\
  (forall p, store_byte a b s' = Some p ->
     forall v, 0 <= v < LOW_HALF -> load_byte v (vmm_activate_pml4 root p) = load_byte v s0).
Proof.
  intros Hwin En Hr Ec a b Ha Hb. pose proof (win_wf s0 R Hwin) as Hwf.
  pose proof (new_pml4_fresh s0 root s1 Hwf En Hr) as Hfp.
  destruct (fork_forked s0 root s1 s' Hwf (window_leaves_used s0 R Hwin) Hfp Ec) as [T Hfk].
  pose proof (child_window s0 R Hwin s' root T Hfk) as Hcw. split.
  - intros c Es v Hv. split; [|exact (child_store_hidden s0 R Hwin s' root T Hfk a b c v Ha Es Hv)].
    destruct (store_byte_window 0 LOW_HALF low_win _ _ a b c Hcw Ha Hb) as (_ & _ & _ & Hl); [|exact Es|].
    + assert (Hnz : vmm_get_phys a (child s' root) <> 0).
      { intros E0. unfold store_byte in Es. unfold child in E0. by rewrite E0 in Es. }
      destruct (window_addr 0 LOW_HALF low_win _ _ a Hcw Ha Hnz) as (_ & _ & Hin & _).
      destruct (leaves_node _ _ _ _ Hin) as (path & Hn & Hlen & Hp).
      destruct (node_in 3 _ _ _ _ _ path _ ltac:(lia) (fk_low _ _ _ _ Hfk) (fk_full _ _ _ _ Hfk) Hp
        ltac:(by intros ->) Hn) as (_ & Hf & _). exact Hf.
    + rewrite (Hl v Hv). case_decide; [done|]. by eapply child_load.
  - intros p Ep v Hv. exact (parent_store_hidden s0 R Hwin s' root T Hfk a b p v Ha Ep Hv).
Qed.

(** Fork succeeds when there is memory: one free page for the PML4 and one
    for each table and frame of the parent's user half are enough. *)
Theorem fork_succeeds R s0 :
  window 0 LOW_HALF R s0 ->
  (tree_size 3 (pages s0) (cr3 s0) < length (free_pages_stack s0))%nat ->
  exists root s1 s', vmm_new_user_pml4 s0 = (root, s1) /\ root <> 0 /\
    copy_user_as (cr3 s0) root s1 = (true, s').
Proof.
  intros Hwin Hsz. pose proof (win_wf s0 R Hwin) as Hwf.
  destruct (vmm_new_user_pml4 s0) as [root s1] eqn:En. exists root, s1.
  assert (Hr : root <> 0).
  { unfold vmm_new_user_pml4 in En. destruct (wf_stack s0 Hwf) as [_ Hok]. unfold pmm_alloc in En.
    destruct (free_pages_stack s0) as [|p r]; [cbn [length] in Hsz; lia|]. apply Forall_cons in Hok as [[Hp _] _].
    destruct (Z.eqb_spec p 0); [lia|]. apply (f_equal fst) in En. cbn [fst] in En. lia. }
  pose proof (new_pml4_fresh s0 root s1 Hwf En Hr) as Hfp. exists (snd (copy_user_as (cr3 s0) root s1)).
  split; [done|]. split; [done|]. unfold copy_user_as.
  enough (Ht : fst (copy_table 3 (cr3 s0) root s1) = true).
  { destruct (copy_table 3 (cr3 s0) root s1) as [ok s']. cbn [fst snd] in *. by rewrite Ht. }
  apply (copy_table_enough s0 Hwf (window_leaves_used s0 R Hwin) 3 []); [lia|done|done|done|apply Hfp|by eapply fresh_low|].
  rewrite (fp_free _ _ _ Hfp) in Hsz. cbn [length] in Hsz. lia.
Qed.

(** *** A parent with one page, in which one byte is set *)

Definition parent_blank : vm := default user_space (snd <$> user_map_pages 0x400000 1 user_space).
Definition parent_space : vm := default parent_blank (store_byte 0x400005 42 parent_blank).

Lemma parent_blank_window : exists R, window 0 LOW_HALF R parent_blank /\ forall f, f ∈ R -> full_page parent_blank f.
Proof.
  destruct (user_map_pages 0x400000 1 user_space) as [[ok s]|] eqn:E.
  2:{ apply (f_equal (fmap fst)) in E. vm_compute in E. discriminate. }
  assert (ok = true) as ->.
  { apply (f_equal (fmap fst)) in E. vm_compute in E. congruence. }
  assert (Eb : parent_blank = s) by (unfold parent_blank; by rewrite E). rewrite Eb. clear Eb.
  assert (H0 : window 0 LOW_HALF [] user_space).
  { apply window_empty; [apply user_space_wf|]. intros a _. apply user_space_empty. }
  unfold user_map_pages in E.
  destruct (map_pages_loop_spec _ 0 0x400000 1 [] user_space true s (wd_wf _ _ _ _ H0) ltac:(lia) eq_refl
    ltac:(lia) ltac:(lia) ltac:(intros v _; left; apply user_space_empty) E) as (F & [Hst Hwf Hfree Hz Hfr Hx Hd]).
  exists (F ++ []). split.
  - apply (window_map 0 LOW_HALF [] 0x400000 F user_space s low_win H0 eq_refl); try done.
    unfold LOW_HALF. lia.
  - intros f Hf. rewrite app_nil_r in Hf. rewrite Forall_forall in Hz. exists zero_page. split; [by apply Hz|done].
Qed.

Lemma parent_space_window : exists R, window 0 LOW_HALF R parent_space.
Proof.
  destruct parent_blank_window as (R & Hwin & Hfull). exists R.
  assert (Hnz : vmm_get_phys 0x400000 parent_blank <> 0) by (vm_compute; discriminate).
  destruct (store_byte 0x400005 42 parent_blank) as [s|] eqn:E; cycle 1.
  { apply (f_equal (fun o => match o with Some _ => true | None => false end)) in E. vm_compute in E. discriminate. }
  assert (Es : parent_space = s) by (unfold parent_space; by rewrite E). rewrite Es.
  apply (store_byte_window 0 LOW_HALF low_win R parent_blank 0x400005 42 s Hwin); [by unfold LOW_HALF; lia|lia| |done].
  change (0x400005 - 0x400005 mod 4096) with 0x400000. apply Hfull.
  assert (Hp : win_page 0 LOW_HALF 0x400000) by (split; [unfold LOW_HALF; lia|reflexivity]).
  exact (proj1 (wd_page _ _ _ _ Hwin 0x400000 Hp Hnz)).
Qed.

Lemma parent_cr3 : cr3 parent_space = 4096.
Proof. vm_compute. reflexivity. Qed.

Definition forked_space : vm := snd (copy_user_as 4096 (fst (vmm_new_user_pml4 parent_space)) (snd (vmm_new_user_pml4 parent_space))).

Lemma parent_forks :
  exists root s1, vmm_new_user_pml4 parent_space = (root, s1) /\ root <> 0 /\
    copy_user_as (cr3 parent_space) root s1 = (true, forked_space).
Proof.
  unfold forked_space. destruct (vmm_new_user_pml4 parent_space) as [root s1] eqn:En. exists root, s1. split; [done|]. split.
  { apply (f_equal fst) in En. vm_compute in En. subst root. discriminate. }
  cbn [fst snd]. rewrite parent_cr3.
  destruct (copy_user_as 4096 root s1) as [ok s'] eqn:Ec. cbn [snd]. f_equal.
  assert (E : fst (copy_user_as 4096 (fst (vmm_new_user_pml4 parent_space)) (snd (vmm_new_user_pml4 parent_space))) = true)
    by (vm_compute; reflexivity).
  rewrite En in E. cbn [fst snd] in E. by rewrite Ec in E.
Qed.

Lemma fork_copies_witness :
  exists root s1, vmm_new_user_pml4 parent_space = (root, s1) /\
    load_byte 0x400005 (vmm_activate_pml4 root forked_space) = Some 42.
Proof.
  destruct parent_space_window as [R Hwin]. destruct parent_forks as (root & s1 & En & Hr & Ec). exists root, s1.
  split; [exact En|]. destruct (fork_copies R parent_space root s1 forked_space Hwin En Hr Ec) as (F & _ & _ & _ & Hl & _).
  destruct (Hl 0x400005) as [E _]; [unfold LOW_HALF; lia|]. rewrite E. vm_compute. reflexivity.
Defined.

Lemma fork_isolated_witness :
  exists root s1 c, vmm_new_user_pml4 parent_space = (root, s1) /\
    store_byte 0x400005 7 (vmm_activate_pml4 root forked_space) = Some c /\
    load_byte 0x400005 c = Some 7 /\ load_byte 0x400005 (vmm_activate_pml4 4096 c) = Some 42.
Proof.
  destruct parent_space_window as [R Hwin]. destruct parent_forks as (root & s1 & En & Hr & Ec). exists root, s1.
  destruct (store_byte 0x400005 7 (vmm_activate_pml4 root forked_space)) as [c|] eqn:Es; cycle 1.
  { exfalso. apply (f_equal fst) in En. vm_compute in En. subst root.
    apply (f_equal (fun o => match o with Some _ => true | None => false end)) in Es. vm_compute in Es. discriminate. }
  exists c. split; [exact En|]. split; [reflexivity|].
  destruct (fork_isolated R parent_space root s1 forked_space Hwin En Hr Ec 0x400005 7) as [Hc _];
    [unfold LOW_HALF; lia|lia|].
  destruct (Hc c Es 0x400005) as [E1 E2]; [unfold LOW_HALF; lia|].
  rewrite parent_cr3 in E2. rewrite E1, E2. split; [reflexivity|vm_compute; reflexivity].
Defined.

Lemma fork_succeeds_witness :
  exists root s1 s', vmm_new_user_pml4 parent_space = (root, s1) /\ root <> 0 /\
    copy_user_as (cr3 parent_space) root s1 = (true, s').
Proof.
  destruct parent_space_window as [R Hwin]. apply (fork_succeeds R parent_space Hwin).
  apply Nat.ltb_lt. vm_compute. reflexivity.
Defined.
