(* ===== verification/Apart.v ===== *)
(** The address space [vmm_new_user_pml4] makes, and the pages a space under
    construction does not touch: another process's tables and frames stay as they
    are while an image is loaded and a stack is written. *)
From Stdlib Require Import ZArith Lia.
From stdpp Require Import base numbers list gmap.
From S2P Require Import Prelude HeapIface Vmm VmmSpec VmmProps VmmFrame UserMem UserSpace UserMemSpec UserHeap UserHeapMap Elf.
From S2P Require Import ElfProps Fork ForkSpec ForkSpace.

(** The pages [D] are not free, not tables of the active space, and not mapped in
    its user part. *)
Definition apart (D : list Z) (s : vm) : Prop :=
  exists R, window USER_LO USER_HI R s /\ (forall p, p ∈ D -> p ∈ R) /\
    forall a, win_page USER_LO USER_HI a -> vmm_get_phys a s <> 0 -> vmm_get_phys a s ∉ D.

Record kept_apart (D : list Z) (s s' : vm) : Prop := {
  ka_apart : apart D s';
  ka_pages p : p ∈ D -> pages s' !! p = pages s !! p;
  ka_cr3 : cr3 s' = cr3 s;
  ka_free p : p ∈ free_pages_stack s' -> p ∈ free_pages_stack s;
}.

Lemma kept_refl D s : apart D s -> kept_apart D s s.
Proof. by split. Qed.

Lemma kept_trans D s1 s2 s3 : kept_apart D s1 s2 -> kept_apart D s2 s3 -> kept_apart D s1 s3.
Proof. intros [A1 P1 C1 F1] [A2 P2 C2 F2]. split; [done|intros p Hp; by rewrite P2, P1|congruence|auto]. Qed.

(** ** Mapping a page *)

Lemma apart_alloc D s f s1 : apart D s -> pmm_alloc s = (f, s1) -> f = 0 -> s1 = s.
Proof.
  intros (R & Hwin & _) Ea ->.
  destruct (pmm_alloc_wf s 0 s1 (wf_unreserve _ _ (wd_wf _ _ _ _ Hwin)) Ea) as [(_ & -> & _)|([] & _)]; [done|lia].
Qed.

Lemma apart_map D s f s1 va :
  apart D s -> pmm_alloc s = (f, s1) -> f <> 0 -> win_page USER_LO USER_HI va ->
  kept_apart D s (snd (vmm_map_range va f 4096 (Z.lor (Z.lor VMM_PRESENT VMM_WRITE) VMM_USER) s1)).
Proof.
  intros (R & Hwin & HD & Hhid) Ea Hf Hva. pose proof (wd_wf _ _ _ _ Hwin) as Hwf.
  destruct (alloc_holds_still R s f s1 Hwf Ea Hf) as (Hst1 & Hwf1 & _ & Hx1).
  assert (Hwin1 : window USER_LO USER_HI R s1).
  { apply (window_more _ _ R [] s); [done|apply Hst1|apply Hst1|done]. }
  destruct (map_seg_page R va f s1 Hwin1 Hwf1 Hva) as (Hwin2 & Hst2 & Hcur & Hx2). set (s2 := snd _) in *.
  destruct (reserved_pages _ _ Hwf1) as (Hnd & _). apply NoDup_cons in Hnd as [HfR _]. split.
  - exists (f :: R). split; [done|]. split; [intros p Hp; right; by apply HD|].
    intros a Ha. destruct (decide (a = va)) as [->|Hne].
    + destruct Hcur as [-> | ->]; [done|]. intros _ HfD. by apply HfR, HD.
    + rewrite Hx2, Hx1; [by apply Hhid|destruct Ha; done|]. destruct Ha as [_ Ha], Hva as [_ Hva]. zify_div.
  - intros p Hp. rewrite (hs_pages _ _ _ Hst2) by (right; by apply HD). by apply (hs_pages _ _ _ Hst1), HD.
  - rewrite (hs_cr3 _ _ _ Hst2). apply (hs_cr3 _ _ _ Hst1).
  - intros p Hp. destruct (hs_takes _ _ _ Hst1) as [j H1], (hs_takes _ _ _ Hst2) as [k H2].
    eapply takes_sub; [exact H1|]. by eapply takes_sub.
Qed.

(** ** Writing *)

Lemma apart_fill D s f s' :
  apart D s -> (exists a, win_page USER_LO USER_HI a /\ vmm_get_phys a s = f /\ f <> 0) ->
  cr3 s' = cr3 s -> free_pages_stack s' = free_pages_stack s ->
  (forall g, g <> f -> pages s' !! g = pages s !! g) -> kept_apart D s s'.
Proof.
  intros (R & Hwin & HD & Hhid) (a & Ha & <- & Hnz) Hc Hfree Hother.
  destruct (wd_page _ _ _ _ Hwin a Ha Hnz) as [HR _].
  destruct (window_fill _ _ R s _ s' Hwin HR Hc Hfree Hother) as (Hwin' & Hph & _).
  split; [|intros p Hp; apply Hother; intros ->; by eapply Hhid|done|by rewrite Hfree].
  exists R. split; [done|]. split; [done|]. intros b Hb. rewrite Hph. by apply Hhid.
Qed.

Lemma apart_memset D s a s' : apart D s -> win_page USER_LO USER_HI a -> memset_page a s = Some s' -> kept_apart D s s'.
Proof.
  intros Hap Ha. unfold memset_page. destruct (Z.eqb_spec (vmm_get_phys a s) 0) as [|Hnz]; [done|]. intros [= <-].
  apply (apart_fill D s (vmm_get_phys a s)); [done|by exists a|done|done|]. intros g Hg. unfold fill_page. cbn [with_pages pages].
  by rewrite lookup_insert_ne.
Qed.

Lemma apart_store D s a b s' : apart D s -> USER_LO <= a < USER_HI -> store_byte a b s = Some s' -> kept_apart D s s'.
Proof.
  intros Hap Ha. unfold store_byte. destruct (Z.eqb_spec (vmm_get_phys a s) 0) as [|Hnz]; [done|]. intros [= <-].
  pose proof Hap as (R & Hwin & _). destruct (window_addr _ _ user_win R s a Hwin Ha Hnz) as (Hp & Hf & _ & Hal & Ea).
  destruct (frame_parts _ (a mod 4096) Hal ltac:(by apply Z.mod_pos_bound)) as (E1 & _ & _).
  apply (apart_fill D s (vmm_get_phys (a - a mod 4096) s)); [done|by exists (a - a mod 4096)|done|done|].
  intros g Hg. unfold set_entry. cbn [with_pages pages].
  rewrite Ea, E1. by rewrite lookup_alter_ne.
Qed.

Lemma apart_stores D bs s a s' :
  apart D s -> USER_LO <= a -> a + Z.of_nat (length bs) <= USER_HI -> store_bytes a bs s = Some s' -> kept_apart D s s'.
Proof.
  revert a s. induction bs as [|b bs IH]; intros a s Hap Hlo Hhi; cbn [store_bytes length] in *.
  { intros [= <-]. by apply kept_refl. }
  destruct (store_byte a b s) as [s1|] eqn:E; [|done]. cbn [mbind option_bind]. intros E'.
  pose proof (apart_store D s a b s1 Hap ltac:(lia) E) as K1. eapply kept_trans; [exact K1|].
  apply IH in E'; [done|apply K1|lia|lia].
Qed.

(** ** The loops *)

Lemma apart_zero_pages D n a s s' :
  apart D s -> a mod 4096 = 0 -> USER_LO <= a -> a + Z.of_nat n * 4096 <= USER_HI -> zero_pages n a s = Some s' ->
  kept_apart D s s'.
Proof.
  revert a s. induction n as [|n IH]; intros a s Hap Hal Hlo Hhi; cbn [zero_pages]; [intros [= <-]; by apply kept_refl|].
  destruct (memset_page a s) as [s1|] eqn:E; [|done]. cbn [mbind option_bind]. intros E'.
  pose proof (apart_memset D s a s1 Hap ltac:(split; [lia|done]) E) as K1. eapply kept_trans; [exact K1|].
  apply IH in E'; [done|apply K1|zify_div|lia|lia].
Qed.

Lemma apart_map_seg D fuel cur vend s ok s' :
  apart D s -> cur mod 4096 = 0 -> vend mod 4096 = 0 -> USER_LO <= cur -> vend <= USER_HI ->
  map_seg_loop fuel cur vend s = Some (ok, s') -> kept_apart D s s'.
Proof.
  revert cur s. induction fuel as [|fuel IH]; intros cur s Hap Hal Hvend Hlo Hhi; [done|].
  rewrite map_seg_step. destruct (Z.ltb_spec cur vend) as [Hlt|]; [|intros [= _ <-]; by apply kept_refl].
  destruct (pmm_alloc s) as [f s1] eqn:Ea. destruct (Z.eqb_spec f 0) as [Hf|Hf].
  { intros [= _ <-]. rewrite (apart_alloc D s f s1 Hap Ea Hf). by apply kept_refl. }
  pose proof (apart_map D s f s1 cur Hap Ea Hf ltac:(split; [lia|done])) as K1. intros E.
  eapply kept_trans; [exact K1|]. apply IH in E; [done|apply K1|zify_div|done|lia|done].
Qed.

Lemma apart_map_one D s f s1 va s' :
  apart D s -> pmm_alloc s = (f, s1) -> f <> 0 -> win_page USER_LO USER_HI va -> map_one va f s1 = Some s' ->
  kept_apart D s s'.
Proof.
  intros Hap Ea Hf Hva. unfold map_one. intros Hm. pose proof (apart_map D s f s1 va Hap Ea Hf Hva) as K1.
  eapply kept_trans; [exact K1|]. eapply apart_memset; [apply K1|done|exact Hm].
Qed.

Lemma apart_map_pages D fuel p base n s ok s' :
  apart D s -> base mod 4096 = 0 -> USER_LO <= base -> base + n * 4096 <= USER_HI -> 0 <= p ->
  map_pages_loop fuel p base n s = Some (ok, s') -> kept_apart D s s'.
Proof.
  revert p s. induction fuel as [|fuel IH]; intros p s Hap Hal Hlo Hhi Hp; [done|].
  rewrite map_pages_loop_step. destruct (Z.ltb_spec p n) as [Hlt|]; [|intros [= _ <-]; by apply kept_refl].
  destruct (pmm_alloc s) as [f s1] eqn:Ea. destruct (Z.eqb_spec f 0) as [Hf|Hf].
  { intros [= _ <-]. rewrite (apart_alloc D s f s1 Hap Ea Hf). by apply kept_refl. }
  rewrite wrap_small by (unfold USER_LO, USER_HI in *; lia).
  destruct (map_one _ f s1) as [s2|] eqn:Em; [|done]. cbn [mbind option_bind]. intros E.
  pose proof (apart_map_one D s f s1 (base + p * 4096) s2 Hap Ea Hf ltac:(split; [lia|zify_div]) Em) as K1.
  eapply kept_trans; [exact K1|]. apply IH in E; [done|apply K1|done|done|done|lia].
Qed.

(** ** The loader *)

Lemma apart_load_segment D ph data size s ok s' :
  apart D s -> phdr_fits ph -> p_memsz ph <= 2 ^ 28 -> 0 <= size -> load_segment ph data size s = Some (ok, s') ->
  kept_apart D s s'.
Proof.
  intros Hap Hfits Hmem Hsize. unfold load_segment. destruct (seg_aligned ph Hfits) as [Hal1 Hal2].
  destruct (Z.leb_spec (seg_end ph) (seg_start ph)) as [|Hlt]; [intros [= _ <-]; by apply kept_refl|].
  destruct (Z.ltb_spec (seg_start ph) 0x400000) as [|Hlo0]; [intros [= _ <-]; by apply kept_refl|]. pose proof (image_lo_user _ Hlo0) as Hlo.
  destruct (Z.ltb_spec 0x800000000000 (seg_end ph)) as [|Hhi]; [intros [= _ <-]; by apply kept_refl|]. cbn [orb].
  destruct (map_seg_loop _ _ _ s) as [[ok1 s1]|] eqn:Em; [|done]. cbn [mbind option_bind].
  pose proof (apart_map_seg D _ _ _ s ok1 s1 Hap Hal1 Hal2 Hlo Hhi Em) as K1.
  destruct ok1; cbn [negb]; [|intros [= _ <-]; done].
  destruct (zero_pages _ _ s1) as [s2|] eqn:Ez; [|done]. cbn [mbind option_bind].
  apply (apart_zero_pages D) in Ez as K2; [|apply K1|done|done|unfold USER_HI; zify_div].
  pose proof (kept_trans _ _ _ _ K1 K2) as K12.
  destruct (seg_copy ph size Hfits Hsize Hmem Hlt Hhi) as (Hc1 & Hc2 & Hc3).
  destruct (Z.ltb_spec 0 (copy_size ph size)) as [Hc|Hc]; [|intros [= _ <-]; done].
  destruct (image_bytes _ _ data) as [bs|] eqn:Ei; [|done]. cbn [mbind option_bind].
  destruct (image_bytes_spec _ _ _ _ (Z.lt_le_incl _ _ Hc) Ei) as (_ & _ & Hlen & _).
  destruct (store_bytes _ bs s2) as [s3|] eqn:Es; [|done]. intros [= _ <-]. eapply kept_trans; [exact K12|].
  eapply apart_stores; [apply K2| | |exact Es]; unfold USER_LO, USER_HI in *; lia.
Qed.

Lemma apart_load_loop D n i eh data size phs s ok s' :
  Forall is_byte data -> 0 <= size -> phdrs_from n i eh data = Some phs ->
  Forall (fun ph => is_load ph -> p_memsz ph <= 2 ^ 28) phs ->
  apart D s -> load_loop n i eh data size s = Some (ok, s') -> kept_apart D s s'.
Proof.
  intros Hdata Hsize. revert i phs s. induction n as [|n IH]; intros i phs s; simpl.
  { intros _ _ Hap [= _ <-]. by apply kept_refl. }
  destruct (phdr_at (phdr_off eh i) data) as [ph|] eqn:Eph; [|done]. cbn [mbind option_bind].
  pose proof (phdr_at_fits _ _ _ Eph Hdata) as Hfits.
  destruct (phdrs_from n (i + 1) eh data) as [phs'|] eqn:Ep; [|done]. intros [= <-] [Hmem Hall]%Forall_cons Hap.
  case_match; [intros [= _ <-]; by apply kept_refl|].
  destruct (Z.eqb_spec (p_type ph) PT_LOAD) as [Hl|Hl]; cbn [negb]; [|by eapply IH].
  destruct (load_segment ph data size s) as [[ok1 s1]|] eqn:El; [|done]. cbn [mbind option_bind].
  pose proof (apart_load_segment D ph data size s ok1 s1 Hap Hfits (Hmem Hl) Hsize El) as K1.
  destruct ok1; [|intros [= _ <-]; done]. intros E. eapply kept_trans; [exact K1|].
  eapply IH; [exact Ep|done|apply K1|exact E].
Qed.

Lemma apart_elf_load D data size s e s' :
  Forall is_byte data -> apart D s -> elf_load data size s = Some (e, s') -> kept_apart D s s'.
Proof.
  intros Hdata Hap. unfold elf_load, sizeof_header. destruct (Z.ltb_spec size 64); [intros [= _ <-]; by apply kept_refl|].
  destruct (header_at data) as [eh|]; [|done]. cbn [mbind option_bind].
  destruct (header_ok eh); cbn [negb]; [|intros [= _ <-]; by apply kept_refl].
  destruct (check_loop _ 0 0 eh data) as [[]|] eqn:Ec; [|intros [= _ <-]; by apply kept_refl|done].
  cbn [mbind option_bind negb]. destruct (check_loop_phdrs _ _ _ _ _ Ec) as (phs & Ep & _).
  pose proof (check_loop_spec _ _ _ _ _ _ Ep Ec) as Hall.
  destruct (load_loop _ 0 eh data size s) as [[ok s1]|] eqn:El; [|done]. intros [= _ <-].
  eapply apart_load_loop; [done| |exact Ep| |done|exact El]; [lia|].
  eapply Forall_impl; [exact Hall|]. by intros ph [_ ?].
Qed.

(** * The space of a new process next to the caller's: the new PML4 is well formed
    with an empty user half, and the caller's user tables and frames are apart
    from it. *)

(** ** The new space *)

Section Fresh.
Context (s0 s1 : vm) (root : Z) (Hwf : wf s0) (Hfp : fresh_pml4 s0 root s1).

Lemma root_new : root ∈ free_pages_stack s0 /\ forall q t, table_at s0 q = Some t -> t <> root.
Proof.
  rewrite (fp_free _ _ _ Hfp). split; [by left|]. intros q t Ht ->. apply (wf_free s0 Hwf q root Ht).
  rewrite (fp_free _ _ _ Hfp). by left.
Qed.

Lemma fresh_table q t :
  table_at (vmm_activate_pml4 root s1) q = Some t ->
  (q = [] /\ t = root) \/ (q <> [] /\ ~ user_path q /\ table_at s0 q = Some t).
Proof.
  revert t. induction q as [|j q IH] using rev_ind; intros t H; [injection H as <-; by left|]. right.
  split; [by destruct q|]. revert H. rewrite !table_at_snoc.
  destruct (table_at (vmm_activate_pml4 root s1) q) as [t'|] eqn:E; [|done].
  destruct (IH t' eq_refl) as [[-> ->]|(Hne & Hu & H0)].
  - destruct (decide (j < 256)%nat) as [Hj|Hj].
    + cbn [vmm_activate_pml4 pages]. rewrite (fp_low _ _ _ Hfp j Hj). done.
    + destruct (decide (j < 512)%nat) as [Hj2|Hj2].
      * cbn [vmm_activate_pml4 pages]. rewrite (fp_high _ _ _ Hfp j) by lia. intros Ht. split; [simpl; lia|exact Ht].
      * cbn [vmm_activate_pml4 pages]. by rewrite (full_bound _ _ j (co_full _ _ _ (fp_copying _ _ _ Hfp))) by lia.
  - cbn [vmm_activate_pml4 pages].
    rewrite (entry_same _ _ t' j (fp_pages _ _ _ Hfp t' (proj2 root_new _ _ H0))), H0. intros Ht.
    split; [|exact Ht]. by destruct q.
Qed.

Lemma fresh_wf : wf (vmm_activate_pml4 root s1).
Proof.
  destruct root_new as [Hr Hrt]. destruct (wf_stack s0 Hwf) as [Hnd Hok].
  rewrite (fp_free _ _ _ Hfp) in Hnd, Hok. apply NoDup_cons in Hnd as [Hrf Hnd]. apply Forall_cons in Hok as [_ Hok].
  split.
  - intros q t [[-> ->]|(_ & _ & Ht)]%fresh_table; [apply (co_full _ _ _ (fp_copying _ _ _ Hfp))|].
    cbn [vmm_activate_pml4 pages]. rewrite (fp_pages _ _ _ Hfp) by (by eapply Hrt). by eapply wf_pages.
  - intros p q t Hp Hq.
    destruct (fresh_table _ _ Hp) as [[-> E1]|(_ & _ & E1)], (fresh_table _ _ Hq) as [[-> E2]|(_ & _ & E2)]; subst; try done.
    + by destruct (Hrt _ _ E2).
    + by destruct (Hrt _ _ E1).
    + by eapply wf_inj.
  - intros q t [[-> ->]|(_ & _ & Ht)]%fresh_table; [done|]. intros Hin. apply (wf_free s0 Hwf q t Ht).
    rewrite (fp_free _ _ _ Hfp). by right.
  - by split.
Qed.

Lemma fresh_unmapped v : (pml4_idx v < 256)%nat -> vmm_get_phys v (vmm_activate_pml4 root s1) = 0.
Proof. intros Hv. apply unmapped_root. exact (fp_low _ _ _ Hfp _ Hv). Qed.
End Fresh.

(** ** The tables of a user half *)

Fixpoint paths (n : nat) : list (list nat) :=
  match n with O => [[]] | S n => [] :: (seq 0 512 ≫= fun j => cons j <$> paths n) end.

Lemma paths_in n q : (length q <= n)%nat -> Forall (fun j => j < 512)%nat q -> q ∈ paths n.
Proof.
  revert q. induction n as [|n IH]; intros q Hl Hq; [destruct q; [by left|simpl in Hl; lia]|].
  destruct q as [|j q]; [by left|]. cbn [paths]. right. apply Forall_cons in Hq as [Hj Hq].
  apply list_elem_of_bind. exists j. split; [|apply elem_of_seq; lia].
  apply list_elem_of_fmap. exists q. split; [done|]. apply IH; [simpl in Hl; lia|done].
Qed.

Lemma table_path s q t : wf s -> table_at s q = Some t -> (length q <= 3)%nat /\ Forall (fun j => j < 512)%nat q.
Proof.
  intros Hwf. revert t. induction q as [|j q IH] using rev_ind; intros t; [split; [simpl; lia|done]|].
  rewrite table_at_snoc. destruct (table_at s q) as [t'|] eqn:E; [|done]. destruct (IH t' eq_refl) as [_ Hq].
  destruct (Nat.ltb_spec (length q) 3); [|done]. cbn [andb]. intros Ht. rewrite length_app. split; [simpl; lia|].
  apply Forall_app. split; [done|]. constructor; [|done]. destruct (decide (j < 512)%nat) as [|Hj]; [done|].
  exfalso. rewrite (full_bound _ _ j (wf_pages s Hwf _ _ E)) in Ht by lia. by destruct (3 - length q)%nat.
Qed.

Definition user_table (s : vm) (q : list nat) : option Z :=
  match q with [] => table_at s q | i :: _ => if (i <? 256)%nat then table_at s q else None end.

(** The user's tables and the pages [R]. *)
Definition space_pages (R : list Z) (s : vm) : list Z := remove_dups (omap (user_table s) (paths 3)) ++ R.

Lemma space_pages_table R s q t : wf s -> table_at s q = Some t -> user_path q -> t ∈ space_pages R s.
Proof.
  intros Hwf Ht Hu. unfold space_pages. apply elem_of_app. left. apply elem_of_remove_dups, list_elem_of_omap.
  exists q. destruct (table_path s q t Hwf Ht). split; [by apply paths_in|]. unfold user_table. destruct q as [|i q]; [done|].
  simpl in Hu. by rewrite (proj2 (Nat.ltb_lt i 256)).
Qed.

Lemma space_pages_inv R s p :
  p ∈ space_pages R s -> (exists q, table_at s q = Some p /\ user_path q) \/ p ∈ R.
Proof.
  unfold space_pages. rewrite elem_of_app. intros [Hp|Hp]; [left|by right].
  apply elem_of_remove_dups, list_elem_of_omap in Hp as (q & _ & Hq). exists q. unfold user_table in Hq.
  destruct q as [|i q]; [done|]. destruct (Nat.ltb_spec i 256); [by split|done].
Qed.

(** The tables of the user half are pages as the free stack holds them. *)
Definition user_tables_ok (s : vm) : Prop := forall q t, table_at s q = Some t -> user_path q -> page_ok t.

Section Apart.
Context (R : list Z) (s0 s1 : vm) (root : Z).
Context (Hwin : window 0 LOW_HALF R s0) (Hfp : fresh_pml4 s0 root s1) (Hok : user_tables_ok s0).
#[local] Notation D := (space_pages R s0).
#[local] Notation c := (vmm_activate_pml4 root s1).

Lemma caller_wf : wf s0.
Proof. apply (wf_unreserve R), Hwin. Qed.

Lemma caller_page p : p ∈ D -> p ∉ free_pages_stack s0 /\ page_ok p.
Proof.
  destruct (reserved_pages _ _ (wd_wf _ _ _ _ Hwin)) as (_ & HokR & Hfr & _). rewrite Forall_forall in HokR.
  intros [(q & Ht & Hu)|HR]%space_pages_inv; [|split; [by apply Hfr|by apply HokR]].
  split; [by eapply (wf_free s0 caller_wf)|by eapply Hok].
Qed.

Lemma caller_unused p q t : p ∈ D -> table_at c q = Some t -> t <> p.
Proof.
  intros Hp Ht ->. destruct (fresh_table s0 s1 root caller_wf Hfp q p Ht) as [[-> ->]|(_ & Hu & H0)].
  - apply (caller_page root Hp). apply (root_new s0 s1 root caller_wf Hfp).
  - destruct (space_pages_inv _ _ _ Hp) as [(q' & Hq' & Hu')|HR].
    + by rewrite (wf_inj s0 caller_wf _ _ _ H0 Hq') in Hu.
    + destruct (reserved_pages _ _ (wd_wf _ _ _ _ Hwin)) as (_ & _ & _ & Htab). by apply (Htab p q p).
Qed.

Lemma space_pages_NoDup : NoDup D.
Proof.
  destruct (reserved_pages _ _ (wd_wf _ _ _ _ Hwin)) as (Hnd & _ & _ & Htab).
  unfold space_pages. apply NoDup_app. split; [apply NoDup_remove_dups|]. split; [|done].
  intros p Hp HR. assert (Hin : p ∈ space_pages [] s0) by (apply elem_of_app; by left).
  destruct (space_pages_inv _ _ _ Hin) as [(q & Ht & _)|Hn]; [by apply (Htab p q p)|by apply not_elem_of_nil in Hn].
Qed.

Lemma caller_reserved : wf (reserve D c).
Proof.
  apply wf_reserve_intro; [by apply (fresh_wf s0 s1 root caller_wf Hfp)|apply space_pages_NoDup| |];
    apply Forall_forall; intros p Hp; [by apply caller_page|]. split.
  - intros Hin. apply (caller_page p Hp). rewrite (fp_free _ _ _ Hfp). by right.
  - intros q t. by apply caller_unused.
Qed.

Lemma fresh_low_unmapped a : USER_LO <= a < USER_HI -> vmm_get_phys a c = 0.
Proof.
  intros Ha. apply (fresh_unmapped s0 s1 root Hfp). unfold USER_LO, USER_HI in Ha.
  apply low_idx. unfold LOW_HALF. lia.
Qed.

Lemma fresh_window : window USER_LO USER_HI D c.
Proof.
  rewrite <-(app_nil_r D). apply (window_more _ _ [] D c); [|rewrite app_nil_r; apply caller_reserved|done|done].
  apply window_empty; [apply (fresh_wf s0 s1 root caller_wf Hfp)|apply fresh_low_unmapped].
Qed.

Lemma space_apart : apart D c.
Proof.
  exists D. split; [apply fresh_window|]. split; [done|]. intros a [Ha _] Hnz. by rewrite fresh_low_unmapped in Hnz.
Qed.

(** What the caller sees after a computation in the new space. *)
Lemma caller_kept c' :
  kept_apart D c c' -> forall v, 0 <= v < LOW_HALF ->
  vmm_get_phys v (vmm_activate_pml4 (cr3 s0) c') = vmm_get_phys v s0 /\
  load_byte v (vmm_activate_pml4 (cr3 s0) c') = load_byte v s0.
Proof.
  intros [_ Hp _ _] v Hv. set (s' := vmm_activate_pml4 (cr3 s0) c').
  assert (HD : forall p, p ∈ D -> pages s' !! p = pages s0 !! p).
  { intros p HpD. unfold s'. cbn [vmm_activate_pml4 pages]. rewrite Hp by done. cbn [vmm_activate_pml4 pages].
    apply (fp_pages _ _ _ Hfp). intros ->. apply (caller_page root HpD). apply (root_new s0 s1 root caller_wf Hfp). }
  assert (Hta : forall q t, user_path q -> table_at s0 q = Some t -> pages s' !! t = pages s0 !! t).
  { intros q t Hu Ht. apply HD. apply space_pages_table with q; [apply caller_wf|done|done]. }
  assert (Hsame : forall q, user_path q -> table_at s' q = table_at s0 q).
  { induction q as [|j q IH] using rev_ind; intros Hu; [done|]. rewrite !table_at_snoc.
    assert (Hq : user_path q) by (by destruct q). rewrite (IH Hq).
    destruct (table_at s0 q) as [t|] eqn:E; [|done]. by rewrite (entry_same _ _ t j (Hta q t Hq E)). }
  assert (Hread : forall q j, user_path q -> read_at s' q j = read_at s0 q j).
  { intros q j Hu. unfold read_at. rewrite Hsame by done. destruct (table_at s0 q) as [t|] eqn:E; [|done].
    apply entry_same. by eapply Hta. }
  assert (Hidx : (pml4_idx v < 256)%nat) by (by apply low_idx).
  assert (Hph : vmm_get_phys v s' = vmm_get_phys v s0) by (rewrite !get_phys_xlate; by rewrite !Hread).
  split; [done|]. apply (load_byte_same 0 LOW_HALF R s0 s' v low_win Hwin Hv Hph).
  intros p HpR. apply HD. unfold space_pages. apply elem_of_app. by right.
Qed.
End Apart.
