(* ===== verification/Spawn.v ===== *)
(** The memory of a user program, as [create_user_process_elf_redir] and, in the
    second half, [sys_execve] of src/kernel/task/task.c build it: the image, the
    user stack, the TLS page and the argument block at the top of the stack.
    [None] is a page fault of the kernel, or a string that has not ended after
    [fuel] bytes. *)
From Stdlib Require Import ZArith Lia.
From stdpp Require Import base numbers list gmap strings.
From S2P Require Import Prelude HeapIface Vmm UserMem UserHeap Elf.

Definition USER_STACK_SIZE : Z := 524288.
Definition USER_STACK_VADDR : Z := 0x70000000.
Definition THREAD_TLS_VADDR : Z := 0x60000000.
Definition THREAD_TLS_SELF_OFF : Z := 520.
Definition MAX_ARGS : nat := 64.

(** A [const char*]: a string of the kernel, which every address space maps, or a
    user address, whose bytes are those of the space that is active. *)
Inductive cptr :=
  | KStr (s : list Z)
  | UPtr (a : Z).

(** [p[k]]; what is behind the NUL of a kernel string is never looked at. *)
Definition cget (p : cptr) (k : Z) (s : vm) : option Z :=
  match p with
  | KStr l => Some (default 0 (l !! Z.to_nat k))
  | UPtr a => load_byte (u64 (a + k)) s
  end.

(** [while (p[k]) k++]. *)
Fixpoint cstrlen (fuel : nat) (k : Z) (p : cptr) (s : vm) : option Z :=
  match fuel with
  | O => None
  | S fuel => b ← cget p k s; if b =? 0 then Some k else cstrlen fuel (k + 1) p s
  end.

(** [for (j = 0; j < n; j++) dst[j] = p[j]]. *)
Fixpoint copy_cstr (n : nat) (j : Z) (p : cptr) (dst : Z) (s : vm) : option vm :=
  match n with
  | O => Some s
  | S n => b ← cget p j s; s ← store_byte (u64 (dst + j)) b s; copy_cstr n (j + 1) p dst s
  end.

(** [a[i] = v] for an array of 64-bit words. *)
Definition put_word (a i v : Z) (s : vm) : option vm := store_bytes (u64 (a + 8 * i)) (le_bytes 8 v) s.

(** Strings one behind the other from [sp] on, each with its NUL; their addresses
    go to [a[i]] and the words behind it. *)
Fixpoint put_strings (a i sp : Z) (l : list (list Z)) (s : vm) : option (Z * vm) :=
  match l with
  | [] => Some (sp, s)
  | x :: l =>
      s ← store_bytes sp (x ++ [0]) s;
      s ← put_word a i sp s;
      put_strings a (i + 1) (u64 (sp + Z.of_nat (length x) + 1)) l s
  end.

Definition strings_size (l : list (list Z)) : Z := foldr (fun x n => Z.of_nat (length x) + 1 + n) 0 l.

Definition def_env : list (list Z) :=
  str <$> ["PATH=/user:/bin"; "HOME=/home/eigen"; "USER=eigen"; "TERM=eigen"; "SHELL=/user/sh.elf"]%string.

(** [argv_present] and [argv0]. *)
Definition pick_argv0 (name : cptr) (argv : list cptr) (nargs : Z) (s : vm) : option (bool * cptr) :=
  match argv with
  | p :: _ => if 0 <? nargs then b ← cget p 0 s; Some (if b =? 0 then (false, name) else (true, p))
              else Some (false, name)
  | [] => Some (false, name)
  end.

(** The argument block; [args] are the kernel's copies of the strings of
    [argv].  Returns the initial stack pointer. *)
Definition stack_image (fuel : nat) (name : cptr) (argv : list cptr) (args : list (list Z)) (s : vm)
    : option (Z * vm) :=
  let top := USER_STACK_VADDR + USER_STACK_SIZE in
  let nargs := Z.of_nat (length args) in
  let nenv := Z.of_nat (length def_env) in
  let elen := strings_size def_env in
  nlen ← cstrlen fuel 0 name s;
  let slen := nlen + 1 + strings_size args + elen in
  let arr := u64 (Z.land (u64 (top - slen - (nargs + nenv + 6) * 8 - 16)) (u64 (Z.lnot 15)) + 8) in
  s ← put_word arr 0 (nargs + 1) s;
  let sp := u64 (top - slen) in
  '(argv_present, argv0) ← pick_argv0 name argv nargs s;
  a0len ← cstrlen fuel 0 argv0 s;
  let a0len := if nlen <? a0len then nlen else a0len in
  s ← copy_cstr (Z.to_nat a0len) 0 argv0 sp s;
  s ← store_byte (u64 (sp + a0len)) 0 s;
  s ← put_word arr 1 sp s;
  let sp := u64 (sp + (nlen + 1)) in
  '(_, s) ← put_strings arr 2 sp (if (argv_present : bool) then tail args else args) s;
  let wi := nargs + 2 in
  s ← put_word arr wi 0 s;
  let eslot := wi + 1 in
  let wi := eslot + nenv + 1 in
  s ← put_word arr wi 0 s;
  s ← put_word arr (wi + 1) 0 s;
  '(_, s) ← put_strings arr eslot (u64 (top - elen)) def_env s;
  s ← put_word arr (eslot + nenv) 0 s;
  Some (arr, s).

Definition ustack_pages : Z := USER_STACK_SIZE / 4096.

(** The TLS page of a slot: false when no page is free. *)
Definition tls_vaddr (slot : nat) : Z := u64 (THREAD_TLS_VADDR + Z.of_nat slot * 0x1000).

Definition map_tls (slot : nat) (tid : Z) (s : vm) : option (bool * vm) :=
  let va := tls_vaddr slot in
  let '(tls_phys, s) := pmm_alloc s in
  if tls_phys =? 0 then Some (false, s) else
  let s := snd (vmm_map_range va tls_phys 4096 (Z.lor (Z.lor VMM_PRESENT VMM_WRITE) VMM_USER) s) in
  s ← memset_page va s;
  s ← store_bytes (u64 (va + THREAD_TLS_SELF_OFF)) (le_bytes 8 (u64 tid)) s;
  s ← store_bytes va (le_bytes 8 va) s;
  Some (true, s).

(** What a spawn gives back: an error code, or the page tables, the entry point
    and the stack pointer of the process. *)
Inductive spawned :=
  | Failed (code : Z)
  | Spawned (pml4 entry arr : Z).

(** The part that runs in the new space. *)
Definition user_image (fuel : nat) (data : list Z) (size : Z) (name : cptr) (argv : list cptr)
    (args : list (list Z)) (slot : nat) (tid pml4 : Z) (s : vm) : option (spawned * vm) :=
  '(e, s) ← elf_load data size s;
  match e with
  | None => Some (Failed (-3), s)
  | Some entry =>
      '(ok, s) ← user_map_pages USER_STACK_VADDR ustack_pages s;
      if negb ok then Some (Failed (-1), s) else
      '(ok, s) ← map_tls slot tid s;
      if negb ok then Some (Failed (-1), s) else
      '(arr, s) ← stack_image fuel name argv args s;
      Some (Spawned pml4 entry arr, s)
  end.

(** The new space is built while it is active; the caller's is restored. *)
Definition spawn_space (fuel : nat) (data : list Z) (size : Z) (name : cptr) (argv : list cptr)
    (args : list (list Z)) (slot : nat) (tid : Z) (s : vm) : option (spawned * vm) :=
  let '(new_pml4, s) := vmm_new_user_pml4 s in
  if new_pml4 =? 0 then Some (Failed (-1), s) else
  let old_pml4 := cr3 s in
  '(r, s) ← user_image fuel data size name argv args slot tid new_pml4 (vmm_activate_pml4 new_pml4 s);
  Some (r, vmm_activate_pml4 old_pml4 s).

(** * The memory of a process after [sys_execve] of src/kernel/task/task.c: the
    strings are counted in the old address space, the new one is built, and they
    are read a second time while the new space is active.  [None] is a page fault
    of the kernel, or a string that has not ended after [fuel] bytes. *)

(** A 64-bit word of user memory. *)
Definition load_word (a : Z) (s : vm) : option Z :=
  bs ← mapM (fun i => load_byte (u64 (a + Z.of_nat i)) s) (seq 0 8); Some (le_val bs).

(** [while (v[i]) { slen += strlen(v[i]) + 1; if (++i >= 63) break; }]; [room] is
    what is left of the 63. *)
Fixpoint count_strings (room fuel : nat) (v i slen : Z) (s : vm) : option (Z * Z) :=
  match room with
  | O => Some (i, slen)
  | S room =>
      p ← load_word (u64 (v + 8 * i)) s;
      if p =? 0 then Some (i, slen) else
      l ← cstrlen fuel 0 (UPtr p) s;
      count_strings room fuel v (i + 1) (slen + (l + 1)) s
  end.

(** The strings [v[i]], [v[i+1]], ... copied one behind the other, and their
    addresses to the words from [a[wi]] on. *)
Fixpoint copy_vector (n fuel : nat) (a wi v i sp : Z) (s : vm) : option (Z * vm) :=
  match n with
  | O => Some (sp, s)
  | S n =>
      p ← load_word (u64 (v + 8 * i)) s;
      l ← cstrlen fuel 0 (UPtr p) s;
      s ← copy_cstr (S (Z.to_nat l)) 0 (UPtr p) sp s;
      s ← put_word a wi sp s;
      copy_vector n fuel a (wi + 1) v (i + 1) (u64 (sp + (l + 1))) s
  end.

(** The block at the top of the stack; [pl] is the length of the path. *)
Definition exec_block (fuel : nat) (pl nargs nenv slen argv_u envp_u : Z) (s : vm) : option (Z * vm) :=
  let top := USER_STACK_VADDR + USER_STACK_SIZE in
  let total := slen + (nargs + nenv + 5) * 8 + 64 in
  let arr := u64 (Z.land (u64 (top - total)) (u64 (Z.lnot 15)) + 8) in
  let sp := u64 (top - slen) in
  s ← put_word arr 0 (nargs + 1) s;
  s ← put_word arr 1 sp s;
  '(sp, s) ← copy_vector (Z.to_nat nargs) fuel arr 2 argv_u 0 (u64 (sp + (pl + 1))) s;
  let wi := 2 + nargs in
  s ← put_word arr wi 0 s;
  let envp_base := wi + 1 in
  let wi := envp_base + (nenv + 1) in
  s ← put_word arr wi 0 s;
  s ← put_word arr (wi + 1) 0 s;
  '(_, s) ← copy_vector (Z.to_nat nenv) fuel arr envp_base envp_u 0 sp s;
  s ← put_word arr (envp_base + nenv) 0 s;
  Some (arr, s).

Inductive executed :=
  | ExecFailed (code : Z)
  | Executed (pml4 entry arr : Z) (tls : bool).

(** [path] is the kernel's copy of the path, [data] the staging buffer with the
    file in its first [size] bytes.  The old space is not destroyed. *)
Definition exec_space (fuel : nat) (path : list Z) (argv_u envp_u : Z) (data : list Z) (size : Z) (slot : nat)
    (tid : Z) (s : vm) : option (executed * vm) :=
  let pl := Z.of_nat (length path) in
  '(nargs, slen) ← (if argv_u =? 0 then Some (0, pl + 1 + (pl + 1))
                    else count_strings 63 fuel argv_u 0 (pl + 1) s);
  '(nenv, slen) ← (if envp_u =? 0 then Some (0, slen) else count_strings 63 fuel envp_u 0 slen s);
  let '(new_pml4, s) := vmm_new_user_pml4 s in
  if new_pml4 =? 0 then Some (ExecFailed 3, s) else
  let s := vmm_activate_pml4 new_pml4 s in
  '(e, s) ← elf_load data size s;
  match e with
  | None => Some (ExecFailed 2, s)
  | Some entry =>
      '(_, s) ← user_map_pages USER_STACK_VADDR ustack_pages s;
      '(tls, s) ← map_tls slot tid s;
      '(arr, s) ← exec_block fuel pl nargs nenv slen argv_u envp_u s;
      Some (Executed new_pml4 entry arr tls, s)
  end.
