(* ===== verification/SpawnMem.v ===== *)
(** What is mapped for a new program beside its image: the pages of its stack and
    its TLS page, and the argument block at the top of the stack.  Every store of
    [stack_image] is to a word of the array or to a string of its own, so each is
    still there at the end. *)
From Stdlib Require Import ZArith Lia.
From stdpp Require Import base numbers list gmap strings.
From S2P Require Import Prelude HeapIface Vmm VmmSpec VmmProps VmmFrame UserMem UserSpace UserMemSpec UserHeap UserHeapMap Elf.
From S2P Require Import ElfProps Apart Spawn.

#[local] Notation TOP := (USER_STACK_VADDR + USER_STACK_SIZE).

(** ** Reading memory *)

Definition bytes_at (a : Z) (bs : list Z) (s : vm) : Prop :=
  forall i b, bs !! i = Some b -> load_byte (a + Z.of_nat i) s = Some b.
Definition word_at (a v : Z) (s : vm) : Prop := bytes_at a (le_bytes 8 v) s.
Definition cstring_at (a : Z) (l : list Z) (s : vm) : Prop := bytes_at a (l ++ [0]) s.

(** Words that point to strings, the strings between [slo] and [shi]. *)
Definition strings_at (a : Z) (l : list (list Z)) (slo shi : Z) (s : vm) : Prop :=
  forall k x, l !! k = Some x ->
    exists q, word_at (a + 8 * Z.of_nat k) q s /\ cstring_at q x s /\
      slo <= q /\ q + Z.of_nat (length x) + 1 <= shi.

(** A vector as main and environ get it: the pointers, then NULL. *)
Definition vector_at (a : Z) (l : list (list Z)) (s : vm) : Prop :=
  (forall k x, l !! k = Some x -> exists q, word_at (a + 8 * Z.of_nat k) q s /\ cstring_at q x s) /\
  word_at (a + 8 * Z.of_nat (length l)) 0 s.

Lemma bytes_at_same a bs s s' :
  bytes_at a bs s -> (forall x, a <= x < a + Z.of_nat (length bs) -> load_byte x s' = load_byte x s) ->
  bytes_at a bs s'.
Proof. intros Hb Hs i b Hi. pose proof (lookup_lt_Some _ _ _ Hi). rewrite Hs by lia. by apply Hb. Qed.

Lemma bytes_at_app a l1 l2 s : bytes_at a l1 s -> bytes_at (a + Z.of_nat (length l1)) l2 s -> bytes_at a (l1 ++ l2) s.
Proof.
  intros H1 H2 i b Hi. apply lookup_app_Some in Hi as [Hi|[Hge Hi]]; [by apply H1|].
  specialize (H2 _ _ Hi). by replace (a + Z.of_nat (length l1) + Z.of_nat (i - length l1)) with (a + Z.of_nat i) in H2 by lia.
Qed.

Lemma word_at_same a v s s' :
  word_at a v s -> (forall x, a <= x < a + 8 -> load_byte x s' = load_byte x s) -> word_at a v s'.
Proof. intros Hw Hs. eapply bytes_at_same; [exact Hw|]. intros x. rewrite length_le_bytes. apply Hs. Qed.

Lemma strings_at_same a l slo shi s s' :
  strings_at a l slo shi s ->
  (forall x, a <= x < a + 8 * Z.of_nat (length l) \/ slo <= x < shi -> load_byte x s' = load_byte x s) ->
  strings_at a l slo shi s'.
Proof.
  intros Hst Hs k x Hk. pose proof (lookup_lt_Some _ _ _ Hk). destruct (Hst k x Hk) as (q & Hw & Hc & Hlo & Hhi).
  exists q. split_and!; [|by eapply bytes_at_same; [exact Hc|]; intros y; rewrite length_app; cbn [length]; intros; apply Hs; lia|done|done].
  eapply word_at_same; [exact Hw|]. intros y Hy. apply Hs. lia.
Qed.

(** ** Writing to the stack *)

Record stack_mem (R : list Z) (s : vm) : Prop := {
  sm_win : window USER_LO USER_HI R s;
  sm_back : backed USER_STACK_VADDR ustack_pages s;
  sm_map p : p mod 4096 = 0 -> USER_STACK_VADDR <= p < TOP -> vmm_get_phys p s <> 0;
}.

(** Only bytes in [P] changed. *)
Record wrote (R : list Z) (P : Z -> Prop) (s s' : vm) : Prop := {
  wr_mem : stack_mem R s';
  wr_phys v : vmm_get_phys v s' = vmm_get_phys v s;
  wr_same x : USER_LO <= x < USER_HI -> ~ P x -> load_byte x s' = load_byte x s;
  wr_kept D : apart D s -> kept_apart D s s';
}.

Lemma wrote_refl R P s : stack_mem R s -> wrote R P s s.
Proof. intros Hm. split; [done|done|done|]. intros D. apply kept_refl. Qed.

Lemma wrote_trans R P Q s1 s2 s3 :
  wrote R P s1 s2 -> wrote R Q s2 s3 -> wrote R (fun x => P x \/ Q x) s1 s3.
Proof.
  intros [M1 V1 S1 K1] [M2 V2 S2 K2]. split; [done|intros v; by rewrite V2| |].
  - intros x Hx Hn. rewrite S2, S1 by tauto. done.
  - intros D HD. pose proof (K1 D HD) as K. eapply kept_trans; [exact K|]. apply K2, K.
Qed.

Lemma wrote_weaken R (P Q : Z -> Prop) s s' : (forall x, P x -> Q x) -> wrote R P s s' -> wrote R Q s s'.
Proof. intros H [M V S K]. split; [done|done| |done]. intros x Hx Hn. apply S; [done|]. intros HP. by apply Hn, H. Qed.

Lemma store_bytes_wrote R a bs s s' :
  stack_mem R s -> USER_STACK_VADDR <= a -> a + Z.of_nat (length bs) <= TOP -> Forall is_byte bs ->
  store_bytes a bs s = Some s' ->
  wrote R (fun x => a <= x < a + Z.of_nat (length bs)) s s' /\ bytes_at a bs s'.
Proof.
  intros [Hwin Hback Hmap] Ha Hend Hbs E. unfold USER_STACK_SIZE in Hend.
  destruct (store_bytes_spec a bs R s s' USER_STACK_VADDR ustack_pages Hwin eq_refl) as (Hw & Hp & Hfull & Hl);
    try done; try (unfold ustack_pages, USER_STACK_SIZE; lia).
  split.
  - split; [split; [done| |intros p; rewrite Hp; apply Hmap]|done| |].
    { intros p Hpa Hpr. rewrite Hp. by apply Hfull, Hback. }
    + intros x Hx Hn. by rewrite Hl, decide_False.
    + intros D HD. eapply apart_stores; [exact HD| | |exact E];
        unfold USER_LO, USER_HI, USER_STACK_VADDR, USER_STACK_SIZE in *; lia.
  - intros i b Hi. pose proof (lookup_lt_Some _ _ _ Hi). unfold USER_STACK_VADDR in *.
    rewrite Hl, decide_True by (unfold USER_LO, USER_HI; lia). by replace (Z.to_nat (a + Z.of_nat i - a)) with i by lia.
Qed.

Lemma put_word_wrote R a i v s s' :
  stack_mem R s -> 0 <= a -> USER_STACK_VADDR <= a + 8 * i -> a + 8 * i + 8 <= TOP ->
  put_word a i v s = Some s' ->
  wrote R (fun x => a + 8 * i <= x < a + 8 * i + 8) s s' /\ word_at (a + 8 * i) v s'.
Proof.
  intros Hm H0 Hlo Hhi. unfold put_word. rewrite wrap_small by (unfold USER_STACK_VADDR, USER_STACK_SIZE in *; lia).
  intros E. apply (store_bytes_wrote R) in E as [Hw Hb]; [|done|done|rewrite length_le_bytes; lia|apply Forall_le_bytes].
  rewrite length_le_bytes in Hw. done.
Qed.

Lemma strings_size_cons x l : strings_size (x :: l) = Z.of_nat (length x) + 1 + strings_size l.
Proof. done. Qed.

Lemma strings_size_nonneg l : 0 <= strings_size l.
Proof. induction l; [done|]. rewrite strings_size_cons. lia. Qed.

Lemma put_strings_spec R a i sp l s sp' s' :
  stack_mem R s -> 0 <= a -> USER_STACK_VADDR <= a + 8 * i -> a + 8 * (i + Z.of_nat (length l)) <= sp ->
  sp + strings_size l <= TOP -> Forall (Forall is_byte) l ->
  put_strings a i sp l s = Some (sp', s') ->
  wrote R (fun x => a + 8 * i <= x < a + 8 * (i + Z.of_nat (length l)) \/ sp <= x < sp + strings_size l) s s' /\
  strings_at (a + 8 * i) l sp (sp + strings_size l) s'.
Proof.
  intros Hm H0. revert i sp s Hm. induction l as [|x l IH]; intros i sp s Hm Hlo Hcells Htop Hbytes.
  { intros [= <- <-]. split; [by apply wrote_refl|]. intros k x Hk. done. }
  rewrite strings_size_cons in *. cbn [put_strings length] in *. apply Forall_cons in Hbytes as [Hx Hl].
  pose proof (strings_size_nonneg l) as Hnn.
  destruct (store_bytes sp (x ++ [0]) s) as [s1|] eqn:E1; [|done]. cbn [mbind option_bind].
  apply (store_bytes_wrote R) in E1 as [W1 B1]; [|done|lia|rewrite length_app; simpl; lia|].
  2:{ apply Forall_app. split; [done|]. constructor; [by unfold is_byte|constructor]. }
  rewrite length_app in W1. cbn [length] in W1.
  destruct (put_word a i sp s1) as [s2|] eqn:E2; [|done]. cbn [mbind option_bind].
  apply (put_word_wrote R) in E2 as [W2 B2]; [|apply W1|done|lia|lia].
  rewrite wrap_small by (unfold USER_STACK_VADDR, USER_STACK_SIZE in *; lia). intros E3.
  apply IH in E3 as [W3 B3]; [|apply W2|lia|lia|lia|done]. split.
  - eapply wrote_weaken; [|exact (wrote_trans _ _ _ _ _ _ (wrote_trans _ _ _ _ _ _ W1 W2) W3)].
    intros y [[?|?]|?]; lia.
  - assert (Hkeep : forall y, a + 8 * i <= y < a + 8 * i + 8 \/ sp <= y < sp + Z.of_nat (length x) + 1 ->
      load_byte y s' = load_byte y s2).
    { intros y Hy. apply (wr_same _ _ _ _ W3); unfold USER_LO, USER_HI, USER_STACK_VADDR, USER_STACK_SIZE in *; lia. }
    intros [|k] y Hk; cbn [lookup list_lookup] in Hk.
    + injection Hk as <-. exists sp. split_and!; [| |lia|lia].
      * rewrite Z.mul_0_r, Z.add_0_r. eapply word_at_same; [exact B2|]. intros z Hz. apply Hkeep. lia.
      * assert (Hc : cstring_at sp x s2).
        { eapply bytes_at_same; [exact B1|]. rewrite length_app. cbn [length]. intros z Hz.
          apply (wr_same _ _ _ _ W2); unfold USER_LO, USER_HI, USER_STACK_VADDR, USER_STACK_SIZE in *; lia. }
        eapply bytes_at_same; [exact Hc|]. rewrite length_app. cbn [length]. intros z Hz. apply Hkeep. lia.
    + destruct (B3 k y Hk) as (q & Hw & Hc & Hq1 & Hq2). exists q. split_and!; [|done|lia|lia].
      replace (a + 8 * i + 8 * Z.of_nat (S k)) with (a + 8 * (i + 1) + 8 * Z.of_nat k) by lia. done.
Qed.

(** ** The strings the kernel holds *)

Lemma cstrlen_kstr fuel k l s :
  is_cstr l -> 0 <= k <= Z.of_nat (length l) -> (length l - Z.to_nat k < fuel)%nat ->
  cstrlen fuel k (KStr l) s = Some (Z.of_nat (length l)).
Proof.
  intros Hl. revert k. induction fuel as [|fuel IH]; intros k Hk Hf; [lia|]. cbn [cstrlen cget mbind option_bind].
  destruct (decide (k = Z.of_nat (length l))) as [->|Hne].
  - rewrite Nat2Z.id, lookup_ge_None_2 by lia. done.
  - destruct (lookup_lt_is_Some_2 l (Z.to_nat k)) as [b Hb]; [lia|]. rewrite Hb. cbn [default id].
    unfold is_cstr in Hl. rewrite Forall_lookup in Hl. specialize (Hl _ _ Hb). simpl in Hl.
    destruct (Z.eqb_spec b 0); [lia|]. apply IH; lia.
Qed.

Lemma copy_cstr_kstr n j l dst s :
  0 <= j -> j + Z.of_nat n <= Z.of_nat (length l) -> 0 <= dst -> dst + (j + Z.of_nat n) < 2 ^ 64 ->
  copy_cstr n j (KStr l) dst s = store_bytes (dst + j) (take n (drop (Z.to_nat j) l)) s.
Proof.
  intros Hj Hn Hd Hend. revert j s Hj Hn Hend. induction n as [|n IH]; intros j s Hj Hn Hend; [done|].
  destruct (lookup_lt_is_Some_2 l (Z.to_nat j)) as [b Hb]; [lia|].
  rewrite (drop_S _ _ _ Hb). cbn [copy_cstr cget take store_bytes mbind option_bind]. rewrite Hb. cbn [default id].
  rewrite wrap_small by lia. destruct (store_byte (dst + j) b s) as [s1|]; [|done]. cbn [mbind option_bind].
  rewrite IH by lia. by replace (dst + (j + 1)) with (dst + j + 1) by lia; replace (Z.to_nat (j + 1)) with (S (Z.to_nat j)) by lia.
Qed.

Lemma arr_eq z :
  0 <= z < 2 ^ 63 -> u64 (Z.land (u64 z) (u64 (Z.lnot 15)) + 8) = z - z mod 16 + 8.
Proof.
  intros Hz. rewrite (wrap_small 64 z) by lia.
  replace (Z.land z (u64 (Z.lnot 15))) with (z - z mod 16); [apply wrap_small; zify_div|].
  change (u64 (Z.lnot 15)) with (Z.shiftl (Z.ones 60) 4). rewrite land_field by lia.
  rewrite (Z.mod_small (z / 2 ^ 4)) by zify_div. change (2 ^ 4) with 16. zify_div.
Qed.

(** The name and the arguments the program is meant to see: the first argument is
    cut to the length of the name. *)
Definition seen_args (nm : list Z) (vs : list (list Z)) : list (list Z) :=
  match vs with
  | (b :: v) :: rest => take (length nm) (b :: v) :: (take 1023 <$> rest)
  | _ => nm :: (take 1023 <$> vs)
  end.

(** The entry state of a C program: argc, argv, environ behind argv's NULL, and an
    empty auxiliary vector. *)
Record program_start (arr argc : Z) (argv envp : list (list Z)) (s : vm) : Prop := {
  ps_argc : word_at arr argc s;
  ps_argv : vector_at (arr + 8) argv s;
  ps_envp : vector_at (arr + 8 * (argc + 2)) envp s;
  ps_auxv : forall i, (i < 2)%nat -> word_at (arr + 8 * (argc + 3 + Z.of_nat (length envp) + Z.of_nat i)) 0 s;
}.

(** One bind of an option computation in the goal; two computations that start with
    the same binds. *)
Ltac case_bind :=
  match goal with |- (?x ≫= _) = Some _ -> _ =>
    let y := fresh "y" in let E := fresh "E" in
    destruct x as [y|] eqn:E; [|done]; cbn [mbind option_bind];
    try match type of y with prod _ _ => destruct y end
  end.
Ltac same_binds :=
  repeat match goal with |- (?x ≫= _) = (_ ≫= _) =>
    let y := fresh "y" in destruct x as [y|]; [|done]; cbn [mbind option_bind];
    try match type of y with prod _ _ => destruct y end
  end.

(** ** The block *)

Lemma elen_eq : strings_size def_env = 74.
Proof. reflexivity. Qed.

Lemma def_env_bytes : Forall (Forall is_byte) def_env.
Proof. apply Forall_forall. intros x Hx. apply image_is_bytes. revert x Hx. apply Forall_forall. vm_compute. repeat constructor. Qed.

Lemma is_cstr_bytes l : is_cstr l -> Forall is_byte l.
Proof. intros H. eapply Forall_impl; [exact H|]. unfold is_byte. simpl. lia. Qed.

Lemma is_cstr_take n l : is_cstr l -> is_cstr (take n l).
Proof. apply Forall_take. Qed.

Lemma args_bytes vs : Forall is_cstr vs -> Forall (Forall is_byte) (take 1023 <$> vs).
Proof.
  intros H. apply Forall_fmap. eapply Forall_impl; [exact H|]. intros l Hl. apply is_cstr_bytes. by apply is_cstr_take.
Qed.

(** What is picked as argv[0], and the arguments left for the words behind it. *)
Definition first_arg (nm : list Z) (vs : list (list Z)) : bool * list Z :=
  match vs with (b :: v) :: _ => (true, b :: v) | _ => (false, nm) end.

Lemma pick_argv0_kstr nm vs s :
  Forall is_cstr vs ->
  pick_argv0 (KStr nm) (KStr <$> vs) (Z.of_nat (length vs)) s =
    Some (fst (first_arg nm vs), KStr (snd (first_arg nm vs))).
Proof.
  intros Hvs. unfold pick_argv0. destruct vs as [|v vs]; [done|]. cbn [fmap list_fmap length].
  rewrite (proj2 (Z.ltb_lt 0 _)) by lia. destruct v as [|b v]; [done|].
  apply Forall_cons in Hvs as [Hv _]. apply Forall_cons in Hv as [Hb _]. cbn [cget mbind option_bind].
  change (default 0 ((b :: v) !! Z.to_nat 0)) with b. by rewrite (proj2 (Z.eqb_neq b 0)) by lia.
Qed.

Lemma first_arg_ok nm vs (P : list Z -> Prop) : P nm -> Forall P vs -> P (snd (first_arg nm vs)).
Proof. intros Hn Hvs. unfold first_arg. destruct vs as [|[|b v] vs]; try done. by apply Forall_cons in Hvs as [? _]. Qed.

(** The stack area the block needs. *)
Definition block_size (nm : list Z) (vs : list (list Z)) : Z :=
  Z.of_nat (length nm) + 1 + strings_size (take 1023 <$> vs) + 74 + (Z.of_nat (length vs) + 11) * 8.

(** The stores of [stack_image], its lengths and strings read: [n] arguments, the
    strings from [sp] on with [nlen + 1] bytes for the first one. *)
Definition block_stores (a n sp nlen : Z) (argv0 : list Z) (rest : list (list Z)) (s : vm) : option vm :=
  s ← put_word a 0 (n + 1) s;
  s ← store_bytes sp argv0 s;
  s ← store_byte (sp + Z.of_nat (length argv0)) 0 s;
  s ← put_word a 1 sp s;
  '(_, s) ← put_strings a 2 (sp + (nlen + 1)) rest s;
  s ← put_word a (n + 2) 0 s;
  s ← put_word a (n + 9) 0 s;
  s ← put_word a (n + 10) 0 s;
  '(_, s) ← put_strings a (n + 3) (TOP - 74) def_env s;
  put_word a (n + 8) 0 s.

(** The first argument, cut to the room the name leaves for it. *)
Lemma cut_length (nm v0 : list Z) :
  let l0 := if Z.of_nat (length nm) <? Z.of_nat (length v0) then Z.of_nat (length nm) else Z.of_nat (length v0) in
  l0 = Z.of_nat (length (take (length nm) v0)) /\ take (length nm) v0 = take (Z.to_nat l0) v0.
Proof.
  intros l0. rewrite length_take. unfold l0.
  destruct (Z.ltb_spec (Z.of_nat (length nm)) (Z.of_nat (length v0))); rewrite Nat2Z.id; (split; [lia|]); [done|].
  by rewrite !take_ge by lia.
Qed.

(** Where the block is: [arr] and [sp]. *)
Lemma block_place nm vs :
  block_size nm vs + 32 <= USER_STACK_SIZE ->
  let n := Z.of_nat (length vs) in
  let slen := Z.of_nat (length nm) + 1 + strings_size (take 1023 <$> vs) + 74 in
  let arr := u64 (Z.land (u64 (TOP - slen - (n + 5 + 6) * 8 - 16)) (u64 (Z.lnot 15)) + 8) in
  USER_STACK_VADDR <= arr /\ arr mod 16 = 8 /\ arr + 8 * (n + 11) <= TOP - slen.
Proof.
  intros Hsize n slen arr. unfold block_size in Hsize. pose proof (strings_size_nonneg (take 1023 <$> vs)).
  fold n in Hsize. assert (Hs : slen + (n + 11) * 8 + 32 <= USER_STACK_SIZE) by (unfold slen; lia).
  assert (H0 : 0 <= slen /\ 0 <= n) by (unfold slen, n; lia). clearbody slen n.
  unfold arr. rewrite arr_eq by (unfold USER_STACK_SIZE, USER_STACK_VADDR in *; lia).
  set (z := TOP - slen - (n + 5 + 6) * 8 - 16).
  assert (Hz : USER_STACK_VADDR + 16 <= z /\ z + 104 + 8 * n = TOP - slen) by (unfold z; lia). zify_div.
Qed.

Lemma stack_image_stores fuel nm vs :
  is_cstr nm -> Forall is_cstr vs -> (length nm < fuel)%nat -> Forall (fun v => length v < fuel)%nat vs ->
  block_size nm vs + 32 <= USER_STACK_SIZE ->
  let n := Z.of_nat (length vs) in
  let argv0 := take (length nm) (snd (first_arg nm vs)) in
  let rest := if fst (first_arg nm vs) then tail (take 1023 <$> vs) else take 1023 <$> vs in
  exists arr sp, USER_STACK_VADDR <= arr /\ arr mod 16 = 8 /\ arr + 8 * (n + 11) <= sp /\
    sp + Z.of_nat (length nm) + 1 + strings_size (take 1023 <$> vs) + 74 = TOP /\
    forall s, stack_image fuel (KStr nm) (KStr <$> vs) (take 1023 <$> vs) s =
      (s' ← block_stores arr n sp (Z.of_nat (length nm)) argv0 rest s; Some (arr, s')).
Proof.
  intros Hnm Hvs Hf1 Hf2 Hsize n argv0 rest. pose proof (block_place nm vs Hsize) as Hplace. cbv zeta in Hplace.
  fold n in Hplace. unfold block_size in Hsize. pose proof (strings_size_nonneg (take 1023 <$> vs)) as Hsz.
  set (args := take 1023 <$> vs) in *. set (L := Z.of_nat (length nm)) in *.
  set (slen := L + 1 + strings_size args + 74) in *. set (arr := u64 (Z.land _ _ + 8)) in Hplace.
  destruct Hplace as (Ha & Ha16 & Hcells). exists arr, (TOP - slen). split_and!; [done|done|done|unfold slen; lia|].
  intros s. unfold stack_image. rewrite cstrlen_kstr by (try done; lia). cbn [mbind option_bind].
  assert (Hlen : Z.of_nat (length args) = n) by (unfold args; by rewrite length_fmap). rewrite !Hlen.
  change (Z.of_nat (length def_env)) with 5. rewrite !elen_eq. fold L slen arr.
  assert (Hslen : 0 < slen < USER_STACK_SIZE /\ L + 74 < slen) by (unfold slen, L in *; lia). clearbody arr slen.
  rewrite (wrap_small 64 (TOP - slen)) by (unfold USER_STACK_SIZE, USER_STACK_VADDR in *; lia).
  unfold block_stores. destruct (put_word arr 0 (n + 1) s) as [s1|]; [|done]. cbn [mbind option_bind].
  pose proof (pick_argv0_kstr nm vs s1 Hvs) as Ep. fold n in Ep. rewrite Ep. clear Ep. cbn [mbind option_bind].
  set (v0 := snd (first_arg nm vs)) in *. set (present := fst (first_arg nm vs)) in *.
  rewrite cstrlen_kstr; [|by apply first_arg_ok|lia|].
  2:{ assert (length v0 < fuel)%nat by (apply (first_arg_ok nm vs (fun v => length v < fuel)%nat); done). lia. }
  cbn [mbind option_bind]. destruct (cut_length nm v0) as [El0 Ecut]. fold L in El0, Ecut. fold argv0 in El0, Ecut.
  set (l0 := if L <? _ then _ else _) in *.
  assert (Hl0 : 0 <= l0 <= L /\ l0 <= Z.of_nat (length v0)).
  { unfold l0. destruct (Z.ltb_spec L (Z.of_nat (length v0))); lia. }
  clearbody l0. rewrite copy_cstr_kstr by (unfold USER_STACK_SIZE, USER_STACK_VADDR in *; lia).
  rewrite Z.add_0_r. change (drop (Z.to_nat 0) v0) with v0. rewrite <-Ecut.
  rewrite !wrap_small by (unfold USER_STACK_SIZE, USER_STACK_VADDR in *; lia). rewrite El0.
  replace (n + 2 + 1 + 5 + 1 + 1) with (n + 10) by lia. replace (n + 2 + 1 + 5 + 1) with (n + 9) by lia.
  replace (n + 2 + 1 + 5) with (n + 8) by lia. replace (n + 2 + 1) with (n + 3) by lia.
  fold rest. by same_binds.
Qed.


(** A byte outside the range of the stores of [T]. *)
Ltac kept T := intros; apply (wr_same _ _ _ _ T); lia.

Lemma block_stores_spec R a n sp nlen argv0 rest s s' :
  stack_mem R s -> USER_STACK_VADDR <= a -> a + 8 * (n + 11) <= sp -> 0 <= n ->
  sp + nlen + 1 + strings_size rest + 74 <= TOP -> Z.of_nat (length argv0) <= nlen ->
  Z.of_nat (length rest) <= n -> Forall is_byte argv0 -> Forall (Forall is_byte) rest ->
  block_stores a n sp nlen argv0 rest s = Some s' ->
  wrote R (fun x => a <= x < a + 8 * (Z.of_nat (length rest) + 2) \/ a + 8 * (n + 2) <= x < TOP) s s' /\
  word_at a (n + 1) s' /\
  (exists q, word_at (a + 8) q s' /\ cstring_at q argv0 s') /\
  (exists slo shi, strings_at (a + 16) rest slo shi s') /\
  word_at (a + 8 * (n + 2)) 0 s' /\
  (exists slo shi, strings_at (a + 8 * (n + 3)) def_env slo shi s') /\
  word_at (a + 8 * (n + 8)) 0 s' /\ word_at (a + 8 * (n + 9)) 0 s' /\ word_at (a + 8 * (n + 10)) 0 s'.
Proof.
  intros Hm Ha Hcells Hn Htop H0 Hrest Hb0 Hbr. unfold block_stores.
  assert (H4 : USER_LO <= a /\ TOP <= USER_HI /\ 0 <= a) by (unfold USER_LO, USER_HI, USER_STACK_VADDR, USER_STACK_SIZE in *; lia).
  pose proof (strings_size_nonneg rest) as Hsz.
  repeat case_bind. intros E8.
  apply (put_word_wrote R) in E as [W1 B1]; [|done|lia|lia|lia].
  apply (store_bytes_wrote R) in E0 as [W2 B2]; [|apply W1|lia|lia|done].
  assert (E1' : store_bytes (sp + Z.of_nat (length argv0)) [0] y0 = Some y1) by (simpl; by rewrite E1).
  apply (store_bytes_wrote R) in E1' as [W3 B3]; [|apply W2|lia|cbn [length]; lia|by repeat constructor].
  cbn [length] in W3.
  apply (put_word_wrote R) in E2 as [W4 B4]; [|apply W3|lia|lia|lia].
  apply (put_strings_spec R) in E3 as [W5 B5]; [|apply W4|lia|lia|lia|lia|done].
  apply (put_word_wrote R) in E4 as [W6 B6]; [|apply W5|lia|lia|lia].
  apply (put_word_wrote R) in E5 as [W7 B7]; [|apply W6|lia|lia|lia].
  apply (put_word_wrote R) in E6 as [W8 B8]; [|apply W7|lia|lia|lia].
  pose proof elen_eq as He. 
  apply (put_strings_spec R) in E7 as [W9 B9]; [|apply W8|lia|lia|cbn [length fmap list_fmap def_env]; lia|lia|apply def_env_bytes].
  apply (put_word_wrote R) in E8 as [W10 B10]; [|apply W9|lia|lia|lia].
  rewrite He in *. change (Z.of_nat (length def_env)) with 5 in *.
  pose proof (wrote_trans _ _ _ _ _ _ W9 W10) as T9. pose proof (wrote_trans _ _ _ _ _ _ W8 T9) as T8.
  pose proof (wrote_trans _ _ _ _ _ _ W7 T8) as T7. pose proof (wrote_trans _ _ _ _ _ _ W6 T7) as T6.
  pose proof (wrote_trans _ _ _ _ _ _ W5 T6) as T5. pose proof (wrote_trans _ _ _ _ _ _ W4 T5) as T4.
  pose proof (wrote_trans _ _ _ _ _ _ W3 T4) as T3. pose proof (wrote_trans _ _ _ _ _ _ W2 T3) as T2.
  assert (B23 : cstring_at sp argv0 y1).
  { apply bytes_at_app; [|done]. eapply bytes_at_same; [exact B2|]. kept W3. }
  split; [|split_and!].
  - eapply wrote_weaken; [|exact (wrote_trans _ _ _ _ _ _ W1 T2)]. simpl. lia.
  - rewrite <-(Z.add_0_r a). eapply word_at_same; [exact B1|]. kept T2.
  - exists sp. split; [eapply word_at_same; [exact B4|]; kept T5|].
    eapply bytes_at_same; [exact B23|]. rewrite length_app. cbn [length]. kept T4.
  - eexists _, _. eapply strings_at_same; [exact B5|]. kept T6.
  - eapply word_at_same; [exact B6|]. kept T7.
  - eexists _, _. eapply strings_at_same; [exact B9|]. cbn [length fmap list_fmap def_env]. kept W10.
  - exact B10.
  - eapply word_at_same; [exact B7|]. kept T8.
  - eapply word_at_same; [exact B8|]. kept T9.
Qed.

Lemma vector_at_cons a x l slo shi s :
  (exists q, word_at a q s /\ cstring_at q x s) -> strings_at (a + 8) l slo shi s ->
  word_at (a + 8 * Z.of_nat (S (length l))) 0 s -> vector_at a (x :: l) s.
Proof.
  intros Hx Hl H0. split; [|done]. intros [|k] y Hk; cbn [lookup list_lookup] in Hk.
  - injection Hk as <-. by rewrite Z.mul_0_r, Z.add_0_r.
  - destruct (Hl k y Hk) as (q & Hw & Hc & _). exists q. split; [|done].
    by replace (a + 8 * Z.of_nat (S k)) with (a + 8 + 8 * Z.of_nat k) by lia.
Qed.

Lemma zero_word a s : (forall x, a <= x < a + 8 -> load_byte x s = Some 0) -> word_at a 0 s.
Proof.
  intros Hz i b Hi. pose proof (lookup_lt_Some _ _ _ Hi) as Hlt. rewrite length_le_bytes in Hlt. rewrite Hz by lia.
  change (le_bytes 8 0) with (replicate 8 0) in Hi. by apply lookup_replicate in Hi as [-> _].
Qed.

(** What is stored, and its sizes. *)
Lemma seen_args_block nm vs :
  Forall is_cstr vs ->
  let argv0 := take (length nm) (snd (first_arg nm vs)) in
  let rest := if fst (first_arg nm vs) then tail (take 1023 <$> vs) else take 1023 <$> vs in
  seen_args nm vs = argv0 :: rest /\ strings_size rest <= strings_size (take 1023 <$> vs) /\
  (length rest = length vs \/ S (length rest) = length vs) /\ Forall (Forall is_byte) rest /\
  (is_cstr nm -> is_cstr argv0) /\ Z.of_nat (length argv0) <= Z.of_nat (length nm).
Proof.
  intros Hvs argv0 rest. pose proof (args_bytes vs Hvs) as Hb.
  split_and!; [| | | |intros Hnm; by apply is_cstr_take, first_arg_ok|unfold argv0; rewrite length_take; lia];
    unfold rest, argv0, first_arg, seen_args; destruct vs as [|[|b v] vs]; cbn [fst snd fmap list_fmap tail length] in *;
    rewrite ?strings_size_cons, ?length_fmap; try apply Forall_cons in Hb as [? Hb]; try done; try lia; try (by rewrite (take_ge nm) by lia); auto.
Qed.

(** A program started on a cleared stack finds its arguments and the default
    environment. *)
Lemma stack_image_starts R fuel nm vs s arr s' :
  stack_mem R s -> (forall x, USER_STACK_VADDR <= x < TOP -> load_byte x s = Some 0) ->
  is_cstr nm -> Forall is_cstr vs -> (length nm < fuel)%nat -> Forall (fun v => length v < fuel)%nat vs ->
  block_size nm vs + 32 <= USER_STACK_SIZE ->
  stack_image fuel (KStr nm) (KStr <$> vs) (take 1023 <$> vs) s = Some (arr, s') ->
  USER_STACK_VADDR <= arr < TOP /\ arr mod 16 = 8 /\ wrote R (fun x => arr <= x < TOP) s s' /\
  program_start arr (Z.of_nat (length vs) + 1) (seen_args nm vs) def_env s'.
Proof.
  intros Hm Hz Hnm Hvs Hf1 Hf2 Hsize E.
  destruct (stack_image_stores fuel nm vs Hnm Hvs Hf1 Hf2 Hsize) as (arr' & sp & Ha & Ha16 & Hcells & Htop & Eq).
  rewrite Eq in E. destruct (block_stores _ _ _ _ _ _ s) as [s1|] eqn:Eb; [|done]. injection E as -> ->.
  set (n := Z.of_nat (length vs)) in *. set (argv0 := take _ (snd (first_arg nm vs))) in *.
  set (rest := if fst (first_arg nm vs) then _ else _) in *.
  destruct (seen_args_block nm vs Hvs) as (Eseen & Hsr & Hlr & Hbr & Hb0 & Hl0). specialize (Hb0 Hnm).
  fold argv0 rest in Eseen, Hsr, Hlr, Hbr, Hb0, Hl0.
  pose proof (strings_size_nonneg rest) as Hnn.
  destruct (block_stores_spec R arr n sp (Z.of_nat (length nm)) argv0 rest s s' Hm Ha Hcells ltac:(lia) ltac:(lia) Hl0 ltac:(lia)
    (is_cstr_bytes _ Hb0) Hbr Eb) as (W & Bc & B0 & (slo & shi & Br) & Bn & (elo & ehi & Be) & Bn' & Bx1 & Bx2).
  split; [lia|]. split; [done|]. split; [eapply wrote_weaken; [|exact W]; simpl; lia|].
  split; [done| | |].
  - rewrite Eseen. eapply vector_at_cons; [done| |].
    + by replace (arr + 8 + 8) with (arr + 16) by lia.
    + replace (arr + 8 + 8 * Z.of_nat (S (length rest))) with (arr + 8 * (Z.of_nat (length rest) + 2)) by lia.
      destruct Hlr as [Hlr|Hlr]; [by rewrite Hlr|].
      apply zero_word. intros x Hx. rewrite (wr_same _ _ _ _ W);
        [apply Hz; lia|unfold USER_LO, USER_HI, USER_STACK_VADDR, USER_STACK_SIZE in *; lia|lia].
  - replace (arr + 8 * (n + 1 + 2)) with (arr + 8 * (n + 3)) by lia. split.
    + intros k x Hk. destruct (Be k x Hk) as (q & Hw & Hc & _). by exists q.
    + cbn [length fmap list_fmap def_env]. by replace (arr + 8 * (n + 3) + 8 * Z.of_nat 5) with (arr + 8 * (n + 8)) by lia.
  - cbn [length fmap list_fmap def_env]. intros [|[|i]] Hi; [| |lia].
    + by replace (n + 1 + 3 + Z.of_nat 5 + Z.of_nat 0) with (n + 9) by lia.
    + by replace (n + 1 + 3 + Z.of_nat 5 + Z.of_nat 1) with (n + 10) by lia.
Qed.

(** ** The stores succeed *)

Lemma store_bytes_total R a bs s :
  stack_mem R s -> USER_STACK_VADDR <= a -> a + Z.of_nat (length bs) <= TOP -> Forall is_byte bs ->
  exists s', store_bytes a bs s = Some s' /\ stack_mem R s'.
Proof.
  intros Hm Ha Hend Hbs. pose proof Hm as [Hwin Hback Hmap]. unfold USER_STACK_SIZE in *.
  destruct (store_bytes_enough a bs R s USER_STACK_VADDR ustack_pages Hwin eq_refl) as (s' & E & _); try done.
  exists s'. split; [done|]. by apply (store_bytes_wrote R) in E as [[? _ _ _] _].
Qed.

Lemma put_word_total R a i v s :
  stack_mem R s -> 0 <= a -> USER_STACK_VADDR <= a + 8 * i -> a + 8 * i + 8 <= TOP ->
  exists s', put_word a i v s = Some s' /\ stack_mem R s'.
Proof.
  intros Hm H0 Hlo Hhi. unfold put_word. rewrite wrap_small by (unfold USER_STACK_VADDR, USER_STACK_SIZE in *; lia).
  apply store_bytes_total; [done|done|rewrite length_le_bytes; lia|apply Forall_le_bytes].
Qed.

Lemma put_strings_total R a i sp l s :
  stack_mem R s -> 0 <= a -> USER_STACK_VADDR <= a + 8 * i -> a + 8 * (i + Z.of_nat (length l)) <= sp ->
  sp + strings_size l <= TOP -> Forall (Forall is_byte) l ->
  exists sp' s', put_strings a i sp l s = Some (sp', s') /\ stack_mem R s'.
Proof.
  intros Hm H0. revert i sp s Hm. induction l as [|x l IH]; intros i sp s Hm Hlo Hcells Htop Hbytes; [by eexists _, _|].
  rewrite strings_size_cons in *. cbn [put_strings length] in *. apply Forall_cons in Hbytes as [Hx Hl].
  pose proof (strings_size_nonneg l).
  destruct (store_bytes_total R sp (x ++ [0]) s Hm) as (s1 & -> & Hm1); [lia|rewrite length_app; simpl; lia| |].
  { apply Forall_app. split; [done|]. constructor; [by unfold is_byte|constructor]. }
  cbn [mbind option_bind]. destruct (put_word_total R a i sp s1 Hm1) as (s2 & -> & Hm2); [done|lia|lia|].
  cbn [mbind option_bind]. rewrite wrap_small by (unfold USER_STACK_VADDR, USER_STACK_SIZE in *; lia).
  apply IH; [done|lia|lia|lia|done].
Qed.

Lemma block_stores_total R a n sp nlen argv0 rest s :
  stack_mem R s -> USER_STACK_VADDR <= a -> a + 8 * (n + 11) <= sp -> 0 <= n ->
  sp + nlen + 1 + strings_size rest + 74 <= TOP -> Z.of_nat (length argv0) <= nlen ->
  Z.of_nat (length rest) <= n -> Forall is_byte argv0 -> Forall (Forall is_byte) rest ->
  exists s', block_stores a n sp nlen argv0 rest s = Some s'.
Proof.
  intros Hm Ha Hcells Hn Htop H0 Hrest Hb0 Hbr. unfold block_stores. pose proof (strings_size_nonneg rest).
  assert (Ha0 : 0 <= a) by (unfold USER_STACK_VADDR in *; lia). pose proof elen_eq as He.
  destruct (put_word_total R a 0 (n + 1) s Hm) as (s1 & -> & M1); [lia..|]. cbn [mbind option_bind].
  destruct (store_bytes_total R sp argv0 s1 M1) as (s2 & -> & M2); [lia|lia|done|]. cbn [mbind option_bind].
  destruct (store_bytes_total R (sp + Z.of_nat (length argv0)) [0] s2 M2) as (s3 & E3 & M3);
    [lia|cbn [length]; lia|by repeat constructor|].
  cbn [store_bytes] in E3. destruct (store_byte _ 0 s2) as [t3|]; [|done]. injection E3 as ->. cbn [mbind option_bind].
  destruct (put_word_total R a 1 sp s3 M3) as (s4 & -> & M4); [lia..|]. cbn [mbind option_bind].
  destruct (put_strings_total R a 2 (sp + (nlen + 1)) rest s4 M4) as (? & s5 & -> & M5); [lia..|done|]. cbn [mbind option_bind].
  destruct (put_word_total R a (n + 2) 0 s5 M5) as (s6 & -> & M6); [lia..|]. cbn [mbind option_bind].
  destruct (put_word_total R a (n + 9) 0 s6 M6) as (s7 & -> & M7); [lia..|]. cbn [mbind option_bind].
  destruct (put_word_total R a (n + 10) 0 s7 M7) as (s8 & -> & M8); [lia..|]. cbn [mbind option_bind].
  destruct (put_strings_total R a (n + 3) (TOP - 74) def_env s8 M8) as (? & s9 & -> & M9);
    [lia|lia|cbn [length fmap list_fmap def_env]; lia|lia|apply def_env_bytes|]. cbn [mbind option_bind].
  destruct (put_word_total R a (n + 8) 0 s9 M9) as (s10 & -> & _); [lia..|]. by exists s10.
Qed.

Lemma stack_image_total R fuel nm vs s :
  stack_mem R s -> is_cstr nm -> Forall is_cstr vs -> (length nm < fuel)%nat ->
  Forall (fun v => length v < fuel)%nat vs -> block_size nm vs + 32 <= USER_STACK_SIZE ->
  exists arr s', stack_image fuel (KStr nm) (KStr <$> vs) (take 1023 <$> vs) s = Some (arr, s').
Proof.
  intros Hm Hnm Hvs Hf1 Hf2 Hsize.
  destruct (stack_image_stores fuel nm vs Hnm Hvs Hf1 Hf2 Hsize) as (arr & sp & Ha & Ha16 & Hcells & Htop & Eq).
  destruct (seen_args_block nm vs Hvs) as (_ & Hsr & Hlr & Hbr & Hb0 & Hl0). specialize (Hb0 Hnm).
  set (argv0 := take _ (snd (first_arg nm vs))) in *. set (rest := if fst (first_arg nm vs) then _ else _) in *.
  destruct (block_stores_total R arr (Z.of_nat (length vs)) sp (Z.of_nat (length nm)) argv0 rest s Hm Ha Hcells ltac:(lia) ltac:(lia) Hl0 ltac:(lia)
    (is_cstr_bytes _ Hb0) Hbr) as [s' Eb].
  exists arr, s'. by rewrite Eq, Eb.
Qed.

(** * The pages a new process gets besides its image: the user stack and the TLS
    page, cleared and mapped to frames of their own. *)

(** ** Cleared pages mapped in a window *)

(** Pages of a window backed by cleared frames of their own. *)
Record cleared (R : list Z) (a n : Z) (s s' : vm) : Prop := {
  cl_win : exists F, window USER_LO USER_HI (F ++ R) s';
  cl_byte x : USER_LO <= x < USER_HI ->
    load_byte x s' = if decide (a <= x < a + n * 4096) then Some 0 else load_byte x s;
  cl_back : backed a n s';
  cl_map p : p mod 4096 = 0 -> a <= p < a + n * 4096 -> vmm_get_phys p s' <> 0;
  cl_other x : USER_LO <= x < USER_HI -> ~ (a <= x < a + n * 4096) -> vmm_get_phys x s' = vmm_get_phys x s;
  cl_pages p : p ∈ R -> pages s' !! p = pages s !! p;
}.

Lemma mapped_cleared R a F s s' :
  window USER_LO USER_HI R s -> a mod 4096 = 0 -> USER_LO <= a -> a + npages_of F * 4096 <= USER_HI ->
  holds_still R s s' -> wf (reserve (F ++ R) s') -> Forall (fun f => pages s' !! f = Some zero_page) F ->
  frames_at a F s' ->
  (forall x, 0 <= x < 2 ^ 48 -> ~ (a <= x < a + npages_of F * 4096) -> vmm_get_phys x s' = vmm_get_phys x s) ->
  cleared R a (npages_of F) s s'.
Proof.
  intros Hwin Hal Hlo Hhi Hst Hwf Hz Hfr Hx. unfold USER_HI, USER_LO in *.
  destruct (window_map _ _ R a F s s' user_win Hwin Hal Hlo Hhi Hst Hwf Hfr Hx) as [Hwin' Hmap].
  assert (Hpage : forall p, p mod 4096 = 0 -> a <= p < a + npages_of F * 4096 ->
    exists f, f ∈ F /\ forall o, 0 <= o < 4096 -> vmm_get_phys (p + o) s' = f + o).
  { intros p Hp Hr. destruct (frames_page a F s' p Hfr Hal Hp Hr) as (i & f & Hi & _ & Ho). exists f.
    split; [by eapply list_elem_of_lookup_2|]. intros o Hoo. by apply Ho. }
  rewrite Forall_forall in Hz. split.
  - by exists F.
  - intros x Hxr. destruct (decide (a <= x < a + npages_of F * 4096)) as [Hin|Hout].
    + destruct (Hpage (x - x mod 4096)) as (f & Hf & Ho); [zify_div|zify_div|].
      specialize (Ho (x mod 4096) ltac:(by apply Z.mod_pos_bound)).
      replace (x - x mod 4096 + x mod 4096) with x in Ho by lia.
      destruct (reserved_pages _ _ Hwf) as (_ & [Hok _]%Forall_app & _). rewrite Forall_forall in Hok.
      destruct (Hok f Hf) as [Hfp Hfa]. pose proof (Z.mod_pos_bound x 4096 ltac:(lia)).
      unfold load_byte. rewrite Ho. destruct (Z.eqb_spec (f + x mod 4096) 0); [lia|].
      destruct (frame_parts f (x mod 4096) Hfa ltac:(done)) as (E1 & E2 & E3). rewrite E1, E2, E3.
      unfold entry. rewrite (Hz f Hf). cbn [mbind option_bind]. f_equal.
      replace (default 0 (zero_page !! Z.to_nat (x mod 4096 / 8))) with 0; [by apply byte_of_0|].
      unfold zero_page. destruct (replicate 512 0 !! _) as [z|] eqn:Ez; [|done]. by apply lookup_replicate in Ez as [-> _].
    + apply (load_byte_same _ _ R s s' x user_win Hwin Hxr); [apply Hx; [unfold USER_LO, USER_HI in *; lia|done]|].
      apply (hs_pages _ _ _ Hst).
  - intros p Hp Hr. destruct (Hpage p Hp Hr) as (f & Hf & Ho). specialize (Ho 0 ltac:(lia)). rewrite !Z.add_0_r in Ho.
    rewrite Ho. exists zero_page. split; [by apply Hz|apply length_replicate].
  - intros p Hp Hr. apply Hmap; [split; [unfold USER_LO, USER_HI; lia|done]|by right].
  - intros x Hxr Hne. apply Hx; [unfold USER_LO, USER_HI in *; lia|done].
  - apply (hs_pages _ _ _ Hst).
Qed.

(** ** The stack *)

Lemma ustack_cleared R s s' :
  window USER_LO USER_HI R s -> user_map_pages USER_STACK_VADDR ustack_pages s = Some (true, s') ->
  cleared R USER_STACK_VADDR ustack_pages s s'.
Proof.
  intros Hwin E. unfold user_map_pages in E.
  assert (Htame : tame (USER_STACK_VADDR + 0 * 4096) (USER_STACK_VADDR + ustack_pages * 4096) s).
  { intros v Hv. apply (wd_tame _ _ _ _ Hwin). change (0x70000000 <= v < 0x70080000) in Hv. unfold USER_LO, USER_HI. lia. }
  destruct (map_pages_loop_spec _ 0 USER_STACK_VADDR ustack_pages R s true s' (wd_wf _ _ _ _ Hwin) ltac:(done) eq_refl
    ltac:(done) ltac:(done) Htame E)
    as (F & [Hst Hwf _ Hz Hfr Hx Hd]).
  rewrite Z.sub_0_r in Hd. rewrite Z.mul_0_l, Z.add_0_r in Hfr, Hx. rewrite <-Hd.
  apply mapped_cleared; try done. by rewrite Hd.
Qed.

Lemma ustack_pages_eq : ustack_pages * 4096 = USER_STACK_SIZE.
Proof. reflexivity. Qed.

Lemma cleared_stack_mem R s s' :
  cleared R USER_STACK_VADDR ustack_pages s s' -> exists F, stack_mem (F ++ R) s'.
Proof.
  intros [[F Hwin] _ Hb Hm _ _]. exists F. split; [done|done|]. intros p Hp Hr. apply Hm; [done|].
  by rewrite ustack_pages_eq.
Qed.

(** The stack stays what it is when other pages are mapped. *)
Lemma stack_mem_step R R' s s' :
  stack_mem R s -> window USER_LO USER_HI R' s' ->
  (forall p, p mod 4096 = 0 -> USER_STACK_VADDR <= p < TOP -> vmm_get_phys p s' = vmm_get_phys p s) ->
  (forall f, f ∈ R -> full_page s f -> full_page s' f) -> stack_mem R' s'.
Proof.
  intros [Hwin Hb Hm] Hwin' Hph Hf. split; [done| |].
  - intros p Hp Hr. assert (Hr' : USER_STACK_VADDR <= p < TOP) by (by rewrite <-ustack_pages_eq).
    rewrite Hph by done. apply Hf; [|by apply Hb].
    apply (wd_page _ _ _ _ Hwin p); [split; [unfold USER_LO, USER_HI, USER_STACK_VADDR, USER_STACK_SIZE in *; lia|done]|].
    by apply Hm.
  - intros p Hp Hr. rewrite Hph by done. by apply Hm.
Qed.

(** ** The TLS page *)

Lemma tls_vaddr_eq slot : (slot < 64)%nat -> tls_vaddr slot = THREAD_TLS_VADDR + Z.of_nat slot * 4096.
Proof. intros Hs. unfold tls_vaddr, THREAD_TLS_VADDR. rewrite wrap_small; lia. Qed.

(** The TLS page of a process: its own address first, its id at offset 520. *)
Record tls_written (R : list Z) (slot : nat) (tid : Z) (s s' : vm) : Prop := {
  tw_win : exists F, window USER_LO USER_HI (F ++ R) s';
  tw_self : word_at (tls_vaddr slot) (tls_vaddr slot) s';
  tw_tid : word_at (tls_vaddr slot + 520) (u64 tid) s';
  tw_byte x : USER_LO <= x < USER_HI -> ~ (tls_vaddr slot <= x < tls_vaddr slot + 4096) -> load_byte x s' = load_byte x s;
  tw_other x : USER_LO <= x < USER_HI -> ~ (tls_vaddr slot <= x < tls_vaddr slot + 4096) ->
    vmm_get_phys x s' = vmm_get_phys x s;
  tw_full f : f ∈ R -> full_page s f -> full_page s' f;
}.

Lemma map_tls_step slot tid s :
  map_tls slot tid s =
    let '(f, s1) := pmm_alloc s in
    if f =? 0 then Some (false, s1)
    else s2 ← map_one (tls_vaddr slot) f s1;
         s3 ← store_bytes (u64 (tls_vaddr slot + 520)) (le_bytes 8 (u64 tid)) s2;
         s4 ← store_bytes (tls_vaddr slot) (le_bytes 8 (tls_vaddr slot)) s3; Some (true, s4).
Proof. done. Qed.

Lemma tls_page slot : (slot < 64)%nat ->
  tls_vaddr slot mod 4096 = 0 /\ USER_LO <= tls_vaddr slot /\ tls_vaddr slot + 4096 <= USER_HI.
Proof. intros Hs. rewrite tls_vaddr_eq by done. unfold USER_LO, USER_HI, THREAD_TLS_VADDR. zify_div. Qed.

(** One page mapped and cleared. *)
Lemma page_cleared R va f s s1 s2 :
  window USER_LO USER_HI R s -> va mod 4096 = 0 -> USER_LO <= va -> va + 4096 <= USER_HI ->
  pmm_alloc s = (f, s1) -> f <> 0 -> map_one va f s1 = Some s2 -> cleared R va 1 s s2.
Proof.
  intros Hwin Hal Hlo Hhi Ea Hf Em.
  pose proof (wd_wf _ _ _ _ Hwin) as Hwf. destruct (alloc_holds_still R s f s1 Hwf Ea Hf) as (Hst1 & Hwf1 & _ & Hx1).
  assert (Htame : tame va (va + 4096) s1).
  { apply (tame_step R _ _ s s1 Hst1); [done|]. intros v Hv. apply (wd_tame _ _ _ _ Hwin). lia. }
  destruct (map_one_spec R va f s1 s2 Hwf1 Hal ltac:(unfold USER_LO in *; lia) ltac:(unfold USER_HI in *; lia) Htame Em)
    as (Hst2 & Hwf2 & Hz & Hfr & Hx2).
  change 1 with (npages_of [f]). apply mapped_cleared; try done; [by eapply holds_still_trans|by constructor|].
  change (npages_of [f]) with 1. intros x Hx Hne. rewrite Hx2, Hx1 by (try lia; done). done.
Qed.

Lemma map_tls_spec R slot tid s s' :
  window USER_LO USER_HI R s -> (slot < 64)%nat -> map_tls slot tid s = Some (true, s') ->
  tls_written R slot tid s s'.
Proof.
  intros Hwin Hslot. rewrite map_tls_step. destruct (pmm_alloc s) as [f s1] eqn:Ea.
  destruct (Z.eqb_spec f 0) as [|Hf]; [done|]. set (va := tls_vaddr slot).
  destruct (tls_page slot Hslot) as (Hal & Hlo & Hhi). fold va in Hal, Hlo, Hhi.
  rewrite wrap_small by (unfold USER_LO, USER_HI in *; lia).
  destruct (map_one va f s1) as [s2|] eqn:Em; [|done]. cbn [mbind option_bind].
  destruct (page_cleared R va f s s1 s2 Hwin Hal Hlo Hhi Ea Hf Em) as [[F Hw2] Hb2 Hback _ Ho2 Hp2].
  destruct (store_bytes _ _ s2) as [s3|] eqn:E3; [|done]. cbn [mbind option_bind].
  destruct (store_bytes_spec (va + 520) (le_bytes 8 (u64 tid)) (F ++ R) s2 s3 va 1 Hw2 Hal Hlo ltac:(lia) Hback ltac:(lia) ltac:(rewrite length_le_bytes; lia)
    (Forall_le_bytes _ _) E3) as (Hw3 & Hph3 & Hfull3 & Hb3). rewrite length_le_bytes in Hb3.
  destruct (store_bytes va _ s3) as [s4|] eqn:E4; [|done]. intros [= <-].
  assert (Hback3 : backed va 1 s3) by (intros p Hp Hr; rewrite Hph3; by apply Hfull3, Hback).
  destruct (store_bytes_spec va (le_bytes 8 va) (F ++ R) s3 s4 va 1 Hw3 Hal Hlo ltac:(lia) Hback3 ltac:(lia) ltac:(rewrite length_le_bytes; lia)
    (Forall_le_bytes _ _) E4) as (Hw4 & Hph4 & Hfull4 & Hb4). rewrite length_le_bytes in Hb4. split; fold va.
  - by exists F.
  - intros i b Hi. pose proof (lookup_lt_Some _ _ _ Hi) as Hlt. rewrite length_le_bytes in Hlt.
    rewrite Hb4, decide_True by lia. by replace (Z.to_nat (va + Z.of_nat i - va)) with i by lia.
  - intros i b Hi. pose proof (lookup_lt_Some _ _ _ Hi) as Hlt. rewrite length_le_bytes in Hlt.
    rewrite Hb4, decide_False, Hb3, decide_True by lia. by replace (Z.to_nat (va + 520 + Z.of_nat i - (va + 520))) with i by lia.
  - intros x Hx Hne. rewrite Hb4, decide_False, Hb3, decide_False, Hb2, decide_False by lia. done.
  - intros x Hx Hne. rewrite Hph4, Hph3. apply Ho2; [done|lia].
  - intros g Hg [l [Hl Hlen]]. apply Hfull4, Hfull3. exists l. by rewrite Hp2.
Qed.

Lemma map_tls_enough R slot tid s :
  window USER_LO USER_HI R s -> (slot < 64)%nat -> (6 <= length (free_pages_stack s))%nat ->
  exists s', map_tls slot tid s = Some (true, s').
Proof.
  intros Hwin Hslot Hroom. rewrite map_tls_step. set (va := tls_vaddr slot).
  destruct (tls_page slot Hslot) as (Hal & Hlo & Hhi). fold va in Hal, Hlo, Hhi.
  pose proof Hlo as Hlo'. pose proof Hhi as Hhi'. unfold USER_LO, USER_HI in Hlo', Hhi'.
  rewrite wrap_small by lia.
  destruct (map_pages_enough 2 0 va 1 R s (wd_wf _ _ _ _ Hwin) ltac:(lia) Hal) as (s2 & E & _); [lia..| |].
  { intros x Hx. apply (wd_tame _ _ _ _ Hwin). lia. }
  rewrite map_pages_loop_step in E. change (0 <? 1) with true in E. cbv iota in E.
  destruct (pmm_alloc s) as [f s1] eqn:Ea. destruct (Z.eqb_spec f 0) as [|Hf]; [done|].
  rewrite Z.mul_0_l, Z.add_0_r, wrap_small in E by lia. destruct (map_one va f s1) as [s3|] eqn:Em; [|done]. clear E.
  cbn [mbind option_bind].
  destruct (page_cleared R va f s s1 s3 Hwin Hal Hlo Hhi Ea Hf Em) as [[F Hw3] _ Hback Hmap _ _].
  assert (Hrange : va <= va + 520 /\ va + 520 + 8 <= va + 1 * 4096) by lia.
  destruct (store_bytes_enough (va + 520) (le_bytes 8 (u64 tid)) (F ++ R) s3 va 1 Hw3 Hal Hlo ltac:(lia) Hback ltac:(lia)
    ltac:(rewrite length_le_bytes; lia) (Forall_le_bytes _ _) Hmap) as (s4 & E4 & _).
  destruct (store_bytes_spec (va + 520) (le_bytes 8 (u64 tid)) (F ++ R) s3 s4 va 1 Hw3 Hal Hlo ltac:(lia) Hback ltac:(lia)
    ltac:(rewrite length_le_bytes; lia) (Forall_le_bytes _ _) E4) as (Hw4 & Hph4 & Hfull4 & _).
  rewrite E4. cbn [mbind option_bind].
  assert (Hback4 : backed va 1 s4) by (intros p Hp Hr; rewrite Hph4; by apply Hfull4, Hback).
  destruct (store_bytes_enough va (le_bytes 8 va) (F ++ R) s4 va 1 Hw4 Hal Hlo ltac:(lia) Hback4 ltac:(lia)
    ltac:(rewrite length_le_bytes; lia) (Forall_le_bytes _ _)) as (s5 & E5 & _).
  { intros p Hp Hr. rewrite Hph4. by apply Hmap. }
  rewrite E5. by exists s5.
Qed.
