(* ===== verification/SpawnProps.v ===== *)
(** What [create_user_process_elf_redir] makes of an address space: the program
    finds its image, its arguments, its environment and its TLS page, and the
    process that starts it keeps its own memory. *)
From Stdlib Require Import ZArith Lia.
From stdpp Require Import base numbers list gmap strings.
From S2P Require Import Prelude HeapIface Vmm VmmSpec VmmProps VmmFrame UserSpace UserMem UserMemSpec Elf ElfProps.
From S2P Require Import UserHeap UserHeapMap Apart Fork ForkSpec ForkSpace Spawn SpawnMem.

#[local] Notation TOP := (USER_STACK_VADDR + USER_STACK_SIZE).

(** The strings of a spawn: C strings that fit the stack and the fuel. *)
Record spawn_args (fuel : nat) (nm : list Z) (vs : list (list Z)) : Prop := {
  sa_name : is_cstr nm;
  sa_args : Forall is_cstr vs;
  sa_name_fuel : (length nm < fuel)%nat;
  sa_args_fuel : Forall (fun v => length v < fuel)%nat vs;
  sa_fits : block_size nm vs + 32 <= USER_STACK_SIZE;
}.

(** The address is in the stack or in the TLS page of the slot. *)
Definition own_page (slot : nat) (x : Z) : Prop :=
  USER_STACK_VADDR <= x < TOP \/ tls_vaddr slot <= x < tls_vaddr slot + 4096.

(** A process in the space [s], whose user bytes were [before]. *)
Record process_built (data : list Z) (size : Z) (nm : list Z) (vs : list (list Z)) (slot : nat) (tid e arr : Z)
    (before : Z -> option Z) (s : vm) : Prop := {
  pb_stack : USER_STACK_VADDR <= arr < TOP /\ arr mod 16 = 8;
  pb_start : program_start arr (Z.of_nat (length vs) + 1) (seen_args nm vs) def_env s;
  pb_tls : word_at (tls_vaddr slot) (tls_vaddr slot) s /\ word_at (tls_vaddr slot + THREAD_TLS_SELF_OFF) (u64 tid) s;
  pb_image : exists eh phs,
    header_at data = Some eh /\ e = e_entry eh /\ phdrs_from (Z.to_nat (e_phnum eh)) 0 eh data = Some phs /\
    forall x, USER_LO <= x < USER_HI -> ~ own_page slot x -> load_byte x s = image_byte data size phs x (before x);
}.

Section Image.
Context (R : list Z) (fuel : nat) (data : list Z) (size : Z) (nm : list Z) (vs : list (list Z)) (slot : nat) (tid : Z).
Context (Hdata : Forall is_byte data) (Hargs : spawn_args fuel nm vs) (Hslot : (slot < 64)%nat).

Lemma tls_below x : tls_vaddr slot <= x < tls_vaddr slot + 4096 -> USER_LO <= x < USER_STACK_VADDR.
Proof. rewrite (tls_vaddr_eq slot Hslot). unfold USER_LO, USER_STACK_VADDR, THREAD_TLS_VADDR. lia. Qed.

Lemma stack_in_user x : USER_STACK_VADDR <= x < TOP -> USER_LO <= x < USER_HI.
Proof. unfold USER_STACK_VADDR, USER_STACK_SIZE, USER_LO, USER_HI. lia. Qed.

(** The stack and the TLS page, before the arguments are written. *)
Lemma own_pages_spec Q s s1 s2 :
  window USER_LO USER_HI Q s -> user_map_pages USER_STACK_VADDR ustack_pages s = Some (true, s1) ->
  map_tls slot tid s1 = Some (true, s2) ->
  exists R', stack_mem R' s2 /\ (forall x, USER_STACK_VADDR <= x < TOP -> load_byte x s2 = Some 0) /\
    word_at (tls_vaddr slot) (tls_vaddr slot) s2 /\ word_at (tls_vaddr slot + 520) (u64 tid) s2 /\
    forall x, USER_LO <= x < USER_HI -> ~ own_page slot x -> load_byte x s2 = load_byte x s.
Proof.
  intros Hwin E1 E2. pose proof (ustack_cleared Q s s1 Hwin E1) as Hcl.
  destruct (cleared_stack_mem Q s s1 Hcl) as [F Hm]. pose proof (sm_win _ _ Hm) as Hw1.
  destruct (map_tls_spec (F ++ Q) slot tid s1 s2 Hw1 Hslot E2) as [[F2 Hw2] Hself Htid Hb Ho Hf].
  assert (Hout : forall x, USER_STACK_VADDR <= x < TOP -> ~ (tls_vaddr slot <= x < tls_vaddr slot + 4096)).
  { intros x Hx Ht. apply tls_below in Ht. lia. }
  exists (F2 ++ F ++ Q). split; [|split; [|split; [done|split; [done|]]]].
  - apply (stack_mem_step (F ++ Q) _ s1 s2 Hm Hw2); [|done].
    intros p _ Hp. apply Ho; [by apply stack_in_user|by apply Hout].
  - intros x Hx. rewrite Hb by (done || by apply stack_in_user || by apply Hout).
    rewrite (cl_byte _ _ _ _ _ Hcl) by (by apply stack_in_user). rewrite ustack_pages_eq. by rewrite decide_True.
  - intros x Hx Hno. unfold own_page in Hno. rewrite Hb by tauto. rewrite (cl_byte _ _ _ _ _ Hcl) by done.
    rewrite ustack_pages_eq. rewrite decide_False by tauto. done.
Qed.

Lemma user_image_built pml4 s0 r s' :
  window USER_LO USER_HI R s0 ->
  user_image fuel data size (KStr nm) (KStr <$> vs) (take 1023 <$> vs) slot tid pml4 s0 = Some (r, s') ->
  match r with
  | Failed _ => True
  | Spawned p e arr => p = pml4 /\ process_built data size nm vs slot tid e arr (fun x => load_byte x s0) s'
  end.
Proof.
  intros Hwin. unfold user_image. destruct (elf_load data size s0) as [[[e|] s1]|] eqn:Ee; [| |done];
    cbn [mbind option_bind]; [|by intros [= <- _]].
  destruct (elf_load_inv _ _ _ _ _ Ee) as (Hsize & eh & phs & Heh & _ & -> & Ep & Hall & El).
  destruct (load_loop_spec _ _ _ _ _ _ _ _ _ Hdata Hsize Ep Hall Hwin El) as (F & Hw1 & _ & Hb1).
  destruct (user_map_pages _ _ s1) as [[[] s2]|] eqn:Em; [| |done]; cbn [mbind option_bind negb]; [|by intros [= <- _]].
  destruct (map_tls slot tid s2) as [[[] s3]|] eqn:Et; [| |done]; cbn [mbind option_bind negb]; [|by intros [= <- _]].
  destruct (stack_image _ _ _ _ s3) as [[arr s4]|] eqn:Es; [|done]. cbn [mbind option_bind]. intros [= <- <-].
  split; [done|]. destruct Hargs as [Hnm Hvs Hf1 Hf2 Hfit].
  destruct (own_pages_spec (F ++ R) s1 s2 s3 Hw1 Em Et) as (R' & Hm & Hz & Hself & Htid & Hb).
  destruct (stack_image_starts R' fuel nm vs s3 arr s4 Hm Hz Hnm Hvs Hf1 Hf2 Hfit Es) as (Ha & Ha16 & W & Hps).
  split; [done|done| |].
  - unfold THREAD_TLS_SELF_OFF. split; (eapply word_at_same; [eassumption|]); intros x Hx;
      (apply (wr_same _ _ _ _ W); [|intros Hn]).
    + destruct (tls_below x) as [? ?]; [lia|]. unfold USER_STACK_VADDR, USER_HI in *. lia.
    + destruct (tls_below x) as [? ?]; lia.
    + destruct (tls_below x) as [? ?]; [lia|]. unfold USER_STACK_VADDR, USER_HI in *. lia.
    + destruct (tls_below x) as [? ?]; lia.
  - exists eh, phs. split_and!; try done. intros x Hx Hno. rewrite (wr_same _ _ _ _ W); [|done|].
    + rewrite Hb, Hb1 by done. done.
    + intros Hn. apply Hno. left. lia.
Qed.

(** *** Pages of others *)

Lemma apart_map_tls D s ok s' : apart D s -> map_tls slot tid s = Some (ok, s') -> kept_apart D s s'.
Proof.
  intros Hap. rewrite map_tls_step. destruct (pmm_alloc s) as [f s1] eqn:Ea. destruct (Z.eqb_spec f 0) as [Hf|Hf].
  { intros [= _ <-]. rewrite (apart_alloc D s f s1 Hap Ea Hf). by apply kept_refl. }
  destruct (tls_page slot Hslot) as (Hal & Hlo & Hhi). rewrite wrap_small by (unfold USER_LO, USER_HI in *; lia).
  destruct (map_one _ f s1) as [s2|] eqn:Em; [|done]. cbn [mbind option_bind].
  pose proof (apart_map_one D s f s1 (tls_vaddr slot) s2 Hap Ea Hf ltac:(split; [lia|done]) Em) as K1.
  destruct (store_bytes _ _ s2) as [s3|] eqn:E3; [|done]. cbn [mbind option_bind].
  pose proof (apart_stores D (le_bytes 8 (u64 tid)) s2 (tls_vaddr slot + 520) s3 (ka_apart _ _ _ K1) ltac:(lia) ltac:(rewrite length_le_bytes; lia) E3) as K2.
  destruct (store_bytes _ _ s3) as [s4|] eqn:E4; [|done]. intros [= _ <-].
  pose proof (apart_stores D (le_bytes 8 (tls_vaddr slot)) s3 (tls_vaddr slot) s4 (ka_apart _ _ _ K2) ltac:(lia) ltac:(rewrite length_le_bytes; lia) E4) as K3.
  eapply kept_trans; [exact K1|]. by eapply kept_trans.
Qed.

Lemma user_image_kept pml4 D s0 r s' :
  window USER_LO USER_HI R s0 -> apart D s0 ->
  user_image fuel data size (KStr nm) (KStr <$> vs) (take 1023 <$> vs) slot tid pml4 s0 = Some (r, s') ->
  kept_apart D s0 s'.
Proof.
  intros Hwin Hap. unfold user_image. destruct (elf_load data size s0) as [[e s1]|] eqn:Ee; [|done]. cbn [mbind option_bind].
  pose proof (apart_elf_load D data size s0 e s1 Hdata Hap Ee) as K1. destruct e as [e|]; [|by intros [= _ <-]].
  destruct (elf_load_inv _ _ _ _ _ Ee) as (Hsize & eh & phs & Heh & _ & -> & Ep & Hall & El).
  destruct (load_loop_spec _ _ _ _ _ _ _ _ _ Hdata Hsize Ep Hall Hwin El) as (F & Hw1 & _ & _).
  destruct (user_map_pages _ _ s1) as [[ok s2]|] eqn:Em; [|done]. cbn [mbind option_bind].
  assert (K2 : kept_apart D s0 s2).
  { eapply kept_trans; [exact K1|]. unfold user_map_pages in Em.
    exact (apart_map_pages D _ 0 USER_STACK_VADDR ustack_pages s1 ok s2 (ka_apart _ _ _ K1) eq_refl ltac:(done) ltac:(done) ltac:(lia) Em). }
  destruct ok; cbn [negb]; [|by intros [= _ <-]].
  destruct (map_tls slot tid s2) as [[ok s3]|] eqn:Et; [|done]. cbn [mbind option_bind].
  assert (K3 : kept_apart D s0 s3) by (eapply kept_trans; [exact K2|]; eapply apart_map_tls; [apply K2|exact Et]).
  destruct ok; cbn [negb]; [|by intros [= _ <-]].
  destruct (stack_image _ _ _ _ s3) as [[arr s4]|] eqn:Es; [|done]. cbn [mbind option_bind]. intros [= _ <-].
  destruct Hargs as [Hnm Hvs Hf1 Hf2 Hfit].
  destruct (own_pages_spec (F ++ R) s1 s2 s3 Hw1 Em Et) as (R' & Hm & Hz & _).
  destruct (stack_image_starts R' fuel nm vs s3 arr s4 Hm Hz Hnm Hvs Hf1 Hf2 Hfit Es) as (_ & _ & W & _).
  eapply kept_trans; [exact K3|]. apply (wr_kept _ _ _ _ W), K3.
Qed.

(** *** With enough memory *)

Lemma user_image_enough pml4 s0 eh phs :
  window USER_LO USER_HI R s0 -> valid_image data size eh phs ->
  6 * total seg_bytes phs + 6 * USER_STACK_SIZE + 6 * 4096 <= 4096 * Z.of_nat (length (free_pages_stack s0)) ->
  exists arr s', user_image fuel data size (KStr nm) (KStr <$> vs) (take 1023 <$> vs) slot tid pml4 s0 =
    Some (Spawned pml4 (e_entry eh) arr, s').
Proof.
  intros Hwin Hv Hroom. unfold user_image.
  assert (H0 : 0 <= total seg_bytes phs).
  { apply total_bytes_nonneg. intros q _. unfold seg_bytes. case_match; lia. }
  destruct (elf_load_enough R data size s0 eh phs Hwin Hv) as (s1 & Ee & Hl1); [unfold USER_STACK_SIZE in *; lia|].
  rewrite Ee. cbn [mbind option_bind].
  destruct (elf_load_inv _ _ _ _ _ Ee) as (Hsize & eh' & phs' & Heh & _ & _ & Ep & Hall & El).
  destruct (load_loop_spec _ _ _ _ _ _ _ _ _ Hdata Hsize Ep Hall Hwin El) as (F & Hw1 & _ & _).
  assert (Htame : tame (USER_STACK_VADDR + 0 * 4096) (USER_STACK_VADDR + ustack_pages * 4096) s1).
  { intros v Hx. apply (wd_tame _ _ _ _ Hw1). change (0x70000000 <= v < 0x70080000) in Hx. unfold USER_LO, USER_HI. lia. }
  assert (Hn : ustack_pages = 128) by reflexivity.
  destruct (map_pages_enough (S (length (free_pages_stack s1))) 0 USER_STACK_VADDR ustack_pages (F ++ R) s1
    (wd_wf _ _ _ _ Hw1) ltac:(done) eq_refl ltac:(done) ltac:(done)) as (s2 & Em & Hl2);
    [unfold USER_STACK_SIZE in *; lia|unfold USER_STACK_SIZE in *; lia|exact Htame|].
  fold (user_map_pages USER_STACK_VADDR ustack_pages s1) in Em. rewrite Em. cbn [mbind option_bind negb].
  destruct (cleared_stack_mem _ _ _ (ustack_cleared _ _ _ Hw1 Em)) as [F2 Hm].
  destruct (map_tls_enough _ slot tid s2 (sm_win _ _ Hm) Hslot) as [s3 Et]; [unfold USER_STACK_SIZE in *; lia|].
  rewrite Et. cbn [mbind option_bind negb].
  destruct (own_pages_spec (F ++ R) s1 s2 s3 Hw1 Em Et) as (R' & Hm3 & _). destruct Hargs as [Hnm Hvs Hf1 Hf2 Hfit].
  destruct (stack_image_total R' fuel nm vs s3 Hm3 Hnm Hvs Hf1 Hf2 Hfit) as (arr & s4 & Es).
  rewrite Es. cbn [mbind option_bind]. by exists arr, s4.
Qed.
End Image.

(** ** Theorems *)

(** The new space is empty, and the computation in it gives its PML4 back. *)
Lemma spawn_space_inv fuel data size name argv args slot tid s0 r s' :
  wf s0 -> spawn_space fuel data size name argv args slot tid s0 = Some (r, s') ->
  (r = Failed (-1) /\ s' = s0) \/
  exists root s1 c', fresh_pml4 s0 root s1 /\ s' = vmm_activate_pml4 (cr3 s0) c' /\
    user_image fuel data size name argv args slot tid root (vmm_activate_pml4 root s1) = Some (r, c').
Proof.
  intros Hwf. unfold spawn_space. destruct (vmm_new_user_pml4 s0) as [root s1] eqn:En.
  destruct (Z.eqb_spec root 0) as [->|Hr].
  { intros [= <- <-]. left. split; [done|]. unfold vmm_new_user_pml4 in En. destruct (pmm_alloc s0) as [p s2] eqn:Ea.
    destruct (Z.eqb_spec p 0) as [->|Hp]; [|apply (f_equal fst) in En; cbn [fst] in En; lia].
    destruct (pmm_alloc_wf s0 0 s2 Hwf Ea) as [(_ & -> & _)|([[? ?] _] & _)]; [by injection En|lia]. }
  pose proof (new_pml4_fresh s0 root s1 Hwf En Hr) as Hfp.
  destruct (user_image _ _ _ _ _ _ _ _ root _) as [[r1 c']|] eqn:Eu; [|done]. cbn [mbind option_bind].
  intros [= <- <-]. right. exists root, s1, c'. rewrite (co_cr3 _ _ _ (fp_copying _ _ _ Hfp)). done.
Qed.

Lemma fresh_user_window s0 s1 root :
  wf s0 -> fresh_pml4 s0 root s1 -> window USER_LO USER_HI [] (vmm_activate_pml4 root s1).
Proof.
  intros Hwf Hfp. apply window_empty; [by apply (fresh_wf s0 s1 root)|]. intros a Ha.
  apply (fresh_unmapped s0 s1 root Hfp). apply low_idx. unfold USER_LO, USER_HI, LOW_HALF in *. lia.
Qed.

Lemma fresh_user_unmapped s s1 root :
  fresh_pml4 s root s1 -> forall v, USER_LO <= v < USER_HI -> vmm_get_phys v (vmm_activate_pml4 root s1) = 0.
Proof.
  intros Hfp v Hv. apply (fresh_unmapped s s1 root Hfp), low_idx. unfold USER_LO, USER_HI, LOW_HALF in *. lia.
Qed.

Lemma new_pml4_enough s root s1 :
  wf s -> vmm_new_user_pml4 s = (root, s1) -> free_pages_stack s <> [] -> root <> 0.
Proof.
  intros Hwf En Hfree. unfold vmm_new_user_pml4 in En. destruct (pmm_alloc s) as [p s2] eqn:Ea.
  destruct (pmm_alloc_wf s p s2 Hwf Ea) as [(_ & _ & Hnil)|([[? ?] _] & _)]; [done|].
  destruct (Z.eqb_spec p 0); [lia|]. apply (f_equal fst) in En. cbn [fst] in En. lia.
Qed.

(** C13. A spawn that succeeds leaves a process that can run: in its address space
    the bytes of the image are where the program headers put them, on an empty
    space; RSP points to argc, behind it are the argument pointers with NULL, the
    default environment with NULL and an empty auxiliary vector, every string with
    its NUL, and RSP is 8 modulo 16; the TLS page holds its own address and, at
    offset 520, the task id.  argc is one more than the arguments the caller
    passed, whether or not the first of them is the program's name. *)
Theorem spawn_starts fuel data size nm vs slot tid s0 root e arr s' :
  wf s0 -> Forall is_byte data -> spawn_args fuel nm vs -> (slot < 64)%nat ->
  spawn_space fuel data size (KStr nm) (KStr <$> vs) (take 1023 <$> vs) slot tid s0 = Some (Spawned root e arr, s') ->
  process_built data size nm vs slot tid e arr (fun _ => None) (vmm_activate_pml4 root s').
Proof.
  intros Hwf Hdata Hargs Hslot E.
  destruct (spawn_space_inv _ _ _ _ _ _ _ _ _ _ _ Hwf E) as [[? _]|(root' & s1 & c' & Hfp & -> & Eu)]; [done|].
  pose proof (fresh_user_window _ _ _ Hwf Hfp) as Hwin. set (c := vmm_activate_pml4 root' s1) in *.
  destruct (user_image_built [] fuel data size nm vs slot tid Hdata Hargs Hslot root' c _ c' Hwin Eu) as [-> Hb].
  assert (Hap : apart [] c) by (exists []; split; [done|split; [set_solver|set_solver]]).
  pose proof (user_image_kept [] fuel data size nm vs slot tid Hdata Hargs Hslot root' [] c _ c' Hwin Hap Eu) as K.
  assert (Ec : vmm_activate_pml4 root' (vmm_activate_pml4 (cr3 s0) c') = c').
  { pose proof (ka_cr3 _ _ _ K) as Hc. destruct c' as [pg fr cr]. cbn in Hc. by subst cr. }
  rewrite Ec. destruct Hb as [Hs Hp Ht (eh & phs & H1 & H2 & H3 & Hi)]. split; [done|done|done|].
  exists eh, phs. split_and!; try done. intros x Hx Hno. rewrite Hi by done. f_equal.
  unfold load_byte. by rewrite (fresh_user_unmapped s0 s1 root' Hfp).
Qed.

(** C14. The process that spawns keeps its memory, whether the spawn succeeds or
    fails: its page tables are active again, and every user address has the
    translation and the byte it had. *)
Theorem spawn_isolated R fuel data size nm vs slot tid s0 r s' :
  window 0 LOW_HALF R s0 -> user_tables_ok s0 -> Forall is_byte data -> spawn_args fuel nm vs -> (slot < 64)%nat ->
  spawn_space fuel data size (KStr nm) (KStr <$> vs) (take 1023 <$> vs) slot tid s0 = Some (r, s') ->
  cr3 s' = cr3 s0 /\
  forall v, 0 <= v < LOW_HALF -> vmm_get_phys v s' = vmm_get_phys v s0 /\ load_byte v s' = load_byte v s0.
Proof.
  intros Hwin0 Hok Hdata Hargs Hslot E. pose proof (caller_wf R s0 Hwin0) as Hwf.
  destruct (spawn_space_inv _ _ _ _ _ _ _ _ _ _ _ Hwf E) as [[_ ->]|(root & s1 & c' & Hfp & -> & Eu)]; [done|].
  split; [done|].
  apply (caller_kept R s0 s1 root Hwin0 Hfp Hok).
  exact (user_image_kept [] fuel data size nm vs slot tid Hdata Hargs Hslot root _ _ _ c' (fresh_user_window _ _ _ Hwf Hfp)
    (space_apart R s0 s1 root Hwin0 Hfp Hok) Eu).
Qed.

(** A valid image is started when there is memory: one page for the PML4,
    and six for each page of the segments, of the stack and of the TLS. *)
Theorem spawn_succeeds fuel data size nm vs slot tid s0 eh phs :
  wf s0 -> valid_image data size eh phs -> spawn_args fuel nm vs -> (slot < 64)%nat ->
  4096 + 6 * total seg_bytes phs + 6 * USER_STACK_SIZE + 6 * 4096 <= 4096 * Z.of_nat (length (free_pages_stack s0)) ->
  exists root arr s',
    spawn_space fuel data size (KStr nm) (KStr <$> vs) (take 1023 <$> vs) slot tid s0 =
      Some (Spawned root (e_entry eh) arr, s').
Proof.
  intros Hwf Hv Hargs Hslot Hroom. unfold spawn_space. destruct (vmm_new_user_pml4 s0) as [root s1] eqn:En.
  assert (H0 : 0 <= total seg_bytes phs).
  { apply total_bytes_nonneg. intros q _. unfold seg_bytes. case_match; lia. }
  assert (Hr : root <> 0).
  { apply (new_pml4_enough s0 root s1 Hwf En). intros Hnil. rewrite Hnil in Hroom. cbn [length] in Hroom.
    unfold USER_STACK_SIZE in Hroom. lia. }
  pose proof (new_pml4_fresh s0 root s1 Hwf En Hr) as Hfp. rewrite (proj2 (Z.eqb_neq root 0) Hr).
  destruct (user_image_enough [] fuel data size nm vs slot tid (vi_bytes _ _ _ _ Hv) Hargs Hslot root
    (vmm_activate_pml4 root s1) eh phs (fresh_user_window _ _ _ Hwf Hfp) Hv) as (arr & c' & Eu).
  { rewrite (fp_free _ _ _ Hfp) in Hroom. cbn [length vmm_activate_pml4 free_pages_stack] in *. lia. }
  rewrite Eu. cbn [mbind option_bind]. by exists root, arr, (vmm_activate_pml4 (cr3 s1) c').
Qed.

(** *** An empty space with 1000 free pages *)

Definition roomy_pages : list Z := (fun i => 4096 * (Z.of_nat i + 2)) <$> seq 0 1000.
Definition roomy_space : vm := Vm {[ 4096 := zero_page ]} roomy_pages 4096.

Lemma roomy_wf : wf roomy_space.
Proof.
  apply wf_empty_space.
  - intros (i & Hi & _)%list_elem_of_fmap. lia.
  - apply NoDup_fmap_2; [intros i j Hij; lia|apply NoDup_seq].
  - apply Forall_forall. intros p (i & -> & Hi%elem_of_seq)%list_elem_of_fmap. split; [lia|zify_div].
Qed.

Lemma roomy_tables : user_tables_ok roomy_space.
Proof.
  assert (H : forall q t, table_at roomy_space q = Some t -> q = [] /\ t = 4096).
  { induction q as [|j q IH] using rev_ind; intros t; [by intros [= <-]|]. rewrite table_at_snoc.
    destruct (table_at roomy_space q) as [t'|]; [|done]. destruct (IH t' eq_refl) as [-> ->].
    assert (E : entry (pages roomy_space) 4096 j = 0).
    { unfold entry, roomy_space. cbn [pages]. rewrite lookup_singleton_eq. apply zero_page_lookup. }
    by rewrite E. }
  intros q t Ht _. destruct (H q t Ht) as [_ ->]. by split.
Qed.

Lemma roomy_unmapped a : vmm_get_phys a roomy_space = 0.
Proof.
  apply unmapped_root. unfold entry, roomy_space. cbn [pages cr3]. rewrite lookup_singleton_eq. apply zero_page_lookup.
Qed.

Lemma roomy_window : window 0 LOW_HALF [] roomy_space.
Proof. apply window_empty; [apply roomy_wf|]. intros a _. apply roomy_unmapped. Qed.

Definition hello : list Z := str "hello".
Definition hello_args : list (list Z) := [str "hello"; str "-v"].

Lemma hello_args_ok : spawn_args 100 hello hello_args.
Proof. split; [|repeat constructor..| |]; try (repeat constructor; vm_compute; done); vm_compute; try lia; discriminate. Qed.

Lemma roomy_enough :
  4096 + 6 * total seg_bytes [sample_ph] + 6 * USER_STACK_SIZE + 6 * 4096 <=
    4096 * Z.of_nat (length (free_pages_stack roomy_space)).
Proof.
  cbn [roomy_space free_pages_stack]. unfold roomy_pages. rewrite length_fmap, length_seq.
  apply Z.leb_le. vm_compute. reflexivity.
Qed.

Lemma spawn_succeeds_witness : exists root arr s',
  spawn_space 100 sample_image 124 (KStr hello) (KStr <$> hello_args) (take 1023 <$> hello_args) 3 7 roomy_space =
    Some (Spawned root 0x400010 arr, s').
Proof.
  exact (spawn_succeeds 100 sample_image 124 hello hello_args 3 7 roomy_space sample_eh [sample_ph] roomy_wf sample_valid
    hello_args_ok ltac:(lia) roomy_enough).
Defined.

(** The spawn of the witness, by the lemmas behind the theorem. *)
Lemma hello_spawned : exists root arr s',
  spawn_space 100 sample_image 124 (KStr hello) (KStr <$> hello_args) (take 1023 <$> hello_args) 3 7 roomy_space =
    Some (Spawned root 0x400010 arr, s').
Proof.
  destruct (vmm_new_user_pml4 roomy_space) as [root s1] eqn:En.
  assert (Hr : root <> 0) by (apply (f_equal fst) in En; vm_compute in En; subst root; discriminate).
  pose proof (new_pml4_fresh _ root s1 roomy_wf En Hr) as Hfp.
  unfold spawn_space. rewrite En, (proj2 (Z.eqb_neq root 0) Hr).
  destruct (user_image_enough [] 100 sample_image 124 hello hello_args 3 7 (vi_bytes _ _ _ _ sample_valid) hello_args_ok
    ltac:(lia) root (vmm_activate_pml4 root s1) sample_eh [sample_ph] (fresh_user_window _ _ _ roomy_wf Hfp) sample_valid)
    as (arr & c' & Eu).
  { pose proof roomy_enough as He. rewrite (fp_free _ _ _ Hfp) in He. cbn [length vmm_activate_pml4 free_pages_stack] in *. lia. }
  rewrite Eu. cbn [mbind option_bind]. by exists root, arr, (vmm_activate_pml4 (cr3 s1) c').
Qed.

Lemma spawn_starts_witness : exists root arr s',
  spawn_space 100 sample_image 124 (KStr hello) (KStr <$> hello_args) (take 1023 <$> hello_args) 3 7 roomy_space =
    Some (Spawned root 0x400010 arr, s') /\
  program_start arr 3 [str "hello"; str "-v"] def_env (vmm_activate_pml4 root s').
Proof.
  destruct hello_spawned as (root & arr & s' & E). exists root, arr, s'. split; [exact E|].
  exact (pb_start _ _ _ _ _ _ _ _ _ _ (spawn_starts 100 sample_image 124 hello hello_args 3 7 roomy_space root 0x400010 arr s'
    roomy_wf (vi_bytes _ _ _ _ sample_valid) hello_args_ok ltac:(lia) E)).
Defined.

Lemma spawn_isolated_witness : exists r s',
  spawn_space 100 sample_image 124 (KStr hello) (KStr <$> hello_args) (take 1023 <$> hello_args) 3 7 roomy_space =
    Some (r, s') /\ cr3 s' = 4096 /\ load_byte 0x400010 s' = load_byte 0x400010 roomy_space.
Proof.
  destruct hello_spawned as (root & arr & s' & E). exists (Spawned root 0x400010 arr), s'. split; [exact E|].
  destruct (spawn_isolated [] 100 sample_image 124 hello hello_args 3 7 roomy_space _ s' roomy_window roomy_tables
    (vi_bytes _ _ _ _ sample_valid) hello_args_ok ltac:(lia) E) as [Hc Hv]. split; [exact Hc|]. apply Hv. unfold LOW_HALF. lia.
Defined.
