(* ===== verification/ExecProps.v ===== *)
(** What [sys_execve] leaves: without arguments the image starts, with an empty
    string for its name; with arguments it never starts, since the argument
    vector is read after the old address space is gone. *)
From Stdlib Require Import ZArith Lia.
From stdpp Require Import base numbers list gmap strings.
From S2P Require Import Prelude HeapIface Vmm VmmSpec VmmProps VmmFrame UserSpace UserMem UserMemSpec Elf ElfProps.
From S2P Require Import UserHeap UserHeapMap Apart Fork ForkSpec ForkSpace Spawn SpawnMem SpawnProps.

#[local] Notation TOP := (USER_STACK_VADDR + USER_STACK_SIZE).

(** ** A stack of which not every page need be mapped *)

Record stack_part (R : list Z) (s : vm) : Prop := {
  sp_win : window USER_LO USER_HI R s;
  sp_full p : p mod 4096 = 0 -> USER_STACK_VADDR <= p < TOP -> vmm_get_phys p s <> 0 -> full_page s (vmm_get_phys p s);
}.

(** A byte that is not mapped, or is zero. *)
Definition blank (x : Z) (s : vm) : Prop := load_byte x s = None \/ load_byte x s = Some 0.

Lemma stack_user x : USER_STACK_VADDR <= x < TOP -> USER_LO <= x < USER_HI.
Proof. unfold USER_STACK_VADDR, USER_STACK_SIZE, USER_LO, USER_HI. lia. Qed.

Lemma store_bytes_part R a bs s s' :
  stack_part R s -> USER_STACK_VADDR <= a -> a + Z.of_nat (length bs) <= TOP -> Forall is_byte bs ->
  store_bytes a bs s = Some s' ->
  stack_part R s' /\ (forall v, vmm_get_phys v s' = vmm_get_phys v s) /\
  forall x, USER_LO <= x < USER_HI -> ~ (a <= x < a + Z.of_nat (length bs)) -> load_byte x s' = load_byte x s.
Proof.
  intros Hm Ha Hend Hbs. revert a s Hm Ha Hend. induction Hbs as [|b bs Hb Hbs IH]; intros a s Hm Ha Hend;
    cbn [store_bytes length] in *; [intros [= <-]; done|].
  destruct (store_byte a b s) as [s1|] eqn:E; [|done]. cbn [mbind option_bind]. intros Hrun.
  destruct Hm as [Hwin Hfull]. assert (Hau : USER_LO <= a < USER_HI) by (apply stack_user; lia).
  assert (Hnz : vmm_get_phys a s <> 0) by (intros E0; unfold store_byte in E; by rewrite E0 in E).
  destruct (window_addr _ _ user_win R s a Hwin Hau Hnz) as (_ & Hf & _).
  destruct (store_byte_window _ _ user_win R s a b s1 Hwin Hau Hb) as (Hwin1 & Hph1 & Hkeep1 & Hb1); [|done|].
  { apply Hfull; [zify_div|unfold USER_STACK_VADDR, USER_STACK_SIZE in *; zify_div|exact Hf]. }
  destruct (IH (a + 1) s1) as (Hm' & Hph & Hl); [|lia|lia|done|].
  { split; [done|]. intros p Hp Hr. rewrite Hph1. intros Hn. by apply Hkeep1, Hfull. }
  split; [done|]. split; [intros v; by rewrite Hph|]. intros x Hx Hne. rewrite Hl, Hb1 by (done || lia).
  rewrite decide_False; [done|lia].
Qed.

(** ** The new space before the block is written *)

(** [x] is in no segment of the image. *)
Definition off_image (data : list Z) (x : Z) : Prop :=
  forall eh phs ph, header_at data = Some eh -> phdrs_from (Z.to_nat (e_phnum eh)) 0 eh data = Some phs ->
    ph ∈ phs -> is_load ph -> ~ seg_range ph x.

Lemma off_image_byte data size eh phs x :
  off_image data x -> header_at data = Some eh -> phdrs_from (Z.to_nat (e_phnum eh)) 0 eh data = Some phs ->
  image_byte data size phs x None = None.
Proof.
  intros Hoff Heh Hphs. assert (H : forall ph, ph ∈ phs -> is_load ph -> ~ seg_range ph x) by (intros ph; by eapply Hoff).
  clear -H. unfold image_byte. generalize (@None Z). induction phs as [|ph phs IH]; intros o; [done|]. cbn [foldl].
  rewrite decide_False; [|intros [? ?]; apply (H ph); [by left|done|done]]. apply IH. intros q Hq. apply H. by right.
Qed.

Section New.
Context (data : list Z) (size : Z) (slot : nat) (tid : Z).
Context (Hdata : Forall is_byte data) (Hslot : (slot < 64)%nat).
Context (Hstack : forall x, USER_STACK_VADDR <= x < TOP -> off_image data x).

Lemma elf_blank R c e s1 x :
  window USER_LO USER_HI R c -> (forall v, USER_LO <= v < USER_HI -> vmm_get_phys v c = 0) ->
  elf_load data size c = Some (Some e, s1) -> USER_LO <= x < USER_HI -> off_image data x -> vmm_get_phys x s1 = 0.
Proof.
  intros Hwin H0 Ee Hx Hoff. destruct (elf_load_inv _ _ _ _ _ Ee) as (Hsize & eh & phs & Heh & _ & -> & Ep & Hall & El).
  destruct (load_loop_spec _ _ _ _ _ _ _ _ _ Hdata Hsize Ep Hall Hwin El) as (F & Hw1 & _ & Hb1).
  specialize (Hb1 x Hx). unfold load_byte at 2 in Hb1. rewrite (H0 x Hx) in Hb1.
  change (if 0 =? 0 then None else _) with (@None Z) in Hb1. rewrite (off_image_byte _ _ _ _ _ Hoff Heh Ep) in Hb1.
  unfold load_byte in Hb1. by destruct (Z.eqb_spec (vmm_get_phys x s1) 0).
Qed.

(** [user_map_pages], finished or not. *)
Lemma ustack_part R s ok s' :
  window USER_LO USER_HI R s -> (forall x, USER_STACK_VADDR <= x < TOP -> vmm_get_phys x s = 0) ->
  user_map_pages USER_STACK_VADDR ustack_pages s = Some (ok, s') ->
  exists F, stack_part (F ++ R) s' /\
    (forall x, USER_LO <= x < USER_HI -> ~ (USER_STACK_VADDR <= x < TOP) -> vmm_get_phys x s' = vmm_get_phys x s) /\
    forall x, USER_STACK_VADDR <= x < TOP -> blank x s'.
Proof.
  intros Hwin H0 E. unfold user_map_pages in E.
  assert (Htame : tame (USER_STACK_VADDR + 0 * 4096) (USER_STACK_VADDR + ustack_pages * 4096) s).
  { intros v Hv. left. apply H0. by rewrite <-ustack_pages_eq. }
  destruct (map_pages_loop_spec _ 0 USER_STACK_VADDR ustack_pages R s ok s' (wd_wf _ _ _ _ Hwin) ltac:(done) eq_refl
    ltac:(done) ltac:(done) Htame E) as (F & [Hst Hwf _ Hz Hfr Hx Hd]).
  rewrite Z.mul_0_l, Z.add_0_r in Hfr, Hx.
  assert (Hn : 0 <= npages_of F <= ustack_pages).
  { unfold npages_of in *. destruct ok; [|destruct Hd]; change ustack_pages with 128 in *; lia. }
  assert (Hend : USER_STACK_VADDR + npages_of F * 4096 <= TOP) by (rewrite <-ustack_pages_eq; lia).
  assert (Hcl : cleared R USER_STACK_VADDR (npages_of F) s s').
  { apply mapped_cleared; try done. unfold USER_HI, USER_STACK_VADDR, USER_STACK_SIZE in *. lia. }
  destruct Hcl as [_ Hb Hback _ Ho _]. exists F.
  destruct (window_map _ _ R USER_STACK_VADDR F s s' user_win Hwin eq_refl ltac:(done)
    ltac:(unfold USER_HI, USER_STACK_VADDR, USER_STACK_SIZE in *; lia) Hst Hwf Hfr Hx) as [Hwin' _].
  split; [|split].
  - split; [done|]. intros p Hp Hr Hnz. apply Hback; [done|].
    destruct (decide (p < USER_STACK_VADDR + npages_of F * 4096)); [lia|].
    exfalso. apply Hnz. rewrite Ho; [by apply H0|by apply stack_user|lia].
  - intros x Hxu Hne. apply Ho; [done|lia].
  - intros x Hxs. unfold blank. rewrite Hb by (by apply stack_user). case_decide; [by right|]. left.
    unfold load_byte. by rewrite H0.
Qed.

Lemma tls_part R s ok s' :
  stack_part R s -> map_tls slot tid s = Some (ok, s') ->
  exists F, stack_part (F ++ R) s' /\
    (forall x, USER_LO <= x < USER_HI -> ~ (tls_vaddr slot <= x < tls_vaddr slot + 4096) ->
       load_byte x s' = load_byte x s /\ vmm_get_phys x s' = vmm_get_phys x s).
Proof.
  intros [Hwin Hfull] E. destruct ok.
  - destruct (map_tls_spec R slot tid s s' Hwin Hslot E) as [[F Hw] _ _ Hb Ho Hf]. exists F. split; [|by split; [apply Hb|apply Ho]].
    split; [done|]. intros p Hp Hr.
    assert (Hne : ~ (tls_vaddr slot <= p < tls_vaddr slot + 4096)).
    { rewrite (tls_vaddr_eq slot Hslot). unfold THREAD_TLS_VADDR, USER_STACK_VADDR in *. lia. }
    rewrite Ho by (done || by apply stack_user). intros Hnz.
    apply Hf; [apply (wd_page _ _ _ _ Hwin p); [split; [by apply stack_user|done]|done]|by apply Hfull].
  - rewrite map_tls_step in E. destruct (pmm_alloc s) as [f s1] eqn:Ea. destruct (Z.eqb_spec f 0) as [->|].
    + injection E as <-. destruct (pmm_alloc_wf s 0 s1 (wf_unreserve _ _ (wd_wf _ _ _ _ Hwin)) Ea) as [(_ & -> & _)|([] & _)]; [|lia].
      exists []. by split.
    + revert E. by repeat case_bind.
Qed.
End New.

(** ** The argument vector, read in the new space *)

Lemma cstrlen_ge fuel k p s l : cstrlen fuel k p s = Some l -> k <= l.
Proof.
  revert k. induction fuel as [|fuel IH]; intros k; [done|]. cbn [cstrlen]. case_bind.
  destruct (y =? 0); [intros [= <-]; lia|]. intros Hl%IH. lia.
Qed.

Lemma count_strings_ge room fuel v i slen s i' slen' :
  count_strings room fuel v i slen s = Some (i', slen') -> i <= i' /\ slen <= slen'.
Proof.
  revert i slen. induction room as [|room IH]; intros i slen; cbn [count_strings]; [intros [= <- <-]; lia|]. case_bind.
  destruct (y =? 0); [intros [= <- <-]; lia|]. case_bind. intros Hc%IH. pose proof (cstrlen_ge _ _ _ _ _ E0). lia.
Qed.

Lemma count_strings_first room fuel v slen s n slen' p :
  0 <= v < 2 ^ 64 -> load_word v s = Some p -> p <> 0 -> count_strings (S room) fuel v 0 slen s = Some (n, slen') ->
  1 <= n.
Proof.
  intros Hv Hp Hp0. cbn [count_strings]. rewrite Z.mul_0_r, Z.add_0_r, wrap_small, Hp by lia. cbn [mbind option_bind].
  rewrite (proj2 (Z.eqb_neq p 0) Hp0). case_bind. intros Hc%count_strings_ge. lia.
Qed.

Lemma load_word_blank a s :
  0 <= a -> a + 8 <= 2 ^ 63 -> (forall x, a <= x < a + 8 -> blank x s) -> load_word a s = None \/ load_word a s = Some 0.
Proof.
  intros H0 Ha Hb. unfold load_word. cbn [seq mapM]. rewrite !wrap_small by lia.
  destruct (Hb (a + Z.of_nat 0) ltac:(lia)) as [-> | ->]; [by left|]. cbn [mbind option_bind].
  destruct (Hb (a + Z.of_nat 1) ltac:(lia)) as [-> | ->]; [by left|]. cbn [mbind option_bind].
  destruct (Hb (a + Z.of_nat 2) ltac:(lia)) as [-> | ->]; [by left|]. cbn [mbind option_bind].
  destruct (Hb (a + Z.of_nat 3) ltac:(lia)) as [-> | ->]; [by left|]. cbn [mbind option_bind].
  destruct (Hb (a + Z.of_nat 4) ltac:(lia)) as [-> | ->]; [by left|]. cbn [mbind option_bind].
  destruct (Hb (a + Z.of_nat 5) ltac:(lia)) as [-> | ->]; [by left|]. cbn [mbind option_bind].
  destruct (Hb (a + Z.of_nat 6) ltac:(lia)) as [-> | ->]; [by left|]. cbn [mbind option_bind].
  destruct (Hb (a + Z.of_nat 7) ltac:(lia)) as [-> | ->]; [by left|]. right. reflexivity.
Qed.

(** The first string is never found: its pointer is blank, and the address 0 is
    not mapped. *)
Lemma copy_vector_blank n fuel a wi v sp s :
  (1 <= n)%nat -> 0 <= v -> v + 8 <= 2 ^ 63 -> (forall x, v <= x < v + 8 -> blank x s) -> load_byte 0 s = None ->
  copy_vector n fuel a wi v 0 sp s = None.
Proof.
  intros Hn Hv0 Hv Hb H0. destruct n as [|n]; [lia|]. cbn [copy_vector]. rewrite Z.mul_0_r, Z.add_0_r, wrap_small by lia.
  destruct (load_word_blank v s Hv0 Hv Hb) as [-> | ->]; [done|]. cbn [mbind option_bind].
  replace (cstrlen fuel 0 (UPtr 0) s) with (@None Z); [done|]. destruct fuel as [|fuel]; [done|].
  cbn [cstrlen cget]. change (u64 (0 + 0)) with 0. by rewrite H0.
Qed.

(** What the block takes at the top of the stack, at most. *)
Definition exec_size (nargs nenv slen : Z) : Z := slen + (nargs + nenv + 5) * 8 + 64 + 16.

Lemma exec_place nargs nenv slen :
  0 <= nargs -> 0 <= nenv -> 0 <= slen -> exec_size nargs nenv slen <= USER_STACK_SIZE ->
  let arr := u64 (Z.land (u64 (TOP - (slen + (nargs + nenv + 5) * 8 + 64))) (u64 (Z.lnot 15)) + 8) in
  TOP - exec_size nargs nenv slen + 8 <= arr /\ arr mod 16 = 8 /\ arr + 8 * (nargs + nenv + 6) <= TOP - slen.
Proof.
  intros H1 H2 H3 Hsize arr. unfold arr, exec_size in *.
  rewrite arr_eq by (unfold USER_STACK_SIZE, USER_STACK_VADDR in *; lia).
  set (z := TOP - (slen + (nargs + nenv + 5) * 8 + 64)). assert (Hz : z = TOP - (slen + (nargs + nenv + 5) * 8 + 64)) by done.
  clearbody z. zify_div.
Qed.

Lemma put_word_part R a i v s s' :
  stack_part R s -> 0 <= a -> USER_STACK_VADDR <= a + 8 * i -> a + 8 * i + 8 <= TOP -> put_word a i v s = Some s' ->
  stack_part R s' /\
  forall x, USER_LO <= x < USER_HI -> ~ (a + 8 * i <= x < a + 8 * i + 8) -> load_byte x s' = load_byte x s.
Proof.
  intros Hm H0 Hlo Hhi. unfold put_word. rewrite wrap_small by (unfold USER_STACK_VADDR, USER_STACK_SIZE in *; lia).
  intros E. apply (store_bytes_part R) in E as (Hp & _ & Hl); [|done|done|rewrite length_le_bytes; lia|apply Forall_le_bytes].
  rewrite length_le_bytes in Hl. done.
Qed.

Lemma exec_block_faults R fuel pl nargs nenv slen argv envp s :
  stack_part R s -> 1 <= nargs -> 0 <= nenv -> 0 <= slen -> exec_size nargs nenv slen <= USER_STACK_SIZE ->
  USER_LO <= argv -> argv + 8 <= USER_HI -> argv + 8 <= TOP - exec_size nargs nenv slen \/ TOP <= argv ->
  (forall x, argv <= x < argv + 8 -> blank x s) -> load_byte 0 s = None ->
  exec_block fuel pl nargs nenv slen argv envp s = None.
Proof.
  intros Hm Hn He Hs Hsize Hlo Hhi Hoff Hb H0. unfold exec_block.
  destruct (exec_place nargs nenv slen) as (Ha & _ & Hcells); [lia..|]. set (arr := u64 (Z.land _ _ + 8)) in *.
  assert (Hb0 : USER_STACK_VADDR <= TOP - exec_size nargs nenv slen) by lia.
  assert (Ha0 : 0 <= arr) by (unfold USER_STACK_VADDR in *; lia).
  destruct (put_word arr 0 (nargs + 1) s) as [s1|] eqn:E1; [|done]. cbn [mbind option_bind].
  destruct (put_word_part R arr 0 _ s s1 Hm Ha0 ltac:(lia) ltac:(lia) E1) as [M1 L1].
  destruct (put_word arr 1 _ s1) as [s2|] eqn:E2; [|done]. cbn [mbind option_bind].
  destruct (put_word_part R arr 1 _ s1 s2 M1 Ha0 ltac:(lia) ltac:(lia) E2) as [_ L2].
  rewrite copy_vector_blank; [done|lia|unfold USER_LO in *; lia|unfold USER_HI in *; lia| |].
  - intros x Hx. unfold blank. rewrite L2, L1 by lia. by apply Hb.
  - rewrite L2, L1; [done|unfold USER_LO, USER_HI; lia|unfold USER_STACK_VADDR in *; lia|unfold USER_LO, USER_HI; lia|unfold USER_STACK_VADDR in *; lia].
Qed.


(** The new space up to the block: the stack, and what is blank. *)
Lemma exec_pages data size slot tid c e s1 ok1 s2 ok2 s3 :
  Forall is_byte data -> (slot < 64)%nat -> (forall x, USER_STACK_VADDR <= x < TOP -> off_image data x) ->
  window USER_LO USER_HI [] c -> (forall v, USER_LO <= v < USER_HI -> vmm_get_phys v c = 0) ->
  elf_load data size c = Some (Some e, s1) -> user_map_pages USER_STACK_VADDR ustack_pages s1 = Some (ok1, s2) ->
  map_tls slot tid s2 = Some (ok2, s3) ->
  (exists R, stack_part R s3) /\
  forall x, USER_LO <= x < USER_HI -> off_image data x -> ~ (tls_vaddr slot <= x < tls_vaddr slot + 4096) ->
    blank x s3 /\ (~ (USER_STACK_VADDR <= x < TOP) -> load_byte x s3 = None).
Proof.
  intros Hdata Hslot Hstack Hwin H0 Ee Em Et.
  destruct (elf_load_inv _ _ _ _ _ Ee) as (Hsize & eh & phs & Heh & _ & -> & Ep & Hall & El).
  destruct (load_loop_spec _ _ _ _ _ _ _ _ _ Hdata Hsize Ep Hall Hwin El) as (F & Hw1 & _ & _).
  assert (Hz : forall x, USER_LO <= x < USER_HI -> off_image data x -> vmm_get_phys x s1 = 0).
  { intros x Hx. intros Ho. exact (elf_blank data size Hdata [] c _ s1 x Hwin H0 Ee Hx Ho). }
  destruct (ustack_part slot Hslot (F ++ []) s1 ok1 s2 Hw1) as (F2 & Hp2 & Ho2 & Hb2); [|done|].
  { intros x Hx. apply Hz; [by apply stack_user|by apply Hstack]. }
  destruct (tls_part slot tid Hslot _ s2 ok2 s3 Hp2 Et) as (F3 & Hp3 & Ho3).
  split; [by eexists|]. intros x Hx Hoff Ht. destruct (Ho3 x Hx Ht) as [Hb Hph].
  destruct (decide (USER_STACK_VADDR <= x < TOP)) as [Hin|Hout].
  - split; [|done]. unfold blank. rewrite Hb. by apply Hb2.
  - assert (Hn : load_byte x s3 = None); [|by split; [left|]].
    unfold load_byte. rewrite Hph, (Ho2 x Hx Hout), (Hz x Hx Hoff). done.
Qed.

(** The vector is not where the new process has something else. *)
Record argv_apart (data : list Z) (slot : nat) (argv nargs nenv slen : Z) : Prop := {
  aa_user : USER_LO <= argv /\ argv + 8 <= USER_HI;
  aa_image x : argv <= x < argv + 8 -> off_image data x;
  aa_tls : argv + 8 <= tls_vaddr slot \/ tls_vaddr slot + 4096 <= argv;
  aa_block : argv + 8 <= TOP - exec_size nargs nenv slen \/ TOP <= argv;
}.

(** C15. [sys_execve] does not start a program with arguments when the argument
    vector lies at an address where the new process has neither a segment nor its
    TLS page nor the argument block: the strings are counted while the caller's
    space is active, but the vector is read again for the copy in the space that
    replaces it, where the address holds nothing, or the zeros of the new stack.
    The kernel faults, or, if the system call returns, it failed before.  (A vector
    inside a segment of the new image, as when a program executes itself with an
    array among its data, is read there and may be sound.)  The first argument
    is not NULL, the strings fit the stack, and the image leaves the stack and
    address 0 alone. *)
Theorem execve_args_fault fuel path argv envp data size slot tid s p nargs slen1 nenv slen :
  wf s -> Forall is_byte data -> (slot < 64)%nat -> argv <> 0 ->
  load_word argv s = Some p -> p <> 0 ->
  count_strings 63 fuel argv 0 (Z.of_nat (length path) + 1) s = Some (nargs, slen1) ->
  (if envp =? 0 then Some (0, slen1) else count_strings 63 fuel envp 0 slen1 s) = Some (nenv, slen) ->
  exec_size nargs nenv slen <= USER_STACK_SIZE ->
  (forall x, USER_STACK_VADDR <= x < TOP \/ x = 0 -> off_image data x) ->
  argv_apart data slot argv nargs nenv slen ->
  exec_space fuel path argv envp data size slot tid s = None \/
  exists code s', exec_space fuel path argv envp data size slot tid s = Some (ExecFailed code, s').
Proof.
  intros Hwf Hdata Hslot Hargv Hp Hp0 Hc1 Hc2 Hfit Hoff [[Hlo Hhi] Himg Htls Hblk].
  assert (H : forall r s', exec_space fuel path argv envp data size slot tid s = Some (r, s') -> exists code, r = ExecFailed code).
  2:{ destruct (exec_space _ _ _ _ _ _ _ _ s) as [[r s']|]; [|by left]. destruct (H r s' eq_refl) as [code ->]. right. by eexists _, _. }
  intros r s'. unfold exec_space.
  rewrite (proj2 (Z.eqb_neq argv 0) Hargv), Hc1. cbn [mbind option_bind]. rewrite Hc2. cbn [mbind option_bind].
  assert (H1 : 1 <= nargs).
  { eapply (count_strings_first 62); [|exact Hp|exact Hp0|exact Hc1]. unfold USER_LO, USER_HI in *. lia. }
  pose proof (count_strings_ge _ _ _ _ _ _ _ _ Hc1) as [_ Hs1].
  assert (H2 : 0 <= nenv /\ slen1 <= slen).
  { destruct (envp =? 0); [injection Hc2 as <- <-; lia|]. by apply count_strings_ge in Hc2. }
  destruct (vmm_new_user_pml4 s) as [root s1] eqn:En. destruct (Z.eqb_spec root 0) as [|Hr]; [intros [= <- _]; by eexists|].
  pose proof (new_pml4_fresh s root s1 Hwf En Hr) as Hfp. pose proof (fresh_user_window _ _ _ Hwf Hfp) as Hwin.
  pose proof (fresh_user_unmapped s s1 root Hfp) as H0.
  set (c := vmm_activate_pml4 root s1) in *.
  destruct (elf_load data size c) as [[e s2]|] eqn:Ee; [|done]. cbn [mbind option_bind].
  destruct e as [e|]; [|intros [= <- _]; by eexists].
  destruct (user_map_pages _ _ s2) as [[ok s3]|] eqn:Em; [|done]. cbn [mbind option_bind].
  destruct (map_tls slot tid s3) as [[tls s4]|] eqn:Et; [|done]. cbn [mbind option_bind].
  destruct (exec_pages data size slot tid c e s2 ok s3 tls s4 Hdata Hslot ltac:(auto) Hwin H0 Ee Em Et) as [[R Hsp] Hbl].
  rewrite (exec_block_faults R); [done|done|done|lia|lia|done|done|done|done| |].
  - intros x Hx. apply Hbl; [lia|by apply Himg|lia].
  - apply Hbl; [unfold USER_LO, USER_HI; lia|apply Hoff; by right| |unfold USER_STACK_VADDR; lia].
    rewrite (tls_vaddr_eq slot Hslot). unfold THREAD_TLS_VADDR. lia.
Qed.

(** ** Without arguments *)

Lemma program_start_1 arr sp s :
  word_at arr 1 s -> word_at (arr + 8 * 1) sp s -> load_byte sp s = Some 0 ->
  (forall i, 2 <= i < 6 -> word_at (arr + 8 * i) 0 s) -> program_start arr 1 [[]] [] s.
Proof.
  intros H0 H1 Hs Hz. split; [done| | |].
  - split; [|cbn [length]; replace (arr + 8 + 8 * Z.of_nat 1) with (arr + 8 * 2) by lia; apply Hz; lia].
    intros [|k] x Hk; [|done]. injection Hk as <-. exists sp. split; [by rewrite Z.mul_0_r, Z.add_0_r|].
    intros [|i] b Hi; [|done]. injection Hi as <-. by rewrite Z.add_0_r.
  - split; [done|]. cbn [length]. replace (arr + 8 * (1 + 2) + 8 * Z.of_nat 0) with (arr + 8 * 3) by lia. apply Hz. lia.
  - intros i Hi. cbn [length]. replace (arr + 8 * (1 + 3 + Z.of_nat 0 + Z.of_nat i)) with (arr + 8 * (4 + Z.of_nat i)) by lia.
    apply Hz. lia.
Qed.

(** Six words, the rest of the block is what it was. *)
Lemma exec_block_plain R fuel pl s :
  stack_mem R s -> 0 <= pl -> exec_size 0 0 (pl + 1 + (pl + 1)) <= USER_STACK_SIZE ->
  (forall x, USER_STACK_VADDR <= x < TOP -> load_byte x s = Some 0) ->
  exists arr s', exec_block fuel pl 0 0 (pl + 1 + (pl + 1)) 0 0 s = Some (arr, s') /\
    USER_STACK_VADDR <= arr < TOP /\ arr mod 16 = 8 /\ program_start arr 1 [[]] [] s' /\
    wrote R (fun x => USER_STACK_VADDR <= x < TOP) s s'.
Proof.
  intros Hm Hpl Hsize Hz. set (slen := pl + 1 + (pl + 1)) in *.
  destruct (exec_place 0 0 slen) as (Ha & Ha16 & Hcells); [lia..|]. unfold exec_block.
  set (arr := u64 (Z.land _ _ + 8)) in *. assert (Hlo : USER_STACK_VADDR <= arr) by lia.
  assert (Ha0 : 0 <= arr) by (unfold USER_STACK_VADDR in *; lia). set (sp := u64 (TOP - slen)).
  assert (Esp : sp = TOP - slen) by (apply wrap_small; unfold USER_STACK_VADDR, USER_STACK_SIZE, slen in *; lia).
  clearbody arr sp. change (Z.to_nat 0) with O. cbn [copy_vector]. change (2 + 0) with 2. change (2 + 1) with 3.
  change (3 + (0 + 1)) with 4. change (4 + 1) with 5. change (3 + 0) with 3. change (0 + 1) with 1.
  destruct (put_word_total R arr 0 1 s Hm) as (s1 & E1 & M1); [lia..|]. rewrite E1. cbn [mbind option_bind].
  destruct (put_word_total R arr 1 sp s1 M1) as (s2 & E2 & M2); [lia..|]. rewrite E2. cbn [mbind option_bind].
  destruct (put_word_total R arr 2 0 s2 M2) as (s3 & E3 & M3); [lia..|]. rewrite E3. cbn [mbind option_bind].
  destruct (put_word_total R arr 4 0 s3 M3) as (s4 & E4 & M4); [lia..|]. rewrite E4. cbn [mbind option_bind].
  destruct (put_word_total R arr 5 0 s4 M4) as (s5 & E5 & M5); [lia..|]. rewrite E5. cbn [mbind option_bind].
  destruct (put_word_total R arr 3 0 s5 M5) as (s6 & E6 & M6); [lia..|]. rewrite E6. cbn [mbind option_bind].
  exists arr, s6. split; [done|]. split; [lia|]. split; [done|].
  apply (put_word_wrote R) in E1 as [W1 B1]; [|done|lia..]. apply (put_word_wrote R) in E2 as [W2 B2]; [|done|lia..].
  apply (put_word_wrote R) in E3 as [W3 B3]; [|done|lia..]. apply (put_word_wrote R) in E4 as [W4 B4]; [|done|lia..].
  apply (put_word_wrote R) in E5 as [W5 B5]; [|done|lia..]. apply (put_word_wrote R) in E6 as [W6 B6]; [|done|lia..].
  pose proof (wrote_trans _ _ _ _ _ _ W5 W6) as W56. pose proof (wrote_trans _ _ _ _ _ _ W4 W56) as W46.
  pose proof (wrote_trans _ _ _ _ _ _ W3 W46) as W36. pose proof (wrote_trans _ _ _ _ _ _ W2 W36) as W26.
  pose proof (wrote_trans _ _ _ _ _ _ W1 W26) as W16.
  assert (Hu : forall x, arr <= x < TOP -> USER_LO <= x < USER_HI) by (intros x Hx; apply stack_user; lia).
  assert (Hw : forall (P : Z -> Prop) k v t, 0 <= k < 6 -> word_at (arr + 8 * k) v t -> wrote R P t s6 ->
    (forall x, P x -> ~ (arr + 8 * k <= x < arr + 8 * k + 8)) -> word_at (arr + 8 * k) v s6).
  { intros P k v t Hk Hb W Hn. eapply word_at_same; [exact Hb|]. intros x Hx. apply (wr_same _ _ _ _ W); [apply Hu; lia|].
    intros HP. by apply (Hn x). }
  split.
  - apply (program_start_1 arr sp).
    + replace arr with (arr + 8 * 0) by lia. eapply (Hw _ 0 1 s1); [lia|exact B1|exact W26|]. intros x Hx. cbn beta in Hx. lia.
    + eapply (Hw _ 1 sp s2); [lia|exact B2|exact W36|]. intros x Hx. cbn beta in Hx. lia.
    + rewrite (wr_same _ _ _ _ W16); [apply Hz; lia|apply Hu; lia|]. cbn beta. lia.
    + intros i Hi. assert (Ei : i = 2 \/ i = 3 \/ i = 4 \/ i = 5) by lia. destruct Ei as [-> |[-> |[-> | ->]]].
      * eapply (Hw _ 2 0 s3); [lia|exact B3|exact W46|]. intros x Hx. cbn beta in Hx. lia.
      * done.
      * eapply (Hw _ 4 0 s4); [lia|exact B4|exact W56|]. intros x Hx. cbn beta in Hx. lia.
      * eapply (Hw _ 5 0 s5); [lia|exact B5|exact W6|]. intros x Hx. cbn beta in Hx. lia.
  - eapply wrote_weaken; [|exact W16]. cbn beta. intros x Hx. unfold slen in *. lia.
Qed.

(** The space of a program that was started without arguments. *)
Record exec_built (data : list Z) (size : Z) (phs : list elf64_phdr) (slot : nat) (tid arr : Z) (s : vm) : Prop := {
  eb_stack : USER_STACK_VADDR <= arr < TOP /\ arr mod 16 = 8;
  eb_start : program_start arr 1 [[]] [] s;
  eb_tls : word_at (tls_vaddr slot) (tls_vaddr slot) s /\ word_at (tls_vaddr slot + 520) (u64 tid) s;
  eb_image x : USER_LO <= x < USER_HI -> ~ own_page slot x -> load_byte x s = image_byte data size phs x None;
}.

Lemma exec_started fuel pl data size slot tid c eh phs :
  window USER_LO USER_HI [] c -> (forall v, USER_LO <= v < USER_HI -> vmm_get_phys v c = 0) ->
  valid_image data size eh phs -> (slot < 64)%nat -> 0 <= pl < 256 ->
  6 * total seg_bytes phs + 6 * USER_STACK_SIZE + 6 * 4096 <= 4096 * Z.of_nat (length (free_pages_stack c)) ->
  exists s2 s3 s4 arr s5,
    elf_load data size c = Some (Some (e_entry eh), s2) /\
    user_map_pages USER_STACK_VADDR ustack_pages s2 = Some (true, s3) /\
    map_tls slot tid s3 = Some (true, s4) /\
    exec_block fuel pl 0 0 (pl + 1 + (pl + 1)) 0 0 s4 = Some (arr, s5) /\
    cr3 s5 = cr3 c /\ exec_built data size phs slot tid arr s5.
Proof.
  intros Hwin H0 Hv Hslot Hpl Hroom. pose proof (vi_bytes _ _ _ _ Hv) as Hdata.
  assert (Hnn : 0 <= total seg_bytes phs).
  { apply total_bytes_nonneg. intros q _. unfold seg_bytes. case_match; lia. }
  destruct (elf_load_enough [] data size c eh phs Hwin Hv) as (s2 & Ee & Hl2); [unfold USER_STACK_SIZE in *; lia|].
  destruct (elf_load_inv _ _ _ _ _ Ee) as (Hsize & eh' & phs' & Heh & _ & _ & Ep & Hall & El).
  rewrite (vi_header _ _ _ _ Hv) in Heh. injection Heh as <-. rewrite (vi_phdrs _ _ _ _ Hv) in Ep. injection Ep as <-.
  destruct (load_loop_spec _ _ _ _ _ _ _ _ _ Hdata Hsize (vi_phdrs _ _ _ _ Hv) Hall Hwin El) as (F & Hw2 & _ & Hb2).
  assert (Htame : tame (USER_STACK_VADDR + 0 * 4096) (USER_STACK_VADDR + ustack_pages * 4096) s2).
  { intros v Hx. apply (wd_tame _ _ _ _ Hw2). change (0x70000000 <= v < 0x70080000) in Hx. unfold USER_LO, USER_HI. lia. }
  assert (Hn : ustack_pages = 128) by reflexivity.
  destruct (map_pages_enough (S (length (free_pages_stack s2))) 0 USER_STACK_VADDR ustack_pages (F ++ [])  s2
    (wd_wf _ _ _ _ Hw2) ltac:(done) eq_refl ltac:(done) ltac:(done)) as (s3 & Em & Hl3);
    [unfold USER_STACK_SIZE in *; lia|unfold USER_STACK_SIZE in *; lia|exact Htame|].
  fold (user_map_pages USER_STACK_VADDR ustack_pages s2) in Em.
  destruct (cleared_stack_mem _ _ _ (ustack_cleared _ _ _ Hw2 Em)) as [F2 Hm].
  destruct (map_tls_enough _ slot tid s3 (sm_win _ _ Hm) Hslot) as [s4 Et]; [unfold USER_STACK_SIZE in *; lia|].
  destruct (own_pages_spec slot tid Hslot (F ++ []) s2 s3 s4 Hw2 Em Et) as (R' & Hm4 & Hz & Hself & Htid & Hb4).
  destruct (exec_block_plain R' fuel pl s4 Hm4 ltac:(lia)) as (arr & s5 & Eb & Ha & Ha16 & Hps & W);
    [unfold exec_size, USER_STACK_SIZE; lia|done|].
  exists s2, s3, s4, arr, s5. split_and!; try done.
  - assert (Hap : apart [] c) by (exists []; split; [done|split; [set_solver|set_solver]]).
    pose proof (apart_elf_load [] data size c _ s2 Hdata Hap Ee) as K1.
    pose proof (apart_map_pages [] _ 0 USER_STACK_VADDR ustack_pages s2 true s3 (ka_apart _ _ _ K1) eq_refl ltac:(done) ltac:(done) ltac:(lia) Em) as K2.
    pose proof (apart_map_tls slot tid Hslot [] s3 true s4 (ka_apart _ _ _ K2) Et) as K3.
    pose proof (wr_kept _ _ _ _ W [] (ka_apart _ _ _ K3)) as K4.
    by rewrite (ka_cr3 _ _ _ K4), (ka_cr3 _ _ _ K3), (ka_cr3 _ _ _ K2), (ka_cr3 _ _ _ K1).
  - split; [done|done| |].
    + split; (eapply word_at_same; [eassumption|]); intros x Hx; pose proof (tls_below slot Hslot x ltac:(lia)) as Hbe;
        (apply (wr_same _ _ _ _ W); [unfold USER_STACK_VADDR, USER_HI in *; lia|lia]).
    + intros x Hx Hno. rewrite (wr_same _ _ _ _ W); [|done|unfold own_page in Hno; tauto].
      rewrite Hb4, Hb2 by done. f_equal. unfold load_byte. by rewrite H0.
Qed.

(** Without arguments and environment, a valid image is started when there is
    memory for it: the page tables of the new space stay active, the image and the
    TLS page are where a spawn puts them, and the stack holds argc 1, one pointer
    and three empty lists.  The one argument is the empty string, for the path is
    never copied to the place its pointer gives. *)
Theorem execve_plain fuel path data size slot tid s eh phs :
  wf s -> valid_image data size eh phs -> (slot < 64)%nat -> (length path < 256)%nat ->
  4096 + 6 * total seg_bytes phs + 6 * USER_STACK_SIZE + 6 * 4096 <= 4096 * Z.of_nat (length (free_pages_stack s)) ->
  exists root arr s',
    exec_space fuel path 0 0 data size slot tid s = Some (Executed root (e_entry eh) arr true, s') /\
    cr3 s' = root /\ exec_built data size phs slot tid arr s'.
Proof.
  intros Hwf Hv Hslot Hpath Hroom. destruct (vmm_new_user_pml4 s) as [root s1] eqn:En.
  assert (Hr : root <> 0).
  { apply (new_pml4_enough s root s1 Hwf En). assert (H0 : 0 <= total seg_bytes phs).
    { apply total_bytes_nonneg. intros q _. unfold seg_bytes. case_match; lia. }
    intros Hnil. rewrite Hnil in Hroom. cbn [length] in Hroom. unfold USER_STACK_SIZE in Hroom. lia. }
  pose proof (new_pml4_fresh s root s1 Hwf En Hr) as Hfp.
  destruct (exec_started fuel (Z.of_nat (length path)) data size slot tid (vmm_activate_pml4 root s1) eh phs
    (fresh_user_window _ _ _ Hwf Hfp) (fresh_user_unmapped s s1 root Hfp) Hv Hslot ltac:(lia))
    as (s2 & s3 & s4 & arr & s5 & Ee & Em & Et & Eb & Hc & Hbuilt).
  { rewrite (fp_free _ _ _ Hfp) in Hroom. cbn [length vmm_activate_pml4 free_pages_stack] in *. lia. }
  exists root, arr, s5. split; [|done]. unfold exec_space. change (0 =? 0) with true. cbv iota. cbn [mbind option_bind].
  rewrite En, (proj2 (Z.eqb_neq root 0) Hr), Ee. cbn [mbind option_bind]. rewrite Em. cbn [mbind option_bind].
  rewrite Et. cbn [mbind option_bind]. rewrite Eb. done.
Qed.

(** *** Witnesses: the sample image in the roomy space *)

Lemma execve_plain_witness : exists root arr s',
  exec_space 0 (str "/hello") 0 0 sample_image 124 3 7 roomy_space = Some (Executed root 0x400010 arr true, s') /\
  program_start arr 1 [[]] [] s'.
Proof.
  destruct (execve_plain 0 (str "/hello") sample_image 124 3 7 roomy_space sample_eh [sample_ph] roomy_wf sample_valid
    ltac:(lia) ltac:(cbn; lia) roomy_enough) as (root & arr & s' & E & _ & B).
  exists root, arr, s'. split; [exact E|exact (eb_start _ _ _ _ _ _ _ B)].
Defined.

(** A caller with [argv = {"", NULL}] at the low end of its stack. *)
Lemma word_at_load a v s :
  word_at a v s -> 0 <= a -> a + 8 <= 2 ^ 63 -> 0 <= v < 2 ^ 64 -> load_word a s = Some v.
Proof.
  intros Hw H0 Ha Hv. unfold load_word.
  rewrite (mapM_Some_2 _ (seq 0 8) (le_bytes 8 v)).
  - cbn [mbind option_bind]. f_equal. apply le_val_bytes_small. change (256 ^ Z.of_nat 8) with (2 ^ 64). lia.
  - apply Forall2_same_length_lookup_2; [by rewrite length_le_bytes|]. intros i j b [-> Hi]%lookup_seq Hb.
    rewrite wrap_small by lia. by apply Hw.
Qed.

Lemma count_strings_S room fuel v i slen s :
  count_strings (S room) fuel v i slen s =
    p ← load_word (u64 (v + 8 * i)) s;
    if p =? 0 then Some (i, slen) else
    l ← cstrlen fuel 0 (UPtr p) s; count_strings room fuel v (i + 1) (slen + (l + 1)) s.
Proof. done. Qed.

Definition argv_at : Z := USER_STACK_VADDR.

Lemma argv_space : exists s, wf s /\ load_word argv_at s = Some (argv_at + 16) /\
  count_strings 63 5 argv_at 0 7 s = Some (1, 8).
Proof.
  pose proof (window_empty USER_LO USER_HI roomy_space roomy_wf (fun a _ => roomy_unmapped a)) as Hw.
  destruct (map_pages_enough (S (length (free_pages_stack roomy_space))) 0 USER_STACK_VADDR ustack_pages [] roomy_space
    roomy_wf ltac:(done) eq_refl ltac:(done) ltac:(done)) as (s1 & Em & _).
  { apply Z.leb_le. vm_compute. reflexivity. }
  { apply Nat.ltb_lt. vm_compute. reflexivity. }
  { intros v Hv. apply (wd_tame _ _ _ _ Hw). change (0x70000000 <= v < 0x70080000) in Hv. unfold USER_LO, USER_HI. lia. }
  pose proof (ustack_cleared _ _ _ Hw Em) as Hcl. destruct (cleared_stack_mem _ _ _ Hcl) as [F Hm].
  destruct (put_word_total _ argv_at 0 (argv_at + 16) s1 Hm) as (s2 & E2 & _); [done..|].
  apply (put_word_wrote (F ++ [])) in E2 as [W B]; [|done..]. exists s2.
  pose proof (cl_byte _ _ _ _ _ Hcl) as Hz. rewrite ustack_pages_eq in Hz.
  assert (Hb : forall x, argv_at + 8 <= x < TOP -> load_byte x s2 = Some 0).
  { intros x Hx. unfold argv_at in *. rewrite (wr_same _ _ _ _ W); [|apply stack_user; lia|cbn beta; lia].
    rewrite Hz by (apply stack_user; lia). by rewrite decide_True by lia. }
  assert (E1 : load_word argv_at s2 = Some (argv_at + 16)).
  { apply word_at_load; [|unfold argv_at, USER_STACK_VADDR; lia..]. exact B. }
  split; [|split; [exact E1|]].
  - exact (wf_unreserve _ _ (wd_wf _ _ _ _ (sm_win _ _ (wr_mem _ _ _ _ W)))).
  - rewrite (count_strings_S 62). change (u64 (argv_at + 8 * 0)) with argv_at. rewrite E1. cbn [mbind option_bind].
    change (argv_at + 16 =? 0) with false. cbv iota. cbn [cstrlen cget]. change (u64 (argv_at + 16 + 0)) with (argv_at + 16).
    rewrite (Hb (argv_at + 16)) by (unfold argv_at, USER_STACK_VADDR, USER_STACK_SIZE; lia). cbn [mbind option_bind]. change (0 =? 0) with true. cbv iota.
    cbn [mbind option_bind]. rewrite (count_strings_S 61). change (u64 (argv_at + 8 * (0 + 1))) with (argv_at + 8).
    rewrite (word_at_load (argv_at + 8) 0); [reflexivity| |unfold argv_at, USER_STACK_VADDR; lia..].
    intros k b Hk. assert (Hb0 : b = 0 /\ (k < 8)%nat).
    { change (le_bytes 8 0) with (replicate 8 0) in Hk. by apply lookup_replicate in Hk. }
    destruct Hb0 as [-> Hk8]. apply Hb. unfold argv_at, USER_STACK_VADDR, USER_STACK_SIZE. lia.
Qed.

Lemma sample_off x : ~ (0x400000 <= x < 0x401000) -> off_image sample_image x.
Proof.
  intros Hx eh phs ph Heh Hphs Hin _. rewrite sample_header_at in Heh. injection Heh as <-.
  rewrite sample_phdrs in Hphs. injection Hphs as <-. apply list_elem_of_singleton in Hin as ->.
  change (~ (0x400000 <= x < 0x401000)). done.
Qed.

Lemma execve_args_fault_witness : exists s,
  load_word argv_at s = Some (argv_at + 16) /\
  (exec_space 5 (str "/hello") argv_at 0 sample_image 124 3 7 s = None \/
   exists code s', exec_space 5 (str "/hello") argv_at 0 sample_image 124 3 7 s = Some (ExecFailed code, s')).
Proof.
  destruct argv_space as (s & Hwf & Hp & Hc). exists s. split; [exact Hp|].
  apply (execve_args_fault 5 (str "/hello") argv_at 0 sample_image 124 3 7 s (argv_at + 16) 1 8 0 8 Hwf
    (vi_bytes _ _ _ _ sample_valid)); [lia|discriminate|exact Hp|discriminate|exact Hc|reflexivity| | |].
  - unfold exec_size, USER_STACK_SIZE. lia.
  - intros x Hx. apply sample_off. unfold USER_STACK_VADDR, USER_STACK_SIZE in Hx. lia.
  - split.
    + unfold USER_LO, USER_HI, argv_at, USER_STACK_VADDR. lia.
    + intros x Hx. apply sample_off. unfold argv_at, USER_STACK_VADDR in Hx. lia.
    + right. apply Z.leb_le. vm_compute. reflexivity.
    + left. apply Z.leb_le. vm_compute. reflexivity.
Defined.
