(* ===== verification/Proc.v ===== *)
(** Processes and threads of src/kernel/task/task.c as a whole: [sys_fork],
    [create_user_process_elf_redir], [create_user_thread] and the exit of a thread
    and of a process, each up to the switch to another task.  They put together
    the descriptors of [Fd.v], the address spaces of [Fork.v] and [Spawn.v], the
    user heap and the kernel heap.  The names of tasks and the FPU state are left
    out, and so is the user stack base of a slot whose spawn or thread fails: the
    slot is free and the next owner sets it. *)
From Stdlib Require Import ZArith Lia.
From stdpp Require Import base numbers list gmap strings.
From S2P Require Import Prelude HeapIface Fs Persist Ring Task Pty Fd Vmm UserMem Elf UserHeap Fork Spawn.

Definition THREAD_STACK_VADDR : Z := 0x60100000.
Definition THREAD_STACK_SIZE : Z := USER_STACK_SIZE.
Definition EIGEN_ERR_NOMEM : Z := -3.

Section Proc.
Context {H : Type} `{!KernelHeap H}.

(** The kernel heap is in the file system's state and in the user heap's, each
    time the same. *)
Record proc := Proc {
  q_io : io (H := H);
  q_uh : uheap H;
  q_next_id : Z;
  q_enabled : bool;        (* tasking_enabled *)
  q_words : gmap Z Z;      (* 64-bit words of the kernel stacks, by address *)
}.

Definition q_tasks (p : proc) : list task_t := io_tasks (q_io p).
Definition cur (p : proc) : task_t := slot (q_tasks p) (io_cur (q_io p)).
Definition on_io (f : io -> io) (p : proc) : proc :=
  Proc (f (q_io p)) (q_uh p) (q_next_id p) (q_enabled p) (q_words p).
Definition on_words (f : gmap Z Z -> gmap Z Z) (p : proc) : proc :=
  Proc (q_io p) (q_uh p) (q_next_id p) (q_enabled p) (f (q_words p)).
Definition on_uh (f : uheap H -> uheap H) (p : proc) : proc :=
  Proc (q_io p) (f (q_uh p)) (q_next_id p) (q_enabled p) (q_words p).
Definition put_mem (v : vm) (p : proc) : proc := on_uh (with_mem v) p.
Definition put_next_id (n : Z) (p : proc) : proc := Proc (q_io p) (q_uh p) n (q_enabled p) (q_words p).
Definition put_task (i : nat) (t : task_t) (p : proc) : proc :=
  on_io (fun s => set_iotasks (alter (fun _ => t) i (io_tasks s)) s) p.

Definition kernel_heap (p : proc) : H := kh (q_uh p).
Definition fs_heap (h : H) (f : fs H) : fs H :=
  Fs (files f) (home_dir_index f) (trash_dir_index f) (desktop_dir_index f) (bin_dir_index f) (cwd_node f) h
    (blocks f) (dirty f) (clock f).
Definition put_heap (h : H) (p : proc) : proc :=
  on_io (fun s => set_fs (fs_heap h (io_fs s)) s) (on_uh (with_kh h) p).

Definition take_heap (n : Z) (p : proc) : option Z * proc :=
  let '(a, h) := kmalloc n (kernel_heap p) in (a, put_heap h p).
Definition give_heap (a : Z) (p : proc) : proc := put_heap (free_stack a (kernel_heap p)) p.

(** [for (i = 1; i < MAX_TASKS; i++) if (tasks[i].state == TASK_FREE)]. *)
Definition free_slot (p : proc) : option nat :=
  find_from (fun _ t => bool_decide (t_state t = TASK_FREE)) 1 (q_tasks p).

(** [abi_stack_top] of a kernel stack is its kernel_stack_top. *)
Definition kstack_top (t : task_t) : Z := abi_stack_top (t_kstack t) KERNEL_STACK_SIZE.

Definition kstack_new (p : proc) : option Z * proc := take_heap (KERNEL_STACK_SIZE + 16) p.

Definition canary_set (base : Z) (p : proc) : proc := on_words <[base := KSTACK_CANARY]> p.

(** [*--kstack = v] for the words of [l], the first one at the top. *)
Definition push_words (top : Z) (l : list Z) (m : gmap Z Z) : gmap Z Z :=
  foldl (fun m '(i, v) => <[top - 8 * (Z.of_nat i + 1) := v]> m) m (zip (seq 0 (length l)) l).

(** SS, RSP, RFLAGS, CS and RIP, then the fifteen registers; [rdi] and [rsi] are
    the words 4 and 3 of those. *)
Definition entry_frame (rip rsp rdi rsi : Z) : list Z :=
  [0x23; rsp; 0x202; 0x1B; rip] ++ [0; 0; 0; rsi; rdi] ++ replicate 10 0.

(** [memcpy] of whole words. *)
Definition copy_words (n : nat) (src dst : Z) (m : gmap Z Z) : gmap Z Z :=
  foldl (fun m' i => <[dst + 8 * Z.of_nat i := default 0 (m !! (src + 8 * Z.of_nat i))]> m') m (seq 0 n).

(** ** fork *)

(** The slot after the memset and the first assignments. *)
Definition fork_blank (id ppid kstack : Z) : task_t :=
  Task id ppid id 0 TASK_FREE TASK_RING3 0 kstack 0 0 0 0 (replicate 32 0) 0 false None 0
    (replicate MAX_FDS null_slot) 0.

Definition fork_done (parent : task_t) (rsp pml4 : Z) (ch : task_t) : task_t :=
  Task (t_id ch) (t_ppid ch) (t_group ch) (t_exit_code ch) TASK_READY (t_ring ch) rsp (t_kstack ch) (t_ustack parent)
    pml4 (t_fs_base parent) (t_futex ch) (t_handlers ch) (t_pending ch) (t_in_handler ch) (t_sig_save ch)
    (t_sleep_until ch) (t_fds ch) (t_cwd parent).

(** The copy of the saved frame with RAX 0; [frame] is g_syscall_frame_rsp, and
    the result the child's RSP. *)
Definition fork_frame (frame top ctop : Z) (m : gmap Z Z) : Z * gmap Z Z :=
  let bytes := u64 (top - frame) in
  let bytes := if KERNEL_STACK_SIZE <? bytes then 160 else bytes in
  let child := u64 (ctop - bytes) in
  (child, <[child + 14 * 8 := 0]> (copy_words (Z.to_nat (bytes / 8)) frame child m)).

Definition sys_fork (frame : Z) (p : proc) : Z * proc :=
  let parent := cur p in
  if bool_decide (t_ring parent <> TASK_RING3) then (-1, p) else
  match free_slot p with
  | None => (- EIGEN_ERR_NOMEM, p)
  | Some slot =>
      let id := q_next_id p in
      let p := put_next_id (i32 (id + 1)) (put_task slot (fork_blank id (t_id parent) 0) p) in
      match kstack_new p with
      | (None, p) => (- EIGEN_ERR_NOMEM, p)
      | (Some ks, p) =>
          let p := canary_set ks (put_task slot (fork_blank id (t_id parent) ks) p) in
          let '(new_pml4, v) := vmm_new_user_pml4 (mem (q_uh p)) in
          let p := put_mem v p in
          if new_pml4 =? 0 then (- EIGEN_ERR_NOMEM, give_heap ks p) else
          let '(ok, v) := copy_user_as (t_pml4 parent) new_pml4 (mem (q_uh p)) in
          let p := put_mem v p in
          if negb ok then (- EIGEN_ERR_NOMEM, give_heap ks p) else
          let p := on_io (dup_fd_table slot) p in
          let '(rsp, m) := fork_frame frame (kstack_top parent) (abi_stack_top ks KERNEL_STACK_SIZE) (q_words p) in
          let p := on_io (fun s => set_iotasks (alter (fork_done parent rsp new_pml4) slot (io_tasks s)) s)
                     (on_words (fun _ => m) p) in
          (id, p)
      end
  end.

(** ** spawn *)

(** What the caller's descriptor becomes in the child; [None]: nothing. *)
Inductive redir_snap :=
  | RPipe (pno end_ : Z)
  | RPty (pno end_ : Z)
  | RFile (flags off : Z).

Definition redir_of (pfd : Z) (parent : task_t) : option redir_snap :=
  if fd_bad pfd then None else
  let f := fd_at (t_fds parent) (Z.to_nat pfd) in
  if fd_types f =? FD_PIPE then Some (RPipe (fd_pipe f) (Z.land (fd_flags_extra f) 1))
  else if fd_types f =? FD_PTY then Some (RPty (fd_pty f) (Z.land (fd_flags_extra f) 1))
  else if 0 <? fd_flags f then Some (RFile (fd_flags f) (fd_offsets f))
  else None.

Definition redir_fd (r : redir_snap) (f : fd_slot) : fd_slot :=
  match r with
  | RPipe pno e => FdSlot (fds f) (fd_flags f) (fd_offsets f) FD_PIPE (u8 pno) (fd_pty f) e
  | RPty pno e => FdSlot (fds f) (fd_flags f) (fd_offsets f) FD_PTY (fd_pipe f) (u8 pno) e
  | RFile flags off => FdSlot (fds f) flags off (fd_types f) (fd_pipe f) (fd_pty f) (fd_flags_extra f)
  end.

(** The reference taken along with it. *)
Definition redir_ref (r : redir_snap) (s : io) : io (H := H) :=
  match r with
  | RPipe pno e => set_pipes (bump_pipe (FdSlot 0 0 0 FD_PIPE pno 0 e) (io_pipes s)) s
  | RPty pno e => set_ptys (pty_dup_ref pno (negb (Z.land e 1 =? 0)) (io_ptys s)) s
  | RFile _ _ => s
  end.

Definition upd_slot_fd (slot i : nat) (f : fd_slot -> fd_slot) (s : io) : io (H := H) :=
  set_iotasks (alter (fun t => with_fds (alter f i (t_fds t)) t) slot (io_tasks s)) s.

(** One of the two loops that install the inherited descriptors. *)
Definition install_redir (slot : nat) (rs : list (option redir_snap)) (s : io) : io :=
  foldl (fun s '(i, r) =>
           match r with None => s | Some r => redir_ref r (upd_slot_fd slot i (redir_fd r) s) end)
        s (zip (seq 0 (length rs)) rs).

(** The kernel's copies of the argument strings and their heap blocks: it stops
    at a NULL pointer or when the heap is full.  [None]: a page fault. *)
Fixpoint read_cstr (n : nat) (k : Z) (c : cptr) (v : vm) : option (list Z) :=
  match n with
  | O => Some []
  | S n => b ← cget c k v; if b =? 0 then Some [] else l ← read_cstr n (k + 1) c v; Some (b :: l)
  end.

Definition is_null (c : cptr) : bool := match c with UPtr a => a =? 0 | KStr _ => false end.

Fixpoint copy_args (argv : list cptr) (p : proc) : option (list (Z * list Z) * proc) :=
  match argv with
  | [] => Some ([], p)
  | c :: argv =>
      if is_null c then Some ([], p) else
      l ← read_cstr 1023 0 c (mem (q_uh p));
      match take_heap (Z.of_nat (length l) + 1) p with
      | (None, p) => Some ([], p)
      | (Some a, p) => '(r, p) ← copy_args argv p; Some ((a, l) :: r, p)
      end
  end.

Definition free_args (l : list (Z * list Z)) (p : proc) : proc := foldl (fun p a => give_heap (fst a) p) p l.

(** The slot after the first assignments: descriptors lose their files and nodes
    but keep type, pipe and terminal; handlers, pending signals, and the working
    directory are those of the slot's last owner. *)
Definition spawn_slot (id ppid : Z) (old : task_t) : task_t :=
  Task id ppid id 0 (t_state old) TASK_RING3 (t_rsp old) (t_kstack old) (t_ustack old) (t_pml4 old) 0 0
    (t_handlers old) (t_pending old) (t_in_handler old) (t_sig_save old) 0
    ((fun f => FdSlot 0 0 0 (fd_types f) (fd_pipe f) (fd_pty f) (fd_flags_extra f)) <$> t_fds old) (t_cwd old).

Definition with_kstack (ks : Z) (t : task_t) : task_t :=
  Task (t_id t) (t_ppid t) (t_group t) (t_exit_code t) (t_state t) (t_ring t) (t_rsp t) ks (t_ustack t)
    (t_pml4 t) (t_fs_base t) (t_futex t) (t_handlers t) (t_pending t) (t_in_handler t) (t_sig_save t)
    (t_sleep_until t) (t_fds t) (t_cwd t).

(** A spawn that fails after the switch of address spaces. *)
Definition spawn_dropped (t : task_t) : task_t :=
  Task (t_id t) (t_ppid t) (t_group t) (t_exit_code t) TASK_FREE (t_ring t) (t_rsp t) (t_kstack t) (t_ustack t)
    0 (t_fs_base t) (t_futex t) (t_handlers t) (t_pending t) (t_in_handler t) (t_sig_save t)
    (t_sleep_until t) (t_fds t) (t_cwd t).

Definition spawn_ready (rsp pml4 fsbase : Z) (t : task_t) : task_t :=
  Task (t_id t) (t_ppid t) (t_group t) (t_exit_code t) TASK_READY (t_ring t) rsp (t_kstack t) USER_STACK_VADDR
    pml4 fsbase (t_futex t) (t_handlers t) (t_pending t) (t_in_handler t) (t_sig_save t)
    (t_sleep_until t) (t_fds t) (t_cwd t).

Definition upd_slot (slot : nat) (f : task_t -> task_t) (p : proc) : proc :=
  on_io (fun s => set_iotasks (alter f slot (io_tasks s)) s) p.

(** [image] is what [user_module_find] finds. *)
Definition create_user_process_elf_redir (fuel : nat) (name : cptr) (argv : list cptr)
    (parent_redir : option (list Z)) (image : option (list Z * Z)) (p : proc) : option (Z * proc) :=
  match image with
  | None => Some (-2, p)
  | Some (data, size) =>
      let rs := match parent_redir with None => [] | Some l => (fun pfd => redir_of pfd (cur p)) <$> take 3 l end in
      '(args, p) ← copy_args (take MAX_ARGS argv) p;
      match free_slot p with
      | None => Some (-1, p)
      | Some slot =>
          let id := q_next_id p in
          let p := upd_slot slot (spawn_slot id (t_id (cur p))) (put_next_id (i32 (id + 1)) p) in
          let p := on_io (install_redir slot rs) p in
          match kstack_new p with
          | (None, p) => Some (-1, upd_slot slot (fun t => with_state TASK_FREE (with_kstack 0 t)) p)
          | (Some ks, p) =>
              let p := on_io (install_redir slot rs) (canary_set ks (upd_slot slot (with_kstack ks) p)) in
              '(r, v) ← spawn_space fuel data size name (take (length args) argv) (snd <$> args) slot id (mem (q_uh p));
              let no_space := fst (vmm_new_user_pml4 (mem (q_uh p))) =? 0 in
              let p := put_mem v p in
              match r with
              | Failed code =>
                  let p := give_heap ks p in
                  Some (code, if no_space then upd_slot slot (with_state TASK_FREE) p
                              else free_args args (upd_slot slot spawn_dropped p))
              | Spawned pml4 entry arr =>
                  let top := abi_stack_top ks KERNEL_STACK_SIZE in
                  let p := on_words (push_words top (entry_frame entry arr 0 0)) (free_args args p) in
                  Some (id, upd_slot slot (spawn_ready (u64 (top - 160)) pml4 (tls_vaddr slot)) p)
              end
          end
      end
  end.

(** ** Threads *)

Definition tstack_vaddr (slot : nat) : Z := u64 (THREAD_STACK_VADDR + Z.of_nat slot * THREAD_STACK_SIZE).
Definition tstack_pages : Z := THREAD_STACK_SIZE / 4096.

(** The slot before its stacks: the state stays TASK_FREE until the end. *)
Definition thread_slot (id : Z) (leader old : task_t) : task_t :=
  Task id (t_id leader) (t_group leader) 0 (t_state old) TASK_RING3 (t_rsp old) (t_kstack old) (t_ustack old)
    (t_pml4 leader) (t_fs_base old) 0 (t_handlers old) (t_pending old) (t_in_handler old) (t_sig_save old) 0
    ((fun f => FdSlot 0 0 0 0 0 (fd_pty f) 0) <$> t_fds old) (t_cwd old).

Definition thread_ready (slot : nat) (rsp : Z) (t : task_t) : task_t :=
  Task (t_id t) (t_ppid t) (t_group t) (t_exit_code t) TASK_READY (t_ring t) rsp (t_kstack t) (tstack_vaddr slot)
    (t_pml4 t) (tls_vaddr slot) (t_futex t) (t_handlers t) (t_pending t) (t_in_handler t) (t_sig_save t)
    (t_sleep_until t) (t_fds t) (t_cwd t).

(** The two mappings of a thread: false when a page is missing.  [None]: a fault. *)
Definition thread_pages (slot : nat) (id : Z) (v : vm) : option (bool * vm) :=
  '(ok, v) ← user_map_pages (tstack_vaddr slot) tstack_pages v;
  if negb ok then Some (false, v) else map_tls slot id v.

Definition create_user_thread (tramp arg1 arg2 : Z) (p : proc) : option (Z * proc) :=
  if negb (q_enabled p) then Some (-1, p) else
  if (tramp =? 0) || (0x800000000000 <=? tramp) then Some (EIGEN_ERR_INVAL, p) else
  let leader := cur p in
  if bool_decide (t_ring leader <> TASK_RING3) || (t_group leader <=? 0) then Some (EIGEN_ERR_INVAL, p) else
  match free_slot p with
  | None => Some (EIGEN_ERR_NOMEM, p)
  | Some slot =>
      let id := q_next_id p in
      let p := upd_slot slot (thread_slot id leader) (put_next_id (i32 (id + 1)) p) in
      match kstack_new p with
      | (None, p) => Some (EIGEN_ERR_NOMEM, upd_slot slot (fun t => with_state TASK_FREE (with_kstack 0 t)) p)
      | (Some ks, p) =>
          let p := upd_slot slot (with_kstack ks) p in
          '(ok, v) ← thread_pages slot id (mem (q_uh p));
          let p := put_mem v p in
          if negb ok then Some (EIGEN_ERR_NOMEM, give_heap ks (upd_slot slot (with_state TASK_FREE) p)) else
          let top := abi_stack_top ks KERNEL_STACK_SIZE in
          let usp := abi_stack_top (tstack_vaddr slot) THREAD_STACK_SIZE in
          let p := on_words (push_words top (entry_frame tramp usp arg1 arg2)) p in
          Some (id, upd_slot slot (thread_ready slot (u64 (top - 160))) p)
      end
  end.

(** ** Exit *)

(** A dead thread. *)
Definition thread_dead (code : Z) (t : task_t) : task_t :=
  Task (t_id t) (t_ppid t) (t_group t) code TASK_DEAD (t_ring t) 0 0 0
    (t_pml4 t) 0 0 (t_handlers t) (t_pending t) (t_in_handler t) (t_sig_save t)
    (t_sleep_until t) (t_fds t) (t_cwd t).

(** The pages of a thread, given back. *)
Definition drop_thread_pages (slot : nat) (tls : Z) (v : vm) : vm :=
  let v := unmap_pages_loop (Z.to_nat tstack_pages) 0 (tstack_vaddr slot) v in
  if tls =? 0 then v else
  let phys := vmm_get_phys tls v in
  let v := vmm_unmap tls v in
  if phys =? 0 then v else pmm_free phys v.

(** [exit_task] of a task that is not slot 0.  [None]: the user heap's walk faults. *)
Definition exit_task (code : Z) (p : proc) : option proc :=
  let t := cur p in
  let p := on_io exit_close_fds p in
  u ← user_heap_release_owner (t_id t) (q_uh p);
  let p := put_heap (kh u) (on_uh (fun _ => u) p) in
  let p := upd_slot (io_cur (q_io p)) (stackless code) p in
  Some (give_heap (t_ustack t) (give_heap (t_kstack t) p)).

Definition thread_exit_task (code : Z) (p : proc) : option proc :=
  let t := cur p in
  let slot := io_cur (q_io p) in
  if (t_id t =? t_group t) || (t_group t <=? 0) then
    exit_task code (on_io (fun s => set_iotasks (strand (t_group t) (io_tasks s)) s) p)
  else
    let p := give_heap (t_kstack t) (upd_slot slot (thread_dead code) p) in
    Some (put_mem (drop_thread_pages slot (t_fs_base t) (mem (q_uh p))) p).
End Proc.
