(* ===== verification/ProcPipes.v ===== *)
(** The reference counts of pipes over everything processes do.  [sys_pipe] counts
    each end of a new pipe twice, and no operation makes up for it: a pipe that has
    been handed out keeps at least one reader and one writer more than there are
    descriptors of it.  So no pipe reports its end, and none is ever free again, in
    runs in which the counts stay within their ints. *)
From Stdlib Require Import ZArith Lia.
From stdpp Require Import base numbers list gmap strings.
From S2P Require Import Prelude HeapIface Fs Persist Ring Task Pty Fd Vmm UserMem Elf UserHeap Fork Spawn Proc FdProps Kheap FsProps.

(** ** Counting *)

(** A descriptor that is a write end (a read end) of pipe [p]. *)
Definition is_end (w : bool) (p : nat) (f : fd_slot) : bool :=
  (fd_types f =? FD_PIPE) && (fd_pipe f =? Z.of_nat p) &&
  Bool.eqb w (negb (Z.land (fd_flags_extra f) 1 =? 0)).
Definition end_count (w : bool) (p : nat) (f : fd_slot) : Z := if is_end w p f then 1 else 0.
Definition total_of {A} (g : A -> Z) (l : list A) : Z := foldr (fun x n => g x + n) 0 l.
Definition fd_ends (w : bool) (p : nat) (l : list fd_slot) : Z := total_of (end_count w p) l.
Definition ends (w : bool) (p : nat) (ts : list task_t) : Z := total_of (fun t => fd_ends w p (t_fds t)) ts.
Definition counted (w : bool) (b : pipe_buf) : Z := if w then writer_count b else reader_count b.

Lemma end_count_range w p f : 0 <= end_count w p f <= 1.
Proof. unfold end_count. destruct (is_end _ _ _); lia. Qed.

Lemma total_cons {A} (g : A -> Z) x l : total_of g (x :: l) = g x + total_of g l.
Proof. done. Qed.

Lemma total_of_nonneg {A} (g : A -> Z) l : (forall x, 0 <= g x) -> 0 <= total_of g l.
Proof. intros H. induction l as [|x l IH]; [done|]. rewrite total_cons. specialize (H x). lia. Qed.

Lemma fd_ends_nonneg w p l : 0 <= fd_ends w p l.
Proof. apply total_of_nonneg. intros x. apply end_count_range. Qed.

Lemma total_alter {A} (g : A -> Z) h i l x :
  l !! i = Some x -> total_of g (alter h i l) + g x = total_of g l + g (h x).
Proof.
  revert i. induction l as [|y l IH]; intros [|i] Hi; try done.
  - injection Hi as ->. change (alter h 0%nat (x :: l)) with (h x :: l). rewrite !total_cons. lia.
  - change (alter h (S i) (y :: l)) with (y :: alter h i l). rewrite !total_cons. specialize (IH i Hi). lia.
Qed.

Lemma alter_ge {A} (h : A -> A) i (l : list A) : l !! i = None -> alter h i l = l.
Proof.
  revert i. induction l as [|x l IH]; intros [|i] Hi; try done.
  change (alter h (S i) (x :: l)) with (x :: alter h i l). by rewrite IH.
Qed.

Lemma total_fmap {A B} (g : B -> Z) (h : A -> B) l : total_of g (h <$> l) = total_of (fun x => g (h x)) l.
Proof. induction l as [|x l IH]; [done|]. rewrite fmap_cons, !total_cons. by rewrite IH. Qed.

Lemma ends_tables w p ts : ends w p ts = total_of (fd_ends w p) (t_fds <$> ts).
Proof. by rewrite total_fmap. Qed.

Lemma end_count_elem w p f l : f ∈ l -> end_count w p f <= fd_ends w p l.
Proof.
  unfold fd_ends. induction 1 as [f l|f g l _ IH]; rewrite total_cons.
  - pose proof (fd_ends_nonneg w p l). unfold fd_ends in *. lia.
  - pose proof (end_count_range w p g). lia.
Qed.

Lemma fd_ends_elem w p t ts : t ∈ ts -> fd_ends w p (t_fds t) <= ends w p ts.
Proof.
  unfold ends. induction 1 as [t l|t u l _ IH]; rewrite total_cons.
  - assert (0 <= total_of (fun t => fd_ends w p (t_fds t)) l) by (apply total_of_nonneg; intros; apply fd_ends_nonneg). lia.
  - pose proof (fd_ends_nonneg w p (t_fds u)). lia.
Qed.

Section Pipes.
Context {H : Type} `{!KernelHeap H}.
Implicit Types (s : io (H := H)) (q : proc (H := H)).

(** ** What every operation does to the counts *)

Definition table_ok (t : task_t) : Prop :=
  length (t_fds t) = MAX_FDS /\ Forall (fun f => 0 <= fd_pipe f < 256) (t_fds t).

Record tables_ok s : Prop := {
  tk_cur : (io_cur s < length (io_tasks s))%nat;
  tk_fds : Forall table_ok (io_tasks s);
  tk_pipes : length (io_pipes s) = MAX_PIPES;
}.

(** A pipe nobody has, and a pipe with more ends counted than there are. *)
Definition idle s (p : nat) (b : pipe_buf) : Prop := forall w, counted w b = 0 /\ ends w p (io_tasks s) = 0.
Definition excess s (p : nat) (b : pipe_buf) : Prop := forall w, ends w p (io_tasks s) + 1 <= counted w b.

(** The counts of a pipe are right and [n] more still fit their ints; they have
    grown by at most [n]. *)
Definition fits (n : nat) (b : pipe_buf) : Prop := forall w, 0 <= counted w b /\ counted w b + Z.of_nat n < 2 ^ 31.
Definition low (n : nat) s : Prop := forall p b, io_pipes s !! p = Some b -> fits n b.
Definition within (n : nat) (b b' : pipe_buf) : Prop := forall w, 0 <= counted w b' <= counted w b + Z.of_nat n.

(** The pipes no descriptor in play refers to. *)
Variable unheld : nat -> Prop.

(** The counts of every pipe grow at least by the ends that came to it, and a pipe
    that is taken into use is counted too often from the start. *)
Definition grows n s s' : Prop :=
  forall p b', io_pipes s' !! p = Some b' -> exists b, io_pipes s !! p = Some b /\
    (forall w, ends w p (io_tasks s') - ends w p (io_tasks s) <= counted w b' - counted w b) /\ within n b b' /\
    (unheld p -> idle s p b -> idle s' p b' \/ excess s' p b').

(** What an operation does that counts a pipe at most [n] times. *)
Definition evolves n s s' : Prop := tables_ok s -> low n s -> tables_ok s' /\ grows n s s'.

Lemma evolves_ok n s s' : (tables_ok s -> evolves n s s') -> evolves n s s'.
Proof. intros He Hs. by apply He. Qed.

Lemma fits_less m n b : (m <= n)%nat -> fits n b -> fits m b.
Proof. intros Hmn Hb w. destruct (Hb w). lia. Qed.

Lemma evolves_refl n s : evolves n s s.
Proof.
  intros Hs Hl. split; [done|]. intros p b Hb. exists b. split; [done|]. split; [intros w; lia|]. split; [|by left].
  intros w. destruct (Hl p b Hb w). lia.
Qed.

(** One after the other. *)
Lemma evolves_add m n s1 s2 s3 : evolves m s1 s2 -> evolves n s2 s3 -> evolves (m + n) s1 s3.
Proof.
  intros H1 H2 Hs Hl. destruct (H1 Hs) as [Hs2 G1]; [intros p b Hb; apply (fits_less m (m + n)); [lia|by apply (Hl p)]|].
  assert (Hl2 : low n s2).
  { intros p b2 Hb2 w. destruct (G1 p b2 Hb2) as (b1 & Hb1 & _ & W1 & _). specialize (W1 w). destruct (Hl p b1 Hb1 w). lia. }
  destruct (H2 Hs2 Hl2) as [Hs3 G2]. split; [done|]. intros p b' Hb.
  destruct (G2 p b' Hb) as (b2 & Hb2 & E2 & W2 & I2). destruct (G1 p b2 Hb2) as (b1 & Hb1 & E1 & W1 & I1).
  exists b1. split; [done|]. split; [intros w; specialize (E1 w); specialize (E2 w); lia|].
  split; [intros w; specialize (W1 w); specialize (W2 w); lia|].
  intros HP Hi. destruct (I1 HP Hi) as [Hi2|Hx]; [by apply I2|]. right. intros w. specialize (Hx w). specialize (E2 w). lia.
Qed.

Lemma evolves_less m n s s' : (m <= n)%nat -> evolves m s s' -> evolves n s s'.
Proof.
  intros Hmn He Hs Hl. destruct (He Hs) as [Hs' G]; [intros p b Hb; apply (fits_less m n); [done|by apply (Hl p)]|].
  split; [done|]. intros p b' Hb. destruct (G p b' Hb) as (b & Hb0 & E & W & I). exists b. split; [done|]. split; [done|].
  split; [|done]. intros w. specialize (W w). lia.
Qed.

(** Operations that count nothing come before and after for free. *)
Lemma evolves_trans n s1 s2 s3 : evolves 0 s1 s2 -> evolves n s2 s3 -> evolves n s1 s3.
Proof. apply (evolves_add 0). Qed.

Lemma evolves_then n s1 s2 s3 : evolves n s1 s2 -> evolves 0 s2 s3 -> evolves n s1 s3.
Proof. rewrite <-(Nat.add_0_r n) at 2. apply evolves_add. Qed.

(** The tables of descriptors and the counts stay. *)
Lemma evolves_same n s s' :
  io_cur s' = io_cur s -> t_fds <$> io_tasks s' = t_fds <$> io_tasks s ->
  length (io_pipes s') = length (io_pipes s) ->
  (forall p b', io_pipes s' !! p = Some b' -> exists b, io_pipes s !! p = Some b /\ forall w, counted w b' = counted w b) ->
  evolves n s s'.
Proof.
  intros Hc Ht Hl Hp [Kc Kf Kp] Hlow. pose proof (f_equal length Ht) as Hlen. rewrite !length_fmap in Hlen.
  assert (Hkf : Forall (fun l : list fd_slot => length l = MAX_FDS /\ Forall (fun f => 0 <= fd_pipe f < 256) l) (t_fds <$> io_tasks s))
    by (by apply Forall_fmap).
  split; [split|].
  - by rewrite Hc, Hlen.
  - rewrite <-Ht in Hkf. by apply Forall_fmap in Hkf.
  - by rewrite Hl.
  - intros p b' Hb. destruct (Hp p b' Hb) as (b & Hb0 & E). exists b. split; [done|]. split.
    + intros w. rewrite !ends_tables, Ht, E. lia.
    + split; [intros w; rewrite E; destruct (Hlow p b Hb0 w); lia|]. intros _ Hi. left. intros w. rewrite E, ends_tables, Ht, <-ends_tables. apply Hi.
Qed.

Lemma grow_pipe_same s p b : io_pipes s !! p = Some b -> exists b0, io_pipes s !! p = Some b0 /\ forall w, counted w b = counted w b0.
Proof. intros Hb. by exists b. Qed.

(** *** One slot of one table *)

Lemma slot_table s sl t : tables_ok s -> io_tasks s !! sl = Some t -> table_ok t.
Proof. intros Hs Ht. by apply (Forall_lookup_1 _ _ _ _ (tk_fds _ Hs) Ht). Qed.

(** One descriptor of [p] changes, and its counts. *)
Definition counts_move (n p : nat) (b b' : pipe_buf) (f f' : fd_slot) : Prop :=
  within n b b' /\
  (forall w, end_count w p f' - end_count w p f <= counted w b' - counted w b) /\
  (unheld p -> (forall w, counted w b = 0 /\ end_count w p f = 0) ->
   (forall w, counted w b' = 0 /\ end_count w p f' = 0) \/ (forall w, end_count w p f' + 1 <= counted w b')).

Lemma counts_move_fd n p b f f' :
  fits n b -> (forall w, end_count w p f' <= end_count w p f) -> counts_move n p b b f f'.
Proof.
  intros Hb He. split; [intros w; destruct (Hb w); lia|]. split; [intros w; specialize (He w); lia|]. intros _ Hi. left. intros w. destruct (Hi w) as [Hc Hf]. split; [done|].
  specialize (He w). pose proof (end_count_range w p f'). lia.
Qed.

Lemma evolves_fd n s sl i g ps t f :
  io_tasks s !! sl = Some t -> t_fds t !! i = Some f -> (0 <= fd_pipe f < 256 -> 0 <= fd_pipe (g f) < 256) ->
  length ps = length (io_pipes s) ->
  (forall p b', ps !! p = Some b' -> exists b, io_pipes s !! p = Some b /\ (fits n b -> counts_move n p b b' f (g f))) ->
  evolves n s (set_pipes ps (upd_slot_fd sl i g s)).
Proof.
  intros Ht Hf Hrange Hlen Hps Hs Hlow. pose proof (slot_table s sl t Hs Ht) as [Hl Hr]. destruct Hs as [Kc Kf Kp].
  split; [split|].
  - cbn. by rewrite length_alter.
  - cbn. apply Forall_forall. intros u Hu. apply list_elem_of_lookup in Hu as [k Hk].
    destruct (decide (k = sl)) as [->|Hne].
    + rewrite list_lookup_alter_eq, Ht in Hk. injection Hk as <-. split; [by cbn; rewrite length_alter|]. cbn.
      apply Forall_forall. intros x Hx. apply list_elem_of_lookup in Hx as [j Hj]. destruct (decide (j = i)) as [->|Hji].
      * rewrite list_lookup_alter_eq, Hf in Hj. injection Hj as <-. apply Hrange. by apply (Forall_lookup_1 _ _ _ _ Hr Hf).
      * rewrite list_lookup_alter_ne in Hj by done. by apply (Forall_lookup_1 _ _ _ _ Hr Hj).
    + rewrite list_lookup_alter_ne in Hk by done. by apply (Forall_lookup_1 _ _ _ _ Kf Hk).
  - cbn. by rewrite Hlen.
  - intros p b' Hb. destruct (Hps p b' Hb) as (b & Hb0 & M). destruct (M (Hlow p b Hb0)) as (W & E & I). exists b. split; [done|].
    assert (Hd : forall w, ends w p (io_tasks (set_pipes ps (upd_slot_fd sl i g s))) =
      ends w p (io_tasks s) - end_count w p f + end_count w p (g f)).
    { intros w. cbn [io_tasks set_pipes upd_slot_fd set_iotasks]. unfold ends.
      pose proof (total_alter (fun t => fd_ends w p (t_fds t)) (fun t => with_fds (alter g i (t_fds t)) t) sl _ t Ht) as E1.
      cbn [t_fds with_fds] in E1. pose proof (total_alter (end_count w p) g i (t_fds t) f Hf) as E2. unfold fd_ends in *. lia. }
    split; [intros w; specialize (E w); rewrite Hd; lia|]. split; [done|]. intros HP Hi.
    assert (H0 : forall w, end_count w p f = 0).
    { intros w. pose proof (end_count_elem w p f _ (list_elem_of_lookup_2 _ _ _ Hf)).
      pose proof (fd_ends_elem w p t _ (list_elem_of_lookup_2 _ _ _ Ht)). pose proof (end_count_range w p f).
      destruct (Hi w) as [_ Hz]. lia. }
    destruct I as [I|I]; [done|intros w; split; [apply Hi|apply H0]|left|right]; intros w; rewrite Hd, H0;
      destruct (Hi w) as [_ ->]; specialize (I w); lia.
Qed.

Lemma upd_fd_slot i g s : upd_fd i g s = upd_slot_fd (io_cur s) i g s.
Proof.
  unfold upd_fd, set_fdt, upd_slot_fd, set_iotasks, fdt. f_equal. apply list_alter_ext; [|done].
  intros t Ht. unfold slot. by rewrite Ht.
Qed.

Lemma cur_fd s i : tables_ok s -> (i < MAX_FDS)%nat ->
  exists t, io_tasks s !! io_cur s = Some t /\ t_fds t !! i = Some (fd_of (Z.of_nat i) s).
Proof.
  intros Hs Hi. destruct (lookup_lt_is_Some_2 _ _ (tk_cur _ Hs)) as [t Ht]. exists t. split; [done|].
  destruct (slot_table s _ t Hs Ht) as [Hl _]. unfold fd_of, fdt, slot. rewrite Ht, Nat2Z.id. cbn [default id].
  unfold fd_at. destruct (lookup_lt_is_Some_2 (t_fds t) i) as [f Hf]; [lia|]. by rewrite Hf.
Qed.

Lemma evolves_cur n s i g ps :
  (i < MAX_FDS)%nat -> let f := fd_of (Z.of_nat i) s in
  (0 <= fd_pipe f < 256 -> 0 <= fd_pipe (g f) < 256) -> length ps = length (io_pipes s) ->
  (forall p b', ps !! p = Some b' -> exists b, io_pipes s !! p = Some b /\ (fits n b -> counts_move n p b b' f (g f))) ->
  evolves n s (set_pipes ps (upd_fd i g s)).
Proof.
  intros Hi f Hr Hl Hp. apply evolves_ok. intros Hs. destruct (cur_fd s i Hs Hi) as (t & Ht & Hf). rewrite upd_fd_slot. by eapply evolves_fd.
Qed.

(** The descriptor is no more of an end than before. *)
Lemma evolves_upd n s i g :
  (i < MAX_FDS)%nat -> let f := fd_of (Z.of_nat i) s in
  (0 <= fd_pipe f < 256 -> 0 <= fd_pipe (g f) < 256) -> (forall w p, end_count w p (g f) <= end_count w p f) ->
  evolves n s (upd_fd i g s).
Proof.
  intros Hi f Hr He. change (upd_fd i g s) with (set_pipes (io_pipes s) (upd_fd i g s)).
  apply evolves_cur; [done|done|done|]. intros p b Hb. exists b. split; [done|].
  intros Hb0. apply counts_move_fd; [done|]. intros w. apply He.
Qed.

Lemma set_pipes_id s : set_pipes (io_pipes s) s = s.
Proof. by destruct s. Qed.

(** ** The calls on descriptors *)

Variable stale : Z -> Z -> list Z.

Lemma length_fdt s : tables_ok s -> length (fdt s) = MAX_FDS.
Proof.
  intros Hs. destruct (lookup_lt_is_Some_2 _ _ (tk_cur _ Hs)) as [t Ht].
  destruct (slot_table s _ t Hs Ht) as [Hl _]. unfold fdt, slot. by rewrite Ht.
Qed.

Lemma upd_fd_comp i g h s : upd_fd i g (upd_fd i h s) = upd_fd i (fun f => g (h f)) s.
Proof.
  rewrite !upd_fd_slot. unfold upd_slot_fd, set_iotasks. cbn. f_equal. rewrite list_alter_alter_eq.
  apply list_alter_ext; [|done]. intros t _. destruct t. cbn. by rewrite list_alter_alter_eq.
Qed.

Lemma evolves_world n s s' :
  io_tasks s' = io_tasks s -> io_cur s' = io_cur s -> io_pipes s' = io_pipes s -> evolves n s s'.
Proof. intros Ht Hc Hp. apply evolves_same; rewrite ?Ht, ?Hp; try done. apply grow_pipe_same. Qed.

(** *** Fields that do not matter *)

Definition same_end (f f' : fd_slot) : Prop :=
  fd_types f' = fd_types f /\ fd_pipe f' = fd_pipe f /\ Z.land (fd_flags_extra f') 1 = Z.land (fd_flags_extra f) 1.

Lemma same_end_count w p f f' : same_end f f' -> end_count w p f' = end_count w p f.
Proof. intros (E1 & E2 & E3). unfold end_count, is_end. by rewrite E1, E2, E3. Qed.

Lemma no_end w p f : fd_types f <> FD_PIPE -> end_count w p f = 0.
Proof. intros Hf. unfold end_count, is_end. by rewrite (proj2 (Z.eqb_neq _ _) Hf). Qed.

Lemma evolves_same_end n s i g : (i < MAX_FDS)%nat -> (forall f, same_end f (g f)) -> evolves n s (upd_fd i g s).
Proof.
  intros Hi Hg. apply evolves_upd; [done| |].
  - destruct (Hg (fd_of (Z.of_nat i) s)) as (_ & -> & _). done.
  - intros w p. by rewrite (same_end_count w p _ _ (Hg _)).
Qed.

Lemma good_fd fd : fd_bad fd = false -> (Z.to_nat fd < MAX_FDS)%nat /\ fd = Z.of_nat (Z.to_nat fd).
Proof. unfold fd_bad. rewrite orb_false_iff, Z.ltb_ge, Z.leb_gt. lia. Qed.

Lemma find_fd_lt P s i : tables_ok s -> find_from P 3 (fdt s) = Some i -> (i < MAX_FDS)%nat.
Proof. intros Hs Hf. rewrite <-(length_fdt s Hs). by eapply find_from_lt. Qed.

Lemma evolves_open path flags s : evolves 0 s (snd (sys_open path flags s)).
Proof.
  unfold sys_open.
  destruct (open_idx path flags (io_fs s)) as [idx f]. eapply evolves_trans; [apply (evolves_world 0 s (set_fs f s)); done|].
  set (s1 := set_fs f s). apply evolves_ok. intros Hs. destruct (find_from _ 3 (fdt s1)) as [i|] eqn:Ef; [|by apply evolves_refl].
  pose proof (find_fd_lt _ _ _ Hs Ef) as Hi. destruct idx as [j|]; [by apply evolves_same_end|].
  repeat case_match; try (by apply evolves_refl). by apply evolves_same_end.
Qed.

Lemma evolves_lseek fd off wh s : evolves 0 s (snd (sys_lseek fd off wh s)).
Proof.
  unfold sys_lseek. destruct (fd_bad fd) eqn:Eb; [apply evolves_refl|]. destruct (good_fd fd Eb) as [Hi _].
  case_match; [apply evolves_refl|]. cbv zeta. case_match; [apply evolves_refl|]. by apply evolves_same_end.
Qed.

Lemma evolves_fcntl fd cmd arg s : evolves 0 s (snd (sys_fcntl fd cmd arg s)).
Proof.
  unfold sys_fcntl. destruct (fd_bad fd) eqn:Eb; [apply evolves_refl|]. destruct (good_fd fd Eb) as [Hi Ei]. cbv zeta.
  case_match; [destruct (pty_set_fg _ _ _); by apply evolves_world|].
  case_match; [destruct (pty_set_raw _ _ _); by apply evolves_world|].
  case_match; [destruct (pty_set_winsize _ _ _ _); by apply evolves_world|].
  case_match; [apply evolves_refl|]. case_match; [|apply evolves_refl].
  destruct ((fd_types (fd_of fd s) =? FD_PIPE) || (fd_types (fd_of fd s) =? FD_PTY)) eqn:Et.
  - apply evolves_upd; [done|done|]. rewrite <-Ei. intros w p. apply Z.eq_le_incl, same_end_count.
    split; [done|split; [done|]]. cbn [with_extra fd_flags_extra]. case_match.
    + by rewrite Z.land_lor_distr_l, Z.lor_0_r.
    + by rewrite <-Z.land_assoc.
  - case_match; [|apply evolves_refl]. apply evolves_upd; [done|done|]. rewrite <-Ei. intros w p.
    apply orb_false_iff in Et as [Et _]. apply Z.eqb_neq in Et. rewrite !no_end by done. lia.
Qed.

(** *** Reading and writing *)

Lemma evolves_set_pipe s i b :
  (forall w, counted w b = counted w (pipe_at (io_pipes s) i)) -> evolves 0 s (set_pipes (<[Z.to_nat i := b]> (io_pipes s)) s).
Proof.
  intros Hb. apply evolves_same; [done|done|by cbn; rewrite length_insert|]. cbn. intros p b' Hp.
  destruct (decide (p = Z.to_nat i)) as [->|Hne].
  - destruct (io_pipes s !! Z.to_nat i) as [b0|] eqn:E0.
    + rewrite list_lookup_insert_eq in Hp by (by eapply lookup_lt_Some). injection Hp as <-. exists b0. split; [done|].
      intros w. rewrite Hb. unfold pipe_at. by rewrite E0.
    + rewrite list_insert_ge in Hp by (by apply lookup_ge_None). congruence.
  - rewrite list_lookup_insert_ne in Hp by done. by exists b'.
Qed.

Lemma pipe_read_counted count b w : counted w (snd (pipe_read count b)) = counted w b.
Proof. unfold pipe_read. case_match; [done|]. by destruct w. Qed.

Lemma pipe_write_counted buf b w : counted w (snd (pipe_write buf b)) = counted w b.
Proof. unfold pipe_write. case_match; [done|]. by destruct w. Qed.

Lemma evolves_read fd count s : evolves 0 s (snd (sys_read fd count s)).
Proof.
  unfold sys_read. destruct (fd_bad fd) eqn:Eb; [apply evolves_refl|]. destruct (good_fd fd Eb) as [Hi _]. cbv zeta. case_match.
  - destruct (pipe_read _ _) as [[n bytes] b] eqn:Er.
    assert (He : evolves 0 s (set_pipes (<[Z.to_nat (fd_pipe (fd_of fd s)) := b]> (io_pipes s)) s)).
    { apply evolves_set_pipe. intros w. pose proof (pipe_read_counted count (pipe_at (io_pipes s) (fd_pipe (fd_of fd s))) w) as E. by rewrite Er in E. }
    by repeat case_match.
  - case_match; [destruct (pty_read _ _ _ _ _); by apply evolves_world|].
    case_match; [destruct (fs_read_at _ _ _ _)|case_match; apply evolves_refl].
    cbn [snd]. case_match; [by apply evolves_same_end|apply evolves_refl].
Qed.

Lemma alter_tables (g : task_t -> task_t) (i : nat) (ts : list task_t) :
  (forall t, t_fds (g t) = t_fds t) -> t_fds <$> alter g i ts = t_fds <$> ts.
Proof.
  intros Hg. revert i. induction ts as [|t ts IH]; intros [|i]; [done|done| |]; cbn.
  - by rewrite Hg.
  - f_equal. apply IH.
Qed.

Lemma send_signal_tables pid sig ts : t_fds <$> snd (send_signal pid sig ts) = t_fds <$> ts.
Proof.
  unfold send_signal. repeat case_match; try done. by apply alter_tables.
Qed.

Lemma pty_input_tables buf p (ts : list task_t) : t_fds <$> snd (pty_input buf p ts) = t_fds <$> ts.
Proof.
  unfold pty_input. destruct (raw p); [done|]. revert p ts. induction buf as [|c buf IH]; intros p ts; [done|]. cbn [foldl].
  destruct (pty_key (p, ts) c) as [p' ts'] eqn:E. rewrite IH. revert E. unfold pty_key.
  repeat case_match; intros [= <- <-]; try done. apply send_signal_tables.
Qed.

Lemma evolves_write fd buf s n s' : sys_write stale fd buf s = Some (n, s') -> evolves 0 s s'.
Proof.
  unfold sys_write. destruct (fd_bad fd) eqn:Eb; [intros [= _ <-]; apply evolves_refl|]. cbv zeta. case_match.
  - case_match; [intros [= _ <-]; apply evolves_refl|]. destruct (pipe_write _ _) as [k b] eqn:Ew. intros [= _ <-].
    apply evolves_set_pipe. intros w. pose proof (pipe_write_counted buf (pipe_at (io_pipes s) (fd_pipe (fd_of fd s))) w) as E. by rewrite Ew in E.
  - case_match.
    + destruct (pty_write _ _ _ _ _) as [[k l] ts] eqn:Ew. intros [= _ <-].
      apply evolves_same; [done| |done|exact (grow_pipe_same s)]. cbn. revert Ew. unfold pty_write.
      case_match; [by intros [= _ _ <-]|]. case_match.
      { destruct (pty_input _ _ _) as [p k'] eqn:Ep. intros [= _ _ <-].
        pose proof (pty_input_tables buf (pty_at (io_ptys s) (Z.to_nat (fd_pty (fd_of fd s)))) (io_tasks s)) as Et.
        by rewrite Ep in Et. }
      case_match; [by intros [= _ _ <-]|]. destruct (raw_write _ _ _). by intros [= _ _ <-].
    + case_match; [|case_match; intros [= _ <-]; apply evolves_refl].
      destruct (fs_write _ _ _ _) as [[k f]|]; [|done]. intros [= _ <-]. by apply evolves_world.
Qed.

Lemma evolves_readv fd lens total s t bytes s' : readv_loop fd total lens s = Some (t, bytes, s') -> evolves 0 s s'.
Proof.
  revert total s t bytes. induction lens as [|len lens IH]; intros total s t bytes; cbn [readv_loop].
  { intros [= _ _ <-]. apply evolves_refl. }
  pose proof (evolves_read fd (u32 len) s) as E1. destruct (sys_read fd (u32 len) s) as [[[n bs]|] s1]; [|done].
  cbn [snd] in E1. case_match; [by intros [= _ _ <-]|]. case_match; [by intros [= _ _ <-]|].
  destruct (readv_loop fd (total + n) lens s1) as [[[t' rest] s2]|] eqn:E2; [|done]. intros [= _ _ <-].
  eapply evolves_trans; [exact E1|]. by eapply IH.
Qed.

Lemma evolves_writev fd bufs total s t s' : writev_loop stale fd total bufs s = Some (t, s') -> evolves 0 s s'.
Proof.
  revert total s t. induction bufs as [|buf bufs IH]; intros total s t; cbn [writev_loop].
  { intros [= _ <-]. apply evolves_refl. }
  destruct (sys_write stale fd buf s) as [[n s1]|] eqn:E1; [|done]. apply evolves_write in E1.
  case_match; [by intros [= _ <-]|]. case_match; [by intros [= _ <-]|]. intros E2%IH. by eapply evolves_trans.
Qed.

(** *** Pipes, closing, sharing *)

(** One end counted at pipe [i]. *)
Definition bump (dw dr : Z) (b : pipe_buf) : pipe_buf := with_counts (writer_count b + dw) (reader_count b + dr) b.

Lemma bump_lookup dw dr (i : nat) (l : list pipe_buf) p b' :
  alter (bump dw dr) i l !! p = Some b' -> exists b, l !! p = Some b /\
    (forall n, fits n b -> 0 <= dw <= Z.of_nat n -> 0 <= dr <= Z.of_nat n -> forall w,
       counted w b' = counted w b + if decide (p = i) then if w then dw else dr else 0) /\ (p <> i -> b' = b).
Proof.
  destruct (decide (p = i)) as [->|Hne].
  - rewrite list_lookup_alter_eq. destruct (l !! i) as [b|]; [|done]. intros [= <-]. exists b. split; [done|].
    split; [|done]. intros n Hb Hw Hr w. destruct (Hb w) as [H0 H1].
    destruct w; cbn [counted bump with_counts writer_count reader_count] in *; apply i32_small; lia.
  - rewrite list_lookup_alter_ne by done. intros Hp. exists b'. split; [done|]. split; [intros n _ _ _ w; lia|done].
Qed.

Lemma bump_pipe_lookup f l p b' :
  fd_types f = FD_PIPE -> bump_pipe f l !! p = Some b' -> exists b, l !! p = Some b /\
    (fits 1 b -> within 1 b b' /\ forall w, end_count w p f <= counted w b' - counted w b) /\
    (0 <= fd_pipe f -> (forall w, end_count w p f = 0) -> b' = b).
Proof.
  intros Ht Hp. unfold bump_pipe in Hp.
  assert (E : alter (bump (if negb (Z.land (fd_flags_extra f) 1 =? 0) then 1 else 0) (if negb (Z.land (fd_flags_extra f) 1 =? 0) then 0 else 1)) (Z.to_nat (fd_pipe f)) l !! p = Some b').
  { rewrite <-Hp. f_equal. apply list_alter_ext; [|done]. intros b _. unfold bump, with_counts. case_match; by rewrite Z.add_0_r. }
  destruct (bump_lookup _ _ _ _ _ _ E) as (b & Hb & Hc & Hsame). exists b. split; [done|]. split.
  2:{ intros H0 Hn. apply Hsame. intros Ep. specialize (Hn (negb (Z.land (fd_flags_extra f) 1 =? 0))).
    unfold end_count, is_end in Hn. rewrite Ht, Ep, Z2Nat.id, !Z.eqb_refl, eqb_reflx in Hn by done. done. }
  intros Hfit. assert (Hc1 := Hc 1%nat Hfit ltac:(case_match; lia) ltac:(case_match; lia)). clear Hc. split.
  { intros w. rewrite Hc1. destruct (Hfit w). destruct (decide _), w; case_match; lia. }
  intros w. rewrite Hc1.
  unfold end_count, is_end. rewrite Ht. change (FD_PIPE =? FD_PIPE) with true. cbn [andb].
  destruct (Z.eqb_spec (fd_pipe f) (Z.of_nat p)) as [Ep|Ep]; cbn [andb].
  - rewrite decide_True by lia. destruct w, (Z.land (fd_flags_extra f) 1 =? 0); cbn; lia.
  - destruct (decide _), w, (Z.land (fd_flags_extra f) 1 =? 0); cbn; lia.
Qed.

Lemma length_bump_pipe f l : length (bump_pipe f l) = length l.
Proof. unfold bump_pipe. by rewrite length_alter. Qed.

Lemma drop_pipe_lookup f l p b' :
  fd_types f = FD_PIPE -> drop_pipe f l !! p = Some b' -> exists b, l !! p = Some b /\
    (fits 0 b -> within 0 b b' /\ forall w, - end_count w p f <= counted w b' - counted w b) /\
    ((forall w, end_count w p f = 0) -> b' = b).
Proof.
  intros Ht. unfold drop_pipe. assert (Hr : forall w, 0 <= end_count w p f) by (intros w; apply end_count_range).
  assert (Hstay : forall b, fits 0 b -> within 0 b b /\ forall w, - end_count w p f <= counted w b - counted w b).
  { intros b Hb. split; intros w; specialize (Hr w); destruct (Hb w); lia. }
  case_match; [|intros Hp; exists b'; split; [done|]; split; [apply Hstay|done]].
  destruct (decide (p = Z.to_nat (fd_pipe f))) as [->|Hne].
  - rewrite list_lookup_alter_eq. destruct (l !! _) as [b|]; [|done]. intros [= <-]. exists b. split; [done|].
    assert (E : (fd_pipe f =? Z.of_nat (Z.to_nat (fd_pipe f))) = true).
    { apply Z.eqb_eq. destruct (0 <? fd_pipe f) eqn:E0; [|done]. apply Z.ltb_lt in E0. lia. }
    unfold end_count, is_end. rewrite Ht, E. change (FD_PIPE =? FD_PIPE) with true. cbn [andb]. split.
    + intros Hb. destruct (Hb true) as [Hw0 Hw1]. destruct (Hb false) as [Hr0 Hr1]. cbn [counted] in *.
      unfold drop_end. destruct (Z.land (fd_flags_extra f) 1 =? 0); cbn [negb Bool.eqb];
        rewrite (i32_small (_ - 1)) by lia; split; intros []; cbn [counted with_counts writer_count reader_count Bool.eqb];
        rewrite i32_small; repeat case_match; lia.
    + intros Hn. exfalso. specialize (Hn (negb (Z.land (fd_flags_extra f) 1 =? 0))). by rewrite eqb_reflx in Hn.
  - rewrite list_lookup_alter_ne by done. intros Hp. exists b'. split; [done|]. split; [apply Hstay|done].
Qed.

Lemma length_drop_pipe f l : length (drop_pipe f l) = length l.
Proof. unfold drop_pipe. case_match; [by rewrite length_alter|done]. Qed.

Lemma tables_io_ok s : tables_ok s -> io_ok s.
Proof. intros Hs. split; [apply Hs|by apply length_fdt]. Qed.

Lemma pipe_end_count w p pno e f :
  end_count w p (pipe_end (Z.of_nat pno) e f) <= if decide (p = pno) then 1 else 0.
Proof.
  pose proof (end_count_range w p (pipe_end (Z.of_nat pno) e f)). case_decide as Hp; [lia|].
  unfold end_count, is_end. cbn [fd_types fd_pipe pipe_end]. rewrite (proj2 (Z.eqb_neq (Z.of_nat pno) (Z.of_nat p))) by lia. done.
Qed.

(** An end of pipe [pno] in place of what the descriptor was; [sys_pipe] counts
    three for its first end, one for its second. *)
Lemma evolves_read_end s i pno h :
  (i < MAX_FDS)%nat -> (pno < MAX_PIPES)%nat ->
  evolves 2 s (set_pipes (alter (bump 1 2) pno (io_pipes s)) (upd_fd i (fun f => pipe_end (Z.of_nat pno) 0 (h f)) s)).
Proof.
  intros Hi Hp. apply evolves_cur; [done| |by rewrite length_alter|].
  - intros _. cbn [fd_pipe pipe_end]. unfold MAX_PIPES in Hp. lia.
  - intros p b' Hb. destruct (bump_lookup _ _ _ _ _ _ Hb) as (b & Hb0 & E & Hsame). exists b. split; [done|]. intros Hfit.
    set (f := fd_of (Z.of_nat i) s). pose proof (fun w => pipe_end_count w p pno 0 (h f)) as Hc.
    pose proof (fun w => end_count_range w p f) as Hf. pose proof (fun w => end_count_range w p (pipe_end (Z.of_nat pno) 0 (h f))) as Hg.
    assert (Hw : end_count true p (pipe_end (Z.of_nat pno) 0 (h f)) = 0) by (unfold end_count, is_end; cbn; by rewrite andb_false_r).
    destruct (decide (p = pno)) as [->|Hne].
    + assert (E' : forall w, counted w b' = counted w b + if w then 1 else 2).
      { intros w. by rewrite (E 2%nat Hfit) by lia. }
      split; [intros w; rewrite E'; destruct (Hfit w); destruct w; lia|].
      split; [intros w; rewrite E'; specialize (Hf w); specialize (Hg w); destruct w; lia|].
      intros _ Hz. right. intros w. rewrite E', (proj1 (Hz w)). specialize (Hg w). destruct w; lia.
    + rewrite (Hsame Hne). apply counts_move_fd; [done|]. intros w. specialize (Hc w). specialize (Hf w). lia.
Qed.

Lemma evolves_write_end s i pno :
  (i < MAX_FDS)%nat -> (pno < MAX_PIPES)%nat -> (forall b, io_pipes s !! pno = Some b -> exists w, counted w b <> 0) ->
  evolves 1 s (set_pipes (alter (bump 1 0) pno (io_pipes s)) (upd_fd i (pipe_end (Z.of_nat pno) 1) s)).
Proof.
  intros Hi Hp Hused. apply evolves_cur; [done| |by rewrite length_alter|].
  - intros _. cbn [fd_pipe pipe_end]. unfold MAX_PIPES in Hp. lia.
  - intros p b' Hb. destruct (bump_lookup _ _ _ _ _ _ Hb) as (b & Hb0 & E & Hsame). exists b. split; [done|]. intros Hfit.
    set (f := fd_of (Z.of_nat i) s). pose proof (fun w => pipe_end_count w p pno 1 f) as Hc.
    pose proof (fun w => end_count_range w p f) as Hf.
    assert (Hr : end_count false p (pipe_end (Z.of_nat pno) 1 f) = 0) by (unfold end_count, is_end; cbn; by rewrite andb_false_r).
    destruct (decide (p = pno)) as [->|Hne].
    + assert (E' : forall w, counted w b' = counted w b + if w then 1 else 0).
      { intros w. by rewrite (E 1%nat Hfit) by lia. }
      split; [intros w; rewrite E'; destruct (Hfit w); destruct w; lia|].
      pose proof (end_count_range true pno (pipe_end (Z.of_nat pno) 1 f)).
      split; [intros w; rewrite E'; specialize (Hf w); destruct w; lia|].
      intros _ Hz. exfalso. destruct (Hused b Hb0) as [w Hw]. by apply Hw, Hz.
    + rewrite (Hsame Hne). apply counts_move_fd; [done|]. intros w. specialize (Hc w). specialize (Hf w). lia.
Qed.

Lemma evolves_pipe s : evolves 3 s (snd (sys_pipe s)).
Proof.
  unfold sys_pipe. destruct (find_from _ 0 (io_pipes s)) as [pno|] eqn:Ep; [|apply evolves_refl].
  apply find_from_Some in Ep as (_ & (b0 & Hb0 & Hz) & _). apply andb_true_iff in Hz as [Hw%Z.eqb_eq Hr%Z.eqb_eq].
  set (s0 := set_pipes _ s).
  apply (evolves_trans 3 s s0).
  { apply evolves_same; [done|done|by cbn; rewrite length_alter|]. cbn. intros p b'. destruct (decide (p = pno)) as [->|Hne].
    - rewrite list_lookup_alter_eq, Hb0. intros [= <-]. exists b0. split; [done|]. intros []; cbn; lia.
    - rewrite list_lookup_alter_ne by done. intros Hb. by exists b'. }
  apply evolves_ok. intros Hs. assert (Hp : (pno < MAX_PIPES)%nat).
  { rewrite <-(tk_pipes _ Hs). cbn. rewrite length_alter. by eapply lookup_lt_Some. }
  destruct (alloc_fd (fdt s0)) as [rd|] eqn:Er; [|by apply evolves_refl]. apply find_fd_lt in Er; [|done].
  destruct (alloc_fd (fdt (upd_fd rd pipe_mark s0))) as [wr|] eqn:Ew.
  - assert (Hwr : (wr < MAX_FDS)%nat).
    { apply find_from_lt in Ew. rewrite fdt_upd, length_alter, length_fdt in Ew by auto using tables_io_ok. lia. }
    cbn [snd]. rewrite upd_fd_comp. set (a := set_pipes (alter (bump 1 2) pno (io_pipes s0)) (upd_fd rd (fun f => pipe_end (Z.of_nat pno) 0 (pipe_mark f)) s0)).
    match goal with |- evolves _ _ ?x => assert (Ex : x = set_pipes (alter (bump 1 0) pno (io_pipes a)) (upd_fd wr (pipe_end (Z.of_nat pno) 1) a)) end.
    { unfold a. cbn [io_pipes set_pipes upd_fd set_fdt]. rewrite !list_alter_alter_eq. unfold set_pipes. cbn. f_equal.
      apply list_alter_ext; [|done]. intros b. rewrite list_lookup_alter_eq, Hb0. by intros [= <-]. }
    rewrite Ex. apply (evolves_add 2 1 s0 a); [by apply evolves_read_end|].
    apply evolves_write_end; [done|done|]. intros b. unfold a. cbn [io_pipes set_pipes]. rewrite list_lookup_alter_eq.
    unfold s0. cbn [io_pipes set_pipes]. rewrite list_lookup_alter_eq, Hb0. intros [= <-]. by exists true.
  - cbn [snd]. rewrite upd_fd_comp. apply evolves_upd; [done|done|]. intros w p.
    rewrite (no_end w p (with_type _ _)) by done. apply end_count_range.
Qed.

(** A closed pipe end. *)
Lemma evolves_drop s i g f :
  (i < MAX_FDS)%nat -> fd_types f = FD_PIPE -> same_end f (fd_of (Z.of_nat i) s) ->
  (forall x, fd_types (g x) <> FD_PIPE /\ fd_pipe (g x) = 0) ->
  evolves 0 s (upd_fd i g (set_pipes (drop_pipe f (io_pipes s)) s)).
Proof.
  intros Hi Ht Hsame Hg. change (evolves 0 s (set_pipes (drop_pipe f (io_pipes s)) (upd_fd i g s))).
  apply evolves_cur; [done| |apply length_drop_pipe|].
  - intros _. rewrite (proj2 (Hg _)). lia.
  - intros p b' Hb. destruct (drop_pipe_lookup f _ p b' Ht Hb) as (b & Hb0 & E & Hn). exists b. split; [done|].
    assert (Hgn : forall w, end_count w p (g (fd_of (Z.of_nat i) s)) = 0) by (intros w; apply no_end, Hg).
    intros Hfit. destruct (E Hfit) as [W E']. split; [done|]. clear E. rename E' into E. split.
    + intros w. specialize (E w). rewrite Hgn, (same_end_count w p _ _ Hsame). lia.
    + intros _ Hz. left. intros w. split; [|apply Hgn]. rewrite Hn; [apply Hz|]. intros v.
      rewrite <-(same_end_count v p _ _ Hsame). apply Hz.
Qed.

Lemma evolves_close fd s : evolves 0 s (sys_close fd s).
Proof.
  unfold sys_close. destruct (fd_bad fd) eqn:Eb; [apply evolves_refl|]. destruct (good_fd fd Eb) as [Hi Ei]. cbv zeta.
  set (i := Z.to_nat fd) in *. set (s1 := upd_fd i (with_offset 0) s).
  apply (evolves_trans 0 s s1); [by apply evolves_same_end|]. apply evolves_ok. intros Hs. rewrite Ei.
  set (f := fd_of (Z.of_nat i) s1). destruct (0 <? fd_flags f); [by apply evolves_same_end|].
  set (s2 := upd_fd i _ s1). assert (E2 : evolves 0 s1 s2) by (by apply evolves_same_end).
  assert (Hsame : same_end f (fd_of (Z.of_nat i) s2)).
  { unfold s2. rewrite fd_of_upd by auto using tables_io_ok. by rewrite decide_True. }
  eapply evolves_trans; [exact E2|]. set (s3 := if fd_types f =? FD_PIPE then _ else s2).
  assert (E3 : evolves 0 s2 s3).
  { unfold s3. destruct (Z.eqb_spec (fd_types f) FD_PIPE); [|apply evolves_refl]. by apply evolves_drop. }
  eapply evolves_trans; [exact E3|]. destruct (fd_types f =? FD_PTY); [|apply evolves_refl].
  eapply evolves_trans; [|apply evolves_upd; [done|done|]]; [by apply evolves_world|].
  intros w p. rewrite (no_end w p (FdSlot _ _ _ FD_VFS _ _ _)) by done. apply end_count_range.
Qed.

Lemma evolves_exit_close s : evolves 0 s (exit_close_fds s).
Proof.
  unfold exit_close_fds. assert (Hl : Forall (fun i => (i < MAX_FDS)%nat) (seq 0 MAX_FDS)).
  { apply Forall_forall. intros i Hi%elem_of_seq. lia. }
  revert s. induction Hl as [|i l Hi _ IH]; intros s; [apply evolves_refl|]. cbn [foldl].
  eapply evolves_trans; [|apply IH]. unfold exit_close_fd. assert (Ef : fd_of (Z.of_nat i) s = fd_at (fdt s) i) by (unfold fd_of; by rewrite Nat2Z.id).
  set (f := fd_at (fdt s) i) in *. set (s1 := upd_fd i _ s). assert (E1 : evolves 0 s s1) by (by apply evolves_same_end).
  cbv zeta. destruct (Z.eqb_spec (fd_types f) FD_PIPE); [|done]. apply evolves_ok. intros Hs.
  refine (evolves_trans _ _ _ _ E1 _). apply evolves_drop; [done|done| |by intros x].
  unfold s1. rewrite fd_of_upd by auto using tables_io_ok. by rewrite decide_True, Ef.
Qed.

(** *** Pseudo-terminals and sockets *)

Lemma retyped s i ty : ty <> FD_PIPE -> (i < MAX_FDS)%nat -> evolves 0 s (upd_fd i (with_type ty) s).
Proof. intros Hty Hi. apply evolves_upd; [done|done|]. intros w p. rewrite (no_end w p (with_type ty _)) by done. apply end_count_range. Qed.

Lemma evolves_socket sock s : evolves 0 s (tag_socket sock s).
Proof. unfold tag_socket. case_match eqn:E; [|apply evolves_refl]. apply andb_true_iff in E as [E0%Z.leb_le E%Z.ltb_lt]. apply retyped; [done|lia]. Qed.

Lemma evolves_pty_end s i idx e : (i < MAX_FDS)%nat -> evolves 0 s (upd_fd i (pty_end idx e) s).
Proof. intros Hi. apply evolves_upd; [done|done|]. intros w p. rewrite (no_end w p (pty_end _ _ _)) by done. apply end_count_range. Qed.

Lemma evolves_openpty s : evolves 0 s (snd (open_pty s)).
Proof.
  apply evolves_ok. intros Hs. pose proof (tables_io_ok s Hs) as Hok. unfold open_pty, sys_openpty.
  assert (Hset : forall l ps, evolves 0 (set_fdt l s) (set_ptys ps (set_fdt l s))) by (intros l ps; by apply evolves_world).
  assert (Hid : set_fdt (fdt s) s = upd_fd 0 id s).
  { unfold upd_fd. f_equal. symmetry. by apply list_alter_id. }
  assert (Hsame : evolves 0 s (set_fdt (fdt s) s)) by (rewrite Hid; apply evolves_same_end; [unfold MAX_FDS; lia|done]).
  destruct (find_from _ 0 _) as [i|]; [|exact (evolves_trans 0 _ _ _ Hsame (Hset _ _))].
  destruct (alloc_fd (fdt s)) as [m|] eqn:Em; [|exact (evolves_trans 0 _ _ _ Hsame (Hset _ _))]. pose proof (find_fd_lt _ s m Hs Em) as Hm.
  set (s1 := upd_fd m (pty_end (Z.of_nat i) PTY_MASTER) s).
  assert (E1 : evolves 0 s s1) by (by apply evolves_pty_end).
  assert (F1 : fdt s1 = alter (pty_end (Z.of_nat i) PTY_MASTER) m (fdt s)) by (by apply fdt_upd).
  assert (Hup : forall g j, set_fdt (alter g j (alter (pty_end (Z.of_nat i) PTY_MASTER) m (fdt s))) s = upd_fd j g s1).
  { intros g j. unfold upd_fd. rewrite F1. unfold s1, upd_fd, set_fdt. cbn [io_tasks io_cur io_pipes io_ptys io_fs io_vfs].
    f_equal. rewrite list_alter_alter_eq. by apply list_alter_ext. }
  destruct (alloc_fd (alter _ m _)) as [k|] eqn:Ek; cbn [snd]; (eapply evolves_trans; [|apply Hset]); rewrite Hup;
    apply (evolves_trans 0 s s1); [done| |done|by apply retyped].
  apply evolves_pty_end. apply find_from_lt in Ek. rewrite length_alter, length_fdt in Ek by done. lia.
Qed.

(** *** References *)

(** [ref_fd] counts the descriptor at its pipe and touches no table. *)
Lemma ref_fd_spec f s :
  io_tasks (ref_fd f s) = io_tasks s /\ io_cur (ref_fd f s) = io_cur s /\
  length (io_pipes (ref_fd f s)) = length (io_pipes s) /\
  forall p b', io_pipes (ref_fd f s) !! p = Some b' -> exists b, io_pipes s !! p = Some b /\
    (fits 1 b -> within 1 b b' /\ forall w, end_count w p f <= counted w b' - counted w b) /\
    (0 <= fd_pipe f -> (forall w, end_count w p f = 0) -> b' = b).
Proof.
  unfold ref_fd. destruct (Z.eqb_spec (fd_types f) FD_PIPE) as [Ht|Ht].
  - split; [done|]. split; [done|]. split; [apply length_bump_pipe|]. intros p b' Hb. by apply bump_pipe_lookup.
  - assert (Hn : forall p b', io_pipes s !! p = Some b' -> exists b, io_pipes s !! p = Some b /\
      (fits 1 b -> within 1 b b' /\ forall w, end_count w p f <= counted w b' - counted w b) /\
      (0 <= fd_pipe f -> (forall w, end_count w p f = 0) -> b' = b)).
    { intros p b Hb. exists b. split; [done|]. split; [|done]. intros Hfit.
      split; intros w; destruct (Hfit w); rewrite ?no_end by done; lia. }
    by case_match.
Qed.

Lemma ref_fds_spec l s :
  let s' := foldl (fun s f => ref_fd f s) s l in
  io_tasks s' = io_tasks s /\ io_cur s' = io_cur s /\ length (io_pipes s') = length (io_pipes s) /\
  forall p b', io_pipes s' !! p = Some b' -> exists b, io_pipes s !! p = Some b /\
    (fits (length l) b -> within (length l) b b' /\ forall w, fd_ends w p l <= counted w b' - counted w b) /\
    (Forall (fun f => 0 <= fd_pipe f < 256) l -> (forall w, fd_ends w p l = 0) -> b' = b).
Proof.
  revert s. induction l as [|f l IH]; intros s; cbn [foldl].
  { split_and!; try done. intros p b Hb. exists b. split; [done|]. split; [|done]. intros Hfit.
    split; intros w; destruct (Hfit w); cbn in *; lia. }
  destruct (ref_fd_spec f s) as (T1 & C1 & L1 & P1). destruct (IH (ref_fd f s)) as (T2 & C2 & L2 & P2).
  split_and!; [by rewrite T2|by rewrite C2|by rewrite L2|]. intros p b' Hb. destruct (P2 p b' Hb) as (b1 & Hb1 & E1 & S1).
  destruct (P1 p b1 Hb1) as (b & Hb0 & E0 & S0). exists b. split; [done|]. unfold fd_ends in *. split.
  - intros Hfit. destruct E0 as [W0 E0]; [by apply (fits_less 1 (length (f :: l))); [cbn; lia|]|].
    destruct E1 as [W1 E1].
    { intros w. specialize (W0 w). destruct (Hfit w). cbn [length] in *. lia. }
    cbn [length]. split; intros w; specialize (E0 w); specialize (E1 w); specialize (W0 w); specialize (W1 w);
      rewrite ?total_cons; lia.
  - intros [Hf Hl]%Forall_cons Hn.
    assert (Hz : forall w, end_count w p f = 0 /\ total_of (end_count w p) l = 0).
    { intros w. specialize (Hn w). rewrite total_cons in Hn. pose proof (end_count_range w p f).
      pose proof (fd_ends_nonneg w p l). unfold fd_ends in *. lia. }
    rewrite S1 by (done || intros w; apply Hz). apply S0; [lia|]. intros w. apply Hz.
Qed.

(** A table of a task replaced, its new ends counted. *)
Lemma evolves_table n s s' sl g :
  io_tasks s' = alter g sl (io_tasks s) -> io_cur s' = io_cur s -> length (io_pipes s') = length (io_pipes s) ->
  (forall t, io_tasks s !! sl = Some t -> table_ok t -> table_ok (g t)) ->
  (forall p b', io_pipes s' !! p = Some b' -> exists b, io_pipes s !! p = Some b /\
     (fits n b -> within n b b' /\ forall w, counted w b <= counted w b' /\
       forall t, io_tasks s !! sl = Some t -> fd_ends w p (t_fds (g t)) - fd_ends w p (t_fds t) <= counted w b' - counted w b) /\
     (unheld p -> idle s p b -> b' = b /\
       forall w t, io_tasks s !! sl = Some t -> fd_ends w p (t_fds (g t)) <= fd_ends w p (t_fds t))) ->
  evolves n s s'.
Proof.
  intros Ht Hc Hl Hok Hp Hs Hlow. pose proof Hs as [Kc Kf Kp]. split; [split|].
  - by rewrite Hc, Ht, length_alter.
  - rewrite Ht. apply Forall_lookup. intros k u Hk. destruct (decide (k = sl)) as [->|Hne].
    + rewrite list_lookup_alter_eq in Hk. destruct (io_tasks s !! sl) as [t|] eqn:E; [|done]. injection Hk as <-.
      apply Hok; [done|]. by apply (Forall_lookup_1 _ _ _ _ Kf E).
    + rewrite list_lookup_alter_ne in Hk by done. by apply (Forall_lookup_1 _ _ _ _ Kf Hk).
  - by rewrite Hl.
  - intros p b' Hb. destruct (Hp p b' Hb) as (b & Hb0 & M & I). destruct (M (Hlow p b Hb0)) as [W E]. exists b. split; [done|].
    assert (Hd : forall w, ends w p (io_tasks s') = ends w p (io_tasks s) \/ exists t, io_tasks s !! sl = Some t /\
      ends w p (io_tasks s') = ends w p (io_tasks s) + fd_ends w p (t_fds (g t)) - fd_ends w p (t_fds t)).
    { intros w. rewrite Ht. unfold ends. destruct (io_tasks s !! sl) as [t|] eqn:Et; [right; exists t|left; by rewrite alter_ge].
      split; [done|]. pose proof (total_alter (fun t => fd_ends w p (t_fds t)) g sl _ t Et) as E1. cbn beta in E1. lia. }
    split.
    + intros w. destruct (E w) as [Hge Hdt]. destruct (Hd w) as [->|(t & Et & ->)]; [lia|]. specialize (Hdt t Et). lia.
    + split; [done|]. intros HP Hi. left. destruct (I HP Hi) as [-> It]. intros w. destruct (Hi w) as [Hz He]. split; [done|].
      destruct (Hd w) as [->|(t & Et & Eq)]; [done|]. specialize (It w t Et). pose proof (fd_ends_nonneg w p (t_fds (g t))).
      pose proof (fd_ends_elem w p t _ (list_elem_of_lookup_2 _ _ _ Et)). rewrite Eq.
      assert (0 <= ends w p (io_tasks s')) by (apply total_of_nonneg; intros x; apply fd_ends_nonneg). lia.
Qed.

(** Nothing but one table changes, and that has no ends it had not before. *)
Lemma evolves_task n s sl g :
  (forall t, table_ok t -> table_ok (g t) /\ forall w p, fd_ends w p (t_fds (g t)) <= fd_ends w p (t_fds t)) ->
  evolves n s (set_iotasks (alter g sl (io_tasks s)) s).
Proof.
  intros Hg. apply evolves_ok. intros Hs. apply (evolves_table n s _ sl g); [done|done|done| |].
  - intros t _ Ht. by apply Hg.
  - intros p b Hb. exists b. split; [done|]. split;
      [intros Hfit; split; [intros w; destruct (Hfit w); lia|intros w; split; [done|]]|intros _ _; split; [done|intros w]]; intros t Ht;
      destruct (Hg t (slot_table s _ t Hs Ht)) as [_ He]; specialize (He w p); lia.
Qed.

Lemma evolves_fields n s sl g : (forall t, t_fds (g t) = t_fds t) -> evolves n s (set_iotasks (alter g sl (io_tasks s)) s).
Proof. intros Hg. apply evolves_task. intros t Ht. unfold table_ok. by rewrite !Hg. Qed.

(** The pipes of the current task's descriptors are in use. *)
Lemma idle_fdt s p b w : tables_ok s -> idle s p b -> fd_ends w p (fdt s) = 0.
Proof.
  intros Hs Hi. destruct (lookup_lt_is_Some_2 _ _ (tk_cur _ Hs)) as [u Hu].
  pose proof (fd_ends_elem w p u _ (list_elem_of_lookup_2 _ _ _ Hu)). destruct (Hi w) as [_ He].
  pose proof (fd_ends_nonneg w p (t_fds u)). unfold fdt, slot. rewrite Hu. cbn [default id]. lia.
Qed.

Lemma fdt_table s : tables_ok s -> Forall (fun f => 0 <= fd_pipe f < 256) (fdt s).
Proof.
  intros Hs. destruct (lookup_lt_is_Some_2 _ _ (tk_cur _ Hs)) as [u Hu]. unfold fdt, slot. rewrite Hu.
  by apply (slot_table s _ u Hs Hu).
Qed.

Lemma evolves_dup_table child s : evolves MAX_FDS s (dup_fd_table child s).
Proof.
  apply evolves_ok. intros Hs. unfold dup_fd_table. pose proof (length_fdt s Hs) as Hl. rewrite take_ge by lia.
  destruct (ref_fds_spec (fdt s) (set_iotasks (alter (with_fds (fdt s)) child (io_tasks s)) s)) as (T & C & L & Hp).
  rewrite Hl in Hp. apply (evolves_table _ s _ child (with_fds (fdt s))); [exact T|exact C|exact L| |].
  - intros t _ _. split; [done|]. by apply fdt_table.
  - intros p b' Hb. destruct (Hp p b' Hb) as (b & Hb0 & E & Sa). exists b. split; [done|]. cbn [t_fds with_fds]. split.
    + intros Hfit. destruct (E Hfit) as [W E']. split; [done|].
      intros w. specialize (E' w). pose proof (fd_ends_nonneg w p (fdt s)). split; [lia|]. intros t _.
      pose proof (fd_ends_nonneg w p (t_fds t)). lia.
    + intros _ Hi. split; [apply Sa; [by apply fdt_table|intros w; by apply (idle_fdt s p b)]|].
      intros w t _. rewrite (idle_fdt s p b) by done. apply fd_ends_nonneg.
Qed.

Lemma evolves_share s i o :
  (i < MAX_FDS)%nat -> o ∈ fdt s -> evolves 1 s (ref_fd o (upd_fd i (fun _ => o) s)).
Proof.
  intros Hi Ho. apply evolves_ok. intros Hs. destruct (ref_fd_spec o (upd_fd i (fun _ => o) s)) as (T & C & L & Hp).
  pose proof (fdt_table s Hs) as Hr. rewrite Forall_forall in Hr. specialize (Hr o Ho).
  rewrite upd_fd_slot in *. set (g := fun t => with_fds (alter (fun _ => o) i (t_fds t)) t).
  assert (He : forall w p t, io_tasks s !! io_cur s = Some t -> exists f, t_fds t !! i = Some f /\
    fd_ends w p (t_fds (g t)) + end_count w p f = fd_ends w p (t_fds t) + end_count w p o).
  { intros w p t Ht. destruct (slot_table s _ t Hs Ht) as [Hlen _]. destruct (lookup_lt_is_Some_2 (t_fds t) i) as [f Hf]; [lia|].
    exists f. split; [done|]. exact (total_alter (end_count w p) (fun _ => o) i (t_fds t) f Hf). }
  apply (evolves_table _ s _ (io_cur s) g); [exact T|exact C|exact L| |].
  - intros t _ [Hlen Hf]. split; [by cbn; rewrite length_alter|]. cbn [t_fds with_fds g]. apply Forall_lookup.
    intros j x Hj. destruct (decide (j = i)) as [->|Hne].
    + rewrite list_lookup_alter_eq in Hj. destruct (t_fds t !! i); [|done]. by injection Hj as <-.
    + rewrite list_lookup_alter_ne in Hj by done. exact (Forall_lookup_1 _ _ _ _ Hf Hj).
  - intros p b' Hb. destruct (Hp p b' Hb) as (b & Hb0 & E & Sa). exists b. split; [done|]. split.
    + intros Hfit. destruct (E Hfit) as [W E']. split; [done|].
      intros w. specialize (E' w). pose proof (end_count_range w p o). split; [lia|]. intros t Ht.
      destruct (He w p t Ht) as (f & _ & Ef). pose proof (end_count_range w p f). lia.
    + intros _ Hid. assert (H0 : forall w, end_count w p o = 0).
      { intros w. pose proof (end_count_elem w p o _ Ho). rewrite (idle_fdt s p b w Hs Hid) in *. pose proof (end_count_range w p o). lia. }
      split; [apply Sa; [lia|done]|]. intros w t Ht. destruct (He w p t Ht) as (f & _ & Ef). rewrite H0 in Ef.
      pose proof (end_count_range w p f). lia.
Qed.

Lemma evolves_dup2 oldfd newfd s : evolves 1 s (snd (sys_dup2 oldfd newfd s)).
Proof.
  unfold sys_dup2. destruct (fd_bad oldfd || fd_bad newfd) eqn:Eb; [apply evolves_refl|].
  apply orb_false_iff in Eb as [Eo En]. destruct (good_fd _ Eo) as [Ho Eo']. destruct (good_fd _ En) as [Hn _].
  case_match; [apply evolves_refl|]. cbv zeta. case_match; [apply evolves_refl|]. cbn [snd].
  set (s1 := if _ || _ then _ else s).
  apply (evolves_trans 1 s s1); [unfold s1; case_match; [apply evolves_close|apply evolves_refl]|].
  apply evolves_ok. intros Hs. refine (evolves_share _ _ _ Hn _). rewrite Eo'. destruct (cur_fd s1 _ Hs Ho) as (t & Ht & Hf).
  unfold fdt at 1, slot. rewrite Ht. by eapply list_elem_of_lookup_2.
Qed.

(** *** The inherited descriptors of a spawn *)

Definition snap_ok (r : redir_snap) : Prop :=
  match r with
  | RPipe pno e => 0 <= pno < 256 /\ Z.land e 1 = e /\ forall p, unheld p -> Z.of_nat p <> pno
  | _ => True
  end.

Lemma redir_of_ok pfd t r :
  table_ok t -> (forall p, unheld p -> forall w, fd_ends w p (t_fds t) = 0) -> redir_of pfd t = Some r -> snap_ok r.
Proof.
  intros [Hl Hr] Hun. unfold redir_of. destruct (fd_bad pfd) eqn:Eb; [done|]. destruct (good_fd _ Eb) as [Hi _].
  unfold fd_at. destruct (lookup_lt_is_Some_2 (t_fds t) (Z.to_nat pfd)) as [f Hf]; [lia|]. rewrite Hf. cbn [default id].
  destruct (Z.eqb_spec (fd_types f) FD_PIPE) as [Ht|Ht]; [|repeat case_match; by intros [= <-]].
  intros [= <-]. split; [exact (Forall_lookup_1 _ _ _ _ Hr Hf)|]. split; [by rewrite <-Z.land_assoc|].
  intros p Hp Ep. set (w := negb (Z.land (fd_flags_extra f) 1 =? 0)). specialize (Hun p Hp w).
  pose proof (end_count_elem w p f _ (list_elem_of_lookup_2 _ _ _ Hf)) as Hc.
  unfold end_count, is_end in Hc. rewrite Ht, <-Ep, !Z.eqb_refl in Hc. unfold w in Hc at 1. rewrite eqb_reflx in Hc.
  cbn [andb] in Hc. lia.
Qed.

Lemma redir_ref_spec r s :
  snap_ok r ->
  io_tasks (redir_ref r s) = io_tasks s /\ io_cur (redir_ref r s) = io_cur s /\
  length (io_pipes (redir_ref r s)) = length (io_pipes s) /\
  forall p b', io_pipes (redir_ref r s) !! p = Some b' -> exists b, io_pipes s !! p = Some b /\
    (fits 1 b -> within 1 b b' /\ forall w, counted w b <= counted w b' /\
      forall f, end_count w p (redir_fd r f) - end_count w p f <= counted w b' - counted w b) /\
    (unheld p -> b' = b /\ forall w f, end_count w p (redir_fd r f) <= end_count w p f).
Proof.
  intros Hr. destruct r as [pno e|pno e|fl off]; split_and!; try done.
  - apply length_bump_pipe.
  - intros p b' Hb. set (f0 := FdSlot 0 0 0 FD_PIPE pno 0 e).
    destruct (bump_pipe_lookup f0 _ p b' eq_refl Hb) as (b & Hb0 & E & Sa). exists b. split; [done|].
    destruct Hr as (Hr & _ & Hun).
    assert (Hsame : forall w f, end_count w p (redir_fd (RPipe pno e) f) = end_count w p f0).
    { intros w f. apply same_end_count. split; [done|]. split; [|done]. exact (wrap_small 8 pno Hr). }
    split.
    + intros Hfit. destruct (E Hfit) as [W E']. split; [done|].
      intros w. specialize (E' w). pose proof (end_count_range w p f0). split; [lia|]. intros f. rewrite Hsame.
      pose proof (end_count_range w p f). lia.
    + intros Hp. assert (H0 : forall w, end_count w p f0 = 0).
      { intros w. unfold end_count, is_end. cbn [fd_types fd_pipe f0].
        rewrite (proj2 (Z.eqb_neq pno (Z.of_nat p))) by (intros ->; by apply (Hun p)). by rewrite andb_false_r. }
      split; [by apply Sa; [cbn; lia|]|]. intros w f. rewrite Hsame, H0. apply end_count_range.
  - intros p b Hb. exists b. split; [done|].
    assert (Hle : forall w f, end_count w p (redir_fd (RPty pno e) f) <= end_count w p f).
    { intros w f. rewrite no_end by done. apply end_count_range. }
    split; [|done]. intros Hfit. split; [intros w; destruct (Hfit w); lia|].
    intros w. split; [done|]. intros f. specialize (Hle w f). lia.
  - intros p b Hb. exists b. split; [done|].
    assert (Hle : forall w f, end_count w p (redir_fd (RFile fl off) f) <= end_count w p f).
    { intros w f. by rewrite (same_end_count w p f (redir_fd _ f)). }
    split; [|done]. intros Hfit. split; [intros w; destruct (Hfit w); lia|].
    intros w. split; [done|]. intros f. specialize (Hle w f). lia.
Qed.

Lemma evolves_redir sl i r s : snap_ok r -> evolves 1 s (redir_ref r (upd_slot_fd sl i (redir_fd r) s)).
Proof.
  intros Hr. destruct (redir_ref_spec r (upd_slot_fd sl i (redir_fd r) s) Hr) as (T & C & L & Hp).
  set (g := fun t => with_fds (alter (redir_fd r) i (t_fds t)) t).
  assert (He : forall w p t, (exists f, fd_ends w p (t_fds (g t)) = fd_ends w p (t_fds t) - end_count w p f + end_count w p (redir_fd r f)) \/
    fd_ends w p (t_fds (g t)) = fd_ends w p (t_fds t)).
  { intros w p t. cbn [t_fds with_fds g]. destruct (t_fds t !! i) as [f|] eqn:Ef; [left; exists f|right; by rewrite alter_ge].
    pose proof (total_alter (end_count w p) (redir_fd r) i _ f Ef) as E1. unfold fd_ends. lia. }
  apply (evolves_table _ s _ sl g); [exact T|exact C|exact L| |].
  - intros t _ [Hl Hf]. split; [by cbn; rewrite length_alter|]. cbn [t_fds with_fds g]. apply Forall_lookup.
    intros j f Hj. destruct (decide (j = i)) as [->|Hne].
    + rewrite list_lookup_alter_eq in Hj. destruct (t_fds t !! i) as [f0|] eqn:E; [|done]. injection Hj as <-.
      pose proof (Forall_lookup_1 _ _ _ _ Hf E) as H0. destruct r; cbn; [apply Z.mod_pos_bound; lia|done|done].
    + rewrite list_lookup_alter_ne in Hj by done. exact (Forall_lookup_1 _ _ _ _ Hf Hj).
  - intros p b' Hb. destruct (Hp p b' Hb) as (b & Hb0 & E & Un). exists b. split; [done|]. split.
    + intros Hfit. destruct (E Hfit) as [W E']. split; [done|].
      intros w. destruct (E' w) as [Hge Hd]. split; [done|]. intros t _.
      destruct (He w p t) as [[f ->]| ->]; [specialize (Hd f)|]; lia.
    + intros HP _. destruct (Un HP) as [-> Hle]. split; [done|]. intros w t _.
      destruct (He w p t) as [[f ->]| ->]; [specialize (Hle w f)|]; lia.
Qed.

Lemma evolves_install sl rs s :
  (forall r, Some r ∈ rs -> snap_ok r) -> evolves (length rs) s (install_redir sl rs s).
Proof.
  intros Hrs. unfold install_redir. assert (Hz : forall i r, (i, Some r) ∈ zip (seq 0 (length rs)) rs -> snap_ok r).
  { intros i r Hin. apply Hrs. by apply elem_of_zip_r in Hin. }
  apply (evolves_less (length (zip (seq 0 (length rs)) rs))); [rewrite length_zip; lia|].
  revert Hz. generalize (zip (seq 0 (length rs)) rs). clear Hrs. intros l. revert s.
  induction l as [|[i r] l IH]; intros s Hz; [apply evolves_refl|]. cbn [foldl].
  eapply (evolves_add 1 (length l)); [|apply IH; intros j x Hx; apply (Hz j); by right].
  destruct r as [r|]; [|apply evolves_refl]. apply evolves_redir. apply (Hz i). by left.
Qed.

(** ** Processes *)

Definition pevolves n q q' : Prop := evolves n (q_io q) (q_io q').

Lemma pevolves_trans n q1 q2 q3 : pevolves 0 q1 q2 -> pevolves n q2 q3 -> pevolves n q1 q3.
Proof. apply evolves_trans. Qed.

Lemma pevolves_then n q1 q2 q3 : pevolves n q1 q2 -> pevolves 0 q2 q3 -> pevolves n q1 q3.
Proof. apply evolves_then. Qed.

Lemma pevolves_refl n q : pevolves n q q.
Proof. apply evolves_refl. Qed.

Lemma pevolves_heap n h q : pevolves n q (put_heap h q).
Proof. by apply evolves_world. Qed.

Lemma pevolves_take n q a q' : take_heap n q = (a, q') -> pevolves 0 q q'.
Proof. unfold take_heap. destruct (kmalloc _ _). intros [= _ <-]. apply pevolves_heap. Qed.

Lemma pevolves_fields sl g q : (forall t, t_fds (g t) = t_fds t) -> pevolves 0 q (upd_slot sl g q).
Proof. intros Hg. by apply evolves_fields. Qed.

(** A slot whose descriptors are all cleared. *)
Lemma fd_ends_none w p l : Forall (fun f => fd_types f <> FD_PIPE) l -> fd_ends w p l = 0.
Proof.
  unfold fd_ends. induction 1 as [|f l Hf _ IH]; [done|]. rewrite total_cons, IH, no_end by done. lia.
Qed.

Lemma pevolves_blank sl t q :
  table_ok t -> Forall (fun f => fd_types f <> FD_PIPE) (t_fds t) -> pevolves 0 q (put_task sl t q).
Proof.
  intros Ht Hn. apply evolves_task. intros u _. split; [done|]. intros w p. rewrite fd_ends_none by done. apply fd_ends_nonneg.
Qed.

Lemma fork_blank_ok id ppid ks : table_ok (fork_blank id ppid ks) /\
  Forall (fun f => fd_types f <> FD_PIPE) (t_fds (fork_blank id ppid ks)).
Proof. split; [split; [done|]|]; cbn; repeat constructor; done. Qed.

Lemma pevolves_fork frame q : pevolves MAX_FDS q (snd (sys_fork frame q)).
Proof.
  unfold sys_fork. cbv zeta. case_bool_decide; [apply pevolves_refl|]. destruct (free_slot q) as [sl|]; [|apply pevolves_refl].
  set (q1 := put_next_id _ _). assert (E1 : pevolves 0 q q1) by (apply pevolves_blank; apply fork_blank_ok).
  destruct (kstack_new q1) as [[ks|] q2] eqn:Ek; apply pevolves_take in Ek; [|eapply pevolves_trans; [exact E1|]; by apply (evolves_less 0); [lia|]].
  set (q3 := canary_set ks _). assert (E3 : pevolves 0 q q3).
  { eapply pevolves_trans; [exact E1|]. eapply pevolves_trans; [exact Ek|]. apply (pevolves_blank sl); apply fork_blank_ok. }
  destruct (vmm_new_user_pml4 _) as [root v]. set (q4 := put_mem v q3). assert (E4 : pevolves 0 q q4) by exact E3.
  destruct (root =? 0); [eapply pevolves_trans; [exact E4|]; apply pevolves_heap|].
  destruct (copy_user_as _ _ _) as [ok v2]. set (q5 := put_mem v2 q4). assert (E5 : pevolves 0 q q5) by exact E3.
  destruct ok; cbn [negb]; [|eapply pevolves_trans; [exact E5|]; apply pevolves_heap].
  destruct (fork_frame _ _ _ _) as [rsp m]. cbn [snd]. eapply pevolves_trans; [exact E5|].
  apply (evolves_then _ _ (dup_fd_table sl (q_io q5))); [apply evolves_dup_table|]. by apply evolves_fields.
Qed.

Lemma pevolves_copy_args argv q r q' : copy_args argv q = Some (r, q') -> pevolves 0 q q'.
Proof.
  revert q r. induction argv as [|c argv IH]; intros q r; cbn [copy_args]; [intros [= _ <-]; apply pevolves_refl|].
  destruct (is_null c); [intros [= _ <-]; apply pevolves_refl|].
  destruct (read_cstr _ _ _ _) as [l|]; [|done]. cbn [mbind option_bind].
  destruct (take_heap _ q) as [[a|] q1] eqn:Et; apply pevolves_take in Et; [|by intros [= _ <-]].
  destruct (copy_args argv q1) as [[r1 q2]|] eqn:Ec; [|done]. cbn [mbind option_bind]. intros [= _ <-].
  eapply pevolves_trans; [exact Et|]. by eapply IH.
Qed.

Lemma pevolves_free_args l q : pevolves 0 q (free_args l q).
Proof.
  unfold free_args. revert q. induction l as [|a l IH]; intros q; [apply pevolves_refl|]. cbn [foldl].
  eapply pevolves_trans; [|apply IH]. apply pevolves_heap.
Qed.

Lemma spawn_slot_table id ppid t : table_ok t ->
  table_ok (spawn_slot id ppid t) /\ forall w p, fd_ends w p (t_fds (spawn_slot id ppid t)) <= fd_ends w p (t_fds t).
Proof.
  intros [Hl Hf]. split.
  - split; [by cbn; rewrite length_fmap|]. cbn. by apply Forall_fmap.
  - intros w p. cbn [t_fds spawn_slot]. unfold fd_ends. rewrite total_fmap. apply Z.eq_le_incl.
    clear. induction (t_fds t) as [|f l IH]; [done|]. rewrite !total_cons, IH. reflexivity.
Qed.

(** No pipe in question has an end anywhere. *)
Definition none_held q : Prop := forall p, unheld p -> forall w, ends w p (q_tasks q) = 0.

Lemma pevolves_install sl l q0 q :
  tables_ok (q_io q0) -> none_held q0 -> pevolves (length l) q (on_io (install_redir sl ((fun pfd => redir_of pfd (cur q0)) <$> l)) q).
Proof.
  intros Hs Hn. rewrite <-(length_fmap (fun pfd => redir_of pfd (cur q0)) l). apply evolves_install. intros r (pfd & Hr & _)%list_elem_of_fmap.
  destruct (lookup_lt_is_Some_2 _ _ (tk_cur _ Hs)) as [t Ht]. apply (redir_of_ok pfd t); [by eapply slot_table| |].
  - intros p Hp w. pose proof (fd_ends_elem w p t _ (list_elem_of_lookup_2 _ _ _ Ht)). specialize (Hn p Hp w).
    pose proof (fd_ends_nonneg w p (t_fds t)). unfold q_tasks in Hn. lia.
  - rewrite Hr. unfold cur, q_tasks, slot. by rewrite Ht.
Qed.

Lemma pevolves_spawn fuel name argv redir image q r q' :
  none_held q -> create_user_process_elf_redir fuel name argv redir image q = Some (r, q') -> pevolves 6 q q'.
Proof.
  intros Hnh E. apply evolves_ok. intros Hs0. assert (Hinst : forall sl p, pevolves 3 p (on_io (install_redir sl
    (match redir with None => [] | Some l => (fun pfd => redir_of pfd (cur q)) <$> take 3 l end)) p)).
  { intros sl p. destruct redir as [l|]; [|apply evolves_refl].
    apply (evolves_less (length (take 3 l))); [rewrite length_take; lia|]. by apply pevolves_install. }
  change (pevolves 6 q q'). revert E. unfold create_user_process_elf_redir. cbv zeta.
  assert (Hless : forall m a b, (m <= 6)%nat -> pevolves m a b -> pevolves 6 a b) by (intros m a b Hm; by apply evolves_less).
  destruct image as [[data size]|]; [|intros [= _ <-]; apply pevolves_refl].
  destruct (copy_args _ q) as [[args q1]|] eqn:Ea; [|done]. cbn [mbind option_bind]. apply pevolves_copy_args in Ea.
  destruct (free_slot q1) as [sl|]; [|intros [= _ <-]; by apply (Hless 0%nat); [lia|]].
  set (rs := match redir with None => [] | Some l => _ end) in *. set (q2 := on_io _ (upd_slot sl _ _)).
  assert (E2 : pevolves 3 q q2).
  { eapply pevolves_trans; [exact Ea|]. eapply pevolves_trans; [|apply Hinst].
    apply (evolves_task 0 (q_io q1)). intros t Ht. by apply spawn_slot_table. }
  destruct (kstack_new q2) as [[ks|] q3] eqn:Ek; apply pevolves_take in Ek.
  2:{ intros [= _ <-]. apply (Hless 3%nat); [lia|]. eapply pevolves_then; [exact E2|]. eapply pevolves_trans; [exact Ek|].
      by apply pevolves_fields. }
  set (q4 := on_io (install_redir sl rs) _). assert (E4 : pevolves 6 q q4).
  { apply (evolves_add 3 3 _ (q_io q2)); [exact E2|]. eapply evolves_trans; [exact Ek|]. eapply evolves_trans; [|apply Hinst].
    by apply (pevolves_fields sl (with_kstack ks) q3). }
  destruct (spawn_space _ _ _ _ _ _ _ _ _) as [[sp v]|]; [|done]. cbn [mbind option_bind].
  set (q5 := put_mem v q4). assert (E5 : pevolves 6 q q5) by exact E4. destruct sp as [code|pml4 entry arr].
  - assert (E6 : forall g, (forall t, t_fds (g t) = t_fds t) -> pevolves 6 q (upd_slot sl g (give_heap ks q5))).
    { intros g Hg. eapply pevolves_then; [exact E5|]. eapply pevolves_trans; [|by apply pevolves_fields]. apply pevolves_heap. }
    intros [= _ <-]. case_match; [by apply E6|]. eapply pevolves_then; [by apply (E6 spawn_dropped)|]. apply pevolves_free_args.
  - intros [= _ <-]. eapply pevolves_then; [exact E5|]. eapply pevolves_trans; [apply (pevolves_free_args args)|].
    by apply (pevolves_fields sl (spawn_ready _ _ _) (free_args args q5)).
Qed.

Lemma thread_slot_table id leader t : table_ok t ->
  table_ok (thread_slot id leader t) /\ forall w p, fd_ends w p (t_fds (thread_slot id leader t)) <= fd_ends w p (t_fds t).
Proof.
  intros [Hl Hf]. split.
  - split; [by cbn; rewrite length_fmap|]. cbn. apply Forall_fmap, Forall_forall. intros f _. cbn. lia.
  - intros w p. rewrite fd_ends_none; [apply fd_ends_nonneg|]. cbn. by apply Forall_fmap, Forall_forall.
Qed.

Lemma pevolves_thread tramp a1 a2 q r q' : create_user_thread tramp a1 a2 q = Some (r, q') -> pevolves 0 q q'.
Proof.
  unfold create_user_thread. cbv zeta. destruct (negb (q_enabled q)); [intros [= _ <-]; apply pevolves_refl|].
  destruct (_ || _); [intros [= _ <-]; apply pevolves_refl|]. destruct (_ || _); [intros [= _ <-]; apply pevolves_refl|].
  destruct (free_slot q) as [sl|]; [|intros [= _ <-]; apply pevolves_refl].
  set (q1 := upd_slot sl _ _). assert (E1 : pevolves 0 q q1).
  { apply (evolves_task 0 (q_io q)). intros t Ht. by apply thread_slot_table. }
  destruct (kstack_new q1) as [[ks|] q2] eqn:Ek; apply pevolves_take in Ek.
  2:{ intros [= _ <-]. eapply pevolves_trans; [exact E1|]. eapply pevolves_trans; [exact Ek|]. by apply pevolves_fields. }
  set (q3 := upd_slot sl (with_kstack ks) q2). assert (E3 : pevolves 0 q q3).
  { eapply pevolves_trans; [exact E1|]. eapply pevolves_trans; [exact Ek|]. by apply pevolves_fields. }
  destruct (thread_pages _ _ _) as [[ok v]|]; [|done]. cbn [mbind option_bind].
  set (q4 := put_mem v q3). assert (E4 : pevolves 0 q q4) by exact E3. destruct ok; cbn [negb].
  - intros [= _ <-]. eapply pevolves_trans; [exact E4|]. by apply (pevolves_fields sl (thread_ready _ _) q4).
  - intros [= _ <-]. eapply pevolves_trans; [exact E4|]. eapply pevolves_trans; [|apply pevolves_heap]. by apply pevolves_fields.
Qed.

Lemma pevolves_exit code q q' : exit_task code q = Some q' -> pevolves 0 q q'.
Proof.
  unfold exit_task. cbv zeta. destruct (user_heap_release_owner _ _) as [u|]; [|done]. cbn [mbind option_bind]. intros E. apply (inj Some) in E as <-.
  eapply pevolves_trans; [|apply pevolves_heap]. eapply pevolves_trans; [|apply pevolves_heap].
  eapply pevolves_trans; [|by apply pevolves_fields]. eapply pevolves_trans; [|apply pevolves_heap].
  exact (evolves_exit_close (q_io q)).
Qed.

Lemma strand_tables group ts : t_fds <$> strand group ts = t_fds <$> ts.
Proof.
  apply list_eq. intros i. rewrite !list_lookup_fmap. unfold strand. rewrite list_lookup_imap.
  destruct (ts !! i) as [t|]; [|done]. cbn. by case_match.
Qed.

Lemma pevolves_thread_exit code q q' : thread_exit_task code q = Some q' -> pevolves 0 q q'.
Proof.
  unfold thread_exit_task. cbv zeta. case_match.
  - intros E. apply pevolves_exit in E. eapply pevolves_trans; [|exact E].
    apply evolves_same; [done|apply strand_tables|done|exact (grow_pipe_same (q_io q))].
  - intros E. apply (inj Some) in E as <-. eapply pevolves_trans; [|by apply evolves_world].
    eapply pevolves_trans; [|apply pevolves_heap]. by apply pevolves_fields.
Qed.


Lemma pevolves_create wrapper entry (k : kernel) q q' :
  tasks k = q_tasks q -> q_tasks q' = tasks (snd (create_task wrapper entry k)) ->
  io_cur (q_io q') = io_cur (q_io q) -> io_pipes (q_io q') = io_pipes (q_io q) -> pevolves 0 q q'.
Proof.
  intros Hk Ht Hc Hp. unfold pevolves. unfold create_task in Ht.
  destruct (free_task_slot k) as [sl|]; [|apply evolves_world; [exact (eq_trans Ht Hk)|done|done]].
  assert (Hg : forall g, q_tasks q' = alter g sl (q_tasks q) ->
    (forall t, q_tasks q !! sl = Some t -> t_fds (g t) = (fun f => FdSlot 0 0 0 (fd_types f) (fd_pipe f) (fd_pty f) (fd_flags_extra f)) <$> t_fds t) ->
    evolves 0 (q_io q) (q_io q')).
  { intros g Hg Hf. apply evolves_ok. intros Hs. apply (evolves_table 0 (q_io q) _ sl g); [exact Hg|done|by rewrite Hp| |].
    - intros t Et Hok. destruct (spawn_slot_table 0 0 t Hok) as [[H1 H2] _]. unfold table_ok. rewrite (Hf t Et). done.
    - intros p b Hb. rewrite Hp in Hb. exists b. split; [done|].
      assert (Hle : forall w t, io_tasks (q_io q) !! sl = Some t -> fd_ends w p (t_fds (g t)) <= fd_ends w p (t_fds t)).
      { intros w t Et. rewrite (Hf t Et). by apply (spawn_slot_table 0 0 t (slot_table _ _ t Hs Et)). }
      split; [|done]. intros Hfit. split; [intros w; destruct (Hfit w); lia|].
      intros w. split; [done|]. intros t Et. specialize (Hle w t Et). lia. }
  destruct (kmalloc _ _) as [[base|] h]; cbn [snd set_kmem upd_task set_tasks tasks set_next_id] in Ht; rewrite Hk in Ht;
    (apply (Hg _ Ht); intros t Et; cbn [t_fds]; unfold task, slot; rewrite Hk, Et; reflexivity).
Qed.
End Pipes.

(** ** Everything that happens *)

Section Steps.
Context {H : Type} `{!KernelHeap H}.
Implicit Types (s : io (H := H)) (q : proc (H := H)).
Variable stale : Z -> Z -> list Z.

(** A call of the current task that works on descriptors (the socket call with any
    number the network stack gives out), a switch, or anything that keeps the
    tables of descriptors and the pipes: signals, sleeping, waiting, the scheduler,
    the file system, the terminals. *)
Inductive proc_step : proc -> proc -> Prop :=
  | step_open path flags q : proc_step q (on_io (fun s => snd (sys_open path flags s)) q)
  | step_pipe q : proc_step q (on_io (fun s => snd (sys_pipe s)) q)
  | step_fcntl fd cmd arg q : proc_step q (on_io (fun s => snd (sys_fcntl fd cmd arg s)) q)
  | step_read fd count q : proc_step q (on_io (fun s => snd (sys_read fd count s)) q)
  | step_write fd buf q n s' : sys_write stale fd buf (q_io q) = Some (n, s') -> proc_step q (on_io (fun _ => s') q)
  | step_readv fd lens q t b s' : sys_readv fd lens (q_io q) = Some (t, b, s') -> proc_step q (on_io (fun _ => s') q)
  | step_writev fd bufs q n s' : sys_writev stale fd bufs (q_io q) = Some (n, s') -> proc_step q (on_io (fun _ => s') q)
  | step_lseek fd off wh q : proc_step q (on_io (fun s => snd (sys_lseek fd off wh s)) q)
  | step_close fd q : proc_step q (on_io (sys_close fd) q)
  | step_dup2 a b q : proc_step q (on_io (fun s => snd (sys_dup2 a b s)) q)
  | step_openpty q : proc_step q (on_io (fun s => snd (open_pty s)) q)
  | step_socket sock q : proc_step q (on_io (tag_socket sock) q)
  | step_fork frame q : proc_step q (snd (sys_fork frame q))
  | step_spawn fuel name argv redir image q r q' :
      create_user_process_elf_redir fuel name argv redir image q = Some (r, q') -> proc_step q q'
  | step_thread tramp a1 a2 q r q' : create_user_thread tramp a1 a2 q = Some (r, q') -> proc_step q q'
  | step_exit code q q' : exit_task code q = Some q' -> proc_step q q'
  | step_thread_exit code q q' : thread_exit_task code q = Some q' -> proc_step q q'
  | step_switch i q : (i < length (q_tasks q))%nat ->
      proc_step q (on_io (fun s => Io (io_tasks s) i (io_pipes s) (io_ptys s) (io_fs s) (io_vfs s)) q)
  | step_create wrapper entry (k : kernel) q q' :
      tasks k = q_tasks q -> q_tasks q' = tasks (snd (create_task wrapper entry k)) ->
      io_cur (q_io q') = io_cur (q_io q) -> io_pipes (q_io q') = io_pipes (q_io q) -> proc_step q q'
  | step_other q q' :
      io_cur (q_io q') = io_cur (q_io q) -> t_fds <$> q_tasks q' = t_fds <$> q_tasks q ->
      io_pipes (q_io q') = io_pipes (q_io q) -> proc_step q q'.

(** The pipes without a descriptor. *)
Definition no_ends q (p : nat) : Prop := forall w, ends w p (q_tasks q) = 0.

Lemma evolves_step q q' : proc_step q q' -> pevolves (no_ends q) MAX_FDS q q'.
Proof.
  assert (Hless : forall U m (a b : proc (H := H)), (m <= MAX_FDS)%nat -> pevolves U m a b -> pevolves U MAX_FDS a b)
    by (intros U m a b Hm; by apply evolves_less).
  assert (Hfree : forall U (a b : proc (H := H)), pevolves U 0 a b -> pevolves U MAX_FDS a b)
    by (intros U a b; apply Hless; lia).
  assert (Hn : forall q, none_held (no_ends q) q) by (intros x p Hp; exact Hp).
  destruct 1 as [| | | | |fd lens q t b s' E|fd bufs q n s' E| | | | | | | | | | |i q Hi|wr en k q q' Hk Ht Hc Hp|q q' Hc Ht Hp].
  - apply Hfree, evolves_open.
  - apply (Hless _ 3%nat); [unfold MAX_FDS; lia|apply evolves_pipe].
  - apply Hfree, evolves_fcntl.
  - apply Hfree, evolves_read.
  - apply Hfree. by eapply evolves_write.
  - apply Hfree. destruct lens as [|len lens]; [injection E as _ _ <-; apply evolves_refl|]. by eapply evolves_readv.
  - apply Hfree. destruct bufs as [|buf bufs]; [injection E as _ <-; apply evolves_refl|]. by eapply evolves_writev.
  - apply Hfree, evolves_lseek.
  - apply Hfree, evolves_close.
  - apply (Hless _ 1%nat); [unfold MAX_FDS; lia|apply evolves_dup2].
  - apply Hfree, evolves_openpty.
  - apply Hfree, evolves_socket.
  - apply pevolves_fork.
  - apply (Hless _ 6%nat); [unfold MAX_FDS; lia|]. by eapply pevolves_spawn.
  - apply Hfree. by eapply pevolves_thread.
  - apply Hfree. by eapply pevolves_exit.
  - apply Hfree. by eapply pevolves_thread_exit.
  - intros [_ Kf Kp] Hlow. split; [by split|]. intros p b Hb. exists b. split; [done|]. split; [|split; [|by left]]; intros w.
    + change (ends w p (io_tasks (q_io q)) - ends w p (io_tasks (q_io q)) <= counted w b - counted w b). lia.
    + destruct (Hlow p b Hb w). lia.
  - apply Hfree. by eapply pevolves_create.
  - apply evolves_same; [done|done|by rewrite Hp|]. rewrite Hp. exact (grow_pipe_same (q_io q)).
Qed.

(** The counts of every pipe can take one more end for each descriptor of a task
    without passing the end of their int. *)
Definition roomy q : Prop :=
  forall p b w, io_pipes (q_io q) !! p = Some b -> counted w b + Z.of_nat MAX_FDS < 2 ^ 31.

Inductive proc_reach (q0 : proc) : proc -> Prop :=
  | reach_start : proc_reach q0 q0
  | reach_step q q' : proc_reach q0 q -> roomy q -> proc_step q q' -> proc_reach q0 q'.

(** Every pipe is unused, or counted once too often on both sides. *)
Definition refs_ok s : Prop := forall p b, io_pipes s !! p = Some b -> idle s p b \/ excess s p b.

Definition counts_ok s : Prop := forall p b w, io_pipes s !! p = Some b -> 0 <= counted w b.

(** [q'] is as good as [q], and no pipe in use in [q] is unused in [q']. *)
Record kept_counts q q' : Prop := {
  kc_tables : tables_ok (q_io q');
  kc_refs : refs_ok (q_io q');
  kc_counts : counts_ok (q_io q');
  kc_used p b b' : io_pipes (q_io q) !! p = Some b -> excess (q_io q) p b ->
    io_pipes (q_io q') !! p = Some b' -> excess (q_io q') p b';
}.

Lemma reach_refs q q' :
  tables_ok (q_io q) -> refs_ok (q_io q) -> counts_ok (q_io q) -> proc_reach q q' -> kept_counts q q'.
Proof.
  intros H0 R0 N0. induction 1 as [|q1 q2 _ [IHt IHr IHn IHu] Hroom Hs].
  { split; [done|done|done|]. intros p b b' Hb Hx Hb'. congruence. }
  destruct (evolves_step q1 q2 Hs IHt) as [Ht Hg].
  { intros p b Hb w. split; [by eapply IHn|by eapply Hroom]. }
  assert (Hx : forall p b1 b', io_pipes (q_io q1) !! p = Some b1 -> io_pipes (q_io q2) !! p = Some b' -> excess (q_io q1) p b1 ->
    excess (q_io q2) p b').
  { intros p b1 b' Hb1 Hb' Hx w. destruct (Hg p b' Hb') as (b & Hb & E & _). rewrite Hb1 in Hb. injection Hb as <-.
    specialize (Hx w). specialize (E w). lia. }
  split; [done| | |].
  - intros p b' Hb'. destruct (Hg p b' Hb') as (b & Hb & E & _ & Hi). destruct (IHr p b Hb) as [Hid|Hex]; [|right; by eapply Hx].
    apply Hi; [|done]. intros w. apply Hid.
  - intros p b' w Hb'. destruct (Hg p b' Hb') as (b & _ & _ & W & _). apply W.
  - intros p b b' Hb Hex Hb'. destruct (Hg p b' Hb') as (b1 & Hb1 & _). eapply (Hx p b1); [done|done|]. by eapply IHu.
Qed.

(** The state at boot: no descriptors, no pipes. *)
Record procs_boot q : Prop := {
  bo_tables : tables_ok (q_io q);
  bo_fds : Forall (fun t => Forall (fun f => fd_types f <> FD_PIPE) (t_fds t)) (q_tasks q);
  bo_pipes : Forall (fun b => writer_count b = 0 /\ reader_count b = 0) (io_pipes (q_io q));
}.

Lemma boot_refs q : procs_boot q -> refs_ok (q_io q).
Proof.
  intros [Ht Hf Hp] p b Hb. left. apply (Forall_lookup_1 _ _ _ _ Hp) in Hb as [Hw Hr]. intros w.
  split; [by destruct w|]. unfold ends, q_tasks in *. clear -Hf.
  induction Hf as [|t l Ht _ IH]; [done|]. rewrite total_cons, IH. by rewrite fd_ends_none.
Qed.

Lemma boot_roomy q : procs_boot q -> roomy q.
Proof.
  intros [_ _ Hp] p b w Hb. apply (Forall_lookup_1 _ _ _ _ Hp) in Hb as [Hw Hr]. unfold MAX_FDS. destruct w; cbn [counted]; lia.
Qed.

Lemma boot_counts q : procs_boot q -> counts_ok (q_io q).
Proof.
  intros [_ _ Hp] p b w Hb. apply (Forall_lookup_1 _ _ _ _ Hp) in Hb as [Hw Hr]. destruct w; cbn [counted]; lia.
Qed.

(** C32. As long as the reference counts of the pipes, which are ints, stay 16 and
    more below 2^31, no pipe ever ends: [sys_pipe] counts each new end twice, and
    nothing that processes do (opening, closing, duplicating, opening terminals and
    sockets, forking, spawning with inherited descriptors, starting and ending
    threads, exiting, being killed and having their slot reused) makes up for it.
    So in every state that a run from boot reaches with the counts in that range, a
    read of an empty pipe waits, or says try again, whoever has closed the other
    end; and while the run goes on like that a pipe that was handed out once stays
    in use: it is not free for [sys_pipe] again, and there are only 32. *)
Theorem pipe_never_ends q0 q fd pno :
  procs_boot q0 -> proc_reach q0 q -> fd_bad fd = false ->
  fd_types (fd_of fd (q_io q)) = FD_PIPE -> fd_pipe (fd_of fd (q_io q)) = Z.of_nat pno -> (pno < MAX_PIPES)%nat ->
  (forall count, let b := pipe_at (io_pipes (q_io q)) (Z.of_nat pno) in p_head b = p_tail b ->
     fst (sys_read fd count (q_io q)) =
       if Z.land (fd_flags_extra (fd_of fd (q_io q))) O_NONBLOCK =? 0 then None else Some (-1, [])) /\
  (forall q', proc_reach q q' -> let b := pipe_at (io_pipes (q_io q')) (Z.of_nat pno) in
     0 < writer_count b /\ 0 < reader_count b).
Proof.
  intros Hb Hr Hbad Ht Hpn Hp. pose proof (reach_refs q0 q (bo_tables _ Hb) (boot_refs _ Hb) (boot_counts _ Hb) Hr) as [Hok Hrefs Hnn _].
  assert (Hat : forall q', tables_ok (q_io q') -> io_pipes (q_io q') !! pno = Some (pipe_at (io_pipes (q_io q')) (Z.of_nat pno))).
  { intros x Hx. unfold pipe_at. rewrite Nat2Z.id. destruct (lookup_lt_is_Some_2 (io_pipes (q_io x)) pno) as [y Hy]; [by rewrite (tk_pipes _ Hx)|].
    by rewrite Hy. }
  destruct (good_fd fd Hbad) as [Hi Ei]. destruct (cur_fd (q_io q) _ Hok Hi) as (t & Hct & Hcf). rewrite <-Ei in Hcf.
  assert (Hx : excess (q_io q) pno (pipe_at (io_pipes (q_io q)) (Z.of_nat pno))).
  { destruct (Hrefs pno _ (Hat q Hok)) as [Hid|Hx]; [exfalso|done].
    set (f := fd_of fd (q_io q)) in *. destruct (Hid (negb (Z.land (fd_flags_extra f) 1 =? 0))) as [_ H0].
    pose proof (end_count_elem (negb (Z.land (fd_flags_extra f) 1 =? 0)) pno f _ (list_elem_of_lookup_2 _ _ _ Hcf)) as H1.
    pose proof (fd_ends_elem (negb (Z.land (fd_flags_extra f) 1 =? 0)) pno t _ (list_elem_of_lookup_2 _ _ _ Hct)) as H2.
    unfold end_count at 1 in H1. unfold is_end in H1. rewrite Ht, Hpn, !Z.eqb_refl, eqb_reflx in H1. cbn [andb] in H1. lia. }
  assert (Hpos : forall (x : io (H := H)) b, excess x pno b -> 0 < writer_count b /\ 0 < reader_count b).
  { intros x b Hxs. pose proof (Hxs true) as H1. pose proof (Hxs false) as H2.
    assert (Hn : forall w, 0 <= ends w pno (io_tasks x)) by (intros w; apply total_of_nonneg; intros; apply fd_ends_nonneg).
    pose proof (Hn true). pose proof (Hn false). cbn [counted] in *. lia. }
  split.
  - intros count b He. unfold sys_read. rewrite Hbad, Ht, Hpn. change (FD_PIPE =? FD_PIPE) with true. cbv iota zeta. fold b.
    unfold pipe_read. rewrite He, Z.eqb_refl. destruct (Hpos _ _ Hx) as [Hw _]. fold b in Hw.
    rewrite (proj2 (Z.eqb_neq (writer_count b) 0)) by lia. change (0 <=? -1) with false. cbv iota. by case_match.
  - intros q' Hr' b. destruct (reach_refs q q' Hok Hrefs Hnn Hr') as [Hok' _ _ Hu]. apply (Hpos (q_io q')).
    by apply (Hu pno _ _ (Hat q Hok) Hx (Hat q' Hok')).
Qed.
End Steps.

(** ** A witness: one task that makes a pipe *)

Section witness.
#[local] Existing Instance boot_heap.

Definition one_task : proc (H := kheap) :=
  Proc io_boot (user_heap_boot (Vm ∅ [] 0) (heap (io_fs io_boot))) 2 true ∅.

Lemma one_task_boot : procs_boot one_task.
Proof.
  split; [split|..].
  - vm_compute. lia.
  - repeat constructor; vm_compute; done.
  - reflexivity.
  - repeat constructor; vm_compute; done.
  - apply Forall_replicate. done.
Qed.

Lemma pipe_never_ends_witness : exists q, proc_reach zeros one_task q /\
  (forall b, b = pipe_at (io_pipes (q_io q)) 0 -> p_head b = p_tail b -> fst (sys_read 3 10 (q_io q)) = None) /\
  forall q', proc_reach zeros q q' -> 0 < writer_count (pipe_at (io_pipes (q_io q')) 0).
Proof.
  assert (Hr : proc_reach zeros one_task (on_io (fun s => snd (sys_pipe s)) one_task)).
  { eapply reach_step; [apply reach_start|apply boot_roomy, one_task_boot|apply step_pipe]. }
  eexists. split; [exact Hr|].
  destruct (pipe_never_ends zeros one_task _ 3 0 one_task_boot Hr) as [H1 H2]; [reflexivity|vm_compute; reflexivity..|vm_compute; lia|].
  split; [intros b -> Hb; exact (H1 10 Hb)|]. intros q' Hq. exact (proj1 (H2 q' Hq)).
Defined.
End witness.
