(* ===== verification/ProcProps.v ===== *)
(** What fork and the creation of a thread leave behind: the frame the child
    starts from, a failed fork, why a thread stops the machine, and what becomes
    of a thread's pages. *)
From Stdlib Require Import ZArith Lia.
From stdpp Require Import base numbers list gmap strings.
From S2P Require Import Prelude HeapIface Fs Persist Ring Task Pty Fd Vmm VmmSpec UserMem Elf UserHeap Fork Spawn Proc.
From S2P Require Import VmmProps VmmFrame UserSpace ElfProps UserMemSpec UserHeapMap Apart SpawnMem SpawnProps Kheap KheapSpec FsProps FdProps ProcPipes.

(** ** Words of kernel stacks *)

Lemma stack_top base :
  0 <= base -> base + KERNEL_STACK_SIZE + 16 <= 2 ^ 64 -> base mod 8 = 0 ->
  abi_stack_top base KERNEL_STACK_SIZE = base + KERNEL_STACK_SIZE - (if base mod 16 =? 8 then 0 else 8).
Proof.
  intros H0 Hend H8. unfold abi_stack_top, KERNEL_STACK_SIZE in *. rewrite (wrap_small 64 (base + 65536 + 15)) by lia.
  change (u64 (Z.lnot 15)) with (Z.shiftl (Z.ones 60) 4). rewrite land_field by lia. change (2 ^ 4) with 16.
  rewrite (Z.mod_small ((base + 65536 + 15) / 16)) by zify_div.
  rewrite wrap_small; destruct (Z.eqb_spec (base mod 16) 8); zify_div.
Qed.

(** The frame the processor and the entry stub leave below RSP0. *)
Definition syscall_frame (base : Z) : Z := (base + KERNEL_STACK_SIZE) / 16 * 16 - 160.

Lemma copy_words_lookup n src dst (m : gmap Z Z) a :
  copy_words n src dst m !! a =
    if decide (dst <= a < dst + 8 * Z.of_nat n /\ (a - dst) mod 8 = 0) then Some (default 0 (m !! (src + (a - dst)))) else m !! a.
Proof.
  unfold copy_words. induction n as [|n IH].
  - rewrite decide_False by lia. done.
  - rewrite seq_S, foldl_app. cbn [foldl]. rewrite Nat.add_0_l. destruct (decide (a = dst + 8 * Z.of_nat n)) as [->|Hne].
    + rewrite lookup_insert_eq, decide_True by zify_div. do 3 f_equal. lia.
    + rewrite lookup_insert_ne by done. rewrite IH. apply decide_ext. zify_div.
Qed.

Lemma push_words_below top l (m : gmap Z Z) a : a < top - 8 * Z.of_nat (length l) -> push_words top l m !! a = m !! a.
Proof.
  intros Ha. unfold push_words. assert (Hz : Forall (fun x : nat * Z => (fst x < length l)%nat) (zip (seq 0 (length l)) l)).
  { apply Forall_forall. intros [i v] Hin. apply elem_of_zip_l in Hin. apply elem_of_seq in Hin. cbn. lia. }
  revert m. induction Hz as [|[i v] z Hi _ IH]; intros m; [done|]. cbn [foldl fst] in *. rewrite IH.
  apply lookup_insert_ne. lia.
Qed.

Section Props.
Context {H : Type} `{!KernelHeap H, !KernelHeapSpec H}.
Implicit Types p q : proc (H := H).

Definition word p (a : Z) : Z := default 0 (q_words p !! a).

(** A kernel stack: aligned as the heap aligns, below the end of memory. *)
Definition kstack_ok (base : Z) : Prop := 0 < base /\ base + KERNEL_STACK_SIZE + 16 <= 2 ^ 64 /\ base mod 8 = 0.

(** ** The frame of the child *)

Lemma fork_frame_words base cbase m child m' i :
  kstack_ok base -> kstack_ok cbase -> 0 <= i < 20 ->
  fork_frame (syscall_frame base) (abi_stack_top base KERNEL_STACK_SIZE) (abi_stack_top cbase KERNEL_STACK_SIZE) m = (child, m') ->
  cbase < child /\ default 0 (m' !! (child + 8 * i)) =
    if i =? 14 then 0
    else if (i =? 19) && negb (base mod 16 =? 8) then default 0 (m !! (child + 8 * i))
    else default 0 (m !! (syscall_frame base + 8 * i)).
Proof.
  intros (B0 & B1 & B2) (C0 & C1 & C2) Hi. unfold fork_frame. rewrite !stack_top by lia.
  set (d := if base mod 16 =? 8 then 0 else 8). set (e := if cbase mod 16 =? 8 then 0 else 8).
  set (bytes := if base mod 16 =? 8 then 168 else 152).
  assert (Eb : u64 (base + KERNEL_STACK_SIZE - d - syscall_frame base) = bytes).
  { unfold d, bytes, syscall_frame, KERNEL_STACK_SIZE in *. destruct (Z.eqb_spec (base mod 16) 8); rewrite wrap_small; zify_div. }
  rewrite Eb. rewrite (proj2 (Z.ltb_ge KERNEL_STACK_SIZE bytes)) by (unfold bytes, KERNEL_STACK_SIZE; case_match; lia).
  assert (He : 0 <= e <= 8) by (unfold e; case_match; lia).
  rewrite (wrap_small 64) by (unfold bytes, KERNEL_STACK_SIZE in *; case_match; lia).
  set (c := cbase + KERNEL_STACK_SIZE - e - bytes). intros E. injection E as <- <-.
  split; [unfold c, bytes, KERNEL_STACK_SIZE; case_match; lia|].
  destruct (Z.eqb_spec i 14) as [->|Hne].
  { change (c + 8 * 14) with (c + 14 * 8). by rewrite lookup_insert_eq. }
  rewrite lookup_insert_ne by lia. rewrite copy_words_lookup.
  assert (En : 8 * Z.of_nat (Z.to_nat (bytes / 8)) = bytes) by (unfold bytes; by case_match). rewrite En.
  unfold bytes. destruct (Z.eqb_spec (base mod 16) 8) as [E8|E8]; cbn [negb andb].
  - rewrite andb_false_r, decide_True by zify_div. cbn [default id]. do 2 f_equal. lia.
  - destruct (Z.eqb_spec i 19) as [->|Hi19]; cbn [andb].
    + rewrite decide_False by lia. done.
    + rewrite decide_True by zify_div. cbn [default id]. do 2 f_equal. lia.
Qed.

(** ** What fork did *)

Definition fork_slot (sl : nat) p : proc (H := H) :=
  put_next_id (i32 (q_next_id p + 1)) (put_task sl (fork_blank (q_next_id p) (t_id (cur p)) 0) p).
Definition fork_stacked (sl : nat) (ks : Z) p q : proc (H := H) :=
  canary_set ks (put_task sl (fork_blank (q_next_id p) (t_id (cur p)) ks) q).

(** The ways a fork ends once it has a slot. *)
Inductive fork_end (frame : Z) (sl : nat) p : Z -> proc (H := H) -> Prop :=
  | fork_no_stack q : kstack_new (fork_slot sl p) = (None, q) -> fork_end frame sl p 3 q
  | fork_no_pages q ks v : kstack_new (fork_slot sl p) = (Some ks, q) ->
      fork_end frame sl p 3 (give_heap ks (put_mem v (fork_stacked sl ks p q)))
  | fork_ok q ks v root rsp m : kstack_new (fork_slot sl p) = (Some ks, q) ->
      fork_frame frame (kstack_top (cur p)) (abi_stack_top ks KERNEL_STACK_SIZE) (q_words (fork_stacked sl ks p q)) = (rsp, m) ->
      fork_end frame sl p (q_next_id p)
        (upd_slot sl (fork_done (cur p) rsp root)
           (on_words (fun _ => m) (on_io (dup_fd_table sl) (put_mem v (fork_stacked sl ks p q))))).

Lemma sys_fork_ends frame p sl r p' :
  t_ring (cur p) = TASK_RING3 -> free_slot p = Some sl -> sys_fork frame p = (r, p') -> fork_end frame sl p r p'.
Proof.
  intros Hring Hsl. unfold sys_fork. cbv zeta. rewrite bool_decide_false by (intros Hn; by apply Hn). rewrite Hsl.
  fold (fork_slot sl p). destruct (kstack_new (fork_slot sl p)) as [[ks|] q] eqn:Ek.
  2:{ intros E. injection E as <- <-. by apply fork_no_stack. }
  fold (fork_stacked sl ks p q). destruct (vmm_new_user_pml4 _) as [root v].
  destruct (root =? 0); [intros E; injection E as <- <-; by apply fork_no_pages|].
  destruct (copy_user_as _ _ _) as [ok v2]. destruct ok; cbn [negb].
  - change (q_words (on_io (dup_fd_table sl) (put_mem v2 (put_mem v (fork_stacked sl ks p q))))) with (q_words (fork_stacked sl ks p q)).
    destruct (fork_frame _ _ _ _) as [rsp m] eqn:Ef. intros E. injection E as <- <-.
    by apply (fork_ok frame sl p q ks v2 root rsp m).
  - intros E. injection E as <- <-. by apply fork_no_pages.
Qed.

Lemma take_heap_inv n p a q :
  take_heap n p = (a, q) -> q = put_heap (kernel_heap q) p /\ kmalloc n (kernel_heap p) = (a, kernel_heap q).
Proof. unfold take_heap. destruct (kmalloc n (kernel_heap p)) as [b h]. intros E. by injection E as <- <-. Qed.

Lemma free_slot_lt p sl : free_slot p = Some sl ->
  (1 <= sl)%nat /\ exists t, q_tasks p !! sl = Some t /\ t_state t = TASK_FREE.
Proof.
  intros Hf. apply find_from_Some in Hf as (Hi & (t & Ht & Hb) & _). split; [done|]. exists t. split; [done|].
  by apply bool_decide_eq_true in Hb.
Qed.

(** The tasks after a failed fork. *)
Lemma put_task_lookup sl t p j : (sl < length (q_tasks p))%nat ->
  q_tasks (put_task sl t p) !! j = if decide (j = sl) then Some t else q_tasks p !! j.
Proof.
  intros Hl. unfold put_task, on_io, q_tasks in *. cbn. destruct (decide (j = sl)) as [->|Hne].
  - rewrite list_lookup_alter_eq. by destruct (lookup_lt_is_Some_2 _ _ Hl) as [x ->].
  - by rewrite list_lookup_alter_ne.
Qed.

Lemma dup_table_lookup sl (s : io (H := H)) j t : io_tasks s !! j = Some t ->
  exists l, io_tasks (dup_fd_table sl s) !! j = Some (if decide (j = sl) then with_fds l t else t).
Proof.
  intros Hj. exists (fdt s). unfold dup_fd_table.
  destruct (ref_fds_spec (take MAX_FDS (fdt s)) (set_iotasks (alter (with_fds (fdt s)) sl (io_tasks s)) s)) as (-> & _).
  cbn. destruct (decide (j = sl)) as [->|Hne]; [by rewrite list_lookup_alter_eq, Hj|by rewrite list_lookup_alter_ne].
Qed.

(** C11. A fork that fails gives back what it took: the kernel heap has the blocks
    it had, the pipes and terminals their counts, every other slot its task.  But
    the result is 3: the error code is negated although it is negative already, and
    the parent takes the failure for a child with that id. *)
Theorem fork_fails frame p sl r p' :
  heap_ok (kernel_heap p) -> t_ring (cur p) = TASK_RING3 -> free_slot p = Some sl ->
  sys_fork frame p = (r, p') -> t_state (slot (q_tasks p') sl) = TASK_FREE ->
  r = 3 /\ heap_ok (kernel_heap p') /\ live (kernel_heap p') = live (kernel_heap p) /\
  io_pipes (q_io p') = io_pipes (q_io p) /\ io_ptys (q_io p') = io_ptys (q_io p) /\
  forall j, j <> sl -> q_tasks p' !! j = q_tasks p !! j.
Proof.
  intros Hh Hring Hsl E Hst. destruct (free_slot_lt p sl Hsl) as (_ & t0 & Ht0 & _).
  pose proof (lookup_lt_Some _ _ _ Ht0) as Hlt.
  assert (Hn : 0 <= KERNEL_STACK_SIZE + 16 < 2 ^ 63) by (unfold KERNEL_STACK_SIZE; lia).
  destruct (sys_fork_ends frame p sl r p' Hring Hsl E) as [q Ek|q ks v Ek|q ks v root rsp m Ek Ef];
    apply take_heap_inv in Ek as [Eq Em].
  - destruct (kmalloc_fail _ _ _ Hh Hn Em) as [H1 H2]. split_and!; [done|done|done|by rewrite Eq|by rewrite Eq|].
    intros j Hj. rewrite Eq. change (q_tasks (put_task sl (fork_blank (q_next_id p) (t_id (cur p)) 0) p) !! j = q_tasks p !! j).
    rewrite put_task_lookup by done. by rewrite decide_False.
  - destruct (kmalloc_ok _ _ _ _ Hh Hn Em) as (H1 & H2 & _ & H3 & sz & _ & H5 & _).
    assert (Eh : kernel_heap (give_heap ks (put_mem v (fork_stacked sl ks p q))) = kfree ks (kernel_heap q)).
    { unfold give_heap, free_stack. rewrite (proj2 (Z.eqb_neq ks 0)) by lia. done. }
    destruct (kfree_ok (kernel_heap q) ks H1) as [H6 H7]; [rewrite H5, lookup_insert_eq; by eexists|].
    split_and!; [done|by rewrite Eh| |by cbn; rewrite Eq|by cbn; rewrite Eq|].
    + rewrite Eh, H7, H5. by apply delete_insert_id.
    + intros j Hj. change (q_tasks (put_task sl (fork_blank (q_next_id p) (t_id (cur p)) ks) q) !! j = q_tasks p !! j).
      assert (Elen : length (q_tasks q) = length (q_tasks p)).
      { rewrite Eq. change (length (q_tasks (put_task sl (fork_blank (q_next_id p) (t_id (cur p)) 0) p)) = length (q_tasks p)).
        unfold put_task, q_tasks. cbn. by rewrite length_alter. }
      rewrite put_task_lookup, decide_False by (done || by rewrite Elen). rewrite Eq.
      change (q_tasks (put_task sl (fork_blank (q_next_id p) (t_id (cur p)) 0) p) !! j = q_tasks p !! j).
      by rewrite put_task_lookup, decide_False.
  - exfalso. revert Hst. unfold slot, upd_slot, on_io, q_tasks. cbn [q_io on_words io_tasks set_iotasks].
    rewrite list_lookup_alter_eq. set (s3 := q_io _).
    assert (Hin : exists t, io_tasks s3 !! sl = Some t).
    { unfold s3. apply lookup_lt_is_Some_2. cbn. rewrite Eq. cbn. by rewrite !length_alter. }
    destruct Hin as [t Hin]. destruct (dup_table_lookup sl s3 sl t Hin) as [l ->]. done.
Qed.

(** C10. What the child of a fork starts from: RAX is 0, and every other register
    of the parent's frame is copied, SS only when the base of the parent's kernel
    stack is 8 modulo 16.  Otherwise the frame ends at the parent's
    kernel_stack_top, below its last word, and the child pops as SS what was in
    its stack before. *)
Theorem fork_child_frame p sl r p' i :
  t_ring (cur p) = TASK_RING3 -> free_slot p = Some sl ->
  sys_fork (syscall_frame (t_kstack (cur p))) p = (r, p') ->
  let ch := slot (q_tasks p') sl in
  t_state ch = TASK_READY -> kstack_ok (t_kstack (cur p)) -> kstack_ok (t_kstack ch) ->
  disjoint_range (t_kstack (cur p)) KERNEL_STACK_SIZE (t_kstack ch) (KERNEL_STACK_SIZE + 16) -> 0 <= i < 20 ->
  word p' (t_rsp ch + 8 * i) =
    if i =? 14 then 0
    else if (i =? 19) && negb (t_kstack (cur p) mod 16 =? 8) then word p (t_rsp ch + 8 * i)
    else word p (syscall_frame (t_kstack (cur p)) + 8 * i).
Proof.
  intros Hring Hsl E ch Hst Hk Hck Hdis Hi. destruct (free_slot_lt p sl Hsl) as (_ & t0 & Ht0 & _).
  pose proof (lookup_lt_Some _ _ _ Ht0) as Hlt. unfold ch in *. clear ch.
  destruct (sys_fork_ends _ p sl r p' Hring Hsl E) as [q Ek|q ks v Ek|q ks v root rsp m Ek Ef];
    apply take_heap_inv in Ek as [Eq Em].
  - exfalso. revert Hst. rewrite Eq.
    change (q_tasks (put_heap _ (fork_slot sl p))) with (q_tasks (put_task sl (fork_blank (q_next_id p) (t_id (cur p)) 0) p)).
    unfold slot. rewrite put_task_lookup, decide_True by done. done.
  - exfalso. revert Hst. change (q_tasks (give_heap ks (put_mem v (fork_stacked sl ks p q))))
      with (q_tasks (put_task sl (fork_blank (q_next_id p) (t_id (cur p)) ks) q)).
    assert (Elen : (sl < length (q_tasks q))%nat) by (rewrite Eq; unfold q_tasks; cbn; by rewrite length_alter).
    unfold slot. rewrite put_task_lookup, decide_True by done. done.
  - set (s3 := q_io (put_mem v (fork_stacked sl ks p q))) in *.
    assert (Hs3 : io_tasks s3 !! sl = Some (fork_blank (q_next_id p) (t_id (cur p)) ks)).
    { assert (Elen : (sl < length (q_tasks q))%nat) by (rewrite Eq; unfold q_tasks; cbn; by rewrite length_alter).
      change (q_tasks (put_task sl (fork_blank (q_next_id p) (t_id (cur p)) ks) q) !! sl = Some (fork_blank (q_next_id p) (t_id (cur p)) ks)).
      by rewrite put_task_lookup, decide_True. }
    destruct (dup_table_lookup sl s3 sl _ Hs3) as [l Hl]. rewrite decide_True in Hl by done.
    assert (Ech : slot (q_tasks (upd_slot sl (fork_done (cur p) rsp root)
      (on_words (fun _ => m) (on_io (dup_fd_table sl) (put_mem v (fork_stacked sl ks p q)))))) sl =
      fork_done (cur p) rsp root (with_fds l (fork_blank (q_next_id p) (t_id (cur p)) ks))).
    { unfold slot, upd_slot, q_tasks, on_io. cbn [q_io on_words io_tasks set_iotasks]. fold s3.
      rewrite list_lookup_alter_eq, Hl. done. }
    rewrite Ech in Hck, Hdis |- *. cbn [t_rsp t_kstack fork_done with_fds fork_blank] in Hck, Hdis |- *.
    destruct (fork_frame_words (t_kstack (cur p)) ks _ rsp m i Hk Hck Hi Ef) as [Hrsp Ew].
    unfold word. cbn [upd_slot on_io on_words q_words]. rewrite Ew.
    assert (Hwq : forall a, a <> ks -> q_words (fork_stacked sl ks p q) !! a = q_words p !! a).
    { intros a Ha. cbn [fork_stacked canary_set on_words q_words put_task on_io]. rewrite lookup_insert_ne by done. by rewrite Eq. }
    case_match; [done|]. case_match; rewrite Hwq; try done; [lia|].
    assert (Hsf : t_kstack (cur p) <= syscall_frame (t_kstack (cur p)) /\
      syscall_frame (t_kstack (cur p)) + 160 <= t_kstack (cur p) + KERNEL_STACK_SIZE).
    { destruct Hk as (? & ? & ?). unfold syscall_frame, KERNEL_STACK_SIZE in *. zify_div. }
    unfold disjoint_range, KERNEL_STACK_SIZE in *. lia.
Qed.

(** ** A thread stops the machine *)

Lemma thread_ends tramp a1 a2 p sl r p' :
  free_slot p = Some sl -> create_user_thread tramp a1 a2 p = Some (r, p') -> t_state (slot (q_tasks p') sl) = TASK_READY ->
  exists q ks, kstack_new (upd_slot sl (thread_slot (q_next_id p) (cur p)) (put_next_id (i32 (q_next_id p + 1)) p)) = (Some ks, q) /\
    t_kstack (slot (q_tasks p') sl) = ks /\
    exists l, length l = 20%nat /\ q_words p' = push_words (abi_stack_top ks KERNEL_STACK_SIZE) l (q_words p).
Proof.
  intros Hsl. destruct (free_slot_lt p sl Hsl) as (_ & t0 & Ht0 & Hfree).
  assert (Hold : slot (q_tasks p) sl = t0) by (unfold slot; by rewrite Ht0). unfold create_user_thread. cbv zeta.
  destruct (negb _); [intros E; apply (inj Some) in E; injection E as <- <-; rewrite Hold; congruence|].
  destruct (_ || _); [intros E; apply (inj Some) in E; injection E as <- <-; rewrite Hold; congruence|].
  destruct (_ || _); [intros E; apply (inj Some) in E; injection E as <- <-; rewrite Hold; congruence|]. rewrite Hsl.
  set (p1 := upd_slot sl (thread_slot _ _) _). destruct (kstack_new p1) as [[ks|] q] eqn:Ek; pose proof Ek as Ek0;
    apply take_heap_inv in Ek as [Eq Em].
  2:{ intros E. apply (inj Some) in E. injection E as <- <-. unfold slot, upd_slot, q_tasks, on_io. cbn.
      rewrite list_lookup_alter_eq. by destruct (io_tasks (q_io q) !! sl). }
  destruct (thread_pages _ _ _) as [[[] v]|]; [| |done]; cbn [mbind option_bind negb]; intros E; apply (inj Some) in E; injection E as <- <-.
  - intros _. exists q, ks. split; [done|].
    assert (Hq : exists t, q_tasks q !! sl = Some t).
    { apply lookup_lt_is_Some_2. rewrite Eq. unfold q_tasks. cbn. rewrite length_alter. by eapply lookup_lt_Some. }
    destruct Hq as [t Hq]. split.
    + unfold slot, upd_slot, q_tasks, on_io in *. cbn. rewrite list_lookup_alter_eq, list_lookup_alter_eq, Hq. done.
    + eexists. split; [|cbn [upd_slot on_io on_words q_words put_mem on_uh]; rewrite Eq; reflexivity]. done.
  - unfold slot, upd_slot, q_tasks, on_io. cbn. rewrite list_lookup_alter_eq, list_lookup_alter_eq.
    by destruct (io_tasks (q_io q) !! sl).
Qed.

(** C25. A thread stops the machine: [create_user_thread] leaves out the canary at
    the base of the new kernel stack, and the first timer tick that finds the
    thread running halts for ever, unless the heap gave a block whose first word
    was a canary already. *)
Theorem thread_stops_machine tramp a1 a2 p sl r p' (k : kernel) idle_top kernel_pml4 rsp :
  free_slot p = Some sl -> create_user_thread tramp a1 a2 p = Some (r, p') ->
  let ks := t_kstack (slot (q_tasks p') sl) in
  t_state (slot (q_tasks p') sl) = TASK_READY -> kstack_ok ks -> word p ks <> KSTACK_CANARY ->
  tasking_enabled k = true -> tasks k = q_tasks p' -> current_task_idx k = Z.of_nat sl ->
  m_words (Task.mem k) !! ks = q_words p' !! ks ->
  schedule idle_top kernel_pml4 rsp k = None.
Proof.
  intros Hsl E ks Hst Hks Hw He Ht Hc Hm. destruct (thread_ends tramp a1 a2 p sl r p' Hsl E Hst) as (q & ks' & Ek & Eks & l & Hl & Ew).
  fold ks in Eks. subst ks'. unfold schedule. rewrite He. cbn [negb]. unfold sched_save, get_current_task.
  rewrite Hc, (proj2 (Z.ltb_ge (Z.of_nat sl) 0)), Nat2Z.id by lia.
  unfold kstack_canary_check, task. rewrite Ht. fold ks. destruct Hks as (H0 & H1 & H8).
  rewrite (proj2 (Z.eqb_neq ks 0)) by lia. cbn [orb]. rewrite Hm, Ew, push_words_below.
  - fold (word p ks). rewrite (proj2 (Z.eqb_neq (word p ks) KSTACK_CANARY)) by done. done.
  - rewrite Hl, stack_top by lia. unfold KERNEL_STACK_SIZE in *. case_match; lia.
Qed.
End Props.

(** ** Memory for a thread *)

Lemma thread_pages_enough R sl id v :
  window USER_LO USER_HI R v -> (sl < 64)%nat -> 6 * (tstack_pages + 1) <= Z.of_nat (length (free_pages_stack v)) ->
  exists v', thread_pages sl id v = Some (true, v').
Proof.
  intros Hw Hsl Hroom. unfold thread_pages. set (a := tstack_vaddr sl).
  assert (Ea : a = THREAD_STACK_VADDR + Z.of_nat sl * THREAD_STACK_SIZE).
  { apply wrap_small. unfold THREAD_STACK_VADDR, THREAD_STACK_SIZE, USER_STACK_SIZE. lia. }
  assert (Hn : tstack_pages = 128) by reflexivity. rewrite Hn in *.
  assert (Ha : a mod 4096 = 0 /\ USER_LO <= a /\ a + 128 * 4096 <= USER_HI).
  { rewrite Ea. unfold THREAD_STACK_VADDR, THREAD_STACK_SIZE, USER_STACK_SIZE, USER_LO, USER_HI. zify_div. }
  destruct Ha as (Hal & Hlo & Hhi). pose proof Hlo as Hlo'. pose proof Hhi as Hhi'. unfold USER_LO, USER_HI in Hlo', Hhi'.
  assert (Htame : tame (a + 0 * 4096) (a + 128 * 4096) v) by (intros x Hx; apply (wd_tame _ _ _ _ Hw); lia).
  destruct (map_pages_enough (S (length (free_pages_stack v))) 0 a 128 R v (wd_wf _ _ _ _ Hw) ltac:(lia) Hal ltac:(lia) ltac:(lia))
    as (v1 & Em & Hl1); [lia|lia|exact Htame|].
  unfold user_map_pages. rewrite Em. cbn [mbind option_bind negb].
  destruct (map_pages_loop_spec _ 0 a 128 R v true v1 (wd_wf _ _ _ _ Hw) ltac:(lia) Hal ltac:(lia) ltac:(lia) Htame Em)
    as (F & [Hst Hwf _ Hz Hfr Hx Hd]).
  rewrite Z.mul_0_l, Z.add_0_r in Hfr, Hx. rewrite Z.sub_0_r in Hd.
  destruct (window_map _ _ R a F v v1 user_win Hw Hal Hlo ltac:(lia) Hst Hwf Hfr Hx) as [Hw1 _].
  apply (map_tls_enough (F ++ R) sl id v1 Hw1 Hsl). lia.
Qed.

(** ** The pages of a thread *)

Lemma tstack_place sl : (sl < 64)%nat ->
  tstack_vaddr sl mod 4096 = 0 /\ tls_vaddr sl + 4096 <= tstack_vaddr sl /\ USER_LO <= tstack_vaddr sl /\
  tstack_vaddr sl + 128 * 4096 <= USER_HI.
Proof.
  intros Hsl. rewrite (tls_vaddr_eq sl Hsl). unfold tstack_vaddr. rewrite wrap_small;
    unfold THREAD_STACK_VADDR, THREAD_STACK_SIZE, USER_STACK_SIZE, THREAD_TLS_VADDR, USER_LO, USER_HI; zify_div.
Qed.

(** The address is in the stack or the TLS page of a thread. *)
Definition thread_page (sl : nat) (x : Z) : Prop :=
  tstack_vaddr sl <= x < tstack_vaddr sl + 128 * 4096 \/ tls_vaddr sl <= x < tls_vaddr sl + 4096.

Lemma thread_mapped R sl id v v' :
  window USER_LO USER_HI R v -> (sl < 64)%nat -> thread_pages sl id v = Some (true, v') ->
  exists F, window USER_LO USER_HI (F ++ R) v' /\
    (forall p, p mod 4096 = 0 -> thread_page sl p -> vmm_get_phys p v' <> 0) /\
    forall x, USER_LO <= x < USER_HI -> ~ thread_page sl x -> vmm_get_phys x v' = vmm_get_phys x v.
Proof.
  intros Hw Hsl. destruct (tstack_place sl Hsl) as (Hal & Hbelow & Hlo & Hhi). unfold thread_pages, user_map_pages.
  change tstack_pages with 128. set (a := tstack_vaddr sl) in *. pose proof Hlo as Hlo'. pose proof Hhi as Hhi'. unfold USER_LO, USER_HI in Hlo', Hhi'.
  destruct (map_pages_loop _ 0 a 128 v) as [[[] v1]|] eqn:Em; [|done|done]. cbn [mbind option_bind negb]. intros Et.
  assert (Htame : tame (a + 0 * 4096) (a + 128 * 4096) v) by (intros x Hx; apply (wd_tame _ _ _ _ Hw); lia).
  destruct (map_pages_loop_spec _ 0 a 128 R v true v1 (wd_wf _ _ _ _ Hw) ltac:(lia) Hal ltac:(lia) ltac:(lia) Htame Em)
    as (F & [Hst Hwf _ Hz Hfr Hx Hd]).
  rewrite Z.mul_0_l, Z.add_0_r in Hfr, Hx. rewrite Z.sub_0_r in Hd.
  destruct (mapped_cleared R a F v v1 Hw Hal Hlo ltac:(lia) Hst Hwf Hz Hfr Hx) as [[F1 Hw1] _ _ Hmap Ho _]. rewrite Hd in *.
  destruct (map_tls_spec (F1 ++ R) sl id v1 v' Hw1 Hsl Et) as [[F2 Hw2] Hself _ _ Ho2 _].
  exists (F2 ++ F1). rewrite <-app_assoc. split; [done|]. split.
  - intros p Hp [Hr|Hr]; fold a in Hr.
    + rewrite Ho2; [by apply Hmap|lia|lia].
    + assert (p = tls_vaddr sl) as -> by (rewrite (tls_vaddr_eq sl Hsl) in *; unfold THREAD_TLS_VADDR in *; zify_div).
      intros E0. destruct (le_bytes 8 (tls_vaddr sl)) as [|b l] eqn:El; [done|].
      specialize (Hself 0%nat b ltac:(by rewrite El)). rewrite Z.add_0_r in Hself. unfold load_byte in Hself. by rewrite E0 in Hself.
  - intros x Hxu Hno. unfold thread_page in Hno. fold a in Hno. rewrite Ho2, Ho; [done|done|tauto|done|tauto].
Qed.

(** A mapped block of the window unmapped: its frames are free again. *)
Lemma block_returned R v a n :
  window USER_LO USER_HI R v -> a mod 4096 = 0 -> USER_LO <= a -> a + Z.of_nat n * 4096 <= USER_HI ->
  (forall p, p mod 4096 = 0 -> a <= p < a + Z.of_nat n * 4096 -> vmm_get_phys p v <> 0) ->
  exists R' G, let v' := unmap_pages_loop n 0 a v in
    length G = n /\ window USER_LO USER_HI R' v' /\ free_pages_stack v' = G ++ free_pages_stack v /\
    forall x, 0 <= x < 2 ^ 48 -> vmm_get_phys x v' = if decide (a <= x < a + Z.of_nat n * 4096) then 0 else vmm_get_phys x v.
Proof.
  intros Hw Hal Hlo Hhi Hmap.
  assert (Hmap' : forall p, win_page USER_LO USER_HI p -> a <= p < a + Z.of_nat n * 4096 -> vmm_get_phys p v <> 0).
  { intros p [_ Hp]. by apply Hmap. }
  destruct (window_block _ _ R v a n user_win Hw Hal Hlo Hhi Hmap') as (R' & HR & Hfr).
  set (G := block_frames a n v) in *. assert (Hlen : length G = n) by (unfold G, block_frames; by rewrite length_fmap, length_seq).
  assert (Hwf : wf (reserve (G ++ R') v)) by (eapply wf_reserve_perm; [exact HR|apply (wd_wf _ _ _ _ Hw)]).
  pose proof (unmap_pages_loop_spec G 0 a R' v Hwf Hal ltac:(unfold USER_LO in *; lia) ltac:(lia)) as Hrun.
  unfold npages_of in Hrun. rewrite Hlen, Z.mul_0_l, Z.add_0_r in Hrun.
  specialize (Hrun ltac:(unfold USER_HI in *; lia) Hfr).
  destruct (window_unmap _ _ R R' v _ a n user_win Hw Hal Hlo Hhi Hmap' HR Hrun) as [Hw' _].
  exists R', (reverse G). split; [by rewrite length_reverse|]. split; [done|]. split; [apply (ur_free _ _ _ _ _ Hrun)|].
  intros x Hx. rewrite (ur_phys _ _ _ _ _ Hrun x Hx). unfold npages_of. by rewrite Hlen.
Qed.

Lemma drop_thread_pages_runs sl tls v : 0 < tls < 2 ^ 64 ->
  drop_thread_pages sl tls v = unmap_pages_loop 1 0 tls (unmap_pages_loop (Z.to_nat tstack_pages) 0 (tstack_vaddr sl) v).
Proof.
  intros Ht. unfold drop_thread_pages. generalize (unmap_pages_loop (Z.to_nat tstack_pages) 0 (tstack_vaddr sl) v). intros v1.
  rewrite (proj2 (Z.eqb_neq tls 0)) by lia. cbn [unmap_pages_loop]. by rewrite Z.mul_0_l, Z.add_0_r, wrap_small by lia.
Qed.

Lemma blocks_unmapped a b (f f1 f2 : Z -> Z) :
  (forall x, 0 <= x < 2 ^ 48 -> f1 x = if decide (a <= x < a + Z.of_nat 128 * 4096) then 0 else f x) ->
  (forall x, 0 <= x < 2 ^ 48 -> f2 x = if decide (b <= x < b + Z.of_nat 1 * 4096) then 0 else f1 x) ->
  forall x, 0 <= x < 2 ^ 48 -> f2 x = if decide (a <= x < a + 128 * 4096 \/ b <= x < b + 4096) then 0 else f x.
Proof.
  intros P1 P2 x Hx. rewrite P2, P1 by lia. destruct (decide (a <= x < a + 128 * 4096 \/ b <= x < b + 4096)) as [Hd|Hd].
  - case_decide; [reflexivity|]. rewrite decide_True by lia. reflexivity.
  - rewrite !decide_False by lia. reflexivity.
Qed.

(** A thread's pages come and go: the user addresses of its stack and of its
    TLS page are mapped while it lives and unmapped after its exit, all others keep
    their translation through both, and the 129 frames it had are on the free
    stack again.  Only the page tables made for them stay. *)
Theorem thread_pages_returned R sl id v v' :
  window USER_LO USER_HI R v -> (sl < 64)%nat -> thread_pages sl id v = Some (true, v') ->
  let w := drop_thread_pages sl (tls_vaddr sl) v' in
  (forall p, p mod 4096 = 0 -> thread_page sl p -> vmm_get_phys p v' <> 0 /\ vmm_get_phys p w = 0) /\
  (forall x, USER_LO <= x < USER_HI -> ~ thread_page sl x ->
     vmm_get_phys x v' = vmm_get_phys x v /\ vmm_get_phys x w = vmm_get_phys x v) /\
  exists G, length G = 129%nat /\ free_pages_stack w = G ++ free_pages_stack v'.
Proof.
  intros Hw Hsl E w. destruct (thread_mapped R sl id v v' Hw Hsl E) as (F & Hw1 & Hmap & Hsame).
  destruct (tstack_place sl Hsl) as (Hal & Hbelow & Hlo & Hhi). destruct (tls_page sl Hsl) as (Tal & Tlo & Thi).
  set (a := tstack_vaddr sl) in *. set (b := tls_vaddr sl) in *.
  destruct (block_returned (F ++ R) v' a 128 Hw1 Hal Hlo ltac:(lia)) as (R1 & G1 & L1 & W1 & F1 & P1).
  { intros p Hp Hr. apply Hmap; [done|]. left. unfold a in *. lia. }
  set (v1 := unmap_pages_loop 128 0 a v') in *.
  destruct (block_returned R1 v1 b 1 W1 Tal Tlo ltac:(lia)) as (R2 & G2 & L2 & _ & F2 & P2).
  { intros p Hp Hr. unfold USER_LO, USER_HI in *. rewrite P1, decide_False by lia. apply Hmap; [done|]. right. unfold b in *. lia. }
  assert (Ew : w = unmap_pages_loop 1 0 b v1).
  { apply drop_thread_pages_runs. unfold b. rewrite (tls_vaddr_eq sl Hsl). unfold THREAD_TLS_VADDR. lia. }
  clearbody w. subst w. set (w := unmap_pages_loop 1 0 b v1) in *. clearbody v1 w.
  pose proof (blocks_unmapped a b _ _ _ P1 P2) as Hp. unfold USER_LO, USER_HI in *.
  split; [|split].
  - intros p Hpp Ht. split; [by apply Hmap|]. unfold thread_page in Ht. fold a b in Ht.
    rewrite Hp, decide_True by (done || lia). done.
  - intros x Hx Hno. split; [by apply Hsame|]. pose proof Hno as Hno'. unfold thread_page in Hno'. fold a b in Hno'.
    rewrite Hp, decide_False by (done || lia). by apply Hsame.
  - exists (G2 ++ G1). split; [rewrite length_app; lia|]. by rewrite F2, F1, app_assoc.
Qed.

(** ** Witnesses *)

Section witnesses.
#[local] Instance small_heap : KernelHeap kheap := kheap_KernelHeap 2097152 1 0.
#[local] Instance small_heap_spec : KernelHeapSpec kheap := kheap_KernelHeapSpec 2097152 1 0.

Definition parent_task : task_t :=
  Task 1 0 1 0 TASK_RUNNING TASK_RING3 0 4194304 0 0 0 0 (replicate 32 0) 0 false None 0
    (replicate MAX_FDS null_slot) 0.

(** A process with a free slot beside it, a fresh heap, and a saved SS. *)
Definition small (v : vm) : proc (H := kheap) :=
  Proc (Io [parent_task; null_task] 0 [] [] (fs_heap kheap_boot fs_df) (Vfs ∅ 0 [])) (user_heap_boot v kheap_boot) 2 true
    {[ syscall_frame 4194304 + 152 := 0x23 ]}.

Lemma small_heap_ok v : heap_ok (kernel_heap (small v)).
Proof. cbn. exact (kheap_boot_ok 2097152). Qed.

Lemma fork_fails_witness : exists p', sys_fork 0 (small (Vm ∅ [] 0)) = (3, p') /\
  live (kernel_heap p') = live (kernel_heap (small (Vm ∅ [] 0))).
Proof.
  destruct (sys_fork 0 (small (Vm ∅ [] 0))) as [r p'] eqn:E.
  assert (Hst : t_state (slot (q_tasks p') 1) = TASK_FREE).
  { apply (f_equal (fun x => t_state (slot (q_tasks (snd x)) 1))) in E. cbn [snd] in E. rewrite <-E. vm_compute. reflexivity. }
  destruct (fork_fails 0 (small (Vm ∅ [] 0)) 1 r p' (small_heap_ok _) eq_refl eq_refl E Hst) as (-> & _ & Hl & _).
  exists p'. exact (conj eq_refl Hl).
Defined.

(** The child's SS is what its stack held, 0, and not the parent's. *)
Lemma fork_child_frame_witness : exists r p', sys_fork (syscall_frame 4194304) (small user_space) = (r, p') /\
  word p' (t_rsp (slot (q_tasks p') 1) + 8 * 19) = word (small user_space) (t_rsp (slot (q_tasks p') 1) + 8 * 19) /\
  word (small user_space) (syscall_frame 4194304 + 152) = 0x23.
Proof.
  destruct (sys_fork (syscall_frame 4194304) (small user_space)) as [r p'] eqn:E. exists r, p'. split; [exact eq_refl|].
  assert (Hch : (t_state (slot (q_tasks p') 1), t_kstack (slot (q_tasks p') 1)) = (TASK_READY, 2097176)).
  { apply (f_equal (fun x => (t_state (slot (q_tasks (snd x)) 1), t_kstack (slot (q_tasks (snd x)) 1)))) in E. cbn [snd] in E.
    rewrite <-E. vm_compute. reflexivity. }
  pose proof (f_equal fst Hch) as Hst. pose proof (f_equal snd Hch) as Hks. cbn [fst snd] in Hst, Hks.
  split; [|vm_compute; reflexivity].
  refine (fork_child_frame (small user_space) 1 r p' 19 eq_refl eq_refl E Hst _ _ _ _).
  - split_and!; vm_compute; (reflexivity || discriminate).
  - rewrite Hks. split_and!; vm_compute; (reflexivity || discriminate).
  - rewrite Hks. right. vm_compute. discriminate.
  - lia.
Defined.

Lemma small_thread : exists p', create_user_thread 0x400000 1 2 (small roomy_space) = Some (2, p') /\
  t_state (slot (q_tasks p') 1) = TASK_READY /\ t_kstack (slot (q_tasks p') 1) = 2097176 /\
  q_words p' = push_words (abi_stack_top 2097176 KERNEL_STACK_SIZE) (entry_frame 0x400000 (abi_stack_top (tstack_vaddr 1) THREAD_STACK_SIZE) 1 2) (q_words (small roomy_space)).
Proof.
  destruct (thread_pages_enough [] 1 2 roomy_space) as [v Ev].
  - apply window_empty; [apply roomy_wf|]. intros a _. apply roomy_unmapped.
  - lia.
  - apply Z.leb_le. vm_compute. reflexivity.
  - unfold create_user_thread. change (negb (q_enabled (small roomy_space))) with false. cbv iota.
    change ((0x400000 =? 0) || (0x800000000000 <=? 0x400000)) with false. cbv iota zeta.
    change (bool_decide (t_ring (cur (small roomy_space)) <> TASK_RING3) || (t_group (cur (small roomy_space)) <=? 0)) with false.
    cbv iota. change (free_slot (small roomy_space)) with (Some 1%nat). cbv iota.
    change (q_next_id (small roomy_space)) with 2. set (p1 := upd_slot 1 _ _).
    destruct (kstack_new p1) as [o q] eqn:Ek.
    assert (Eo : o = Some 2097176) by (apply (f_equal fst) in Ek; vm_compute in Ek; by rewrite <-Ek). subst o.
    apply take_heap_inv in Ek as [Eq _]. change (UserHeap.mem (q_uh (upd_slot 1 (with_kstack 2097176) q))) with (UserHeap.mem (q_uh q)).
    assert (Eq' : UserHeap.mem (q_uh q) = roomy_space) by (by rewrite Eq). rewrite Eq', Ev. cbn [mbind option_bind negb].
    eexists. split; [reflexivity|].
    assert (Hq : exists t, q_tasks q !! 1%nat = Some t) by (rewrite Eq; by eexists). destruct Hq as [t Hq].
    unfold slot, upd_slot, q_tasks, on_io in *. cbn [q_io on_words put_mem on_uh io_tasks set_iotasks].
    rewrite list_lookup_alter_eq, list_lookup_alter_eq, Hq. split; [done|]. split; [done|].
    cbn [on_io on_words q_words put_mem on_uh]. by rewrite Eq.
Qed.

Lemma thread_stops_machine_witness : exists p', create_user_thread 0x400000 1 2 (small roomy_space) = Some (2, p') /\
  schedule 0 0 0 (Kernel (H := kheap) (q_tasks p') 1 3 true 0 0 0 (Cpu 0 0 0) (KMem kheap_boot (q_words p') ∅ ∅) 0) = None.
Proof.
  destruct small_thread as (p' & E & Hst & Hks & Hw). exists p'. split; [exact E|].
  refine (thread_stops_machine 0x400000 1 2 (small roomy_space) 1 2 p'
    (Kernel (H := kheap) (q_tasks p') 1 3 true 0 0 0 (Cpu 0 0 0) (KMem kheap_boot (q_words p') ∅ ∅) 0) 0 0 0 eq_refl E Hst _ _ eq_refl eq_refl eq_refl eq_refl).
  - rewrite Hks. split_and!; vm_compute; (reflexivity || discriminate).
  - rewrite Hks. vm_compute. discriminate.
Defined.

Lemma thread_pages_returned_witness : exists v', thread_pages 1 2 roomy_space = Some (true, v') /\
  vmm_get_phys (tls_vaddr 1) (drop_thread_pages 1 (tls_vaddr 1) v') = 0.
Proof.
  assert (Hw : window USER_LO USER_HI [] roomy_space) by (apply window_empty; [apply roomy_wf|intros a _; apply roomy_unmapped]).
  destruct (thread_pages_enough [] 1 2 roomy_space Hw) as [v Ev]; [lia|apply Z.leb_le; vm_compute; reflexivity|].
  exists v. split; [exact Ev|].
  pose proof (proj1 (thread_pages_returned [] 1 2 roomy_space v Hw ltac:(lia) Ev) (tls_vaddr 1)) as Hp.
  refine (proj2 (Hp _ _)); [reflexivity|]. right. lia.
Defined.
End witnesses.
