(* ===== verification/Futex.v ===== *)
(** Threads and futexes of the system calls: [k_sys_futex], [k_sys_thread],
    [k_sys_wait] and [k_sys_exit] of src/kernel/syscall.c.  The gate of int 0x80
    clears the interrupt flag, so a call runs to its end or to its [yield]; a
    call that sleeps is two definitions, one up to [yield] and one from there. *)
From Stdlib Require Import ZArith Lia.
From stdpp Require Import base numbers list gmap strings.
From S2P Require Import Prelude HeapIface Fs Persist Ring Task Pty Fd Vmm UserMem Elf UserHeap Fork Spawn Proc.

Definition EIGEN_FUTEX_WAIT : Z := 0.
Definition EIGEN_FUTEX_WAKE : Z := 1.
Definition EIGEN_THREAD_CREATE : Z := 0.
Definition EIGEN_THREAD_EXIT : Z := 1.
Definition EIGEN_THREAD_JOIN : Z := 2.
Definition EIGEN_THREAD_YIELD : Z := 3.
Definition EIGEN_ERR_NOPROC : Z := -5.

Definition user_ptr_ok (p : Z) : bool := (0x1000 <=? p) && (p <? 0x800000000000).

Definition with_futex (a : Z) (t : task_t) : task_t :=
  Task (t_id t) (t_ppid t) (t_group t) (t_exit_code t) (t_state t) (t_ring t) (t_rsp t) (t_kstack t)
    (t_ustack t) (t_pml4 t) (t_fs_base t) a (t_handlers t) (t_pending t) (t_in_handler t)
    (t_sig_save t) (t_sleep_until t) (t_fds t) (t_cwd t).

(** ** Futexes *)

Definition FOREVER : Z := 0xFFFFFFFFFFFFFFFF.

(** The sum of a wait with a timeout is a [uint32_t]. *)
Definition futex_until (now timeout_ms : Z) : Z :=
  if timeout_ms =? 0 then FOREVER else u32 (now + u32 timeout_ms).

(** A call either returns or sleeps in [yield]. *)
Inductive futex_result := Returns (r : Z) | Sleeps.

(** EIGEN_FUTEX_WAIT of the task in slot [cur]; [word] is the int at [addr]. *)
Definition futex_wait (cur : nat) (addr val timeout_ms now word : Z) (l : list task_t) :
    futex_result * list task_t :=
  let l := alter (fun t => asleep (futex_until now timeout_ms) (with_futex addr t)) cur l in
  if word =? i32 val then (Sleeps, l)
  else (Returns 0, alter (fun t => with_state TASK_READY (with_futex 0 t)) cur l).

(** What follows the [yield]: 1 when nobody woke the task. *)
Definition futex_woken (cur : nat) (addr : Z) (l : list task_t) : Z * list task_t :=
  if t_futex (slot l cur) =? addr then (1, alter (with_futex 0) cur l) else (0, l).

Definition futex_waiter (g addr : Z) (t : task_t) : bool :=
  bool_decide (t_state t = TASK_SLEEPING) && (t_futex t =? addr) && (t_group t =? g).

Definition futex_awake (t : task_t) : task_t := with_futex 0 (with_state TASK_READY t).

(** The loop of EIGEN_FUTEX_WAKE over the slots that are left. *)
Fixpoint wake_loop (g addr n woken : Z) (l : list task_t) : Z * list task_t :=
  match l with
  | [] => (woken, [])
  | t :: l' =>
      if woken <? n then
        if futex_waiter g addr t
        then let '(r, l') := wake_loop g addr n (woken + 1) l' in (r, futex_awake t :: l')
        else let '(r, l') := wake_loop g addr n woken l' in (r, t :: l')
      else (woken, l)
  end.

(** Slot 0 is never woken. *)
Definition futex_wake (cur : nat) (addr val : Z) (l : list task_t) : Z * list task_t :=
  let n := if i32 val <=? 0 then 1 else i32 val in
  let t := slot l cur in
  let g := if 0 <? t_group t then t_group t else t_id t in
  let '(r, l') := wake_loop g addr n 0 (tail l) in
  (r, take 1 l ++ l').

Definition k_sys_futex (op addr val timeout_ms : Z) (cur : nat) (now word : Z) (l : list task_t) :
    futex_result * list task_t :=
  if bool_decide (t_ring (slot l cur) <> TASK_RING3) then (Returns EIGEN_ERR_INVAL, l) else
  if negb (user_ptr_ok addr) then (Returns EIGEN_ERR_INVAL, l) else
  if op =? EIGEN_FUTEX_WAIT then futex_wait cur addr val timeout_ms now word l else
  if op =? EIGEN_FUTEX_WAKE then let '(r, l) := futex_wake cur addr val l in (Returns r, l) else
  (Returns EIGEN_ERR_INVAL, l).

(** ** Threads *)

Section Threads.
Context {H : Type} `{!KernelHeap H}.

(** The result of a system call that may not come back to its caller. *)
Inductive thread_result := TReturns (r : Z) | TGone | TWaits.

(** One pass of the wait loops of join and wait. *)
Definition join_pass (id : Z) (l : list task_t) : thread_result :=
  match find_from (fun _ t => (t_id t =? id) && negb (bool_decide (t_state t = TASK_FREE))) 0 l with
  | None => TReturns EIGEN_ERR_NOPROC
  | Some i =>
      if bool_decide (t_state (slot l i) = TASK_DEAD) then TReturns (u32 (t_exit_code (slot l i))) else TWaits
  end.

Definition k_sys_wait (pid : Z) (p : proc (H := H)) : thread_result := join_pass (i32 pid) (q_tasks p).

Definition k_sys_thread (op a b c : Z) (p : proc (H := H)) : option (thread_result * proc) :=
  if op =? EIGEN_THREAD_CREATE then
    if (a =? 0) || (0x800000000000 <=? a) then Some (TReturns EIGEN_ERR_INVAL, p) else
    if (b =? 0) || (0x800000000000 <=? b) then Some (TReturns EIGEN_ERR_INVAL, p) else
    '(r, p) ← create_user_thread a b c p; Some (TReturns r, p)
  else if op =? EIGEN_THREAD_EXIT then p ← thread_exit_task (i32 a) p; Some (TGone, p)
  else if op =? EIGEN_THREAD_JOIN then Some (join_pass (i32 a) (q_tasks p), p)
  else if op =? EIGEN_THREAD_YIELD then Some (TReturns 0, p)
  else Some (TReturns EIGEN_ERR_INVAL, p).

Definition k_sys_exit (code : Z) (p : proc (H := H)) : option proc :=
  let g := t_group (cur p) in
  let p := if 0 <? g then on_io (fun s => set_iotasks (strand g (io_tasks s)) s) p else p in
  exit_task (i32 code) p.
End Threads.
