(* ===== verification/FutexProps.v ===== *)
(** What the futex calls do to the table of tasks: a wake rouses the first
    waiters of the caller's process in slot order and nobody else, a wait sleeps
    exactly when the word still has the expected value, and a timeout that runs
    past the end of the millisecond counter is over at once. *)
From Stdlib Require Import ZArith Lia.
From stdpp Require Import base numbers list sets.
From S2P Require Import Prelude Task Futex.

(** ** Slots *)

Lemma slot_alter_ne f i l j : j <> i -> slot (alter f i l) j = slot l j.
Proof. intros Hne. unfold slot. by rewrite list_lookup_alter_ne. Qed.

Lemma slot_alter_at f i l : (i < length l)%nat -> slot (alter f i l) i = f (slot l i).
Proof. intros [t Ht]%lookup_lt_is_Some_2. unfold slot. by rewrite list_lookup_alter_eq, Ht. Qed.

Lemma slot_map f l i : f null_task = null_task -> slot (map f l) i = f (slot l i).
Proof. intros Hf. unfold slot. rewrite list_lookup_fmap. by destruct (l !! i). Qed.

(** ** Waking *)

(** The slots of the tasks that wait for [addr] in group [g], in order. *)
Definition waiting (g addr : Z) (l : list task_t) : list nat :=
  filter (fun i => futex_waiter g addr (slot l i) = true) (seq 0 (length l)).

Lemma waiting_cons g addr t l :
  waiting g addr (t :: l) = (if futex_waiter g addr t then [0%nat] else []) ++ (S <$> waiting g addr l).
Proof.
  unfold waiting. cbn [length seq]. rewrite filter_cons, <-fmap_S_seq.
  assert (E : forall k : list nat, filter (fun i => futex_waiter g addr (slot (t :: l) i) = true) (S <$> k) =
    S <$> filter (fun i => futex_waiter g addr (slot l i) = true) k).
  { induction k as [|j k IH]; [done|]. rewrite fmap_cons, !filter_cons, IH. change (slot (t :: l) (S j)) with (slot l j).
    by case_decide. }
  rewrite E. change (slot (t :: l) 0) with t. destruct (futex_waiter g addr t); [by rewrite decide_True|by rewrite decide_False].
Qed.

(** The slots of [l], [ws] of them woken. *)
Definition roused (ws : list nat) (l l' : list task_t) : Prop :=
  length l' = length l /\
  forall i, slot l' i = if decide (i ∈ ws) then futex_awake (slot l i) else slot l i.

Lemma roused_cons (ws : list nat) (b : bool) t l l' :
  roused ws l l' -> roused ((if b then [0%nat] else []) ++ (S <$> ws)) (t :: l) ((if b then futex_awake t else t) :: l').
Proof.
  intros [Hl Hs]. split; [cbn; lia|]. intros [|i].
  - change (slot (?x :: _) 0) with x. destruct b; [by rewrite decide_True by set_solver|].
    rewrite decide_False; [done|]. rewrite app_nil_l. intros (? & ? & ?)%list_elem_of_fmap. done.
  - change (slot (_ :: ?k) (S i)) with (slot k i). rewrite Hs.
    apply decide_ext. rewrite elem_of_app, (list_elem_of_fmap_inj S). destruct b; set_solver.
Qed.

Lemma wake_loop_spec g addr n l : forall w r l', 0 <= w -> wake_loop g addr n w l = (r, l') ->
  roused (take (Z.to_nat (n - w)) (waiting g addr l)) l l' /\
  r = w + Z.of_nat (length (take (Z.to_nat (n - w)) (waiting g addr l))).
Proof.
  induction l as [|t l IH]; intros w r l' Hw; cbn [wake_loop].
  - intros [= <- <-]. unfold waiting. cbn [length seq]. rewrite filter_nil, take_nil.
    split; [|cbn [length]; lia]. split; [done|]. intros i. by rewrite decide_False by apply not_elem_of_nil.
  - rewrite waiting_cons. destruct (Z.ltb_spec w n) as [Hn|Hn].
    + destruct (futex_waiter g addr t) eqn:Ew.
      * destruct (wake_loop g addr n (w + 1) l) as [r1 l1] eqn:E1. intros [= <- <-].
        destruct (IH (w + 1) r1 l1 ltac:(lia) E1) as [Hr ->]. replace (Z.to_nat (n - w)) with (S (Z.to_nat (n - (w + 1)))) by lia.
        cbn [app take]. rewrite <-fmap_take. split; [exact (roused_cons _ true t _ _ Hr)|].
        cbn [length]. rewrite length_fmap. lia.
      * destruct (wake_loop g addr n w l) as [r1 l1] eqn:E1. intros [= <- <-].
        destruct (IH _ _ _ Hw E1) as [Hr ->]. cbn [app]. rewrite <-fmap_take.
        split; [exact (roused_cons _ false t _ _ Hr)|]. by rewrite length_fmap.
    + intros [= <- <-]. replace (Z.to_nat (n - w)) with 0%nat by lia. rewrite take_0. split; [|cbn; lia].
      split; [done|]. intros i. by rewrite decide_False by apply not_elem_of_nil.
Qed.

(** The process of the caller, and the number of waiters it asks for. *)
Definition wake_group (t : task_t) : Z := if 0 <? t_group t then t_group t else t_id t.
Definition wake_count (val : Z) : nat := Z.to_nat (if i32 val <=? 0 then 1 else i32 val).

(** The waiters behind slot 0, which is never woken, in the order of the slots. *)
Definition wakeable (g addr : Z) (l : list task_t) : list nat :=
  filter (fun i => futex_waiter g addr (slot l i) = true) (seq 1 (length l - 1)).

Lemma wakeable_waiting g addr l : wakeable g addr l = S <$> waiting g addr (tail l).
Proof.
  unfold wakeable, waiting. destruct l as [|t l]; [done|]. cbn [length tail]. rewrite Nat.sub_succ, Nat.sub_0_r, <-fmap_S_seq.
  generalize (seq 0 (length l)). intros k. induction k as [|j k IH]; [done|].
  rewrite fmap_cons, !filter_cons, IH. change (slot (t :: l) (S j)) with (slot l j). by case_decide.
Qed.

Lemma elem_of_wakeable g addr l i : i ∈ wakeable g addr l <->
  (1 <= i < length l)%nat /\ t_state (slot l i) = TASK_SLEEPING /\ t_futex (slot l i) = addr /\ t_group (slot l i) = g.
Proof.
  unfold wakeable. rewrite list_elem_of_filter, elem_of_seq. unfold futex_waiter.
  rewrite !andb_true_iff, bool_decide_eq_true, !Z.eqb_eq. split; intros ?; split_and!; naive_solver lia.
Qed.

Lemma futex_wake_roused cur addr val l r l' : futex_wake cur addr val l = (r, l') ->
  let ws := take (wake_count val) (wakeable (wake_group (slot l cur)) addr l) in
  roused ws l l' /\ r = Z.of_nat (length ws).
Proof.
  unfold futex_wake. cbv zeta. fold (wake_group (slot l cur)).
  destruct (wake_loop _ addr _ 0 (tail l)) as [r1 l1] eqn:E. intros [= <- <-].
  apply wake_loop_spec in E as [Hr ->]; [|lia]. rewrite Z.sub_0_r in *. fold (wake_count val) in *.
  rewrite wakeable_waiting, <-fmap_take. split; [|rewrite length_fmap; lia].
  destruct l as [|t l]; [|exact (roused_cons _ false t _ _ Hr)].
  destruct Hr as [Hl _]. destruct l1; [|done]. split; [done|]. intros i. cbn. by rewrite take_nil.
Qed.

(** ** What a call leaves of a slot *)

(** Asleep on [addr] without a timeout. *)
Definition parked (addr : Z) (t : task_t) : Prop :=
  t_state t = TASK_SLEEPING /\ t_futex t = addr /\ t_sleep_until t = FOREVER.

Lemma futex_wait_other cur addr val tmo now word l r l' j :
  futex_wait cur addr val tmo now word l = (r, l') -> j <> cur -> slot l' j = slot l j.
Proof. unfold futex_wait. cbv zeta. intros E Hj. case_match; injection E as _ <-; by rewrite !slot_alter_ne. Qed.

Lemma futex_wait_length cur addr val tmo now word l r l' :
  futex_wait cur addr val tmo now word l = (r, l') -> length l' = length l.
Proof. unfold futex_wait. cbv zeta. intros E. case_match; injection E as _ <-; by rewrite !length_alter. Qed.

Lemma futex_wake_slot cur addr val l r l' j : futex_wake cur addr val l = (r, l') ->
  slot l' j = slot l j \/
  (t_state (slot l j) = TASK_SLEEPING /\ t_futex (slot l j) = addr /\ slot l' j = futex_awake (slot l j)).
Proof.
  intros [[_ Hs] _]%futex_wake_roused. rewrite Hs. case_decide as Hd; [|by left]. right.
  apply (subseteq_take (wake_count val)), elem_of_wakeable in Hd. naive_solver.
Qed.

Lemma wake_parked addr now t : parked addr t -> wake (u32 now) t = t.
Proof.
  intros (_ & _ & Hu). unfold wake. pose proof (wrap_bounds 32 now ltac:(lia)).
  rewrite Hu, (proj2 (Z.leb_gt _ _)), andb_false_r; [done|]. unfold FOREVER. lia.
Qed.

(** ** The calls *)

(** EIGEN_FUTEX_WAKE is a wake of the queue of the address: of the tasks of
    the caller's process that sleep on it it makes the first ones ready, in the
    order of their slots and not more than asked for (one, when asked for none or
    fewer), clears their futex address and returns how many it woke.  All other
    slots are as before, slot 0 and other processes included. *)
Theorem futex_wake_first cur addr val tmo now word l r l' :
  t_ring (slot l cur) = TASK_RING3 -> user_ptr_ok addr = true ->
  k_sys_futex EIGEN_FUTEX_WAKE addr val tmo cur now word l = (r, l') ->
  let ws := take (wake_count val) (wakeable (wake_group (slot l cur)) addr l) in
  r = Returns (Z.of_nat (length ws)) /\ length l' = length l /\
  forall i, slot l' i = if decide (i ∈ ws) then futex_awake (slot l i) else slot l i.
Proof.
  intros Hr Ha. unfold k_sys_futex. rewrite bool_decide_eq_false_2 by (intros X; exact (X Hr)). rewrite Ha. cbn [negb].
  change (EIGEN_FUTEX_WAKE =? EIGEN_FUTEX_WAIT) with false. change (EIGEN_FUTEX_WAKE =? EIGEN_FUTEX_WAKE) with true. cbv iota.
  destruct (futex_wake cur addr val l) as [n l1] eqn:E. intros Heq.
  apply pair_equal_spec in Heq as [<- <-]. apply futex_wake_roused in E as [[Hl Hs] ->]. exact (conj eq_refl (conj Hl Hs)).
Qed.

(** A wait with a timeout that runs past the end of the counter: the next tick
    ends it, and the result says that the time is over. *)
Lemma futex_timeout_wraps cur addr val tmo now word l l' :
  (cur < length l)%nat -> 0 <= now < 2 ^ 32 -> 2 ^ 32 - now <= tmo < 2 ^ 32 ->
  futex_wait cur addr val tmo now word l = (Sleeps, l') ->
  exists l2, futex_woken cur addr (map (wake now) l') = (1, l2) /\ t_state (slot l2 cur) = TASK_READY.
Proof.
  intros Hc Hn Ht. unfold futex_wait, futex_until. cbv zeta. rewrite (proj2 (Z.eqb_neq tmo 0)) by lia.
  rewrite (wrap_small 32 tmo) by lia. assert (Hu : u32 (now + tmo) <= now).
  { unfold wrap. replace (now + tmo) with (now + tmo - 2 ^ 32 + 1 * 2 ^ 32) by lia. rewrite Z_mod_plus_full, Z.mod_small; lia. }
  case_match; [|discriminate]. intros E. assert (l' = alter (fun t => asleep (u32 (now + tmo)) (with_futex addr t)) cur l) as -> by congruence.
  assert (Hs : slot (map (wake now) (alter (fun t => asleep (u32 (now + tmo)) (with_futex addr t)) cur l)) cur =
    with_state TASK_READY (asleep (u32 (now + tmo)) (with_futex addr (slot l cur)))).
  { rewrite slot_map, slot_alter_at by done. unfold wake. cbn [t_state asleep t_sleep_until].
    rewrite bool_decide_eq_true_2, (proj2 (Z.leb_le _ _) Hu) by done. done. }
  unfold futex_woken. rewrite Hs. change (t_futex (with_state _ (asleep _ (with_futex addr _)))) with addr.
  rewrite Z.eqb_refl. eexists. split; [done|]. rewrite slot_alter_at by (by rewrite length_map, length_alter). by rewrite Hs.
Qed.

Definition sleeping_task (id group addr : Z) : task_t :=
  with_futex addr (asleep FOREVER (Task id 1 group 0 TASK_READY TASK_RING3 0 0 0 0 0 0 (replicate 32 0) 0 false None 0 [] 0)).

(** Two of the three waiters of process 4 are woken, the one of process 5 is not. *)
Lemma futex_wake_first_witness :
  let l := [null_task; with_state TASK_RUNNING (sleeping_task 4 4 0); sleeping_task 5 5 0x2000;
            sleeping_task 6 4 0x2000; sleeping_task 7 4 0x2000; sleeping_task 8 4 0x2000] in
  exists l', k_sys_futex EIGEN_FUTEX_WAKE 0x2000 2 0 1 0 0 l = (Returns 2, l') /\
  (fun i => t_state (slot l' i)) <$> seq 1 5 = [TASK_RUNNING; TASK_SLEEPING; TASK_READY; TASK_READY; TASK_SLEEPING].
Proof.
  cbv zeta. set (l := [null_task; _; _; _; _; _]). destruct (k_sys_futex EIGEN_FUTEX_WAKE 0x2000 2 0 1 0 0 l) as [r l'] eqn:E.
  destruct (futex_wake_first 1 0x2000 2 0 0 0 l r l' eq_refl eq_refl E) as (-> & _ & Hs). exists l'.
  split; [reflexivity|]. cbn [fmap list_fmap seq]. rewrite !Hs. vm_compute. reflexivity.
Defined.
