(* ===== verification/Pthread.v ===== *)
(** The synchronisation primitives of src/user/lib/pthread/pthread.c over the
    futexes of the kernel.  A thread is a slot of the task table; a step is one
    atomic access or one system call of one thread, in any order (one processor,
    preempted between any two of them).  Words of the shared memory are fields;
    their addresses are arguments, since the kernel compares them. *)
From Stdlib Require Import ZArith Lia.
From stdpp Require Import base numbers list relations functions.
From S2P Require Import Prelude Task Futex.

(** The helpers [futex_wait] and [futex_wake] of the library, for the thread in
    slot [i].  Without a timeout the time does not matter. *)
Definition wait_on (i : nat) (addr val word : Z) (l : list task_t) : futex_result * list task_t :=
  k_sys_futex EIGEN_FUTEX_WAIT addr val 0 i 0 word l.
Definition wake_on (i : nat) (addr n : Z) (l : list task_t) : list task_t :=
  snd (k_sys_futex EIGEN_FUTEX_WAKE addr n 0 i 0 0 l).

(** A thread that sleeps takes no step; a woken one comes back from its [yield]. *)
Definition woken (i : nat) (addr : Z) (l : list task_t) : option (list task_t) :=
  if bool_decide (t_state (slot l i) = TASK_SLEEPING) then None
  else Some (snd (futex_woken i addr l)).

(** What the timer does to sleepers; [timer_get_ms] is a [uint32_t]. *)
Definition tick (now : Z) (l : list task_t) : list task_t := map (wake (u32 now)) l.

(** ** Mutexes *)

Record mutex := Mutex {
  locked : Z;
  waiters : Z;
  owner : Z;
  recursion : Z;         (* an int *)
  recursive : bool;      (* type == PTHREAD_MUTEX_RECURSIVE *)
}.

Definition pthread_mutex_init (rec : bool) : mutex := Mutex 0 0 0 0 rec.

Definition set_locked (v : Z) (m : mutex) : mutex := Mutex v (waiters m) (owner m) (recursion m) (recursive m).
Definition set_waiters (v : Z) (m : mutex) : mutex := Mutex (locked m) v (owner m) (recursion m) (recursive m).
Definition set_owner (v : Z) (m : mutex) : mutex := Mutex (locked m) (waiters m) v (recursion m) (recursive m).
Definition set_recursion (v : Z) (m : mutex) : mutex := Mutex (locked m) (waiters m) (owner m) v (recursive m).

(** Where a thread is in a call; [d] is how many times it has the mutex. *)
Inductive mutex_pc :=
  | M_idle (d : nat)
  | L_owner (d : nat)      (* if (m->owner == self) *)
  | L_xchg (d : nat)
  | L_own (d : nat)        (* m->owner = self *)
  | L_count (d : nat)      (* m->recursion = 1 *)
  | L_flag (d : nat)       (* m->waiters = 1 *)
  | L_wait (d : nat)
  | L_sleep (d : nat)
  | T_owner (d : nat)
  | T_xchg (d : nat)
  | U_owner (d : nat)
  | U_clear (d : nat)      (* m->owner = 0 *)
  | U_store (d : nat)      (* m->locked = 0 *)
  | U_xchg (d : nat)
  | U_wake (d : nat).

Inductive mutex_op := op_lock | op_trylock | op_unlock.

(** A call.  Only a thread that has the mutex unlocks it. *)
Definition mutex_call (op : mutex_op) (rec : bool) (d : nat) : option mutex_pc :=
  match op with
  | op_lock => Some (if rec then L_owner d else L_xchg d)
  | op_trylock => Some (if rec then T_owner d else T_xchg d)
  | op_unlock => match d with O => None | _ => Some (if rec then U_owner d else U_store d) end
  end.

(** The next step of [pthread_mutex_lock], [pthread_mutex_trylock] and
    [pthread_mutex_unlock]; [self] is [pthread_self()]. *)
Definition mutex_step (self addr : Z) (i : nat) (pc : mutex_pc) (m : mutex) (l : list task_t) :
    option (mutex_pc * mutex * list task_t) :=
  match pc with
  | M_idle _ => None
  | L_owner d =>
      Some (if owner m =? self then (M_idle (S d), set_recursion (i32 (recursion m + 1)) m, l) else (L_xchg d, m, l))
  | L_xchg d =>
      Some (if locked m =? 0 then (if recursive m then L_own d else M_idle (S d), set_locked 1 m, l)
            else (L_flag d, set_locked 1 m, l))
  | L_own d => Some (L_count d, set_owner self m, l)
  | L_count d => Some (M_idle (S d), set_recursion 1 m, l)
  | L_flag d => Some (L_wait d, set_waiters 1 m, l)
  | L_wait d =>
      let '(r, l) := wait_on i addr 1 (locked m) l in
      Some (match r with Returns _ => L_xchg d | Sleeps => L_sleep d end, m, l)
  | L_sleep d => l ← woken i addr l; Some (L_xchg d, m, l)
  | T_owner d =>
      Some (if owner m =? self then (M_idle (S d), set_recursion (i32 (recursion m + 1)) m, l) else (T_xchg d, m, l))
  | T_xchg d =>
      Some (if locked m =? 0 then (if recursive m then L_own d else M_idle (S d), set_locked 1 m, l)
            else (M_idle d, set_locked 1 m, l))
  | U_owner d =>
      Some (if owner m =? self then
              (if 0 <? i32 (recursion m - 1) then M_idle (pred d) else U_clear d, set_recursion (i32 (recursion m - 1)) m, l)
            else (U_store d, m, l))
  | U_clear d => Some (U_store d, set_owner 0 m, l)
  | U_store d => Some (U_xchg (pred d), set_locked 0 m, l)
  | U_xchg d => Some (if waiters m =? 1 then U_wake d else M_idle d, set_waiters 0 m, l)
  | U_wake d => Some (M_idle d, m, wake_on i addr 1 l)
  end.

(** Threads that share one mutex. *)
Record mutex_sys := MSys { ms_mutex : mutex; ms_tasks : list task_t; ms_pcs : nat -> mutex_pc }.

Definition mutex_start (rec : bool) (l : list task_t) : mutex_sys :=
  MSys (pthread_mutex_init rec) l (fun _ => M_idle 0).

(** Thread [i] goes on; between two calls it makes the call [op]. *)
Definition mutex_run (self : nat -> Z) (addr : Z) (op : mutex_op) (i : nat) (s : mutex_sys) : option mutex_sys :=
  match ms_pcs s i with
  | M_idle d => pc ← mutex_call op (recursive (ms_mutex s)) d; Some (MSys (ms_mutex s) (ms_tasks s) (<[i := pc]> (ms_pcs s)))
  | pc => '(pc, m, l) ← mutex_step (self i) addr i pc (ms_mutex s) (ms_tasks s); Some (MSys m l (<[i := pc]> (ms_pcs s)))
  end.

Inductive mutex_steps (self : nat -> Z) (addr : Z) (who : nat -> Prop) : mutex_sys -> mutex_sys -> Prop :=
  | mutex_thread op i s s' :
      who i -> mutex_run self addr op i s = Some s' -> mutex_steps self addr who s s'
  | mutex_tick now s :
      mutex_steps self addr who s (MSys (ms_mutex s) (tick now (ms_tasks s)) (ms_pcs s)).

(** No thread has the mutex 2^31 times over, which its count could not hold. *)
Definition shallow (s : mutex_sys) : Prop := forall i d, ms_pcs s i = M_idle d -> Z.of_nat d < 2 ^ 31.

(** ** Semaphores *)

Inductive sem_pc :=
  | S_idle
  | W_load
  | W_cas (c : Z)
  | W_wait (c : Z)
  | W_sleep
  | TW_load
  | TW_cas (c : Z)
  | P_wake.

Inductive sem_op := op_wait | op_trywait | op_post.

(** [sem_init] with more than INT_MAX is EINVAL. *)
Definition sem_init (value : Z) : option Z := if 0x7FFFFFFF <? value then None else Some value.

(** The count, and for the theorems how many waits have succeeded and how many
    posts have been made. *)
Record sem_sys := SSys {
  ss_count : Z;
  ss_taken : Z;
  ss_posted : Z;
  ss_tasks : list task_t;
  ss_pcs : nat -> sem_pc;
}.

Definition sem_start (value : Z) (l : list task_t) : sem_sys := SSys value 0 0 l (fun _ => S_idle).

Definition sem_goto (i : nat) (pc : sem_pc) (s : sem_sys) : sem_sys :=
  SSys (ss_count s) (ss_taken s) (ss_posted s) (ss_tasks s) (<[i := pc]> (ss_pcs s)).
Definition sem_take (c : Z) (s : sem_sys) : sem_sys :=
  SSys (c - 1) (ss_taken s + 1) (ss_posted s) (ss_tasks s) (ss_pcs s).
Definition sem_add (s : sem_sys) : sem_sys :=
  SSys (i32 (ss_count s + 1)) (ss_taken s) (ss_posted s + 1) (ss_tasks s) (ss_pcs s).
Definition sem_table (l : list task_t) (s : sem_sys) : sem_sys :=
  SSys (ss_count s) (ss_taken s) (ss_posted s) l (ss_pcs s).

(** The next step of [sem_wait], [sem_trywait] and [sem_post].  A failed
    compare-and-exchange leaves the count it saw in [c]. *)
Definition sem_run (addr : Z) (op : sem_op) (i : nat) (s : sem_sys) : option sem_sys :=
  match ss_pcs s i with
  | S_idle =>
      Some (match op with
            | op_wait => sem_goto i W_load s
            | op_trywait => sem_goto i TW_load s
            | op_post => sem_goto i P_wake (sem_add s)
            end)
  | W_load => Some (sem_goto i (if 0 <? ss_count s then W_cas (ss_count s) else W_wait (ss_count s)) s)
  | W_cas c =>
      Some (if ss_count s =? c then sem_goto i S_idle (sem_take c s) else sem_goto i (W_wait (ss_count s)) s)
  | W_wait c =>
      let '(r, l) := wait_on i addr c (ss_count s) (ss_tasks s) in
      Some (sem_goto i (match r with Returns _ => W_load | Sleeps => W_sleep end) (sem_table l s))
  | W_sleep => l ← woken i addr (ss_tasks s); Some (sem_goto i W_load (sem_table l s))
  | TW_load => Some (sem_goto i (if 0 <? ss_count s then TW_cas (ss_count s) else S_idle) s)
  | TW_cas c => Some (sem_goto i S_idle (if ss_count s =? c then sem_take c s else s))
  | P_wake => Some (sem_goto i S_idle (sem_table (wake_on i addr 1 (ss_tasks s)) s))
  end.

Inductive sem_steps (addr : Z) (who : nat -> sem_op -> Prop) : sem_sys -> sem_sys -> Prop :=
  | sem_thread op i s s' : who i op -> sem_run addr op i s = Some s' -> sem_steps addr who s s'
  | sem_tick now s : sem_steps addr who s (sem_table (tick now (ss_tasks s)) s).

(** ** Condition variables *)

Definition TLS_MAX_KEYS : Z := 64.

(** A thread has the mutex (or is in a call of it), or is in a call of the
    condition variable; a wait makes calls of the mutex itself. *)
Inductive cond_pc :=
  | C_mutex (pc : mutex_pc)                (* outside, or in a call of the mutex *)
  | C_load (d : nat)                       (* int seq = c->seq *)
  | C_unlock (seq : Z) (pc : mutex_pc)
  | C_wait (seq : Z) (d : nat)
  | C_sleep (seq : Z) (d : nat)
  | C_lock (seq : Z) (pc : mutex_pc)
  | C_check (seq : Z) (d : nat)            (* c->seq != seq *)
  | C_wake (d : nat) (n : Z).

Inductive cond_op := op_mutex (op : mutex_op) | op_cond_wait | op_signal | op_broadcast.

Record cond_sys := CSys {
  cs_seq : Z;
  cs_mutex : mutex;
  cs_tasks : list task_t;
  cs_pcs : nat -> cond_pc;
}.

Definition cond_start (rec : bool) (l : list task_t) : cond_sys :=
  CSys 0 (pthread_mutex_init rec) l (fun _ => C_mutex (M_idle 0)).

Definition cond_goto (i : nat) (pc : cond_pc) (s : cond_sys) : cond_sys :=
  CSys (cs_seq s) (cs_mutex s) (cs_tasks s) (<[i := pc]> (cs_pcs s)).
Definition cond_bump (s : cond_sys) : cond_sys :=
  CSys (i32 (cs_seq s + 1)) (cs_mutex s) (cs_tasks s) (cs_pcs s).
Definition cond_table (l : list task_t) (s : cond_sys) : cond_sys :=
  CSys (cs_seq s) (cs_mutex s) l (cs_pcs s).
Definition cond_mutex (m : mutex) (s : cond_sys) : cond_sys :=
  CSys (cs_seq s) m (cs_tasks s) (cs_pcs s).

(** A step inside a call of the mutex; [k] puts the new place into the caller's. *)
Definition cond_in_mutex (self : nat -> Z) (maddr : Z) (i : nat) (k : mutex_pc -> cond_pc) (pc : mutex_pc)
    (s : cond_sys) : option cond_sys :=
  '(pc, m, l) ← mutex_step (self i) maddr i pc (cs_mutex s) (cs_tasks s);
  Some (cond_goto i (k pc) (cond_table l (cond_mutex m s))).

(** [pthread_cond_wait] takes the mutex again. *)
Definition cond_relock (i : nat) (seq : Z) (d : nat) (s : cond_sys) : option cond_sys :=
  pc ← mutex_call op_lock (recursive (cs_mutex s)) d; Some (cond_goto i (C_lock seq pc) s).

(** The next step of [pthread_cond_wait], [pthread_cond_signal] and
    [pthread_cond_broadcast], and of the calls of the mutex around them. *)
Definition cond_run (self : nat -> Z) (maddr caddr : Z) (op : cond_op) (i : nat) (s : cond_sys) : option cond_sys :=
  match cs_pcs s i with
  | C_mutex (M_idle d) =>
      match op with
      | op_mutex o => pc ← mutex_call o (recursive (cs_mutex s)) d; Some (cond_goto i (C_mutex pc) s)
      | op_cond_wait => Some (cond_goto i (C_load d) s)
      | op_signal => Some (cond_goto i (C_wake d 1) (cond_bump s))
      | op_broadcast => Some (cond_goto i (C_wake d TLS_MAX_KEYS) (cond_bump s))
      end
  | C_mutex pc => cond_in_mutex self maddr i C_mutex pc s
  | C_load d =>
      pc ← mutex_call op_unlock (recursive (cs_mutex s)) d; Some (cond_goto i (C_unlock (cs_seq s) pc) s)
  | C_unlock seq (M_idle d) => Some (cond_goto i (C_wait seq d) s)
  | C_unlock seq pc => cond_in_mutex self maddr i (C_unlock seq) pc s
  | C_wait seq d =>
      let '(r, l) := wait_on i caddr seq (cs_seq s) (cs_tasks s) in
      match r with
      | Sleeps => Some (cond_goto i (C_sleep seq d) (cond_table l s))
      | Returns _ => cond_relock i seq d (cond_table l s)
      end
  | C_sleep seq d => l ← woken i caddr (cs_tasks s); cond_relock i seq d (cond_table l s)
  | C_lock seq (M_idle d) => Some (cond_goto i (C_check seq d) s)
  | C_lock seq pc => cond_in_mutex self maddr i (C_lock seq) pc s
  | C_check seq d => Some (cond_goto i (if cs_seq s =? seq then C_load d else C_mutex (M_idle d)) s)
  | C_wake d n => Some (cond_goto i (C_mutex (M_idle d)) (cond_table (wake_on i caddr n (cs_tasks s)) s))
  end.

Inductive cond_steps (self : nat -> Z) (maddr caddr : Z) (who : nat -> cond_op -> Prop) : cond_sys -> cond_sys -> Prop :=
  | cond_thread op i s s' :
      who i op -> cond_run self maddr caddr op i s = Some s' -> cond_steps self maddr caddr who s s'
  | cond_tick now s : cond_steps self maddr caddr who s (cond_table (tick now (cs_tasks s)) s).

(** ** Locks without waiting, and keys *)

Definition EBUSY : Z := 16.
Definition EAGAIN : Z := 11.
Definition EINVAL : Z := 22.

(** [pthread_mutex_trylock] and [pthread_mutex_unlock] of a normal mutex that
    nobody sleeps on, run to their end. *)
Definition trylock_normal (m : mutex) : Z * mutex := (if locked m =? 0 then 0 else EBUSY, set_locked 1 m).
Definition unlock_normal (m : mutex) : mutex := set_waiters 0 (set_locked 0 m).

Record rwlock := Rwlock {
  rw_mutex : mutex;
  rw_writer : Z;
  rw_readers : Z;
  rw_waiting : Z;        (* writer_waiting *)
}.

Definition pthread_rwlock_init : rwlock := Rwlock (pthread_mutex_init false) 0 0 0.

Definition pthread_rwlock_tryrdlock (rw : rwlock) : Z * rwlock :=
  let '(r, m) := trylock_normal (rw_mutex rw) in
  if r =? 0 then (EBUSY, Rwlock m (rw_writer rw) (rw_readers rw) (rw_waiting rw)) else
  if negb (rw_writer rw =? 0) || negb (rw_waiting rw =? 0)
  then (EBUSY, Rwlock (unlock_normal m) (rw_writer rw) (rw_readers rw) (rw_waiting rw))
  else (0, Rwlock (unlock_normal m) (rw_writer rw) (rw_readers rw + 1) (rw_waiting rw)).

Definition pthread_rwlock_trywrlock (rw : rwlock) : Z * rwlock :=
  let '(r, m) := trylock_normal (rw_mutex rw) in
  if r =? 0 then (EBUSY, Rwlock m (rw_writer rw) (rw_readers rw) (rw_waiting rw)) else
  if negb (rw_writer rw =? 0) || (0 <? rw_readers rw)
  then (EBUSY, Rwlock (unlock_normal m) (rw_writer rw) (rw_readers rw) (rw_waiting rw))
  else (0, Rwlock (unlock_normal m) 1 (rw_readers rw) (rw_waiting rw)).

(** The keys of the process, and per thread the values in its TLS page. *)
Record keys := Keys { key_used : list bool; key_destructors : list Z }.

Definition keys_boot : keys := Keys (replicate (Z.to_nat TLS_MAX_KEYS) false) (replicate (Z.to_nat TLS_MAX_KEYS) 0).

Definition pthread_key_create (destructor : Z) (k : keys) : (Z + nat) * keys :=
  match find_from (fun _ b => negb b) 0 (key_used k) with
  | None => (inl EAGAIN, k)
  | Some i => (inr i, Keys (<[i := true]> (key_used k)) (<[i := destructor]> (key_destructors k)))
  end.

Definition key_bad (key : Z) : bool := (key <? 0) || (TLS_MAX_KEYS <=? key).

Definition pthread_key_delete (key : Z) (k : keys) : Z * keys :=
  if key_bad key then (EINVAL, k)
  else (0, Keys (<[Z.to_nat key := false]> (key_used k)) (<[Z.to_nat key := 0]> (key_destructors k))).

Definition pthread_getspecific (key : Z) (values : list Z) : Z :=
  if key_bad key then 0 else default 0 (values !! Z.to_nat key).

Definition pthread_setspecific (key v : Z) (values : list Z) : Z * list Z :=
  if key_bad key then (EINVAL, values) else (0, <[Z.to_nat key := v]> values).
