(* ===== verification/PthreadProps.v ===== *)
(** The properties of the synchronisation primitives: a mutex admits one thread
    at a time but can leave one asleep on a free mutex for ever; a semaphore
    counts, but a thread can sleep beside a token; a broadcast reaches everybody
    who waits. *)
From Stdlib Require Import ZArith Lia.
From stdpp Require Import base numbers list relations functions.
From S2P Require Import Prelude Task Futex Pthread FutexProps.

(** ** Mutual exclusion *)

(** The thread has the mutex word. *)
Definition has (pc : mutex_pc) : bool :=
  match pc with
  | M_idle d | L_owner d | L_xchg d | L_flag d | L_wait d | L_sleep d | T_owner d | T_xchg d
  | U_xchg d | U_wake d => negb (Nat.eqb d 0)
  | L_own _ | L_count _ | U_owner _ | U_clear _ | U_store _ => true
  end.

(** What a thread that has it knows, in a mutex of its type. *)
Definition view (self : Z) (m : mutex) (pc : mutex_pc) : Prop :=
  if recursive m then
    match pc with
    | M_idle d | L_owner d | T_owner d => owner m = self /\ recursion m = Z.of_nat d /\ Z.of_nat d < 2 ^ 31
    | U_owner d => owner m = self /\ recursion m = Z.of_nat d /\ Z.of_nat d < 2 ^ 31 /\ d <> 0%nat
    | L_own d => owner m = 0 /\ d = 0%nat
    | L_count d => owner m = self /\ d = 0%nat
    | U_clear d => owner m = self /\ d = 1%nat
    | U_store d => owner m = 0 /\ d = 1%nat
    | _ => False
    end
  else
    match pc with
    | M_idle d | L_xchg d | L_flag d | L_wait d | L_sleep d | T_xchg d | U_store d => d = 1%nat
    | _ => False
    end.

Section exclusion.
Context (self : nat -> Z) (Hinj : forall i j, self i = self j -> i = j) (Hpos : forall i, self i <> 0).

Record mutex_inv (m : mutex) (pcs : nat -> mutex_pc) : Prop := {
  mi_view i : has (pcs i) = true -> locked m = 1 /\ view (self i) m (pcs i);
  mi_unique i j : has (pcs i) = true -> has (pcs j) = true -> i = j;
  mi_owner : owner m = 0 \/ (recursive m = true /\ exists i, has (pcs i) = true /\ owner m = self i);
}.

(** A thread that has the mutex before and after its step. *)
Lemma inv_keep m pcs m' i pc :
  mutex_inv m pcs -> has (pcs i) = true -> has pc = true -> locked m' = 1 -> view (self i) m' pc ->
  owner m' = 0 \/ (recursive m' = true /\ owner m' = self i) -> mutex_inv m' (<[i := pc]> pcs).
Proof.
  intros [Hv Hu Ho] Hi Hpc Hl Hview Hown.
  assert (Hone : forall a, has (<[i := pc]> pcs a) = true -> a = i).
  { intros a. destruct (decide (a = i)) as [->|Hne]; [done|]. rewrite fn_lookup_insert_ne by done. intros Ha. by apply Hu. }
  split.
  - intros a Ha. apply Hone in Ha as ->. by rewrite fn_lookup_insert.
  - intros a b Ha Hb. by rewrite (Hone a Ha), (Hone b Hb).
  - destruct Hown as [|[? ?]]; [by left|]. right. split; [done|]. exists i. by rewrite fn_lookup_insert.
Qed.

(** A thread that takes it. *)
Lemma inv_take m pcs m' i pc :
  mutex_inv m pcs -> locked m <> 1 -> locked m' = 1 -> view (self i) m' pc -> owner m' = 0 ->
  mutex_inv m' (<[i := pc]> pcs).
Proof.
  intros [Hv Hu Ho] Hfree Hl Hview Hown.
  assert (Hone : forall a, has (<[i := pc]> pcs a) = true -> a = i).
  { intros a. destruct (decide (a = i)) as [->|Hne]; [done|]. rewrite fn_lookup_insert_ne by done.
    intros Ha. destruct (Hv a Ha). done. }
  split; [|intros a b Ha Hb; by rewrite (Hone a Ha), (Hone b Hb)|by left].
  intros a Ha. apply Hone in Ha as ->. by rewrite fn_lookup_insert.
Qed.

(** A thread that gives it up, or neither has nor gets it. *)
Lemma inv_without m pcs m' i pc :
  mutex_inv m pcs -> has pc = false -> recursive m' = recursive m -> recursion m' = recursion m -> owner m' = owner m ->
  (has (pcs i) = true /\ owner m = 0) \/ (has (pcs i) = false /\ (locked m = 1 -> locked m' = 1)) ->
  mutex_inv m' (<[i := pc]> pcs).
Proof.
  intros [Hv Hu Ho] Hpc Hr1 Hr2 Hr3 Hcase.
  assert (Hold : forall a, has (<[i := pc]> pcs a) = true -> a <> i /\ has (pcs a) = true).
  { intros a. destruct (decide (a = i)) as [->|Hne]; [by rewrite fn_lookup_insert, Hpc|]. by rewrite fn_lookup_insert_ne by done. }
  split.
  - intros a [Hne Ha]%Hold. rewrite fn_lookup_insert_ne by done. destruct Hcase as [[Hi _]|[Hi Hl]]; [destruct Hne; by apply Hu|].
    destruct (Hv a Ha) as [H1 H2]. split; [by apply Hl|]. unfold view in *. by rewrite Hr1, Hr2, Hr3.
  - intros a b [_ Ha]%Hold [_ Hb]%Hold. by apply Hu.
  - rewrite Hr1, Hr3. destruct Ho as [|(? & j & Hj & Ho)]; [by left|]. destruct Hcase as [[_ H0]|[Hi _]]; [by left|].
    right. split; [done|]. exists j. rewrite fn_lookup_insert_ne; [done|]. intros ->. congruence.
Qed.

Lemma not_owner m pcs i : mutex_inv m pcs -> has (pcs i) = false -> owner m <> self i.
Proof.
  intros [_ _ Ho] Hi He. destruct Ho as [H0|(_ & j & Hj & Hown)].
  - apply (Hpos i). congruence.
  - assert (i = j) as -> by (apply Hinj; congruence). congruence.
Qed.

Lemma owner_of_holder m pcs i : mutex_inv m pcs -> has (pcs i) = true ->
  owner m = 0 \/ (recursive m = true /\ owner m = self i).
Proof.
  intros Hinv Hi. destruct (mi_owner _ _ Hinv) as [|(? & j & Hj & Ho)]; [by left|]. right. split; [done|].
  by rewrite Ho, (mi_unique _ _ Hinv j i Hj Hi).
Qed.

Lemma owner_free m pcs : mutex_inv m pcs -> locked m = 0 -> owner m = 0.
Proof.
  intros Hinv Hl. destruct (mi_owner _ _ Hinv) as [|(_ & j & Hj & _)]; [done|]. destruct (mi_view _ _ Hinv j Hj). lia.
Qed.

Lemma call_has op rec d pc : mutex_call op rec d = Some pc -> has pc = negb (Nat.eqb d 0).
Proof. by destruct op, rec, d; intros [= <-]. Qed.

Lemma inv_call m pcs i op d pc :
  mutex_inv m pcs -> pcs i = M_idle d -> mutex_call op (recursive m) d = Some pc -> mutex_inv m (<[i := pc]> pcs).
Proof.
  intros Hinv Hi Hc. pose proof (call_has _ _ _ _ Hc) as Hh. destruct (decide (d = 0%nat)) as [->|Hd].
  - apply (inv_without m pcs m i pc Hinv); try done. right. by rewrite Hi.
  - assert (Hhas : has (pcs i) = true) by (rewrite Hi; cbn; by rewrite (proj2 (Nat.eqb_neq d 0))).
    destruct (mi_view _ _ Hinv i Hhas) as [Hl Hv]. rewrite Hi in Hv.
    apply (inv_keep m pcs m i pc Hinv); try done; [rewrite Hh; by rewrite (proj2 (Nat.eqb_neq d 0))| |by apply (owner_of_holder m pcs)].
    unfold view in *. destruct (recursive m) eqn:Er, op, d; try done; injection Hc as <-; naive_solver.
Qed.

#[local] Ltac keep :=
  match goal with
  | Hk : forall pc m', _ -> _ -> _ -> _ -> mutex_inv _ _ |- _ =>
      apply Hk; [cbn; try reflexivity; by apply negb_true_iff, Nat.eqb_neq; lia
                |cbn; try reflexivity; assumption
                |unfold view; cbn [recursive recursion owner set_recursion set_owner set_locked set_waiters];
                 repeat match goal with E : recursive _ = _ |- _ => rewrite E end; rewrite ?i32_small by lia;
                 split_and?; try assumption; lia
                |cbn; naive_solver]
  end.

(** The step of a thread that has the mutex. *)
Lemma inv_step_holder addr m pcs i l pc m' l' : mutex_inv m pcs -> has (pcs i) = true ->
  (forall d, pc = M_idle d -> Z.of_nat d < 2 ^ 31) ->
  mutex_step (self i) addr i (pcs i) m l = Some (pc, m', l') -> mutex_inv m' (<[i := pc]> pcs).
Proof.
  intros Hinv Hh Hsh. destruct (mi_view _ _ Hinv i Hh) as [Hl Hv]. pose proof (owner_of_holder _ _ _ Hinv Hh) as Ho.
  assert (Hkeep : forall pc m', has pc = true -> locked m' = 1 -> view (self i) m' pc ->
    owner m' = 0 \/ (recursive m' = true /\ owner m' = self i) -> mutex_inv m' (<[i := pc]> pcs))
    by (intros; by eapply inv_keep).
  assert (Hgive : owner m = 0 -> mutex_inv (set_locked 0 m) (<[i := U_xchg 0]> pcs)).
  { intros H0. apply (inv_without m pcs (set_locked 0 m) i _ Hinv); try done. by left. }
  unfold view in Hv. destruct (recursive m) eqn:Er, (pcs i) as [d|d|d|d|d|d|d|d|d|d|d|d|d|d|d]; try done; cbn [mutex_step].
  - destruct Hv as (Ho1 & Hr & Hd). rewrite Ho1, Z.eqb_refl. intros [= <- <- <-]. specialize (Hsh _ eq_refl). keep.
  - destruct Hv as [Ho1 ->]. intros [= <- <- <-]. keep.
  - destruct Hv as [Ho1 ->]. intros [= <- <- <-]. keep.
  - destruct Hv as (Ho1 & Hr & Hd). rewrite Ho1, Z.eqb_refl. intros [= <- <- <-]. specialize (Hsh _ eq_refl). keep.
  - destruct Hv as (Ho1 & Hr & Hb & Hd). rewrite Ho1, Z.eqb_refl, i32_small by lia.
    destruct (Z.ltb_spec 0 (recursion m - 1)); intros [= <- <- <-]; keep.
  - destruct Hv as [Ho1 ->]. intros [= <- <- <-]. keep.
  - destruct Hv as [Ho1 ->]. intros [= <- <- <-]. by apply Hgive.
  - rewrite Hl. intros [= <- <- <-]. keep.
  - intros [= <- <- <-]. keep.
  - destruct (wait_on _ _ _ _ _) as [r l1]. destruct r; intros [= <- <- <-]; keep.
  - destruct (woken _ _ _); [|done]. intros [= <- <- <-]. keep.
  - rewrite Hl. intros [= <- <- <-]. keep.
  - subst d. intros [= <- <- <-]. apply Hgive. naive_solver.
Qed.

(** The step of a thread that does not have it. *)
Lemma inv_step_other addr m pcs i l pc m' l' : mutex_inv m pcs -> has (pcs i) = false ->
  mutex_step (self i) addr i (pcs i) m l = Some (pc, m', l') -> mutex_inv m' (<[i := pc]> pcs).
Proof.
  intros Hinv Hh. pose proof (not_owner _ _ _ Hinv Hh) as Hno.
  assert (Hstay : forall pc m', has pc = false -> recursive m' = recursive m -> recursion m' = recursion m ->
    owner m' = owner m -> (locked m = 1 -> locked m' = 1) -> mutex_inv m' (<[i := pc]> pcs)).
  { intros. eapply (inv_without m); [done..|]. by right. }
  assert (Htake : locked m = 0 -> mutex_inv (set_locked 1 m) (<[i := if recursive m then L_own 0 else M_idle 1]> pcs)).
  { intros Hl. pose proof (owner_free _ _ Hinv Hl). apply (inv_take m pcs); try done; [lia|].
    unfold view. cbn. by destruct (recursive m). }
  destruct (pcs i) as [d|d|d|d|d|d|d|d|d|d|d|d|d|d|d]; try done; destruct d; try done; cbn [mutex_step].
  - rewrite (proj2 (Z.eqb_neq _ _) Hno). intros [= <- <- <-]. by apply Hstay.
  - destruct (Z.eqb_spec (locked m) 0); intros [= <- <- <-]; [by apply Htake|by apply Hstay].
  - intros [= <- <- <-]. by apply Hstay.
  - destruct (wait_on _ _ _ _ _) as [r l1]. destruct r; intros [= <- <- <-]; by apply Hstay.
  - destruct (woken _ _ _); [|done]. intros [= <- <- <-]. by apply Hstay.
  - rewrite (proj2 (Z.eqb_neq _ _) Hno). intros [= <- <- <-]. by apply Hstay.
  - destruct (Z.eqb_spec (locked m) 0); intros [= <- <- <-]; [by apply Htake|by apply Hstay].
  - destruct (waiters m =? 1); intros [= <- <- <-]; by apply Hstay.
  - intros [= <- <- <-]. by apply Hstay.
Qed.

Lemma inv_run addr op i s s' :
  mutex_inv (ms_mutex s) (ms_pcs s) -> shallow s' -> mutex_run self addr op i s = Some s' ->
  mutex_inv (ms_mutex s') (ms_pcs s').
Proof.
  intros Hinv Hsh. assert (Hstep : forall pc m l, mutex_step (self i) addr i (ms_pcs s i) (ms_mutex s) (ms_tasks s) = Some (pc, m, l) ->
    shallow (MSys m l (<[i := pc]> (ms_pcs s))) -> mutex_inv m (<[i := pc]> (ms_pcs s))).
  { intros pc m l E Hs. destruct (has (ms_pcs s i)) eqn:Hh; [eapply inv_step_holder; [done|done| |exact E]|by eapply inv_step_other].
    intros d ->. apply (Hs i). cbn. by rewrite fn_lookup_insert. }
  revert Hsh. unfold mutex_run. destruct (ms_pcs s i) eqn:Hi.
  { destruct (mutex_call _ _ _) as [pc|] eqn:Hc; [|done]. intros _ [= <-]. by eapply inv_call. }
  all: destruct (mutex_step _ _ _ _ _ _) as [[[pc m] l]|] eqn:E; [|done]; intros Hsh [= <-]; by eapply Hstep.
Qed.

Lemma run_recursive addr op i s s' :
  mutex_run self addr op i s = Some s' -> recursive (ms_mutex s') = recursive (ms_mutex s).
Proof.
  unfold mutex_run. destruct (ms_pcs s i); [destruct (mutex_call _ _ _); [by intros [= <-]|done]|..]; cbn [mutex_step];
    repeat case_match; try done; cbn [mbind option_bind]; try (intros [= <-]); try done.
  all: destruct (woken _ _ _); cbn [mbind option_bind]; [by intros [= <-]|done].
Qed.

Lemma inv_reachable addr rec who l s :
  rtc (fun a b => mutex_steps self addr who a b /\ shallow b) (mutex_start rec l) s ->
  mutex_inv (ms_mutex s) (ms_pcs s) /\ recursive (ms_mutex s) = rec.
Proof.
  apply (rtc_ind_r (fun s => mutex_inv (ms_mutex s) (ms_pcs s) /\ recursive (ms_mutex s) = rec)).
  - split; [|done]. split; [done|done|by left].
  - intros y z _ [Hyz Hsh] [IH1 IH2]. destruct Hyz as [op i y z _ Hrun|now y]; [|done].
    split; [by eapply inv_run|]. by rewrite (run_recursive _ _ _ _ _ Hrun).
Qed.
End exclusion.

(** C26. A mutex admits one thread at a time: in every interleaving of the accesses
    of [pthread_mutex_lock], [pthread_mutex_trylock] and [pthread_mutex_unlock] of
    any number of threads, wakes and ticks included, at most one thread has the
    mutex and its word is 1.  A recursive mutex has its holder for owner and
    counts how many times it was locked; a normal one is held once.  The count is
    an [int], and the runs are those in which no thread nests 2^31 locks: the
    lock with which it would overflow makes the count negative, and the next
    unlock frees the mutex. *)
Theorem mutex_exclusion self addr rec l s i j :
  (forall a b, self a = self b -> a = b) -> (forall a, self a <> 0) ->
  rtc (fun a b => mutex_steps self addr (fun _ => True) a b /\ shallow b) (mutex_start rec l) s ->
  has (ms_pcs s i) = true -> has (ms_pcs s j) = true ->
  i = j /\ locked (ms_mutex s) = 1 /\
  forall d, ms_pcs s i = M_idle d ->
    if rec then owner (ms_mutex s) = self i /\ recursion (ms_mutex s) = Z.of_nat d else d = 1%nat.
Proof.
  intros Hinj Hpos Hr Hi Hj. apply (inv_reachable self Hinj Hpos) in Hr as [Hinv Hrec].
  destruct (mi_view _ _ _ Hinv i Hi) as [Hl Hv]. split; [by apply (mi_unique _ _ _ Hinv)|]. split; [done|].
  intros d Hd. rewrite Hd in Hv. unfold view in Hv. rewrite Hrec in Hv. destruct rec; [|done]. by destruct Hv as (? & ? & _).
Qed.

(** ** A thread asleep on a free mutex *)

Lemma wait_on_other i addr v w l r l' j : wait_on i addr v w l = (r, l') -> j <> i -> slot l' j = slot l j.
Proof.
  unfold wait_on, k_sys_futex. case_bool_decide; [by intros [= _ <-]|]. destruct (negb _); [by intros [= _ <-]|].
  intros E Hj. exact (futex_wait_other _ _ _ _ _ _ _ _ _ _ E Hj).
Qed.

Lemma wait_on_sleeps i addr v w l l' : wait_on i addr v w l = (Sleeps, l') ->
  w = i32 v /\ user_ptr_ok addr = true /\ ((i < length l)%nat -> parked addr (slot l' i)).
Proof.
  unfold wait_on, k_sys_futex. case_bool_decide; [done|]. destruct (user_ptr_ok addr); [|done]. cbn [negb].
  change (EIGEN_FUTEX_WAIT =? EIGEN_FUTEX_WAIT) with true. cbv iota. unfold futex_wait. cbv zeta.
  destruct (Z.eqb_spec w (i32 v)) as [->|]; [|done]. intros [= <-]. split; [done|]. split; [done|].
  intros Hi. rewrite slot_alter_at by done. done.
Qed.

Lemma wait_on_length i addr v w l r l' : wait_on i addr v w l = (r, l') -> length l' = length l.
Proof.
  unfold wait_on, k_sys_futex. case_bool_decide; [by intros [= _ <-]|]. destruct (negb _); [by intros [= _ <-]|].
  intros E. exact (futex_wait_length _ _ _ _ _ _ _ _ _ E).
Qed.

Lemma wait_on_taken i addr v w l r l' : wait_on i addr v w l = (r, l') ->
  t_ring (slot l i) = TASK_RING3 -> user_ptr_ok addr = true -> w = i32 v -> r = Sleeps.
Proof.
  unfold wait_on, k_sys_futex. intros E Hr Ha Hw. rewrite bool_decide_eq_false_2, Ha in E by (intros X; exact (X Hr)). cbn [negb] in E.
  change (EIGEN_FUTEX_WAIT =? EIGEN_FUTEX_WAIT) with true in E. cbv iota in E. unfold futex_wait in E. cbv zeta in E.
  rewrite Hw, Z.eqb_refl in E. by injection E.
Qed.

Lemma alter_ring f i l j : (forall t, t_ring (f t) = t_ring t) -> t_ring (slot (alter f i l) j) = t_ring (slot l j).
Proof.
  intros Hf. unfold slot. rewrite list_lookup_alter. case_decide as Hd; [|done]. subst. destruct (l !! j); [apply Hf|done].
Qed.

Lemma wait_on_ring i addr v w l r l' j : wait_on i addr v w l = (r, l') -> t_ring (slot l' j) = t_ring (slot l j).
Proof.
  unfold wait_on, k_sys_futex. case_bool_decide; [by intros [= _ <-]|]. destruct (negb _); [by intros [= _ <-]|].
  change (EIGEN_FUTEX_WAIT =? EIGEN_FUTEX_WAIT) with true. cbv iota. unfold futex_wait. cbv zeta.
  case_match; intros [= _ <-]; by rewrite !alter_ring.
Qed.

Lemma woken_other i addr l l' j : woken i addr l = Some l' -> j <> i -> slot l' j = slot l j.
Proof.
  unfold woken. case_bool_decide; [done|]. intros [= <-] Hj. unfold futex_woken. case_match; [|done]. by apply slot_alter_ne.
Qed.

Lemma woken_parked i addr l a : parked a (slot l i) -> woken i addr l = None.
Proof. intros (Hs & _). unfold woken. by rewrite bool_decide_eq_true_2. Qed.

Lemma tick_parked now addr l j : parked addr (slot l j) -> slot (tick now l) j = slot l j.
Proof. intros Hp. unfold tick. rewrite slot_map by done. by eapply wake_parked. Qed.

(** Two threads of one process in the slots 1 and 2. *)
Definition thread_task (id : Z) : task_t := with_state TASK_READY (sleeping_task id 4 0).
Definition two_threads : list task_t := [null_task; thread_task 4; thread_task 5].

Fixpoint mutex_trace (self : nat -> Z) (addr : Z) (t : list (mutex_op * nat)) (s : mutex_sys) : option mutex_sys :=
  match t with
  | [] => Some s
  | (op, i) :: t => s ← mutex_run self addr op i s; mutex_trace self addr t s
  end.

Lemma mutex_trace_steps self addr who t s s' :
  mutex_trace self addr t s = Some s' -> Forall who (snd <$> t) -> rtc (mutex_steps self addr who) s s'.
Proof.
  revert s. induction t as [|[op i] t IH]; intros s; cbn [mutex_trace]; [by intros [= <-]|].
  destruct (mutex_run self addr op i s) as [s1|] eqn:E; [|done]. intros Ht. rewrite fmap_cons. intros [Hi Hw]%Forall_cons_1.
  eapply rtc_l; [by eapply mutex_thread|]. by apply IH.
Qed.

(** The depth of a place. *)
Definition pc_depth (pc : mutex_pc) : nat :=
  match pc with
  | M_idle d | L_owner d | L_xchg d | L_own d | L_count d | L_flag d | L_wait d | L_sleep d | T_owner d | T_xchg d
  | U_owner d | U_clear d | U_store d | U_xchg d | U_wake d => d
  end.

Lemma step_depth self addr i pc m l pc' m' l' :
  mutex_step self addr i pc m l = Some (pc', m', l') -> (pc_depth pc' <= S (pc_depth pc))%nat.
Proof.
  destruct pc; cbn [mutex_step]; intros E; repeat case_match; simplify_eq; cbn [pc_depth]; try lia.
  destruct (woken _ _ _); [|done]. cbn in E. simplify_eq. cbn [pc_depth]. lia.
Qed.

Lemma run_depth self addr op i s s' k :
  (forall j, pc_depth (ms_pcs s j) <= k)%nat -> mutex_run self addr op i s = Some s' ->
  (forall j, pc_depth (ms_pcs s' j) <= S k)%nat.
Proof.
  intros Hk. pose proof (Hk i) as Hi.
  assert (Hput : forall m l pc, (pc_depth pc <= S k)%nat -> forall j, (pc_depth (ms_pcs (MSys m l (<[i := pc]> (ms_pcs s))) j) <= S k)%nat).
  { intros m l pc Hpc j. cbn [ms_pcs]. destruct (decide (j = i)) as [->|Hj]; [by rewrite fn_lookup_insert|].
    rewrite fn_lookup_insert_ne by done. specialize (Hk j). lia. }
  assert (Hrun : mutex_run self addr op i s = Some s' ->
    exists m l pc, s' = MSys m l (<[i := pc]> (ms_pcs s)) /\ (pc_depth pc <= S (pc_depth (ms_pcs s i)))%nat).
  { unfold mutex_run. destruct (ms_pcs s i) as [d|d|d|d|d|d|d|d|d|d|d|d|d|d|d] eqn:Epc.
    { destruct (mutex_call _ _ _) as [pc|] eqn:E; [|done]. intros [= <-]. eexists _, _, pc. split; [done|].
      destruct op, (recursive (ms_mutex s)), d; cbn in E; simplify_eq; cbn [pc_depth]; lia. }
    all: destruct (mutex_step _ _ _ _ _ _) as [[[pc m] l]|] eqn:E; [|done]; intros [= <-];
      apply step_depth in E; by eexists _, _, _. }
  intros E. destruct (Hrun E) as (m & l & pc & -> & Hpc). apply Hput. lia.
Qed.

(** A run of fewer than 2^31 steps cannot nest so deep. *)
Lemma mutex_trace_shallow self addr t s s' k :
  (forall j, pc_depth (ms_pcs s j) <= k)%nat -> Z.of_nat (k + length t) < 2 ^ 31 ->
  mutex_trace self addr t s = Some s' ->
  rtc (fun a b => mutex_steps self addr (fun _ => True) a b /\ shallow b) s s'.
Proof.
  revert s k. induction t as [|[op i] t IH]; intros s k Hk Hlen; cbn [mutex_trace]; [by intros [= <-]|].
  destruct (mutex_run self addr op i s) as [s1|] eqn:E; [|done]. intros Ht. cbn [length] in Hlen.
  pose proof (run_depth _ _ _ _ _ _ _ Hk E) as Hk1. eapply rtc_l; [split; [by eapply mutex_thread|]|].
  - intros j d Hd. specialize (Hk1 j). rewrite Hd in Hk1. cbn [pc_depth] in Hk1. lia.
  - cbn [mbind option_bind] in Ht. apply (IH s1 (S k)); [done|lia|done].
Qed.

(** Thread 1 has the mutex, thread 2 finds it taken; thread 1 gives it up, sees the
    flag that thread 2 has set meanwhile, wakes nobody and takes the mutex again;
    thread 2 goes to sleep, and thread 1 gives it up without a flag. *)
Definition strand_schedule (rec : bool) : list (mutex_op * nat) :=
  let lock i := replicate (if rec then 5 else 2) (op_lock, i) in
  lock 1%nat ++ replicate (if rec then 3 else 2) (op_lock, 2%nat) ++
  replicate (if rec then 4 else 2) (op_unlock, 1%nat) ++ [(op_lock, 2%nat)] ++
  replicate 2 (op_unlock, 1%nat) ++ lock 1%nat ++ [(op_lock, 2%nat)] ++
  replicate (if rec then 5 else 3) (op_unlock, 1%nat).

(** Thread 2 sleeps, and thread 1 is not about to wake it. *)
Record strands (addr : Z) (s : mutex_sys) : Prop := {
  st_parked : parked addr (slot (ms_tasks s) 2);
  st_place : ms_pcs s 2 = L_sleep 0;
  st_length : length (ms_tasks s) = 3%nat;
  st_ring : t_ring (slot (ms_tasks s) 1) = TASK_RING3;
  st_other : match ms_pcs s 1 with
             | L_flag _ | L_wait _ => locked (ms_mutex s) = 1
             | L_sleep _ => parked addr (slot (ms_tasks s) 1)
             | U_wake _ => False
             | _ => waiters (ms_mutex s) = 0
             end;
}.

Lemma strands_thread1 self addr op s s' : user_ptr_ok addr = true -> strands addr s -> mutex_run self addr op 1 s = Some s' -> strands addr s'.
Proof.
  intros Haddr [Hp H2 Hlen Hring Hw]. unfold mutex_run.
  assert (Hset : forall m l pc, parked addr (slot l 2) -> length l = 3%nat ->
    t_ring (slot l 1) = TASK_RING3 -> match pc with L_flag _ | L_wait _ => locked m = 1 | L_sleep _ => parked addr (slot l 1) | U_wake _ => False | _ => waiters m = 0 end ->
    strands addr (MSys m l (<[1%nat := pc]> (ms_pcs s)))).
  { intros m l pc Hpl Hl Hrl Hpc. split; cbn; [done|by rewrite fn_lookup_insert_ne|done|done|by rewrite fn_lookup_insert]. }
  destruct (ms_pcs s 1) as [d|d|d|d|d|d|d|d|d|d|d|d|d|d|d] eqn:E1; cbn [mutex_step mbind option_bind]; try done.
  - destruct (mutex_call op _ d) as [pc|] eqn:Ec; [|done]. intros [= <-]. apply Hset; [done..|].
    destruct op, (recursive (ms_mutex s)), d; try done; by injection Ec as <-.
  - destruct (owner _ =? _); intros [= <-]; by apply Hset.
  - destruct (locked (ms_mutex s) =? 0), (recursive (ms_mutex s)); intros [= <-]; by apply Hset.
  - intros [= <-]. by apply Hset.
  - intros [= <-]. by apply Hset.
  - intros [= <-]. by apply Hset.
  - destruct (wait_on _ _ _ _ _) as [r l1] eqn:E. pose proof (wait_on_length _ _ _ _ _ _ _ E).
    assert (parked addr (slot l1 2)) by (by rewrite (wait_on_other _ _ _ _ _ _ _ 2 E)).
    pose proof (wait_on_taken _ _ _ _ _ _ _ E Hring Haddr Hw) as ->. intros [= <-]. apply Hset; [done|lia| |].
    + by rewrite (wait_on_ring _ _ _ _ _ _ _ 1 E).
    + apply (wait_on_sleeps _ _ _ _ _ _ E). lia.
  - rewrite (woken_parked _ _ _ addr Hw). done.
  - destruct (owner _ =? _); intros [= <-]; by apply Hset.
  - destruct (locked (ms_mutex s) =? 0), (recursive (ms_mutex s)); intros [= <-]; by apply Hset.
  - destruct (owner _ =? _); [destruct (0 <? _)|]; intros [= <-]; by apply Hset.
  - intros [= <-]. by apply Hset.
  - intros [= <-]. by apply Hset.
  - rewrite Hw. intros [= <-]. by apply Hset.
Qed.

Lemma strands_steps self addr s s' : user_ptr_ok addr = true ->
  rtc (mutex_steps self addr (fun i => i = 1%nat \/ i = 2%nat)) s s' -> strands addr s -> strands addr s'.
Proof.
  intros Haddr. induction 1 as [s|s s1 s' H1 _ IH]; [done|]. intros Hs. apply IH. destruct H1 as [op i s s1 [->| ->] Hrun|now s].
  - by eapply strands_thread1.
  - destruct Hs as [Hp H2 _ _ _]. unfold mutex_run in Hrun. rewrite H2 in Hrun. cbn [mutex_step] in Hrun.
    by rewrite (woken_parked _ _ _ _ Hp) in Hrun.
  - destruct Hs as [Hp H2 Hl Hr Hw]. split; cbn [ms_mutex ms_tasks ms_pcs].
    + by rewrite (tick_parked now addr).
    + done.
    + unfold tick. by rewrite length_map.
    + unfold tick. rewrite slot_map by done. unfold wake. destruct (_ && _); exact Hr.
    + destruct (ms_pcs s 1); try done. by rewrite (tick_parked now addr).
Qed.

(** C27. A mutex can strand a waiter: with two threads, each of which takes the
    mutex and gives it up, there is an interleaving after which the mutex is free,
    thread 1 is outside, and thread 2 sleeps on it and never runs again, whatever
    thread 1 does with the mutex and however much time passes.  Thread 1 cleared
    the flag of thread 2 before thread 2 was asleep; the second lock makes the
    word 1 again, for which thread 2 waits.  The comment in the code says that no
    such unlock is missed. *)
Theorem mutex_strands_waiter rec :
  let steps := mutex_steps Z.of_nat 0x1000 (fun i => i = 1%nat \/ i = 2%nat) in
  exists s, rtc steps (mutex_start rec two_threads) s /\
  locked (ms_mutex s) = 0 /\ ms_pcs s 1 = M_idle 0 /\
  forall s', rtc steps s s' -> parked 0x1000 (slot (ms_tasks s') 2) /\ ms_pcs s' 2 = L_sleep 0.
Proof.
  cbv zeta. assert (Ht : exists s, mutex_trace Z.of_nat 0x1000 (strand_schedule rec) (mutex_start rec two_threads) = Some s /\
    locked (ms_mutex s) = 0 /\ ms_pcs s 1 = M_idle 0 /\ strands 0x1000 s).
  { destruct rec; (eexists; split; [vm_compute; reflexivity|]); split_and?; vm_compute; try reflexivity; split; vm_compute; split_and?; reflexivity. }
  destruct Ht as (s & Ht & Hl & Hpc & Hst). exists s. split_and!; [|done|done|].
  - eapply mutex_trace_steps; [exact Ht|]. destruct rec; cbn; repeat (apply Forall_cons_2; [lia|]); apply Forall_nil_2.
  - intros s' Hr. eapply strands_steps in Hst; [|reflexivity|exact Hr]. by destruct Hst.
Qed.

(** ** Semaphores *)

(** The count a thread has seen, and is about to take one from. *)
Definition sem_sees (pc : sem_pc) : bool := match pc with W_cas c | TW_cas c => 0 <? c | _ => true end.

Record sem_inv (value : Z) (s : sem_sys) : Prop := {
  si_sees i : sem_sees (ss_pcs s i) = true;
  si_posted : 0 <= ss_posted s;
  si_count : value + ss_posted s < 2 ^ 31 -> ss_count s = value + ss_posted s - ss_taken s /\ 0 <= ss_count s /\ 0 <= ss_taken s;
}.

Lemma sees_insert i pc pcs : sem_sees pc = true -> (forall j, sem_sees (pcs j) = true) ->
  forall j : nat, sem_sees (<[i := pc]> pcs j) = true.
Proof. intros Hpc Hp j. destruct (decide (j = i)) as [->|Hne]; [by rewrite fn_lookup_insert|by rewrite fn_lookup_insert_ne]. Qed.

Lemma sem_inv_run value addr op i s s' : 0 <= value -> sem_inv value s -> sem_run addr op i s = Some s' -> sem_inv value s'.
Proof.
  intros Hv [Hsee Hpo Hc]. unfold sem_run. pose proof (Hsee i) as Hi.
  assert (Hgoto : forall pc l, sem_sees pc = true -> sem_inv value (sem_goto i pc (sem_table l s))).
  { intros pc l Hpc. split; [by apply sees_insert|exact Hpo|exact Hc]. }
  assert (Htake : forall c, sem_sees (W_cas c) = true -> ss_count s = c -> sem_inv value (sem_goto i S_idle (sem_take c s))).
  { intros c Hp E. cbn in Hp. split; [by apply sees_insert|exact Hpo|]. cbn. intros Hb. specialize (Hc Hb). lia. }
  destruct (ss_pcs s i) as [| |c|c| | |c|].
  - destruct op; intros [= <-]; [by apply (Hgoto _ (ss_tasks s))..|].
    split; [by apply sees_insert|cbn; lia|]. cbn. intros Hb. specialize (Hc ltac:(lia)). rewrite i32_small by lia. lia.
  - intros [= <-]. apply (Hgoto _ (ss_tasks s)). cbn. by destruct (0 <? ss_count s) eqn:E; cbn; rewrite ?E.
  - destruct (Z.eqb_spec (ss_count s) c); intros [= <-]; [by apply Htake|by apply (Hgoto _ (ss_tasks s))].
  - destruct (wait_on _ _ _ _ _) as [r l1]. intros [= <-]. apply Hgoto. by destruct r.
  - destruct (woken _ _ _); [|done]. intros [= <-]. by apply Hgoto.
  - intros [= <-]. apply (Hgoto _ (ss_tasks s)). by destruct (0 <? ss_count s) eqn:E; cbn; rewrite ?E.
  - destruct (Z.eqb_spec (ss_count s) c); intros [= <-]; [by apply Htake|by apply (Hgoto _ (ss_tasks s))].
  - intros [= <-]. by apply Hgoto.
Qed.

(** C28. A semaphore counts: in every interleaving of [sem_wait], [sem_trywait] and
    [sem_post] of any number of threads the count is the initial value plus the
    posts less the waits that have succeeded, and never negative, so no more waits
    succeed than there were tokens (as long as the value and the posts together
    fit an int). *)
Theorem sem_counts addr value v l s :
  0 <= value -> sem_init value = Some v -> rtc (sem_steps addr (fun _ _ => True)) (sem_start v l) s ->
  v + ss_posted s < 2 ^ 31 ->
  ss_count s = v + ss_posted s - ss_taken s /\ 0 <= ss_count s /\ ss_taken s <= v + ss_posted s.
Proof.
  intros Hp. unfold sem_init. case_match; [done|]. intros [= <-] Hr Hb.
  assert (Hinv : sem_inv value s).
  { revert Hr. apply (rtc_ind_r (sem_inv value)).
    - split; [done|cbn; lia|]. cbn. lia.
    - intros y z _ Hyz Hy. destruct Hyz as [op i y z _ Hrun|now y]; [by eapply sem_inv_run|]. by destruct Hy. }
  destruct (si_count _ _ Hinv Hb) as (? & ? & ?). lia.
Qed.

Fixpoint sem_trace (addr : Z) (t : list (sem_op * nat)) (s : sem_sys) : option sem_sys :=
  match t with
  | [] => Some s
  | (op, i) :: t => s ← sem_run addr op i s; sem_trace addr t s
  end.

Lemma sem_trace_steps addr who t s s' :
  sem_trace addr t s = Some s' -> Forall (fun x => who (snd x) (fst x)) t -> rtc (sem_steps addr who) s s'.
Proof.
  revert s. induction t as [|[op i] t IH]; intros s; cbn [sem_trace]; [by intros [= <-]|].
  destruct (sem_run addr op i s) as [s1|] eqn:E; [|done]. intros Ht [Hi Hw]%Forall_cons_1.
  eapply rtc_l; [by eapply sem_thread|]. by apply IH.
Qed.

(** Two tokens; thread 2 sees both, thread 1 takes one, thread 2's exchange fails
    and it waits for the count of 1 that it has just seen to change. *)
Definition sem_schedule : list (sem_op * nat) :=
  replicate 2 (op_wait, 2%nat) ++ replicate 3 (op_wait, 1%nat) ++ replicate 2 (op_wait, 2%nat).

Record sem_sleeps (addr : Z) (s : sem_sys) : Prop := {
  ss_parked : parked addr (slot (ss_tasks s) 2);
  ss_place : ss_pcs s 2 = W_sleep;
  ss_other : ss_pcs s 1 <> P_wake;
}.

Lemma sem_sleeps_run addr op i s s' : i = 1%nat \/ i = 2%nat -> op <> op_post ->
  sem_sleeps addr s -> sem_run addr op i s = Some s' -> sem_sleeps addr s'.
Proof.
  intros Hi Hop [Hp H2 H1]. unfold sem_run. destruct Hi as [->| ->].
  2:{ rewrite H2, (woken_parked _ _ _ _ Hp). done. }
  assert (Hgoto : forall pc s1, parked addr (slot (ss_tasks s1) 2) -> ss_pcs s1 = ss_pcs s -> pc <> P_wake ->
    sem_sleeps addr (sem_goto 1 pc s1)).
  { intros pc s1 Hpl Hpcs Hpc. split; cbn; [done|by rewrite Hpcs, fn_lookup_insert_ne|by rewrite fn_lookup_insert]. }
  destruct (ss_pcs s 1) as [| |c|c| | |c|]; try done.
  - destruct op; try done; intros [= <-]; by apply Hgoto.
  - intros [= <-]. apply Hgoto; [done..|]. by case_match.
  - case_match; intros [= <-]; by apply Hgoto.
  - destruct (wait_on _ _ _ _ _) as [r l1] eqn:E. intros [= <-]. apply Hgoto; [|done|by destruct r].
    cbn. by rewrite (wait_on_other _ _ _ _ _ _ _ 2 E).
  - destruct (woken _ _ _) as [l1|] eqn:E; [|done]. intros [= <-]. apply Hgoto; [|done..]. cbn. by rewrite (woken_other _ _ _ _ 2 E).
  - intros [= <-]. apply Hgoto; [done..|]. by case_match.
  - case_match; intros [= <-]; by apply Hgoto.
Qed.

(** C29. A waiter can sleep beside a token: with a semaphore of two and two threads
    that each wait once there is an interleaving after which the count is 1, one
    wait has succeeded, and the other thread sleeps and stays asleep until
    somebody posts, although nobody has to: whatever the first thread does with
    waits, and however much time passes.  A failed exchange puts the count it saw
    into [c], and [sem_wait] sleeps on it although it is positive. *)
Theorem sem_sleeps_beside_token :
  let steps := sem_steps 0x1000 (fun i op => (i = 1%nat \/ i = 2%nat) /\ op <> op_post) in
  exists s, rtc steps (sem_start 2 two_threads) s /\
  ss_count s = 1 /\ ss_taken s = 1 /\ ss_pcs s 1 = S_idle /\
  forall s', rtc steps s s' -> parked 0x1000 (slot (ss_tasks s') 2) /\ ss_pcs s' 2 = W_sleep.
Proof.
  cbv zeta. assert (Ht : exists s, sem_trace 0x1000 sem_schedule (sem_start 2 two_threads) = Some s /\
    ss_count s = 1 /\ ss_taken s = 1 /\ ss_pcs s 1 = S_idle /\ sem_sleeps 0x1000 s).
  { eexists. split; [vm_compute; reflexivity|]. split_and!; [vm_compute; reflexivity..|].
    split; vm_compute; [split_and!; reflexivity|reflexivity|discriminate]. }
  destruct Ht as (s & Ht & Hc & Hn & Hpc & Hs). exists s. split_and!; [|done..|].
  - eapply sem_trace_steps; [exact Ht|]. cbn. repeat (apply Forall_cons_2; [cbn; split; [lia|discriminate]|]). apply Forall_nil_2.
  - intros s' Hr. assert (sem_sleeps 0x1000 s') as [? ? ?]; [|done]. clear -Hr Hs.
    induction Hr as [s|s s1 s' H1 _ IH]; [done|]. apply IH. destruct H1 as [op i s s1 [Hi Hop] Hrun|now s].
    + by eapply sem_sleeps_run.
    + destruct Hs as [Hp H2 H1]. split; [|done..]. cbn. by rewrite (tick_parked now 0x1000).
Qed.

(** ** Broadcasts *)

(** What a call of the thread in slot [i], or a tick, does to the other slots. *)
Record moved (i : nat) (l l' : list task_t) : Prop := {
  mv_length : length l' = length l;
  mv_task j : t_ring (slot l' j) = t_ring (slot l j) /\ t_group (slot l' j) = t_group (slot l j);
  mv_other j : j <> i -> slot l' j = slot l j \/ t_state (slot l' j) <> TASK_SLEEPING;
}.

Lemma moved_refl i l : moved i l l.
Proof. split; [done|done|by left]. Qed.

Lemma moved_alter i f l : (forall t, t_ring (f t) = t_ring t /\ t_group (f t) = t_group t) -> moved i l (alter f i l).
Proof.
  intros Hf. split; [by rewrite length_alter| |intros j Hj; left; by apply slot_alter_ne].
  intros j. unfold slot. rewrite list_lookup_alter. case_decide as Hd; [|done]. subst. destruct (l !! j); [apply Hf|done].
Qed.

Lemma moved_trans i l1 l2 l3 : moved i l1 l2 -> moved i l2 l3 -> moved i l1 l3.
Proof.
  intros [L1 T1 O1] [L2 T2 O2]. split; [by rewrite L2|intros j; by destruct (T1 j) as [<- <-]|].
  intros j Hj. destruct (O2 j Hj) as [E|]; [|by right]. rewrite E. by apply O1.
Qed.

Lemma moved_wait i addr v w l r l' : wait_on i addr v w l = (r, l') -> moved i l l'.
Proof.
  unfold wait_on, k_sys_futex. case_bool_decide; [intros [= _ <-]; apply moved_refl|].
  destruct (negb _); [intros [= _ <-]; apply moved_refl|].
  change (EIGEN_FUTEX_WAIT =? EIGEN_FUTEX_WAIT) with true. cbv iota. unfold futex_wait. cbv zeta.
  case_match; intros [= _ <-]; [by apply moved_alter|]. eapply moved_trans; by apply moved_alter.
Qed.

Lemma moved_woken i addr l l' : woken i addr l = Some l' -> moved i l l'.
Proof.
  unfold woken, futex_woken. case_bool_decide; [done|]. intros [= <-]. case_match; [by apply moved_alter|apply moved_refl].
Qed.

Lemma moved_wake i addr n l : moved i l (wake_on i addr n l).
Proof.
  unfold wake_on, k_sys_futex. case_bool_decide; [apply moved_refl|]. destruct (negb _); [apply moved_refl|].
  change (EIGEN_FUTEX_WAKE =? EIGEN_FUTEX_WAIT) with false. change (EIGEN_FUTEX_WAKE =? EIGEN_FUTEX_WAKE) with true. cbv iota.
  destruct (futex_wake i addr n l) as [r l'] eqn:E. cbn [snd].
  pose proof (fun j => futex_wake_slot _ _ _ _ _ _ j E) as Hs.
  split; [by apply futex_wake_roused in E as [[? _] _]| |].
  - intros j. by destruct (Hs j) as [->|(_ & _ & ->)].
  - intros j _. destruct (Hs j) as [->|(_ & _ & ->)]; [by left|by right].
Qed.

Lemma moved_tick now i l : moved i l (tick now l).
Proof.
  unfold tick. assert (Hs : forall j, slot (map (wake (u32 now)) l) j = wake (u32 now) (slot l j)) by (intros j; by apply slot_map).
  split; [by rewrite length_map| |]; intros j; [|intros _]; rewrite Hs; unfold wake; case_match; auto.
Qed.

Lemma moved_mutex self addr i pc m l pc' m' l' : mutex_step self addr i pc m l = Some (pc', m', l') -> moved i l l'.
Proof.
  destruct pc; cbn [mutex_step]; try (repeat case_match; intros [= _ _ <-]; apply moved_refl).
  - destruct (wait_on _ _ _ _ _) as [r l1] eqn:E. intros [= _ _ <-]. by eapply moved_wait.
  - destruct (woken _ _ _) as [l1|] eqn:E; [|done]. intros [= _ _ <-]. by eapply moved_woken.
  - intros [= _ _ <-]. apply moved_wake.
Qed.

(** A wake for 64 reaches every waiter there can be. *)
Lemma wake_on_all i addr l j : (length l <= 64)%nat -> t_ring (slot l i) = TASK_RING3 -> 0 < t_group (slot l i) ->
  user_ptr_ok addr = true -> (1 <= j < length l)%nat -> t_group (slot l j) = t_group (slot l i) ->
  t_futex (slot l j) = addr -> t_state (slot (wake_on i addr TLS_MAX_KEYS l) j) <> TASK_SLEEPING.
Proof.
  intros Hl Hr Hg Ha Hj Hgj Hf. unfold wake_on. destruct (k_sys_futex _ _ _ _ _ _ _ _) as [r l'] eqn:E. cbn [snd].
  unfold k_sys_futex in E. rewrite bool_decide_eq_false_2, Ha in E by (intros X; exact (X Hr)). cbn [negb] in E.
  change (EIGEN_FUTEX_WAKE =? EIGEN_FUTEX_WAIT) with false in E. change (EIGEN_FUTEX_WAKE =? EIGEN_FUTEX_WAKE) with true in E. cbv iota in E.
  destruct (futex_wake i addr TLS_MAX_KEYS l) as [n l1] eqn:Ew. apply pair_equal_spec in E as [_ <-].
  apply futex_wake_roused in Ew as [[_ Hs] _]. rewrite Hs. case_decide as Hd; [done|]. intros Hst. apply Hd. clear Hd.
  rewrite take_ge.
  - apply elem_of_wakeable. unfold wake_group. rewrite (proj2 (Z.ltb_lt _ _) Hg). done.
  - unfold wakeable. etransitivity; [apply length_filter|]. rewrite length_seq. change (wake_count TLS_MAX_KEYS) with 64%nat. lia.
Qed.

(** The count a waiter has read. *)
Definition cond_seen (pc : cond_pc) : option Z :=
  match pc with C_unlock e _ | C_wait e _ | C_sleep e _ | C_lock e _ | C_check e _ => Some e | _ => None end.

Definition is_waker (pc : cond_pc) : bool := match pc with C_wake _ _ => true | _ => false end.
Definition is_sleeper (pc : cond_pc) : bool := match pc with C_sleep _ _ => true | _ => false end.

(** Somebody has counted a broadcast and has not yet woken the waiters. *)
Definition pending (s : cond_sys) : Prop := exists j, is_waker (cs_pcs s j) = true.

Section broadcast.
Context (self : nat -> Z) (maddr caddr g : Z) (n : nat)
  (Haddr : user_ptr_ok caddr = true) (Hg : 0 < g) (Hn : (n <= 64)%nat).

Record cond_inv (s : cond_sys) : Prop := {
  ci_length : length (cs_tasks s) = n;
  ci_tasks j : (1 <= j < n)%nat ->
    t_ring (slot (cs_tasks s) j) = TASK_RING3 /\ t_group (slot (cs_tasks s) j) = g;
  ci_seq : i32 (cs_seq s) = cs_seq s;
  ci_seen j e : cond_seen (cs_pcs s j) = Some e -> i32 e = e;
  ci_wake j d k : cs_pcs s j = C_wake d k -> k = TLS_MAX_KEYS /\ (1 <= j < n)%nat;
  ci_sleep j e d : cs_pcs s j = C_sleep e d -> t_state (slot (cs_tasks s) j) = TASK_SLEEPING ->
    (1 <= j < n)%nat /\ t_futex (slot (cs_tasks s) j) = caddr /\ (e = cs_seq s \/ pending s);
}.

(** A step of thread [i] that leaves the count alone and ends neither asleep on
    the condition nor about to wake, and does not start as a waker. *)
Lemma cond_keep s i pc m l : cond_inv s -> moved i (cs_tasks s) l -> is_waker (cs_pcs s i) = false ->
  is_waker pc = false -> is_sleeper pc = false -> (forall e, cond_seen pc = Some e -> i32 e = e) ->
  cond_inv (CSys (cs_seq s) m l (<[i := pc]> (cs_pcs s))).
Proof.
  intros [Hl Ht Hq Hs Hw Hsl] [ML MT MO] Hi Hpc1 Hpc2 Hpc3. split; cbn [cs_seq cs_mutex cs_tasks cs_pcs].
  - by rewrite ML.
  - intros j. destruct (MT j) as [-> ->]. apply Ht.
  - done.
  - intros j e. destruct (decide (j = i)) as [->|Hne]; [rewrite fn_lookup_insert; apply Hpc3|rewrite fn_lookup_insert_ne by done; apply Hs].
  - intros j d n0. destruct (decide (j = i)) as [->|Hne]; [rewrite fn_lookup_insert; intros E; by rewrite E in Hpc1|].
    rewrite fn_lookup_insert_ne by done. apply Hw.
  - intros j e d. destruct (decide (j = i)) as [->|Hne]; [rewrite fn_lookup_insert; intros E; by rewrite E in Hpc2|].
    rewrite fn_lookup_insert_ne by done. intros Hj Hst. destruct (MO j Hne) as [E|]; [|done]. rewrite E in *.
    destruct (Hsl j e d Hj Hst) as (? & ? & Hp). split; [done|]. split; [done|]. destruct Hp as [|[k Hk]]; [by left|right].
    exists k. cbn. rewrite fn_lookup_insert_ne; [done|]. intros ->. congruence.
Qed.

Lemma cond_keep_mutex s i k pc s' : cond_inv s -> is_waker (cs_pcs s i) = false ->
  (forall pc, is_waker (k pc) = false /\ is_sleeper (k pc) = false /\ cond_seen (k pc) = cond_seen (cs_pcs s i)) ->
  cond_in_mutex self maddr i k pc s = Some s' -> cond_inv s'.
Proof.
  intros Hinv Hi Hk. unfold cond_in_mutex. destruct (mutex_step _ _ _ _ _ _) as [[[pc' m] l]|] eqn:E; [|done].
  intros [= <-]. destruct (Hk pc') as (H1 & H2 & H3). apply moved_mutex in E. apply (cond_keep s i (k pc') m l); [done..|].
  intros e. rewrite H3. by apply (ci_seen s Hinv).
Qed.

(** A waiter goes to sleep: the count is what it has seen. *)
Lemma cond_keep_sleep s i e d l : cond_inv s -> cs_pcs s i = C_wait e d -> (1 <= i < n)%nat ->
  wait_on i caddr e (cs_seq s) (cs_tasks s) = (Sleeps, l) -> cond_inv (cond_goto i (C_sleep e d) (cond_table l s)).
Proof.
  intros Hinv Hi Hr E. pose proof Hinv as [Hl Ht Hq Hs Hw Hsl]. pose proof (moved_wait _ _ _ _ _ _ _ E) as [ML MT MO].
  apply wait_on_sleeps in E as (Hseq & _ & Hp). specialize (Hp ltac:(lia)). destruct Hp as (_ & Hf & _).
  pose proof (Hs i e ltac:(by rewrite Hi)) as He.
  split; cbn [cs_seq cs_mutex cs_tasks cs_pcs cond_goto cond_table].
  - by rewrite ML.
  - intros j. destruct (MT j) as [-> ->]. apply Ht.
  - done.
  - intros j e'. destruct (decide (j = i)) as [->|Hne]; [rewrite fn_lookup_insert; by intros [= <-]|rewrite fn_lookup_insert_ne by done; apply Hs].
  - intros j d' n0. destruct (decide (j = i)) as [->|Hne]; [by rewrite fn_lookup_insert|].
    rewrite fn_lookup_insert_ne by done. apply Hw.
  - intros j e' d'. destruct (decide (j = i)) as [->|Hne].
    + rewrite fn_lookup_insert. intros [= <- <-] _. split; [done|]. split; [done|]. left. congruence.
    + rewrite fn_lookup_insert_ne by done. intros Hj Hst. destruct (MO j Hne) as [E|]; [|done]. rewrite E in *.
      destruct (Hsl j e' d' Hj Hst) as (? & ? & Hp). split; [done|]. split; [done|]. destruct Hp as [|[k Hk]]; [by left|right].
      exists k. cbn. rewrite fn_lookup_insert_ne; [done|]. intros ->. by rewrite Hi in Hk.
Qed.

(** A broadcast is counted: its wake is pending. *)
Lemma cond_keep_bump s i d : cond_inv s -> (1 <= i < n)%nat -> is_sleeper (cs_pcs s i) = false ->
  cond_inv (cond_goto i (C_wake d TLS_MAX_KEYS) (cond_bump s)).
Proof.
  intros [Hl Ht Hq Hs Hw Hsl] Hi Hns. split; cbn [cs_seq cs_mutex cs_tasks cs_pcs cond_goto cond_bump].
  - done.
  - done.
  - apply i32_small. unfold i32. pose proof (Z.mod_pos_bound (cs_seq s + 1 + 2 ^ 31) (2 ^ 32) ltac:(lia)). lia.
  - intros j e. destruct (decide (j = i)) as [->|Hne]; [by rewrite fn_lookup_insert|rewrite fn_lookup_insert_ne by done; apply Hs].
  - intros j d' n0. destruct (decide (j = i)) as [->|Hne]; [rewrite fn_lookup_insert; by intros [= _ <-]|].
    rewrite fn_lookup_insert_ne by done. apply Hw.
  - intros j e d'. destruct (decide (j = i)) as [->|Hne]; [by rewrite fn_lookup_insert|]. rewrite fn_lookup_insert_ne by done.
    intros Hj Hst. destruct (Hsl j e d' Hj Hst) as (? & ? & _). split; [done|]. split; [done|]. right.
    exists i. cbn. by rewrite fn_lookup_insert.
Qed.

(** The wake of a broadcast: nobody sleeps on the condition. *)
Lemma cond_keep_wake s i d k : cond_inv s -> cs_pcs s i = C_wake d k ->
  cond_inv (cond_goto i (C_mutex (M_idle d)) (cond_table (wake_on i caddr k (cs_tasks s)) s)).
Proof.
  intros Hinv Hi. pose proof Hinv as [Hl Ht Hq Hs Hw Hsl]. destruct (Hw i d k Hi) as [-> Hlt].
  pose proof (moved_wake i caddr TLS_MAX_KEYS (cs_tasks s)) as [ML MT MO].
  split; cbn [cs_seq cs_mutex cs_tasks cs_pcs cond_goto cond_table].
  - by rewrite ML.
  - intros j. destruct (MT j) as [-> ->]. apply Ht.
  - done.
  - intros j e. destruct (decide (j = i)) as [->|Hne]; [by rewrite fn_lookup_insert|rewrite fn_lookup_insert_ne by done; apply Hs].
  - intros j d' n0. destruct (decide (j = i)) as [->|Hne]; [by rewrite fn_lookup_insert|].
    rewrite fn_lookup_insert_ne by done. apply Hw.
  - intros j e d'. destruct (decide (j = i)) as [->|Hne]; [by rewrite fn_lookup_insert|].
    rewrite fn_lookup_insert_ne by done. intros Hj Hst. exfalso. destruct (MO j Hne) as [E|]; [|done].
    pose proof Hst as Hst'. rewrite E in Hst'. destruct (Hsl j e d' Hj Hst') as (Hjl & Hf & _).
    destruct (Ht i Hlt) as [Hri Hgi]. destruct (Ht j Hjl) as [_ Hgj].
    revert Hst. apply wake_on_all; try done; congruence || lia.
Qed.
Lemma cond_keep_goto s i pc l : cond_inv s -> moved i (cs_tasks s) l -> is_waker (cs_pcs s i) = false ->
  is_waker pc = false -> is_sleeper pc = false -> (forall e, cond_seen pc = Some e -> i32 e = e) ->
  cond_inv (cond_goto i pc (cond_table l s)).
Proof. intros. by apply (cond_keep s i pc (cs_mutex s) l). Qed.

Lemma cond_keep_relock s i e d l s' : cond_inv s -> moved i (cs_tasks s) l -> is_waker (cs_pcs s i) = false -> i32 e = e ->
  cond_relock i e d (cond_table l s) = Some s' -> cond_inv s'.
Proof.
  intros Hinv Hm Hi He. unfold cond_relock. destruct (mutex_call _ _ _) as [pc|]; [|done]. intros [= <-].
  apply cond_keep_goto; try done. by intros e' [= <-].
Qed.

Lemma cond_inv_run op i s s' : cond_inv s -> (1 <= i < n)%nat -> op <> op_signal ->
  cond_run self maddr caddr op i s = Some s' -> cond_inv s'.
Proof.
  intros Hinv Hr Hop. pose proof (ci_seen s Hinv i) as Hseen. pose proof (moved_refl i (cs_tasks s)) as Hm.
  unfold cond_run. destruct (cs_pcs s i) as [mp|d|e mp|e d|e d|e mp|e d|d n0] eqn:Hi.
  - assert (Hin : forall pc', cond_in_mutex self maddr i C_mutex pc' s = Some s' -> cond_inv s').
    { intros pc'. apply (cond_keep_mutex s i C_mutex); [done|by rewrite Hi|]. intros pc. by rewrite Hi. }
    destruct mp as [d|d|d|d|d|d|d|d|d|d|d|d|d|d|d]; [|apply Hin..].
    destruct op as [o| | |]; [| |done|].
    + destruct (mutex_call _ _ _) as [pc|]; [|done]. intros [= <-]. apply (cond_keep_goto s i _ (cs_tasks s)); try done. by rewrite Hi.
    + intros [= <-]. apply (cond_keep_goto s i _ (cs_tasks s)); try done. by rewrite Hi.
    + intros [= <-]. apply cond_keep_bump; [done|lia|by rewrite Hi].
  - destruct (mutex_call _ _ _) as [pc|]; [|done]. intros [= <-]. apply (cond_keep_goto s i _ (cs_tasks s)); try done; [by rewrite Hi|].
    intros e [= <-]. by apply ci_seq.
  - assert (Hin : forall pc', cond_in_mutex self maddr i (C_unlock e) pc' s = Some s' -> cond_inv s').
    { intros pc'. apply (cond_keep_mutex s i (C_unlock e)); [done|by rewrite Hi|]. intros pc. by rewrite Hi. }
    destruct mp as [d|d|d|d|d|d|d|d|d|d|d|d|d|d|d]; [|apply Hin..].
    intros [= <-]. apply (cond_keep_goto s i _ (cs_tasks s)); try done. by rewrite Hi.
  - destruct (wait_on _ _ _ _ _) as [[r|] l] eqn:E.
    + apply cond_keep_relock; [done|by eapply moved_wait|by rewrite Hi|by apply Hseen].
    + intros [= <-]. by apply cond_keep_sleep.
  - destruct (woken _ _ _) as [l|] eqn:E; [|done]. cbn [mbind option_bind].
    apply cond_keep_relock; [done|by eapply moved_woken|by rewrite Hi|by apply Hseen].
  - assert (Hin : forall pc', cond_in_mutex self maddr i (C_lock e) pc' s = Some s' -> cond_inv s').
    { intros pc'. apply (cond_keep_mutex s i (C_lock e)); [done|by rewrite Hi|]. intros pc. by rewrite Hi. }
    destruct mp as [d|d|d|d|d|d|d|d|d|d|d|d|d|d|d]; [|apply Hin..].
    intros [= <-]. apply (cond_keep_goto s i _ (cs_tasks s)); try done. by rewrite Hi.
  - intros [= <-]. apply (cond_keep_goto s i _ (cs_tasks s)); [done|done|by rewrite Hi|by case_match|by case_match|by case_match].
  - intros [= <-]. by apply (cond_keep_wake s i d n0).
Qed.

Lemma cond_inv_tick now s : cond_inv s -> cond_inv (cond_table (tick now (cs_tasks s)) s).
Proof.
  intros [Hl Ht Hq Hs Hw Hsl]. pose proof (fun j => moved_tick now j (cs_tasks s)) as Hm.
  assert (ML : length (tick now (cs_tasks s)) = length (cs_tasks s)) by apply (Hm 0%nat).
  split; cbn [cs_seq cs_mutex cs_tasks cs_pcs cond_table]; try done; [by rewrite ML| |].
  - intros j. destruct (mv_task _ _ _ (Hm 0%nat) j) as [-> ->]. apply Ht.
  - intros j e d Hj Hst. destruct (mv_other _ _ _ (Hm (S j)) j ltac:(lia)) as [E|]; [|done]. rewrite E in *.
    destruct (Hsl j e d Hj Hst) as (? & ? & Hp). done.
Qed.

Lemma cond_inv_reachable rec l s : length l = n ->
  (forall j, (1 <= j < n)%nat -> t_ring (slot l j) = TASK_RING3 /\ t_group (slot l j) = g) ->
  rtc (cond_steps self maddr caddr (fun i op => (1 <= i < n)%nat /\ op <> op_signal)) (cond_start rec l) s -> cond_inv s.
Proof.
  intros Hl Ht. apply (rtc_ind_r cond_inv).
  - split; try done.
  - intros y z _ Hyz Hy. destruct Hyz as [op i y z [Hi Hop] Hrun|now y]; [by eapply cond_inv_run|by apply cond_inv_tick].
Qed.
End broadcast.

(** C30. A broadcast misses nobody: in every interleaving of [pthread_cond_wait] and
    [pthread_cond_broadcast] with the calls of the mutex in between, a thread that
    sleeps on the condition has seen the present count, so that no broadcast came
    after it looked, or somebody who has counted a broadcast is about to wake all
    that wait.  (All threads are of one process; 64 waiters is more than there are
    slots.) *)
Theorem broadcast_misses_nobody self maddr caddr g rec l s i e d :
  user_ptr_ok caddr = true -> 0 < g -> (length l <= 64)%nat ->
  (forall j, (1 <= j < length l)%nat -> t_ring (slot l j) = TASK_RING3 /\ t_group (slot l j) = g) ->
  rtc (cond_steps self maddr caddr (fun i op => (1 <= i < length l)%nat /\ op <> op_signal)) (cond_start rec l) s ->
  cs_pcs s i = C_sleep e d -> t_state (slot (cs_tasks s) i) = TASK_SLEEPING ->
  e = cs_seq s \/ exists j d', cs_pcs s j = C_wake d' TLS_MAX_KEYS.
Proof.
  intros Ha Hg Hl Ht Hr Hi Hst. apply (cond_inv_reachable self maddr caddr g (length l) Ha Hg Hl rec l s eq_refl Ht) in Hr.
  destruct (ci_sleep _ _ _ _ Hr i e d Hi Hst) as (_ & _ & [|[j Hj]]); [by left|right].
  destruct (cs_pcs s j) as [| | | | | | |d' k] eqn:E; try done. destruct (ci_wake _ _ _ _ Hr j d' k E) as [-> _]. by exists j, d'.
Qed.

(** ** Witnesses *)

(** Thread 1 has the mutex while thread 2 sleeps for it. *)
Lemma mutex_exclusion_witness : exists s,
  rtc (fun a b => mutex_steps (fun a => Z.of_nat a + 1) 0x1000 (fun _ => True) a b /\ shallow b)
    (mutex_start true two_threads) s /\
  ms_pcs s 1 = M_idle 2 /\ owner (ms_mutex s) = 2 /\ recursion (ms_mutex s) = 2 /\ ms_pcs s 2 = L_sleep 0.
Proof.
  set (t := replicate 7 (op_lock, 1%nat) ++ replicate 5 (op_lock, 2%nat)).
  assert (Ht : exists s, mutex_trace (fun a => Z.of_nat a + 1) 0x1000 t (mutex_start true two_threads) = Some s /\
    ms_pcs s 1 = M_idle 2 /\ ms_pcs s 2 = L_sleep 0).
  { eexists. split; [vm_compute; reflexivity|]. split; vm_compute; reflexivity. }
  destruct Ht as (s & Ht & H1 & H2). exists s.
  assert (Hr : rtc (fun a b => mutex_steps (fun a => Z.of_nat a + 1) 0x1000 (fun _ => True) a b /\ shallow b)
    (mutex_start true two_threads) s).
  { apply (mutex_trace_shallow _ _ t _ _ 0); [intros j; cbn; lia|vm_compute; reflexivity|exact Ht]. }
  destruct (mutex_exclusion (fun a => Z.of_nat a + 1) 0x1000 true two_threads s 1 1 ltac:(cbn; lia) ltac:(cbn; lia) Hr
    ltac:(by rewrite H1) ltac:(by rewrite H1)) as (_ & _ & Hd).
  destruct (Hd 2%nat H1) as [Ho Hc]. exact (conj Hr (conj H1 (conj Ho (conj Hc H2)))).
Defined.

(** The token is taken, thread 2 sleeps, and a token is posted. *)
Lemma sem_counts_witness : exists s,
  rtc (sem_steps 0x1000 (fun _ _ => True)) (sem_start 1 two_threads) s /\ ss_posted s = 1 /\ ss_pcs s 2 = W_sleep /\
  ss_count s = 1 + 1 - ss_taken s.
Proof.
  set (t := replicate 3 (op_wait, 1%nat) ++ replicate 3 (op_wait, 2%nat) ++ [(op_post, 1%nat)]).
  assert (Ht : exists s, sem_trace 0x1000 t (sem_start 1 two_threads) = Some s /\ ss_posted s = 1 /\ ss_pcs s 2 = W_sleep).
  { eexists. split; [vm_compute; reflexivity|]. split; vm_compute; reflexivity. }
  destruct Ht as (s & Ht & Hp & H2). exists s.
  assert (Hr : rtc (sem_steps 0x1000 (fun _ _ => True)) (sem_start 1 two_threads) s).
  { eapply sem_trace_steps; [exact Ht|]. cbn. repeat (apply Forall_cons_2; [exact I|]). apply Forall_nil_2. }
  destruct (sem_counts 0x1000 1 1 two_threads s ltac:(lia) eq_refl Hr ltac:(lia)) as [Hc _].
  rewrite Hp in Hc. exact (conj Hr (conj Hp (conj H2 Hc))).
Defined.

Fixpoint cond_trace (self : nat -> Z) (maddr caddr : Z) (t : list (cond_op * nat)) (s : cond_sys) : option cond_sys :=
  match t with
  | [] => Some s
  | (op, i) :: t => s ← cond_run self maddr caddr op i s; cond_trace self maddr caddr t s
  end.

Lemma cond_trace_steps self maddr caddr (who : nat -> cond_op -> Prop) t s s' :
  cond_trace self maddr caddr t s = Some s' -> Forall (fun x => who (snd x) (fst x)) t ->
  rtc (cond_steps self maddr caddr who) s s'.
Proof.
  revert s. induction t as [|[op i] t IH]; intros s; cbn [cond_trace]; [by intros [= <-]|].
  destruct (cond_run self maddr caddr op i s) as [s1|] eqn:E; [|done]. intros Ht [Hi Hw]%Forall_cons_1.
  eapply rtc_l; [by eapply cond_thread|]. by apply IH.
Qed.

(** Thread 2 waits; thread 1 has counted a broadcast and is about to wake it. *)
Lemma broadcast_misses_nobody_witness : exists s,
  rtc (cond_steps Z.of_nat 0x1000 0x2000 (fun i op => (1 <= i < 3)%nat /\ op <> op_signal)) (cond_start false two_threads) s /\
  cs_pcs s 2 = C_sleep 0 0 /\ cs_seq s = 1 /\ exists j d, cs_pcs s j = C_wake d TLS_MAX_KEYS.
Proof.
  set (t := replicate 2 (op_mutex op_lock, 2%nat) ++ replicate 6 (op_cond_wait, 2%nat) ++ [(op_broadcast, 1%nat)]).
  assert (Ht : exists s, cond_trace Z.of_nat 0x1000 0x2000 t (cond_start false two_threads) = Some s /\
    cs_pcs s 2 = C_sleep 0 0 /\ cs_seq s = 1 /\ t_state (slot (cs_tasks s) 2) = TASK_SLEEPING).
  { eexists. split; [vm_compute; reflexivity|]. split_and!; vm_compute; reflexivity. }
  destruct Ht as (s & Ht & H2 & Hq & Hst). exists s.
  assert (Hr : rtc (cond_steps Z.of_nat 0x1000 0x2000 (fun i op => (1 <= i < length two_threads)%nat /\ op <> op_signal)) (cond_start false two_threads) s).
  { eapply cond_trace_steps; [exact Ht|]. cbn. repeat (apply Forall_cons_2; [cbn; split; [lia|discriminate]|]). apply Forall_nil_2. }
  assert (Htasks : forall j, (1 <= j < length two_threads)%nat ->
    t_ring (slot two_threads j) = TASK_RING3 /\ t_group (slot two_threads j) = 4).
  { intros j Hj. destruct j as [|[|[|j]]]; [cbn in Hj; lia|split; reflexivity|split; reflexivity|cbn in Hj; lia]. }
  destruct (broadcast_misses_nobody Z.of_nat 0x1000 0x2000 4 false two_threads s 2 0 0 eq_refl eq_refl ltac:(cbn; lia) Htasks Hr H2 Hst)
    as [He|Hp]; [rewrite Hq in He; discriminate|]. exact (conj Hr (conj H2 (conj Hq Hp))).
Defined.

(** ** Locks that are only tried, keys, and results of threads *)

(** The test of the trylock is the wrong way round: a free lock is reported busy
    and its inner mutex stays locked; while another thread has the inner mutex the
    lock is taken without it, and the mutex released for the other. *)
Lemma tryrdlock_inverted rw : locked (rw_mutex rw) = 0 \/ locked (rw_mutex rw) = 1 ->
  let '(r, rw') := pthread_rwlock_tryrdlock rw in
  (locked (rw_mutex rw) = 0 -> r = EBUSY /\ locked (rw_mutex rw') = 1 /\ rw_readers rw' = rw_readers rw) /\
  (locked (rw_mutex rw) = 1 -> locked (rw_mutex rw') = 0 /\ (r = 0 -> rw_readers rw' = rw_readers rw + 1)).
Proof.
  unfold pthread_rwlock_tryrdlock, trylock_normal. intros [-> | ->]; [done|]. cbn.
  destruct (negb _ || negb _); done.
Qed.

(** A new key has in every thread the value of the last key of its number, not NULL. *)
Lemma key_keeps_values k values v : key_used k = replicate 64 false -> length values = 64%nat ->
  exists i k1 k2, pthread_key_create 0 k = (inr i, k1) /\ pthread_key_delete (Z.of_nat i) k1 = (0, k2) /\
  fst (pthread_key_create 0 k2) = inr i /\
  pthread_getspecific (Z.of_nat i) (snd (pthread_setspecific (Z.of_nat i) v values)) = v.
Proof.
  intros Hk Hv. exists 0%nat. unfold pthread_key_create. rewrite Hk. eexists _, _. split; [reflexivity|].
  split; [reflexivity|]. split; [reflexivity|]. destruct values; [done|]. reflexivity.
Qed.

(** What a thread returns is cut to 32 bits on its way to [pthread_join]. *)
Lemma join_cuts_result l id i v : find_from (fun _ t => (t_id t =? id) && negb (bool_decide (t_state t = TASK_FREE))) 0 l = Some i ->
  t_state (slot l i) = TASK_DEAD -> t_exit_code (slot l i) = i32 v -> join_pass id l = TReturns (u32 v).
Proof.
  intros Hf Hs Hc. unfold join_pass. rewrite Hf, Hs, Hc. f_equal. unfold i32, wrap.
  rewrite Zminus_mod, Zmod_mod, <-Zminus_mod. f_equal. lia.
Qed.
